(* ===== verification/_CoqProject ===== *)
-Q . S2P
Prelude.v
RustStr.v
Sse.v
LineReader.v
EventStore.v
SessionStore.v
IdGen.v
TaskStore.v
Dispatcher.v
Transport.v
SseBody.v
Auth.v
ServerRuntime.v
Requests.v
TaskForwarding.v
UtcTime.v
Http.v
ClientStream.v
HttpHandler.v
ClientRuntime.v
StreamableClient.v
HttpSession.v
HttpConcurrent.v
HttpResume.v
Json.v
Claims.v
Metadata.v
AuthProviders.v
OAuthDiscovery.v
OAuthClient.v
OAuthFlow.v
JsonSchema.v
Syn.v
RustTypes.v
DeriveSchema.v
SerdeDocuments.v
MacroAttributes.v
ToolBox.v
Elicit.v
MacroItems.v
HttpAnswers.v
Adapters.v
HttpServers.v
HttpRuntimes.v
ClientTransports.v
StdioServer.v
StdioSession.v
ConformanceServer.v
ConformanceMain.v
ConformanceClient.v
