(* ===== verification/Prelude.v ===== *)
(** * rust-mcp-sdk: a verification library (root file)

    The SDK of crates/ implements the Model Context Protocol: JSON-RPC messages
    between clients and servers over standard streams or HTTP, with OAuth for
    servers that want it.  This development models both sides with their
    transports, the servers for two web frameworks, the authorization between
    them and the macros, and proves what makes them correct.

    ** The program and its model

    A request comes from axum or actix, whose routes hand it to the HTTP
    handler, which runs the middlewares, finds
    or creates a session and opens a stream: a transport whose input is the
    request's payload and whose output is the response body.  The session's
    runtime reads the transport's messages, calls the user's handler and sends
    the answers back through the transport's dispatcher; on a resumable session
    each line is kept in the event store, from which a reconnecting client is
    brought up to date.  The client's runtime opens one transport per request
    and one standalone stream, whose bodies its SSE parser reads.  When the
    server demands a token, the client finds the authorization server from the
    metadata the server publishes and obtains one.  Macros derive the schemas of
    the user's types and turn those types into tools, resources and
    elicitations.  The files follow these parts, callees first (T, S, X and M
    abbreviate the src directories of rust-mcp-transport, rust-mcp-sdk,
    rust-mcp-extra and rust-mcp-macros):

    - Prelude.v: this file; results, the state-and-error monad [Act], machine
      integers, lists, tactics, the hint database [rust].
    - RustStr.v: the text functions of Rust's standard library that are used.
    - Sse.v: T/utils/sse_event.rs ([SseEvent]) and T/utils/sse_parser.rs
      ([SseParser]).
    - LineReader.v: T/mcp_stream.rs, the capped reader of incoming lines.
    - EventStore.v: T/event_store.rs as the class [EventStore] and
      T/event_store/in_memory_event_store.rs as its instance.
    - SessionStore.v: S/session_store.rs as the class [SessionStore] with its
      laws and S/session_store/in_memory_session_store.rs as their instance.
    - IdGen.v: S/mcp_traits/request_id_gen.rs, S/id_generator/ and
      X/id_generator/.
    - TaskStore.v: S/task_store/in_memory_task_store.rs.
    - Dispatcher.v: T/message_dispatcher.rs, pending requests and writing lines.
    - Transport.v: T/sse.rs ([SseTransport]) and the cancellation token and byte
      channels of T/utils/.
    - SseBody.v: the body streams of S/mcp_http/http_utils.rs.
    - Auth.v: tokens, scopes and claims of S/auth/, and X/token_verifier/;
      Claims.v: the JSON of claims and of introspection answers (S/auth/spec/).
    - ServerRuntime.v: S/mcp_runtimes/server_runtime.rs ([ServerRuntime]), over
      the class [TransportDispatcher], which the SSE transport implements.
    - Requests.v: the typed requests of S/mcp_traits/ and their dispatch to the
      user's handler in S/mcp_runtimes/*/ and S/mcp_handlers/.
    - Http.v: the response builders and the middlewares of S/mcp_http/.
    - ClientStream.v: T/utils/streamable_http_stream.rs, T/utils/sse_stream.rs
      and T/utils/http_utils.rs, the client's reconnecting streams.
    - HttpHandler.v: S/mcp_http/mcp_http_handler.rs ([McpHttpHandler]),
      S/mcp_http/app_state.rs ([McpAppState]) and the session and stream
      functions of S/mcp_http/http_utils.rs.
    - ClientRuntime.v: S/mcp_runtimes/client_runtime.rs ([ClientRuntime]), over
      the class [ClientTransport].
    - StreamableClient.v: T/client_streamable_http.rs, the instance of that
      class, composed with the client runtime; HttpSession.v: such a client and
      the server of HttpHandler.v, connected; HttpConcurrent.v: that server when
      posts and their tasks interleave; HttpResume.v: a client that reconnects
      its standalone stream.
    - Json.v: JSON documents and what serde derives for structs, as the class
      [Codec].
    - Metadata.v: S/auth/metadata.rs, S/auth/spec/discovery.rs and
      S/auth/auth_provider/, over the class [UrlLib] for the url crate.
    - AuthProviders.v: X/auth_provider/ (Keycloak, WorkOS, Scalekit).
    - OAuthDiscovery.v, OAuthClient.v: S/auth/client_auth/, over a network that
      answers as it likes ([Network]).
    - OAuthFlow.v: the client's discovery against the server's providers.
    - JsonSchema.v: what a JSON Schema accepts, and serde_json's maps.
    - Syn.v: the syntax trees the macros work on; RustTypes.v: what types and
      attributes mean by the documentation of Rust and serde, and which programs
      that of the macros covers.
    - DeriveSchema.v: M/utils.rs and the derive macro of M/lib.rs.
    - SerdeDocuments.v: the documents serde writes for a type's values.
    - MacroAttributes.v: the parsers and generators of M/common/, M/tool/,
      M/resource/ and M/elicit/.
    - ToolBox.v: what [mcp_tool] generates, and S/mcp_macros/tool_box.rs.
    - Elicit.v: M/elicit/generator.rs.
    - MacroItems.v: the attribute macros of M/lib.rs on the items they are
      written on.
    - HttpAnswers.v: header maps that can be listed, and what every answer of
      the HTTP handler and its middlewares looks like.
    - Adapters.v: the routes, handlers and errors of rust-mcp-axum ([Axum]) and
      rust-mcp-actix ([Actix]) with its bridge.rs, and the HTTP handler behind
      them ([HandlerService]).
    - HttpServers.v: the options of both servers (server.rs, options.rs), how a
      server is assembled and opened, and the runtimes (runtime.rs) that reach
      its sessions ([HttpServerRuntime]); HttpRuntimes.v: the runtimes as the
      class [McpHttpServer], with what they run beside the listener.
    - TaskForwarding.v: the task that forwards the status changes of a task
      store, from its broadcast channel to the sessions; UtcTime.v: the times
      of its tasks, by S/utils.rs.
    - ClientTransports.v: T/stdio.rs ([StdioTransport]) and the running part of
      T/client_sse.rs ([SseClient]).
    - StdioServer.v: what of S/mcp_runtimes/server_runtime.rs only a server over
      standard streams uses.
    - StdioSession.v: a client and a server connected by two pipes, as a step
      relation over both runtimes.
    - ConformanceServer.v, ConformanceMain.v, ConformanceClient.v: the programs of
      crates/conformance-server/ and crates/conformance-client/, in which the
      parts above are put to use, and the two against each other.

    An operation of the code is the definition of its name, in the Module of its
    struct.  The code's asynchronous methods are functions on explicit states: a
    part between two await points is one step, and what other tasks do at an
    await point is a function on the state that the claim quantifies over ([env],
    [run]) or a step of a relation.  Shared objects ([Arc]) are numbers in a
    list.  Errors are values of [result]; a panic is [None].

    ** What is shown

    - Bytes: SSE parsing does not depend on how a stream is cut and inverts
      rendering; capped line reading likewise, and its loop terminates and
      delivers exactly the lines within the cap; channels deliver what was
      written.
    - Delivery: what a resumable stream sends arrives intact and in order with
      its ids, and the store replays what a client missed as long as it keeps
      the event the client saw, over HTTP too, whatever is sent before and
      during the reconnection; a stream that is gone still records; the framing
      of replayed messages; the client's streams deliver every message across
      reconnections, until a handler fails or their retries are used up.
    - Requests and responses: client and server match responses to requests
      whatever other tasks do; a client's message is handled once, on its own
      stream; a typed call ends in the handler's answer or its error, and what
      the capabilities do not allow is refused; a whole session over HTTP gives
      every call what the handler answers when it is called directly, and with
      any number of posts under way the server is linearizable; request ids are
      consecutive, the other generators' ids distinct.
    - Sessions: the sharded store is a finite map with a capacity; the HTTP
      handler refuses malformed requests, creates and deletes sessions, and
      opens no second standalone stream while one is live; a stale stream never
      disturbs the live one; initialization and version negotiation on both
      sides.
    - Security: DNS rebinding, CORS and bearer authentication let through what
      they should; a token is accepted only after the configured checks, which
      the providers configure; published metadata is well formed; the client
      sends its credentials only where discovery told it to and hands out no
      token it knows to be stale.
    - Servers: with either framework no request gets around the configured
      checks; both mount the same endpoints and answer alike; the bridge to
      actix loses nothing of an answer; what a server sends on its own account
      reaches the sessions it names and no other.
    - Standard streams: a client and a server connected by pipes answer every
      request, whatever the interleaving, within a bounded number of steps.
    - Client transports: whatever happened before, shutting down wakes every
      task or says that none is left; when a process exits nobody waits for it;
      what is posted over SSE goes to one address of the server, in order, each
      message whole as long as the buffers pass it on as one item.
    - Tasks: every task stays scheduled; listing terminates and is complete;
      results and status changes; a tracked request ends with its result.
    - Macros: a derived schema accepts exactly the documents of its type, and
      what serde writes for the type's values, in the programs that [covered]
      and [supported] describe (structs and enums without data); attributes
      that are accepted expand without a panic; a listed tool can be called and
      its arguments come back; an elicitation's content is read, or refused,
      field by field.
    - The conformance programs: what the server lists it serves; its reports
      arrive in order; it is the server that its options describe; the client
      starts sessions only with tokens issued for the server, and asks for more
      scopes only as the union of what it had and what it was challenged for.

    ** Fuel and bounds

    Decimal printing is given the number's bits as fuel, cutting a buffer into
    lines its length, the reader's loop and the walk through the pages of a task
    list more than the bytes or tasks that are left; the client's streams one
    more than the replies the network holds, the SSE stream its retries besides,
    the runtime's reconnection loop one more than the reconnections the network
    admits ([reconnections_bounded]); the lemmas about them take exactly these
    bounds.  Everything else recurses on the chunks, reads, polls, clock
    readings or events it is given.  Counters that wrap around in the code do so
    here ([U64], [U128], [I64_MAX]).

    ** What is not modelled

    The schema crate's messages and their JSON, the JWT, HTTP, URL, hashing and
    random-id libraries, the clock, the web frameworks' extractors and the user's handler are
    parameters with stated laws; launching a process, resolving a name, reading
    the TLS files and listening are arguments.  Not modelled are the sockets and
    signals themselves, message observers, the tests and sample programs of the
    crates, and the parts of the OAuth metadata that nothing calls
    ([OauthMetadata], [AuthorizationServerMetadata::from_discovery_url]).  Each
    SSE transport carries its own copy of the event store as a value; claims
    about the store concern one stream, and one that replaces another gets the
    store as the other left it.  Handlers run to completion as one step
    of the stream's task; one task at a time uses an OAuth client. *)
From Stdlib Require Export Ascii ZArith NArith Lia.
From stdpp Require Export base option numbers gmap strings relations list.

(** ** Text *)

(** A Rust [String], [&str], [Vec<u8>] or [Bytes] is its sequence of bytes. *)
Abbreviation str := (list ascii).
Abbreviation bytes := (list ascii).

Declare Scope rust_scope.
Delimit Scope rust_scope with rust.
#[global] Open Scope rust_scope.

(** [s! "abc"] is the byte sequence of a literal. *)
Notation "'s!' x" := (Stdlib.Strings.String.list_ascii_of_string x%string) (at level 1, x at level 0, only parsing) : rust_scope.

Definition LF : ascii := ascii_of_nat 10.
Definition CR : ascii := ascii_of_nat 13.

Definition code (c : ascii) : N := N_of_ascii c.

(** ** Results *)

(** [Result<A, E>]. *)
Inductive result (A E : Type) : Type :=
| Ok (a : A)
| Err (e : E).
Arguments Ok {A E} a.
Arguments Err {A E} e.

(** The [?] operator. *)
Notation "'let?' x ':=' e 'in' k" :=
  (match e with Ok x => k | Err err => Err err end)
  (at level 10, x pattern, e at level 200, k at level 200) : rust_scope.

Definition is_ok {A E} (r : result A E) : bool :=
  match r with Ok _ => true | Err _ => false end.

#[export] Instance result_eq_dec {A E} `{EqDecision A, EqDecision E} : EqDecision (result A E).
Proof. solve_decision. Defined.

(** [Option::ok_or] and [Option::is_some]. *)
Definition ok_or {A E} (o : option A) (e : E) : result A E :=
  match o with Some a => Ok a | None => Err e end.
Definition is_some {A} (o : option A) : bool :=
  match o with Some _ => true | None => false end.

(** ** The state and error monad *)

(** An async method on a shared state: it reads and writes the state and
    returns a [Result]; what it changed before an error stays changed. *)
Definition Act (S E A : Type) : Type := S -> result A E * S.

Definition act_ret {S E A} (a : A) : Act S E A := fun s => (Ok a, s).
Definition act_fail {S E A} (e : E) : Act S E A := fun s => (Err e, s).
Definition act_lift {S E A} (r : result A E) : Act S E A := fun s => (r, s).
Definition act_bind {S E A B} (m : Act S E A) (k : A -> Act S E B) : Act S E B :=
  fun s => match m s with
           | (Ok a, s) => k a s
           | (Err e, s) => (Err e, s)
           end.
(** A step that cannot fail, and a reading of the state. *)
Definition act_modify {S E} (f : S -> S) : Act S E unit := fun s => (Ok tt, f s).
Definition act_get {S E A} (f : S -> A) : Act S E A := fun s => (Ok (f s), s).

Notation "'do' x '<-' m ';' k" := (act_bind m (fun x => k))
  (at level 10, x pattern, m at level 200, k at level 200, right associativity) : rust_scope.

Fixpoint act_map {S E A B} (f : A -> Act S E B) (l : list A) : Act S E (list B) :=
  match l with
  | [] => act_ret []
  | x :: r => act_bind (f x) (fun y => act_bind (act_map f r) (fun ys => act_ret (y :: ys)))
  end.

(** ** Machine integers *)

Definition U64 : N := 2 ^ 64.
Definition U128 : N := 2 ^ 128.
Definition I64_MAX : Z := 2 ^ 63 - 1.

(** [x as u64] for an [i64] x, and [x as i64] for a [u64] x. *)
Definition i64_as_u64 (x : Z) : N := Z.to_N (x mod 2 ^ 64).
Definition u64_as_i64 (x : N) : Z :=
  let z := Z.of_N x in if (z <? 2 ^ 63)%Z then z else (z - 2 ^ 64)%Z.
(** [fetch_add(1)] on an [AtomicU64]: wraps around. *)
Definition u64_succ (x : N) : N := ((x + 1) mod U64)%N.
(** [u64::saturating_add] and [saturating_sub]. *)
Definition u64_sat_add (x y : N) : N := N.min (x + y) (U64 - 1).
Definition u64_sat_sub (x y : N) : N := (x - y)%N.

(** ** Automation *)

Create HintDb rust discriminated.

(** Case analysis on every boolean test, [decide] and match of the goal. *)
Ltac break :=
  repeat (case_match || case_decide); simplify_eq/=; try done.

(** Decides a closed decidable proposition by computation. *)
Ltac decided := apply (bool_decide_unpack _); vm_compute; exact I.

(** Turns boolean equalities of the context into propositions. *)
Ltac bool_prop :=
  repeat match goal with
  | H : (_ && _)%bool = true |- _ => apply andb_true_iff in H; destruct H
  | H : (_ || _)%bool = false |- _ => apply orb_false_iff in H; destruct H
  | H : negb _ = true |- _ => apply negb_true_iff in H
  | H : negb _ = false |- _ => apply negb_false_iff in H
  | H : bool_decide _ = true |- _ => apply bool_decide_eq_true in H
  | H : bool_decide _ = false |- _ => apply bool_decide_eq_false in H
  | H : (_ <=? _)%nat = true |- _ => apply Nat.leb_le in H
  | H : (_ <=? _)%nat = false |- _ => apply Nat.leb_gt in H
  | H : (_ <? _)%nat = true |- _ => apply Nat.ltb_lt in H
  | H : (_ <? _)%nat = false |- _ => apply Nat.ltb_ge in H
  | H : (_ =? _)%nat = true |- _ => apply Nat.eqb_eq in H
  | H : (_ =? _)%nat = false |- _ => apply Nat.eqb_neq in H
  | H : (_ <=? _)%N = true |- _ => apply N.leb_le in H
  | H : (_ <=? _)%N = false |- _ => apply N.leb_gt in H
  | H : (_ <? _)%N = true |- _ => apply N.ltb_lt in H
  | H : (_ <? _)%N = false |- _ => apply N.ltb_ge in H
  | H : (_ =? _)%N = true |- _ => apply N.eqb_eq in H
  | H : (_ =? _)%N = false |- _ => apply N.eqb_neq in H
  | H : (_ <=? _)%Z = true |- _ => apply Z.leb_le in H
  | H : (_ <=? _)%Z = false |- _ => apply Z.leb_gt in H
  | H : (_ <? _)%Z = true |- _ => apply Z.ltb_lt in H
  | H : (_ <? _)%Z = false |- _ => apply Z.ltb_ge in H
  end.

(** ** Lists *)

(** [iter().position(p)] *)
Fixpoint position {A} (p : A -> bool) (l : list A) : option nat :=
  match l with
  | [] => None
  | x :: r => if p x then Some 0 else S <$> position p r
  end.

(** [slice.join(sep)] *)
Fixpoint join {A} (sep : list A) (ls : list (list A)) : list A :=
  match ls with
  | [] => []
  | [l] => l
  | l :: r => l ++ sep ++ join sep r
  end.

Section ListFacts.
Context {A : Type}.
Implicit Types (l : list A) (p : A -> bool).

Lemma position_Some p l n :
  position p l = Some n ->
  exists x, l = take n l ++ x :: drop (S n) l /\ l !! n = Some x /\ p x = true
            /\ Forall (fun y => p y = false) (take n l).
Proof.
  revert n; induction l as [|a l IH]; intros n; simpl; [done|].
  destruct (p a) eqn:Ha.
  - intros [= <-]. exists a; simpl; auto.
  - destruct (position p l) as [m|] eqn:E; simpl; [|done].
    intros [= <-]. destruct (IH m eq_refl) as (x & H1 & H2 & H3 & H4).
    exists x; simpl; split_and!; auto. by f_equal.
Qed.

Lemma position_None p l : position p l = None <-> Forall (fun y => p y = false) l.
Proof.
  induction l as [|a l IH]; simpl; [split; auto|].
  destruct (p a) eqn:Ha; split; try done.
  - inversion 1; congruence.
  - destruct (position p l) eqn:E; simpl; [done|]. intros _. constructor; tauto.
  - inversion 1; subst. by rewrite (proj2 IH).
Qed.

Lemma position_app_r p l x r :
  Forall (fun y => p y = false) l -> p x = true ->
  position p (l ++ x :: r) = Some (length l).
Proof.
  intros Hl Hx; induction Hl as [|a l Ha _ IH]; simpl; [by rewrite Hx|].
  by rewrite Ha, IH.
Qed.

Lemma position_lt p l n : position p l = Some n -> n < length l.
Proof. intros (x & _ & H & _)%position_Some. by apply lookup_lt_Some in H. Qed.

Lemma filter_In_iff p (x : A) l : x ∈ List.filter p l <-> x ∈ l /\ p x = true.
Proof. rewrite !list_elem_of_In. apply filter_In. Qed.

Lemma Forall_filter_id p l : Forall (fun y => p y = true) l -> List.filter p l = l.
Proof. induction 1 as [|x l Hx _ IH]; simpl; [done|]. by rewrite Hx, IH. Qed.

Lemma filter_length_le p l : length (List.filter p l) <= length l.
Proof. induction l as [|a l IH]; simpl; [lia|]. destruct (p a); simpl; lia. Qed.
End ListFacts.

(** [slice.sort_by_key(key)]: the stable sort. *)
Section SortByKey.
Context {A : Type} (key : A -> N).

Fixpoint insert_by_key (x : A) (l : list A) : list A :=
  match l with
  | [] => [x]
  | y :: r => if (key x <=? key y)%N then x :: l else y :: insert_by_key x r
  end.
Definition sort_by_key (l : list A) : list A := foldr insert_by_key [] l.

(** Keys in non-decreasing order. *)
Fixpoint ascending (l : list A) : Prop :=
  match l with
  | [] => True
  | x :: r => Forall (fun y => (key x <= key y)%N) r /\ ascending r
  end.

Lemma insert_by_key_perm x l : insert_by_key x l ≡ₚ x :: l.
Proof.
  induction l as [|y l IH]; simpl; [done|]. case_match; [done|].
  rewrite IH. by apply Permutation_swap.
Qed.

Lemma sort_by_key_perm l : sort_by_key l ≡ₚ l.
Proof. induction l as [|x l IH]; simpl; [done|]. by rewrite insert_by_key_perm, IH. Qed.

Lemma insert_by_key_ascending x l : ascending l -> ascending (insert_by_key x l).
Proof.
  induction l as [|y l IH]; simpl; [auto|]. intros [Hy Hl].
  destruct (N.leb_spec (key x) (key y)) as [H|H]; simpl.
  - split; [|by split]. constructor; [done|]. eapply Forall_impl; [exact Hy|]. simpl; lia.
  - split; [|by apply IH]. rewrite insert_by_key_perm. constructor; [lia|done].
Qed.

Lemma sort_by_key_ascending l : ascending (sort_by_key l).
Proof. induction l; simpl; [done|]. by apply insert_by_key_ascending. Qed.

Lemma sort_by_key_id l : ascending l -> sort_by_key l = l.
Proof.
  induction l as [|x l IH]; simpl; [done|]. intros [Hx Hl]. rewrite IH by done.
  destruct l as [|y l]; simpl; [done|]. apply Forall_cons in Hx as [Hxy _].
  by rewrite (proj2 (N.leb_le _ _)).
Qed.
End SortByKey.

#[export] Hint Resolve filter_length_le position_lt : rust.

(** ** Transition sequences *)

(** Components with interleaved operations state their invariants over
    [rtc step] or, when the number of steps matters, [nsteps step n]. *)
Lemma nsteps_invariant {S : Type} (step : S -> S -> Prop) (I : nat -> S -> Prop) n s s' :
  (forall k a b, k < n -> I k a -> step a b -> I (Datatypes.S k) b) ->
  nsteps step n s s' -> I 0 s -> I n s'.
Proof.
  revert s'; induction n as [|n IH]; intros s' HI Hs H0.
  - by inversion Hs; subst.
  - apply nsteps_inv_r in Hs as (b & Hs & Hb). apply (HI n b); [lia| |done].
    apply IH; [|done..]. intros k x y Hk. apply HI. lia.
Qed.

Lemma rtc_invariant {S : Type} (step : S -> S -> Prop) (I : S -> Prop) s s' :
  (forall a b, I a -> step a b -> I b) -> rtc step s s' -> I s -> I s'.
Proof. intros HI; induction 1; eauto. Qed.
