(* ===== verification/RustStr.v ===== *)
(** * The standard-library text operations the SDK uses

    Strings are byte sequences.  Each definition below is the documented
    behaviour of one function of Rust's [core::str], [String] or integer
    parsing/formatting, as the components use it: [strip_prefix],
    [starts_with], [split_once], [split], [lines], [trim], UTF-8 validation
    and lossy decoding, [parse::<u64>], decimal [Display], ASCII case. *)
From S2P Require Import Prelude.

(** ** Prefixes and splitting *)

Fixpoint strip_prefix (pre s : str) : option str :=
  match pre, s with
  | [], _ => Some s
  | p :: pre', c :: s' => if decide (p = c) then strip_prefix pre' s' else None
  | _ :: _, [] => None
  end.

Definition starts_with (pre s : str) : bool := is_some (strip_prefix pre s).
(** [strip_suffix] and [ends_with] *)
Definition strip_suffix (suf s : str) : option str := reverse <$> strip_prefix (reverse suf) (reverse s).
Definition ends_with (suf s : str) : bool := is_some (strip_suffix suf s).
(** [contains] *)
Fixpoint contains (pat s : str) : bool :=
  starts_with pat s || match s with [] => false | _ :: r => contains pat r end.

(** [split_once(c)] for a one-byte character. *)
Definition split_once_char (c : ascii) (s : str) : option (str * str) :=
  (fun i => (take i s, drop (S i) s)) <$> position (fun x => bool_decide (x = c)) s.

(** [split(c)]. *)
Fixpoint split_char (c : ascii) (s : str) : list str :=
  match s with
  | [] => [[]]
  | x :: r =>
      if decide (x = c) then [] :: split_char c r
      else match split_char c r with
           | w :: ws => (x :: w) :: ws
           | [] => [[x]]
           end
  end.

(** [split(sep)] for a non-empty separator: the separator is searched from
    the left, a match is consumed whole.  [skip] is the number of bytes of the
    match still to be dropped. *)
Fixpoint split_str_go (sep : str) (skip : nat) (s : str) : list str :=
  match s with
  | [] => [[]]
  | x :: r =>
      match skip with
      | S k => split_str_go sep k r
      | O =>
          if starts_with sep s then [] :: split_str_go sep (pred (length sep)) r
          else match split_str_go sep 0 r with
               | w :: ws => (x :: w) :: ws
               | [] => [[x]]
               end
      end
  end.
Definition split_str (sep s : str) : list str := split_str_go sep 0 s.

(** [split_once(sep)]. *)
Fixpoint split_once_str (sep s : str) : option (str * str) :=
  match strip_prefix sep s with
  | Some r => Some ([], r)
  | None => match s with
            | [] => None
            | x :: t => (fun p => (x :: p.1, p.2)) <$> split_once_str sep t
            end
  end.

(** ** Trimming *)

(** ASCII white space of [char::is_whitespace]: HT, LF, VT, FF, CR, space. *)
Definition ascii_ws (c : ascii) : bool :=
  ((9 <=? code c) && (code c <=? 13) || (code c =? 32))%N.

(** The UTF-8 encodings of the other [White_Space] characters. *)
Definition ws2 (a b : ascii) : bool :=
  ((code a =? 0xC2) && ((code b =? 0x85) || (code b =? 0xA0)))%N.
Definition ws3 (a b c : ascii) : bool :=
  ((code a =? 0xE1) && (code b =? 0x9A) && (code c =? 0x80)
   || (code a =? 0xE2) && (code b =? 0x80) &&
      ((0x80 <=? code c) && (code c <=? 0x8A) || (code c =? 0xA8) || (code c =? 0xA9) || (code c =? 0xAF))
   || (code a =? 0xE2) && (code b =? 0x81) && (code c =? 0x9F)
   || (code a =? 0xE3) && (code b =? 0x80) && (code c =? 0x80))%N.

Fixpoint trim_start (s : str) : str :=
  match s with
  | [] => []
  | a :: r =>
      if ascii_ws a then trim_start r
      else match r with
           | b :: r' =>
               if ws2 a b then trim_start r'
               else match r' with
                    | c :: r'' => if ws3 a b c then trim_start r'' else s
                    | [] => s
                    end
           | [] => s
           end
  end.

(** The same from the right, on the reversed bytes. *)
Fixpoint trim_start_rev (s : str) : str :=
  match s with
  | [] => []
  | a :: r =>
      if ascii_ws a then trim_start_rev r
      else match r with
           | b :: r' =>
               if ws2 b a then trim_start_rev r'
               else match r' with
                    | c :: r'' => if ws3 c b a then trim_start_rev r'' else s
                    | [] => s
                    end
           | [] => s
           end
  end.
Definition trim_end (s : str) : str := rev (trim_start_rev (rev s)).
Definition trim (s : str) : str := trim_end (trim_start s).

(** [str::split_whitespace].  [ws_len] is the width of the white-space
    character at the head, zero if there is none; [skip] counts its bytes still
    to be dropped. *)
Definition ws_len (s : str) : nat :=
  match s with
  | [] => 0
  | a :: r =>
      if ascii_ws a then 1
      else match r with
           | b :: r' => if ws2 a b then 2
                        else match r' with c :: _ => if ws3 a b c then 3 else 0 | [] => 0 end
           | [] => 0
           end
  end.
Definition flush_word (cur : str) : list str := match cur with [] => [] | _ => [cur] end.
Fixpoint words_go (cur : str) (skip : nat) (s : str) : list str :=
  match s with
  | [] => flush_word cur
  | c :: r =>
      match skip with
      | S k => words_go cur k r
      | O => match ws_len s with
             | O => words_go (cur ++ [c]) 0 r
             | S k => flush_word cur ++ words_go [] k r
             end
      end
  end.
Definition split_whitespace (s : str) : list str := words_go [] 0 s.

(** [trim_end_matches(c)], [trim_start_matches(c)], [trim_matches(c)]. *)
Fixpoint trim_start_matches (c : ascii) (s : str) : str :=
  match s with
  | [] => []
  | x :: r => if decide (x = c) then trim_start_matches c r else s
  end.
Definition trim_end_matches (c : ascii) (s : str) : str := rev (trim_start_matches c (rev s)).
Definition trim_matches (c : ascii) (s : str) : str := trim_end_matches c (trim_start_matches c s).

(** [str::lines]: lines end in LF, a CR before that LF is dropped, a final
    line without LF is kept as it is, a final LF opens no empty line. *)
Definition strip_cr (l : str) : str :=
  match list.last l with
  | Some c => if decide (c = CR) then removelast l else l
  | None => l
  end.
Fixpoint lines_go (cur : str) (s : str) : list str :=
  match s with
  | [] => match cur with [] => [] | _ => [cur] end
  | c :: r => if decide (c = LF) then strip_cr cur :: lines_go [] r else lines_go (cur ++ [c]) r
  end.
Definition lines (s : str) : list str := lines_go [] s.

(** ** UTF-8 *)

Definition utf8_1 (b : ascii) : bool := (code b <? 0x80)%N.
Definition utf8_2 (b : ascii) : bool := ((0xC2 <=? code b) && (code b <=? 0xDF))%N.
Definition utf8_3 (b : ascii) : bool := ((0xE0 <=? code b) && (code b <=? 0xEF))%N.
Definition utf8_4 (b : ascii) : bool := ((0xF0 <=? code b) && (code b <=? 0xF4))%N.
Definition utf8_cont (b : ascii) : bool := ((0x80 <=? code b) && (code b <=? 0xBF))%N.
(** Admissible second bytes of three- and four-byte sequences. *)
Definition utf8_3snd (a b : ascii) : bool :=
  (if code a =? 0xE0 then (0xA0 <=? code b) && (code b <=? 0xBF)
   else if code a =? 0xED then (0x80 <=? code b) && (code b <=? 0x9F)
   else (0x80 <=? code b) && (code b <=? 0xBF))%N.
Definition utf8_4snd (a b : ascii) : bool :=
  (if code a =? 0xF0 then (0x90 <=? code b) && (code b <=? 0xBF)
   else if code a =? 0xF4 then (0x80 <=? code b) && (code b <=? 0x8F)
   else (0x80 <=? code b) && (code b <=? 0xBF))%N.

(** [std::str::from_utf8(s).is_ok()]. *)
Fixpoint utf8_valid (s : str) : bool :=
  match s with
  | [] => true
  | a :: r =>
      if utf8_1 a then utf8_valid r
      else match r with
      | [] => false
      | b :: r1 =>
          if utf8_2 a then utf8_cont b && utf8_valid r1
          else match r1 with
          | [] => false
          | c :: r2 =>
              if utf8_3 a then utf8_3snd a b && utf8_cont c && utf8_valid r2
              else match r2 with
              | [] => false
              | d :: r3 =>
                  utf8_4 a && utf8_4snd a b && utf8_cont c && utf8_cont d && utf8_valid r3
              end
          end
      end
  end.

(** U+FFFD. *)
Definition REPLACEMENT : str := [ascii_of_nat 0xEF; ascii_of_nat 0xBF; ascii_of_nat 0xBD].

(** [String::from_utf8_lossy]: each maximal ill-formed prefix becomes one
    U+FFFD. *)
Fixpoint from_utf8_lossy (s : str) : str :=
  match s with
  | [] => []
  | a :: r =>
      if utf8_1 a then a :: from_utf8_lossy r
      else if utf8_2 a then
        match r with
        | b :: r1 => if utf8_cont b then a :: b :: from_utf8_lossy r1 else REPLACEMENT ++ from_utf8_lossy r
        | [] => REPLACEMENT
        end
      else if utf8_3 a then
        match r with
        | b :: r1 =>
            if utf8_3snd a b then
              match r1 with
              | c :: r2 => if utf8_cont c then a :: b :: c :: from_utf8_lossy r2
                           else REPLACEMENT ++ from_utf8_lossy r1
              | [] => REPLACEMENT
              end
            else REPLACEMENT ++ from_utf8_lossy r
        | [] => REPLACEMENT
        end
      else if utf8_4 a then
        match r with
        | b :: r1 =>
            if utf8_4snd a b then
              match r1 with
              | c :: r2 =>
                  if utf8_cont c then
                    match r2 with
                    | d :: r3 => if utf8_cont d then a :: b :: c :: d :: from_utf8_lossy r3
                                 else REPLACEMENT ++ from_utf8_lossy r2
                    | [] => REPLACEMENT
                    end
                  else REPLACEMENT ++ from_utf8_lossy r1
              | [] => REPLACEMENT
              end
            else REPLACEMENT ++ from_utf8_lossy r
        | [] => REPLACEMENT
        end
      else REPLACEMENT ++ from_utf8_lossy r
  end.

(** [is_char_boundary(i)]. *)
Definition is_char_boundary (s : str) (i : nat) : bool :=
  if (i =? 0)%nat then true
  else match s !! i with
       | None => (i =? length s)%nat
       | Some b => negb (utf8_cont b)
       end.

(** ** Decimal numbers *)

Definition digit (n : N) : ascii := ascii_of_N (48 + n).
Definition is_digit (c : ascii) : bool := ((48 <=? code c) && (code c <=? 57))%N.
Definition digit_val (c : ascii) : N := (code c - 48)%N.

(** [n.to_string()]: [N.size_nat n] rounds are enough (base ten needs fewer
    digits than base two). *)
Fixpoint show_go (fuel : nat) (n : N) : str :=
  match fuel with
  | O => []
  | S f => (if (n <? 10)%N then [] else show_go f (n / 10)%N) ++ [digit (n mod 10)%N]
  end.
Definition show_N (n : N) : str := show_go (S (N.size_nat n)) n.

(** [parse::<uW>()] with [bound] = 2^W: an optional [+], at least one digit,
    digits only, an overflow is an error. *)
Fixpoint parse_digits (bound acc : N) (s : str) : option N :=
  match s with
  | [] => Some acc
  | c :: r =>
      if is_digit c then
        let acc' := (acc * 10 + digit_val c)%N in
        if (acc' <? bound)%N then parse_digits bound acc' r else None
      else None
  end.
Definition parse_uint (bound : N) (s : str) : option N :=
  match s with
  | [] => None
  | c :: r =>
      if decide (c = ascii_of_nat 43) then
        match r with [] => None | _ => parse_digits bound 0 r end
      else parse_digits bound 0 s
  end.

(** The text of the [ParseIntError] of a failed [parse::<uW>()]. *)
Fixpoint digits_error (bound acc : N) (s : str) : str :=
  match s with
  | [] => s! "cannot parse integer from empty string"
  | c :: r =>
      if is_digit c then
        let acc' := (acc * 10 + digit_val c)%N in
        if (acc' <? bound)%N then digits_error bound acc' r
        else s! "number too large to fit in target type"
      else s! "invalid digit found in string"
  end.
Definition parse_uint_error (bound : N) (s : str) : str :=
  match s with
  | c :: r =>
      if decide (c = ascii_of_nat 43) then
        match r with [] => s! "invalid digit found in string" | _ => digits_error bound 0 r end
      else digits_error bound 0 s
  | [] => digits_error bound 0 s
  end.

(** ** ASCII case and order *)

Definition to_ascii_lower (c : ascii) : ascii :=
  if ((65 <=? code c) && (code c <=? 90))%N then ascii_of_N (code c + 32) else c.
Definition to_ascii_lowercase (s : str) : str := map to_ascii_lower s.
Definition eq_ignore_ascii_case (a b : str) : bool :=
  bool_decide (to_ascii_lowercase a = to_ascii_lowercase b).

(** [Ord for str]: lexicographic on bytes. *)
Fixpoint str_cmp (a b : str) : comparison :=
  match a, b with
  | [], [] => Eq
  | [], _ :: _ => Lt
  | _ :: _, [] => Gt
  | x :: a', y :: b' =>
      match N.compare (code x) (code y) with
      | Eq => str_cmp a' b'
      | c => c
      end
  end.

(** ** Facts *)

Lemma strip_prefix_Some pre s r : strip_prefix pre s = Some r <-> s = pre ++ r.
Proof.
  revert s; induction pre as [|p pre IH]; intros [|c s]; simpl; try (split; congruence).
  case_decide; subst; [rewrite IH|]; split; congruence.
Qed.

Lemma strip_suffix_Some suf s r : strip_suffix suf s = Some r <-> s = r ++ suf.
Proof.
  unfold strip_suffix. rewrite fmap_Some. setoid_rewrite strip_prefix_Some. split.
  - intros (x & Hs & ->). by rewrite <-(reverse_involutive s), Hs, reverse_app, reverse_involutive.
  - intros ->. exists (reverse r). by rewrite reverse_app, reverse_involutive.
Qed.
Lemma strip_prefix_app pre r : strip_prefix pre (pre ++ r) = Some r.
Proof. by apply strip_prefix_Some. Qed.

Lemma starts_with_spec pre s : starts_with pre s = true <-> exists r, s = pre ++ r.
Proof.
  unfold starts_with. destruct (strip_prefix pre s) as [r|] eqn:E; simpl; split; try done.
  - intros _. exists r. by apply strip_prefix_Some.
  - intros [r ->]. by rewrite strip_prefix_app in E.
Qed.

Lemma starts_with_app pre r : starts_with pre (pre ++ r) = true.
Proof. apply starts_with_spec. eauto. Qed.

Lemma split_char_cons c x s :
  x <> c -> exists w ws, split_char c s = w :: ws /\ split_char c (x :: s) = (x :: w) :: ws.
Proof.
  intros Hx. assert (Hne : split_char c s <> []).
  { destruct s as [|y s]; simpl; [done|]. case_decide; [done|]. by destruct (split_char c s). }
  destruct (split_char c s) as [|w ws] eqn:E; [done|]. exists w, ws. split; [done|].
  simpl. rewrite decide_False by done. by rewrite E.
Qed.

Lemma split_char_nosep c s : c ∉ s -> split_char c s = [s].
Proof.
  induction s as [|x s IH]; intros H; [done|]. apply not_elem_of_cons in H as [Hx Hs].
  simpl. rewrite decide_False by done. by rewrite IH.
Qed.

(** [split(c)] inverts [join(c)] on pieces without [c]. *)
Lemma split_char_app c a s : c ∉ a -> split_char c (a ++ c :: s) = a :: split_char c s.
Proof.
  induction a as [|x a IH]; intros H; simpl.
  - by rewrite decide_True.
  - apply not_elem_of_cons in H as [Hx Ha]. rewrite decide_False by done. by rewrite IH.
Qed.

(** [split(sep)] cuts at a separator whose bytes the piece lacks. *)
Lemma starts_with_cons p sep x s : x <> p -> starts_with (p :: sep) (x :: s) = false.
Proof. intros H. unfold starts_with. simpl. by rewrite decide_False. Qed.

Lemma split_str_go_skip sep s t : split_str_go sep (length s) (s ++ t) = split_str_go sep 0 t.
Proof.
  induction s as [|x s IH]; [done|]. cbn [app length]. by cbn [split_str_go].
Qed.

Section SplitStr.
Context (d : ascii).

(** The separator [-.-] cannot start inside a piece without [d]: its second
    byte is [d]. *)
Lemma split_str_step p q x s :
  d ∉ [x] -> (match s with y :: _ => y <> d | [] => True end \/ x <> p) ->
  split_str_go [p; d; q] 0 (x :: s) =
  match split_str_go [p; d; q] 0 s with w :: ws => (x :: w) :: ws | [] => [[x]] end.
Proof.
  intros Hx H. cbn [split_str_go].
  assert (E : starts_with [p; d; q] (x :: s) = false); [|by rewrite E].
  unfold starts_with. simpl. case_decide; [|done]. destruct s as [|y s]; [done|].
  simpl. case_decide as Hd; [|done]. destruct H; congruence.
Qed.

Lemma split_str_nosep p q a : d ∉ a -> split_str [p; d; q] a = [a].
Proof.
  unfold split_str. induction a as [|x a IH]; intros H; [done|].
  apply not_elem_of_cons in H as [Hx Ha].
  rewrite split_str_step, IH; [done|done|by apply not_elem_of_cons; split; [|apply not_elem_of_nil]|].
  left. destruct a; [done|]. apply not_elem_of_cons in Ha as [? _]. done.
Qed.

Lemma split_str_app p q a s :
  d ∉ a -> p <> d -> split_str [p; d; q] (a ++ p :: d :: q :: s) = a :: split_str [p; d; q] s.
Proof.
  unfold split_str. intros H Hp. induction a as [|x a IH].
  - cbn [app split_str_go]. replace (starts_with [p; d; q] (p :: d :: q :: s)) with true; [done|].
    unfold starts_with. simpl. by rewrite !decide_True.
  - apply not_elem_of_cons in H as [Hx Ha].
    rewrite <-app_comm_cons, split_str_step, IH; [done|done| |].
    + by apply not_elem_of_cons; split; [|apply not_elem_of_nil].
    + left. destruct a as [|y a]; simpl; [done|]. apply not_elem_of_cons in Ha as [? _]. done.
Qed.
End SplitStr.

Lemma split_once_char_app c a s :
  c ∉ a -> split_once_char c (a ++ c :: s) = Some (a, s).
Proof.
  intros H. unfold split_once_char. rewrite position_app_r; simpl.
  - rewrite take_app_length, cons_middle, app_assoc, drop_app_length'; [done|].
    rewrite length_app; simpl; lia.
  - apply Forall_forall; intros y Hy. apply bool_decide_eq_false. intros ->. by apply H.
  - by apply bool_decide_eq_true.
Qed.
Lemma split_once_char_spec c s a b : split_once_char c s = Some (a, b) -> s = a ++ c :: b /\ c ∉ a.
Proof.
  unfold split_once_char. destruct (position _ s) as [i|] eqn:E; [|done]. intros [= <- <-].
  apply position_Some in E as (x & Hs & _ & Hx & Hf). apply bool_decide_eq_true in Hx as ->. split; [done|].
  intros Hin. rewrite Forall_forall in Hf. apply Hf in Hin. by apply bool_decide_eq_false in Hin.
Qed.

Lemma split_once_char_none c s : c ∉ s -> split_once_char c s = None.
Proof.
  intros H. unfold split_once_char. destruct (position _ s) eqn:E; [|done].
  apply position_Some in E as (x & Hs & _ & Hx & _). apply bool_decide_eq_true in Hx as ->.
  destruct H. rewrite Hs. set_solver.
Qed.

Lemma split_once_char_None c s : split_once_char c s = None -> c ∉ s.
Proof.
  unfold split_once_char. intros E. apply fmap_None, position_None in E. rewrite Forall_forall in E.
  intros Hin%E. by apply bool_decide_eq_false in Hin.
Qed.

(** What follows the first separator has no part in finding it. *)
Lemma strip_prefix_None pre a r r' : length pre <= length a -> strip_prefix pre (a ++ r) = None -> strip_prefix pre (a ++ r') = None.
Proof.
  intros Hl Hn. destruct (strip_prefix pre (a ++ r')) eqn:E; [|done]. apply strip_prefix_Some in E.
  assert (a = pre ++ drop (length pre) a) as Ha.
  { rewrite <-(take_drop (length pre) a) at 1. f_equal.
    transitivity (take (length pre) (a ++ r')); [by rewrite take_app_le|]. by rewrite E, take_app_length. }
  rewrite Ha, <-app_assoc in Hn. by rewrite strip_prefix_app in Hn.
Qed.
Lemma split_once_str_spec sep s a b : split_once_str sep s = Some (a, b) -> s = a ++ sep ++ b.
Proof.
  revert a; induction s as [|x s IH]; intros a; simpl; destruct (strip_prefix sep _) as [r|] eqn:E.
  1, 3: intros [= <- ->]; by apply strip_prefix_Some in E.
  - done.
  - destruct (split_once_str sep s) as [[a' b']|]; [|done]. intros [= <- ->]. simpl. f_equal. by apply IH.
Qed.
Lemma split_once_str_first sep a b b' :
  split_once_str sep (a ++ sep ++ b) = Some (a, b) -> split_once_str sep (a ++ sep ++ b') = Some (a, b').
Proof.
  induction a as [|x a IH]; intros H; simpl app in *.
  - destruct (sep ++ b') eqn:E; simpl; by rewrite <-E, strip_prefix_app.
  - cbn [split_once_str] in *. destruct (strip_prefix sep (x :: _)) eqn:E; [done|].
    change (strip_prefix sep ((x :: a ++ sep ++ b)) = None) in E.
    pose proof (strip_prefix_None sep (x :: a ++ sep) b b') as Hn. simpl in Hn. rewrite <-!app_assoc in Hn.
    rewrite Hn by (done || (rewrite length_app; lia)).
    destruct (split_once_str sep (a ++ sep ++ b)) as [[u v]|]; [|done]. simpl in H. injection H as -> ->. by rewrite (IH eq_refl).
Qed.

(** *** UTF-8 *)

(** Lossy decoding leaves well-formed text alone. *)
Lemma from_utf8_lossy_valid s : utf8_valid s = true -> from_utf8_lossy s = s.
Proof.
  induction s as [s IH] using (induction_ltof1 _ (@length ascii)); unfold ltof in IH.
  destruct s as [|a r]; [done|]; simpl.
  destruct (utf8_1 a); [intros; f_equal; apply IH; simpl; [lia|done]|].
  destruct r as [|b r1]; [done|].
  destruct (utf8_2 a); [intros; bool_prop; rewrite H; do 2 f_equal; apply IH; simpl; [lia|done]|].
  destruct r1 as [|c r2]; [done|].
  destruct (utf8_3 a).
  { intros; bool_prop. rewrite H, H1. do 3 f_equal. apply IH; simpl; [lia|done]. }
  destruct r2 as [|d r3]; [done|]. intros; bool_prop.
  rewrite H, H3, H2, H1. do 4 f_equal. apply IH; simpl; [lia|done].
Qed.

Lemma utf8_valid_ascii s : Forall (fun c => utf8_1 c = true) s -> utf8_valid s = true.
Proof. induction 1 as [|c s Hc _ IH]; simpl; [done|]. by rewrite Hc. Qed.

Lemma utf8_valid_app s t : utf8_valid s = true -> utf8_valid (s ++ t) = utf8_valid t.
Proof.
  induction s as [s IH] using (induction_ltof1 _ (@length ascii)); unfold ltof in IH.
  destruct s as [|a r]; [done|]; simpl.
  destruct (utf8_1 a); [intros; apply IH; simpl; [lia|done]|].
  destruct r as [|b r1]; [done|]; simpl.
  destruct (utf8_2 a); [intros; bool_prop; rewrite H; apply IH; simpl; [lia|done]|].
  destruct r1 as [|c r2]; [done|]; simpl.
  destruct (utf8_3 a).
  { intros; bool_prop. rewrite H, H1; simpl. apply IH; simpl; [lia|done]. }
  destruct r2 as [|d r3]; [done|]. intros; bool_prop; simpl.
  rewrite H, H3, H2, H1; simpl. apply IH; simpl; [lia|done].
Qed.

(** A one-byte character splits well-formed text into well-formed parts. *)
Lemma utf8_valid_split w c r :
  utf8_1 c = true -> utf8_valid (w ++ c :: r) = true -> utf8_valid w = true /\ utf8_valid r = true.
Proof.
  intros Hc. assert (Hlt : (code c < 0x80)%N) by by apply N.ltb_lt.
  assert (H0 : utf8_cont c = false).
  { unfold utf8_cont. apply andb_false_iff; left. apply N.leb_gt. lia. }
  assert (H3 : forall a, utf8_3snd a c = false).
  { intros a. unfold utf8_3snd. repeat case_match; apply andb_false_iff; left; apply N.leb_gt; lia. }
  assert (H4 : forall a, utf8_4snd a c = false).
  { intros a. unfold utf8_4snd. repeat case_match; apply andb_false_iff; left; apply N.leb_gt; lia. }
  induction w as [w IH] using (induction_ltof1 _ (@length ascii)); unfold ltof in IH.
  destruct w as [|a w1]; simpl; [by rewrite Hc|].
  destruct (utf8_1 a); [apply IH; simpl; lia|].
  destruct w1 as [|b w2]; simpl.
  { destruct (utf8_2 a); [by rewrite H0|]. destruct r as [|y r]; [done|].
    destruct (utf8_3 a); [by rewrite H3|]. destruct r as [|z r]; [done|].
    rewrite H4. by rewrite andb_false_r. }
  destruct (utf8_2 a); [intros; bool_prop; rewrite H; apply IH; simpl; [lia|done]|].
  destruct w2 as [|d w3]; simpl.
  { destruct (utf8_3 a); [rewrite H0; by rewrite andb_false_r|]. destruct r as [|z r]; [done|].
    rewrite H0. by rewrite !andb_false_r. }
  destruct (utf8_3 a); [intros; bool_prop; rewrite H, H2; simpl; apply IH; simpl; [lia|done]|].
  destruct w3 as [|e w4]; simpl; [rewrite H0; by rewrite !andb_false_r|].
  intros; bool_prop; rewrite H, H2, H5, H6; simpl; apply IH; simpl; [lia|done].
Qed.

(** *** Trimming *)

(** Visible ASCII bytes are never white space nor part of one. *)
Definition graphic (c : ascii) : bool := ((33 <=? code c) && (code c <=? 126))%N.

Lemma graphic_spec c : graphic c = true <-> (33 <= code c <= 126)%N.
Proof. unfold graphic. rewrite andb_true_iff, !N.leb_le. done. Qed.

Lemma graphic_not_ws c : graphic c = true ->
  ascii_ws c = false /\ (forall b, ws2 c b = false) /\ (forall b, ws2 b c = false) /\
  (forall b d, ws3 c b d = false) /\ (forall b d, ws3 d b c = false).
Proof.
  rewrite graphic_spec. intros H.
  assert (E : forall n, (n < 33)%N \/ (126 < n)%N -> (code c =? n)%N = false)
    by (intros n Hn; apply N.eqb_neq; lia).
  assert (G : (0x80 <=? code c)%N = false) by (apply N.leb_gt; lia).
  split_and!; intros; unfold ascii_ws, ws2, ws3.
  - apply orb_false_iff; split; [|apply E; lia]. apply andb_false_iff; right. apply N.leb_gt; lia.
  - rewrite E by lia. done.
  - rewrite !E by lia. by rewrite andb_false_r.
  - rewrite !E by lia. done.
  - rewrite !E, G by lia. simpl. by rewrite !andb_false_r.
Qed.

Lemma trim_start_graphic c r : graphic c = true -> trim_start (c :: r) = c :: r.
Proof.
  intros (H1 & H2 & _ & H3 & _)%graphic_not_ws. simpl. rewrite H1.
  destruct r as [|b r]; [done|]. rewrite H2. destruct r as [|d r]; [done|]. by rewrite H3.
Qed.

Lemma trim_start_rev_graphic c r : graphic c = true -> trim_start_rev (c :: r) = c :: r.
Proof.
  intros (H1 & _ & H2 & _ & H3)%graphic_not_ws. simpl. rewrite H1.
  destruct r as [|b r]; [done|]. rewrite H2. destruct r as [|d r]; [done|]. by rewrite H3.
Qed.

(** Trimming removes no visible byte. *)
Lemma graphic_not_ws3 c : graphic c = true -> forall b d, ws3 b c d = false.
Proof.
  rewrite graphic_spec. intros H b d.
  assert (E : forall n, (126 < n)%N -> (code c =? n)%N = false) by (intros n Hn; apply N.eqb_neq; lia).
  unfold ws3. rewrite !E by lia. by rewrite !andb_false_r.
Qed.

Lemma trim_start_keeps x s : graphic x = true -> x ∈ s -> x ∈ trim_start s.
Proof.
  intros Hx. destruct (graphic_not_ws x Hx) as (W1 & W2 & W2' & W3 & W3').
  pose proof (graphic_not_ws3 x Hx) as W3''.
  induction s as [s IH] using (induction_ltof1 _ length). unfold ltof in IH. intros Hin.
  destruct s as [|a r]; [done|]. simpl. apply elem_of_cons in Hin as Hc.
  destruct (ascii_ws a) eqn:Ha.
  { apply IH; [simpl; lia|]. destruct Hc as [->|?]; [congruence|done]. }
  destruct r as [|b r]; [done|]. destruct (ws2 a b) eqn:Hb.
  { apply IH; [simpl; lia|]. rewrite !elem_of_cons in Hin. destruct Hin as [->|[->|?]]; [congruence..|done]. }
  destruct r as [|d r]; [done|]. destruct (ws3 a b d) eqn:Hd; [|done].
  apply IH; [simpl; lia|]. rewrite !elem_of_cons in Hin. destruct Hin as [->|[->|[->|?]]]; [congruence..|done].
Qed.

Lemma trim_start_rev_keeps x s : graphic x = true -> x ∈ s -> x ∈ trim_start_rev s.
Proof.
  intros Hx. destruct (graphic_not_ws x Hx) as (W1 & W2 & W2' & W3 & W3').
  pose proof (graphic_not_ws3 x Hx) as W3''.
  induction s as [s IH] using (induction_ltof1 _ length). unfold ltof in IH. intros Hin.
  destruct s as [|a r]; [done|]. simpl. apply elem_of_cons in Hin as Hc.
  destruct (ascii_ws a) eqn:Ha.
  { apply IH; [simpl; lia|]. destruct Hc as [->|?]; [congruence|done]. }
  destruct r as [|b r]; [done|]. destruct (ws2 b a) eqn:Hb.
  { apply IH; [simpl; lia|]. rewrite !elem_of_cons in Hin. destruct Hin as [->|[->|?]]; [congruence..|done]. }
  destruct r as [|d r]; [done|]. destruct (ws3 d b a) eqn:Hd; [|done].
  apply IH; [simpl; lia|]. rewrite !elem_of_cons in Hin. destruct Hin as [->|[->|[->|?]]]; [congruence..|done].
Qed.

Lemma trim_keeps x s : graphic x = true -> x ∈ s -> x ∈ trim s.
Proof.
  intros Hx Hin. unfold trim, trim_end. rewrite list_elem_of_In, <-in_rev, <-list_elem_of_In.
  apply trim_start_rev_keeps; [done|]. rewrite list_elem_of_In, <-in_rev, <-list_elem_of_In. by apply trim_start_keeps.
Qed.

(** A text that [trim] leaves alone: empty, or with visible ASCII at both ends. *)
Definition trimmed (s : str) : Prop :=
  s = [] \/ exists a b r, graphic a = true /\ graphic b = true /\
                        s = a :: r /\ last s = Some b.

Lemma trim_snoc_LF s : trimmed s -> trim (s ++ [LF]) = s.
Proof.
  intros [-> | (a & b & r & Ha & Hb & -> & Hl)]; [done|].
  unfold trim. rewrite <-app_comm_cons, trim_start_graphic, app_comm_cons by done.
  unfold trim_end. apply last_Some in Hl as [l' Hl]. rewrite rev_unit, Hl, rev_unit.
  change (trim_start_rev (LF :: b :: rev l')) with (trim_start_rev (b :: rev l')).
  rewrite trim_start_rev_graphic by done. simpl. by rewrite rev_involutive.
Qed.

Lemma trim_trimmed s : trimmed s -> trim s = s.
Proof.
  intros [-> | (a & b & r & Ha & Hb & -> & Hl)]; [done|].
  unfold trim. rewrite trim_start_graphic by done.
  unfold trim_end. apply last_Some in Hl as [l' Hl]. rewrite Hl, rev_unit.
  rewrite trim_start_rev_graphic by done. simpl. by rewrite rev_involutive.
Qed.

Lemma words_go_nonempty s cur skip : Forall (fun w => w <> []) (words_go cur skip s).
Proof.
  revert cur skip; induction s as [|c r IH]; intros cur skip.
  { simpl. destruct cur; simpl; [constructor|]. by apply Forall_singleton. }
  cbn [words_go]. destruct skip; [|apply IH]. destruct (ws_len (c :: r)); [apply IH|].
  apply Forall_app. split; [|apply IH]. destruct cur; simpl; [constructor|]. by apply Forall_singleton.
Qed.

(** *** The order on strings *)

Lemma str_cmp_eq a b : str_cmp a b = Eq -> a = b.
Proof.
  revert b; induction a as [|x a IH]; intros [|y b]; simpl; try done.
  destruct (N.compare_spec (code x) (code y)) as [E| |]; try done. intros H. f_equal; [|by apply IH].
  apply (f_equal ascii_of_N) in E. unfold code in E. by rewrite !ascii_N_embedding in E.
Qed.
Lemma str_cmp_antisym a b : str_cmp b a = CompOpp (str_cmp a b).
Proof.
  revert b; induction a as [|x a IH]; intros [|y b]; simpl; try done.
  rewrite (N.compare_antisym (code x) (code y)). destruct (N.compare (code x) (code y)); [apply IH|done..].
Qed.
Lemma str_cmp_refl a : str_cmp a a = Eq.
Proof. induction a as [|x a IH]; [done|]. simpl. by rewrite N.compare_refl. Qed.
Lemma str_cmp_gt a b : str_cmp a b = Gt -> str_cmp b a = Lt.
Proof. intros E. by rewrite str_cmp_antisym, E.
Qed.
Lemma str_cmp_trans a b c : str_cmp a b = Lt -> str_cmp b c = Lt -> str_cmp a c = Lt.
Proof.
  revert b c; induction a as [|x a IH]; intros [|y b] [|z c]; simpl; try done.
  destruct (N.compare_spec (code x) (code y)) as [E1|E1|E1]; try done;
    destruct (N.compare_spec (code y) (code z)) as [E2|E2|E2]; try done; intros H1 H2.
  - rewrite E1, E2, N.compare_refl. eauto.
  - rewrite E1. by rewrite (proj2 (N.compare_lt_iff _ _) E2).
  - rewrite <-E2. by rewrite (proj2 (N.compare_lt_iff _ _) E1).
  - by rewrite (proj2 (N.compare_lt_iff (code x) (code z))) by lia.
Qed.

(** *** Decimal numbers *)

Lemma digit_facts n : (n < 10)%N -> is_digit (digit n) = true /\ digit_val (digit n) = n.
Proof.
  intros H. unfold is_digit, digit_val, digit, code.
  rewrite N_ascii_embedding by lia. split; [|lia].
  apply andb_true_iff; split; apply N.leb_le; lia.
Qed.

Lemma parse_digits_app bound s t acc v :
  parse_digits bound acc s = Some v ->
  parse_digits bound acc (s ++ t) = parse_digits bound v t.
Proof.
  revert acc; induction s as [|c s IH]; intros acc; simpl; [by intros [= ->]|].
  repeat case_match; try done. apply IH.
Qed.

Lemma show_go_parse bound fuel n :
  (n < 2 ^ N.of_nat fuel)%N -> (0 < n)%N \/ (0 < fuel)%nat -> (n < bound)%N ->
  parse_digits bound 0 (show_go fuel n) = Some n /\ show_go fuel n <> [].
Proof.
  revert n; induction fuel as [|f IH]; intros n Hn Hf Hb; [simpl in Hn; lia|].
  assert (Hd : (n mod 10 < 10)%N) by (apply N.mod_lt; lia).
  destruct (digit_facts _ Hd) as [D1 D2]. pose proof (N.div_mod' n 10) as Hdm.
  simpl show_go. split; [|by destruct (if (n <? 10)%N then _ else _)].
  destruct (N.ltb_spec n 10).
  - simpl. rewrite D1, D2. rewrite N.mod_small by lia.
    rewrite N.mul_0_l, N.add_0_l. by rewrite (proj2 (N.ltb_lt n bound) Hb).
  - rewrite Nat2N.inj_succ, N.pow_succ_r' in Hn.
    destruct (IH (n / 10)%N) as [P _].
    + apply N.Div0.div_lt_upper_bound. lia.
    + left. apply N.div_str_pos. lia.
    + eapply N.le_lt_trans; [|exact Hb]. apply N.Div0.div_le_upper_bound. lia.
    + rewrite (parse_digits_app _ _ _ _ _ P). simpl. rewrite D1, D2.
      replace (n / 10 * 10 + n mod 10)%N with n by lia.
      by rewrite (proj2 (N.ltb_lt n bound) Hb).
Qed.

Lemma size_nat_bound n : (n < 2 ^ N.of_nat (S (N.size_nat n)))%N.
Proof.
  destruct n as [|p]; [simpl; lia|].
  rewrite Nat2N.inj_succ, N.pow_succ_r'.
  assert (N.pos p < 2 ^ N.of_nat (N.size_nat (N.pos p)))%N; [|lia].
  simpl. induction p; simpl; rewrite ?Nat2N.inj_succ, ?N.pow_succ_r' in *; lia.
Qed.

Lemma show_N_first n : exists c s, show_N n = c :: s /\ is_digit c = true.
Proof.
  unfold show_N. generalize (S (N.size_nat n)), (Nat.lt_0_succ (N.size_nat n)).
  intros f; revert n; induction f as [|f IH]; intros n Hf; [lia|]. simpl.
  pose proof (digit_facts (n mod 10) (N.mod_lt n 10 ltac:(done))) as [Hd _].
  destruct (n <? 10)%N; [simpl; eauto|].
  destruct f as [|f]; [simpl; eauto|].
  destruct (IH (n / 10)%N) as (c & s & E & Hc); [lia|]. rewrite E. simpl; eauto.
Qed.

Lemma show_N_digits n : Forall (fun c => is_digit c = true) (show_N n).
Proof.
  unfold show_N. generalize (S (N.size_nat n)). intros f; revert n.
  induction f as [|f IH]; intros n; simpl; [constructor|].
  apply Forall_app; split; [by case_match|].
  repeat constructor. apply digit_facts, N.mod_lt; lia.
Qed.

Lemma is_digit_graphic c : is_digit c = true -> graphic c = true.
Proof. unfold is_digit. rewrite graphic_spec. intros; bool_prop; lia. Qed.

Lemma trimmed_graphic s : Forall (fun c => graphic c = true) s -> trimmed s.
Proof.
  intros H. destruct s as [|a r]; [by left|right].
  destruct (last (a :: r)) as [b|] eqn:E; [|by apply last_None in E].
  exists a, b, r. split_and!; try done; [by inversion H|].
  rewrite Forall_forall in H. apply H. by apply last_Some_elem_of in E.
Qed.

Lemma show_N_trimmed n : trimmed (show_N n).
Proof. apply trimmed_graphic. eapply Forall_impl; [apply show_N_digits|apply is_digit_graphic]. Qed.

(** Decimal formatting and parsing are inverse below the bound. *)
Lemma parse_show_N bound n : (n < bound)%N -> parse_uint bound (show_N n) = Some n.
Proof.
  intros Hb. destruct (show_N_first n) as (c & s & E & Hc).
  destruct (show_go_parse bound (S (N.size_nat n)) n) as [P _];
    [apply size_nat_bound | right; lia | done |].
  fold (show_N n) in P. rewrite E in *. unfold parse_uint.
  rewrite decide_False; [done|]. intros ->. done.
Qed.

#[export] Hint Resolve starts_with_app from_utf8_lossy_valid : rust.
