(* ===== verification/Sse.v ===== *)
(** * Server-Sent Events: rendering and incremental parsing

    Models crates/rust-mcp-transport/src/utils/sse_event.rs ([SseEvent],
    its builders and its [Display]) and utils/sse_parser.rs ([SseParser],
    [process_new_chunk], [parse_sse_message]).

    The parser keeps a byte buffer between chunks; the theorems show that how
    the network cuts the stream into chunks is invisible, and that a stream of
    rendered events is parsed back to those events. *)
From S2P Require Import Prelude RustStr.

Module SseEvent.
(** [struct SseEvent] *)
Record t := mk {
  event : option str;
  data : option bytes;
  id : option str;
  retry : option N; (* u64 *)
}.

#[export] Instance eq_dec : EqDecision t.
Proof. solve_decision. Defined.

(** [SseEvent::default()] and the builder methods. *)
Definition default : t := mk None None None None.
Definition new (d : str) : t := mk None (Some d) None None.
Definition with_event (e : t) (ev : str) : t := mk (Some ev) (data e) (id e) (retry e).
Definition with_id (e : t) (i : str) : t := mk (event e) (data e) (Some i) (retry e).
Definition with_retry (e : t) (r : N) : t := mk (event e) (data e) (id e) (Some r).
Definition with_data (e : t) (d : str) : t := mk (event e) (Some d) (id e) (retry e).

(** [impl Display for SseEvent]: the lines written, each with its newline. *)
Definition writeln (l : str) : str := l ++ [LF].
Definition data_lines (d : bytes) : list str :=
  if utf8_valid d then (fun line => s! "data: " ++ line) <$> lines d
  else [s! "data: [binary data]"].
Definition fmt_lines (e : t) : list str :=
  (match retry e with Some r => [s! "retry: " ++ show_N r] | None => [] end) ++
  (match id e with Some i => [s! "id: " ++ i] | None => [] end) ++
  (match event e with Some ev => [s! "event: " ++ ev] | None => [] end) ++
  (match data e with Some d => data_lines d | None => [] end).
Definition to_string (e : t) : str := concat (writeln <$> fmt_lines e) ++ writeln [].
Definition as_bytes (e : t) : bytes := to_string e.
End SseEvent.

Module SseParser.
(** [struct SseParser] *)
Record t := mk { buffer : bytes }.
Definition new : t := mk [].

Definition is_lf (b : ascii) : bool := bool_decide (b = LF).

(** [while let Some(pos) = buffer.position(LF) { lines.push(buffer.split_to(pos+1)) }];
    every round removes at least one byte, so [length buf] rounds are enough. *)
Fixpoint drain_lines (fuel : nat) (buf : bytes) : list bytes * bytes :=
  match fuel with
  | O => ([], buf)
  | S f =>
      match position is_lf buf with
      | Some pos =>
          let '(ls, rest) := drain_lines f (drop (S pos) buf) in
          (take (S pos) buf :: ls, rest)
      | None => ([], buf)
      end
  end.

(** One field line: the key/value pair, or [None] when the line is skipped. *)
Inductive key := KData | KEvent | KId | KRetry.
#[export] Instance key_eq_dec : EqDecision key.
Proof. solve_decision. Defined.

Definition parse_line (line_str : str) : option (key * str) :=
  if bool_decide (line_str = []) || starts_with (s! ":") line_str then None
  else match strip_prefix (s! "data: ") line_str with
  | Some value => Some (KData, value)
  | None =>
  if bool_decide (trim_end_matches LF line_str = s! "data:")
     || bool_decide (trim_end_matches LF line_str = []) && starts_with (s! "data:") line_str
  then Some (KData, [])
  else match strip_prefix (s! "event: ") line_str with
  | Some value => Some (KEvent, trim value)
  | None =>
  match strip_prefix (s! "id: ") line_str with
  | Some value => Some (KId, trim value)
  | None =>
  match strip_prefix (s! "retry: ") line_str with
  | Some value => Some (KRetry, trim value)
  | None => None
  end end end end.

(** The accumulator of the loop of [parse_sse_message]: the [fields] map
    (only the keys event, id and retry are inserted; the last one wins),
    [data_parts] and [saw_data_line]. *)
Record fields := mkFields {
  f_event : option str;
  f_id : option str;
  f_retry : option str;
  data_parts : list str;
  saw_data_line : bool;
}.
Definition no_fields : fields := mkFields None None None [] false.

Definition add_line (a : fields) (line_bytes : bytes) : fields :=
  match parse_line (from_utf8_lossy line_bytes) with
  | None => a
  | Some (KData, value) =>
      mkFields (f_event a) (f_id a) (f_retry a)
        (if bool_decide (value = []) || bool_decide (value = [LF]) then data_parts a
         else data_parts a ++ [value]) true
  | Some (KEvent, value) => mkFields (Some value) (f_id a) (f_retry a) (data_parts a) (saw_data_line a)
  | Some (KId, value) => mkFields (f_event a) (Some value) (f_retry a) (data_parts a) (saw_data_line a)
  | Some (KRetry, value) => mkFields (f_event a) (f_id a) (Some value) (data_parts a) (saw_data_line a)
  end.

Definition parse_sse_message (lines : list bytes) : option SseEvent.t :=
  let a := foldl add_line no_fields lines in
  let data := match data_parts a with [] => None | ps => Some (join [LF] ps) end in
  let retry := f_retry a ≫= (fun r => parse_uint U64 (trim r)) in
  if negb (is_some data) && negb (is_some (f_id a)) && negb (is_some retry)
     && negb (is_some (f_event a)) && negb (saw_data_line a)
  then None
  else Some (SseEvent.mk (f_event a) data (f_id a) retry).

(** One round of [for line in lines]: the pending lines of the current
    message and the events found. *)
Definition push_line (st : list bytes * list SseEvent.t) (line : bytes)
  : list bytes * list SseEvent.t :=
  let '(current, events) := st in
  let current := current ++ [line] in
  if (2 <=? length current)%nat && bool_decide (last current = Some [LF]) then
    let message_lines :=
      List.filter (fun l => negb (bool_decide (l = [LF]))) (take (length current - 1) current) in
    (drop (length current - 1) current,
     match parse_sse_message message_lines with
     | Some event => events ++ [event]
     | None => events
     end)
  else (current, events).

(** [process_new_chunk]: the new parser state and the events. *)
Definition process_new_chunk (p : t) (chunk : bytes) : t * list SseEvent.t :=
  let buf := buffer p ++ chunk in
  let '(lines, rest) := drain_lines (length buf) buf in
  let '(current, events) := foldl push_line ([], []) lines in
  (mk (match current with [] => rest | _ => concat current ++ rest end), events).

(** The events a parser produces on successive chunks. *)
Fixpoint feed (p : t) (chunks : list bytes) : t * list SseEvent.t :=
  match chunks with
  | [] => (p, [])
  | c :: cs =>
      let '(p1, e1) := process_new_chunk p c in
      let '(p2, e2) := feed p1 cs in
      (p2, e1 ++ e2)
  end.
End SseParser.

(** ** Line splitting *)

Module SseFacts.
Import SseParser.
#[local] Arguments push_line : simpl never.
#[local] Arguments process_new_chunk : simpl never.

(** The structural reading of [drain_lines]. *)
Fixpoint split_lf (buf : bytes) : list bytes * bytes :=
  match buf with
  | [] => ([], [])
  | c :: r =>
      let '(ls, rest) := split_lf r in
      if decide (c = LF) then ([c] :: ls, rest)
      else match ls with
           | [] => ([], c :: rest)
           | l :: ls' => ((c :: l) :: ls', rest)
           end
  end.

(** A complete line: no newline but the final one. *)
Definition is_line (l : bytes) : Prop := exists w, (LF ∉ w) /\ l = w ++ [LF].

Lemma split_lf_nolf w : LF ∉ w -> split_lf w = ([], w).
Proof.
  induction w as [|c w IH]; intros H; [done|]. apply not_elem_of_cons in H as [Hc Hw].
  simpl. rewrite IH by done. by rewrite decide_False.
Qed.

Lemma split_lf_line w r :
  LF ∉ w -> split_lf (w ++ LF :: r) = ((w ++ [LF]) :: (split_lf r).1, (split_lf r).2).
Proof.
  induction w as [|c w IH]; intros H; simpl.
  - by destruct (split_lf r).
  - apply not_elem_of_cons in H as [Hc Hw]. rewrite IH by done. by rewrite decide_False.
Qed.

Lemma not_LF w : Forall (fun y => is_lf y = false) w <-> LF ∉ w.
Proof.
  rewrite Forall_forall. split.
  - intros H Hin. specialize (H _ Hin). by vm_compute in H.
  - intros H y Hy. unfold is_lf. apply bool_decide_eq_false. by intros ->.
Qed.

Lemma drain_lines_spec fuel buf : (length buf <= fuel)%nat -> drain_lines fuel buf = split_lf buf.
Proof.
  revert buf; induction fuel as [|f IH]; intros buf Hf; simpl.
  { destruct buf; simpl in *; [done|lia]. }
  destruct (position is_lf buf) as [n|] eqn:E.
  - pose proof (position_lt _ _ _ E) as Hn.
    apply position_Some in E as (x & Hb & Hx & Hlf & Hpre).
    apply not_LF in Hpre. unfold is_lf in Hlf. apply bool_decide_eq_true in Hlf as ->.
    rewrite IH by (rewrite length_drop; lia).
    transitivity (split_lf (take n buf ++ LF :: drop (S n) buf)); [|by rewrite <-Hb].
    rewrite split_lf_line by done. rewrite (take_S_r _ _ _ Hx).
    by destruct (split_lf (drop (S n) buf)).
  - apply position_None, not_LF in E. by rewrite split_lf_nolf.
Qed.

Lemma split_lf_app a b :
  split_lf (a ++ b) =
  ((split_lf a).1 ++ (split_lf ((split_lf a).2 ++ b)).1, (split_lf ((split_lf a).2 ++ b)).2).
Proof.
  induction a as [|c a IH]; simpl; [by destruct (split_lf b)|].
  rewrite IH. destruct (split_lf a) as [ls rest]; simpl. case_decide.
  - simpl. by destruct (split_lf (rest ++ b)).
  - destruct ls as [|l ls]; simpl.
    + destruct (split_lf (rest ++ b)) as [[|l2 ls2] r2]; simpl; by rewrite decide_False.
    + done.
Qed.

Lemma split_lf_lines buf : Forall is_line (split_lf buf).1 /\ LF ∉ (split_lf buf).2.
Proof.
  induction buf as [|c buf [IH1 IH2]]; simpl; [split; [constructor|apply not_elem_of_nil]|].
  destruct (split_lf buf) as [ls rest]; simpl in *. case_decide; simpl; subst.
  - split; [|done]. constructor; [|done]. exists []. split; [apply not_elem_of_nil|done].
  - destruct ls as [|l ls]; simpl.
    + split; [constructor|]. apply not_elem_of_cons; auto.
    + inversion IH1 as [|? ? (w & Hw & ->) Hls]; subst. split; [|done]. constructor; [|done].
      exists (c :: w). split; [|done]. apply not_elem_of_cons; auto.
Qed.

Lemma split_lf_concat ls r :
  Forall is_line ls -> split_lf (concat ls ++ r) = (ls ++ (split_lf r).1, (split_lf r).2).
Proof.
  induction 1 as [|l ls (w & Hw & ->) _ IH]; simpl; [by destruct (split_lf r)|].
  rewrite <-!app_assoc. simpl. rewrite split_lf_line by done. by rewrite IH.
Qed.

(** ** The message loop *)

Lemma push_line_events cur evs l :
  push_line (cur, evs) l = ((push_line (cur, []) l).1, evs ++ (push_line (cur, []) l).2).
Proof.
  unfold push_line. repeat case_match; simpl; by rewrite ?app_nil_r.
Qed.

Lemma foldl_push_events cur evs ls :
  foldl push_line (cur, evs) ls =
  ((foldl push_line (cur, []) ls).1, evs ++ (foldl push_line (cur, []) ls).2).
Proof.
  revert cur evs; induction ls as [|l ls IH]; intros cur evs; simpl; [by rewrite app_nil_r|].
  rewrite push_line_events. rewrite IH.
  destruct (push_line (cur, []) l) as [cur' e']; simpl. rewrite (IH cur' e'). simpl.
  by rewrite app_assoc.
Qed.

(** Lines kept for the next chunk replay to themselves and produce nothing. *)
Definition stable (cur : list bytes) : Prop := foldl push_line ([], []) cur = (cur, []).

Lemma push_line_cases cur l :
  (push_line (cur, []) l = (cur ++ [l], [])) \/
  (l = [LF] /\ (push_line (cur, []) l).1 = [[LF]]).
Proof.
  unfold push_line. case_match eqn:E; [right|by left]. bool_prop.
  match goal with H : last _ = _ |- _ => rewrite last_snoc in H; injection H as -> end.
  split; [done|]. simpl. rewrite length_app; simpl.
  replace (length cur + 1 - 1)%nat with (length cur) by lia. apply drop_app_length.
Qed.

Lemma stable_push cur l : stable cur -> stable (push_line (cur, []) l).1.
Proof.
  intros Hs. destruct (push_line_cases cur l) as [H | [-> H]].
  - rewrite H; simpl. unfold stable. rewrite foldl_app, Hs. simpl. by rewrite H.
  - by rewrite H.
Qed.

Lemma stable_foldl ls cur : stable cur -> stable (foldl push_line (cur, []) ls).1.
Proof.
  revert cur; induction ls as [|l ls IH]; intros cur Hs; [done|]. simpl.
  destruct (push_line (cur, []) l) as [cur' e] eqn:E.
  rewrite foldl_push_events. simpl. apply IH.
  replace cur' with (push_line (cur, []) l).1 by by rewrite E. by apply stable_push.
Qed.

Lemma foldl_push_lines ls cur :
  Forall is_line ls -> Forall is_line cur -> Forall is_line (foldl push_line (cur, []) ls).1.
Proof.
  revert cur; induction ls as [|l ls IH]; intros cur Hls Hc; [done|]. inversion Hls; subst. simpl.
  destruct (push_line_cases cur l) as [H' | [-> H']].
  - rewrite H'. apply IH; [done|]. apply Forall_app; auto.
  - destruct (push_line (cur, []) [LF]) as [cur' e]; simpl in H'; subst.
    rewrite foldl_push_events; simpl. apply IH; [done|]. by constructor.
Qed.

Lemma process_new_chunk_eq p c :
  process_new_chunk p c =
  let sp := split_lf (buffer p ++ c) in
  let '(cur, ev) := foldl push_line ([], []) sp.1 in (mk (concat cur ++ sp.2), ev).
Proof.
  unfold process_new_chunk. rewrite drain_lines_spec by lia.
  destruct (split_lf (buffer p ++ c)) as [ls rest]; simpl.
  destruct (foldl push_line ([], []) ls) as [[|l cur] ev]; done.
Qed.

(** Processing [a] then [b] is processing [a ++ b]. *)
Lemma process_app p a b :
  process_new_chunk p (a ++ b) =
  let '(p1, e1) := process_new_chunk p a in
  let '(p2, e2) := process_new_chunk p1 b in (p2, e1 ++ e2).
Proof.
  rewrite !process_new_chunk_eq. rewrite app_assoc, split_lf_app. simpl.
  pose proof (split_lf_lines (buffer p ++ a)) as [Hl Hr].
  destruct (split_lf (buffer p ++ a)) as [l1 r1]; simpl in *.
  rewrite foldl_app. pose proof (stable_foldl l1 [] eq_refl) as Hst.
  pose proof (foldl_push_lines l1 [] Hl (Forall_nil_2 _)) as Hcl.
  destruct (foldl push_line ([], []) l1) as [cur1 e1]; simpl in *.
  rewrite foldl_push_events. rewrite process_new_chunk_eq; simpl.
  rewrite <-app_assoc, split_lf_concat by done. simpl. rewrite foldl_app, Hst.
  by destruct (foldl push_line (cur1, []) (split_lf (r1 ++ b)).1).
Qed.

Lemma feed_cons p c cs : feed p (c :: cs) = process_new_chunk p (c ++ concat cs).
Proof.
  revert p c; induction cs as [|c' cs IH]; intros p c.
  - simpl. rewrite app_nil_r. destruct (process_new_chunk p c). by rewrite app_nil_r.
  - rewrite process_app. change (feed p (c :: c' :: cs)) with
      (let '(p1, e1) := process_new_chunk p c in
       let '(p2, e2) := feed p1 (c' :: cs) in (p2, e1 ++ e2)).
    destruct (process_new_chunk p c) as [p1 e1]. by rewrite IH.
Qed.

Lemma feed_concat chunks : feed new chunks = process_new_chunk new (concat chunks).
Proof. destruct chunks as [|c cs]; [done|]. apply feed_cons. Qed.

(** ** Rendering and parsing back *)

(** Text that survives a field line: well-formed UTF-8 without newline. *)
Definition line_text (s : str) : Prop := utf8_valid s = true /\ (LF ∉ s).
Definition wf_field (s : str) : Prop := line_text s /\ trimmed s.
Definition wf_event (e : SseEvent.t) : Prop :=
  (forall v, SseEvent.event e = Some v -> wf_field v) /\
  (forall v, SseEvent.id e = Some v -> wf_field v) /\
  (forall r, SseEvent.retry e = Some r -> (r < U64)%N) /\
  (forall d, SseEvent.data e = Some d -> utf8_valid d = true).

(** What the receiver gets for [e]: every non-empty data line keeps its
    newline, the lines are joined by one more; an event that renders to no
    field line is not an event. *)
Definition received_data (d : bytes) : option bytes :=
  match List.filter (fun l => negb (bool_decide (l = []))) (lines d) with
  | [] => None
  | ls => Some (join [LF] (SseEvent.writeln <$> ls))
  end.
Definition received (e : SseEvent.t) : list SseEvent.t :=
  match SseEvent.fmt_lines e with
  | [] => []
  | _ => [SseEvent.mk (SseEvent.event e) (SseEvent.data e ≫= received_data)
            (SseEvent.id e) (SseEvent.retry e)]
  end.

Lemma LF_not_in_ascii s : LF ∉ s -> forall t, LF ∉ t -> LF ∉ s ++ t.
Proof. intros H t Ht. rewrite elem_of_app. tauto. Qed.

Lemma line_text_strip_cr l : line_text l -> line_text (strip_cr l).
Proof.
  intros [Hv Hn]. unfold strip_cr. destruct (last l) as [c|] eqn:E; [|done].
  case_decide; subst; [|done]. apply last_Some in E as [l' ->].
  rewrite removelast_app by done. simpl. rewrite app_nil_r. split.
  - by destruct (utf8_valid_split l' CR [] eq_refl Hv).
  - intros H. apply Hn. by apply elem_of_app; left.
Qed.

Lemma lines_line_text d : utf8_valid d = true -> Forall line_text (lines d).
Proof.
  unfold lines. assert (G : forall cur, LF ∉ cur -> utf8_valid (cur ++ d) = true ->
                           Forall line_text (lines_go cur d)).
  { induction d as [|c d IH]; intros cur Hc Hv; simpl.
    - rewrite app_nil_r in Hv. destruct cur; repeat constructor; done.
    - case_decide; subst.
      + destruct (utf8_valid_split _ LF _ eq_refl Hv) as [H1 H2].
        constructor; [by apply line_text_strip_cr|]. by apply IH; [apply not_elem_of_nil|].
      + apply IH; [|by rewrite <-app_assoc].
        apply LF_not_in_ascii; [done|]. by apply not_elem_of_cons; split; [|apply not_elem_of_nil]. }
  intros Hv. apply G; [apply not_elem_of_nil|done].
Qed.

Lemma fmt_lines_text e : wf_event e -> Forall (fun l => line_text l /\ l <> []) (SseEvent.fmt_lines e).
Proof.
  intros (He & Hi & Hr & Hd).
  assert (P : forall pre v, LF ∉ pre -> pre <> [] -> utf8_valid pre = true -> line_text v ->
              line_text (pre ++ v) /\ pre ++ v <> []).
  { intros pre v H1 H2 H3 [H4 H5]. split; [split|by destruct pre].
    - by rewrite utf8_valid_app.
    - by apply LF_not_in_ascii. }
  assert (Hpre : forall x : str, Forall (fun c => is_lf c = false) x -> LF ∉ x) by (intros; by apply not_LF).
  unfold SseEvent.fmt_lines. rewrite !Forall_app. split_and!.
  - destruct (SseEvent.retry e) as [r|]; [|constructor].
    apply Forall_singleton, P; [by apply Hpre; repeat constructor|done|done|].
    split; [apply utf8_valid_ascii|apply Hpre];
      (eapply Forall_impl; [apply show_N_digits|]); intros c Hc; unfold is_digit in Hc; bool_prop;
      [apply N.ltb_lt; lia|]. unfold is_lf. apply bool_decide_eq_false. by intros ->.
  - destruct (SseEvent.id e) as [v|]; [|constructor].
    apply Forall_singleton, P; [by apply Hpre; repeat constructor|done|done|by apply Hi].
  - destruct (SseEvent.event e) as [v|]; [|constructor].
    apply Forall_singleton, P; [by apply Hpre; repeat constructor|done|done|by apply He].
  - destruct (SseEvent.data e) as [d|]; [|constructor].
    unfold SseEvent.data_lines. rewrite (Hd d) by done. apply Forall_fmap.
    eapply Forall_impl; [by apply lines_line_text, Hd|]. intros l Hl.
    apply (P (s! "data: ")); [by apply Hpre; repeat constructor|done|done|done].
Qed.

(** *** Field lines *)

Lemma add_line_writeln a l :
  line_text l ->
  add_line a (SseEvent.writeln l) =
  match parse_line (l ++ [LF]) with
  | None => a
  | Some (KData, v) =>
      mkFields (f_event a) (f_id a) (f_retry a)
        (if bool_decide (v = []) || bool_decide (v = [LF]) then data_parts a
         else data_parts a ++ [v]) true
  | Some (KEvent, v) => mkFields (Some v) (f_id a) (f_retry a) (data_parts a) (saw_data_line a)
  | Some (KId, v) => mkFields (f_event a) (Some v) (f_retry a) (data_parts a) (saw_data_line a)
  | Some (KRetry, v) => mkFields (f_event a) (f_id a) (Some v) (data_parts a) (saw_data_line a)
  end.
Proof.
  intros [Hv _]. unfold add_line, SseEvent.writeln.
  by rewrite from_utf8_lossy_valid by (rewrite utf8_valid_app; done).
Qed.

Lemma parse_data_line v : parse_line ((s! "data: ") ++ v) = Some (KData, v).
Proof. reflexivity. Qed.

Lemma trim_end_matches_cons c x s : x <> c -> exists t, trim_end_matches c (x :: s) = x :: t.
Proof.
  intros H. unfold trim_end_matches. simpl.
  assert (E : forall l, trim_start_matches c (l ++ [x]) = trim_start_matches c l ++ [x]).
  { induction l as [|y l IH]; simpl; [by rewrite decide_False|]. by case_decide. }
  rewrite E, rev_unit. eauto.
Qed.

Lemma parse_event_line v : trimmed v -> parse_line (((s! "event: ") ++ v) ++ [LF]) = Some (KEvent, v).
Proof.
  intros Hv. unfold parse_line. rewrite <-app_assoc.
  destruct (trim_end_matches_cons LF "e"%char ((s! "vent: ") ++ v ++ [LF])) as [t Ht]; [done|].
  change ((s! "event: ") ++ v ++ [LF]) with ("e"%char :: (s! "vent: ") ++ v ++ [LF]).
  rewrite Ht. simpl. by rewrite trim_snoc_LF.
Qed.
Lemma parse_id_line v : trimmed v -> parse_line (((s! "id: ") ++ v) ++ [LF]) = Some (KId, v).
Proof.
  intros Hv. unfold parse_line. rewrite <-app_assoc.
  destruct (trim_end_matches_cons LF "i"%char ((s! "d: ") ++ v ++ [LF])) as [t Ht]; [done|].
  change ((s! "id: ") ++ v ++ [LF]) with ("i"%char :: (s! "d: ") ++ v ++ [LF]).
  rewrite Ht. simpl. by rewrite trim_snoc_LF.
Qed.
Lemma parse_retry_line v : trimmed v -> parse_line (((s! "retry: ") ++ v) ++ [LF]) = Some (KRetry, v).
Proof.
  intros Hv. unfold parse_line. rewrite <-app_assoc.
  destruct (trim_end_matches_cons LF "r"%char ((s! "etry: ") ++ v ++ [LF])) as [t Ht]; [done|].
  change ((s! "retry: ") ++ v ++ [LF]) with ("r"%char :: (s! "etry: ") ++ v ++ [LF]).
  rewrite Ht. simpl. by rewrite trim_snoc_LF.
Qed.

Lemma add_data_lines a ls :
  Forall line_text ls ->
  foldl add_line a (SseEvent.writeln <$> ((fun l => (s! "data: ") ++ l) <$> ls)) =
  mkFields (f_event a) (f_id a) (f_retry a)
    (data_parts a ++ (SseEvent.writeln <$> List.filter (fun l => negb (bool_decide (l = []))) ls))
    (saw_data_line a || negb (bool_decide (ls = []))).
Proof.
  intros Hl; revert a; induction Hl as [|l ls [Hv Hn] _ IH]; intros a.
  - simpl. rewrite app_nil_r, orb_false_r. by destruct a.
  - cbn [fmap list_fmap foldl]. rewrite add_line_writeln.
    2:{ split; [by rewrite utf8_valid_app|]. apply LF_not_in_ascii; [|done]. by apply not_LF; repeat constructor. }
    rewrite <-app_assoc, parse_data_line, IH. simpl. rewrite orb_true_r.
    destruct l as [|c l]; simpl; [done|].
    rewrite bool_decide_eq_false_2; [by rewrite <-app_assoc|].
    intros [= ->]. by destruct l.
Qed.

(** One optional field: the line, when there is one, sets the field. *)
Lemma add_field (pre : str) (k : key) a (o : option str) :
  (forall v, o = Some v -> line_text (pre ++ v) /\ parse_line ((pre ++ v) ++ [LF]) = Some (k, v)) ->
  foldl add_line a (SseEvent.writeln <$> match o with Some v => [pre ++ v] | None => [] end) =
  match o with
  | None => a
  | Some v =>
      match k with
      | KEvent => mkFields (Some v) (f_id a) (f_retry a) (data_parts a) (saw_data_line a)
      | KId => mkFields (f_event a) (Some v) (f_retry a) (data_parts a) (saw_data_line a)
      | KRetry => mkFields (f_event a) (f_id a) (Some v) (data_parts a) (saw_data_line a)
      | KData => add_line a (SseEvent.writeln (pre ++ v))
      end
  end.
Proof.
  intros H. destruct o as [v|]; [|done]. destruct (H v eq_refl) as [H1 H2].
  cbn [fmap list_fmap foldl]. destruct k; [done|..]; by rewrite add_line_writeln, H2.
Qed.

(** A rendered event parses to what the receiver expects. *)
Lemma parse_fmt_lines e :
  wf_event e -> SseEvent.fmt_lines e <> [] ->
  parse_sse_message (SseEvent.writeln <$> SseEvent.fmt_lines e) =
  Some (SseEvent.mk (SseEvent.event e) (SseEvent.data e ≫= received_data) (SseEvent.id e) (SseEvent.retry e)).
Proof.
  intros Hwf. pose proof (fmt_lines_text e Hwf) as Ht. destruct Hwf as (He & Hi & Hr & Hd).
  unfold parse_sse_message. unfold SseEvent.fmt_lines in *. rewrite !fmap_app, !foldl_app.
  rewrite !Forall_app in Ht. destruct Ht as (T1 & T2 & T3 & _).
  replace (match SseEvent.retry e with Some r => _ | None => [] end)
    with (match show_N <$> SseEvent.retry e with Some v => [(s! "retry: ") ++ v] | None => [] end)
    in * by by destruct (SseEvent.retry e).
  rewrite (add_field (s! "retry: ") KRetry).
  2:{ intros v Ev. rewrite Ev in T1. apply Forall_singleton in T1 as [? _]. split; [done|].
      destruct (SseEvent.retry e); simplify_eq/=. apply parse_retry_line, show_N_trimmed. }
  rewrite (add_field (s! "id: ") KId).
  2:{ intros v Ev. rewrite Ev in T2. apply Forall_singleton in T2 as [? _]. split; [done|].
      by apply parse_id_line, Hi. }
  rewrite (add_field (s! "event: ") KEvent).
  2:{ intros v Ev. rewrite Ev in T3. apply Forall_singleton in T3 as [? _]. split; [done|].
      by apply parse_event_line, He. }
  match goal with |- context [foldl add_line ?b _] =>
    replace b with (mkFields (SseEvent.event e) (SseEvent.id e) (show_N <$> SseEvent.retry e) [] false)
      by by destruct (SseEvent.event e), (SseEvent.id e), (SseEvent.retry e) end.
  clear T1 T2 T3.
  assert (Rr : (show_N <$> SseEvent.retry e) ≫= (fun r => parse_uint U64 (trim r)) = SseEvent.retry e).
  { destruct (SseEvent.retry e) as [r|]; [|done]. simpl.
    rewrite trim_trimmed by apply show_N_trimmed. by apply parse_show_N, Hr. }
  destruct (SseEvent.data e) as [d|] eqn:Ed; simpl.
  - unfold SseEvent.data_lines. rewrite Hd by done. rewrite add_data_lines by by apply lines_line_text, Hd.
    simpl. rewrite Rr. unfold received_data. intros Hne.
    destruct (lines d) as [|l ls] eqn:El; simpl.
    + destruct (SseEvent.retry e), (SseEvent.id e), (SseEvent.event e); done.
    + destruct (negb (bool_decide (l = [])));
        destruct (List.filter _ ls); simpl; by rewrite ?andb_false_r.
  - rewrite Rr. intros Hne. destruct (SseEvent.retry e), (SseEvent.id e), (SseEvent.event e); done.
Qed.

(** *** Streams of events *)

Lemma push_text_lines cur ls :
  Forall (fun l => l <> [LF]) ls -> foldl push_line (cur, []) ls = (cur ++ ls, []).
Proof.
  intros H; revert cur; induction H as [|l ls Hl _ IH]; intros cur; simpl; [by rewrite app_nil_r|].
  destruct (push_line_cases cur l) as [E | [-> _]]; [|done]. rewrite E, IH. by rewrite <-app_assoc.
Qed.

Lemma push_event e cur :
  wf_event e -> cur = [] \/ cur = [[LF]] ->
  foldl push_line (cur, []) ((SseEvent.writeln <$> SseEvent.fmt_lines e) ++ [[LF]]) = ([[LF]], received e).
Proof.
  intros Hwf Hcur. pose proof (fmt_lines_text e Hwf) as Ht. rewrite foldl_app.
  assert (Hls : Forall (fun l => l <> [LF]) (SseEvent.writeln <$> SseEvent.fmt_lines e)).
  { apply Forall_fmap. eapply Forall_impl; [apply Ht|]. intros [|c l] [_ ?]; [done|]. simpl. by destruct l. }
  rewrite push_text_lines by done. set (ls := SseEvent.writeln <$> SseEvent.fmt_lines e) in *.
  assert (Hf : List.filter (fun l : bytes => negb (bool_decide (l = [LF]))) (cur ++ ls) = ls).
  { rewrite List.filter_app, (Forall_filter_id _ ls).
    - by destruct Hcur as [-> | ->].
    - eapply Forall_impl; [apply Hls|]. intros l Hl; simpl. by rewrite bool_decide_eq_false_2. }
  simpl. unfold push_line. rewrite last_snoc, length_app, bool_decide_eq_true_2, andb_true_r by done.
  replace (length (cur ++ ls) + length [[LF]] - 1)%nat with (length (cur ++ ls)) by (simpl; lia).
  rewrite take_app_length, drop_app_length, Hf. unfold received.
  destruct (SseEvent.fmt_lines e) as [|l0 l1] eqn:El.
  - subst ls; simpl. rewrite app_nil_r. destruct Hcur as [-> | ->]; done.
  - rewrite (proj2 (Nat.leb_le _ _)) by (rewrite length_app; subst ls; simpl; lia).
    subst ls. rewrite <-El. by rewrite parse_fmt_lines by (rewrite ?El; done).
Qed.

Lemma to_string_lines e :
  SseEvent.to_string e = concat ((SseEvent.writeln <$> SseEvent.fmt_lines e) ++ [[LF]]).
Proof. unfold SseEvent.to_string. by rewrite concat_app. Qed.

Lemma event_is_lines e :
  wf_event e -> Forall is_line ((SseEvent.writeln <$> SseEvent.fmt_lines e) ++ [[LF]]).
Proof.
  intros Hwf. apply Forall_app; split.
  - apply Forall_fmap. eapply Forall_impl; [by apply fmt_lines_text|]. intros l [[_ H] _]. by exists l.
  - repeat constructor. exists []. split; [apply not_elem_of_nil|done].
Qed.

Definition stream_lines (evs : list SseEvent.t) : list bytes :=
  evs ≫= (fun e => (SseEvent.writeln <$> SseEvent.fmt_lines e) ++ [[LF]]).

Lemma stream_lines_cons e evs :
  stream_lines (e :: evs) = ((SseEvent.writeln <$> SseEvent.fmt_lines e) ++ [[LF]]) ++ stream_lines evs.
Proof. done. Qed.

Lemma push_stream evs cur :
  Forall wf_event evs -> cur = [] \/ cur = [[LF]] ->
  (foldl push_line (cur, []) (stream_lines evs)).2 = evs ≫= received.
Proof.
  intros Hwf; revert cur; induction Hwf as [|e evs He _ IH]; intros cur Hcur; [done|].
  rewrite stream_lines_cons, foldl_app, push_event by done.
  rewrite foldl_push_events. simpl. by rewrite IH by auto.
Qed.

Lemma stream_lines_concat evs : concat (stream_lines evs) = concat (SseEvent.to_string <$> evs).
Proof.
  induction evs as [|e evs IH]; [done|]. rewrite stream_lines_cons, concat_app, IH. cbn [fmap list_fmap concat].
  by rewrite to_string_lines.
Qed.

Lemma stream_is_lines evs : Forall wf_event evs -> Forall is_line (stream_lines evs).
Proof.
  induction 1 as [|e evs He _ IH]; [constructor|]. rewrite stream_lines_cons.
  apply Forall_app; split; [by apply event_is_lines|done].
Qed.
End SseFacts.

(** ** Properties *)

Import SseParser SseFacts.

(** Chunk boundaries are invisible: feeding a byte stream in any cut gives
    the same parser state and the same events as feeding it whole. *)
Theorem sse_chunking_invisible (chunks : list bytes) :
  feed new chunks = process_new_chunk new (concat chunks).
Proof. apply feed_concat. Qed.

(** C18. A stream of rendered events whose names and ids are trimmed texts of
    one line, cut into chunks anywhere, is parsed to the same events in the same
    order, each with its name, id and retry time and with its data as the parser
    gives it: every non-empty line of the data keeps its newline, so that
    'hello' comes out with a newline behind it, two lines are joined by one more
    newline, and empty lines are gone.  Events that render to no field line,
    the keep-alives, yield nothing. *)
Theorem sse_stream_roundtrip (evs : list SseEvent.t) (chunks : list bytes) :
  Forall wf_event evs ->
  concat chunks = concat (SseEvent.to_string <$> evs) ->
  (feed new chunks).2 = evs ≫= received.
Proof.
  intros Hwf Hc. rewrite feed_concat, Hc, process_new_chunk_eq. simpl.
  rewrite <-stream_lines_concat, <-(app_nil_r (concat _)), split_lf_concat by by apply stream_is_lines.
  simpl. rewrite app_nil_r. pose proof (push_stream evs [] Hwf (or_introl eq_refl)) as H.
  by destruct (foldl push_line ([], []) (stream_lines evs)).
Qed.

(** A response event with id and retry, a keep-alive, and a two-line payload,
    cut in the middle of a line. *)
Definition demo_events : list SseEvent.t :=
  [SseEvent.mk (Some (s! "message")) (Some (s! "{}")) (Some (s! "s-.-t-.-7")) (Some 3000%N);
   SseEvent.default;
   SseEvent.new (s! "a" ++ [LF] ++ s! "b")].

Lemma sse_stream_roundtrip_witness :
  (feed new [take 20 (concat (SseEvent.to_string <$> demo_events));
             drop 20 (concat (SseEvent.to_string <$> demo_events))]).2 = demo_events ≫= received
  /\ length (demo_events ≫= received) = 2%nat.
Proof.
  split; [|vm_compute; reflexivity].
  apply (sse_stream_roundtrip demo_events); [|vm_compute; reflexivity].
  assert (F : forall a b r v, v = a :: r -> last v = Some b -> graphic a = true -> graphic b = true ->
              utf8_valid v = true -> position is_lf v = None -> wf_field v).
  { intros a b r v H1 H2 H3 H4 H5 H6. split; [split; [done|]|].
    - by apply not_LF, position_None. - right. by exists a, b, r. }
  repeat apply Forall_cons_2; [..|apply Forall_nil_2];
    (split_and!; simpl; intros ? E; inversion E; subst; first [reflexivity | eapply F; reflexivity]).
Defined.
