(* ===== verification/LineReader.v ===== *)
(** * The capped line reader of incoming messages

    Models crates/rust-mcp-transport/src/mcp_stream.rs: [read_capped_line],
    [discard_to_newline], [line_to_string] and the loop of [spawn_reader].

    A tokio [AsyncBufRead] is the list of what [fill_buf] will still deliver:
    non-empty byte chunks, or an I/O error; the empty list is end-of-file.
    Cancellation ends the loop before a read and is an explicit input. *)
From S2P Require Import Prelude RustStr.

Section Reader.
Context {IoError : Type}.

Inductive item :=
| Data (chunk : bytes)
| Fail (e : IoError).

(** [reader.fill_buf().await]: the current chunk, empty at end-of-file. *)
Definition fill_buf (r : list item) : result bytes IoError * list item :=
  match r with
  | [] => (Ok [], r)
  | Data c :: _ => (Ok c, r)
  | Fail e :: t => (Err e, t)
  end.

(** [reader.consume(n)]. *)
Definition consume (n : nat) (r : list item) : list item :=
  match r with
  | Data c :: t => match drop n c with [] => t | c' => Data c' :: t end
  | _ => r
  end.

Definition is_lf (b : ascii) : bool := bool_decide (b = LF).

(** [enum LineRead] *)
Inductive LineRead :=
| Line (s : str)
| TooLong
| Eof.

(** [line_to_string] *)
Definition line_to_string (buf : bytes) : str :=
  from_utf8_lossy (match last buf with
                   | Some c => if decide (c = CR) then removelast buf else buf
                   | None => buf
                   end).

(** [discard_to_newline]: the loop consumes a whole chunk per round. *)
Fixpoint discard_to_newline (r : list item) : result unit IoError * list item :=
  match r with
  | [] => (Ok tt, [])
  | Fail e :: t => (Err e, t)
  | Data chunk :: t =>
      if bool_decide (chunk = []) then (Ok tt, r)
      else match position is_lf chunk with
           | Some pos => (Ok tt, consume (S pos) r)
           | None => discard_to_newline t
           end
  end.

(** [read_capped_line], from the loop head with the bytes [buf] collected. *)
Fixpoint read_capped_line (max : nat) (buf : bytes) (r : list item)
  : result LineRead IoError * list item :=
  match r with
  | [] => (Ok (match buf with [] => Eof | _ => Line (line_to_string buf) end), [])
  | Fail e :: t => (Err e, t)
  | Data chunk :: t =>
      if bool_decide (chunk = []) then
        (Ok (match buf with [] => Eof | _ => Line (line_to_string buf) end), r)
      else match position is_lf chunk with
      | Some pos =>
          if (max <? length buf + pos)%nat then (Ok TooLong, consume (S pos) r)
          else (Ok (Line (line_to_string (buf ++ take pos chunk))), consume (S pos) r)
      | None =>
          if (max <? length buf + length chunk)%nat then
            let '(res, r') := discard_to_newline t in
            (match res with Ok _ => Ok TooLong | Err e => Err e end, r')
          else read_capped_line max (buf ++ chunk) t
      end
  end.

(** The loop of [spawn_reader].  [decode] is [serde_json::from_str::<X>],
    [cancelled n] tells whether the cancellation branch wins at the n-th
    read, [open n] whether the receiver still takes a message then.  The
    [trace!] statement is left out: with tracing enabled its slice of the
    payload panics on some lines (lemma trace_payload_panics). *)
Inductive reader_end := RCancelled | REof | RSendError | RReadError (e : IoError).

Section Loop.
Context {X : Type} (decode : str -> option X) (max : nat)
        (cancelled : nat -> bool) (open : nat -> bool).

Fixpoint spawn_reader (fuel n : nat) (r : list item) : option (list X * reader_end) :=
  match fuel with
  | O => None
  | S f =>
      if cancelled n then Some ([], RCancelled)
      else
        let '(res, r') := read_capped_line max [] r in
        match res with
        | Ok Eof => Some ([], REof)
        | Ok TooLong => spawn_reader f (S n) r'
        | Ok (Line line) =>
            match decode line with
            | None => spawn_reader f (S n) r'
            | Some message =>
                if open n then
                  '(ms, e) ← spawn_reader f (S n) r'; Some (message :: ms, e)
                else Some ([], RSendError)
            end
        | Err e => Some ([], RReadError e)
        end
  end.
End Loop.

(** The argument of [tracing::trace!("raw payload: {}", &line[..line.len().min(1024)])]:
    slicing off a character boundary panics. *)
Definition trace_payload (line : str) : option str :=
  let n := Nat.min (length line) 1024 in
  if is_char_boundary line n then Some (take n line) else None.

(** ** Reference definition on the whole byte stream *)

Definition line_of (max : nat) (l : bytes) : LineRead :=
  if (max <? length l)%nat then TooLong else Line (line_to_string l).

(** The first line of the stream and what follows it. *)
Definition first_line (max : nat) (s : bytes) : LineRead * bytes :=
  match position is_lf s with
  | Some pos => (line_of max (take pos s), drop (S pos) s)
  | None => (match s with [] => Eof | _ => line_of max s end, [])
  end.

(** All lines of the stream. *)
Fixpoint all_lines (fuel : nat) (max : nat) (s : bytes) : list LineRead :=
  match fuel, s with
  | S f, _ :: _ => let '(l, s') := first_line max s in l :: all_lines f max s'
  | _, _ => []
  end.
Definition delivered {X} (decode : str -> option X) (ls : list LineRead) : list X :=
  omap (fun l => match l with Line s => decode s | _ => None end) ls.

(** A reader without I/O errors, and the bytes it will deliver. *)
Definition chunks_ok (r : list item) : Prop :=
  Forall (fun i => exists c, i = Data c /\ c <> []) r.
Definition stream (r : list item) : bytes :=
  r ≫= (fun i => match i with Data c => c | Fail _ => [] end).

Lemma stream_cons c r : stream (Data c :: r) = c ++ stream r.
Proof. done. Qed.

Lemma consume_ok n c r :
  chunks_ok (Data c :: r) -> (n <= length c)%nat ->
  chunks_ok (consume n (Data c :: r)) /\ stream (consume n (Data c :: r)) = drop n c ++ stream r.
Proof.
  intros [(c' & Heq & Hc) Hr]%Forall_cons; injection Heq as <-. intros Hn. simpl.
  destruct (drop n c) as [|x c''] eqn:E; [done|]. split; [|done].
  constructor; [|done]. eauto.
Qed.

Lemma position_app_l (c s : bytes) pos :
  position is_lf c = Some pos -> position is_lf (c ++ s) = Some pos.
Proof.
  revert pos; induction c as [|x c IH]; intros pos; simpl; [done|].
  destruct (is_lf x); [done|]. destruct (position is_lf c); simpl; [|done].
  intros [= <-]. by rewrite (IH _ eq_refl).
Qed.

Lemma position_app_None (c s : bytes) :
  position is_lf c = None -> position is_lf (c ++ s) = (Nat.add (length c)) <$> position is_lf s.
Proof.
  induction c as [|x c IH]; simpl; intros H; [by destruct (position is_lf s)|].
  destruct (is_lf x); [done|]. destruct (position is_lf c); [done|]. rewrite IH by done.
  by destruct (position is_lf s).
Qed.

Lemma discard_spec r :
  chunks_ok r -> exists r', discard_to_newline r = (Ok tt, r') /\ chunks_ok r' /\
    stream r' = match position is_lf (stream r) with
                | Some p => drop (S p) (stream r) | None => [] end.
Proof.
  induction r as [|i r IH]; intros Hr; [by exists []|]; cbn [discard_to_newline].
  pose proof Hr as Hr0. inversion Hr as [|? ? (c & -> & Hc) Hr']; subst.
  rewrite bool_decide_eq_false_2 by done. rewrite stream_cons.
  destruct (position is_lf c) as [pos|] eqn:E.
  - pose proof (position_lt _ _ _ E). eexists; split; [done|].
    destruct (consume_ok (S pos) c r Hr0) as [H1 H2]; [lia|]. split; [done|].
    rewrite H2, (position_app_l _ _ _ E). by rewrite drop_app_le by lia.
  - destruct (IH Hr') as (r' & H1 & H2 & H3). exists r'. split_and!; [done|done|].
    rewrite H3, position_app_None by done. destruct (position is_lf (stream r)); simpl; [|done].
    replace (S (length c + n)) with (length c + S n) by lia. by rewrite drop_app_add.
Qed.

Lemma read_capped_spec max r buf :
  chunks_ok r -> position is_lf buf = None -> (length buf <= max)%nat ->
  exists r', read_capped_line max buf r = (Ok (first_line max (buf ++ stream r)).1, r') /\
    chunks_ok r' /\ stream r' = (first_line max (buf ++ stream r)).2.
Proof.
  revert buf; induction r as [|i r IH]; intros buf Hr Hb Hmax.
  - exists []. unfold first_line. simpl. rewrite app_nil_r, Hb. split_and!; [|done|done].
    destruct buf; [done|]. unfold line_of.
    by rewrite (proj2 (Nat.ltb_ge _ _)) by done.
  - pose proof Hr as Hr0. inversion Hr as [|? ? (c & -> & Hc) Hr']; subst.
    cbn [read_capped_line]. rewrite bool_decide_eq_false_2 by done. rewrite stream_cons.
    destruct (position is_lf c) as [pos|] eqn:E.
    + pose proof (position_lt _ _ _ E).
      destruct (consume_ok (S pos) c r Hr0) as [H1 H2]; [lia|].
      assert (F : first_line max (buf ++ c ++ stream r) =
                  (line_of max (buf ++ take pos c), drop (S pos) c ++ stream r)).
      { unfold first_line. rewrite position_app_None, (position_app_l _ _ _ E) by done. cbn [fmap option_fmap option_map].
        replace (S (length buf + pos)) with (length buf + S pos) by lia.
        by rewrite take_app_add, drop_app_add, take_app_le, drop_app_le by lia. }
      rewrite F. unfold line_of. rewrite length_app, length_take, Nat.min_l by lia.
      destruct (max <? length buf + pos)%nat; eexists; (split_and!; [done|done|]); by rewrite H2.
    + destruct (Nat.ltb_spec max (length buf + length c)) as [Hlt|Hle].
      * destruct (discard_spec r Hr') as (r' & -> & H2 & H3). exists r'.
        assert (P : position is_lf (buf ++ c) = None) by (by rewrite position_app_None, E by done).
        rewrite app_assoc. unfold first_line. rewrite position_app_None by done.
        destruct (position is_lf (stream r)) as [p|] eqn:Ep; cbn [fmap option_fmap option_map].
        -- replace (S (length (buf ++ c) + p)) with (length (buf ++ c) + S p) by lia.
           rewrite drop_app_add. split_and!; [|done|done].
           unfold line_of. rewrite take_app_add, length_app, length_app.
           by rewrite (proj2 (Nat.ltb_lt _ _)) by lia.
        -- split_and!; [|done|done]. unfold line_of.
           destruct ((buf ++ c) ++ stream r) eqn:Eq.
           { apply (f_equal length) in Eq. rewrite !length_app in Eq.
             destruct c; [done|]. simpl in Eq. lia. }
           rewrite <-Eq, !length_app. by rewrite (proj2 (Nat.ltb_lt _ _)) by lia.
      * destruct (IH (buf ++ c) Hr') as (r' & H1 & H2 & H3).
        { by rewrite position_app_None, E. } { rewrite length_app. lia. }
        exists r'. by rewrite <-app_assoc in H1, H3.
Qed.

Lemma first_line_shrinks max s : s <> [] -> (length (first_line max s).2 < length s)%nat.
Proof.
  intros Hs. unfold first_line. destruct (position is_lf s) as [p|] eqn:E; simpl.
  - pose proof (position_lt _ _ _ E). rewrite length_drop. lia.
  - destruct s; [done|simpl; lia].
Qed.

Lemma first_line_Eof max s : (first_line max s).1 = Eof <-> s = [].
Proof.
  unfold first_line, line_of. split; [|by intros ->].
  destruct (position is_lf s); simpl; [by case_match|]. destruct s; [done|]. by case_match.
Qed.

Lemma spawn_reader_spec {X} (decode : str -> option X) max fuel n r :
  chunks_ok r -> (length (stream r) < fuel)%nat ->
  spawn_reader decode max (fun _ => false) (fun _ => true) fuel n r =
  Some (delivered decode (all_lines (length (stream r)) max (stream r)), REof).
Proof.
  intros Hr Hf. assert (G : forall k, (length (stream r) <= k)%nat ->
    spawn_reader decode max (fun _ => false) (fun _ => true) fuel n r =
    Some (delivered decode (all_lines k max (stream r)), REof)); [|by apply G].
  revert n r Hr Hf. induction fuel as [|f IH]; intros n r Hr Hf k Hk; [lia|]. cbn [spawn_reader].
  destruct (read_capped_spec max r [] Hr eq_refl (Nat.le_0_l _)) as (r' & -> & Hr' & Hs').
  simpl in *. pose proof (first_line_Eof max (stream r)) as HE.
  destruct (stream r) as [|b s] eqn:Es.
  { rewrite (proj2 HE eq_refl). by destruct k. }
  destruct k as [|k]; [simpl in *; lia|]. cbn [all_lines].
  pose proof (first_line_shrinks max (b :: s) ltac:(done)) as Hlt. simpl in Hk, Hf, Hlt.
  destruct (first_line max (b :: s)) as [l s'] eqn:El; simpl in *.
  assert (R : forall m, spawn_reader decode max (fun _ => false) (fun _ => true) f m r' =
                   Some (delivered decode (all_lines k max s'), REof)).
  { intros m. rewrite <-Hs'. apply IH; rewrite ?Hs'; [done|lia|lia]. }
  destruct l as [line| |]; [|by rewrite R|by destruct HE as [HE _]; specialize (HE eq_refl)].
  unfold delivered. simpl. destruct (decode line); [|by rewrite R]. by rewrite R.
Qed.
End Reader.
Arguments item : clear implicits.

(** A line that is read back as it was written. *)
Definition clean (max : nat) (j : str) : Prop := LF ∉ j /\ last j <> Some CR /\ utf8_valid j = true /\ length j <= max.
Lemma first_line_clean max j rest : clean max j -> first_line max (j ++ LF :: rest) = (Line j, rest).
Proof.
  intros (Hlf & Hcr & Hu & Hl). unfold first_line. rewrite position_app_r.
  - rewrite take_app_length. unfold line_of. rewrite (proj2 (Nat.ltb_ge _ _)) by done. f_equal.
    + unfold line_to_string. destruct (last j) as [c|]; [rewrite decide_False by congruence|]; by rewrite from_utf8_lossy_valid.
    + replace (j ++ LF :: rest) with ((j ++ [LF]) ++ rest) by (by rewrite <-app_assoc).
      replace (S (length j)) with (length (j ++ [LF])) by (rewrite length_app; simpl; lia). apply drop_app_length.
  - apply Forall_forall. intros c Hc. apply bool_decide_eq_false. intros ->. done.
  - by apply bool_decide_eq_true.
Qed.


(** C14. Reading one line does not depend on how the bytes arrive in chunks:
    the result is the reference [first_line] of the remaining byte stream, and
    exactly the bytes of that line (with its newline) are consumed. *)
Theorem read_capped_line_chunk_independent {IoError} (max : nat) (r : list (item IoError)) :
  chunks_ok r ->
  exists r', read_capped_line max [] r = (Ok (first_line max (stream r)).1, r') /\
    chunks_ok r' /\ stream r' = (first_line max (stream r)).2.
Proof. intros Hr. apply (read_capped_spec max r []); [done|done|simpl; lia]. Qed.

Lemma read_capped_line_chunk_independent_witness :
  exists r', read_capped_line (IoError := unit) 3 [] [Data (s! "hel"); Data (s! "lo" ++ LF :: s! "ok")] = (Ok TooLong, r')
    /\ stream r' = s! "ok".
Proof.
  destruct (read_capped_line_chunk_independent (IoError := unit) 3
    [Data (s! "hel"); Data (s! "lo" ++ LF :: s! "ok")]) as (r' & H1 & H2 & H3).
  - repeat constructor; eexists; (split; [reflexivity|discriminate]).
  - exists r'. rewrite H1, H3. split; vm_compute; reflexivity.
Defined.

(** C20. The reader task terminates at end-of-file and delivers, in order,
    exactly the messages that decode from the lines within the cap: an
    oversized or malformed line is dropped and the next line is read intact. *)
Theorem spawn_reader_delivers {IoError X} (decode : str -> option X) (max : nat) (r : list (item IoError)) :
  chunks_ok r ->
  spawn_reader decode max (fun _ => false) (fun _ => true) (S (length (stream r))) 0 r =
  Some (delivered decode (all_lines (length (stream r)) max (stream r)), REof).
Proof. intros Hr. apply spawn_reader_spec; [done|lia]. Qed.

Lemma spawn_reader_delivers_witness :
  spawn_reader (IoError := unit) (fun s => if decide (s = s! "x") then None else Some s) 4
    (fun _ => false) (fun _ => true) 22 0
    [Data (s! "ab" ++ [CR; LF] ++ s! "to"); Data (s! "o long" ++ LF :: s! "x" ++ LF :: s! "tail")]
  = Some ([s! "ab"; s! "tail"], REof).
Proof.
  refine (eq_trans (spawn_reader_delivers (IoError := unit)
    (fun s => if decide (s = s! "x") then None else Some s) 4
    [Data (s! "ab" ++ [CR; LF] ++ s! "to"); Data (s! "o long" ++ LF :: s! "x" ++ LF :: s! "tail")] _) _);
  [repeat constructor; eexists; (split; [reflexivity|discriminate]) | vm_compute; reflexivity].
Defined.

(** The trace statement panics on a line whose 1024th byte is inside a
    character. *)
Lemma trace_payload_panics : exists line, utf8_valid line = true /\ trace_payload line = None.
Proof.
  exists (replicate 1023 "a"%char ++ [ascii_of_nat 0xC3; ascii_of_nat 0xA9]).
  split; vm_compute; reflexivity.
Qed.
