(* ===== verification/EventStore.v ===== *)
(** * The event store behind SSE resumption

    Models crates/rust-mcp-transport/src/event_store.rs (the [EventStore]
    trait, here a class) and event_store/in_memory_event_store.rs
    ([InMemoryEventStore], here an instance).  The [RwLock] makes every method
    one atomic step on the map; errors are their message text. *)
From S2P Require Import Prelude RustStr.

Record EventStoreEntry := mkEventStoreEntry {
  entry_session_id : str;
  entry_stream_id : str;
  messages : list str;
}.

(** [trait EventStore], on a store of type [St]. *)
Class EventStore (St : Type) := {
  store_event : St -> str -> str -> N -> str -> result str str * St;
  remove_by_session_id : St -> str -> result unit str * St;
  remove_stream_in_session : St -> str -> str -> result unit str * St;
  clear : St -> result unit str * St;
  events_after : St -> str -> result (option EventStoreEntry) str;
  count : St -> result nat str;
  prune_excess_events : St -> option str -> result unit str * St;
}.

Module InMemoryEventStore.

Definition MAX_EVENTS_PER_SESSION : nat := 64.
Definition ID_SEPARATOR : str := s! "-.-".

(** [struct EventEntry] *)
Record EventEntry := mkEntry {
  stream_id : str;
  time_stamp : N; (* u128 *)
  message : str;
}.

(** [struct InMemoryEventStore] *)
Record t := mk {
  max_events_per_session : nat;
  storage_map : gmap str (list EventEntry);
}.

Definition default : t := mk MAX_EVENTS_PER_SESSION ∅.
Definition new (m : option nat) : t := mk (from_option id MAX_EVENTS_PER_SESSION m) ∅.
Definition with_map (s : t) (m : gmap str (list EventEntry)) : t := mk (max_events_per_session s) m.

Definition generate_event_id (session_id stream_id : str) (time_stamp : N) : str :=
  session_id ++ ID_SEPARATOR ++ stream_id ++ ID_SEPARATOR ++ show_N time_stamp.

Definition NUL : ascii := ascii_of_nat 0.

Definition parse_event_id (event_id : str) : result (str * str * N) str :=
  if bool_decide (event_id = []) || bool_decide (NUL ∈ event_id) then Err (s! "Event ID is empty!")
  else match split_str ID_SEPARATOR event_id with
  | [session_id; stream_id; time_stamp] =>
      if bool_decide (session_id = []) || bool_decide (stream_id = []) || bool_decide (time_stamp = [])
      then Err (s! "Invalid Event ID format.")
      else match parse_uint U128 time_stamp with
      | Some ts => Ok (session_id, stream_id, ts)
      | None => Err ((s! "Error parsing timestamp: ") ++ parse_uint_error U128 time_stamp)
      end
  | _ => Err (s! "Invalid Event ID format.")
  end.

(** The queue update of [store_event]: [pop_front] when full, [push_back]. *)
Definition push_event (max : nat) (q : list EventEntry) (e : EventEntry) : list EventEntry :=
  (if (length q =? max)%nat then drop 1 q else q) ++ [e].

Definition store (s : t) (session_id stream_id : str) (time_stamp : N) (message : str)
  : result str str * t :=
  let event_id := generate_event_id session_id stream_id time_stamp in
  let session_map := from_option id [] (storage_map s !! session_id) in
  (Ok event_id,
   with_map s (<[session_id := push_event (max_events_per_session s) session_map
                                 (mkEntry stream_id time_stamp message)]> (storage_map s))).

Definition remove_stream (s : t) (session_id stream_id' : str) : result unit str * t :=
  match storage_map s !! session_id with
  | Some events =>
      let events := List.filter (fun e => negb (bool_decide (stream_id e = stream_id'))) events in
      (Ok tt, with_map s (if bool_decide (events = []) then delete session_id (storage_map s)
                          else <[session_id := events]> (storage_map s)))
  | None => (Ok tt, s)
  end.

Definition remove_session (s : t) (session_id : str) : result unit str * t :=
  (Ok tt, with_map s (delete session_id (storage_map s))).

(** The messages [events_after] replays from a session's queue. *)
Definition replay (events : list EventEntry) (stream_id' : str) (time_stamp' : N) : list str :=
  match position (fun e => bool_decide (stream_id e = stream_id')
                           && (time_stamp e =? time_stamp')%N) events with
  | Some index =>
      if (index + 1 <? length events)%nat then
        message <$> sort_by_key time_stamp
          (List.filter (fun e => bool_decide (stream_id e = stream_id')) (drop (index + 1) events))
      else []
  | None => []
  end.

Definition after (s : t) (last_event_id : str) : result (option EventStoreEntry) str :=
  let? (session_id, stream_id, time_stamp) := parse_event_id last_event_id in
  match storage_map s !! session_id with
  | None => Ok None
  | Some events => Ok (Some (mkEventStoreEntry session_id stream_id (replay events stream_id time_stamp)))
  end.

Definition clear_all (s : t) : result unit str * t := (Ok tt, with_map s ∅).
Definition count_sessions (s : t) : result nat str := Ok (size (storage_map s)).

(** [prune_excess_events] is the trait's default: a warning. *)
#[global] Instance store_instance : EventStore t := {
  store_event := store;
  remove_by_session_id := remove_session;
  remove_stream_in_session := remove_stream;
  clear := clear_all;
  events_after := after;
  count := count_sessions;
  prune_excess_events := fun s _ => (Ok tt, s);
}.

(** ** Sequences of operations *)

Inductive op :=
| Store (session_id stream_id : str) (time_stamp : N) (message : str)
| RemoveStream (session_id stream_id : str)
| RemoveSession (session_id : str)
| Clear.

Definition apply (s : t) (o : op) : t :=
  match o with
  | Store se st ts m => (store_event s se st ts m).2
  | RemoveStream se st => (remove_stream_in_session s se st).2
  | RemoveSession se => (remove_by_session_id s se).2
  | Clear => (clear s).2
  end.
Definition run (s : t) (os : list op) : t := foldl apply s os.

(** Every queue respects the limit; removing a stream never leaves an empty queue. *)
Definition bounded (s : t) : Prop :=
  map_Forall (fun _ q => 1 <= length q <= max_events_per_session s) (storage_map s).

(** An operation that, for session [se], at most appends. *)
Definition appends (se : str) (o : op) : Prop :=
  match o with
  | Store _ _ _ _ => True
  | RemoveStream se' _ | RemoveSession se' => se' <> se
  | Clear => False
  end.
Definition appended (se : str) (os : list op) : list EventEntry :=
  omap (fun o => match o with
                 | Store se' st ts m => if decide (se' = se) then Some (mkEntry st ts m) else None
                 | _ => None end) os.

(** What a client that has seen event [(st, ts)] has still to see. *)
Definition on_stream (st : str) (es : list EventEntry) : list EventEntry :=
  List.filter (fun e => bool_decide (stream_id e = st)) es.

(** Identifiers the store can take apart again. *)
Definition id_ok (s : str) : Prop := s <> [] /\ ("."%char ∉ s) /\ (NUL ∉ s).
End InMemoryEventStore.

Module EventStoreFacts.
Import InMemoryEventStore.
#[local] Arguments parse_event_id : simpl never.

Lemma digits_ok n : Forall (fun c => c <> "."%char /\ c <> NUL) (show_N n).
Proof.
  eapply Forall_impl; [apply show_N_digits|].
  intros c Hc; split; intros ->; by vm_compute in Hc.
Qed.

Lemma parse_generate se st ts :
  id_ok se -> id_ok st -> (ts < U128)%N -> parse_event_id (generate_event_id se st ts) = Ok (se, st, ts).
Proof.
  intros (Hse & Hsd & Hsn) (Hst & Htd & Htn) Hts. unfold parse_event_id, generate_event_id.
  pose proof (digits_ok ts) as Hd. destruct (show_N_first ts) as (c & r & Hs & _).
  rewrite bool_decide_eq_false_2 by (by destruct se).
  rewrite bool_decide_eq_false_2; cbn [orb].
  2:{ rewrite !elem_of_app. rewrite Forall_forall in Hd.
      assert (NUL ∉ ID_SEPARATOR) by decided.
      intros [?|[?|[?|[?|Hn]]]]; try done. by destruct (Hd _ Hn). }
  unfold ID_SEPARATOR. cbn [String.list_ascii_of_string app].
  rewrite split_str_app by (done || discriminate).
  rewrite split_str_app by (done || discriminate).
  rewrite split_str_nosep. 2:{ rewrite Forall_forall in Hd. intros H. by destruct (Hd _ H). }
  rewrite !bool_decide_eq_false_2 by (try done; by rewrite Hs). cbn [orb].
  by rewrite parse_show_N.
Qed.

Lemma push_event_length max q e :
  0 < max -> length q <= max -> 1 <= length (push_event max q e) <= max.
Proof.
  intros Hm Hq. unfold push_event. rewrite length_app. simpl.
  destruct (Nat.eqb_spec (length q) max); [rewrite length_drop|]; lia.
Qed.

Lemma apply_max s o : max_events_per_session (apply s o) = max_events_per_session s.
Proof.
  destruct o; simpl; try done. unfold remove_stream. by case_match.
Qed.

Lemma queue_length se s :
  bounded s -> length (from_option id [] (storage_map s !! se)) <= max_events_per_session s.
Proof. intros H. destruct (storage_map s !! se) eqn:E; simpl; [|lia]. by destruct (H _ _ E). Qed.

Lemma apply_bounded s o : 0 < max_events_per_session s -> bounded s -> bounded (apply s o).
Proof.
  unfold bounded. intros Hm H. destruct o as [se st ts m|se st|se|]; simpl.
  - apply map_Forall_insert_2; [|done]. apply push_event_length, queue_length; done.
  - unfold remove_stream. destruct (storage_map s !! se) as [q|] eqn:E; [|exact H]. simpl.
    case_bool_decide as Hq; [by apply map_Forall_delete|].
    apply map_Forall_insert_2; [|done]. specialize (H _ _ E). simpl in H.
    split; [|etrans; [apply filter_length_le|lia]].
    destruct (List.filter _ q); [done|simpl; lia].
  - by apply map_Forall_delete.
  - apply map_Forall_empty.
Qed.

Lemma run_bounded s os :
  0 < max_events_per_session s -> bounded s -> bounded (run s os).
Proof.
  revert s; induction os as [|o os IH]; intros s Hm H; [done|].
  apply IH; [by rewrite apply_max|by apply apply_bounded].
Qed.

(** Pushing keeps the newest [max] events. *)
Lemma foldl_push max q es :
  length q <= max -> 0 < max ->
  foldl (push_event max) q es = drop (length q + length es - max) (q ++ es).
Proof.
  revert q; induction es as [|e es IH]; intros q Hq Hm; simpl.
  - rewrite app_nil_r. by replace (length q + 0 - max) with 0 by lia.
  - rewrite IH by (done || by apply push_event_length). unfold push_event.
    destruct (Nat.eqb_spec (length q) max) as [E|E].
    + destruct q as [|x q]; [simpl in *; lia|]. cbn [drop]. rewrite length_app, <-app_assoc. simpl in *.
      by replace (S (length q + S (length es)) - max) with (S (length q + 1 + length es - max)) by lia.
    + rewrite length_app, <-app_assoc. simpl. f_equal. lia.
Qed.

Lemma run_queue se s os :
  bounded s -> 0 < max_events_per_session s -> Forall (appends se) os ->
  from_option id [] (storage_map (run s os) !! se) =
  foldl (push_event (max_events_per_session s)) (from_option id [] (storage_map s !! se)) (appended se os).
Proof.
  intros Hb Hm Hos. revert s Hb Hm.
  induction Hos as [|o os Ho _ IH]; intros s Hb Hm; [done|].
  change (run s (o :: os)) with (run (apply s o) os).
  rewrite IH, apply_max by (rewrite ?apply_max; try done; by apply apply_bounded).
  destruct o as [se' st ts m|se' st|se'|]; simpl in *; [|..|done].
  - case_decide as E; [subst; by rewrite lookup_insert_eq|by rewrite lookup_insert_ne].
  - unfold remove_stream. destruct (storage_map s !! se') eqn:E; [|done]. simpl.
    case_bool_decide; [by rewrite lookup_delete_ne|by rewrite lookup_insert_ne].
  - by rewrite lookup_delete_ne.
Qed.

(** After storing one event and appending fewer than the limit, the session's
    queue still holds that event, followed by everything appended since. *)
Lemma queue_after_store s se st ts m os :
  bounded s -> Forall (appends se) os -> length (appended se os) < max_events_per_session s ->
  exists pre, storage_map (run s (Store se st ts m :: os)) !! se =
                Some (pre ++ mkEntry st ts m :: appended se os)
    /\ forall x, x ∈ pre -> x ∈ from_option id [] (storage_map s !! se).
Proof.
  intros Hb Hos Hlen.
  assert (Hos' : Forall (appends se) (Store se st ts m :: os)) by by constructor.
  pose proof (run_queue se s (Store se st ts m :: os) Hb ltac:(lia) Hos') as Q.
  pose proof (queue_length se s Hb) as Hq.
  assert (E : appended se (Store se st ts m :: os) = mkEntry st ts m :: appended se os).
  { unfold appended. cbn [omap list_omap]. by rewrite decide_True. }
  rewrite E, foldl_push in Q by lia. clear E Hos'. revert Q Hq.
  generalize (from_option id [] (storage_map s !! se)). intros q Q Hq. cbn [length] in Q.
  rewrite drop_app_le in Q by lia. eexists (drop _ q). split.
  - destruct (storage_map (run s _) !! se) as [q'|]; simpl in Q; [by f_equal|by destruct (drop _ q)].
  - intros x Hx. by apply (subseteq_drop _ _ _ Hx).
Qed.

Lemma replay_spec pre e post :
  Forall (fun x => ~ (stream_id x = stream_id e /\ time_stamp x = time_stamp e)) pre ->
  replay (pre ++ e :: post) (stream_id e) (time_stamp e) =
  message <$> sort_by_key time_stamp (on_stream (stream_id e) post).
Proof.
  intros Hpre. unfold replay. rewrite position_app_r.
  2:{ eapply Forall_impl; [exact Hpre|]. intros x Hx. simpl. apply not_true_iff_false.
      rewrite andb_true_iff, bool_decide_eq_true, N.eqb_eq. done. }
  2:{ by rewrite bool_decide_eq_true_2, N.eqb_refl. }
  rewrite length_app. simpl. replace (length pre + 1) with (length (pre ++ [e])) by (rewrite length_app; simpl; lia).
  change (e :: post) with ([e] ++ post). rewrite app_assoc, drop_app_length, length_app. simpl.
  destruct (Nat.ltb_spec (length pre + 1) (length pre + S (length post))); [done|].
  destruct post; [done|simpl in *; lia].
Qed.

Lemma after_replays (s : t) (se st : str) (ts : N) (m : str) (os : list op) :
  bounded s -> id_ok se -> id_ok st -> (ts < U128)%N ->
  Forall (fun e => ~ (stream_id e = st /\ time_stamp e = ts)) (from_option id [] (storage_map s !! se)) ->
  Forall (appends se) os ->
  length (appended se os) < max_events_per_session s ->
  ascending time_stamp (on_stream st (appended se os)) ->
  after (run s (Store se st ts m :: os)) (generate_event_id se st ts) =
  Ok (Some (mkEventStoreEntry se st (message <$> on_stream st (appended se os)))).
Proof.
  intros Hb Hse Hst Hts Hfresh Hos Hlen Hasc. unfold after. rewrite parse_generate by done.
  destruct (queue_after_store s se st ts m os) as (pre & -> & Hpre); [done|done|done|].
  pose proof (replay_spec pre (mkEntry st ts m) (appended se os)) as R. simpl in R.
  rewrite R, sort_by_key_id; [done|done|]. rewrite Forall_forall in *. eauto.
Qed.

(** What a queue may hold after only appending to it. *)
Lemma queue_elem se s os x :
  bounded s -> 0 < max_events_per_session s -> Forall (appends se) os ->
  x ∈ from_option id [] (storage_map (run s os) !! se) ->
  x ∈ from_option id [] (storage_map s !! se) \/ x ∈ appended se os.
Proof.
  intros Hb Hm Hos. rewrite run_queue, foldl_push by (done || by apply queue_length).
  intros Hx%subseteq_drop. by apply elem_of_app in Hx.
Qed.

Lemma run_max s os : max_events_per_session (run s os) = max_events_per_session s.
Proof. revert s; induction os as [|o os IH]; intros s; simpl; [done|]. by rewrite IH, apply_max. Qed.
End EventStoreFacts.

Import InMemoryEventStore EventStoreFacts.

(** Event ids round-trip: the id the store generates for a session, a
    stream and a timestamp parses back to exactly these, for identifiers that
    are not empty and contain neither the dot of the separator nor NUL. *)
Theorem event_id_roundtrip (se st : str) (ts : N) :
  id_ok se -> id_ok st -> (ts < U128)%N -> parse_event_id (generate_event_id se st ts) = Ok (se, st, ts).
Proof. apply parse_generate. Qed.

Lemma event_id_roundtrip_witness :
  parse_event_id (s! "5-f-.-s_1-.-1719") = Ok (s! "5-f", s! "s_1", 1719%N).
Proof.
  refine (event_id_roundtrip (s! "5-f") (s! "s_1") 1719 _ _ eq_refl);
  (split_and!; [discriminate|decided|decided]).
Defined.

(** Whatever sequence of operations runs on a fresh store with a positive
    limit, no session ever holds more than that many events, and no session
    with an empty queue is kept. *)
Theorem event_store_bounded (m : option nat) (os : list op) :
  m <> Some 0 -> bounded (run (new m) os).
Proof.
  intros Hm. apply run_bounded; [|apply map_Forall_empty].
  destruct m as [[|n]|]; simpl; [done|lia|unfold MAX_EVENTS_PER_SESSION; lia].
Qed.

Lemma event_store_bounded_witness :
  bounded (run (new (Some 1)) [Store (s! "a") (s! "s") 1 (s! "m"); Store (s! "a") (s! "s") 2 (s! "n")]).
Proof. apply event_store_bounded. discriminate. Defined.

(** Resumption replays exactly what was missed: after event [(st, ts)] of
    session [se] has been stored, and then any operations that only append to
    [se] (events of any stream, and any operation on other sessions), asking
    for the events after its id returns all and only the later messages of the
    same session and stream, in order, as long as fewer than the limit were
    stored in the session meanwhile. *)
Theorem events_after_replays (s : t) (se st : str) (ts : N) (m : str) (os : list op) :
  bounded s -> id_ok se -> id_ok st -> (ts < U128)%N ->
  Forall (fun e => ~ (stream_id e = st /\ time_stamp e = ts)) (from_option id [] (storage_map s !! se)) ->
  Forall (appends se) os ->
  length (appended se os) < max_events_per_session s ->
  ascending time_stamp (on_stream st (appended se os)) ->
  events_after (run s (Store se st ts m :: os)) (generate_event_id se st ts) =
  Ok (Some (mkEventStoreEntry se st (message <$> on_stream st (appended se os)))).
Proof. apply after_replays. Qed.

Lemma events_after_replays_witness :
  events_after (run (new (Some 3)) [Store (s! "a") (s! "x") 1 (s! "m1"); Store (s! "a") (s! "x") 2 (s! "m2");
     Store (s! "a") (s! "y") 3 (s! "n"); RemoveSession (s! "b")]) (s! "a-.-x-.-1") =
  Ok (Some (mkEventStoreEntry (s! "a") (s! "x") [s! "m2"])).
Proof.
  refine (events_after_replays (new (Some 3)) (s! "a") (s! "x") 1 (s! "m1")
    [Store (s! "a") (s! "x") 2 (s! "m2"); Store (s! "a") (s! "y") 3 (s! "n"); RemoveSession (s! "b")]
    _ _ _ eq_refl _ _ _ _); try (split_and!; [discriminate|decided|decided]).
  - apply map_Forall_empty.
  - constructor.
  - repeat constructor; discriminate.
  - simpl; lia.
  - repeat constructor.
Defined.

(** With a limit of zero the test [len() == max] is never true after the first
    event: the queue grows without bound. *)
Lemma zero_limit_unbounded (n : nat) (e : EventEntry) :
  length (foldl (push_event 0) [] (replicate n e)) = n.
Proof.
  enough (H : forall q, length (foldl (push_event 0) q (replicate n e)) = length q + n) by apply (H []).
  induction n as [|n IH]; intros q; simpl; [lia|]. rewrite IH. unfold push_event. rewrite length_app. simpl.
  destruct q; simpl; lia.
Qed.
