(* ===== verification/SessionStore.v ===== *)
(** * The bounded, sharded session store

    Models crates/rust-mcp-sdk/src/session_store.rs (the [SessionStore] trait,
    here a class) and session_store/in_memory_session_store.rs
    ([InMemorySessionStore], here an instance).

    The runtime stored per session is abstract ([R]); the hasher is any
    function.  [now] is the reading of the monotonic millisecond clock. *)
From S2P Require Import Prelude.

(** [trait SessionStore]; an operation that may change the store returns the
    new one, the clock is an argument. *)
Class SessionStore (R St : Type) := {
  get : N -> St -> str -> option R * St;
  set : N -> St -> str -> R -> St;
  delete : St -> str -> St;
  has : St -> str -> bool;
  keys : St -> list str;
  values : St -> list R;
  clear : St -> St;
  is_full : N -> St -> bool * St;
}.

(** What the HTTP handlers rely on: the store answers like a finite map, and
    only [is_full] may drop sessions on its own. *)
Class SessionStoreLaws (R St : Type) `{SessionStore R St} := {
  valid : St -> Prop;
  holds : St -> str -> option R;
  get_law now s k : valid s ->
    (get now s k).1 = holds s k /\ valid (get now s k).2 /\ forall k', holds (get now s k).2 k' = holds s k';
  set_law now s k v : valid s ->
    valid (set now s k v) /\ forall k', holds (set now s k v) k' = if decide (k = k') then Some v else holds s k';
  delete_law s k : valid s ->
    valid (delete s k) /\ forall k', holds (delete s k) k' = if decide (k = k') then None else holds s k';
  is_full_law now s : valid s ->
    valid (is_full now s).2 /\ forall k', holds (is_full now s).2 k' = holds s k' \/ holds (is_full now s).2 k' = None;
}.

Module InMemorySessionStore.
Section Store.
Context {R : Type} (hash : str -> N).

Definition DEFAULT_MAX_SESSIONS : N := 10000.
Definition SHARD_COUNT : nat := 16.

(** [struct SessionEntry] *)
Record SessionEntry := mkEntry {
  runtime : R;
  last_access_ms : N; (* u64 *)
}.

Definition touch (now : N) (e : SessionEntry) : SessionEntry := mkEntry (runtime e) now.
Definition is_idle (e : SessionEntry) (now_ms ttl_ms : N) : bool :=
  (ttl_ms <? u64_sat_sub now_ms (last_access_ms e))%N.

Abbreviation Shard := (gmap str SessionEntry).

(** [struct InMemorySessionStore] with its [Shards]. *)
Record t := mk {
  shards : list Shard;
  count : N; (* AtomicUsize *)
  max_sessions : N;
  idle_ttl : option N; (* milliseconds of the Duration *)
}.
Definition with_data (s : t) (d : list Shard) (c : N) : t := mk d c (max_sessions s) (idle_ttl s).

Definition with_limits (max : option N) (ttl : option N) : t :=
  mk (replicate SHARD_COUNT ∅) 0 (from_option id DEFAULT_MAX_SESSIONS max) ttl.

(** [self.shard(key)]: the index of the shard. *)
Definition shard (key : str) : nat := N.to_nat (hash key mod N.of_nat SHARD_COUNT).

(** [AtomicUsize::fetch_add(1)] and [fetch_sub(n)] wrap around. *)
Definition fetch_sub (c n : N) : N := ((c + U64 - n) mod U64)%N.

(** The number of entries over all shards, and [HashMap::retain] on one. *)
Definition sizes (ds : list Shard) : nat := sum_list (size <$> ds).
Definition retain (now ttl_ms : N) (d : Shard) : Shard :=
  filter (fun kv => is_idle kv.2 now ttl_ms = false) d.

(** The eviction loop over the shards: the retained shards, the counter and
    the total. *)
Fixpoint evict_shards (now ttl_ms : N) (ds : list Shard) (c : N) : list Shard * N * N :=
  match ds with
  | [] => ([], c, 0%N)
  | guard :: ds' =>
      let before := size guard in
      let guard' := retain now ttl_ms guard in
      let c' := fetch_sub c (N.of_nat (before - size guard')) in
      let '(ds'', c'', total) := evict_shards now ttl_ms ds' c' in
      (guard' :: ds'', c'', (N.of_nat (size guard') + total)%N)
  end.

Definition evict_idle (now : N) (s : t) : N * t :=
  match idle_ttl s with
  | Some ttl =>
      let ttl_ms := (ttl mod U64)%N in
      let '(ds, c, total) := evict_shards now ttl_ms (shards s) (count s) in
      (total, with_data s ds c)
  | None => (N.of_nat (sizes (shards s)), s)
  end.

Definition guard_of (s : t) (key : str) : Shard := from_option id ∅ (shards s !! shard key).
Definition put (s : t) (key : str) (m : Shard) (c : N) : t :=
  with_data s (<[shard key := m]> (shards s)) c.

Definition get_session (now : N) (s : t) (key : str) : option R * t :=
  match guard_of s key !! key with
  | None => (None, s)
  | Some entry => (Some (runtime entry), put s key (<[key := touch now entry]> (guard_of s key)) (count s))
  end.

Definition set_session (now : N) (s : t) (key : str) (value : R) : t :=
  put s key (<[key := mkEntry value now]> (guard_of s key)) (u64_succ (count s)).

Definition delete_session (s : t) (key : str) : t :=
  if is_some (guard_of s key !! key)
  then put s key (base.delete key (guard_of s key)) (fetch_sub (count s) 1)
  else s.

Definition clear_sessions (s : t) : t := with_data s ((fun _ => ∅) <$> shards s) 0.
Definition session_keys (s : t) : list str := shards s ≫= (fun d => (map_to_list d).*1).
Definition session_values (s : t) : list R := shards s ≫= (fun d => (fun kv => runtime kv.2) <$> map_to_list d).
Definition has_session (s : t) (key : str) : bool := is_some (guard_of s key !! key).

Definition session_is_full (now : N) (s : t) : bool * t :=
  if (count s <? max_sessions s)%N then (false, s)
  else let '(n, s') := evict_idle now s in ((max_sessions s <=? n)%N, s').

#[export] Instance store_instance : SessionStore R t := {
  get := get_session; set := set_session; delete := delete_session; has := has_session;
  keys := session_keys; values := session_values; clear := clear_sessions;
  is_full := session_is_full;
}.

(** ** The abstract store: one finite map *)

Definition find (s : t) (key : str) : option SessionEntry := guard_of s key !! key.
Definition total (s : t) : N := N.of_nat (sizes (shards s)).

(** Every key lives in its own shard, and the counter, which saw [n] calls of
    [set], is at least the number of stored sessions. *)
Definition Inv (n : N) (s : t) : Prop :=
  length (shards s) = SHARD_COUNT /\
  (forall i d k, shards s !! i = Some d -> is_Some (d !! k) -> i = shard k) /\
  (total s <= count s <= n)%N.

(** The server's use of the store: a session is created only when [is_full]
    says no ([start_new_session]'s callers), looked up, deleted, cleared. *)
Inductive op :=
| Admit (now : N) (key : str) (value : R)
| Get (now : N) (key : str)
| Delete (key : str)
| Clear.
Definition apply (s : t) (o : op) : t :=
  match o with
  | Admit now k v => let '(full, s') := is_full now s in if full then s' else set now s' k v
  | Get now k => (get now s k).2
  | Delete k => delete s k
  | Clear => clear s
  end.
End Store.
Arguments t : clear implicits.
Arguments SessionEntry : clear implicits.
End InMemorySessionStore.

Module SessionStoreFacts.
Import InMemorySessionStore.
Section Facts.
Context {R : Type} (hash : str -> N).
Implicit Types (s : t R) (n : N) (k : str).
#[local] Abbreviation Inv := (@Inv R hash).

Lemma shard_lt k : shard hash k < SHARD_COUNT.
Proof.
  unfold shard, SHARD_COUNT. change (N.of_nat 16) with 16%N.
  generalize (N.mod_upper_bound (hash k) 16 ltac:(done)). lia.
Qed.

Lemma guard_lookup n s k : Inv n s -> shards s !! shard hash k = Some (guard_of hash s k).
Proof.
  intros (Hl & _). unfold guard_of.
  destruct (lookup_lt_is_Some_2 (shards s) (shard hash k)) as [d ->]; [|done].
  rewrite Hl. apply shard_lt.
Qed.

Lemma sizes_cons (d : gmap str (SessionEntry R)) ds : sizes (d :: ds) = size d + sizes ds.
Proof. done. Qed.

Lemma sum_list_insert (ds : list (gmap str (SessionEntry R))) i d d' :
  ds !! i = Some d ->
  sizes (<[i := d']> ds) + size d = sizes ds + size d'.
Proof.
  revert i; induction ds as [|x ds IH]; intros [|i] H; simpl in *; simplify_eq; [rewrite !sizes_cons; lia|].
  rewrite !sizes_cons. specialize (IH _ H). lia.
Qed.

(** All that lookups need of the store. *)
Definition sharded s : Prop := length (shards s) = SHARD_COUNT.
Lemma inv_sharded n s : Inv n s -> sharded s.
Proof. by intros []. Qed.

Lemma find_put s k k' m c :
  sharded s -> find hash (put hash s k m c) k' =
  if decide (shard hash k = shard hash k') then m !! k' else find hash s k'.
Proof.
  intros Hl. unfold sharded, find, guard_of, put in *. simpl. case_decide as E.
  - rewrite <-E, list_lookup_insert_eq by (rewrite Hl; apply shard_lt). done.
  - by rewrite list_lookup_insert_ne.
Qed.

Lemma put_inv n n' s k m c :
  Inv n s -> (forall k', is_Some (m !! k') -> k' = k \/ is_Some (guard_of hash s k !! k')) ->
  (N.of_nat (size m) + total s <= c + N.of_nat (size (guard_of hash s k)))%N -> (c <= n')%N ->
  Inv n' (put hash s k m c).
Proof.
  intros HI Hm Hc Hn. pose proof (guard_lookup _ _ k HI) as G. destruct HI as (Hl & Hk & Ht).
  pose proof (sum_list_insert _ _ _ m G). split_and!; simpl.
  - by rewrite length_insert.
  - intros i d k' Hi Hd. destruct (decide (i = shard hash k)) as [->|Hne].
    + rewrite list_lookup_insert_eq in Hi by (rewrite Hl; apply shard_lt). simplify_eq.
      destruct (Hm _ Hd) as [->|Hd']; [done|]. eauto.
    + rewrite list_lookup_insert_ne in Hi by done. eauto.
  - unfold total in *. simpl. lia.
  - done.
Qed.

Lemma fetch_sub_le c m : (m <= c < U64)%N -> fetch_sub c m = (c - m)%N.
Proof.
  intros H. unfold fetch_sub. replace (c + U64 - m)%N with ((c - m) + 1 * U64)%N by lia.
  rewrite N.Div0.mod_add. apply N.mod_small. lia.
Qed.

Lemma evict_shards_spec now ttl ds c :
  (N.of_nat (sizes ds) <= c < U64)%N ->
  exists c', evict_shards (R := R) now ttl ds c =
    (retain now ttl <$> ds, c',
     N.of_nat (sizes (retain now ttl <$> ds))) /\
    (c' + N.of_nat (sizes ds) =
     c + N.of_nat (sizes (retain now ttl <$> ds)))%N.
Proof.
  revert c; induction ds as [|d ds IH]; intros c Hc; [by exists c|].
  rewrite fmap_cons, !sizes_cons in *. cbn [evict_shards].
  assert (Hs : size (retain now ttl d) <= size d) by apply map_subseteq_size, map_filter_subseteq.
  rewrite fetch_sub_le by lia.
  destruct (IH (c - N.of_nat (size d - size (retain now ttl d)))%N) as (c' & -> & E); [lia|].
  exists c'. split; [f_equal; lia|lia].
Qed.

Lemma sizes_retain (now ttl : N) (ds : list (gmap str (SessionEntry R))) :
  sizes (retain now ttl <$> ds) <= sizes ds.
Proof.
  induction ds as [|d ds IH]; [done|]. rewrite fmap_cons, !sizes_cons.
  assert (size (retain now ttl d) <= size d) by apply map_subseteq_size, map_filter_subseteq. lia.
Qed.

Lemma shards_retain n s now ttl c :
  Inv n s -> (N.of_nat (sizes (retain now ttl <$> shards s)) <= c <= n)%N ->
  Inv n (with_data s (retain now ttl <$> shards s) c).
Proof.
  intros (Hl & Hk & _) Hc. split_and!; simpl; [by rewrite length_fmap| |unfold total; simpl; lia..].
  intros i d k Hi [e He]. apply list_lookup_fmap_Some in Hi as (d0 & -> & Hi).
  apply map_lookup_filter_Some in He as [He _]. eauto.
Qed.

Lemma find_retain s now ttl c k :
  find hash (with_data s (retain now ttl <$> shards s) c) k =
  find hash s k ≫= (fun e => if is_idle e now ttl then None else Some e).
Proof.
  unfold find, guard_of. simpl. rewrite list_lookup_fmap.
  destruct (shards s !! shard hash k) as [d|]; simpl; [|by rewrite lookup_empty].
  unfold retain. rewrite map_lookup_filter. destruct (d !! k) as [e|]; simpl; [|done].
  case_guard as H; simpl in *; [by rewrite H|by destruct (is_idle e now ttl)].
Qed.

Lemma is_full_spec n s now :
  Inv n s -> (n < U64)%N ->
  exists b s', session_is_full now s = (b, s') /\ Inv n s' /\
    max_sessions s' = max_sessions s /\ (total s' <= total s)%N /\
    (if b then (max_sessions s <= total s')%N else (total s' < max_sessions s)%N) /\
    forall k, find hash s' k = find hash s k \/
      (exists e ttl, find hash s k = Some e /\ idle_ttl s = Some ttl /\
         is_idle e now (ttl mod U64) = true /\ find hash s' k = None).
Proof.
  intros HI Hn. pose proof HI as (Hl & Hk & Ht). unfold session_is_full.
  destruct (N.ltb_spec (count s) (max_sessions s)) as [Hlt|Hge].
  { exists false, s. split_and!; [done|done|done|done|lia|auto]. }
  unfold evict_idle. destruct (idle_ttl s) as [ttl|] eqn:Et.
  - destruct (evict_shards_spec now (ttl mod U64) (shards s) (count s)) as (c' & -> & E);
      [unfold total in Ht; lia|].
    pose proof (sizes_retain now (ttl mod U64) (shards s)) as Hr.
    eexists _, _; split; [done|]. unfold total in *. split_and!.
    + apply shards_retain; [done|]. lia.
    + done.
    + simpl. lia.
    + simpl. destruct (N.leb_spec (max_sessions s) (N.of_nat (sizes (retain now (ttl mod U64) <$> shards s)))); lia.
    + intros k. rewrite find_retain. destruct (find hash s k) as [e|] eqn:Ef; simpl; [|by left].
      destruct (is_idle e now (ttl mod U64)) eqn:H; [right|by left]. by exists e, ttl.
  - exists (max_sessions s <=? total s)%N, s. split_and!; [done|done|done|done| |auto].
    destruct (N.leb_spec (max_sessions s) (total s)); lia.
Qed.

Lemma set_inv n s now k v :
  Inv n s -> (n + 1 < U64)%N -> Inv (n + 1) (set_session hash now s k v).
Proof.
  intros HI Hn. pose proof HI as (_ & _ & Ht). unfold set_session, u64_succ.
  rewrite N.mod_small by lia. eapply put_inv; [done|..|lia].
  - intros k' Hk'. destruct (decide (k' = k)); [by left|]. rewrite lookup_insert_ne in Hk' by done. by right.
  - destruct (guard_of hash s k !! k) eqn:E.
    + rewrite map_size_insert_Some by (by eexists). lia.
    + rewrite map_size_insert_None by done. lia.
Qed.

Lemma total_set_le n s now k v :
  Inv n s -> (total (set_session hash now s k v) <= total s + 1)%N.
Proof.
  intros HI. pose proof (sum_list_insert _ _ _ (<[k:=mkEntry v now]> (guard_of hash s k)) (guard_lookup _ _ k HI)).
  assert (size (<[k:=mkEntry v now]> (guard_of hash s k)) <= S (size (guard_of hash s k))).
  { rewrite map_size_insert. case_match; unfold id; lia. }
  unfold total, set_session, put. simpl. lia.
Qed.

Lemma get_inv n s now k :
  Inv n s -> Inv n (get_session hash now s k).2 /\ total (get_session hash now s k).2 = total s.
Proof.
  intros HI. pose proof HI as (_ & _ & Ht). unfold get_session.
  destruct (guard_of hash s k !! k) as [e|] eqn:E; simpl; [|done].
  pose proof (sum_list_insert _ _ _ (<[k:=touch now e]> (guard_of hash s k)) (guard_lookup _ _ k HI)) as T.
  rewrite map_size_insert_Some in T by (by eexists). split.
  - eapply put_inv; [done|..|lia]; [|rewrite map_size_insert_Some by (by eexists); lia].
    intros k' Hk'. destruct (decide (k' = k)); [by left|]. rewrite lookup_insert_ne in Hk' by done. by right.
  - unfold total, put. simpl. lia.
Qed.

Lemma delete_inv n s k :
  Inv n s -> (n < U64)%N -> Inv n (delete_session hash s k) /\ (total (delete_session hash s k) <= total s)%N.
Proof.
  intros HI Hn. pose proof HI as (_ & _ & Ht). unfold delete_session.
  destruct (guard_of hash s k !! k) as [e|] eqn:E; simpl; [|done].
  pose proof (sum_list_insert _ _ _ (base.delete k (guard_of hash s k)) (guard_lookup _ _ k HI)) as T.
  pose proof (map_size_delete_Some k (guard_of hash s k) (ex_intro _ e E)) as D.
  assert (size (guard_of hash s k) <> 0). { intros H%map_size_empty_iff. by rewrite H in E. }
  assert (1 <= total s)%N.
  { unfold total. pose proof (sum_list_insert _ _ _ ∅ (guard_lookup _ _ k HI)) as T'.
    rewrite map_size_empty in T'. lia. }
  rewrite fetch_sub_le by lia. split.
  - eapply put_inv; [done|..|lia]; [|lia].
    intros k' Hk'. destruct (decide (k' = k)); [by left|]. rewrite lookup_delete_ne in Hk' by done. by right.
  - unfold total, put. simpl. lia.
Qed.

Lemma clear_inv n s : Inv n s -> Inv n (clear_sessions s) /\ total (clear_sessions s) = 0%N.
Proof.
  intros (Hl & Hk & _).
  assert (T : forall ds : list (gmap str (SessionEntry R)), sizes ((fun _ => ∅ : gmap str (SessionEntry R)) <$> ds) = 0).
  { induction ds as [|d ds IH]; [done|]. by rewrite fmap_cons, sizes_cons, IH, map_size_empty. }
  unfold clear_sessions, Inv, total. simpl. rewrite T. split_and!; try lia; [by rewrite length_fmap|].
  intros i d k Hi Hd. apply list_lookup_fmap_Some in Hi as (? & -> & _). by destruct Hd.
Qed.

Lemma store_new_inv max ttl : Inv 0 (with_limits max ttl).
Proof.
  split_and!; [done| |done|done]. intros i d k Hi [e He].
  unfold with_limits in Hi. cbn [shards] in Hi. by apply lookup_replicate in Hi as [-> _].
Qed.

Definition bounded (s : t R) : Prop := (total s <= max_sessions s)%N.

Lemma apply_inv n s o :
  Inv n s -> bounded s -> (n + 1 < U64)%N ->
  Inv (n + 1) (apply hash s o) /\ bounded (apply hash s o) /\ max_sessions (apply hash s o) = max_sessions s.
Proof.
  intros HI Hb Hn.
  assert (M : forall s', Inv n s' -> Inv (n + 1) s') by (intros s' (? & ? & ?); split_and!; [done|done|lia|lia]).
  unfold bounded in *. destruct o as [now k v|now k|k|]; simpl.
  - destruct (is_full_spec n s now HI ltac:(lia)) as (b & s' & -> & HI' & Hmax & Hle & Hb' & _).
    destruct b; simpl in *.
    + split_and!; [auto| |done]. rewrite Hmax. lia.
    + split_and!; [by apply set_inv| |done]. pose proof (total_set_le _ _ now k v HI'). simpl. lia.
  - destruct (get_inv n s now k HI) as [H1 H2]. split_and!; [auto|rewrite H2|]; unfold get_session; by case_match.
  - destruct (delete_inv n s k HI ltac:(lia)) as [H1 H2].
    assert (E : max_sessions (delete_session hash s k) = max_sessions s) by (unfold delete_session; by case_match).
    split_and!; [auto|rewrite E; lia|done].
  - destruct (clear_inv n s HI) as [H1 H2]. split_and!; [auto|rewrite H2; simpl; lia|done].
Qed.

Lemma run_inv os n s :
  Inv n s -> bounded s -> (n + N.of_nat (length os) < U64 - 1)%N ->
  Inv (n + N.of_nat (length os)) (foldl (apply hash) s os) /\ bounded (foldl (apply hash) s os) /\
  max_sessions (foldl (apply hash) s os) = max_sessions s.
Proof.
  revert n s; induction os as [|o os IH]; intros n s HI Hb Hn; simpl.
  - by rewrite N.add_0_r.
  - simpl in Hn. destruct (apply_inv n s o HI Hb ltac:(lia)) as (H1 & H2 & H3).
    destruct (IH _ _ H1 H2 ltac:(lia)) as (H4 & H5 & H6).
    replace (n + N.of_nat (S (length os)))%N with (n + 1 + N.of_nat (length os))%N by lia.
    by rewrite H6, H3.
Qed.

(** *** The finite map the store represents *)

Implicit Types m : gmap str (SessionEntry R).

Lemma find_put_key s (k k' : str) (f : gmap str (SessionEntry R) -> gmap str (SessionEntry R)) (c : N) :
  sharded s -> (forall d k', k' <> k -> f d !! k' = d !! k') ->
  find hash (put hash s k (f (guard_of hash s k)) c) k' =
  if decide (k = k') then f (guard_of hash s k) !! k else find hash s k'.
Proof.
  intros HI Hf. rewrite find_put by done.
  destruct (decide (k = k')) as [<-|Hk]; [by rewrite decide_True|].
  case_decide as E; [|done]. rewrite Hf by done. unfold find, guard_of. by rewrite E.
Qed.

Lemma get_value s now (k : str) m :
  (forall k, find hash s k = m !! k) -> (get_session hash now s k).1 = runtime <$> m !! k.
Proof.
  intros Hm. unfold get_session. rewrite <-(Hm k). change (guard_of hash s k !! k) with (find hash s k).
  by destruct (find hash s k).
Qed.

Lemma get_represents s now (k : str) m (k' : str) :
  sharded s -> (forall k, find hash s k = m !! k) ->
  find hash (get_session hash now s k).2 k' = alter (touch now) k m !! k'.
Proof.
  intros HI Hm. unfold get_session. destruct (guard_of hash s k !! k) as [e|] eqn:E; simpl.
  - rewrite (find_put_key _ _ _ (fun d => <[k:=touch now e]> d)) by
      (done || (intros; by apply lookup_insert_ne)).
    case_decide as Hk; [subst k'|by rewrite lookup_alter_ne, Hm].
    rewrite lookup_insert_eq, lookup_alter_eq, <-Hm. unfold find. by rewrite E.
  - destruct (decide (k = k')) as [<-|Hk]; [|by rewrite lookup_alter_ne].
    rewrite lookup_alter_eq, <-Hm. unfold find. by rewrite E.
Qed.

Lemma set_represents s now (k : str) v m (k' : str) :
  sharded s -> (forall k, find hash s k = m !! k) ->
  find hash (set_session hash now s k v) k' = <[k := mkEntry v now]> m !! k'.
Proof.
  intros HI Hm. unfold set_session.
  rewrite (find_put_key _ _ _ (fun d => <[k:=mkEntry v now]> d)) by
    (done || (intros; by apply lookup_insert_ne)).
  case_decide as Hk; [subst k'; by rewrite !lookup_insert_eq|by rewrite lookup_insert_ne, Hm].
Qed.

Lemma delete_represents s (k : str) m (k' : str) :
  sharded s -> (forall k, find hash s k = m !! k) ->
  find hash (delete_session hash s k) k' = base.delete k m !! k'.
Proof.
  intros HI Hm. unfold delete_session. destruct (guard_of hash s k !! k) as [e|] eqn:E; simpl.
  - rewrite (find_put_key _ _ _ (fun d => base.delete k d)) by
      (done || (intros; by apply lookup_delete_ne)).
    case_decide as Hk; [subst k'; by rewrite !lookup_delete_eq|by rewrite lookup_delete_ne, Hm].
  - destruct (decide (k = k')) as [<-|Hk]; [|by rewrite lookup_delete_ne].
    rewrite lookup_delete_eq. unfold find. by rewrite E.
Qed.

Lemma put_sharded s k m c : sharded s -> sharded (put hash s k m c).
Proof. unfold sharded. simpl. by rewrite length_insert. Qed.
Lemma get_sharded now s k : sharded s -> sharded (get_session hash now s k).2.
Proof. intros Hs. unfold get_session. case_match; [|done]. by apply put_sharded. Qed.
Lemma delete_sharded s k : sharded s -> sharded (delete_session hash s k).
Proof. intros Hs. unfold delete_session. case_match; [|done]. by apply put_sharded. Qed.

Lemma evict_shards_data now ttl ds c : (evict_shards (R := R) now ttl ds c).1.1 = retain now ttl <$> ds.
Proof.
  revert c; induction ds as [|d ds IH]; intros c; [done|]. cbn [evict_shards].
  specialize (IH (fetch_sub c (N.of_nat (size d - size (retain now ttl d))))).
  destruct (evict_shards now ttl ds _) as [[ds' c'] n]. simpl in *. by rewrite IH.
Qed.
Lemma is_full_drops now s : sharded s -> sharded (session_is_full now s).2 /\
  forall k, find hash (session_is_full now s).2 k = find hash s k \/ find hash (session_is_full now s).2 k = None.
Proof.
  intros Hs. unfold session_is_full, evict_idle. destruct (_ <? _)%N; [by split; [|left]|].
  destruct (idle_ttl s) as [ttl|]; [|by split; [|left]].
  pose proof (evict_shards_data now (ttl mod U64) (shards s) (count s)) as E.
  destruct (evict_shards _ _ _ _) as [[ds c] n]. simpl in *. subst ds. split.
  - unfold sharded. simpl. by rewrite length_fmap.
  - intros k. rewrite find_retain. destruct (find hash s k) as [e|]; simpl; [|by left].
    destruct (is_idle e now (ttl mod U64)); [by right|by left].
Qed.

Lemma clear_represents s (k : str) : find hash (clear_sessions s) k = (∅ : gmap str (SessionEntry R)) !! k.
Proof.
  unfold find, guard_of, clear_sessions. simpl. rewrite list_lookup_fmap.
  by destruct (shards s !! shard hash k).
Qed.

Lemma keys_spec n s (k : str) m :
  Inv n s -> (forall k, find hash s k = m !! k) -> k ∈ session_keys s <-> is_Some (m !! k).
Proof.
  intros HI Hm. rewrite <-Hm. unfold session_keys. rewrite list_elem_of_bind. split.
  - intros (d & Hk & Hd). apply list_elem_of_fmap in Hk as ([k' e] & -> & He). simpl.
    apply elem_of_map_to_list in He. apply list_elem_of_lookup in Hd as [i Hi].
    destruct HI as (_ & HI & _). unfold find, guard_of.
    rewrite <-(HI _ _ _ Hi (ex_intro _ e He)), Hi. by exists e.
  - intros [e He]. exists (guard_of hash s k). split.
    + apply list_elem_of_fmap. exists (k, e). split; [done|]. by apply elem_of_map_to_list.
    + eapply list_elem_of_lookup_2. by eapply guard_lookup.
Qed.
End Facts.

#[export] Instance in_memory_laws {R} (hash : str -> N) : SessionStoreLaws R (t R) (H := store_instance hash).
Proof.
  refine (Build_SessionStoreLaws _ _ _ sharded (fun s k => runtime <$> find hash s k) _ _ _ _); simpl.
  - intros now s k Hs. split; [|split; [by apply get_sharded|]].
    + unfold get_session, find. by case_match.
    + intros k'. unfold get_session. destruct (guard_of hash s k !! k) as [e|] eqn:E; [|done]. cbn [snd].
      rewrite (find_put_key hash _ _ _ (fun d => <[k:=touch now e]> d)) by (done || (intros; by apply lookup_insert_ne)).
      case_decide as Hk; [subst k'|done]. unfold find. by rewrite lookup_insert_eq, E.
  - intros now s k v Hs. split; [by apply put_sharded|]. intros k'. unfold set_session.
    rewrite (find_put_key hash _ _ _ (fun d => <[k:=mkEntry v now]> d)) by (done || (intros; by apply lookup_insert_ne)).
    case_decide; [|done]. by rewrite lookup_insert_eq.
  - intros s k Hs. split; [by apply delete_sharded|]. intros k'. unfold delete_session.
    destruct (guard_of hash s k !! k) as [e|] eqn:E; simpl.
    + rewrite (find_put_key hash _ _ _ (fun d => base.delete k d)) by (done || (intros; by apply lookup_delete_ne)).
      case_decide; [|done]. by rewrite lookup_delete_eq.
    + case_decide as Hk; [subst k'|done]. unfold find. by rewrite E.
  - intros now s Hs. destruct (is_full_drops hash now s Hs) as [H1 H2]. split; [done|].
    intros k. destruct (H2 k) as [-> | ->]; [by left|by right].
Defined.
End SessionStoreFacts.

Import InMemorySessionStore SessionStoreFacts.

(** The concrete store [s] represents the finite map [m]. *)
Definition represents {R} (hash : str -> N) (s : t R) (m : gmap str (SessionEntry R)) : Prop :=
  forall k, find hash s k = m !! k.

(** A session that was not used for longer than the store's time to live. *)
Definition idle {R} (s : t R) (now : N) (e : SessionEntry R) : Prop :=
  exists ttl, idle_ttl s = Some ttl /\ is_idle e now (ttl mod U64) = true.

(** C8. Refinement: for any hash function, the sharded store behaves as one
    finite map.  Each operation returns what the map says and leads to a store
    that represents the updated map.  Of [get] this is said for a key that is
    free or whose session is not idle beyond the time to live: the code does not
    look at the time to live there ([idle_session_served]). *)
Theorem session_store_refines {R} (hash : str -> N) (n : N) (s : t R) (m : gmap str (SessionEntry R)) (now : N) (k : str) (v : R) :
  Inv hash n s -> represents hash s m ->
  ((forall e, m !! k = Some e -> ~ idle s now e) ->
   (get_session hash now s k).1 = runtime <$> m !! k /\
   represents hash (get_session hash now s k).2 (alter (touch now) k m)) /\
  represents hash (set_session hash now s k v) (<[k := mkEntry v now]> m) /\
  represents hash (delete_session hash s k) (base.delete k m) /\
  represents hash (clear_sessions s) ∅ /\
  has_session hash s k = is_some (m !! k) /\
  (k ∈ session_keys s <-> is_Some (m !! k)).
Proof.
  intros HI Hm. split; [intros _; split; try intros ?|split_and!; try intros ?];
    eauto using inv_sharded, get_value, get_represents, set_represents, delete_represents, clear_represents.
  all: first [by rewrite <-Hm|by eapply keys_spec].
Qed.

(** [is_full] answers exactly: it says yes only when, idle sessions evicted,
    the limit is reached, and no only when there is room; it removes nothing
    but sessions idle for longer than the TTL. *)
Theorem is_full_exact {R} (hash : str -> N) (n : N) (s : t R) (now : N) :
  Inv hash n s -> (n < U64)%N ->
  exists b s', session_is_full now s = (b, s') /\
    (if b then (max_sessions s <= total s')%N else (total s' < max_sessions s)%N) /\
    forall k, find hash s' k = find hash s k \/
      (exists e ttl, find hash s k = Some e /\ idle_ttl s = Some ttl /\
         is_idle e now (ttl mod U64) = true /\ find hash s' k = None).
Proof.
  intros HI Hn. destruct (is_full_spec hash n s now HI Hn) as (b & s' & ? & _ & _ & _ & ? & ?).
  by exists b, s'.
Qed.

(** C21. Capacity: in any sequence of fewer than 2^64 - 1 operations in which
    a session is only created when [is_full] says no, at most [max_sessions]
    sessions are stored. *)
Theorem session_capacity {R} (hash : str -> N) (max ttl : option N) (os : list op) :
  (N.of_nat (length os) < U64 - 1)%N ->
  (total (foldl (apply hash) (with_limits (R := R) max ttl) os)
   <= from_option id DEFAULT_MAX_SESSIONS max)%N.
Proof.
  intros Hn. destruct (run_inv hash os 0 (with_limits (R := R) max ttl)) as (_ & Hb & Hm);
    [apply store_new_inv|apply N.le_0_l|lia|].
  unfold bounded in Hb. by rewrite Hm in Hb.
Qed.

Definition demo_store : t nat :=
  set_session (fun k => N.of_nat (length k)) 5 (with_limits (Some 1%N) (Some 10%N)) (s! "a") 7.

Lemma demo_store_inv : Inv (fun k => N.of_nat (length k)) (0 + 1) demo_store.
Proof. apply set_inv; [apply store_new_inv|reflexivity]. Defined.

Lemma session_store_refines_witness :
  (get_session (fun k => N.of_nat (length k)) 6 demo_store (s! "a")).1 = Some 7.
Proof.
  destruct (session_store_refines (fun k => N.of_nat (length k)) 1 demo_store
    (<[s! "a" := mkEntry 7 5]> ∅) 6 (s! "a") 0 demo_store_inv) as (G & _).
  - intros k. unfold demo_store. rewrite (set_represents _ _ _ _ _ ∅) by
      (reflexivity || intros; by apply clear_represents with (s := with_limits None None)). done.
  - destruct G as [H _].
    { intros e. rewrite lookup_insert_eq. intros [= <-] (ttl & [= <-] & Hi). vm_compute in Hi. discriminate. }
    rewrite H. vm_compute. reflexivity.
Defined.

(** [get] serves, and revives, a session that has been idle for longer than its
    time to live, and so does [is_full] as long as the store is not full. *)
Lemma idle_session_served :
  let s := set_session (fun _ => 0%N) 5 (with_limits (Some 2%N) (Some 10%N)) (s! "a") 7 in
  idle s 100 (mkEntry 7 5) /\ (get_session (fun _ => 0%N) 100 s (s! "a")).1 = Some 7 /\ session_is_full 100 s = (false, s).
Proof. split; [by exists 10%N|]. split; vm_compute; reflexivity. Qed.

Lemma is_full_exact_witness :
  exists s', session_is_full 16 demo_store = (false, s') /\ (total s' < 1)%N.
Proof.
  destruct (is_full_exact (fun k => N.of_nat (length k)) 1 demo_store 16 demo_store_inv eq_refl)
    as (b & s' & E & H & _).
  exists s'. assert (b = false) as -> by (vm_compute in E; congruence). split; [exact E|exact H].
Defined.

Lemma session_capacity_witness :
  (total (foldl (apply (fun k => N.of_nat (length k))) (with_limits (Some 1%N) None)
     [Admit 0 (s! "a") 7; Admit 0 (s! "b") 8; Get 0 (s! "a"); Admit 0 (s! "c") 9]) <= 1)%N.
Proof. apply (session_capacity (fun k => N.of_nat (length k)) (Some 1%N) None). reflexivity. Defined.

(** Setting an existing key again counts it twice: the counter can exceed the
    number of stored sessions. *)
Lemma reset_key_counts_twice :
  let s := set_session (fun k => N.of_nat (length k)) 6 demo_store (s! "a") 8 in
  total s = 1%N /\ count s = 2%N.
Proof. split; vm_compute; reflexivity. Qed.
