(* ===== verification/IdGen.v ===== *)
(** * Identifier generators

    Models crates/rust-mcp-sdk/src/id_generator/fast_id_generator.rs,
    crates/rust-mcp-sdk/src/mcp_traits/request_id_gen.rs and, from
    crates/rust-mcp-extra/src/id_generator/, snow_flake_id_generator.rs,
    time_base_64_id_generator.rs, random_base_62_id_generator.rs and
    nano_id_generator.rs, and uuid_generator.rs of the first.

    Atomics are machine integers with wrap-around; a clock is the list of its
    successive readings.  The base64 engine is a parameter [encode]. *)
From Stdlib Require Import Sorting.Sorted.
From S2P Require Import Prelude.

(** [trait IdGenerator<T>]: [generate] on the generator's state. *)
Class IdGenerator (St : Type) := { generate : St -> str * St }.

(** [u64::to_le_bytes]: [n] bytes, the least significant first. *)
Fixpoint le_bytes (n : nat) (x : N) : bytes :=
  match n with
  | O => []
  | S n' => ascii_of_N (x mod 256) :: le_bytes n' (x / 256)
  end.
Definition to_le_bytes (x : N) : bytes := le_bytes 8 x.

Module FastIdGenerator.
Section Gen.
Context (encode : bytes -> str).

(** [struct FastIdGenerator] *)
Record t := mk { counter : N; (* AtomicU64 *) prefix : str }.
Definition new (p : option str) : t := mk 0 (from_option id [] p).

Definition encode_id (p : str) (id : N) : str :=
  let encoded := encode (to_le_bytes id) in
  if bool_decide (p = []) then encoded else p ++ encoded.

Definition generate_id (g : t) : str * t :=
  (encode_id (prefix g) (counter g), mk (u64_succ (counter g)) (prefix g)).

#[export] Instance generator : IdGenerator t := { generate := generate_id }.

(** The first [n] identifiers. *)
Fixpoint ids (n : nat) (g : t) : list str :=
  match n with
  | O => []
  | S n' => let '(i, g') := generate g in i :: ids n' g'
  end.
End Gen.
End FastIdGenerator.

(** The generators that draw their characters from a library. *)
Module NanoIdGenerator.
Section Gen.
(** [nanoid!(size)]: the identifier and the source of randomness after it. *)
Context {Rng : Type} (nanoid : nat -> Rng -> str * Rng).

(** [struct NanoIdGenerator] *)
Record t := mk { size : nat }.
Definition new (size : nat) : t := mk size.
Definition generate_id (g : t) (rng : Rng) : str * Rng := nanoid (size g) rng.
#[export] Instance generator : IdGenerator (t * Rng) :=
  { generate := fun '(g, rng) => let '(id, rng) := generate_id g rng in (id, (g, rng)) }.
End Gen.
End NanoIdGenerator.

Module RandomBase62Generator.
Section Gen.
(** [rand::rng().sample_iter(&Alphanumeric)]: an unbounded iterator of bytes,
    each the code of an ASCII letter or digit. *)
Context {Rng : Type} (sample : Rng -> N * Rng).

(** [struct RandomBase62Generator] *)
Record t := mk { size : nat }.
Definition new (size : nat) : t := mk size.
(** [.take(self.size).map(char::from).collect()] *)
Fixpoint take_sampled (n : nat) (rng : Rng) : str * Rng :=
  match n with
  | O => ([], rng)
  | S n =>
      let '(x, rng) := sample rng in
      let '(id, rng) := take_sampled n rng in
      (ascii_of_N x :: id, rng)
  end.
Definition generate_id (g : t) (rng : Rng) : str * Rng := take_sampled (size g) rng.
#[export] Instance generator : IdGenerator (t * Rng) :=
  { generate := fun '(g, rng) => let '(id, rng) := generate_id g rng in (id, (g, rng)) }.
End Gen.
End RandomBase62Generator.

Module UuidGenerator.
Section Gen.
(** [Uuid::new_v4()] and its [Display]. *)
Context {Rng Uuid : Type} (new_v4 : Rng -> Uuid * Rng) (to_string : Uuid -> str).
Definition generate_id (rng : Rng) : str * Rng := let '(u, rng) := new_v4 rng in (to_string u, rng).
#[export] Instance generator : IdGenerator Rng := { generate := generate_id }.
End Gen.
End UuidGenerator.

Module TimeBase64Generator.
Section Gen.
Context (encode : bytes -> str).

(** [struct TimeBase64Generator]; [now] is the millisecond reading as u64. *)
Record t := mk { prefix : str }.
Definition new (p : option str) : t := mk (from_option id [] p).

Definition generate_at (now : N) (g : t) : str :=
  let encoded := encode (to_le_bytes now) in
  if bool_decide (prefix g = []) then encoded else prefix g ++ encoded.
End Gen.
End TimeBase64Generator.

Module SnowflakeIdGenerator.

(** [struct SnowflakeIdGenerator] *)
Record t := mk {
  machine_id : N; (* u16 *)
  last_timestamp : N; (* AtomicU64 *)
  sequence : N; (* AtomicU64 *)
}.

(** [new]; [None] is the panic of its assertion. *)
Definition new (machine_id : N) : option t :=
  if (machine_id <? 1024)%N then Some (mk machine_id 0 0) else None.

(** [current_timestamp] from a reading of the system clock. *)
Definition current_timestamp (epoch now : N) : N := u64_sat_sub now epoch.

(** [while timestamp <= last_ts { timestamp = current_timestamp() }]: the
    timestamp that ends the loop and the readings left; [None] while every
    reading so far keeps it spinning. *)
Fixpoint wait_past (epoch last_ts timestamp : N) (clock : list N) : option (N * list N) :=
  if (timestamp <=? last_ts)%N then
    match clock with
    | [] => None
    | now :: clock' => wait_past epoch last_ts (current_timestamp epoch now) clock'
    end
  else Some (timestamp, clock).

(** The composed identifier: timestamp, machine, sequence. *)
Definition compose (timestamp machine_id sequence : N) : N :=
  N.lor (N.lor (N.shiftl (N.land timestamp 0x1FFFFFFFFFF) 22 mod U64)
               (N.shiftl (N.land machine_id 0x3FF) 12))
        (N.land sequence 0xFFF).

(** [next_id] up to the comparison: the clock and [last_timestamp] are read. *)
Definition read_phase (epoch now : N) (g : t) : N * N := (current_timestamp epoch now, last_timestamp g).

(** [next_id] after it, on the atomics as they are then. *)
Definition write_phase (epoch : N) (r : N * N) (clock : list N) (g : t) : option (N * t * list N) :=
  let '(timestamp, last_ts) := r in
  if (timestamp =? last_ts)%N then
    let seq := N.land (sequence g) 0xFFF in
    let g1 := mk (machine_id g) (last_timestamp g) (u64_succ (sequence g)) in
    if (seq =? 0)%N then
      '(timestamp, clock) ← wait_past epoch last_ts timestamp clock;
      Some (compose timestamp (machine_id g1) 0, mk (machine_id g1) timestamp 0, clock)
    else Some (compose timestamp (machine_id g1) seq, g1, clock)
  else Some (compose timestamp (machine_id g) 0, mk (machine_id g) timestamp 0, clock).

(** [next_id] on the remaining clock readings. *)
Definition next_id (epoch : N) (clock : list N) (g : t) : option (N * t * list N) :=
  match clock with
  | [] => None
  | now :: clock' => write_phase epoch (read_phase epoch now g) clock' g
  end.

(** Successive calls; [None] when the readings run out in the last one. *)
Fixpoint next_ids (n : nat) (epoch : N) (clock : list N) (g : t) : option (list N) :=
  match n with
  | O => Some []
  | S n' =>
      '(i, g', clock') ← next_id epoch clock g;
      ids ← next_ids n' epoch clock' g'; Some (i :: ids)
  end.

(** Fields of an identifier. *)
Definition id_timestamp (id : N) : N := N.shiftr id 22.
Definition id_machine (id : N) : N := N.land (N.shiftr id 12) 0x3FF.
End SnowflakeIdGenerator.

Module RequestIdGenNumeric.

(** [i64] wrap-around addition. *)
Definition i64_succ (x : Z) : Z := if (x =? I64_MAX)%Z then (- 2 ^ 63)%Z else (x + 1)%Z.

(** [struct RequestIdGenNumeric]; an identifier is [RequestId::Integer]. *)
Record t := mk { message_id_counter : Z; last_message_id : Z }.
Definition new (initial_id : option N) : t := mk (u64_as_i64 (from_option id 0%N initial_id)) (-1).

Definition next_request_id (g : t) : Z * t :=
  let id := message_id_counter g in (id, mk (i64_succ id) id).
Definition last_request_id (g : t) : option Z :=
  if (last_message_id g =? -1)%Z then None else Some (last_message_id g).
Definition reset_to (id : N) (g : t) : t := mk (u64_as_i64 id) (last_message_id g).

(** [request_id_for_message]; [None] is the panic of an assertion.  The kind
    of the message is what the schema's [McpMessage] trait answers. *)
Definition request_id_for_message (is_request is_notification : bool) (request_id : option Z) (g : t)
  : option (option Z * t) :=
  if is_request then
    match request_id with
    | None => let '(id, g') := next_request_id g in Some (Some id, g')
    | Some _ => None
    end
  else if negb is_notification then
    match request_id with Some _ => Some (request_id, g) | None => None end
  else Some (None, g).

Fixpoint request_ids (n : nat) (g : t) : list Z :=
  match n with
  | O => []
  | S n' => let '(i, g') := next_request_id g in i :: request_ids n' g'
  end.
End RequestIdGenNumeric.

(** ** Little-endian bytes are injective *)

Module IdFacts.

Lemma le_bytes_inj n x y :
  (x < 256 ^ N.of_nat n)%N -> (y < 256 ^ N.of_nat n)%N -> le_bytes n x = le_bytes n y -> x = y.
Proof.
  revert x y; induction n as [|n IH]; intros x y Hx Hy; simpl.
  { change (256 ^ N.of_nat 0)%N with 1%N in *. lia. }
  rewrite Nat2N.inj_succ, N.pow_succ_r' in Hx, Hy. intros [= Hc Hr].
  apply (f_equal N_of_ascii) in Hc.
  rewrite !N_ascii_embedding in Hc by (apply N.mod_upper_bound; done).
  apply IH in Hr; [|apply N.Div0.div_lt_upper_bound; done..].
  rewrite (N.div_mod x 256), (N.div_mod y 256) by done. by rewrite Hc, Hr.
Qed.

Lemma to_le_bytes_inj x y : (x < U64)%N -> (y < U64)%N -> to_le_bytes x = to_le_bytes y -> x = y.
Proof. apply (le_bytes_inj 8). Qed.

(** ** The counter *)

Section Fast.
Import FastIdGenerator.
Context (encode : bytes -> str) (Henc : forall a b, encode a = encode b -> a = b).

Lemma encode_id_inj p x y : (x < U64)%N -> (y < U64)%N -> encode_id encode p x = encode_id encode p y -> x = y.
Proof.
  intros Hx Hy. unfold encode_id. case_bool_decide; [|intros H'%app_inv_head; revert H'];
    intros E%Henc; by apply to_le_bytes_inj.
Qed.

Lemma ids_spec n g i :
  (counter g < U64)%N ->
  i ∈ ids encode n g <-> exists k, k < n /\ i = encode_id encode (prefix g) ((counter g + N.of_nat k) mod U64).
Proof.
  revert g; induction n as [|n IH]; intros g Hg; simpl; [split; [by intros ?%elem_of_nil|intros (? & ? & _); lia]|].
  rewrite elem_of_cons, IH by (simpl; apply N.mod_upper_bound; done). simpl. split.
  - intros [-> | (k & Hk & ->)].
    + exists 0. split; [lia|]. rewrite N.add_0_r, N.mod_small; done.
    + exists (S k). split; [lia|]. unfold u64_succ. rewrite N.Div0.add_mod_idemp_l.
      do 2 f_equal. lia.
  - intros ([|k] & Hk & ->).
    + left. rewrite N.add_0_r, N.mod_small; done.
    + right. exists k. split; [lia|]. unfold u64_succ. rewrite N.Div0.add_mod_idemp_l.
      do 2 f_equal. lia.
Qed.

Lemma mod_shift_ne a k : (a < U64)%N -> (0 < k < U64)%N -> ((a + k) mod U64 <> a)%N.
Proof.
  intros Ha Hk E. destruct (N.lt_ge_cases (a + k) U64) as [H|H].
  - rewrite N.mod_small in E by done. lia.
  - replace (a + k)%N with ((a + k - U64) + 1 * U64)%N in E by lia.
    rewrite N.Div0.mod_add, N.mod_small in E by lia. lia.
Qed.

Lemma ids_NoDup n g : (counter g < U64)%N -> (N.of_nat n <= U64)%N -> NoDup (ids encode n g).
Proof.
  revert g; induction n as [|n IH]; intros g Hg Hn; simpl; [constructor|].
  assert (Hs : (u64_succ (counter g) < U64)%N) by (apply N.mod_upper_bound; done).
  constructor; [|apply IH; [done|lia]].
  rewrite ids_spec by done. simpl. intros (k & Hk & E).
  apply encode_id_inj in E; [|done|apply N.mod_upper_bound; done].
  unfold u64_succ in E. rewrite N.Div0.add_mod_idemp_l in E.
  apply (mod_shift_ne (counter g) (1 + N.of_nat k)); [done|lia|]. by rewrite N.add_assoc.
Qed.
End Fast.

(** ** Composed identifiers *)

Lemma lor_low a b n : (b < 2 ^ n)%N -> N.lor (a * 2 ^ n) b = (a * 2 ^ n + b)%N.
Proof.
  intros Hb. assert (D : N.land (a * 2 ^ n) b = 0%N); [|by rewrite N.add_nocarry_lxor, N.lxor_lor].
  apply N.bits_inj. intros i. rewrite N.land_spec, N.bits_0. destruct (N.lt_ge_cases i n) as [H|H].
  - by rewrite N.mul_pow2_bits_low.
  - rewrite <-(N.mod_small b (2 ^ n)), N.mod_pow2_bits_high by done. apply andb_false_r.
Qed.

Section Snowflake.
Import SnowflakeIdGenerator.

Lemma compose_eq ts m : (ts < 2 ^ 41)%N -> (m < 1024)%N -> compose ts m 0 = (ts * 2 ^ 22 + m * 2 ^ 12)%N.
Proof.
  intros Ht Hm. unfold compose. rewrite N.land_0_l, N.lor_0_r.
  change 0x1FFFFFFFFFF%N with (N.ones 41). change 0x3FF%N with (N.ones 10).
  rewrite !N.land_ones, !N.mod_small with (b := (2 ^ 41)%N), N.shiftl_mul_pow2 by done.
  rewrite (N.mod_small m), (N.mod_small (ts * 2 ^ 22)), N.shiftl_mul_pow2;
    [apply lor_low| |done]; unfold U64; lia.
Qed.

Lemma compose_machine ts m : (ts < 2 ^ 41)%N -> (m < 1024)%N -> id_machine (compose ts m 0) = m.
Proof.
  intros Ht Hm. rewrite compose_eq by done. unfold id_machine.
  change 0x3FF%N with (N.ones 10). rewrite N.shiftr_div_pow2, N.land_ones.
  replace (ts * 2 ^ 22 + m * 2 ^ 12)%N with ((ts * 2 ^ 10 + m) * 2 ^ 12)%N by lia.
  rewrite N.div_mul by done. rewrite N.add_comm, N.Div0.mod_add. by apply N.mod_small.
Qed.

Lemma wait_past_spec epoch last_ts ts clock ts' clock' :
  wait_past epoch last_ts ts clock = Some (ts', clock') ->
  (last_ts < ts')%N /\ (ts' = ts /\ clock' = clock \/
    exists pre now, clock = pre ++ now :: clock' /\ ts' = current_timestamp epoch now).
Proof.
  revert ts; induction clock as [|now clock IH]; intros ts; simpl;
    destruct (N.leb_spec ts last_ts) as [H|H]; try done; [by intros [= <- <-]; auto| |by intros [= <- <-]; auto].
  intros [Hlt [[-> ->] | (pre & now' & -> & ->)]]%IH; (split; [done|right]).
  - by exists [], now.
  - by exists (now :: pre), now'.
Qed.

Definition Inv (m : N) (g : t) : Prop :=
  machine_id g = m /\ sequence g = 0%N.
Definition clock_ok (epoch lo : N) (clock : list N) : Prop :=
  ascending id clock /\
  Forall (fun r => lo <= current_timestamp epoch r < 2 ^ 41)%N clock.

Lemma snowflake_new_inv m : Inv m (mk m 0 0).
Proof. done. Qed.

Lemma clock_ok_app epoch lo pre now clock :
  clock_ok epoch lo (pre ++ now :: clock) ->
  (current_timestamp epoch now < 2 ^ 41)%N /\ clock_ok epoch (current_timestamp epoch now) clock.
Proof.
  intros [Ha [_ [Hn Hc]%Forall_cons]%Forall_app]. split; [lia|].
  induction pre as [|x pre IH]; [|by apply IH; destruct Ha].
  destruct Ha as [Hle Ha]. split; [done|]. rewrite Forall_forall in *. unfold id in Hle.
  intros r Hr. specialize (Hle _ Hr). specialize (Hc _ Hr). unfold current_timestamp, u64_sat_sub in *. lia.
Qed.

Lemma next_id_spec m epoch clock g i g' clock' :
  Inv m g -> clock_ok epoch (last_timestamp g) clock ->
  next_id epoch clock g = Some (i, g', clock') ->
  i = compose (last_timestamp g') m 0 /\ (last_timestamp g < last_timestamp g' < 2 ^ 41)%N /\
  Inv m g' /\ clock_ok epoch (last_timestamp g') clock'.
Proof.
  intros [Hm Hs] Hc. destruct clock as [|now clock]; [done|]. simpl.
  destruct (clock_ok_app _ _ [] _ _ Hc) as [Hn Hc']. destruct Hc as [_ [Hlo _]%Forall_cons].
  unfold read_phase, write_phase. rewrite Hs.
  destruct (N.eqb_spec (current_timestamp epoch now) (last_timestamp g)) as [E|E].
  - simpl. destruct (wait_past _ _ _ _) as [[ts c]|] eqn:W; simpl; [|done]. intros [= <- <- <-]. simpl.
    apply wait_past_spec in W as [Hlt [[-> ->] | (pre & now' & -> & ->)]]; [lia|].
    apply clock_ok_app in Hc' as [Hn' Hc']. unfold Inv. simpl. rewrite Hm. split_and!; try done; apply Hc'.
  - intros [= <- <- <-]. unfold Inv. simpl. rewrite Hm. split_and!; try done; [lia|apply Hc'..].
Qed.

Lemma next_ids_spec n m epoch clock g l :
  (m < 1024)%N -> Inv m g -> clock_ok epoch (last_timestamp g) clock ->
  next_ids n epoch clock g = Some l ->
  Forall (fun i => exists ts, (last_timestamp g < ts < 2 ^ 41)%N /\ i = compose ts m 0) l /\
  StronglySorted N.lt l.
Proof.
  intros Hm. revert clock g l; induction n as [|n IH]; intros clock g l HI Hc; simpl.
  { intros [= <-]. split; constructor. }
  destruct (next_id epoch clock g) as [[[i g'] clock']|] eqn:E; simpl; [|done].
  destruct (next_id_spec m _ _ _ _ _ _ HI Hc E) as (-> & Hlt & HI' & Hc').
  destruct (next_ids n epoch clock' g') as [l'|] eqn:El; simpl; [|done]. intros [= <-].
  destruct (IH _ _ _ HI' Hc' El) as [Hall Hs]. split.
  - constructor; [by eexists|]. eapply Forall_impl; [exact Hall|]. intros ? (ts & ? & ->).
    exists ts. split; [lia|done].
  - constructor; [done|]. eapply Forall_impl; [exact Hall|]. intros ? (ts & ? & ->).
    rewrite !compose_eq by lia. nia.
Qed.

Lemma next_ids_total n epoch clock g :
  n <= length clock -> Forall (fun r => last_timestamp g < current_timestamp epoch r)%N clock ->
  StronglySorted N.lt clock -> is_Some (next_ids n epoch clock g).
Proof.
  revert clock g; induction n as [|n IH]; intros clock g Hn Hc Hs; simpl; [by eexists|].
  destruct Hs as [|now clock Hs Hlt]; simpl in *; [lia|]. apply Forall_cons in Hc as [Hnow Hc].
  unfold read_phase, write_phase. rewrite (proj2 (N.eqb_neq _ _)) by lia. simpl.
  destruct (IH clock (mk (machine_id g) (current_timestamp epoch now) 0)) as [l ->]; [lia| |done|by eexists].
  simpl. rewrite Forall_forall in *. intros r Hr. specialize (Hlt _ Hr). specialize (Hc _ Hr).
  unfold current_timestamp, u64_sat_sub in *. lia.
Qed.
End Snowflake.

Section RequestIds.
Import RequestIdGenNumeric.

Lemma request_ids_spec n g :
  (message_id_counter g + Z.of_nat n <= I64_MAX)%Z ->
  request_ids n g = (fun k => (message_id_counter g + Z.of_nat k)%Z) <$> seq 0 n.
Proof.
  revert g; induction n as [|n IH]; intros g Hg; [done|].
  cbn [request_ids next_request_id seq fmap list_fmap]. f_equal; [lia|]. unfold i64_succ.
  rewrite (proj2 (Z.eqb_neq _ _)) by lia. rewrite IH by (simpl; lia). simpl.
  rewrite <-fmap_S_seq, <-list_fmap_compose. apply list_fmap_ext. intros _ k _. unfold compose. simpl. lia.
Qed.
End RequestIds.
End IdFacts.

Import IdFacts.

(** Up to 2^64 successive identifiers of one fast generator are pairwise
    distinct, and time-based identifiers of different milliseconds are, for any
    injective byte encoding. *)
Theorem fast_ids_distinct (encode : bytes -> str) (p : option str) (n : nat) (x y : N) :
  (forall a b, encode a = encode b -> a = b) -> (N.of_nat n <= U64)%N -> (x < U64)%N -> (y < U64)%N ->
  NoDup (FastIdGenerator.ids encode n (FastIdGenerator.new p)) /\
  (TimeBase64Generator.generate_at encode x (TimeBase64Generator.new p) =
   TimeBase64Generator.generate_at encode y (TimeBase64Generator.new p) -> x = y).
Proof.
  intros He Hn Hx Hy. split; [by apply ids_NoDup|].
  by apply (encode_id_inj encode He (TimeBase64Generator.prefix (TimeBase64Generator.new p))).
Qed.

Lemma fast_ids_distinct_witness :
  NoDup (FastIdGenerator.ids (fun b => b) 3 (FastIdGenerator.new (Some (s! "s_")))).
Proof.
  apply (fast_ids_distinct (fun b => b) (Some (s! "s_")) 3 0 1); [auto|vm_compute; discriminate|reflexivity|reflexivity].
Defined.

(** Snowflake identifiers of one generator used by one thread strictly
    increase, and all carry its machine id, while the clock does not go back
    and the timestamp fits 41 bits; with an advancing clock every call returns. *)
Theorem snowflake_increasing (n : nat) (m epoch : N) (g : SnowflakeIdGenerator.t) (clock : list N) :
  SnowflakeIdGenerator.new m = Some g -> clock_ok epoch 0 clock ->
  (forall l, SnowflakeIdGenerator.next_ids n epoch clock g = Some l ->
     StronglySorted N.lt l /\ Forall (fun i => SnowflakeIdGenerator.id_machine i = m) l) /\
  (n <= length clock -> StronglySorted N.lt (epoch :: clock) ->
     is_Some (SnowflakeIdGenerator.next_ids n epoch clock g)).
Proof.
  unfold SnowflakeIdGenerator.new. destruct (N.ltb_spec m 1024) as [Hm|]; [|done]. intros [= <-] Hc. split.
  - intros l Hl. destruct (next_ids_spec n m epoch clock _ l Hm (snowflake_new_inv m) Hc Hl) as [Hall Hs].
    split; [done|]. eapply Forall_impl; [exact Hall|]. intros ? (ts & ? & ->). apply compose_machine; [lia|done].
  - intros Hn [Hs Hlt]%StronglySorted_inv. apply next_ids_total; [done| |done].
    eapply Forall_impl; [exact Hlt|]. intros r Hr. unfold SnowflakeIdGenerator.current_timestamp, u64_sat_sub. simpl in *. lia.
Qed.

Lemma snowflake_increasing_witness :
  SnowflakeIdGenerator.next_ids 2 100 [100; 101; 101; 103]%N (SnowflakeIdGenerator.mk 5 0 0)
    = Some [4214784; 12603392]%N /\ StronglySorted N.lt [4214784; 12603392]%N.
Proof.
  split; [vm_compute; reflexivity|].
  eapply (proj1 (snowflake_increasing 2 5 100 (SnowflakeIdGenerator.mk 5 0 0) [100; 101; 101; 103]%N
    eq_refl ltac:(split; [repeat constructor; discriminate|repeat constructor; discriminate]))).
  vm_compute; reflexivity.
Defined.

(** The two loads and the two stores of [next_id] are separate atomic accesses:
    two threads that both read before either writes get the same identifier. *)
Lemma snowflake_threads_collide (epoch now : N) (g : SnowflakeIdGenerator.t) :
  SnowflakeIdGenerator.current_timestamp epoch now <> SnowflakeIdGenerator.last_timestamp g ->
  let r := SnowflakeIdGenerator.read_phase epoch now g in
  exists i g1 g2, SnowflakeIdGenerator.write_phase epoch r [] g = Some (i, g1, []) /\
    SnowflakeIdGenerator.write_phase epoch r [] g1 = Some (i, g2, []).
Proof.
  intros H. unfold SnowflakeIdGenerator.write_phase, SnowflakeIdGenerator.read_phase.
  rewrite (proj2 (N.eqb_neq _ _)) by done. by do 3 eexists.
Qed.

(** Outgoing requests are numbered consecutively from the initial id
    until the counter reaches [i64::MAX], the last number is remembered, and
    [request_id_for_message] numbers requests only: responses keep the id they
    answer, notifications have none, anything else panics. *)
Theorem request_ids_consecutive (n : nat) (g : RequestIdGenNumeric.t) :
  (0 <= RequestIdGenNumeric.message_id_counter g)%Z ->
  (RequestIdGenNumeric.message_id_counter g + Z.of_nat n <= I64_MAX)%Z ->
  RequestIdGenNumeric.request_ids n g = (fun k => (RequestIdGenNumeric.message_id_counter g + Z.of_nat k)%Z) <$> seq 0 n
  /\ RequestIdGenNumeric.last_request_id (RequestIdGenNumeric.next_request_id g).2
     = Some (RequestIdGenNumeric.next_request_id g).1
  /\ forall is_request is_notification request_id,
     RequestIdGenNumeric.request_id_for_message is_request is_notification request_id g =
     match is_request, is_notification, request_id with
     | true, _, None => Some (Some (RequestIdGenNumeric.message_id_counter g), (RequestIdGenNumeric.next_request_id g).2)
     | false, true, _ => Some (None, g)
     | false, false, Some i => Some (Some i, g)
     | _, _, _ => None
     end.
Proof.
  intros H0 Hn. split_and!; [by apply request_ids_spec| |by intros [] [] []].
  unfold RequestIdGenNumeric.last_request_id. simpl. by rewrite (proj2 (Z.eqb_neq _ _)) by lia.
Qed.

Lemma request_ids_consecutive_witness :
  RequestIdGenNumeric.request_ids 3 (RequestIdGenNumeric.new (Some 4%N)) = [4; 5; 6]%Z.
Proof.
  refine (eq_trans (proj1 (request_ids_consecutive 3 (RequestIdGenNumeric.new (Some 4%N)) _ _)) _);
  vm_compute; congruence.
Defined.

(** An alphanumeric identifier has the size asked for, whatever the source of
    randomness, and is made of letters and digits only: it can be sent as the
    value of a header.  Drawing again continues with the source where the last
    identifier left it. *)
Definition alphanumeric (c : ascii) : Prop := let n := N_of_ascii c in (48 <= n <= 57 \/ 65 <= n <= 90 \/ 97 <= n <= 122)%N.
Theorem base62_ids {Rng} (sample : Rng -> N * Rng) (g : RandomBase62Generator.t) (rng : Rng) :
  (forall rng, alphanumeric (ascii_of_N (sample rng).1)) ->
  let '(id, rng') := RandomBase62Generator.generate_id sample g rng in
  length id = RandomBase62Generator.size g /\ Forall alphanumeric id /\
  rng' = Nat.iter (RandomBase62Generator.size g) (fun r => (sample r).2) rng.
Proof.
  intros Hs. unfold RandomBase62Generator.generate_id. generalize (RandomBase62Generator.size g) as n. intros n. revert rng.
  induction n as [|n IH]; intros rng; [by split_and!|]. cbn [RandomBase62Generator.take_sampled].
  specialize (Hs rng) as Hx. destruct (sample rng) as [x rng1] eqn:E. specialize (IH rng1).
  destruct (RandomBase62Generator.take_sampled sample n rng1) as [id rng']. destruct IH as (<- & Hid & ->).
  split_and!; [done|by constructor|]. rewrite Nat.iter_succ_r, E. done.
Qed.
