(* ===== verification/TaskStore.v ===== *)
(** * The in-memory task store

    Models crates/rust-mcp-sdk/src/task_store/in_memory_task_store.rs.

    One state [t] holds the locked data (tasks per session, the ordered ids,
    the poll schedule), the oneshot channels handed to waiters, the spawned
    TTL timers, the broadcast events published so far and the polling task's
    own position in its loop.  Each operation is one critical section of the
    [RwLock]; [step] interleaves them in any order.  A clock reading, an ISO
    time stamp or a poll answer is an argument of the step that uses it.

    The status type, its [is_terminal], the requests, results and metadata come
    from the schema crate and are parameters. *)
From S2P Require Import Prelude RustStr IdGen.

Module InMemoryTaskStore.
Section Store.
Context {Req Res Meta Status : Type} `{EqDecision Status}.
Context (Working : Status) (is_terminal : Status -> bool) (encode : bytes -> str).

Abbreviation session := (option str).

(** The schema's [Task]. *)
Record Task := mkTask {
  task_id : str;
  created_at : str;
  status : Status;
  poll_interval : option Z; (* i64 *)
  ttl : option Z; (* i64 *)
  status_message : option str;
  last_updated_at : str;
}.

(** [struct TaskEntry]; the sender [result_tx] is the number of its channel. *)
Record TaskEntry := mkEntry {
  task : Task;
  request : Req;
  entry_result : option Res;
  expires_at : option Z;
  entry_meta : option Meta;
  result_tx : option nat;
}.

(** [TaskStatusNotificationParams] with the session it is published for. *)
Record Notification := mkNotification {
  n_task : Task;
  n_meta : option Meta;
  n_session : session;
}.

(** [CreateTaskOptions] *)
Record CreateTaskOptions := mkOptions {
  opt_ttl : option Z;
  opt_poll_interval : option Z;
  opt_meta : option Meta;
}.

(** A oneshot channel: still waiting, answered, or its sender dropped. *)
Inductive channel := Waiting | Sent (r : Status * option Res) | Dropped.

(** [ScheduledPoll], ordered by time, id and session. *)
Definition ScheduledPoll : Type := N * str * session.
Definition poll_time (p : ScheduledPoll) : N := p.1.1.
Definition option_str_cmp (a b : option str) : comparison :=
  match a, b with
  | None, None => Eq | None, Some _ => Lt | Some _, None => Gt
  | Some x, Some y => str_cmp x y
  end.
Definition poll_le (a b : ScheduledPoll) : bool :=
  let '(t1, i1, s1) := a in
  let '(t2, i2, s2) := b in
  match N.compare t1 t2 with
  | Lt => true | Gt => false
  | Eq => match str_cmp i1 i2 with
          | Lt => true | Gt => false
          | Eq => match option_str_cmp s1 s2 with Gt => false | _ => true end
          end
  end.

(** The [BinaryHeap] of [Reverse] entries, as the list in pop order. *)
Fixpoint heap_push (x : ScheduledPoll) (h : list ScheduledPoll) : list ScheduledPoll :=
  match h with
  | [] => [x]
  | y :: r => if poll_le x y then x :: h else y :: heap_push x r
  end.

(** The store with [InMemoryTaskStoreInner] and the tasks it spawned. *)
Record t := mk {
  tasks : gmap session (gmap str TaskEntry);
  ordered_task_ids : gmap session (list str);
  poll_schedule : option (list ScheduledPoll);
  id_gen : FastIdGenerator.t;
  page_size : nat;
  default_poll_interval : N; (* milliseconds of the Duration *)
  broadcast : list Notification; (* newest last *)
  polling : bool; (* polling_task_handle is set *)
  channels : list channel;
  timers : list (str * session); (* sleeping TTL tasks *)
  in_flight : list (str * session); (* the rest of the loop over tasks_to_poll *)
  to_reschedule : list (str * session * Z);
}.

Definition with_options (page_size : nat) (default_poll_interval : N) : t :=
  mk ∅ ∅ (Some []) (FastIdGenerator.new (Some (s! "tsk"))) page_size default_poll_interval
     [] false [] [] [] [].
Definition new (page_size : option nat) : t := with_options (from_option id 50 page_size) 1250.

Definition set_tasks (s : t) (m : gmap session (gmap str TaskEntry)) : t :=
  mk m (ordered_task_ids s) (poll_schedule s) (id_gen s) (page_size s) (default_poll_interval s)
     (broadcast s) (polling s) (channels s) (timers s) (in_flight s) (to_reschedule s).
Definition set_channels (s : t) (c : list channel) : t :=
  mk (tasks s) (ordered_task_ids s) (poll_schedule s) (id_gen s) (page_size s) (default_poll_interval s)
     (broadcast s) (polling s) c (timers s) (in_flight s) (to_reschedule s).
Definition set_schedule (s : t) (h : option (list ScheduledPoll)) : t :=
  mk (tasks s) (ordered_task_ids s) h (id_gen s) (page_size s) (default_poll_interval s)
     (broadcast s) (polling s) (channels s) (timers s) (in_flight s) (to_reschedule s).
Definition set_poller (s : t) (fl : list (str * session)) (rs : list (str * session * Z)) : t :=
  mk (tasks s) (ordered_task_ids s) (poll_schedule s) (id_gen s) (page_size s) (default_poll_interval s)
     (broadcast s) (polling s) (channels s) (timers s) fl rs.
Definition set_polling (s : t) (b : bool) : t :=
  mk (tasks s) (ordered_task_ids s) (poll_schedule s) (id_gen s) (page_size s) (default_poll_interval s)
     (broadcast s) b (channels s) (timers s) (in_flight s) (to_reschedule s).
Definition publish (s : t) (n : Notification) : t :=
  mk (tasks s) (ordered_task_ids s) (poll_schedule s) (id_gen s) (page_size s) (default_poll_interval s)
     (broadcast s ++ [n]) (polling s) (channels s) (timers s) (in_flight s) (to_reschedule s).

(** [tasks.get(session).and_then(|m| m.get(id))], and replacing that entry. *)
Definition find_entry (s : t) (id : str) (se : session) : option TaskEntry := tasks s !! se ≫= (.!! id).
Definition put_entry (s : t) (id : str) (se : session) (e : TaskEntry) : t :=
  set_tasks s (<[se := <[id := e]> (from_option (fun m => m) ∅ (tasks s !! se))]> (tasks s)).

Definition set_timers (s : t) (l : list (str * session)) : t :=
  mk (tasks s) (ordered_task_ids s) (poll_schedule s) (id_gen s) (page_size s) (default_poll_interval s)
     (broadcast s) (polling s) (channels s) l (in_flight s) (to_reschedule s).

(** Dropping the sender of a channel, and of a removed entry. *)
Definition drop_sender (c : nat) (ch : list channel) : list channel :=
  match ch !! c with Some Waiting => <[c := Dropped]> ch | _ => ch end.
Definition drop_entry (e : option TaskEntry) (ch : list channel) : list channel :=
  match e ≫= result_tx with Some c => drop_sender c ch | None => ch end.
(** [result_tx.send(r)] *)
Definition send_result (c : nat) (r : Status * option Res) (ch : list channel) : list channel :=
  match ch !! c with Some Waiting => <[c := Sent r]> ch | _ => ch end.

(** *** [InMemoryTaskStoreInner] *)

(** [Instant + Duration::from_millis(interval as u64)]. *)
Definition next_poll (now : N) (interval : Z) : N := (now + i64_as_u64 interval)%N.

Definition re_schedule (now : N) (s : t) : t :=
  match poll_schedule s with
  | None => s
  | Some h =>
      let push h '(id, se, interval) := heap_push (next_poll now interval, id, se) h in
      set_poller (set_schedule s (Some (foldl push h (to_reschedule s)))) (in_flight s) []
  end.

Definition remove_task (id : str) (se : session) (s : t) : option TaskEntry * t :=
  match tasks s !! se with
  | Some m => (m !! id, set_tasks s (<[se := delete id m]> (tasks s)))
  | None => (None, s)
  end.

Definition next_sleep_duration (now : N) (s : t) : N :=
  match poll_schedule s with
  | Some (entry :: _) => (poll_time entry - now)%N
  | _ => 1250
  end.

(** The entries that are due, in pop order, and the heap left. *)
Fixpoint pop_due (now : N) (h : list ScheduledPoll) : list (str * session) * list ScheduledPoll :=
  match h with
  | [] => ([], [])
  | (next_poll, id, se) :: r =>
      if (next_poll <=? now)%N then let '(ids, h') := pop_due now r in ((id, se) :: ids, h')
      else ([], h)
  end.
Definition tasks_to_poll (now : N) (s : t) : list (str * session) * t :=
  match poll_schedule s with
  | None => ([], s)
  | Some h => let '(ids, h') := pop_due now h in (ids, set_schedule s (Some h'))
  end.

Definition set_result_tx (e : TaskEntry) (c : option nat) : TaskEntry :=
  mkEntry (task e) (request e) (entry_result e) (expires_at e) (entry_meta e) c.

Definition subscribe_to_task (id : str) (se : session) (s : t) : option nat * t :=
  match find_entry s id se with
  | None => (None, s)
  | Some entry =>
      let c := length (channels s) in
      (Some c, set_channels (put_entry s id se (set_result_tx entry (Some c)))
                 (drop_entry (Some entry) (channels s) ++ [Waiting]))
  end.

(** *** The [TaskStore] methods *)

Definition default_interval (s : t) : Z := u64_as_i64 (default_poll_interval s mod U64).

Definition notify_status_change (s : t) (e : TaskEntry) (se : session) : t :=
  publish s (mkNotification (task e) (entry_meta e) se).

(** [unix_in ttl] is the Unix time [ttl] milliseconds ahead. *)
Definition create_task (now : N) (iso : str) (unix_in : Z -> Z) (params : CreateTaskOptions)
  (req : Req) (se : session) (s : t) : Task * t :=
  let '(id, gen) := FastIdGenerator.generate_id encode (id_gen s) in
  let tk := mkTask id iso Working (opt_poll_interval params) (opt_ttl params) None iso in
  let entry := mkEntry tk req None (unix_in <$> opt_ttl params) (opt_meta params) None in
  let schedule :=
    (fun h => heap_push (next_poll now (from_option (fun i => i) (default_interval s) (opt_poll_interval params)), id, se) h)
      <$> poll_schedule s in
  let session_tasks := from_option (fun m => m) ∅ (tasks s !! se) in
  let ordered := from_option (fun l => l) [] (ordered_task_ids s !! se) in
  (tk,
   mk (<[se := <[id := entry]> session_tasks]> (tasks s))
      (<[se := id :: ordered]> (ordered_task_ids s))
      schedule gen (page_size s) (default_poll_interval s) (broadcast s) (polling s)
      (drop_entry (session_tasks !! id) (channels s))
      (match opt_ttl params with Some _ => timers s ++ [(id, se)] | None => timers s end)
      (in_flight s) (to_reschedule s)).

(** [ordered_ids.remove(ordered_ids.position(id))] *)
Fixpoint remove_first (id : str) (l : list str) : list str :=
  match l with
  | [] => []
  | x :: r => if decide (x = id) then r else x :: remove_first id r
  end.

(** A TTL timer fires: the cleanup task spawned by [create_task]. *)
Definition expire (id : str) (se : session) (s : t) : t :=
  let '(removed, s1) := remove_task id se s in
  let ordered := alter (remove_first id) se (ordered_task_ids s) in
  mk (filter (fun kv => kv.2 <> ∅) (tasks s1))
     (filter (fun kv => kv.2 <> []) ordered)
     (poll_schedule s) (id_gen s) (page_size s) (default_poll_interval s) (broadcast s) (polling s)
     (drop_entry removed (channels s)) (timers s) (in_flight s) (to_reschedule s).

Definition get_task (id : str) (se : session) (s : t) : option Task := task <$> find_entry s id se.
Definition get_task_result (id : str) (se : session) (s : t) : option Res :=
  find_entry s id se ≫= entry_result.

Definition with_status (tk : Task) (st : Status) (msg : option str) (iso : str) : Task :=
  mkTask (task_id tk) (created_at tk) st (poll_interval tk) (ttl tk) msg iso.

Definition store_task_result (id : str) (st : Status) (result : Res) (se : session) (iso : str) (s : t) : t :=
  match find_entry s id se with
  | None => s
  | Some e =>
      let status_has_changed := negb (bool_decide (status (task e) = st)) in
      let e' := mkEntry (with_status (task e) st None iso) (request e) (Some result)
                  (expires_at e) (entry_meta e) (result_tx e) in
      let s' := put_entry s id se e' in
      if status_has_changed then notify_status_change s' e' se else s'
  end.

Definition update_task_status (id : str) (st : Status) (msg : option str) (se : session) (iso : str) (s : t) : t :=
  match find_entry s id se with
  | None => s
  | Some e =>
      let s1 := if negb (bool_decide (status (task e) = st)) then notify_status_change s e se else s in
      put_entry s1 id se (mkEntry (with_status (task e) st msg iso) (request e) (entry_result e)
                            (expires_at e) (entry_meta e) (result_tx e))
  end.

(** [wait_for_task_result]: the channel to wait on, and what the wait yields. *)
Definition wait_for_task_result (id : str) (se : session) (s : t) : result nat str * t :=
  match subscribe_to_task id se s with
  | (Some c, s') => (Ok c, s')
  | (None, s') => (Err (s! "task does not exists!"), s')
  end.
Definition receive (c : nat) (s : t) : option (result (Status * option Res) str) :=
  match channels s !! c with
  | Some (Sent r) => Some (Ok r)
  | Some Dropped => Some (Err (s! "channel closed"))
  | _ => None
  end.

(** [ListTasksResult] *)
Record Page := mkPage { page_tasks : list Task; next_cursor : option str }.

Definition list_tasks (cursor : option str) (se : session) (s : t) : Page :=
  match ordered_task_ids s !! se with
  | None => mkPage [] None
  | Some ordered_ids =>
      let start_idx := from_option (fun i => i) 0
        (cursor ≫= (fun c => position (fun id => bool_decide (id = c)) ordered_ids)) in
      let end_idx := Nat.min (start_idx + page_size s) (length ordered_ids) in
      let page_ids := take (end_idx - start_idx) (drop start_idx ordered_ids) in
      mkPage (omap (fun id => get_task id se s) page_ids)
             (if (end_idx <? length ordered_ids)%nat then ordered_ids !! end_idx else None)
  end.

(** *** The polling task: [start_task_polling] *)

Definition start_task_polling (s : t) : result unit str * t :=
  if polling s then (Err (s! "Task polling is already running."), s)
  else (Ok tt, set_polling s true).

(** The answer of [get_task_callback]. *)
Inductive answer := Status_ok (st : Status) (interval : option Z) | Status_error.

(** One round of [for (task_id, session_id) in tasks_to_poll]. *)
Definition handle_answer (a : answer) (id : str) (se : session) (s : t) : t :=
  match a with
  | Status_ok st interval =>
      if is_terminal st then
        let '(entry, s1) := remove_task id se s in
        match entry ≫= (fun e => (fun c => (c, entry_result e)) <$> result_tx e) with
        | Some (c, r) => set_channels s1 (send_result c (st, r) (channels s1))
        | None => s1
        end
      else set_poller s (in_flight s)
             (to_reschedule s ++ [(id, se, from_option (fun i => i) (default_interval s) interval)])
  | Status_error =>
      match find_entry s id se with
      | Some e => set_poller s (in_flight s)
          (to_reschedule s ++ [(id, se, from_option (fun i => i) (default_interval s) (poll_interval (task e)))])
      | None => s
      end
  end.

(** *** Interleavings *)

Inductive step : t -> t -> Prop :=
| StepCreate now iso unix_in params req se s :
    step s (create_task now iso unix_in params req se s).2
| StepExpire s id se l r :
    timers s = l ++ (id, se) :: r ->
    step s (set_timers (expire id se s) (l ++ r))
| StepResult id st res se iso s : step s (store_task_result id st res se iso s)
| StepUpdate id st msg se iso s : step s (update_task_status id st msg se iso s)
| StepWait id se s : step s (wait_for_task_result id se s).2
| StepStart s : step s (start_task_polling s).2
| StepPoll now s ids s' :
    polling s = true -> in_flight s = [] -> to_reschedule s = [] ->
    tasks_to_poll now s = (ids, s') ->
    step s (set_poller s' ids [])
| StepAnswer a s id se r :
    in_flight s = (id, se) :: r ->
    step s (handle_answer a id se (set_poller s r (to_reschedule s)))
| StepReschedule now s :
    polling s = true -> in_flight s = [] -> to_reschedule s <> [] ->
    step s (re_schedule now s).

(** ** What holds in every reachable state *)

(** The polls that are scheduled, being made, or about to be scheduled again. *)
Definition pending (s : t) : list (str * session) :=
  ((fun p : ScheduledPoll => (p.1.2, p.2)) <$> from_option (fun h => h) [] (poll_schedule s))
  ++ in_flight s ++ (fst <$> to_reschedule s).

Definition ordered (s : t) (se : session) : list str := from_option (fun l => l) [] (ordered_task_ids s !! se).

(** After [n] steps: every stored task is still being polled; every waiter's
    channel belongs to a stored task; the ordered ids list every stored task,
    without repetition, and were generated before. *)
Record Inv (n : nat) (s : t) : Prop := {
  inv_scheduled : is_Some (poll_schedule s);
  inv_polled id se e : find_entry s id se = Some e -> (id, se) ∈ pending s;
  inv_waiting c : channels s !! c = Some Waiting ->
    exists id se e, find_entry s id se = Some e /\ result_tx e = Some c;
  inv_listed id se e : find_entry s id se = Some e -> id ∈ ordered s se /\ task_id (task e) = id;
  inv_nodup se : NoDup (ordered s se);
  inv_fresh se id : id ∈ ordered s se ->
    exists k, (k < FastIdGenerator.counter (id_gen s))%N /\
      id = FastIdGenerator.encode_id encode (s! "tsk") k;
  inv_gen : FastIdGenerator.prefix (id_gen s) = s! "tsk" /\
    (FastIdGenerator.counter (id_gen s) <= N.of_nat n)%N;
}.
End Store.
Arguments t : clear implicits.
End InMemoryTaskStore.

Module TaskStoreFacts.
Import InMemoryTaskStore.
Section Facts.
Context {Req Res Meta Status : Type} `{EqDecision Status}.
Context (Working : Status) (is_terminal : Status -> bool) (encode : bytes -> str).
Context (Henc : forall a b, encode a = encode b -> a = b).
Implicit Types (s : t Req Res Meta Status) (id : str) (se : option str) (n : nat).
#[local] Arguments find_entry : simpl never.
#[local] Abbreviation Inv := (@Inv Req Res Meta Status encode).

(** *** Entries *)

Lemma find_set_tasks s id se id' se' (m : gmap str (@TaskEntry Req Res Meta Status)) :
  find_entry (set_tasks s (<[se := m]> (tasks s))) id' se' =
  if decide (se = se') then m !! id' else find_entry s id' se'.
Proof.
  unfold find_entry. simpl. case_decide as E; [subst; by rewrite lookup_insert_eq|by rewrite lookup_insert_ne].
Qed.

Lemma find_task_put s id se e id' se' :
  find_entry (put_entry s id se e) id' se' =
  if decide ((id, se) = (id', se')) then Some e else find_entry s id' se'.
Proof.
  unfold put_entry. rewrite (find_set_tasks s id). repeat case_decide; simplify_eq.
  - by rewrite lookup_insert_eq.
  - rewrite lookup_insert_ne by congruence. unfold find_entry. by destruct (tasks s !! se').
  - done.
Qed.

Lemma find_remove s id se id' se' :
  (remove_task id se s).1 = find_entry s id se /\
  find_entry (remove_task id se s).2 id' se' =
  if decide ((id, se) = (id', se')) then None else find_entry s id' se'.
Proof.
  unfold remove_task, find_entry at 1. destruct (tasks s !! se) as [m|] eqn:E; simpl.
  - split; [done|]. rewrite (find_set_tasks s id). repeat case_decide; simplify_eq.
    + by rewrite lookup_delete_eq.
    + rewrite lookup_delete_ne by congruence. unfold find_entry. by rewrite E.
    + done.
  - split; [done|]. case_decide; simplify_eq; [|done]. unfold find_entry. by rewrite E.
Qed.

(** *** Channels *)

Lemma drop_sender_waiting (ch : list (@channel Res Status)) c c' :
  drop_sender c ch !! c' = Some Waiting -> ch !! c' = Some Waiting /\ c' <> c.
Proof.
  unfold drop_sender. intros Hw. destruct (decide (c' = c)) as [->|Hne].
  - destruct (ch !! c) as [[| |]|] eqn:E; try congruence.
    rewrite list_lookup_insert_eq in Hw by (by eapply lookup_lt_Some). done.
  - split; [|done]. destruct (ch !! c) as [[| |]|]; try done. by rewrite list_lookup_insert_ne in Hw.
Qed.

Lemma send_result_waiting (ch : list (@channel Res Status)) r c c' :
  send_result c r ch !! c' = Some Waiting -> ch !! c' = Some Waiting /\ c' <> c.
Proof.
  unfold send_result. intros Hw. destruct (decide (c' = c)) as [->|Hne].
  - destruct (ch !! c) as [[| |]|] eqn:E; try congruence.
    rewrite list_lookup_insert_eq in Hw by (by eapply lookup_lt_Some). done.
  - split; [|done]. destruct (ch !! c) as [[| |]|]; try done. by rewrite list_lookup_insert_ne in Hw.
Qed.

Lemma drop_entry_waiting (e : option (@TaskEntry Req Res Meta Status)) ch c' :
  drop_entry e ch !! c' = Some Waiting ->
  ch !! c' = Some Waiting /\ forall x, e = Some x -> result_tx x <> Some c'.
Proof.
  unfold drop_entry. destruct e as [x|]; simpl; [|by intros; split; [|done]].
  destruct (result_tx x) as [c|] eqn:E.
  - intros [? ?]%drop_sender_waiting. split; [done|]. intros y [= <-]. rewrite E. congruence.
  - intros Hw. split; [done|]. intros y [= <-]. by rewrite E.
Qed.

(** *** The poll schedule *)

Lemma heap_push_elem x h p : p ∈ heap_push x h <-> p = x \/ p ∈ h.
Proof.
  induction h as [|y h IH]; simpl; [by rewrite list_elem_of_singleton, elem_of_nil; tauto|].
  case_match; rewrite !elem_of_cons, ?IH; tauto.
Qed.

Lemma heap_push_key x h k :
  k ∈ (fun p : ScheduledPoll => (p.1.2, p.2)) <$> heap_push x h <->
  k = (x.1.2, x.2) \/ k ∈ (fun p : ScheduledPoll => (p.1.2, p.2)) <$> h.
Proof.
  rewrite !list_elem_of_fmap. split.
  - intros (p & -> & [->|Hp]%heap_push_elem); eauto.
  - intros [->|(p & -> & Hp)]; eexists; (split; [done|]); apply heap_push_elem; eauto.
Qed.

Lemma pop_due_split now h ids h' :
  pop_due now h = (ids, h') ->
  exists d, h = d ++ h' /\ ids = (fun p : ScheduledPoll => (p.1.2, p.2)) <$> d /\
            Forall (fun p => poll_time p <= now)%N d.
Proof.
  revert ids h'; induction h as [|[[tm i] se] h IH]; intros ids h'; simpl.
  - intros [= <- <-]. by exists [].
  - destruct (N.leb_spec tm now).
    + destruct (pop_due now h) as [ids0 h0] eqn:E. intros [= <- <-].
      destruct (IH _ _ eq_refl) as (d & -> & -> & Hd). exists ((tm, i, se) :: d).
      split_and!; [done|done|by constructor].
    + intros [= <- <-]. by exists [].
Qed.

(** *** Preservation *)

(** An operation that keeps the ids and the ordered lists. *)
Lemma Inv_keep n s s' :
  Inv n s -> is_Some (poll_schedule s') -> id_gen s' = id_gen s ->
  ordered_task_ids s' = ordered_task_ids s ->
  (forall id se e', find_entry s' id se = Some e' ->
     (exists e, find_entry s id se = Some e /\ task_id (task e') = task_id (task e)) /\
     ((id, se) ∈ pending s -> (id, se) ∈ pending s')) ->
  (forall c, channels s' !! c = Some Waiting ->
     exists id se e, find_entry s' id se = Some e /\ result_tx e = Some c) ->
  Inv (S n) s'.
Proof.
  intros [H1 H2 H3 H4 H5 H6 H7] Hp Hg Ho Hf Hc.
  assert (E : forall se, ordered s' se = ordered s se) by (intros; unfold ordered; by rewrite Ho).
  split; try done.
  - intros id se e' He'. destruct (Hf _ _ _ He') as ((e & He & _) & Hpend). eauto.
  - intros id se e' He'. destruct (Hf _ _ _ He') as ((e & He & Hid) & _).
    rewrite E, Hid. eauto.
  - intros se. by rewrite E.
  - intros se id. rewrite E, Hg. eauto.
  - rewrite Hg. split; [apply H7|]. destruct H7. lia.
Qed.

Lemma task_put_inv n s id se e e' :
  Inv n s -> find_entry s id se = Some e -> task_id (task e') = task_id (task e) ->
  result_tx e' = result_tx e -> Inv (S n) (put_entry s id se e').
Proof.
  intros HI He Hid Htx. eapply Inv_keep; [done|apply HI|done..| |].
  - intros id0 se0 e0. rewrite find_task_put. case_decide; simplify_eq; [|eauto]. intros [= <-]. eauto.
  - simpl. intros c Hw. destruct (inv_waiting _ _ _ HI c Hw) as (id0 & se0 & e0 & Hf & Hx).
    exists id0, se0. rewrite find_task_put. case_decide; simplify_eq; [|eauto]. exists e'. by rewrite Htx.
Qed.

Lemma publish_inv n s x : Inv n s -> Inv n (publish s x).
Proof. by intros []. Qed.

Lemma store_task_result_inv n s id st res se iso :
  Inv n s -> Inv (S n) (store_task_result id st res se iso s).
Proof.
  intros HI. unfold store_task_result. destruct (find_entry s id se) as [e|] eqn:He.
  - case_match; [apply publish_inv|]; by eapply task_put_inv.
  - eapply Inv_keep; try done; [apply HI|eauto|apply HI].
Qed.

Lemma update_task_status_inv n s id st msg se iso :
  Inv n s -> Inv (S n) (update_task_status id st msg se iso s).
Proof.
  intros HI. unfold update_task_status. destruct (find_entry s id se) as [e|] eqn:He.
  - case_match; (eapply task_put_inv; [|done..]); [by apply publish_inv|done].
  - eapply Inv_keep; try done; [apply HI|eauto|apply HI].
Qed.

Lemma wait_inv n s id se : Inv n s -> Inv (S n) (wait_for_task_result id se s).2.
Proof.
  intros HI. unfold wait_for_task_result, subscribe_to_task.
  destruct (find_entry s id se) as [e|] eqn:He; simpl.
  2:{ eapply Inv_keep; try done; [apply HI|eauto|apply HI]. }
  assert (F : forall id0 se0, find_entry (set_channels (put_entry s id se (set_result_tx e (Some (length (channels s)))))
     (drop_entry (Some e) (channels s) ++ [Waiting])) id0 se0 =
     if decide ((id, se) = (id0, se0)) then Some (set_result_tx e (Some (length (channels s)))) else find_entry s id0 se0)
    by (intros; apply find_task_put).
  eapply Inv_keep; [done|apply HI|done..| |].
  - intros id0 se0 e0. rewrite F. case_decide; simplify_eq; [|eauto]. intros [= <-]. eauto.
  - simpl. intros c Hw. apply lookup_app_Some in Hw as [Hw|[Hl Hw]].
    + apply drop_entry_waiting in Hw as [Hw Hne].
      destruct (inv_waiting _ _ _ HI c Hw) as (id0 & se0 & e0 & Hf & Hx). exists id0, se0, e0.
      rewrite F, decide_False; [done|]. intros [= <- <-]. rewrite He in Hf. injection Hf as <-. by apply (Hne e).
    + exists id, se, (set_result_tx e (Some (length (channels s)))). rewrite F, decide_True by done. split; [done|].
      assert (L : length (drop_entry (Some e) (channels s)) = length (channels s)).
      { unfold drop_entry, drop_sender. simpl. destruct (result_tx e) as [c0|]; [|done].
        destruct (channels s !! c0) as [[| |]|]; try done. by rewrite length_insert. }
      rewrite L in *. simpl. apply list_lookup_singleton_Some in Hw as [Hw _]. f_equal. lia.
Qed.

Lemma elem_pending s id se :
  (id, se) ∈ pending s <->
  (id, se) ∈ (fun p : ScheduledPoll => (p.1.2, p.2)) <$> from_option (fun h => h) [] (poll_schedule s) \/
  (id, se) ∈ in_flight s \/ (id, se) ∈ fst <$> to_reschedule s.
Proof. unfold pending. by rewrite !elem_of_app. Qed.

Lemma poll_inv n s now ids s' :
  Inv n s -> in_flight s = [] -> to_reschedule s = [] -> tasks_to_poll now s = (ids, s') ->
  Inv (S n) (set_poller s' ids []).
Proof.
  intros HI Hf Hr. unfold tasks_to_poll. destruct (inv_scheduled _ _ _ HI) as [h Hh]. rewrite Hh.
  destruct (pop_due now h) as [ids0 h'] eqn:E. intros [= <- <-].
  destruct (pop_due_split _ _ _ _ E) as (d & -> & -> & _).
  eapply Inv_keep; [done|by eexists|done..| |exact (inv_waiting _ _ _ HI)].
  intros id se e' He'. split; [by exists e'|]. rewrite !elem_pending, Hh, Hf, Hr. simpl.
  rewrite fmap_app, elem_of_app, !elem_of_nil. tauto.
Qed.

Lemma reschedule_elem now (rs : list (str * option str * Z)) h id se :
  (id, se) ∈ (fun p : ScheduledPoll => (p.1.2, p.2)) <$>
     foldl (fun h '(id, se, iv) => heap_push (next_poll now iv, id, se) h) h rs <->
  (id, se) ∈ (fun p : ScheduledPoll => (p.1.2, p.2)) <$> h \/ (id, se) ∈ fst <$> rs.
Proof.
  revert h; induction rs as [|[[i e] iv] rs IH]; intros h; simpl; [by rewrite elem_of_nil; tauto|].
  rewrite IH, elem_of_cons, heap_push_key. simpl. tauto.
Qed.

Lemma reschedule_inv n s now : Inv n s -> Inv (S n) (re_schedule now s).
Proof.
  intros HI. unfold re_schedule. destruct (inv_scheduled _ _ _ HI) as [h Hh]. rewrite Hh.
  eapply Inv_keep; [done|by eexists|done..| |exact (inv_waiting _ _ _ HI)].
  intros id se e' He'. split; [by exists e'|]. rewrite !elem_pending, Hh. simpl.
  rewrite reschedule_elem. tauto.
Qed.

Lemma answer_inv n s a id se r :
  Inv n s -> in_flight s = (id, se) :: r ->
  Inv (S n) (handle_answer is_terminal a id se (set_poller s r (to_reschedule s))).
Proof.
  intros HI Hf. set (s0 := set_poller s r (to_reschedule s)).
  assert (F0 : forall i e, find_entry s0 i e = find_entry s i e) by done.
  assert (P : forall id0 se0, (id0, se0) <> (id, se) -> (id0, se0) ∈ pending s -> (id0, se0) ∈ pending s0).
  { intros id0 se0 Hne. rewrite !elem_pending, Hf. simpl. rewrite elem_of_cons. intros [?|[[?|?]|?]]; auto; congruence. }
  assert (A : forall iv, Inv (S n) (set_poller s0 (in_flight s0) (to_reschedule s0 ++ [(id, se, iv)]))).
  { intros iv. eapply Inv_keep; [done|apply HI|done..| |exact (inv_waiting _ _ _ HI)].
    intros id0 se0 e' He'. split; [by exists e'|].
    rewrite !elem_pending, Hf. simpl. rewrite fmap_app, elem_of_app, elem_of_cons.
    change (fst <$> [(id, se, iv)]) with [(id, se)]. rewrite list_elem_of_singleton. tauto. }
  unfold handle_answer. destruct a as [st iv|]; [destruct (is_terminal st); [|apply A]|].
  - pose proof (find_remove s0 id se) as R. destruct (remove_task id se s0) as [entry s1] eqn:E1. simpl in R.
    assert (K : poll_schedule s1 = poll_schedule s0 /\ id_gen s1 = id_gen s0 /\
                ordered_task_ids s1 = ordered_task_ids s0 /\ channels s1 = channels s0 /\ pending s1 = pending s0).
    { unfold remove_task in E1. by destruct (tasks s0 !! se); injection E1 as <- <-. }
    destruct K as (K1 & K2 & K3 & K4 & K5).
    assert (C : forall ch, (forall c, ch !! c = Some Waiting -> channels s !! c = Some Waiting /\
        forall x, entry = Some x -> result_tx x <> Some c) -> Inv (S n) (set_channels s1 ch)).
    { intros ch Hch. eapply Inv_keep; [done|simpl; rewrite K1; apply HI|done|done| |].
      - intros id0 se0 e'. change (find_entry (set_channels s1 ch) id0 se0) with (find_entry s1 id0 se0).
        change (pending (set_channels s1 ch)) with (pending s1).
        rewrite (proj2 (R id0 se0)), K5. case_decide; [done|]. intros He'. split; [by exists e'|].
        apply P. congruence.
      - simpl. intros c Hw. destruct (Hch c Hw) as [Hw0 Hne].
        destruct (inv_waiting _ _ _ HI c Hw0) as (id0 & se0 & e0 & Hf0 & Hx). exists id0, se0, e0.
        change (find_entry (set_channels s1 ch) id0 se0) with (find_entry s1 id0 se0).
        rewrite (proj2 (R id0 se0)). case_decide as D; [|done]. injection D as <- <-.
        rewrite (proj1 (R id se)) in Hne. by destruct (Hne _ Hf0). }
    destruct (entry ≫= _) as [[c r0]|] eqn:Ec.
    + apply C. intros c' Hw. apply send_result_waiting in Hw as [Hw Hne]. rewrite K4 in Hw.
      split; [done|]. intros x ->. simpl in Ec. destruct (result_tx x); simpl in Ec; congruence.
    + replace s1 with (set_channels s1 (channels s1)) by by destruct s1.
      apply C. rewrite K4. intros c Hw. split; [done|]. intros x ->. simpl in Ec.
      destruct (result_tx x); simpl in Ec; congruence.
  - rewrite F0. destruct (find_entry s id se) as [e|] eqn:He; [apply A|].
    eapply Inv_keep; [done|apply HI|done..| |exact (inv_waiting _ _ _ HI)].
    intros id0 se0 e' He'. split; [by exists e'|]. apply P. intros [= -> ->]. by rewrite F0, He in He'.
Qed.

Lemma polling_start_inv n s : Inv n s -> Inv (S n) (start_task_polling s).2.
Proof.
  intros HI. unfold start_task_polling.
  destruct (polling s); simpl; (eapply Inv_keep; [done|apply HI|done..| |exact (inv_waiting _ _ _ HI)]);
    intros ? ? e' He'; (split; [by exists e'|done]).
Qed.

Lemma find_create s now iso f params req se id0 se0 :
  let id := FastIdGenerator.encode_id encode (FastIdGenerator.prefix (id_gen s)) (FastIdGenerator.counter (id_gen s)) in
  exists e, task_id (task e) = id /\
  find_entry (create_task Working encode now iso f params req se s).2 id0 se0 =
  if decide ((id, se) = (id0, se0)) then Some e else find_entry s id0 se0.
Proof.
  intros id. eexists (mkEntry (mkTask id iso Working _ _ _ _) _ _ _ _ _). split; [done|].
  unfold create_task, find_entry. simpl. fold id. destruct (decide (se = se0)) as [<-|Hne].
  - rewrite lookup_insert_eq. simpl. case_decide; simplify_eq; [by rewrite lookup_insert_eq|].
    rewrite lookup_insert_ne by congruence. by destruct (tasks s !! se).
  - rewrite lookup_insert_ne by done. by rewrite decide_False by congruence.
Qed.

Lemma ordered_create s now iso f params req se se0 :
  ordered (create_task Working encode now iso f params req se s).2 se0 =
  if decide (se = se0)
  then FastIdGenerator.encode_id encode (FastIdGenerator.prefix (id_gen s)) (FastIdGenerator.counter (id_gen s)) :: ordered s se0
  else ordered s se0.
Proof.
  unfold ordered. simpl. case_decide; [subst; by rewrite lookup_insert_eq|by rewrite lookup_insert_ne].
Qed.

Lemma create_inv n s now iso f params req se :
  Inv n s -> (N.of_nat n < U64 - 1)%N -> Inv (S n) (create_task Working encode now iso f params req se s).2.
Proof.
  intros HI Hn. destruct (inv_gen _ _ _ HI) as [Hp Hc]. destruct (inv_scheduled _ _ _ HI) as [h Hh].
  set (s' := (create_task Working encode now iso f params req se s).2).
  set (id := FastIdGenerator.encode_id encode (s! "tsk") (FastIdGenerator.counter (id_gen s))).
  assert (Hid : FastIdGenerator.encode_id encode (FastIdGenerator.prefix (id_gen s)) (FastIdGenerator.counter (id_gen s)) = id)
    by (by rewrite Hp).
  assert (F : forall id0 se0, exists e, task_id (task e) = id /\
     find_entry s' id0 se0 = if decide ((id, se) = (id0, se0)) then Some e else find_entry s id0 se0).
  { intros. destruct (find_create s now iso f params req se id0 se0) as (e & He & Hf). rewrite Hid in *. eauto. }
  assert (O : forall se0, ordered s' se0 = if decide (se = se0) then id :: ordered s se0 else ordered s se0)
    by (intros; unfold s'; by rewrite ordered_create, Hid).
  assert (G : FastIdGenerator.counter (id_gen s') = (FastIdGenerator.counter (id_gen s) + 1)%N).
  { unfold s'. simpl. unfold u64_succ. apply N.mod_small. lia. }
  assert (Fresh : forall se0, id ∉ ordered s se0).
  { intros se0 Hin. destruct (inv_fresh _ _ _ HI _ _ Hin) as (k & Hk & E).
    apply (IdFacts.encode_id_inj encode Henc) in E; lia. }
  split.
  - unfold s'. simpl. rewrite Hh. by eexists.
  - intros id0 se0 e He. destruct (F id0 se0) as (e0 & _ & Hf). rewrite He in Hf.
    unfold s'. rewrite elem_pending. simpl. rewrite Hh. simpl. rewrite heap_push_key, Hid. simpl.
    case_decide as D; [by left; left|]. symmetry in Hf.
    apply (inv_polled _ _ _ HI), elem_pending in Hf. rewrite Hh in Hf. simpl in Hf. tauto.
  - intros c Hw. unfold s' in Hw. simpl in Hw. apply drop_entry_waiting in Hw as [Hw Hne].
    destruct (inv_waiting _ _ _ HI c Hw) as (id0 & se0 & e0 & Hf0 & Hx). exists id0, se0, e0.
    destruct (F id0 se0) as (e & _ & Hf). rewrite Hf, decide_False; [done|]. intros [= <- <-].
    apply (Hne e0); [|done]. unfold find_entry in Hf0. rewrite Hid. by destruct (tasks s !! se).
  - intros id0 se0 e He. destruct (F id0 se0) as (e0 & Hid0 & Hf). rewrite He in Hf. rewrite O.
    case_decide as D; [injection D as <- <-; injection Hf as ->; rewrite decide_True by done; split; [left|done]|].
    symmetry in Hf. apply (inv_listed _ _ _ HI) in Hf as [Hin Ht]. split; [|done]. case_decide; [by right|done].
  - intros se0. rewrite O. case_decide; [constructor; [apply Fresh|]|]; apply HI.
  - intros se0 id0. rewrite O, G. case_decide; [rewrite elem_of_cons; intros [->|Hin]|intros Hin].
    + eexists; split; [|done]. lia.
    + destruct (inv_fresh _ _ _ HI _ _ Hin) as (k & Hk & ->). exists k. split; [lia|done].
    + destruct (inv_fresh _ _ _ HI _ _ Hin) as (k & Hk & ->). exists k. split; [lia|done].
  - rewrite G. split; [done|lia].
Qed.

Lemma elem_remove_first id (l : list str) x : x ∈ remove_first id l -> x ∈ l.
Proof.
  induction l as [|y l IH]; simpl; [done|]. case_decide; rewrite elem_of_cons; [auto|].
  rewrite elem_of_cons. naive_solver.
Qed.
Lemma elem_remove_first_ne id (l : list str) x : x <> id -> x ∈ l -> x ∈ remove_first id l.
Proof.
  intros Hne. induction l as [|y l IH]; simpl; [done|]. rewrite elem_of_cons.
  case_decide; [intros [->|?]; [done|done]|]. rewrite elem_of_cons. naive_solver.
Qed.
Lemma NoDup_remove_first id (l : list str) : NoDup l -> NoDup (remove_first id l).
Proof.
  induction 1 as [|y l Hy Hl IH]; simpl; [constructor|]. case_decide; [done|].
  constructor; [|done]. by intros ?%elem_remove_first.
Qed.

Lemma find_expire s id se id0 se0 :
  find_entry (expire id se s) id0 se0 = if decide ((id, se) = (id0, se0)) then None else find_entry s id0 se0.
Proof.
  unfold expire. destruct (find_remove s id se id0 se0) as [_ <-].
  destruct (remove_task id se s) as [e s1]. unfold find_entry. simpl.
  rewrite map_lookup_filter. destruct (tasks s1 !! se0) as [m|]; simpl; [|done].
  case_guard as Hg; simpl; [done|]. simpl in Hg. destruct (decide (m = ∅)) as [->|]; [|done].
  by rewrite lookup_empty.
Qed.

Lemma ordered_expire s id se se0 :
  ordered (expire id se s) se0 = if decide (se = se0) then remove_first id (ordered s se0) else ordered s se0.
Proof.
  unfold ordered, expire. destruct (remove_task id se s). simpl. rewrite map_lookup_filter.
  case_decide; [subst; rewrite lookup_alter_eq|rewrite lookup_alter_ne by done];
    destruct (ordered_task_ids s !! se0) as [l|]; simpl; try done;
    case_guard as Hg; simpl in *; done.
Qed.

Lemma expire_inv n s id se l r :
  Inv n s -> timers s = l ++ (id, se) :: r -> Inv (S n) (set_timers (expire id se s) (l ++ r)).
Proof.
  intros HI _. pose proof (find_remove s id se) as R.
  assert (K : poll_schedule (expire id se s) = poll_schedule s /\ id_gen (expire id se s) = id_gen s /\
      channels (expire id se s) = drop_entry (remove_task id se s).1 (channels s) /\
      pending (expire id se s) = pending s)
    by (unfold expire; by destruct (remove_task id se s)).
  destruct K as (K1 & K2 & K3 & K4).
  assert (F : forall i e, find_entry (set_timers (expire id se s) (l ++ r)) i e =
     if decide ((id, se) = (i, e)) then None else find_entry s i e) by (intros; apply find_expire).
  assert (O : forall e, ordered (set_timers (expire id se s) (l ++ r)) e =
     if decide (se = e) then remove_first id (ordered s e) else ordered s e) by (intros; apply ordered_expire).
  split; change (poll_schedule (set_timers ?x _)) with (poll_schedule x);
    change (pending (set_timers ?x _)) with (pending x); change (channels (set_timers ?x _)) with (channels x);
    change (id_gen (set_timers ?x _)) with (id_gen x).
  - rewrite K1. apply HI.
  - intros i e x. rewrite F, K4. case_decide; [done|]. apply HI.
  - intros c. rewrite K3, (proj1 (R id se)). intros [Hw Hne]%drop_entry_waiting.
    destruct (inv_waiting _ _ _ HI c Hw) as (i & e & x & Hf & Hx). exists i, e, x.
    rewrite F, decide_False; [done|]. intros [= <- <-]. by apply (Hne x).
  - intros i e x. rewrite F, O. case_decide as D; [done|]. intros Hf.
    apply (inv_listed _ _ _ HI) in Hf as [Hin Ht]. split; [|done]. case_decide; [|done].
    apply elem_remove_first_ne; [congruence|done].
  - intros e. rewrite O. case_decide; [apply NoDup_remove_first|]; apply HI.
  - intros e i. rewrite O, K2. case_decide; [intros ?%elem_remove_first|intros ?]; eapply inv_fresh; eauto.
  - rewrite K2. split; [apply HI|]. destruct (inv_gen _ _ _ HI). lia.
Qed.

Lemma tasks_step_inv n s s' :
  (N.of_nat n < U64 - 1)%N -> Inv n s -> step Working is_terminal encode s s' -> Inv (S n) s'.
Proof.
  intros Hn HI Hs. destruct Hs.
  - by apply create_inv.
  - by eapply expire_inv.
  - by apply store_task_result_inv.
  - by apply update_task_status_inv.
  - by apply wait_inv.
  - by apply polling_start_inv.
  - by eapply poll_inv.
  - by apply answer_inv.
  - by apply reschedule_inv.
Qed.

Lemma tasks_new_inv ps d : Inv 0 (with_options ps d).
Proof.
  split; simpl; [by eexists|..].
  - intros id se e. unfold find_entry. simpl. by rewrite lookup_empty.
  - done.
  - intros id se e. unfold find_entry. simpl. by rewrite lookup_empty.
  - intros se. unfold ordered. simpl. rewrite lookup_empty. constructor.
  - intros se id. unfold ordered. simpl. rewrite lookup_empty. by intros ?%elem_of_nil.
  - split; [done|lia].
Qed.

Lemma tasks_reachable_inv n ps d s :
  (N.of_nat n < U64)%N -> nsteps (step Working is_terminal encode) n (with_options ps d) s -> Inv n s.
Proof.
  intros Hn Hs. apply (nsteps_invariant _ Inv _ _ _) in Hs; [done| |apply tasks_new_inv].
  intros k a b Hk Ha Hab. eapply tasks_step_inv; [lia|done|done].
Qed.

(** *** Pagination *)

(** A client that follows the cursors. *)
Fixpoint all_pages (fuel : nat) (cursor : option str) se s : option (list (@Task Status)) :=
  match fuel with
  | O => None
  | S f =>
      let p := list_tasks cursor se s in
      match next_cursor p with
      | None => Some (page_tasks p)
      | Some c => (app (page_tasks p)) <$> all_pages f (Some c) se s
      end
  end.

Lemma position_NoDup (l : list str) k c :
  NoDup l -> l !! k = Some c -> position (fun id => bool_decide (id = c)) l = Some k.
Proof.
  intros Hl; revert k; induction Hl as [|x l Hx Hl IH]; intros k; [done|]. destruct k as [|k]; simpl.
  - intros [= ->]. by rewrite bool_decide_eq_true_2.
  - intros Hk. rewrite bool_decide_eq_false_2.
    + by rewrite (IH _ Hk).
    + intros ->. by apply Hx, list_elem_of_lookup_2 with k.
Qed.

Lemma all_pages_from s se l k cursor fuel :
  ordered_task_ids s !! se = Some l -> NoDup l -> 0 < page_size s ->
  from_option (fun i => i) 0 (cursor ≫= (fun c => position (fun id => bool_decide (id = c)) l)) = k ->
  k <= length l -> length l - k < fuel ->
  all_pages fuel cursor se s = Some (omap (fun id => get_task id se s) (drop k l)).
Proof.
  intros Hl Hnd Hps. revert k cursor; induction fuel as [|f IH]; intros k cursor Hk Hkl Hf; [lia|].
  cbn [all_pages]. unfold list_tasks. rewrite Hl, Hk. simpl.
  destruct (Nat.ltb_spec (Nat.min (k + page_size s) (length l)) (length l)) as [Hlt|Hge].
  - rewrite Nat.min_l in * by lia. destruct (lookup_lt_is_Some_2 l (k + page_size s)) as [c Hc]; [lia|].
    rewrite Hc. rewrite (IH (k + page_size s)); [|simpl; by rewrite (position_NoDup _ _ _ Hnd Hc)|lia|lia].
    simpl. f_equal. rewrite <-omap_app. f_equal.
    replace (k + page_size s - k) with (page_size s) by lia.
    rewrite <-drop_drop. apply take_drop.
  - f_equal. f_equal. rewrite Nat.min_r by lia. apply take_ge. rewrite length_drop. lia.
Qed.

Lemma NoDup_omap_ids n s se l :
  Inv n s -> NoDup l -> NoDup (task_id <$> omap (fun id => get_task id se s) l).
Proof.
  intros HI. induction 1 as [|id l Hid Hl IH]; simpl; [constructor|].
  destruct (get_task id se s) as [tk|] eqn:Et; [|done]. simpl. constructor; [|done].
  intros (tk' & Hid' & Hin)%list_elem_of_fmap. apply list_elem_of_omap in Hin as (id' & Hid'' & Hg).
  unfold get_task in *. apply fmap_Some in Et as (e & He & ->). apply fmap_Some in Hg as (e' & He' & ->).
  apply (inv_listed _ _ _ HI) in He as [_ He]. apply (inv_listed _ _ _ HI) in He' as [_ He']. congruence.
Qed.

Lemma all_pages_total n s se :
  Inv n s -> 0 < page_size s ->
  exists l, all_pages (S (length (ordered s se))) None se s = Some l /\
    NoDup (task_id <$> l) /\ forall tk, tk ∈ l <-> exists id, get_task id se s = Some tk.
Proof.
  intros HI Hps. exists (omap (fun id => get_task id se s) (ordered s se)). split_and!.
  - unfold ordered. destruct (ordered_task_ids s !! se) as [l|] eqn:El.
    + pose proof (inv_nodup _ _ _ HI se) as Hnd. unfold ordered in Hnd. rewrite El in Hnd. cbn [from_option] in *.
      apply (all_pages_from s se l 0 None); [done|done|done|done|lia|lia].
    + cbn [all_pages]. unfold list_tasks. by rewrite El.
  - eapply NoDup_omap_ids; [done|apply HI].
  - intros tk. rewrite list_elem_of_omap. split; [naive_solver|]. intros (id & Hid). exists id. split; [|done].
    unfold get_task in Hid. apply fmap_Some in Hid as (e & He & _). by apply (inv_listed _ _ _ HI) in He as [? _].
Qed.

(** *** Results and notifications *)

Lemma get_task_put s id se e id' se' :
  get_task id' se' (put_entry s id se e) =
  if decide ((id, se) = (id', se')) then Some (task e) else get_task id' se' s.
Proof. unfold get_task. rewrite find_task_put. by case_decide. Qed.
End Facts.
End TaskStoreFacts.

Import InMemoryTaskStore TaskStoreFacts.

Section Claims.
Context {Req Res Meta Status : Type} `{EqDecision Status}.
Context (Working : Status) (is_terminal : Status -> bool) (encode : bytes -> str).
Implicit Types s : InMemoryTaskStore.t Req Res Meta Status.

(** C17. In every interleaving of fewer than 2^64 operations, no stored task
    escapes the poller (it is scheduled, being polled or about to be scheduled
    again) and no waiter is lost (a channel still waiting belongs to a stored
    task: once the task is gone its waiter has an answer or an error). *)
Theorem tasks_always_polled (n : nat) (ps : nat) (d : N) s :
  (forall a b, encode a = encode b -> a = b) -> (N.of_nat n < U64)%N ->
  nsteps (step Working is_terminal encode) n (with_options ps d) s ->
  (forall id se tk, get_task id se s = Some tk -> (id, se) ∈ pending s) /\
  (forall c, c < length (channels s) -> receive c s = None ->
     exists id se e, find_entry s id se = Some e /\ result_tx e = Some c).
Proof.
  intros He Hn Hs. pose proof (tasks_reachable_inv Working is_terminal encode He n ps d s Hn Hs) as HI. split.
  - intros id se tk Htk. apply fmap_Some in Htk as (e & Hf & _). by eapply inv_polled.
  - intros c [ch Hc]%lookup_lt_is_Some_2 Hr. unfold receive in Hr. rewrite Hc in Hr.
    destruct ch; try done. by eapply inv_waiting.
Qed.

(** In every reachable state a client that follows [next_cursor] from the
    first page gets, after finitely many pages, every stored task of its
    session exactly once. *)
Theorem list_tasks_complete (n : nat) (ps : nat) (d : N) s (se : option str) :
  (forall a b, encode a = encode b -> a = b) -> (N.of_nat n < U64)%N -> 0 < page_size s ->
  nsteps (step Working is_terminal encode) n (with_options ps d) s ->
  exists l, all_pages (S (length (ordered s se))) None se s = Some l /\
    NoDup (task_id <$> l) /\ forall tk, tk ∈ l <-> exists id, get_task id se s = Some tk.
Proof.
  intros He Hn Hps Hs. apply (all_pages_total Working is_terminal encode n); [|done].
  by apply (tasks_reachable_inv Working is_terminal encode He n ps d).
Qed.

(** Storing a result: it can be read back, the task shows the new status,
    every other task is untouched, and one notification with the new status is
    published exactly when the status changed; nothing happens for an unknown
    task. *)
Theorem store_task_result_spec s (id : str) (st : Status) (res : Res) (se : option str) (iso : str) :
  let s' := store_task_result id st res se iso s in
  match get_task id se s with
  | None => s' = s
  | Some tk =>
      get_task_result id se s' = Some res /\
      get_task id se s' = Some (with_status tk st None iso) /\
      (forall id' se', (id', se') <> (id, se) ->
         get_task id' se' s' = get_task id' se' s /\ get_task_result id' se' s' = get_task_result id' se' s) /\
      n_task <$> drop (length (broadcast s)) (broadcast s') =
        (if decide (status tk = st) then [] else [with_status tk st None iso])
  end.
Proof.
  unfold store_task_result, get_task at 1. destruct (find_entry s id se) as [e|] eqn:He; simpl; [|done].
  set (e' := mkEntry _ _ _ _ _ _).
  assert (F : forall id0 se0, find_entry (if negb (bool_decide (status (task e) = st))
      then notify_status_change (put_entry s id se e') e' se else put_entry s id se e') id0 se0 =
      if decide ((id, se) = (id0, se0)) then Some e' else find_entry s id0 se0).
  { intros. rewrite <-find_task_put. by case_match. }
  unfold get_task_result, get_task. rewrite !F, !decide_True by done. split_and!; [done|done| |].
  - intros id' se' Hne. by rewrite !F, decide_False by congruence.
  - case_decide; [rewrite bool_decide_eq_true_2 by done|rewrite bool_decide_eq_false_2 by done]; simpl.
    + by rewrite drop_all.
    + by rewrite drop_app_length.
Qed.

(** Updating a status: the task shows the new status and message and
    keeps its result; the notification published when the status changes is
    taken before the change and so carries the previous status and message. *)
Theorem update_task_status_spec s (id : str) (st : Status) (msg : option str) (se : option str) (iso : str) :
  let s' := update_task_status id st msg se iso s in
  match get_task id se s with
  | None => s' = s
  | Some tk =>
      get_task id se s' = Some (with_status tk st msg iso) /\
      get_task_result id se s' = get_task_result id se s /\
      (forall id' se', (id', se') <> (id, se) -> get_task id' se' s' = get_task id' se' s) /\
      n_task <$> drop (length (broadcast s)) (broadcast s') = (if decide (status tk = st) then [] else [tk])
  end.
Proof.
  unfold update_task_status, get_task at 1. destruct (find_entry s id se) as [e|] eqn:He; simpl; [|done].
  set (e' := mkEntry _ _ _ _ _ _).
  assert (F : forall id0 se0, find_entry (put_entry (if negb (bool_decide (status (task e) = st))
      then notify_status_change s e se else s) id se e') id0 se0 =
      if decide ((id, se) = (id0, se0)) then Some e' else find_entry s id0 se0).
  { intros. rewrite find_task_put. by repeat case_match. }
  unfold get_task_result, get_task. rewrite !F, !decide_True by done. split_and!; [done|by rewrite He| |].
  - intros id' se' Hne. by rewrite F, decide_False by congruence.
  - case_decide; [rewrite bool_decide_eq_true_2 by done|rewrite bool_decide_eq_false_2 by done]; simpl.
    + by rewrite drop_all.
    + by rewrite drop_app_length.
Qed.
End Claims.

(** A reachable state used by the witnesses: a task is created with a TTL, a
    waiter subscribes, the poller starts and picks it up. *)
Module Demo.
Definition st : Type := bool. (* true: completed *)
Definition S0 : t unit nat unit st := with_options 1 1250.
Definition S1 := (create_task false (fun b => b) 0 [] (fun z => z) (mkOptions (Some 10%Z) (Some 5%Z) None) tt None S0).2.
Definition tid : str := s! "tsk" ++ to_le_bytes 0.
Definition S2 := (wait_for_task_result tid None S1).2.
Definition S3 := (start_task_polling S2).2.
Definition S4 := set_poller (tasks_to_poll 5 S3).2 [(tid, None)] [].

Lemma steps : nsteps (step false (fun b => b) (fun b => b)) 4 S0 S4.
Proof.
  apply nsteps_l with S1; [apply StepCreate|]. apply nsteps_l with S2; [apply StepWait|].
  apply nsteps_l with S3; [apply StepStart|]. apply nsteps_once.
  apply (StepPoll _ _ _ 5 S3 [(tid, None)] (tasks_to_poll 5 S3).2); [reflexivity..|vm_compute; reflexivity].
Defined.
End Demo.

Lemma tasks_always_polled_witness :
  (Demo.tid, None) ∈ pending Demo.S4 /\ receive 0 Demo.S4 = None.
Proof.
  destruct (tasks_always_polled false (fun b => b) (fun b => b) 4 1 1250 Demo.S4) as [H _];
    [auto|reflexivity|exact Demo.steps|].
  split; [eapply H; vm_compute; reflexivity|vm_compute; reflexivity].
Defined.

Lemma list_tasks_complete_witness :
  exists l, all_pages 2 None None Demo.S4 = Some l /\ NoDup (task_id <$> l).
Proof.
  destruct (list_tasks_complete false (fun b => b) (fun b => b) 4 1 1250 Demo.S4 None) as (l & H1 & H2 & _);
    [auto|reflexivity|vm_compute; lia|exact Demo.steps|].
  exists l. split; [exact H1|exact H2].
Defined.
