(* ===== verification/Dispatcher.v ===== *)
(** * Sending messages and awaiting their responses

    Models crates/rust-mcp-transport/src/: message_dispatcher.rs (both
    [McpDispatch] implementations of [MessageDispatcher]), error.rs,
    utils.rs ([await_timeout], [endpoint_with_session_id]).

    The message types and their JSON come from the schema crate and are
    parameters; an [AsyncWrite] is a class.  A oneshot channel is a number in
    the list of channels; tasks that run while a sender waits are a function on
    the state. *)
From S2P Require Import Prelude RustStr EventStore.

(** ** Errors *)

(** The error objects of the schema crate: which constructor, which message. *)
Inductive error_kind :=
| bad_request | invalid_request | internal_error | parse_error | method_not_found | invalid_params
| session_not_found | connection_closed | request_timeout_ms (ms : N).
Record SdkError := mkSdkError { kind : error_kind; with_message : option str }.
Record RpcError := mkRpcError { rpc_kind : error_kind; rpc_message : option str }.

(** [std::io::Error]: whether its kind is [BrokenPipe], and its text. *)
Record IoError := mkIoError { broken_pipe : bool; io_text : str }.

(** [enum TransportError] *)
Inductive TransportError :=
| SessionExpired
| FailedToOpenSSEStream (e : str)
| UnexpectedContentType (e : str)
| SendFailure (e : str)
| Io (e : IoError)
| HttpConnection (e : str)
| Http (status : N)
| Sdk (e : SdkError)
| Cancelled
| ChannelClosed
| Configuration (message : str)
| SendError
| JsonrpcError (e : RpcError)
| ProcessError (e : str)
| Internal (e : str)
| ShutdownTimeout.

(** The [Display] of the errors; those of other crates are parameters. *)
Definition show_transport_error (show_sdk : SdkError -> str) (show_rpc : RpcError -> str)
  (show_status : N -> str) (e : TransportError) : str :=
  match e with
  | SessionExpired => s! "Session expired or not found"
  | FailedToOpenSSEStream e => (s! "Failed to open SSE stream: ") ++ e
  | UnexpectedContentType e => (s! "Unexpected content type: '") ++ e ++ (s! "'")
  | SendFailure e => (s! "Failed to send message: ") ++ e
  | Io e => (s! "I/O error: ") ++ io_text e
  | HttpConnection e => (s! "HTTP connection error: ") ++ e
  | Http st => (s! "HTTP error: ") ++ show_status st
  | Sdk e => (s! "SDK error: ") ++ show_sdk e
  | Cancelled => s! "Operation cancelled: Cancellation channel closed"
  | ChannelClosed => s! "Channel closed: channel closed"
  | Configuration m => (s! "Configuration error: ") ++ m
  | SendError => s! "Broadcast SendError: Failed to send a message."
  | JsonrpcError e => show_rpc e
  | ProcessError e => (s! "Process error: ") ++ e
  | Internal e => (s! "Internal error: ") ++ e
  | ShutdownTimeout => s! "Shutdown timed out"
  end.

(** ** Interfaces *)

(** A message type of the schema crate: [is_request], [request_id],
    [serde_json::to_string] of one message and of a batch, and the error
    message [JsonrpcErrorResponse::new]. *)
Class Message (RequestId M : Type) := {
  is_request : M -> bool;
  request_id : M -> option RequestId;
  to_json : M -> option str;
  batch_to_json : list M -> option str;
  error_message : RpcError -> option RequestId -> M;
}.

(** [ClientMessages] and [ServerMessages]; [as_single] and [as_batch] belong
    to the schema crate. *)
Inductive Messages (M : Type) := Single (m : M) | Batch (l : list M).
Arguments Single {M} m.
Arguments Batch {M} l.

(** [tokio::io::AsyncWrite], as [write_all] and [flush] use it. *)
Class AsyncWrite (W : Type) := {
  write_all : W -> bytes -> result unit IoError * W;
  flush : W -> result unit IoError * W;
}.
(** What reached the writer: a successful [write_all] appends its bytes. *)
Class AsyncWriteLaws (W : Type) `{AsyncWrite W} := {
  written : W -> bytes;
  write_all_Ok w b w' : write_all w b = (Ok tt, w') -> written w' = written w ++ b;
  flush_Ok w w' : flush w = (Ok tt, w') -> written w' = written w;
}.

(** The [mpsc] sender of payloads with an acknowledgement: [Err] when the
    channel is closed, [Ok None] when the acknowledgement is dropped. *)
Class AckChannel (T : Type) := {
  send_with_ack : T -> str -> result (option (result unit TransportError)) str * T;
}.

Definition ID_SEPARATOR : ascii := "|"%char.

Module MessageDispatcher.
Section Dispatcher.
Context {RequestId : Type} `{Countable RequestId}.
Context {In Out W T St : Type} `{!AsyncWrite W} `{!AckChannel T} `{!EventStore St}.
Context `{!Message RequestId In} `{!Message RequestId Out}.
Context (as_single : Messages In -> result In SdkError) (as_batch : Messages In -> result (list In) SdkError).
Context (show_error : TransportError -> str).

(** A oneshot channel. *)
Inductive chan := Waiting | Sent (m : In) | SenderDropped | ReceiverDropped.

(** [struct MessageDispatcher], and the channels made so far. *)
Record t := mk {
  pending_requests : gmap RequestId nat;
  channels : list chan;
  writable_std : option W;
  writable_tx : option T;
  request_timeout : N; (* milliseconds *)
  session_id : option str;
  stream_id : option str;
  event_store : option St;
}.
Definition new (w : W) (timeout : N) : t := mk ∅ [] (Some w) None timeout None None None.
Definition new_with_acknowledgement (tx : T) (timeout : N) : t := mk ∅ [] None (Some tx) timeout None None None.

Definition make_resumable (se st : str) (store : St) (s : t) : t :=
  mk (pending_requests s) (channels s) (writable_std s) (writable_tx s) (request_timeout s)
     (Some se) (Some st) (Some store).
Definition with_pending (p : gmap RequestId nat) (cs : list chan) (s : t) : t :=
  mk p cs (writable_std s) (writable_tx s) (request_timeout s) (session_id s) (stream_id s) (event_store s).
Definition with_std (w : option W) (s : t) : t :=
  mk (pending_requests s) (channels s) w (writable_tx s) (request_timeout s) (session_id s) (stream_id s) (event_store s).
Definition with_tx (x : option T) (s : t) : t :=
  mk (pending_requests s) (channels s) (writable_std s) x (request_timeout s) (session_id s) (stream_id s) (event_store s).
Definition with_store (e : option St) (s : t) : t :=
  mk (pending_requests s) (channels s) (writable_std s) (writable_tx s) (request_timeout s) (session_id s) (stream_id s) e.

Abbreviation M := (Act t TransportError).

(** Dropping a sender closes a channel that has no value. *)
Definition drop_sender (c : option nat) (cs : list chan) : list chan :=
  match c with
  | Some c => match cs !! c with Some Waiting => <[c := SenderDropped]> cs | _ => cs end
  | None => cs
  end.

Definition store_pending_request (id : RequestId) : M nat :=
  fun s =>
    let c := length (channels s) in
    (Ok c, with_pending (<[id := c]> (pending_requests s))
             (drop_sender (pending_requests s !! id) (channels s) ++ [Waiting]) s).

Definition store_pending_request_for_message (m : Out) : M (option nat) :=
  if is_request (RequestId := RequestId) m then
    match request_id m with
    | Some id => do c <- store_pending_request id; act_ret (Some c)
    | None => act_ret None
    end
  else act_ret None.

(** [pending_request_tx] of the transports, and sending on what it returns:
    whether a receiver was there. *)
Definition pending_request_tx (id : RequestId) (s : t) : option nat * t :=
  (pending_requests s !! id, with_pending (delete id (pending_requests s)) (channels s) s).
Definition send_on (c : nat) (m : In) (s : t) : bool * t :=
  match channels s !! c with
  | Some Waiting => (true, with_pending (pending_requests s) (<[c := Sent m]> (channels s)) s)
  | _ => (false, s)
  end.
Definition deliver (id : RequestId) (m : In) (s : t) : bool * t :=
  match pending_request_tx id s with
  | (Some c, s) => send_on c m s
  | (None, s) => (false, s)
  end.
(** [pending_requests.clear()], when the peer process ends. *)
Definition clear_pending (s : t) : t :=
  with_pending ∅ (foldl (fun cs c => drop_sender (Some c) cs) (channels s) (map_to_list (pending_requests s)).*2) s.

(** [await_timeout] on a receiver: what the channel holds when the wait ends;
    the receiver is then dropped. *)
Definition receive (timeout : N) (c : nat) (s : t) : result In TransportError * t :=
  let s' := with_pending (pending_requests s) (<[c := ReceiverDropped]> (channels s)) s in
  match channels s !! c with
  | Some (Sent m) => (Ok m, s')
  | Some SenderDropped => (Err ChannelClosed, s')
  | _ => (Err (Sdk (mkSdkError (request_timeout_ms timeout) None)), s')
  end.
(** A [join_all] of such waits never fails: it collects the results. *)
Fixpoint receive_all (timeout : N) (cs : list nat) (s : t) : list (result In TransportError) * t :=
  match cs with
  | [] => ([], s)
  | c :: r =>
      let '(x, s) := receive timeout c s in
      let '(xs, s) := receive_all timeout r s in (x :: xs, s)
  end.

(** ** Writing *)

Definition std_do {A} (f : W -> result A IoError * W) : M A :=
  fun s => match writable_std s with
           | None => (Err (Internal (s! "Invalid dispatcher!")), s)
           | Some w => let '(r, w) := f w in
                       ((match r with Ok a => Ok a | Err e => Err (Io e) end), with_std (Some w) s)
           end.
Definition write_ack (payload : str) : M unit :=
  fun s => match writable_tx s with
           | None => (Err (Internal (s! "Invalid dispatcher!")), s)
           | Some tx =>
               let '(r, tx) := send_with_ack tx payload in
               ((match r with
                 | Err e => Err (Internal e)
                 | Ok None => Err ChannelClosed
                 | Ok (Some r) => r
                 end), with_tx (Some tx) s)
           end.

(** The client's [write_str]. *)
Definition client_write_str (payload : str) (skip_store : bool) : M unit :=
  fun s =>
    if is_some (writable_std s) then
      (do _ <- std_do (fun w => write_all w payload);
       do _ <- std_do (fun w => write_all w [LF]);
       std_do flush) s
    else write_ack payload s.

(** The server's [write_str]; [now] is the timestamp it would take. *)
Definition store_for_resume (now : N) (payload : str) (skip_store : bool) : M (option str) :=
  fun s =>
    if negb skip_store && negb (bool_decide (trim payload = [])) then
      match session_id s, stream_id s, event_store s with
      | Some se, Some st, Some es =>
          let '(r, es) := store_event es se st now payload in
          (Ok (match r with Ok id => Some id | Err _ => None end), with_store (Some es) s)
      | _, _, _ => (Ok None, s)
      end
    else (Ok None, s).
Definition write_line (event_id : option str) (payload : str) : M unit :=
  fun s =>
    if is_some (writable_std s) then
      (do _ <- (match event_id with
                | Some id => do _ <- std_do (fun w => write_all w id);
                             std_do (fun w => write_all w [ID_SEPARATOR])
                | None => act_ret tt
                end);
       do _ <- std_do (fun w => write_all w payload);
       do _ <- std_do (fun w => write_all w [LF]);
       std_do flush) s
    else write_ack payload s.
Definition server_write_str (now : N) (payload : str) (skip_store : bool) : M unit :=
  do event_id <- store_for_resume now payload skip_store;
  write_line event_id payload.

(** ** Sending *)

Definition serialize (r : option str) : M str :=
  act_lift (ok_or r (JsonrpcError (mkRpcError parse_error None))).

(** What other tasks do at an await point. *)
Definition other_tasks (env : t -> t) : M unit := act_modify env.

(** The results of a batch, each failed one as an error message with its id. *)
Definition batch_results (ids : list (option RequestId)) (rs : list (result In TransportError)) : list In :=
  zip_with (fun r id => match r with
    | Ok m => m
    | Err e => error_message (mkRpcError internal_error (Some (show_error e))) id
    end) rs ids.
Definition receive_batch (timeout : N) (cs : list nat) : M (list (result In TransportError)) :=
  fun s => let '(rs, s) := receive_all timeout cs s in (Ok rs, s).

(** [send_message] of the client; [env] runs while it waits for responses. *)
Definition client_send_message (env : t -> t) (messages : Messages Out) (timeout : option N)
  : M (option (Messages In)) :=
  do default <- act_get request_timeout;
  let timeout := from_option id default timeout in
  match messages with
  | Single message =>
      do rx_response <- store_pending_request_for_message message;
      do payload <- serialize (to_json (RequestId := RequestId) message);
      do _ <- client_write_str payload true;
      match rx_response with
      | Some rx =>
          do _ <- other_tasks env;
          fun s => match receive timeout rx s with
                   | (Ok m, s) => (Ok (Some (Single m)), s)
                   | (Err ChannelClosed, s) => (Err (Sdk (mkSdkError connection_closed None)), s)
                   | (Err e, s) => (Err e, s)
                   end
      | None => act_ret None
      end
  | Batch ms =>
      let requests := List.filter (is_request (RequestId := RequestId)) ms in
      let request_ids := request_id <$> requests in
      do tasks <- act_map store_pending_request_for_message requests;
      do payload <- serialize (batch_to_json (RequestId := RequestId) ms);
      do _ <- client_write_str payload true;
      if bool_decide (request_ids = []) then act_ret None else
      do _ <- other_tasks env;
      do rs <- receive_batch timeout (omap id tasks);
      act_ret (Some (Batch (batch_results request_ids rs)))
  end.

(** [send_message] of the server: a batch registers its requests only after it
    was written, [env0] running in between. *)
Definition server_send_message (now : N) (env0 env : t -> t) (messages : Messages Out) (timeout : option N)
  : M (option (Messages In)) :=
  do default <- act_get request_timeout;
  let timeout := from_option id default timeout in
  match messages with
  | Single message =>
      do rx_response <- store_pending_request_for_message message;
      do payload <- serialize (to_json (RequestId := RequestId) message);
      do _ <- server_write_str now payload false;
      match rx_response with
      | Some rx =>
          do _ <- other_tasks env;
          fun s => let '(r, s) := receive timeout rx s in
                   ((match r with Ok m => Ok (Some (Single m)) | Err e => Err e end), s)
      | None => act_ret None
      end
  | Batch ms =>
      let requests := List.filter (is_request (RequestId := RequestId)) ms in
      let request_ids := request_id <$> requests in
      do payload <- serialize (batch_to_json (RequestId := RequestId) ms);
      do _ <- server_write_str now payload false;
      if bool_decide (requests = []) then act_ret None else
      do _ <- other_tasks env0;
      do tasks <- act_map store_pending_request_for_message requests;
      do _ <- other_tasks env;
      do rs <- receive_batch timeout (omap id tasks);
      act_ret (Some (Batch (batch_results request_ids rs)))
  end.

Definition client_send (env : t -> t) (m : Out) (timeout : option N) : M (option In) :=
  do response <- client_send_message env (Single m) timeout;
  match response with
  | Some r => match as_single r with Ok m => act_ret (Some m) | Err e => act_fail (Sdk e) end
  | None => act_ret None
  end.
Definition client_send_batch (env : t -> t) (ms : list Out) (timeout : option N) : M (option (list In)) :=
  do response <- client_send_message env (Batch ms) timeout;
  match response with
  | Some r => match as_batch r with Ok l => act_ret (Some l) | Err e => act_fail (Sdk e) end
  | None => act_ret None
  end.
Definition server_send (now : N) (env0 env : t -> t) (m : Out) (timeout : option N) : M (option In) :=
  do response <- server_send_message now env0 env (Single m) timeout;
  match response with
  | Some r => match as_single r with Ok m => act_ret (Some m) | Err e => act_fail (Sdk e) end
  | None => act_ret None
  end.
Definition server_send_batch (now : N) (env0 env : t -> t) (ms : list Out) (timeout : option N) : M (option (list In)) :=
  do response <- server_send_message now env0 env (Batch ms) timeout;
  match response with
  | Some r => match as_batch r with Ok l => act_ret (Some l) | Err e => act_fail (Sdk e) end
  | None => act_ret None
  end.

(** The steps other tasks take on the shared requests and writer. *)
Inductive op :=
| Register (id : RequestId)
| Deliver (id : RequestId) (m : In)
| ClearPending
| Write (w : W).
Definition apply (s : t) (o : op) : t :=
  match o with
  | Register id => (store_pending_request id s).2
  | Deliver id m => (deliver id m s).2
  | ClearPending => clear_pending s
  | Write w => with_std (Some w) s
  end.
Definition run (os : list op) (s : t) : t := foldl apply s os.
End Dispatcher.
Arguments t RequestId {_ _} In W T St.
Arguments op RequestId In W : clear implicits.
Arguments chan In : clear implicits.
Arguments Waiting {In}.
Arguments Sent {In} m.
Arguments SenderDropped {In}.
Arguments ReceiverDropped {In}.
Arguments Register {RequestId In W} id.
Arguments Deliver {RequestId In W} id m.
Arguments ClearPending {RequestId In W}.
Arguments Write {RequestId In W} w.
End MessageDispatcher.

(** [endpoint_with_session_id] *)
Definition endpoint_with_session_id (endpoint session_id : str) : str :=
  let base := if bool_decide (endpoint = []) then s! "/" else endpoint in
  let '(path_and_query, fragment) := match split_once_char "#"%char base with
                                     | Some (p, f) => (p, Some f) | None => (base, None) end in
  let '(path, query) := match split_once_char "?"%char path_and_query with
                        | Some (p, q) => (p, Some q) | None => (path_and_query, None) end in
  let new_query := match query with
                   | Some (c :: q) => (c :: q) ++ (s! "&sessionId=") ++ session_id
                   | _ => (s! "sessionId=") ++ session_id
                   end in
  match fragment with
  | Some f => path ++ (s! "?") ++ new_query ++ (s! "#") ++ f
  | None => path ++ (s! "?") ++ new_query
  end.

(** ** Facts *)

Module DispatcherFacts.
Import MessageDispatcher.
Section Facts.
Context {RequestId : Type} `{Countable RequestId}.
Context {In Out W T St : Type} `{!AsyncWrite W} `{!AckChannel T} `{!EventStore St}.
Context `{!Message RequestId In} `{!Message RequestId Out}.
Context (show_error : TransportError -> str).
Abbreviation state := (t RequestId In W T St).
Implicit Types (s : state) (i j : RequestId) (c : nat).

(** Pending entries name existing channels, each at most once. *)
Definition WF s : Prop :=
  (forall i c, pending_requests s !! i = Some c -> c < length (channels s)) /\
  (forall i j c, pending_requests s !! i = Some c -> pending_requests s !! j = Some c -> i = j).

(** Channel [c] of request [i]: still waiting, or resolved for good. *)
Definition slot s i c (o : option (chan In)) : Prop :=
  match o with
  | None => pending_requests s !! i = Some c /\ channels s !! c = Some Waiting
  | Some ch => channels s !! c = Some ch /\ ch <> Waiting /\ ch <> ReceiverDropped
  end.

(** What a sequence of steps first does to a pending request. *)
Fixpoint first_event i (os : list (op RequestId In W)) : option (chan In) :=
  match os with
  | [] => None
  | Deliver j m :: r => if decide (j = i) then Some (Sent m) else first_event i r
  | ClearPending :: _ => Some SenderDropped
  | _ :: r => first_event i r
  end.
Definition registers i (o : op RequestId In W) : bool :=
  match o with Register j => bool_decide (j = i) | _ => false end.

Definition waiting (o : option (chan In)) : bool := match o with Some Waiting => true | _ => false end.

Lemma drop_sender_lookup (o : option nat) (cs : list (chan In)) c :
  drop_sender o cs !! c = if bool_decide (o = Some c) && waiting (cs !! c) then Some SenderDropped else cs !! c.
Proof.
  destruct o as [d|]; simpl; [|done]. case_bool_decide as E; simpl.
  - simplify_eq. destruct (cs !! c) as [[]|] eqn:E; simpl; try done.
    by rewrite list_lookup_insert_eq by (by apply lookup_lt_Some in E).
  - destruct (cs !! d) as [[]|]; try done. rewrite list_lookup_insert_ne; [done|congruence].
Qed.

Lemma drop_sender_length (o : option nat) (cs : list (chan In)) : length (drop_sender o cs) = length cs.
Proof. destruct o; simpl; [|done]. destruct (cs !! n) as [[]|]; by rewrite ?length_insert. Qed.

Lemma drop_senders_length (l : list nat) (cs : list (chan In)) :
  length (foldl (fun cs c => drop_sender (Some c) cs) cs l) = length cs.
Proof. revert cs; induction l as [|d l IH]; intros cs; cbn [foldl]; [done|]. by rewrite IH, drop_sender_length. Qed.

Lemma drop_senders_lookup (l : list nat) (cs : list (chan In)) c :
  foldl (fun cs c => drop_sender (Some c) cs) cs l !! c =
  if bool_decide (c ∈ l) && waiting (cs !! c) then Some SenderDropped else cs !! c.
Proof.
  revert cs; induction l as [|d l IH]; intros cs; cbn [foldl].
  - by rewrite bool_decide_eq_false_2 by (by intros ?%elem_of_nil).
  - rewrite IH, drop_sender_lookup. destruct (decide (d = c)) as [->|Hne].
    + rewrite (bool_decide_eq_true_2 (Some c = Some c)), (bool_decide_eq_true_2 (c ∈ c :: l)) by (done || left). simpl.
      destruct (waiting (cs !! c)) eqn:Hw; simpl; rewrite ?Hw, andb_false_r; done.
    + rewrite (bool_decide_eq_false_2 (Some d = Some c)) by congruence. simpl.
      by rewrite (bool_decide_ext (c ∈ d :: l) (c ∈ l)) by (rewrite elem_of_cons; naive_solver).
Qed.

Lemma apply_wf s o : WF s -> WF (apply s o).
Proof.
  intros [Hr Hi]. destruct o as [i|i m| |w]; simpl.
  - split; cbn [pending_requests channels with_pending].
    + intros j c. rewrite length_app, drop_sender_length. simpl.
      destruct (decide (i = j)) as [->|]; [rewrite lookup_insert_eq; intros [= <-]; lia|].
      rewrite lookup_insert_ne by done. intros ?%Hr. lia.
    + intros j k c. rewrite !lookup_insert. repeat case_decide; subst; try done; eauto.
      * intros [= <-] ?%Hr; lia.
      * intros ?%Hr [= <-]; lia.
  - unfold deliver, pending_request_tx, send_on.
    assert (D : forall cs : list (chan In), length (channels s) <= length cs -> WF (with_pending (delete i (pending_requests s)) cs s)).
    { intros cs Hl. split; cbn [pending_requests channels with_pending].
      - intros j c [_ ?%Hr]%lookup_delete_Some. lia.
      - intros j k c [_ ?]%lookup_delete_Some [_ ?]%lookup_delete_Some. eauto. }
    destruct (pending_requests s !! i) as [c|]; cbn [channels with_pending pending_requests].
    + destruct (channels s !! c) as [[]|]; try by apply D. cbn. apply D. by rewrite length_insert.
    + by apply D.
  - split; cbn [pending_requests channels with_pending clear_pending]; intros *; by rewrite lookup_empty.
  - by split.
Qed.

Lemma run_wf os s : WF s -> WF (run os s).
Proof. revert s; induction os as [|o os IH]; intros s; [done|]. intros ?. by apply IH, apply_wf. Qed.

Lemma channel_kept s o c ch :
  channels s !! c = Some ch -> ch <> Waiting -> channels (apply s o) !! c = Some ch.
Proof.
  intros Hc Hw. assert (Hn : waiting (channels s !! c) = false) by (rewrite Hc; by destruct ch).
  destruct o as [i|i m| |w]; simpl; [| | |done].
  - cbn [channels with_pending]. rewrite lookup_app_l.
    + by rewrite drop_sender_lookup, Hn, andb_false_r.
    + rewrite drop_sender_length. by eapply lookup_lt_Some.
  - unfold deliver, pending_request_tx, send_on.
    destruct (pending_requests s !! i) as [d|]; cbn [channels with_pending]; [|done].
    destruct (channels s !! d) as [[]|] eqn:Hd; cbn [channels with_pending]; try done.
    cbn [snd channels with_pending]. rewrite list_lookup_insert_ne; [done|]. intros ->. simplify_eq.
  - cbn [channels with_pending clear_pending]. by rewrite drop_senders_lookup, Hn, andb_false_r.
Qed.

Lemma apply_slot s i c (o : option (chan In)) a : WF s -> registers i a = false -> slot s i c o ->
  slot (apply s a) i c (match o with None => first_event i [a] | Some _ => o end).
Proof.
  intros [_ Hinj] Hreg. destruct o as [ch|]; simpl.
  { intros (? & ? & ?). split; [|done]. by apply channel_kept. }
  intros [Hp Hw]. assert (Hother : forall j d, pending_requests s !! j = Some d -> j <> i -> d <> c).
  { intros j d Hj Hne ->. by apply Hne, (Hinj j i c). }
  destruct a as [j|j m| |w]; simpl in *.
  - apply bool_decide_eq_false in Hreg. split; cbn [pending_requests channels with_pending].
    + by rewrite lookup_insert_ne.
    + rewrite lookup_app_l by (rewrite drop_sender_length; by eapply lookup_lt_Some).
      rewrite drop_sender_lookup, bool_decide_eq_false_2; [done|]. intros Hj. by apply (Hother j c).
  - unfold deliver, pending_request_tx, send_on. case_decide as Hj.
    + subst j. rewrite Hp. cbn [channels with_pending]. rewrite Hw. simpl. split; [|done].
      cbn [channels with_pending]. rewrite list_lookup_insert_eq; [done|]. by eapply lookup_lt_Some.
    + assert (Hd : delete j (pending_requests s) !! i = Some c) by (by rewrite lookup_delete_ne).
      destruct (pending_requests s !! j) as [d|] eqn:Hjd; cbn [channels with_pending]; [|by split].
      destruct (channels s !! d) as [[]|]; try by split.
      split; cbn [snd channels with_pending pending_requests]; [done|]. rewrite list_lookup_insert_ne; [done|]. by eapply Hother.
  - split; [|done]. cbn [channels with_pending clear_pending]. rewrite drop_senders_lookup, Hw, bool_decide_eq_true_2; [done|].
    apply list_elem_of_fmap. exists (i, c). split; [done|]. by apply elem_of_map_to_list.
  - by split.
Qed.

Lemma first_event_cons i a os :
  first_event i (a :: os) = match first_event i [a] with None => first_event i os | o => o end.
Proof. destruct a; simpl; try done. by case_decide. Qed.

Lemma run_slot os s i c (o : option (chan In)) : WF s -> Forall (fun a => registers i a = false) os -> slot s i c o ->
  slot (run os s) i c (match o with None => first_event i os | Some _ => o end).
Proof.
  revert s o; induction os as [|a os IH]; intros s o Hwf Hreg Hs; [by destruct o|].
  apply Forall_cons in Hreg as [Ha Hos]. rewrite first_event_cons.
  pose proof (IH _ _ (apply_wf s a Hwf) Hos (apply_slot s i c o a Hwf Ha Hs)) as Hr. cbn [run foldl] in *.
  destruct o; [done|]. by destruct (first_event i [a]).
Qed.

Lemma register_slot s i : WF s -> slot (apply s (Register i)) i (length (channels s)) None.
Proof.
  intros Hwf. simpl. split; cbn [pending_requests channels with_pending]; [by rewrite lookup_insert_eq|].
  rewrite lookup_app_r by (by rewrite drop_sender_length). by rewrite drop_sender_length, Nat.sub_diag.
Qed.

Lemma first_event_register i ids : first_event i (Register <$> ids) = None.
Proof. by induction ids. Qed.

(** Registering the requests of a batch. *)
Definition is_request_of (m : Out) i : Prop := is_request (RequestId := RequestId) m = true /\ request_id m = Some i.

Lemma register_message s (m : Out) i : is_request_of m i ->
  store_pending_request_for_message m s = (Ok (Some (length (channels s))), apply s (Register (W := W) i)).
Proof. intros [Hm Hi]. unfold store_pending_request_for_message. by rewrite Hm, Hi. Qed.

Lemma register_all (ms : list Out) ids s : WF s -> Forall2 is_request_of ms ids -> NoDup ids ->
  exists cs, act_map store_pending_request_for_message ms s = (Ok (Some <$> cs), run (Register <$> ids) s) /\
    Forall2 (fun i c => slot (run (Register <$> ids) s) i c None) ids cs.
Proof.
  intros Hwf Hms Hnd. revert s Hwf Hnd. induction Hms as [|m i ms ids Hm _ IH]; intros s Hwf Hnd.
  - exists []. simpl. split; [done|constructor].
  - apply NoDup_cons in Hnd as [Hi Hnd]. cbn [act_map]. unfold act_bind at 1. rewrite (register_message s m i Hm).
    destruct (IH _ (apply_wf s (Register i) Hwf) Hnd) as (cs & Hcs & Hall).
    exists (length (channels s) :: cs). unfold act_bind at 1. rewrite Hcs. split; [done|].
    constructor; [|done].
    pose proof (run_slot (Register <$> ids) (apply s (Register i)) i (length (channels s)) None) as R.
    rewrite first_event_register in R. apply R; [by apply apply_wf| |by apply register_slot].
    apply Forall_fmap, Forall_forall. intros j Hj. simpl. apply bool_decide_eq_false. by intros ->.
Qed.

(** Registering touches neither the writer nor the store. *)
Lemma run_register_frame ids s :
  exists p cs, run (Register <$> ids) s = with_pending p cs s.
Proof.
  revert s; induction ids as [|i ids IH]; intros s.
  - exists (pending_requests s), (channels s). by destruct s.
  - change (run (Register <$> i :: ids) s) with (run (Register <$> ids) (apply s (Register i))).
    destruct (IH (apply s (Register i))) as (p & cs & ->). by eexists p, cs.
Qed.

(** What a wait returns for a resolved or unresolved channel. *)
Definition outcome (timeout : N) (o : option (chan In)) : result In TransportError :=
  match o with
  | Some (Sent m) => Ok m
  | Some SenderDropped => Err ChannelClosed
  | _ => Err (Sdk (mkSdkError (request_timeout_ms timeout) None))
  end.

Lemma receive_slot timeout s i c o : slot s i c o -> (receive timeout c s).1 = outcome timeout o.
Proof.
  unfold receive. destruct o as [ch|]; simpl.
  - intros (-> & ? & ?). by destruct ch.
  - by intros [_ ->].
Qed.

Lemma receive_all_spec timeout cs os s : NoDup cs -> 
  Forall2 (fun c o => exists i, slot s i c o) cs os ->
  (receive_all timeout cs s).1 = outcome timeout <$> os.
Proof.
  intros Hnd Hall. revert s Hnd Hall. revert os. induction cs as [|c cs IH]; intros os s Hnd Hall.
  - apply Forall2_nil_inv_l in Hall as ->. done.
  - apply Forall2_cons_inv_l in Hall as (o & os' & [i Ho] & Hall & ->). apply NoDup_cons in Hnd as [Hc Hnd].
    cbn [receive_all]. pose proof (receive_slot timeout s i c o Ho) as Hr.
    destruct (receive timeout c s) as [x s'] eqn:E. simpl in Hr. subst x.
    specialize (IH os' s' Hnd). destruct (receive_all timeout cs s') as [xs s'']. simpl in *. f_equal. apply IH.
    assert (Es : channels s' = <[c := ReceiverDropped]> (channels s) /\ pending_requests s' = pending_requests s).
    { unfold receive in E. destruct (channels s !! c) as [[]|]; by simplify_eq/=. }
    destruct Es as [Ec Ep]. clear E IH Ho. induction Hall as [|d od cs os' [j Hj] _ IH]; constructor.
    + exists j. apply not_elem_of_cons in Hc as [Hcd _]. unfold slot in *. rewrite Ec, Ep. by rewrite list_lookup_insert_ne.
    + apply IH; [by apply not_elem_of_cons in Hc as [_ ?]|by apply NoDup_cons in Hnd as [_ ?]].
Qed.

(** ** Writing leaves the pending requests alone *)

Lemma with_pending_eta s : with_pending (pending_requests s) (channels s) s = s.
Proof. by destruct s. Qed.
Lemma with_pending_twice p cs p' cs' s : with_pending p cs (with_pending p' cs' s) = with_pending p cs s.
Proof. done. Qed.

Definition framed {A} (f : Act state TransportError A) : Prop :=
  forall p cs s, f (with_pending p cs s) = ((f s).1, with_pending p cs (f s).2).

Lemma std_do_framed (g : W -> result unit IoError * W) : framed (std_do g).
Proof. intros p cs s. unfold std_do. cbn. destruct (writable_std s) as [w|]; [|done]. by destruct (g w). Qed.
Lemma write_ack_framed payload : framed (write_ack payload).
Proof. intros p cs s. unfold write_ack. cbn. destruct (writable_tx s) as [x|]; [|done]. by destruct (send_with_ack x payload). Qed.
Lemma bind_framed {A B} (f : Act state TransportError A) (k : A -> Act state TransportError B) :
  framed f -> (forall a, framed (k a)) -> framed (act_bind f k).
Proof.
  intros Hf Hk p cs s. unfold act_bind. rewrite Hf. destruct (f s) as [[a|e] s1]; simpl; [|done]. apply Hk.
Qed.
Lemma ret_framed {A} (a : A) : framed (act_ret a).
Proof. by intros p cs s. Qed.
(** A test of the writer chooses between two methods. *)
Lemma if_std_framed {A} (f g : Act state TransportError A) :
  framed f -> framed g -> framed (fun s => if is_some (writable_std s) then f s else g s).
Proof. intros Hf Hg p cs s. cbn. destruct (is_some (writable_std s)); [apply Hf|apply Hg]. Qed.
Lemma store_for_resume_framed now payload b : framed (store_for_resume now payload b).
Proof.
  intros p cs s. unfold store_for_resume. destruct (_ && _); [|done]. cbn.
  destruct (session_id s), (stream_id s), (event_store s); try done. by destruct (store_event _ _ _ _ _).
Qed.

#[local] Hint Resolve std_do_framed write_ack_framed bind_framed ret_framed if_std_framed store_for_resume_framed : rust.
Lemma client_write_framed payload b : framed (client_write_str payload b).
Proof. unfold client_write_str. auto 8 with rust. Qed.
Lemma server_write_framed now payload b : framed (server_write_str now payload b).
Proof. unfold server_write_str, write_line. apply bind_framed; [|intros [id|]]; auto 10 with rust. Qed.

Lemma framed_keeps {A} (f : Act state TransportError A) s : framed f ->
  pending_requests (f s).2 = pending_requests s /\ channels (f s).2 = channels s.
Proof.
  intros Hf. specialize (Hf (pending_requests s) (channels s) s). rewrite with_pending_eta in Hf.
  destruct (f s) as [r s']. simpl in *. injection Hf as Hf. by rewrite Hf.
Qed.

Lemma slot_ext s s' i c o : pending_requests s' = pending_requests s -> channels s' = channels s ->
  slot s i c o -> slot s' i c o.
Proof. unfold slot. by intros -> ->. Qed.
Lemma wf_ext s s' : pending_requests s' = pending_requests s -> channels s' = channels s -> WF s -> WF s'.
Proof. unfold WF. by intros -> ->. Qed.

Lemma slots_NoDup s ids cs : WF s -> NoDup ids -> Forall2 (fun i c => slot s i c None) ids cs -> NoDup cs.
Proof.
  intros [_ Hinj] Hnd Hall. induction Hall as [|i c ids cs [Hi _] Hall IH]; constructor.
  - apply NoDup_cons in Hnd as [Hni _]. intros Hc. apply Hni. clear IH Hni.
    induction Hall as [|j d ids cs [Hj _] _ IH]; [by apply elem_of_nil in Hc|].
    apply elem_of_cons in Hc as [<-|Hc]; [|right; auto]. rewrite (Hinj i j c Hi Hj). left.
  - apply IH. by apply NoDup_cons in Hnd as [_ ?].
Qed.

Definition none_registers (ids : list RequestId) (os : list (op RequestId In W)) : Prop :=
  forall i, i ∈ ids -> Forall (fun a => registers i a = false) os.

Lemma await_batch s ids cs os timeout : WF s -> NoDup ids -> none_registers ids os ->
  Forall2 (fun i c => slot s i c None) ids cs ->
  (receive_all timeout cs (run os s)).1 = (fun i => outcome timeout (first_event i os)) <$> ids.
Proof.
  intros Hwf Hnd Hreg Hall.
  rewrite (receive_all_spec timeout cs ((fun i => first_event i os) <$> ids)).
  - by rewrite <-list_fmap_compose.
  - by eapply slots_NoDup.
  - clear Hnd. induction Hall as [|i c ids cs Hs _ IH]; constructor.
    + exists i. apply (run_slot os s i c None); [done| |done]. apply Hreg. left.
    + apply IH. intros j Hj. apply Hreg. by right.
Qed.

(** The response a batch reports for a request. *)
Definition answer (timeout : N) (o : option (chan In)) i : In :=
  match outcome timeout o with
  | Ok m => m
  | Err e => error_message (mkRpcError internal_error (Some (show_error e))) (Some i)
  end.

Lemma batch_results_answers timeout os ids :
  batch_results show_error (Some <$> ids) ((fun i => outcome timeout (first_event i os)) <$> ids)
  = (fun i => answer timeout (first_event i os) i) <$> ids.
Proof. unfold batch_results. by induction ids as [|i ids IH]; simpl; [|f_equal]. Qed.

Lemma request_ids_of (ms : list Out) ids : Forall2 is_request_of ms ids -> request_id <$> ms = Some <$> ids.
Proof. induction 1 as [|m i ms ids [_ Hi] _ IH]; simpl; [done|]. rewrite Hi. by f_equal. Qed.

(** Waiting for a batch after its requests were registered. *)
Lemma finish_batch s ids cs os timeout : WF s -> NoDup ids -> none_registers ids os ->
  Forall2 (fun i c => slot s i c None) ids cs ->
  ((do _ <- other_tasks (run os); do rs <- receive_batch timeout (omap (fun x => x) (Some <$> cs));
    act_ret (Some (Batch (batch_results show_error (Some <$> ids) rs)))) s).1
  = (Ok (Some (Batch ((fun i => answer timeout (first_event i os) i) <$> ids))) : result _ TransportError).
Proof.
  intros Hwf Hnd Hreg Hall.
  assert (Ho : omap (fun x : option nat => x) (Some <$> cs) = cs) by (clear; by induction cs as [|c cs IH]; [|cbn; rewrite IH]).
  unfold other_tasks, act_modify, act_bind, receive_batch, act_ret. cbn [fst]. rewrite Ho.
  pose proof (await_batch s ids cs os timeout Hwf Hnd Hreg Hall) as Hr.
  destruct (receive_all timeout cs (run os s)) as [rs s']. simpl in *. subst rs. by rewrite batch_results_answers.
Qed.

(** A write after the registrations behaves as one before them. *)
Lemma write_registered (f : Act state TransportError unit) s s1 ids :
  framed f -> f s = (Ok tt, s1) ->
  exists s2, f (run (Register <$> ids) s) = (Ok tt, s2) /\
    pending_requests s2 = pending_requests (run (Register (W := W) <$> ids) s) /\
    channels s2 = channels (run (Register (W := W) <$> ids) s).
Proof.
  intros Hf Hs. destruct (run_register_frame ids s) as (p & cs & ->). rewrite Hf, Hs. eauto.
Qed.

(** Waiting for one request. *)
Lemma finish_single s s2 i os timeout : WF s -> none_registers [i] os ->
  pending_requests s2 = pending_requests (run (Register (W := W) <$> [i]) s) ->
  channels s2 = channels (run (Register (W := W) <$> [i]) s) ->
  (receive timeout (length (channels s)) (run os s2)).1 = outcome timeout (first_event i os).
Proof.
  intros Hwf Hreg Hp Hc. apply (receive_slot timeout _ i).
  apply (run_slot os s2 i (length (channels s)) None).
  - apply (wf_ext (apply s (Register i))); [done..|by apply apply_wf].
  - apply Hreg. left.
  - apply (slot_ext (apply s (Register i))); [done..|by apply register_slot].
Qed.

(** Two states alike in their requests agree on the slots. *)
Lemma slots_ext s s' ids cs : pending_requests s' = pending_requests s -> channels s' = channels s ->
  Forall2 (fun i c => slot s i c None) ids cs -> Forall2 (fun i c => slot s' i c None) ids cs.
Proof. intros Hp Hc. unfold slot. by rewrite Hp, Hc. Qed.

(** Writing changes only the writers: any other field is kept. *)
Definition keeps {X A} (g : state -> X) (f : Act state TransportError A) : Prop := forall s, g (f s).2 = g s.
Definition not_writer {X} (g : state -> X) : Prop :=
  (forall w s, g (with_std w s) = g s) /\ (forall x s, g (with_tx x s) = g s).

Lemma bind_keeps {X A B} (g : state -> X) (f : Act state TransportError A) (k : A -> Act state TransportError B) :
  keeps g f -> (forall a, keeps g (k a)) -> keeps g (act_bind f k).
Proof.
  intros Hf Hk s. unfold act_bind. specialize (Hf s). destruct (f s) as [[a|e] s1]; simpl in *; [|done]. by rewrite Hk.
Qed.
Lemma std_do_keeps {X A} (g : state -> X) (f : W -> result A IoError * W) : not_writer g -> keeps g (std_do f).
Proof.
  intros [Hg _] s. unfold std_do. destruct (writable_std s) as [w|]; [|done]. destruct (f w). apply Hg.
Qed.
Lemma write_ack_keeps {X} (g : state -> X) payload : not_writer g -> keeps g (write_ack payload).
Proof.
  intros [_ Hg] s. unfold write_ack. destruct (writable_tx s) as [x|]; [|done]. destruct (send_with_ack x payload). apply Hg.
Qed.

#[local] Hint Resolve bind_keeps std_do_keeps write_ack_keeps : rust.
Lemma write_line_keeps {X} (g : state -> X) o payload : not_writer g -> keeps g (write_line o payload).
Proof.
  intros Hg s. unfold write_line. destruct (is_some _); [|by apply write_ack_keeps]. revert s.
  apply bind_keeps; [destruct o as [i|]; [|done]|]; auto 8 with rust.
Qed.

Lemma server_write_keeps_ids now payload skip s :
  session_id (server_write_str now payload skip s).2 = session_id s /\
  stream_id (server_write_str now payload skip s).2 = stream_id s.
Proof.
  assert (K : forall g : state -> option str, not_writer g -> (forall e s, g (with_store e s) = g s) ->
              keeps g (server_write_str now payload skip)).
  { intros g Hg Hs. apply bind_keeps; [|intros o; by apply write_line_keeps]. clear s. intros s.
    unfold store_for_resume. destruct (_ && _); [|done].
    destruct (session_id s), (stream_id s), (event_store s); try done. destruct (store_event _ _ _ _ _). apply Hs. }
  split; apply K; done.
Qed.

(** ** Lines *)

(** Whatever becomes of the line, the payload is in the event store. *)
Lemma server_write_stores s now payload se st es : session_id s = Some se -> stream_id s = Some st ->
  event_store s = Some es -> trim payload <> [] ->
  event_store (server_write_str now payload false s).2 = Some (store_event es se st now payload).2.
Proof.
  intros Hse Hst Hes Hp. unfold server_write_str, act_bind at 1, store_for_resume.
  rewrite bool_decide_eq_false_2 by done. rewrite Hse, Hst, Hes. cbn [negb andb].
  destruct (store_event es se st now payload) as [r es'].
  by rewrite (write_line_keeps event_store _ payload).
Qed.

Context `{!AsyncWriteLaws W}.

(** A sequence of writes that succeeds appends the pieces in order. *)
Definition put_all (pieces : list bytes) : Act state TransportError unit :=
  foldr (fun b k => do _ <- std_do (fun w => write_all w b); k) (std_do flush) pieces.

Lemma std_do_Ok (f : W -> result unit IoError * W) s s' : std_do f s = (Ok tt, s') ->
  exists w w', writable_std s = Some w /\ f w = (Ok tt, w') /\ s' = with_std (Some w') s.
Proof.
  unfold std_do. destruct (writable_std s) as [w|]; [|done]. destruct (f w) as [[[]|e] w'] eqn:E; [|done].
  intros [= <-]. by exists w, w'.
Qed.

Lemma put_all_spec pieces s s' : put_all pieces s = (Ok tt, s') ->
  exists w w', writable_std s = Some w /\ s' = with_std (Some w') s /\ written w' = written w ++ concat pieces.
Proof.
  revert s; induction pieces as [|b pieces IH]; intros s; simpl.
  - intros (w & w' & Hw & Hf & ->)%std_do_Ok. exists w, w'. by rewrite (flush_Ok _ _ Hf), app_nil_r.
  - unfold act_bind. destruct (std_do _ s) as [[[]|e] s1] eqn:E; [|done]. intros Hp.
    apply std_do_Ok in E as (w & w1 & Hw & Hf & ->). apply IH in Hp as (w1' & w' & Hw1 & -> & Hwr).
    cbn in Hw1. simplify_eq. exists w, w'. split_and!; try done. by rewrite Hwr, (write_all_Ok _ _ _ Hf), app_assoc.
Qed.

Lemma write_line_spec (o : option str) payload s s' w :
  write_line o payload s = (Ok tt, s') -> writable_std s = Some w ->
  exists w', writable_std s' = Some w' /\ event_store s' = event_store s /\
    written w' = written w ++ match o with Some id => id ++ ID_SEPARATOR :: payload ++ [LF] | None => payload ++ [LF] end.
Proof.
  intros Hr Hs. unfold write_line in Hr. rewrite Hs in Hr. cbn [is_some] in Hr.
  assert (Hp : put_all (match o with Some id => [id; [ID_SEPARATOR]; payload; [LF]] | None => [payload; [LF]] end) s = (Ok tt, s')).
  { destruct o; [|exact Hr]. revert Hr. simpl. unfold act_bind. destruct (std_do _ s) as [[]]; [|done].
    by destruct (std_do _ _) as [[]]. }
  apply put_all_spec in Hp as (w1 & w' & Hw1 & -> & Hwr). simplify_eq. exists w'. split_and!; [done..|].
  rewrite Hwr. by destruct o.
Qed.

(** What a successful [write_str] of the server leaves. *)
Lemma server_write_spec s s' w now payload skip :
  writable_std s = Some w -> server_write_str now payload skip s = (Ok tt, s') ->
  exists w', writable_std s' = Some w' /\
  match negb skip && negb (bool_decide (trim payload = [])), session_id s, stream_id s, event_store s with
  | true, Some se, Some st, Some es =>
      event_store s' = Some (store_event es se st now payload).2 /\
      written w' = written w ++ match (store_event es se st now payload).1 with
                                | Ok id => id ++ ID_SEPARATOR :: payload ++ [LF]
                                | Err _ => payload ++ [LF] end
  | _, _, _, _ => event_store s' = event_store s /\ written w' = written w ++ payload ++ [LF]
  end.
Proof.
  intros Hw. unfold server_write_str, act_bind at 1, store_for_resume.
  destruct (_ && _); [|intros (w' & ? & ? & ?)%(write_line_spec None _ _ _ w); [by exists w'|done]].
  destruct (session_id s), (stream_id s), (event_store s) as [es|] eqn:Ees;
    try (intros (w' & ? & He & ?)%(write_line_spec None _ _ _ w); [rewrite Ees in He; by exists w'|done]).
  destruct (store_event es _ _ _ _) as [[id|e] es'] eqn:Es; cbn [fst snd];
    intros (w' & ? & ? & ?)%(write_line_spec _ _ _ _ w); try done; by exists w'.
Qed.
End Facts.
End DispatcherFacts.

Import MessageDispatcher DispatcherFacts.
Section Claims.
Context {RequestId : Type} `{Countable RequestId}.
Context {In Out W T St : Type} `{!AsyncWrite W} `{!AckChannel T} `{!EventStore St}.
Context `{!Message RequestId In} `{!Message RequestId Out}.
Context (show_error : TransportError -> str).

(** C12. The client matches responses to requests, whatever other tasks
    register, deliver, write or close meanwhile: a request gets the first
    response delivered for its id, a closed connection becomes
    [connection_closed], otherwise the request times out; a batch gets one
    answer per request, in the order of the requests, a missing one being an
    error message with the request's id. *)
Theorem client_responses_correlated (s s1 : t RequestId In W T St) (timeout : option N) (payload : str)
  (os : list (op RequestId In W)) :
  WF s -> client_write_str payload true s = (Ok tt, s1) ->
  let ms := from_option (fun x => x) (request_timeout s) timeout in
  (forall m i, is_request_of m i -> to_json (RequestId := RequestId) m = Some payload -> none_registers [i] os ->
     (client_send_message show_error (run os) (Single (M := Out) m) timeout s).1 =
     match first_event i os with
     | Some (Sent r) => Ok (Some (Single r))
     | Some SenderDropped => Err (Sdk (mkSdkError connection_closed None))
     | _ => Err (Sdk (mkSdkError (request_timeout_ms ms) None))
     end) /\
  (forall batch ids, Forall2 is_request_of (List.filter (is_request (RequestId := RequestId)) batch) ids ->
     NoDup ids -> ids <> [] -> batch_to_json (RequestId := RequestId) batch = Some payload -> none_registers ids os ->
     (client_send_message show_error (run os) (Batch (M := Out) batch) timeout s).1 =
     Ok (Some (Batch ((fun i => answer show_error ms (first_event i os) i) <$> ids)))).
Proof.
  intros Hwf Hw ms. split.
  - intros m i Hm Hj Hreg. unfold client_send_message, act_get, act_bind. cbn [fst].
    rewrite (register_message s m i Hm), Hj.
    destruct (write_registered _ s s1 [i] (client_write_framed payload true) Hw) as (s2 & Hw2 & Hp & Hc).
    cbn [serialize ok_or act_lift]. unfold serialize, act_lift, ok_or.
    change (run (Register <$> [i]) s) with (apply s (Register (W := W) i)) in Hw2. rewrite Hw2. cbn [other_tasks act_modify fst].
    unfold other_tasks, act_modify. pose proof (finish_single s s2 i os ms Hwf Hreg Hp Hc) as Hr.
    change (default (request_timeout s) timeout) with ms.
    destruct (receive ms _ _) as [r s3]. simpl in Hr. subst r.
    by destruct (first_event i os) as [[]|].
  - intros batch ids Hb Hnd Hne Hj Hreg. unfold client_send_message.
    destruct (register_all _ ids s Hwf Hb Hnd) as (cs & Hcs & Hslots).
    destruct (write_registered _ s s1 ids (client_write_framed payload true) Hw) as (s2 & Hw2 & Hp & Hc).
    rewrite (request_ids_of _ ids Hb), Hj, bool_decide_eq_false_2 by (by destruct ids).
    unfold act_get. unfold act_bind at 1. unfold act_bind at 1. rewrite Hcs.
    unfold serialize, act_lift, ok_or. unfold act_bind at 1. unfold act_bind at 1. rewrite Hw2.
    apply finish_batch; [by apply (wf_ext (run (Register <$> ids) s)), run_wf|done|done|].
    by apply (slots_ext (run (Register <$> ids) s)).
Qed.

(** The server side: a single request is matched as on the client; a batch
    registers its requests after it was written, so what other tasks delivered
    between the write and the registration ([os0]) is not among its answers,
    which are determined by [os] alone. *)
Theorem server_responses_correlated (s s1 : t RequestId In W T St) (now : N) (timeout : option N) (payload : str)
  (os0 os : list (op RequestId In W)) :
  WF s -> server_write_str now payload false s = (Ok tt, s1) ->
  let ms := from_option (fun x => x) (request_timeout s) timeout in
  (forall m i, is_request_of m i -> to_json (RequestId := RequestId) m = Some payload -> none_registers [i] os ->
     (server_send_message show_error now (run os0) (run os) (Single (M := Out) m) timeout s).1 =
     match outcome ms (first_event i os) with Ok r => Ok (Some (Single r)) | Err e => Err e end) /\
  (forall batch ids, Forall2 is_request_of (List.filter (is_request (RequestId := RequestId)) batch) ids ->
     NoDup ids -> ids <> [] -> batch_to_json (RequestId := RequestId) batch = Some payload -> none_registers ids os ->
     (server_send_message show_error now (run os0) (run os) (Batch (M := Out) batch) timeout s).1 =
     Ok (Some (Batch ((fun i => answer show_error ms (first_event i os) i) <$> ids)))).
Proof.
  intros Hwf Hw ms. split.
  - intros m i Hm Hj Hreg. unfold server_send_message, act_get, act_bind. cbn [fst].
    rewrite (register_message s m i Hm), Hj.
    destruct (write_registered _ s s1 [i] (server_write_framed now payload false) Hw) as (s2 & Hw2 & Hp & Hc).
    unfold serialize, act_lift, ok_or.
    change (run (Register <$> [i]) s) with (apply s (Register (W := W) i)) in Hw2. rewrite Hw2.
    unfold other_tasks, act_modify. pose proof (finish_single s s2 i os ms Hwf Hreg Hp Hc) as Hr.
    change (default (request_timeout s) timeout) with ms.
    destruct (receive ms _ _) as [r s3]. simpl in Hr. by subst r.
  - intros batch ids Hb Hnd Hne Hj Hreg. unfold server_send_message.
    assert (Hwf1 : WF (run os0 s1)).
    { destruct (framed_keeps _ s (server_write_framed now payload false)) as [Hp Hc]. rewrite Hw in Hp, Hc.
      by apply run_wf, (wf_ext s). }
    destruct (register_all _ ids (run os0 s1) Hwf1 Hb Hnd) as (cs & Hcs & Hslots).
    rewrite Hj, (request_ids_of _ ids Hb), bool_decide_eq_false_2 by (by inversion Hb; simplify_eq).
    unfold act_get, serialize, act_lift, ok_or. do 3 (unfold act_bind at 1). rewrite Hw.
    unfold other_tasks at 1, act_modify at 1. do 2 (unfold act_bind at 1). rewrite Hcs.
    apply finish_batch; [by apply run_wf|done..].
Qed.

(** A successful [write_str] on a stream puts exactly one line on it: the
    payload and a newline, preceded on a resumable transport by the id under
    which the event store keeps the payload and a separator.  Nothing else
    reaches the writer, and nothing is stored for a message written with
    [skip_store], a blank one, or without resumability. *)
Theorem write_str_one_line `{!AsyncWriteLaws W} (s s' : t RequestId In W T St) (w : W) (now : N) (payload : str) (skip : bool) :
  writable_std s = Some w ->
  (client_write_str payload skip s = (Ok tt, s') ->
     exists w', s' = with_std (Some w') s /\ written w' = written w ++ payload ++ [LF]) /\
  (server_write_str now payload skip s = (Ok tt, s') ->
     exists w', writable_std s' = Some w' /\
     match negb skip && negb (bool_decide (trim payload = [])), session_id s, stream_id s, event_store s with
     | true, Some se, Some st, Some es =>
         event_store s' = Some (store_event es se st now payload).2 /\
         written w' = written w ++ match (store_event es se st now payload).1 with
                                   | Ok id => id ++ ID_SEPARATOR :: payload ++ [LF]
                                   | Err _ => payload ++ [LF] end
     | _, _, _, _ => event_store s' = event_store s /\ written w' = written w ++ payload ++ [LF]
     end).
Proof.
  intros Hw. split.
  - unfold client_write_str. rewrite Hw. intros (w1 & w' & Hw1 & -> & Hwr)%(put_all_spec [payload; [LF]]).
    simplify_eq. exists w'. split; [done|]. by rewrite Hwr.
  - by apply server_write_spec.
Qed.
End Claims.

(** ** Instances on which the claims are tried *)

(** A memory buffer as the writer, and messages with numeric ids. *)
#[global] Instance buffer_writer : AsyncWrite bytes := {
  write_all := fun w b => (Ok tt, w ++ b);
  flush := fun w => (Ok tt, w);
}.
#[global] Instance buffer_writer_laws : AsyncWriteLaws bytes.
Proof. refine (Build_AsyncWriteLaws _ _ (fun w => w) _ _); simpl; intros; by simplify_eq. Defined.
#[global] Instance closed_ack : AckChannel unit := { send_with_ack := fun tx _ => (Err (s! "channel closed"), tx) }.

Module Demo.
Inductive msg := Request (id : nat) | Response (id : nat) | ErrorResponse (e : RpcError) (id : option nat).
#[global] Instance message : Message nat msg := {
  is_request := fun m => match m with Request _ => true | _ => false end;
  request_id := fun m => match m with Request i | Response i => Some i | ErrorResponse _ i => i end;
  to_json := fun _ => Some (s! "{}");
  batch_to_json := fun _ => Some (s! "[]");
  error_message := ErrorResponse;
}.
Definition fresh : t nat msg bytes unit InMemoryEventStore.t := new [] 60000.
Definition resumable := make_resumable (s! "s1") (s! "st") InMemoryEventStore.default fresh.
Definition steps : list (op nat msg bytes) := [Register 9; Deliver 8 (Response 8); Deliver 7 (Response 7)].

Lemma fresh_wf : WF fresh.
Proof. split; [intros i c Hi|intros i j c Hi]; discriminate Hi. Qed.
Lemma steps_ok (ids : list nat) : 9 ∉ ids -> none_registers ids steps.
Proof. intros Hn i Hi. repeat constructor. simpl. apply bool_decide_eq_false. by intros <-. Qed.
End Demo.

Lemma client_responses_correlated_witness :
  (client_send_message (fun _ => []) (run Demo.steps) (Batch [Demo.Request 7; Demo.Request 5; Demo.Request 8]) None Demo.fresh).1 =
  Ok (Some (Batch [Demo.Response 7; Demo.ErrorResponse (mkRpcError internal_error (Some [])) (Some 5); Demo.Response 8])).
Proof.
  refine (proj2 (client_responses_correlated (fun _ => []) Demo.fresh _ None (s! "[]") Demo.steps Demo.fresh_wf eq_refl)
    [Demo.Request 7; Demo.Request 5; Demo.Request 8] [7; 5; 8] _ _ _ eq_refl _).
  - repeat constructor.
  - decided.
  - discriminate.
  - apply Demo.steps_ok. decided.
Defined.

Lemma server_responses_correlated_witness :
  (server_send_message (fun _ => []) 0 (run [Deliver 7 (Demo.Response 7)]) (run [Deliver 8 (Demo.Response 8)])
     (Batch [Demo.Request 7; Demo.Request 8]) None Demo.fresh).1 =
  Ok (Some (Batch [Demo.ErrorResponse (mkRpcError internal_error (Some [])) (Some 7); Demo.Response 8])).
Proof.
  refine (proj2 (server_responses_correlated (fun _ => []) Demo.fresh _ 0 None (s! "[]") _ [Deliver 8 (Demo.Response 8)] Demo.fresh_wf eq_refl)
    [Demo.Request 7; Demo.Request 8] [7; 8] _ _ _ eq_refl _).
  - repeat constructor.
  - decided.
  - discriminate.
  - intros i _. repeat constructor.
Defined.

Lemma write_str_one_line_witness :
  exists s' w', server_write_str 5 (s! "{}") false Demo.resumable = (Ok tt, s') /\ writable_std s' = Some w' /\
    written w' = s! "s1-.-st-.-5|{}" ++ [LF].
Proof.
  set (s' := (server_write_str 5 (s! "{}") false Demo.resumable).2).
  assert (E : server_write_str 5 (s! "{}") false Demo.resumable = (Ok tt, s')) by (vm_compute; reflexivity).
  destruct (proj2 (write_str_one_line Demo.resumable s' [] 5 (s! "{}") false eq_refl) E) as (w' & Hs & _ & Hw).
  exists s', w'. split; [exact E|]. split; [exact Hs|]. rewrite Hw. vm_compute. reflexivity.
Defined.
