(* ===== verification/Transport.v ===== *)
(** * Transports: cancellation, byte channels and the SSE transport

    Models crates/rust-mcp-transport/src/: utils/cancellation_token.rs,
    utils/writable_channel.rs, utils/readable_channel.rs and sse.rs
    ([SseTransport], the server's end of a stream), on top of the dispatcher.

    A watch or mpsc channel of tokio is its state: the current value or the
    queue, which ends are alive, and the sends still parked. *)
From S2P Require Import Prelude RustStr EventStore Dispatcher.

(** ** Cancellation *)

Module CancellationToken.
(** The [watch::channel(false)] behind a source and its tokens. *)
Record watch := mkWatch { value : bool; sender_alive : bool; receivers : nat }.

(** [CancellationTokenSource::new]: the source and one token. *)
Definition new : watch := mkWatch false true 1.
(** [cancel]: sending fails, and changes nothing, without a receiver. *)
Definition cancel (w : watch) : result unit TransportError * watch :=
  if (receivers w =? 0)%nat then (Err Cancelled, w) else (Ok tt, mkWatch true (sender_alive w) (receivers w)).
(** [token], [Clone] of a token, and dropping one. *)
Definition token (w : watch) : watch := mkWatch (value w) (sender_alive w) (S (receivers w)).
Definition drop_token (w : watch) : watch := mkWatch (value w) (sender_alive w) (pred (receivers w)).
Definition drop_source (w : watch) : watch := mkWatch (value w) false (receivers w).
Definition is_cancelled (w : watch) : bool := value w.

(** [cancelled] over the changes of the channel it awaits: [None] is still
    waiting when they end. *)
Inductive change := Set_ (v : bool) | SenderDrop.
Fixpoint cancelled (current : bool) (changes : list change) : option (result unit TransportError) :=
  if current then Some (Ok tt)
  else match changes with
  | [] => None
  | Set_ v :: r => cancelled v r
  | SenderDrop :: _ => Some (Err Cancelled)
  end.
(** Whether a task selecting on [cancelled] is woken. *)
Definition woken (w : watch) : bool := value w || negb (sender_alive w).
End CancellationToken.

(** ** Writing to an mpsc channel *)

Module WritableChannel.
(** The channel of [write_tx]: its queue, and the sends spawned by [poll_write]
    that wait for room, in the order the channel will admit them. *)
Record chan := mkChan {
  capacity : nat;
  closed : bool;
  queue : list bytes;
  parked : list bytes;
}.

Inductive poll (A : Type) := Ready (a : A) | Pending.
Arguments Ready {A} a.
Arguments Pending {A}.

Definition poll_write (buf : bytes) (c : chan) : poll (result nat IoError) * chan :=
  if closed c then (Ready (Err (mkIoError true (s! "Channel closed"))), c)
  else if (length (queue c) <? capacity c)%nat && bool_decide (parked c = []) then
    (Ready (Ok (length buf)), mkChan (capacity c) false (queue c ++ [buf]) (parked c))
  else (Pending, mkChan (capacity c) false (queue c) (parked c ++ [buf])).
Definition poll_flush (c : chan) : poll (result unit IoError) * chan := (Ready (Ok tt), c).
Definition poll_shutdown (c : chan) : poll (result unit IoError) * chan := (Ready (Ok tt), c).

(** The consumer takes one item and the first parked send gets its place; that
    wakes the writer. *)
Definition recv (c : chan) : option bytes * chan :=
  match queue c with
  | [] => (None, c)
  | x :: q =>
      match parked c with
      | [] => (Some x, mkChan (capacity c) (closed c) q [])
      | p :: ps => (Some x, mkChan (capacity c) (closed c) (q ++ [p]) ps)
      end
  end.
Fixpoint recvs (n : nat) (c : chan) : list bytes * chan :=
  match n with
  | 0 => ([], c)
  | S n => match recv c with
           | (Some x, c) => let '(xs, c) := recvs n c in (x :: xs, c)
           | (None, c) => ([], c)
           end
  end.

(** [write_all] of a non-empty buffer: polls again after each wake-up; before
    the k-th poll the consumer took [schedule k] items.  The items taken, and
    the result, [None] when the schedule ends while it is pending. *)
Fixpoint write_all (buf : bytes) (schedule : list nat) (c : chan) : option (result unit IoError) * list bytes * chan :=
  match schedule with
  | [] => (None, [], c)
  | n :: r =>
      let '(got, c) := recvs n c in
      match poll_write buf c with
      | (Ready (Ok _), c) => (Some (Ok tt), got, c)
      | (Ready (Err e), c) => (Some (Err e), got, c)
      | (Pending, c) => let '(res, more, c) := write_all buf r c in (res, got ++ more, c)
      end
  end.
End WritableChannel.

(** ** Reading from an mpsc channel *)

Module ReadableChannel.
(** The chunks queued for [read_rx], whether its senders are gone, and the
    internal buffer. *)
Record t := mk { read_rx : list bytes; senders_gone : bool; buffer : bytes }.

Inductive poll := Ready (r : result bytes IoError) | Pending.

(** [poll_read] with [room] bytes left: the bytes it puts into the buffer. *)
Definition poll_read (room : nat) (r : t) : poll * t :=
  if negb (bool_decide (buffer r = [])) then
    let to_copy := Nat.min (length (buffer r)) room in
    (Ready (Ok (take to_copy (buffer r))), mk (read_rx r) (senders_gone r) (drop to_copy (buffer r)))
  else match read_rx r with
  | data :: q =>
      let to_copy := Nat.min (length data) room in
      (Ready (Ok (take to_copy data)),
       mk q (senders_gone r) (if (to_copy <? length data)%nat then drop to_copy data else buffer r))
  | [] => if senders_gone r then (Ready (Err (mkIoError true (s! "Channel closed"))), r) else (Pending, r)
  end.

(** A caller that keeps reading with the given room each time. *)
Fixpoint read_all (rooms : list nat) (r : t) : bytes * t :=
  match rooms with
  | [] => ([], r)
  | n :: ns => match poll_read n r with
               | (Ready (Ok b), r) => let '(bs, r) := read_all ns r in (b ++ bs, r)
               | (_, r) => ([], r)
               end
  end.
(** What is still to be read. *)
Definition contents (r : t) : bytes := buffer r ++ concat (read_rx r).
End ReadableChannel.

(** ** The SSE transport of the server *)

Module SseTransport.
Import MessageDispatcher CancellationToken.
Section Transport.
Context {RequestId : Type} `{Countable RequestId}.
Context {In Out W T St : Type} `{!AsyncWrite W} `{!AckChannel T} `{!EventStore St}.
Context `{!Message RequestId In} `{!Message RequestId Out}.
Context (as_single : Messages In -> result In SdkError) (as_batch : Messages In -> result (list In) SdkError).
Context (show_error : TransportError -> str).

Abbreviation Dispatcher := (MessageDispatcher.t RequestId In W T St).

(** [struct SseTransport]: the write half of [read_write_streams] is the
    writer; each [start] makes a watch channel, the reader task of a
    successful one holding a token of it.  The pending requests live in the
    dispatcher, which [start] creates. *)
Record t := mk {
  watches : list watch;
  shutdown_source : option nat;
  is_shut_down : bool;
  read_write_streams : option W;
  receiver_tx : W;
  options_timeout : N;
  message_sender : option Dispatcher;
  error_stream : bool; (* set *)
  readers : list nat; (* the watch each running reader task holds a token of *)
  session_id : option str;
  stream_id : option str;
  event_store : option St;
}.

Definition new (write_tx receiver : W) (timeout : N) : t :=
  mk [] None false (Some write_tx) receiver timeout None false [] None None None.

Definition message_endpoint (endpoint session_id : str) : str := endpoint_with_session_id endpoint session_id.

Definition make_resumable (se st : str) (store : St) (x : t) : t :=
  mk (watches x) (shutdown_source x) (is_shut_down x) (read_write_streams x) (receiver_tx x) (options_timeout x)
     (message_sender x) (error_stream x) (readers x) (Some se) (Some st) (Some store).

Definition set_sender (s : option Dispatcher) (x : t) : t :=
  mk (watches x) (shutdown_source x) (is_shut_down x) (read_write_streams x) (receiver_tx x) (options_timeout x)
     s (error_stream x) (readers x) (session_id x) (stream_id x) (event_store x).
Definition set_receiver (w : W) (x : t) : t :=
  mk (watches x) (shutdown_source x) (is_shut_down x) (read_write_streams x) w (options_timeout x)
     (message_sender x) (error_stream x) (readers x) (session_id x) (stream_id x) (event_store x).
Definition set_watches (ws : list watch) (src : option nat) (x : t) : t :=
  mk ws src (is_shut_down x) (read_write_streams x) (receiver_tx x) (options_timeout x)
     (message_sender x) (error_stream x) (readers x) (session_id x) (stream_id x) (event_store x).
Definition set_down (x : t) : t :=
  mk (watches x) (shutdown_source x) true (read_write_streams x) (receiver_tx x) (options_timeout x)
     (message_sender x) (error_stream x) (readers x) (session_id x) (stream_id x) (event_store x).

(** Replacing the source drops the old one. *)
Definition drop_watch_source (src : option nat) (ws : list watch) : list watch :=
  match src with Some i => alter drop_source i ws | None => ws end.

(** [start]: on success the reader task runs and the dispatcher is set. *)
Definition start : Act t TransportError unit :=
  fun x =>
    let i := length (watches x) in
    let ws := drop_watch_source (shutdown_source x) (watches x) ++ [CancellationToken.new] in
    match read_write_streams x with
    | None =>
        (Err (Internal (s! "SSE streams already taken or transport not initialized")),
         set_watches (alter drop_token i ws) (Some i) x)
    | Some write_tx =>
        let sender := MessageDispatcher.new write_tx (options_timeout x) in
        let sender := match session_id x, stream_id x, event_store x with
                      | Some se, Some st, Some es => MessageDispatcher.make_resumable se st es sender
                      | _, _, _ => sender
                      end in
        (Ok tt, mk ws (Some i) (is_shut_down x) None (receiver_tx x) (options_timeout x) (Some sender) true
                   (i :: readers x) (session_id x) (stream_id x) (event_store x))
    end.

(** A reader task ends: by cancellation, end of input, or an error. *)
Definition reader_ends (i : nat) (x : t) : t :=
  mk (alter drop_token i (watches x)) (shutdown_source x) (is_shut_down x) (read_write_streams x) (receiver_tx x)
     (options_timeout x) (message_sender x) (error_stream x)
     (List.filter (fun j => negb (j =? i)%nat) (readers x)) (session_id x) (stream_id x) (event_store x).

(** [self.message_sender.read().await.as_ref().ok_or(connection_closed)?] *)
Definition with_sender {A} (f : Act Dispatcher TransportError A) : Act t TransportError A :=
  fun x => match message_sender x with
           | None => (Err (Sdk (mkSdkError connection_closed None)), x)
           | Some s => let '(r, s) := f s in (r, set_sender (Some s) x)
           end.
Definition send_message now env0 env (m : Messages Out) timeout :=
  with_sender (server_send_message show_error now env0 env m timeout).
Definition send now env0 env (m : Out) timeout := with_sender (server_send as_single show_error now env0 env m timeout).
Definition send_batch now env0 env (ms : list Out) timeout :=
  with_sender (server_send_batch as_batch show_error now env0 env ms timeout).
Definition write_str (now : N) (payload : str) (skip_store : bool) := with_sender (server_write_str now payload skip_store).

Definition consume_string_payload (payload : str) : Act t TransportError unit :=
  fun x =>
    let '(r, w) := write_all (receiver_tx x) (payload ++ [LF]) in
    match r with
    | Err e => (Err (Io e), set_receiver w x)
    | Ok _ => let '(r, w) := flush w in
              ((match r with Ok _ => Ok tt | Err e => Err (Io e) end), set_receiver w x)
    end.

(** [shut_down]: a failing [cancel] leaves everything as it is. *)
Definition shut_down : Act t TransportError unit :=
  fun x =>
    match shutdown_source x with
    | None => (Ok tt, set_down x)
    | Some i =>
        match watches x !! i with
        | None => (Ok tt, set_down x)
        | Some w =>
            match cancel w with
            | (Err e, _) => (Err e, x)
            | (Ok _, w) => (Ok tt, set_down (set_watches (<[i := drop_source w]> (watches x)) None x))
            end
        end
    end.

Definition pending_request_tx (id : RequestId) (x : t) : option nat * t :=
  match message_sender x with
  | None => (None, x)
  | Some s => let '(c, s) := MessageDispatcher.pending_request_tx id s in (c, set_sender (Some s) x)
  end.

(** One tick of [keep_alive]: [true] when the peer is gone and the task sends
    its disconnect signal and stops. *)
Definition keep_alive_tick (now : N) (x : t) : bool * t :=
  match message_sender x with
  | None => (false, x)
  | Some s =>
      let '(r, s) := server_write_str now [LF] true s in
      (match r with Err (Io e) => broken_pipe e | _ => false end, set_sender (Some s) x)
  end.
End Transport.
Arguments t RequestId {_ _} In W T St.
End SseTransport.

(** ** Facts *)

Module TransportFacts.

Section Channels.
Import WritableChannel.

(** All that was or will be delivered, in order. *)
Definition pipeline (c : chan) : list bytes := queue c ++ parked c.

Lemma recvs_pipeline n c : (recvs n c).1 ++ pipeline (recvs n c).2 = pipeline c /\ closed (recvs n c).2 = closed c.
Proof.
  revert c; induction n as [|n IH]; intros c; simpl; [done|]. unfold recv.
  destruct c as [cap cl [|x q] [|p ps]]; simpl; try done.
  - specialize (IH (mkChan cap cl q [])). destruct (recvs n _) as [xs c']. simpl in *.
    destruct IH as [IH ->]. unfold pipeline in *. simpl in *. by rewrite IH.
  - specialize (IH (mkChan cap cl (q ++ [p]) ps)). destruct (recvs n _) as [xs c']. simpl in *.
    destruct IH as [IH ->]. unfold pipeline in *. simpl in *. by rewrite IH, <-app_assoc.
Qed.

Lemma write_all_copies_spec buf schedule c : closed c = false ->
  exists k, k <= length schedule /\
    (write_all buf schedule c).1.2 ++ pipeline (write_all buf schedule c).2 = pipeline c ++ replicate k buf /\
    ((write_all buf schedule c).1.1 = Some (Ok tt) ->
       1 <= k /\ (forall n r, schedule = n :: r -> (poll_write buf (recvs n c).2).1 = Pending -> 2 <= k)) /\
    ((write_all buf schedule c).1.1 = None -> k = length schedule).
Proof.
  revert c; induction schedule as [|n r IH]; intros c Hc.
  - exists 0. simpl. split_and!; try done. by rewrite app_nil_r.
  - destruct (recvs_pipeline n c) as [Hp Hcl]. cbn [WritableChannel.write_all].
    destruct (recvs n c) as [got c1] eqn:Er. simpl in Hp, Hcl.
    assert (P : poll_write buf c1 = if (length (queue c1) <? capacity c1)%nat && bool_decide (parked c1 = [])
                then (Ready (Ok (length buf)), mkChan (capacity c1) false (queue c1 ++ [buf]) (parked c1))
                else (Pending, mkChan (capacity c1) false (queue c1) (parked c1 ++ [buf])))
      by (unfold poll_write; by rewrite Hcl, Hc).
    rewrite P. destruct (_ && _) eqn:E.
    + exists 1. bool_prop. cbn [fst snd length]. split_and!; [lia| | |done].
      * rewrite <-Hp. unfold pipeline. simpl. by rewrite H0, !app_nil_r, <-app_assoc.
      * intros _. split; [lia|]. intros n' r' [= <- <-]. rewrite Er. cbn [snd]. by rewrite P.
    + destruct (IH (mkChan (capacity c1) false (queue c1) (parked c1 ++ [buf])) eq_refl) as (k & Hk & He & H1 & H2).
      destruct (WritableChannel.write_all buf r _) as [[res more] c2]. simpl in *. exists (S k).
      split_and!; [lia| |intros Hr; destruct (H1 Hr); split; [lia|intros; lia]|intros ->; by rewrite H2].
      rewrite <-app_assoc, He, <-Hp. unfold pipeline. simpl. by rewrite <-!app_assoc.
Qed.

Lemma write_all_once buf c n r : closed c = false ->
  length (queue (recvs n c).2) < capacity (recvs n c).2 -> parked (recvs n c).2 = [] ->
  (write_all buf (n :: r) c).1.1 = Some (Ok tt) /\
  (write_all buf (n :: r) c).1.2 ++ pipeline (write_all buf (n :: r) c).2 = pipeline c ++ [buf].
Proof.
  intros Hc Hl Hp. destruct (recvs_pipeline n c) as [Hq Hcl]. simpl. destruct (recvs n c) as [got c1]. simpl in *.
  unfold poll_write. rewrite Hcl, Hc, (proj2 (Nat.ltb_lt _ _) Hl), bool_decide_eq_true_2 by done. simpl.
  split; [done|]. rewrite <-Hq. unfold pipeline. simpl. by rewrite Hp, !app_nil_r, <-app_assoc.
Qed.
End Channels.

Section Reading.
Import ReadableChannel.

Lemma read_all_contents rooms r : (read_all rooms r).1 ++ contents (read_all rooms r).2 = contents r.
Proof.
  revert r; induction rooms as [|n ns IH]; intros r; simpl; [done|].
  unfold poll_read. destruct r as [q g b]; simpl. case_bool_decide as Hb; simpl.
  - subst b. destruct q as [|d q]; [by destruct g|].
    match goal with |- context [read_all ns ?r'] => specialize (IH r'); destruct (read_all ns r') as [bs r''] end.
    simpl in *. rewrite <-app_assoc, IH. unfold contents. simpl. rewrite app_assoc. f_equal.
    destruct (Nat.ltb_spec (Nat.min (length d) n) (length d)) as [Hl|Hl]; [by rewrite take_drop|].
    rewrite app_nil_r. apply take_ge. lia.
  - match goal with |- context [read_all ns ?r'] => specialize (IH r'); destruct (read_all ns r') as [bs r''] end.
    simpl in *. rewrite <-app_assoc, IH. unfold contents. simpl. by rewrite app_assoc, take_drop.
Qed.

(** Every read with room makes progress while something is left. *)
Lemma poll_read_progress n r : 0 < n -> Forall (fun c => c <> []) (read_rx r) -> contents r <> [] ->
  exists b r', poll_read n r = (Ready (Ok b), r') /\ b <> [] /\ Forall (fun c => c <> []) (read_rx r').
Proof.
  intros Hn Hq Hne. unfold poll_read. destruct r as [q g b]; simpl in *. case_bool_decide as Hb; simpl.
  - subst b. destruct q as [|d q]; [done|]. apply Forall_cons in Hq as [Hd Hq]. eexists _, _. split; [done|].
    split; [|done]. destruct d, n; try done; lia.
  - eexists _, _. split; [done|]. split; [|done]. destruct b, n; try done; lia.
Qed.

Lemma read_all_complete n rooms r : 0 < n -> Forall (fun c => c <> []) (read_rx r) ->
  length (contents r) <= length rooms -> Forall (fun m => m = n) rooms -> (read_all rooms r).1 = contents r.
Proof.
  intros Hn. revert r; induction rooms as [|m ms IH]; intros r Hq Hl Hm; simpl in *.
  - destruct (contents r); [done|simpl in *; lia].
  - apply Forall_cons in Hm as [-> Hm]. destruct (decide (contents r = [])) as [He|Hne].
    + pose proof (read_all_contents (n :: ms) r) as R. rewrite He in R |- *. simpl in R.
      by apply app_eq_nil in R as [-> _].
    + destruct (poll_read_progress n r Hn Hq Hne) as (b & r' & E & Hb & Hq'). rewrite E.
      pose proof (read_all_contents [n] r) as R. simpl in R. rewrite E in R. simpl in R. rewrite app_nil_r in R.
      rewrite <-R in Hl. rewrite length_app in Hl. specialize (IH r' Hq').
      destruct (read_all ms r') as [bs r'']. simpl in *. rewrite <-R. f_equal. apply IH; [|done].
      destruct b; [done|simpl in *; lia].
Qed.
End Reading.

Section Lifecycle.
Import CancellationToken SseTransport.
Context {RequestId : Type} `{Countable RequestId}.
Context {In W T St : Type} `{!AsyncWrite W} `{!AckChannel T} `{!EventStore St}.
Abbreviation transport := (SseTransport.t RequestId In W T St).
Implicit Types (x : transport).

(** The steps of a transport: its two state-changing methods, the end of a
    reader task, and any use of the dispatcher. *)
Inductive step : transport -> transport -> Prop :=
| StepStart x : step x (start x).2
| StepShutDown x : step x (shut_down x).2
| StepReaderEnds x i : i ∈ readers x -> step x (reader_ends i x)
| StepSend x s s' : message_sender x = Some s -> step x (set_sender (Some s') x)
| StepReceiver x w : step x (set_receiver w x).

Definition tokens i x : nat := if bool_decide (i ∈ readers x) then 1 else 0.

Record Inv x : Prop := {
  inv_tokens i w : watches x !! i = Some w -> receivers w = tokens i x;
  inv_readers i : i ∈ readers x -> i < length (watches x);
  inv_source i : shutdown_source x = Some i -> S i = length (watches x);
  inv_woken i w : watches x !! i = Some w -> shutdown_source x <> Some i -> woken w = true;
  inv_started : read_write_streams x = None <-> watches x <> [];
  inv_sender : message_sender x = None <-> watches x = [];
}.

Lemma transport_new_inv w r timeout : Inv (new w r timeout).
Proof. split; simpl; try done. intros i Hi. by apply elem_of_nil in Hi. Qed.

Lemma woken_drop_source w : woken (drop_source w) = true.
Proof. unfold woken. simpl. by rewrite orb_true_r. Qed.

Lemma drop_watch_source_lookup src (ws : list watch) i w :
  drop_watch_source src ws !! i = Some w ->
  exists w0, ws !! i = Some w0 /\ receivers w = receivers w0 /\
    ((src = Some i /\ woken w = true) \/ (src <> Some i /\ w = w0)).
Proof.
  destruct src as [j|]; simpl; [|intros ->; exists w; auto].
  destruct (decide (j = i)) as [->|Hne].
  - rewrite list_lookup_alter_eq. intros (w0 & -> & ->)%fmap_Some. exists w0. split_and!; try done.
    left. split; [done|apply woken_drop_source].
  - rewrite list_lookup_alter_ne by done. intros ->. exists w. split_and!; try done. right. split; [congruence|done].
Qed.

Lemma drop_watch_source_length src (ws : list watch) : length (drop_watch_source src ws) = length ws.
Proof. destruct src; simpl; [|done]. apply length_alter. Qed.

Lemma tokens_unused i x : Inv x -> length (watches x) <= i -> tokens i x = 0.
Proof.
  intros HI Hi. unfold tokens. case_bool_decide as Hj; [|done]. apply (inv_readers x HI) in Hj. lia.
Qed.

Lemma start_watch_lookup x (last : watch) i w :
  (drop_watch_source (shutdown_source x) (watches x) ++ [last]) !! i = Some w ->
  (i = length (watches x) /\ w = last) \/
  (i < length (watches x) /\ woken w = true \/ i < length (watches x) /\ shutdown_source x <> Some i /\ watches x !! i = Some w) /\
  exists w0, watches x !! i = Some w0 /\ receivers w = receivers w0.
Proof.
  intros Hl. destruct (decide (i < length (watches x))) as [Hi|Hi].
  - right. rewrite lookup_app_l in Hl by (by rewrite drop_watch_source_length).
    apply drop_watch_source_lookup in Hl as (w0 & Hw & Hr & Hc). split; [|by exists w0].
    destruct Hc as [[_ ?]|[? ->]]; auto.
  - left. rewrite lookup_app_r in Hl by (rewrite drop_watch_source_length; lia).
    rewrite drop_watch_source_length in Hl. destruct (i - length (watches x)) as [|n] eqn:E; [|done].
    simpl in Hl. simplify_eq. split; [lia|done].
Qed.

Lemma transport_start_inv x : Inv x -> Inv (start x).2.
Proof.
  intros HI. unfold start. set (n := length (watches x)).
  assert (Hlen : forall last : watch, length (drop_watch_source (shutdown_source x) (watches x) ++ [last]) = S n).
  { intros last. rewrite length_app, drop_watch_source_length. simpl. lia. }
  destruct (read_write_streams x) as [tx|] eqn:Erw; simpl.
  - split; cbn [watches readers shutdown_source read_write_streams message_sender].
    + intros i w [[-> ->]|[_ (w0 & Hw0 & ->)]]%start_watch_lookup; unfold tokens; cbn [readers].
      * by rewrite bool_decide_eq_true_2 by left.
      * rewrite (inv_tokens x HI i w0 Hw0). unfold tokens. apply lookup_lt_Some in Hw0.
        by rewrite (bool_decide_ext (i ∈ n :: readers x) (i ∈ readers x)) by (rewrite elem_of_cons; subst n; naive_solver lia).
    + intros i. rewrite Hlen. intros [->|Hi]%elem_of_cons; [lia|]. apply (inv_readers x HI) in Hi. lia.
    + intros i [= <-]. by rewrite Hlen.
    + intros i w [[-> ->]|[[[_ ?]|(_ & Hs & Hw)] _]]%start_watch_lookup; [done|done|]. intros _. by apply (inv_woken x HI i).
    + split; [|done]. intros _. by destruct (drop_watch_source _ _).
    + split; [done|]. by destruct (drop_watch_source _ _).
  - assert (Ealter : alter drop_token n (drop_watch_source (shutdown_source x) (watches x) ++ [CancellationToken.new])
                     = drop_watch_source (shutdown_source x) (watches x) ++ [drop_token CancellationToken.new]).
    { rewrite alter_app_r_alt by (rewrite drop_watch_source_length; subst n; lia).
      rewrite drop_watch_source_length. subst n. by rewrite Nat.sub_diag. }
    rewrite Ealter. assert (Hne : watches x <> []) by (by apply (inv_started x HI)).
    split; cbn [watches readers shutdown_source read_write_streams message_sender set_watches].
    + intros i w [[-> ->]|[_ (w0 & Hw0 & ->)]]%start_watch_lookup; [|by apply (inv_tokens x HI)].
      symmetry. by apply (tokens_unused _ x HI).
    + intros i. rewrite Hlen. intros Hi%(inv_readers x HI). lia.
    + intros i [= <-]. by rewrite Hlen.
    + intros i w [[-> ->]|[[[_ ?]|(_ & Hs & Hw)] _]]%start_watch_lookup; [done|done|]. intros _. by apply (inv_woken x HI i).
    + rewrite Erw. split; [|done]. intros _. by destruct (drop_watch_source _ _).
    + split; [|by destruct (drop_watch_source _ _)]. intros Hm. by apply (inv_sender x HI) in Hm.
Qed.

Lemma shut_down_inv x : Inv x -> Inv (shut_down x).2.
Proof.
  intros HI. unfold shut_down. destruct (shutdown_source x) as [i|] eqn:Es.
  2: { destruct HI. split; simpl; try done. }
  destruct (watches x !! i) as [w|] eqn:Ew; [|apply lookup_ge_None in Ew; apply (inv_source x HI) in Es; lia].
  unfold cancel. destruct (Nat.eqb_spec (receivers w) 0) as [|Hr]; simpl; [done|].
  split; cbn [watches readers shutdown_source read_write_streams message_sender set_down set_watches].
  - intros j v. rewrite list_lookup_insert_Some. intros [(<- & <- & _)|[_ Hv]]; simpl; by apply (inv_tokens x HI).
  - intros j. rewrite length_insert. apply (inv_readers x HI).
  - done.
  - intros j v. rewrite list_lookup_insert_Some. intros [(<- & <- & _)|[Hne Hv]] _; [apply woken_drop_source|].
    apply (inv_woken x HI j); [done|]. rewrite Es. congruence.
  - rewrite (inv_started x HI). destruct (watches x), i; naive_solver.
  - rewrite (inv_sender x HI). destruct (watches x), i; naive_solver.
Qed.

Lemma reader_ends_inv x i : i ∈ readers x -> Inv x -> Inv (reader_ends i x).
Proof.
  intros Hi HI. split; cbn [watches readers shutdown_source read_write_streams message_sender reader_ends].
  - intros j w Hw. unfold tokens. cbn [readers reader_ends].
    destruct (decide (i = j)) as [->|Hne].
    + rewrite list_lookup_alter_eq in Hw. apply fmap_Some in Hw as (w0 & Hw0 & ->). simpl.
      rewrite (inv_tokens x HI j w0 Hw0). unfold tokens. rewrite (bool_decide_eq_true_2 (j ∈ readers x)) by done.
      rewrite bool_decide_eq_false_2; [done|]. intros [_ Hj]%filter_In_iff. bool_prop. done.
    + rewrite list_lookup_alter_ne in Hw by done. rewrite (inv_tokens x HI j w Hw). unfold tokens.
      apply eq_sym. erewrite bool_decide_ext; [done|]. rewrite filter_In_iff, negb_true_iff, Nat.eqb_neq. naive_solver.
  - intros j [Hj _]%filter_In_iff. rewrite length_alter. by apply (inv_readers x HI).
  - intros j. rewrite length_alter. apply (inv_source x HI).
  - intros j w Hw Hs. destruct (decide (i = j)) as [->|Hne].
    + rewrite list_lookup_alter_eq in Hw. apply fmap_Some in Hw as (w0 & Hw0 & ->). change (woken w0 = true). by apply (inv_woken x HI j).
    + rewrite list_lookup_alter_ne in Hw by done. by apply (inv_woken x HI j).
  - rewrite (inv_started x HI). rewrite <-!length_zero_iff_nil, length_alter. done.
  - rewrite (inv_sender x HI). rewrite <-!length_zero_iff_nil, length_alter. done.
Qed.

Lemma transport_step_inv x x' : step x x' -> Inv x -> Inv x'.
Proof.
  intros [y|y|y i Hi|y s s' Hs|y w] HI.
  - by apply transport_start_inv.
  - by apply shut_down_inv.
  - by apply reader_ends_inv.
  - destruct HI. split; simpl; try done. split; [done|]. intros Hw. by rewrite (proj2 inv_sender0 Hw) in Hs.
  - destruct HI. by split.
Qed.

Lemma transport_reachable_inv w r timeout x : rtc step (new w r timeout) x -> Inv x.
Proof. intros Hr. eapply (rtc_invariant step Inv); [|exact Hr|apply transport_new_inv]. eauto using transport_step_inv. Qed.

Lemma shut_down_sender x : message_sender (shut_down x).2 = message_sender x.
Proof.
  unfold shut_down. destruct (shutdown_source x) as [i|]; [|done].
  destruct (watches x !! i) as [v|]; [|done]. unfold cancel. by destruct (_ =? _)%nat.
Qed.
End Lifecycle.
End TransportFacts.

(** ** Claims *)

Import TransportFacts.

(** Writing to a channel: everything accepted is delivered in order, and a
    write that finds room at once delivers its bytes exactly once.  A write
    whose first poll finds the channel full delivers them at least twice when
    it succeeds: each such poll leaves a spawned send behind, and the write is
    polled again with the same bytes. *)
Theorem writable_channel_delivery (buf : bytes) (n : nat) (schedule : list nat) (c : WritableChannel.chan) :
  WritableChannel.closed c = false ->
  let '(res, got, c') := WritableChannel.write_all buf (n :: schedule) c in
  exists k, k <= S (length schedule) /\ got ++ pipeline c' = pipeline c ++ replicate k buf /\
    match (WritableChannel.poll_write buf (WritableChannel.recvs n c).2).1 with
    | WritableChannel.Ready _ => res = Some (Ok tt) /\ k = 1
    | WritableChannel.Pending => res = Some (Ok tt) -> 2 <= k
    end.
Proof.
  intros Hc. destruct (write_all_copies_spec buf (n :: schedule) c Hc) as (k & Hk & He & Hok & _).
  destruct (WritableChannel.write_all buf (n :: schedule) c) as [[res got] c'] eqn:E. simpl in He, Hok.
  destruct (WritableChannel.poll_write buf _) as [[r|] c2] eqn:Ep; simpl.
  - exists 1. split; [lia|]. destruct (recvs_pipeline n c) as [_ Hcl].
    unfold WritableChannel.poll_write in Ep. rewrite Hcl, Hc in Ep. destruct (_ && _) eqn:Er; [|done]. bool_prop.
    destruct (write_all_once buf c n schedule) as [H1 H2]; [done..|]. rewrite E in H1, H2. simpl in *. by subst.
  - exists k. split; [done|]. split; [done|]. intros Hr. destruct (Hok Hr) as [_ H2].
    apply (H2 n schedule eq_refl). by rewrite Ep.
Qed.

Lemma writable_channel_delivery_witness :
  (let '(_, got, c) := WritableChannel.write_all (s! "ab") [0; 2] (WritableChannel.mkChan 1 false [s! "x"] []) in
   got ++ WritableChannel.queue c) = [s! "x"; s! "ab"; s! "ab"] /\
  exists k, k <= 1 /\ [s! "ab"] = replicate k (s! "ab").
Proof.
  split; [vm_compute; reflexivity|].
  destruct (writable_channel_delivery (s! "ab") 0 [] (WritableChannel.mkChan 1 false [] []) eq_refl) as (k & Hk & He & _).
  exists k. split; [exact Hk|exact He].
Defined.

(** Reading from a channel: whatever room each read offers, the bytes read
    followed by what is left are the bytes sent; and reading with some room as
    often as there are bytes returns all of them. *)
Theorem readable_channel_stream (rooms : list nat) (n : nat) (r : ReadableChannel.t) :
  (ReadableChannel.read_all rooms r).1 ++ ReadableChannel.contents (ReadableChannel.read_all rooms r).2 = ReadableChannel.contents r /\
  (0 < n -> Forall (fun c => c <> []) (ReadableChannel.read_rx r) -> length (ReadableChannel.contents r) <= length rooms ->
   Forall (fun m => m = n) rooms -> (ReadableChannel.read_all rooms r).1 = ReadableChannel.contents r).
Proof. split; [apply read_all_contents|apply read_all_complete]. Qed.

Lemma readable_channel_stream_witness :
  (ReadableChannel.read_all [3; 3; 3; 3; 3; 3] (ReadableChannel.mk [s! "abcd"; s! "ef"] false [])).1 = s! "abcdef".
Proof.
  apply (proj2 (readable_channel_stream [3; 3; 3; 3; 3; 3] 3 (ReadableChannel.mk [s! "abcd"; s! "ef"] false [])));
    [lia|repeat constructor; discriminate|simpl; lia|repeat constructor].
Defined.

Section Claims.
Import CancellationToken SseTransport.
Context {RequestId : Type} `{Countable RequestId}.
Context {In W T St : Type} `{!AsyncWrite W} `{!AckChannel T} `{!EventStore St}.
Implicit Types (x : SseTransport.t RequestId In W T St).

(** Whether [shut_down] can tell a reader: there is none to tell, or it runs. *)
Definition can_stop x : bool :=
  match shutdown_source x with Some i => bool_decide (i ∈ readers x) | None => true end.

(** C19. The life of an SSE transport, in any reachable state: [start] succeeds
    exactly when it was never called before; until then every send fails with
    [connection_closed]; a second [start] fails but stops the reader of the
    first.  [shut_down] succeeds exactly when no cancellation source is held or
    its reader still runs, and then marks the transport and wakes every reader;
    otherwise - the reader ended by itself, or a second [start] replaced the
    source - it reports the error and changes nothing, so the transport never
    counts as shut down. *)
Theorem sse_transport_lifecycle (w r : W) (timeout : N) x :
  rtc step (new w r timeout) x ->
  ((start x).1 = Ok tt <-> watches x = []) /\
  (watches x = [] -> forall A (f : Act _ TransportError A), with_sender f x = (Err (Sdk (mkSdkError connection_closed None)), x)) /\
  (forall i, i ∈ readers x -> exists v, watches (start x).2 !! i = Some v /\ woken v = true) /\
  (if can_stop x
   then (shut_down x).1 = Ok tt /\ is_shut_down (shut_down x).2 = true /\
        forall i, i ∈ readers x -> exists v, watches (shut_down x).2 !! i = Some v /\ woken v = true
   else shut_down x = (Err Cancelled, x)).
Proof.
  intros Hr%transport_reachable_inv. pose proof (transport_start_inv x Hr) as Hs. pose proof (shut_down_inv x Hr) as Hd. split_and!.
  - unfold start. destruct (read_write_streams x) as [tx|] eqn:E; simpl.
    + split; [intros _|done]. destruct (decide (watches x = [])) as [|Hne]; [done|].
      apply (inv_started x Hr) in Hne. congruence.
    + split; [done|]. by apply (inv_started x Hr) in E.
  - intros Hw A f. unfold with_sender. by rewrite (proj2 (inv_sender x Hr) Hw).
  - intros i Hi. apply (inv_readers x Hr) in Hi as Hl.
    assert (Hi' : i ∈ readers (start x).2) by (unfold start; destruct (read_write_streams x); simpl; [by right|done]).
    assert (Hsrc : shutdown_source (start x).2 = Some (length (watches x))) by (unfold start; by destruct (read_write_streams x)).
    apply (inv_readers _ Hs) in Hi' as [v Hv]%lookup_lt_is_Some_2. exists v. split; [done|].
    apply (inv_woken _ Hs i); [done|]. rewrite Hsrc. intros [= ?]. lia.
  - unfold can_stop, shut_down in *. destruct (shutdown_source x) as [i|] eqn:Es.
    2: { split_and!; [done..|]. intros i [v Hv]%(inv_readers x Hr)%lookup_lt_is_Some_2. exists v. split; [done|].
         apply (inv_woken x Hr i); [done|]. by rewrite Es. }
    destruct (watches x !! i) as [v|] eqn:Ev; [|apply lookup_ge_None in Ev; apply (inv_source x Hr) in Es; lia].
    pose proof (inv_tokens x Hr i v Ev) as Ht. unfold tokens in Ht. unfold cancel in *. rewrite Ht in *.
    case_bool_decide as Hir; [|done]. cbn [Nat.eqb fst snd] in *. split_and!; [done..|].
    intros j Hj. assert (Hj' : j < length (watches x)) by (by apply (inv_readers x Hr)).
    cbn [watches set_down set_watches] in *. destruct (decide (i = j)) as [->|Hne].
    + rewrite list_lookup_insert_eq by done. eexists. split; [done|]. apply woken_drop_source.
    + rewrite list_lookup_insert_ne by done. apply lookup_lt_is_Some_2 in Hj' as [u Hu]. exists u. split; [done|].
      apply (inv_woken x Hr j); [done|]. rewrite Es. congruence.
Qed.

(** A stream that is gone still records what the server sends: shutting
    the transport down keeps its dispatcher, and [write_str] stores the payload
    in the event store whether or not the line then reaches the writer. *)
Theorem shut_down_keeps_event_sink x (now : N) (payload : str) s es se st :
  message_sender x = Some s -> MessageDispatcher.session_id s = Some se -> MessageDispatcher.stream_id s = Some st ->
  MessageDispatcher.event_store s = Some es -> trim payload <> [] ->
  let x' := (shut_down x).2 in
  exists s', message_sender (write_str now payload false x').2 = Some s' /\
    MessageDispatcher.event_store s' = Some (store_event es se st now payload).2.
Proof.
  intros Hx Hse Hst Hes Hp x'. unfold write_str, with_sender.
  unfold x'. rewrite shut_down_sender, Hx.
  pose proof (DispatcherFacts.server_write_stores s now payload se st es Hse Hst Hes Hp) as K.
  destruct (MessageDispatcher.server_write_str now payload false s) as [r s']. by exists s'.
Qed.
End Claims.

Module Demo.
Import SseTransport.
Definition fresh : t nat Dispatcher.Demo.msg bytes unit InMemoryEventStore.t := new [] [] 60000.
Definition resumable := (start (make_resumable (s! "s1") (s! "st") InMemoryEventStore.default fresh)).2.
End Demo.

Lemma sse_transport_lifecycle_witness :
  (SseTransport.start Demo.fresh).1 = Ok tt /\
  SseTransport.shut_down (SseTransport.start (SseTransport.start Demo.fresh).2).2
  = (Err Cancelled, (SseTransport.start (SseTransport.start Demo.fresh).2).2).
Proof.
  split.
  - apply (proj1 (sse_transport_lifecycle [] [] 60000 Demo.fresh (rtc_refl _ _))). reflexivity.
  - apply (sse_transport_lifecycle [] [] 60000 (SseTransport.start (SseTransport.start Demo.fresh).2).2).
    eapply rtc_l; [apply StepStart|]. eapply rtc_l; [apply StepStart|]. apply rtc_refl.
Defined.

Lemma shut_down_keeps_event_sink_witness :
  exists s', SseTransport.message_sender (SseTransport.write_str 5 (s! "{}") false (SseTransport.shut_down Demo.resumable).2).2 = Some s'.
Proof.
  destruct (SseTransport.message_sender Demo.resumable) as [s|] eqn:E; [|discriminate E].
  injection E as <-.
  destruct (shut_down_keeps_event_sink Demo.resumable 5 (s! "{}") _ InMemoryEventStore.default (s! "s1") (s! "st")
    eq_refl eq_refl eq_refl eq_refl) as (s' & Hs' & _); [discriminate|]. exists s'. exact Hs'.
Defined.
