(* ===== verification/SseBody.v ===== *)
(** * From the transport's lines to the client's events

    Models the body stream of [create_sse_stream] in
    crates/rust-mcp-sdk/src/mcp_http/http_utils.rs: each line the transport
    writes becomes one SSE frame, the event id of a resumable stream being cut
    off at the separator; and the stream of [handle_sse_connection], which has
    no ids.  The claims join the dispatcher (Dispatcher.v), these frames and the
    client's parser (Sse.v). *)
From S2P Require Import Prelude RustStr Sse EventStore Dispatcher.

(** [is_empty_sse_message] *)
Definition is_empty_sse_message (sse_payload : str) : bool :=
  bool_decide (sse_payload = []) || bool_decide (trim sse_payload = [":"%char]).

(** The event for one line read, its newline included. *)
Definition line_event (resumability_enabled : bool) (line : str) : SseEvent.t :=
  let trimmed_line := trim_end_matches LF line in
  if is_empty_sse_message trimmed_line then SseEvent.default
  else
    let '(event_id, message) :=
      match resumability_enabled, split_once_char ID_SEPARATOR trimmed_line with
      | true, Some (id, msg) => (Some id, msg)
      | _, _ => (None, trimmed_line)
      end in
    match event_id with
    | Some id => SseEvent.with_id (SseEvent.with_data SseEvent.default message) id
    | None => SseEvent.with_data SseEvent.default message
    end.

(** What the body holds once the transport has written these lines and not
    closed yet; [read_line] fails on a line that is not UTF-8, and goes on. *)
Inductive frame := Frame (e : SseEvent.t) | ReadError.
Definition body_frames (event : str -> SseEvent.t) (written : bytes) : list frame :=
  (fun l => if utf8_valid l then Frame (event l) else ReadError) <$> (SseFacts.split_lf written).1.

(** The bytes the client receives: an error ends the body. *)
Fixpoint body_bytes (fs : list frame) : bytes :=
  match fs with
  | Frame e :: r => SseEvent.as_bytes e ++ body_bytes r
  | _ => []
  end.

(** [initial_sse_event] and the plain frames of [handle_sse_connection]. *)
Definition initial_sse_event (endpoint : str) : SseEvent.t :=
  SseEvent.with_data (SseEvent.with_event SseEvent.default (s! "endpoint")) endpoint.
Definition plain_event (line : str) : SseEvent.t :=
  SseEvent.with_data SseEvent.default (trim_end_matches LF line).
Definition sse_connection_body (endpoint : str) (written : bytes) : bytes :=
  SseEvent.as_bytes (initial_sse_event endpoint) ++ body_bytes (body_frames plain_event written).

(** ** Facts *)

Module SseBodyFacts.
Import SseFacts.

Lemma trim_end_LF (l : str) : LF ∉ l -> trim_end_matches LF (l ++ [LF]) = l.
Proof.
  intros Hl. unfold trim_end_matches. rewrite rev_unit.
  change (trim_start_matches LF (LF :: rev l)) with (trim_start_matches LF (rev l)).
  destruct (rev l) as [|c r] eqn:E; [by rewrite <-(rev_involutive l), E|].
  simpl. rewrite decide_False; [by rewrite <-E, rev_involutive|].
  intros ->. apply Hl. rewrite <-(rev_involutive l), E. simpl. apply elem_of_app. right. left.
Qed.

Lemma lines_single (l : str) : LF ∉ l -> l <> [] -> lines l = [l].
Proof.
  intros Hl Hne. assert (G : forall cur, lines_go cur l = match cur ++ l with [] => [] | x => [x] end).
  { clear Hne. induction l as [|c l IH]; intros cur; simpl; [by rewrite app_nil_r; destruct cur|].
    apply not_elem_of_cons in Hl as [Hc Hl]. rewrite decide_False by done. by rewrite IH, <-app_assoc. }
  unfold lines. rewrite G. by destruct l.
Qed.

(** A message text: one line of UTF-8, not blank. *)
Definition message_text (m : str) : Prop := line_text m /\ m <> [] /\ trim m <> [":"%char].

Lemma received_message (id : option str) m : message_text m ->
  received (SseEvent.mk None (Some m) id None) = [SseEvent.mk None (Some (m ++ [LF])) id None].
Proof.
  intros [[Hu Hl] [Hne _]]. unfold received, SseEvent.fmt_lines, SseEvent.data_lines. simpl.
  rewrite Hu. unfold received_data. rewrite (lines_single m Hl Hne). simpl.
  rewrite bool_decide_eq_false_2 by done. by destruct id.
Qed.

Lemma body_bytes_frames (f : str -> SseEvent.t) (ls : list str) :
  Forall (fun l => utf8_valid l = true) ls ->
  body_bytes ((fun l => if utf8_valid l then Frame (f l) else ReadError) <$> ls) = concat ((fun l => SseEvent.to_string (f l)) <$> ls).
Proof. induction 1 as [|l ls Hl _ IH]; simpl; [done|]. rewrite Hl. simpl. by f_equal. Qed.

Lemma line_text_app a b : line_text a -> line_text b -> line_text (a ++ b).
Proof.
  intros [Ha La] [Hb Lb]. split; [by rewrite utf8_valid_app|]. by rewrite elem_of_app; intros [?|?].
Qed.
Lemma graphic_line_text s : Forall (fun c => graphic c = true) s -> line_text s.
Proof.
  intros Hs. split.
  - apply utf8_valid_ascii. eapply Forall_impl; [exact Hs|]. intros c Hc. apply graphic_spec in Hc.
    unfold utf8_1. apply N.ltb_lt. lia.
  - intros Hin. rewrite Forall_forall in Hs. apply Hs in Hin. done.
Qed.

Lemma line_utf8 l : line_text l -> utf8_valid (l ++ [LF]) = true.
Proof. intros [Hu _]. by rewrite utf8_valid_app. Qed.

(** An id the frames can cut off. *)
Definition frame_id (i : str) : Prop := Forall (fun c => graphic c = true) i /\ (ID_SEPARATOR ∉ i).

(** A line with the separator is never taken for a keep-alive. *)
Lemma separator_not_empty l : ID_SEPARATOR ∈ l -> is_empty_sse_message l = false.
Proof.
  intros Hl. apply orb_false_iff. split; apply bool_decide_eq_false.
  - intros ->. by apply elem_of_nil in Hl.
  - intros Ht. apply (trim_keeps ID_SEPARATOR) in Hl; [|done]. rewrite Ht in Hl. by apply list_elem_of_singleton in Hl.
Qed.

Lemma line_event_message i m : frame_id i -> line_text m ->
  line_event true ((i ++ ID_SEPARATOR :: m) ++ [LF]) = SseEvent.mk None (Some m) (Some i) None.
Proof.
  intros [[_ Hg]%graphic_line_text Hi] [_ Hm]. unfold line_event. rewrite trim_end_LF.
  2: { rewrite elem_of_app, elem_of_cons. intros [?|[?|?]]; done. }
  rewrite separator_not_empty by (apply elem_of_app; right; left). by rewrite split_once_char_app.
Qed.

Lemma line_event_plain r m : message_text m -> (ID_SEPARATOR ∉ m \/ r = false) ->
  line_event r (m ++ [LF]) = SseEvent.mk None (Some m) None None.
Proof.
  intros [[_ Hm] [Hne Hc]] Hsep. unfold line_event. rewrite trim_end_LF by done.
  replace (is_empty_sse_message m) with false
    by (symmetry; apply orb_false_iff; split; by apply bool_decide_eq_false).
  destruct r; [|done]. destruct Hsep as [Hs|]; [|done].
  unfold split_once_char. replace (position _ m) with (@None nat); [done|].
  symmetry. apply position_None, Forall_forall. intros c Hc'. apply bool_decide_eq_false. by intros ->.
Qed.

(** The frames of a sequence of lines, and what the client parses from them. *)
Lemma body_of_lines (f : str -> SseEvent.t) (ls : list str) : Forall line_text ls ->
  body_bytes (body_frames f (concat ((fun l => l ++ [LF]) <$> ls)))
  = concat (SseEvent.to_string <$> ((fun l => f (l ++ [LF])) <$> ls)).
Proof.
  intros Hls. unfold body_frames.
  rewrite <-(app_nil_r (concat _)), split_lf_concat.
  2: { apply Forall_fmap. eapply Forall_impl; [exact Hls|]. intros l [_ Hl]. by exists l. }
  cbn [fst split_lf]. rewrite app_nil_r, body_bytes_frames, <-!list_fmap_compose.
  - done.
  - apply Forall_fmap. eapply Forall_impl; [exact Hls|]. intros l Hl. by apply line_utf8.
Qed.

Lemma parse_events (evs : list SseEvent.t) (chunks : list bytes) : Forall wf_event evs ->
  concat chunks = concat (SseEvent.to_string <$> evs) ->
  (SseParser.feed SseParser.new chunks).2 = evs ≫= received.
Proof.
  intros Hwf Hc. rewrite feed_concat, Hc, process_new_chunk_eq. simpl.
  rewrite <-stream_lines_concat, <-(app_nil_r (concat _)), split_lf_concat by (by apply stream_is_lines).
  simpl. rewrite app_nil_r. pose proof (push_stream evs [] Hwf (or_introl eq_refl)) as H.
  by destruct (foldl SseParser.push_line ([], []) (stream_lines evs)).
Qed.

Lemma wf_message (i : option str) m : line_text m -> (forall v, i = Some v -> Forall (fun c => graphic c = true) v) ->
  wf_event (SseEvent.mk None (Some m) i None).
Proof.
  intros [Hm _] Hi. split_and!; simpl; try done.
  - intros v Hv. apply Hi in Hv. split; [by apply graphic_line_text|by apply trimmed_graphic].
  - by intros d [= <-].
Qed.
End SseBodyFacts.

(** ** Claims *)

Import SseBodyFacts.

Section Claims.
Context {RequestId : Type} `{Countable RequestId}.
Context {In W T : Type} `{!AsyncWrite W} `{!AsyncWriteLaws W} `{!AckChannel T}.
Import MessageDispatcher DispatcherFacts EventStoreFacts.
Abbreviation generate_event_id := InMemoryEventStore.generate_event_id.
Abbreviation dispatcher := (MessageDispatcher.t RequestId In W T InMemoryEventStore.t).
Implicit Types (d : dispatcher).

(** The server sends these messages one after the other, at these times. *)
Definition send_all (msgs : list (N * str)) : Act dispatcher TransportError unit :=
  foldr (fun '(now, p) k => do _ <- server_write_str now p false; k) (act_ret tt) msgs.

Definition id_of (se st : str) (nm : N * str) : str := generate_event_id se st nm.1.
Definition line_of (se st : str) (nm : N * str) : str := id_of se st nm ++ Dispatcher.ID_SEPARATOR :: nm.2.
Definition store_op (se st : str) (nm : N * str) : InMemoryEventStore.op := InMemoryEventStore.Store se st nm.1 nm.2.

Lemma send_all_spec se st msgs d d' w es :
  session_id d = Some se -> stream_id d = Some st -> event_store d = Some es -> writable_std d = Some w ->
  Forall (fun nm => trim nm.2 <> []) msgs -> send_all msgs d = (Ok tt, d') ->
  exists w', writable_std d' = Some w' /\
    written w' = written w ++ concat ((fun l => l ++ [LF]) <$> (line_of se st <$> msgs)) /\
    event_store d' = Some (InMemoryEventStore.run es (store_op se st <$> msgs)).
Proof.
  revert d w es; induction msgs as [|[now p] msgs IH]; intros d w es Hse Hst Hes Hw Hp Hs.
  - injection Hs as <-. exists w. by rewrite app_nil_r.
  - apply Forall_cons in Hp as [Hp0 Hp]. simpl in Hs, Hp0. unfold act_bind in Hs.
    destruct (server_write_str now p false d) as [[[]|e] d1] eqn:E; [|done].
    destruct (server_write_keeps_ids now p false d) as [Hse1 Hst1]. rewrite E in Hse1, Hst1. simpl in Hse1, Hst1.
    destruct (server_write_spec d d1 w now p false Hw E) as (w1 & Hw1 & Hspec).
    rewrite Hse, Hst, Hes, bool_decide_eq_false_2 in Hspec by done. simpl in Hspec. destruct Hspec as [Hes1 Hwr].
    destruct (IH d1 w1 _ (eq_trans Hse1 Hse) (eq_trans Hst1 Hst) Hes1 Hw1 Hp Hs) as (w' & Hw' & Hwr' & Hes').
    exists w'. split_and!; [done| |done]. rewrite Hwr', Hwr, <-app_assoc. f_equal.
    unfold line_of, id_of. cbn [fmap list_fmap concat fst snd].
    rewrite <-!app_assoc. cbn [app]. by rewrite <-!app_assoc.
Qed.

(** The events of the store after these messages. *)
Definition entry_of (st : str) (nm : N * str) : InMemoryEventStore.EventEntry :=
  InMemoryEventStore.mkEntry st nm.1 nm.2.

Lemma appended_ops se st msgs : InMemoryEventStore.appended se (store_op se st <$> msgs) = entry_of st <$> msgs.
Proof.
  unfold InMemoryEventStore.appended. induction msgs as [|nm msgs IH]; [done|]. cbn [fmap list_fmap omap list_omap].
  simpl. rewrite decide_True by done. f_equal. exact IH.
Qed.
Lemma on_stream_entries st msgs : InMemoryEventStore.on_stream st (entry_of st <$> msgs) = entry_of st <$> msgs.
Proof. apply Forall_filter_id, Forall_fmap, Forall_forall. intros nm _. simpl. by apply bool_decide_eq_true. Qed.
Lemma appends_ops se st msgs : Forall (InMemoryEventStore.appends se) (store_op se st <$> msgs).
Proof. by apply Forall_fmap, Forall_forall. Qed.

(** Strictly increasing timestamps. *)
Fixpoint increasing (lo : N) (msgs : list (N * str)) : Prop :=
  match msgs with [] => True | (t, _) :: r => (lo < t < U128)%N /\ increasing t r end.

Lemma increasing_lo lo msgs : increasing lo msgs -> Forall (fun nm => (lo < nm.1 < U128)%N) msgs.
Proof.
  revert lo; induction msgs as [|[t p] r IH]; intros lo; simpl; [constructor|]. intros [Ht Hr].
  constructor; [done|]. eapply Forall_impl; [by apply IH|]. simpl. lia.
Qed.
Lemma increasing_app lo pre t p post : increasing lo (pre ++ (t, p) :: post) ->
  Forall (fun nm => (nm.1 < t)%N) pre /\ (t < U128)%N /\ increasing t post.
Proof.
  revert lo; induction pre as [|[u q] pre IH]; intros lo; simpl; [intros [? ?]; split_and!; [constructor|lia|done]|].
  intros [Hu Hr]. pose proof (increasing_lo _ _ Hr) as Hall. destruct (IH u Hr) as (Hpre & Ht & Hpost).
  split_and!; try done. constructor; [|done]. simpl.
  apply Forall_app in Hall as [_ Hall]. apply Forall_cons in Hall as [Hall _]. simpl in Hall. lia.
Qed.
Lemma ascending_entries lo st msgs : increasing lo msgs ->
  ascending InMemoryEventStore.time_stamp (entry_of st <$> msgs).
Proof.
  revert lo; induction msgs as [|[t p] r IH]; intros lo; simpl; [done|]. intros [Ht Hr]. split; [|by apply (IH t)].
  apply Forall_fmap. eapply Forall_impl; [apply (increasing_lo _ _ Hr)|]. simpl. lia.
Qed.

Lemma frame_id_app a b : frame_id a -> frame_id b -> frame_id (a ++ b).
Proof. intros [Ga Sa] [Gb Sb]. split; [by apply Forall_app_2|]. rewrite elem_of_app. by intros [?|?]. Qed.
Lemma frame_id_digits t : frame_id (show_N t).
Proof.
  pose proof (show_N_digits t) as Hd. split.
  - eapply Forall_impl; [exact Hd|apply is_digit_graphic].
  - intros Hin. rewrite Forall_forall in Hd. by apply Hd in Hin.
Qed.
Lemma frame_id_generate se st t : frame_id se -> frame_id st -> frame_id (generate_event_id se st t).
Proof.
  intros Hse Hst. assert (Hsep : frame_id InMemoryEventStore.ID_SEPARATOR) by (split; decided).
  unfold InMemoryEventStore.generate_event_id. do 4 (apply frame_id_app; [done|]). apply frame_id_digits.
Qed.

(** The events of the lines written, and what the client makes of them. *)
Lemma line_events se st msgs : frame_id se -> frame_id st -> Forall (fun nm => message_text nm.2) msgs ->
  (fun l => line_event true (l ++ [LF])) <$> (line_of se st <$> msgs) =
  (fun nm => SseEvent.mk None (Some nm.2) (Some (id_of se st nm)) None) <$> msgs.
Proof.
  intros Fse Fst Hm. induction Hm as [|nm msgs Hnm _ IH]; [done|]. cbn [fmap list_fmap]. f_equal; [|exact IH].
  apply line_event_message; [by apply frame_id_generate|apply Hnm].
Qed.
Lemma received_events se st msgs : Forall (fun nm : N * str => message_text nm.2) msgs ->
  ((fun nm => SseEvent.mk None (Some nm.2) (Some (id_of se st nm)) None) <$> msgs) ≫= SseFacts.received =
  (fun nm => SseEvent.mk None (Some (nm.2 ++ [LF])) (Some (id_of se st nm)) None) <$> msgs.
Proof.
  induction 1 as [|nm msgs Hnm _ IH]; [done|]. cbn [fmap list_fmap mbind list_bind].
  rewrite received_message by done. simpl. f_equal. exact IH.
Qed.
Lemma line_of_text se st nm : frame_id se -> frame_id st -> SseFacts.line_text nm.2 -> SseFacts.line_text (line_of se st nm).
Proof.
  intros Fse Fst Hm. apply line_text_app; [apply graphic_line_text, frame_id_generate; done|].
  change (Dispatcher.ID_SEPARATOR :: nm.2) with ([Dispatcher.ID_SEPARATOR] ++ nm.2).
  apply line_text_app; [split; [done|decided]|done].
Qed.

(** What is left of the messages after one of them in a store that keeps [max]
    events: all of them, or nothing once the event itself had to make room. *)
Definition missed (max : nat) (post : list (N * str)) : list str := if (length post <? max)%nat then post.*2 else [].

(** The store after the messages, asked for what follows one of them. *)
Lemma resume_kept se st es lo pre now m post :
  InMemoryEventStore.id_ok se -> InMemoryEventStore.id_ok st ->
  InMemoryEventStore.bounded es -> InMemoryEventStore.storage_map es !! se = None ->
  length post < InMemoryEventStore.max_events_per_session es -> increasing lo (pre ++ (now, m) :: post) ->
  InMemoryEventStore.after (InMemoryEventStore.run es (store_op se st <$> pre ++ (now, m) :: post)) (generate_event_id se st now)
  = Ok (Some (mkEventStoreEntry se st (post.*2))).
Proof.
  intros Ise Ist Hb Hnew Hlen Hinc. destruct (increasing_app _ _ _ _ _ Hinc) as (Hpre & Hnow & Hpost).
  rewrite fmap_app. unfold InMemoryEventStore.run. rewrite foldl_app. fold (InMemoryEventStore.run es (store_op se st <$> pre)).
  change (foldl InMemoryEventStore.apply ?s (store_op se st <$> (now, m) :: post)) with
    (InMemoryEventStore.run s (InMemoryEventStore.Store se st now m :: (store_op se st <$> post))).
  rewrite after_replays; try done.
  - rewrite appended_ops, on_stream_entries. do 3 f_equal. rewrite <-list_fmap_compose. by apply list_fmap_ext.
  - apply run_bounded; [lia|done].
  - apply Forall_forall. intros x Hx [_ Ht]. apply queue_elem in Hx as [Hx|Hx]; [|..|done|lia|apply appends_ops].
    + rewrite Hnew in Hx. by apply elem_of_nil in Hx.
    + rewrite appended_ops in Hx. apply list_elem_of_fmap in Hx as (nm & -> & Hin). rewrite Forall_forall in Hpre.
      apply Hpre in Hin. simpl in Ht. lia.
  - apply appends_ops.
  - by rewrite appended_ops, length_fmap, run_max.
  - rewrite appended_ops, on_stream_entries. by eapply ascending_entries.
Qed.
Lemma resume_evicted se st es lo pre now m post :
  InMemoryEventStore.id_ok se -> InMemoryEventStore.id_ok st ->
  InMemoryEventStore.bounded es -> InMemoryEventStore.storage_map es !! se = None ->
  0 < InMemoryEventStore.max_events_per_session es <= length post -> increasing lo (pre ++ (now, m) :: post) ->
  InMemoryEventStore.after (InMemoryEventStore.run es (store_op se st <$> pre ++ (now, m) :: post)) (generate_event_id se st now)
  = Ok (Some (mkEventStoreEntry se st [])).
Proof.
  intros Ise Ist Hb Hnew Hlen Hinc. destruct (increasing_app _ _ _ _ _ Hinc) as (_ & Hnow & Hpost).
  unfold InMemoryEventStore.after. rewrite parse_generate by done.
  pose proof (run_queue se es (store_op se st <$> pre ++ (now, m) :: post) Hb ltac:(lia) (appends_ops _ _ _)) as Q.
  rewrite Hnew, appended_ops, foldl_push in Q by (simpl; lia). cbn [from_option app length] in Q.
  set (k := _ - _) in Q. assert (Hq : forall e, e ∈ drop k (entry_of st <$> pre ++ (now, m) :: post) -> InMemoryEventStore.time_stamp e <> now).
  { subst k. rewrite length_fmap, length_app, fmap_app, fmap_cons, drop_app, length_fmap. cbn [length].
    rewrite drop_ge by (rewrite length_fmap; lia). destruct (_ + _ - _ - _) as [|k] eqn:E; [lia|]. cbn [app drop].
    intros e (nm & -> & Hin)%subseteq_drop%list_elem_of_fmap. apply increasing_lo in Hpost. rewrite Forall_forall in Hpost.
    apply Hpost in Hin. simpl. lia. }
  destruct (InMemoryEventStore.storage_map (InMemoryEventStore.run _ _) !! se) as [q|]; cbn [from_option] in Q.
  - unfold InMemoryEventStore.replay. change (id q) with q in Q. replace (position _ q) with (@None nat); [done|]. symmetry. apply position_None, Forall_forall. intros e He.
    apply andb_false_iff. right. apply N.eqb_neq, Hq. by rewrite <-Q.
  - exfalso. apply (f_equal length) in Q. subst k. rewrite length_drop, length_fmap, length_app in Q. simpl in Q. lia.
Qed.
(** The messages [events_after] gives back. *)
Definition messages_after (es : InMemoryEventStore.t) (id : str) : list str :=
  match events_after es id with Ok (Some e) => messages e | _ => [] end.
Lemma resume_after se st es lo pre now m post :
  InMemoryEventStore.id_ok se -> InMemoryEventStore.id_ok st ->
  InMemoryEventStore.bounded es -> InMemoryEventStore.storage_map es !! se = None ->
  0 < InMemoryEventStore.max_events_per_session es -> increasing lo (pre ++ (now, m) :: post) ->
  InMemoryEventStore.after (InMemoryEventStore.run es (store_op se st <$> pre ++ (now, m) :: post)) (generate_event_id se st now)
  = Ok (Some (mkEventStoreEntry se st (missed (InMemoryEventStore.max_events_per_session es) post))).
Proof.
  intros Ise Ist Hb Hnew Hmax Hinc. unfold missed. destruct (Nat.ltb_spec (length post) (InMemoryEventStore.max_events_per_session es));
    [by eapply resume_kept|by eapply resume_evicted].
Qed.

(** C1. Delivery and resumption end to end.  When the server sends messages, each
    one line of text, on a fresh resumable stream of a session the event store
    holds nothing of, with the clock advancing from message to message, the
    client's parser, fed the body in any chunks, yields exactly these messages in
    order, each with its newline and its event id.  For whichever of them the
    client saw last, the event store gives back exactly the messages after it as
    long as they are fewer than the events it keeps per session, and none of them
    once they are not, because the event has made room for them. *)
Theorem resumable_stream_end_to_end se st d d' w es lo pre now m post (chunks : list bytes) :
  session_id d = Some se -> stream_id d = Some st -> event_store d = Some es -> writable_std d = Some w -> written w = [] ->
  frame_id se -> frame_id st -> InMemoryEventStore.id_ok se -> InMemoryEventStore.id_ok st ->
  InMemoryEventStore.bounded es -> InMemoryEventStore.storage_map es !! se = None ->
  0 < InMemoryEventStore.max_events_per_session es ->
  let msgs := pre ++ (now, m) :: post in
  Forall (fun nm => message_text nm.2 /\ trim nm.2 <> []) msgs -> increasing lo msgs ->
  send_all msgs d = (Ok tt, d') ->
  (forall w', writable_std d' = Some w' -> concat chunks = body_bytes (body_frames (line_event true) (written w'))) ->
  (SseParser.feed SseParser.new chunks).2 =
    (fun nm => SseEvent.mk None (Some (nm.2 ++ [LF])) (Some (id_of se st nm)) None) <$> msgs /\
  exists es', event_store d' = Some es' /\
    messages_after es' (generate_event_id se st now) = missed (InMemoryEventStore.max_events_per_session es) post.
Proof.
  intros Hse Hst Hes Hw Hwe Fse Fst Ise Ist Hb Hnew Hmax msgs Hm Hinc Hs Hchunks.
  assert (Hblank : Forall (fun nm => trim nm.2 <> []) msgs) by (eapply Forall_impl; [exact Hm|naive_solver]).
  destruct (send_all_spec se st msgs d d' w es Hse Hst Hes Hw Hblank Hs) as (w' & Hw' & Hwr & Hes').
  assert (Hmsg : Forall (fun nm => message_text nm.2) msgs) by (eapply Forall_impl; [exact Hm|naive_solver]).
  split; [|eexists; split; [done|]; unfold messages_after, msgs; cbn [events_after InMemoryEventStore.store_instance]; by erewrite resume_after by done].
  rewrite (parse_events ((fun nm => SseEvent.mk None (Some nm.2) (Some (id_of se st nm)) None) <$> msgs)).
  - by apply received_events.
  - apply Forall_fmap. eapply Forall_impl; [exact Hmsg|]. intros nm [Ht _]. apply wf_message; [done|].
    intros v [= <-]. by apply frame_id_generate.
  - assert (Hlines : Forall SseFacts.line_text (line_of se st <$> msgs)).
    { apply Forall_fmap. eapply Forall_impl; [exact Hmsg|]. intros nm [Ht _]. by apply line_of_text. }
    rewrite (Hchunks w' Hw'), Hwr, Hwe. cbn [app]. by rewrite body_of_lines, line_events.
Qed.

End Claims.

(** Replayed messages are written without an id, but the frames cut every
    line of a resumable stream at the first separator: a message without the
    character ['|'] arrives as it was; of any other one the client gets the
    text up to the first ['|'] as the event id and only the rest as data. *)
Theorem replayed_message_framing (m : str) (chunks : list bytes) :
  message_text m -> concat chunks = body_bytes (body_frames (line_event true) (m ++ [LF])) ->
  (ID_SEPARATOR ∉ m -> (SseParser.feed SseParser.new chunks).2 = [SseEvent.mk None (Some (m ++ [LF])) None None]) /\
  (forall a b, m = a ++ ID_SEPARATOR :: b -> ID_SEPARATOR ∉ a -> SseFacts.wf_field a -> utf8_valid b = true -> b <> [] ->
     (SseParser.feed SseParser.new chunks).2 = [SseEvent.mk None (Some (b ++ [LF])) (Some a) None]).
Proof.
  intros Hm Hc. pose proof Hm as [Ht _].
  pose proof (body_of_lines (line_event true) [m] (Forall_cons_2 _ _ _ Ht (Forall_nil_2 _))) as B.
  cbn [fmap list_fmap concat app] in B. rewrite app_nil_r in B. rewrite B in Hc. split.
  - intros Hs. rewrite line_event_plain in Hc by auto.
    rewrite (parse_events [SseEvent.mk None (Some m) None None]); [| |done].
    + simpl. by rewrite received_message.
    + apply Forall_cons_2; [by apply wf_message|by apply Forall_nil_2].
  - intros a b -> Ha Hf Hb Hne.
    assert (Hl : LF ∉ b) by (destruct Ht as [_ Hl]; intros Hin; apply Hl; rewrite elem_of_app, elem_of_cons; auto).
    assert (E : line_event true ((a ++ ID_SEPARATOR :: b) ++ [LF]) = SseEvent.mk None (Some b) (Some a) None).
    { unfold line_event. rewrite trim_end_LF by apply Ht.
      rewrite separator_not_empty by (apply elem_of_app; right; left). by rewrite split_once_char_app. }
    rewrite E in Hc. rewrite (parse_events [SseEvent.mk None (Some b) (Some a) None]); [| |done].
    + simpl. unfold SseFacts.received, SseEvent.fmt_lines. simpl. unfold SseFacts.received_data.
      rewrite lines_single by done. simpl. by rewrite bool_decide_eq_false_2 by done.
    + apply Forall_cons_2; [|by apply Forall_nil_2]. split_and!; simpl; try done; by intros v [= <-].
Qed.

Module Demo.
Definition msgs : list (N * str) := [(5%N, s! "{a}"); (7%N, s! "{b}")].
Definition sent := (send_all msgs Dispatcher.Demo.resumable).2.
Definition body : bytes := body_bytes (body_frames (line_event true) (from_option (fun x => x) [] (MessageDispatcher.writable_std sent))).
End Demo.

Lemma resumable_stream_end_to_end_witness :
  (SseParser.feed SseParser.new [take 7 Demo.body; drop 7 Demo.body]).2 =
    [SseEvent.mk None (Some (s! "{a}" ++ [LF])) (Some (s! "s1-.-st-.-5")) None;
     SseEvent.mk None (Some (s! "{b}" ++ [LF])) (Some (s! "s1-.-st-.-7")) None].
Proof.
  assert (E : send_all ([(5%N, s! "{a}")] ++ (7%N, s! "{b}") :: []) Dispatcher.Demo.resumable = (Ok tt, Demo.sent))
    by (vm_compute; reflexivity).
  assert (Hc : forall w', MessageDispatcher.writable_std Demo.sent = Some w' ->
    concat [take 7 Demo.body; drop 7 Demo.body] = body_bytes (body_frames (line_event true) (written w')))
    by (intros w' Hw; vm_compute in Hw; injection Hw as <-; vm_compute; reflexivity).
  refine (proj1 (resumable_stream_end_to_end (s! "s1") (s! "st") Dispatcher.Demo.resumable Demo.sent []
    InMemoryEventStore.default 0 [(5%N, s! "{a}")] 7 (s! "{b}") [] [take 7 Demo.body; drop 7 Demo.body]
    eq_refl eq_refl eq_refl eq_refl eq_refl _ _ _ _ _ eq_refl _ _ _ E Hc)).
  1, 2: split; decided.
  1, 2: split_and!; [discriminate|decided|decided].
  - apply map_Forall_empty.
  - simpl. unfold InMemoryEventStore.MAX_EVENTS_PER_SESSION. lia.
  - repeat apply Forall_cons_2; try apply Forall_nil_2; (split; [split; [split; [reflexivity|decided]|split; discriminate]|discriminate]).
  - repeat split; vm_compute; reflexivity.
Defined.

Lemma replayed_message_framing_witness :
  (SseParser.feed SseParser.new [body_bytes (body_frames (line_event true) (s! "{a|b}" ++ [LF]))]).2
  = [SseEvent.mk None (Some (s! "b}" ++ [LF])) (Some (s! "{a")) None].
Proof.
  refine (proj2 (replayed_message_framing (s! "{a|b}") _ _ _) (s! "{a") (s! "b}") eq_refl _ _ eq_refl _).
  - split; [split; [reflexivity|decided]|split; discriminate].
  - vm_compute. reflexivity.
  - decided.
  - split; [split; [reflexivity|decided]|]. right. by exists "{"%char, "a"%char, (s! "a").
  - discriminate.
Defined.
