(* ===== verification/Auth.v ===== *)
(** * Tokens, scopes and token verification

    Models crates/rust-mcp-sdk/src/auth/: spec/audience.rs, spec/claims.rs,
    spec/jwk.rs, auth_info.rs, client_auth/scope.rs, client_auth/token.rs,
    client_auth/in_memory_store.rs, client_auth/www_authenticate.rs, the
    [WWW-Authenticate] helpers of mcp_http/http_utils.rs, and
    crates/rust-mcp-extra/src/token_verifier/ (jwt_cache.rs,
    generic_token_verifier.rs).

    Times are nanoseconds (SystemTime, Instant) or seconds, as named.  The JWT
    library, the authorization server and the JSON maps are parameters.  [None]
    in a result of type [option (result _ _)] is a panic. *)
From Stdlib Require Import Sorting.Sorted.
From S2P Require Import Prelude RustStr.

(** ** Data *)

(** [enum Audience]; its equality compares the lists. *)
Inductive Audience := Single (s : str) | Multiple (v : list str).
Definition to_vec (a : Audience) : list str := match a with Single s => [s] | Multiple v => v end.
Definition audience_eqb (a b : Audience) : bool := bool_decide (to_vec a = to_vec b).
Definition show_audience (a : Audience) : str := match a with Single s => s | Multiple v => join (s! ", ") v end.

(** [enum AuthenticationError] *)
Inductive AuthenticationError :=
| NoIntrospectionEndpoint
| Jwks (e : str)
| InvalidToken (description : str)
| InactiveToken
| AudiencesAttributeMissing
| InsufficientScope
| AudienceNotAllowed (expected received : str)
| InvalidOrExpiredToken (e : str)
| TokenVerificationFailed (description : str) (status_code : option N)
| ServerError (description : str)
| ParsingError (e : str)
| NotFound (e : str).

Section Info.
Context {Extra : Type}.

(** [struct AuthInfo] *)
Record AuthInfo := mkAuthInfo {
  token_unique_id : str;
  client_id : option str;
  user_id : option str;
  scopes : option (list str);
  expires_at : option N; (* SystemTime *)
  audience : option Audience;
  extra : option Extra;
}.

(** The claims of [AuthClaims] the SDK reads. *)
Record AuthClaims := mkClaims {
  issuer : option str;
  subject : option str;
  claim_audience : option Audience;
  expiration : option Z; (* i64 *)
  jwt_id : option str;
  claim_scope : option str;
  claim_client_id : option str;
  authorized_party : option str;
  application_id : option str;
}.

(** The fields of [IntrospectionResponse] the SDK reads. *)
Record IntrospectionResponse := mkIntrospection {
  active : bool;
  i_scope : option str;
  i_client_id : option str;
  i_expiration : option Z;
  i_subject : option str;
  i_audience : option Audience;
  i_issuer : option str;
  i_jwt_id : option str;
}.

(** [UNIX_EPOCH + Duration::from_secs(t)] panics when the seconds leave [i64]. *)
Definition unix_timestamp_to_systemtime (t : N) : option N :=
  if (t <? 2 ^ 63)%N then Some (t * 1000000000)%N else None.
Definition expiration_time (e : option Z) : option (option N) :=
  match e with
  | None => Some None
  | Some v => Some <$> unix_timestamp_to_systemtime (i64_as_u64 v)
  end.

Definition or_else {A} (a b : option A) : option A := match a with Some _ => a | None => b end.

Definition split_scopes (c : str) : list str := split_char " "%char c.

Definition from_token_data (token : str) (c : AuthClaims) (ex : option Extra)
  : option (result AuthInfo AuthenticationError) :=
  expires ← expiration_time (expiration c);
  Some (Ok (mkAuthInfo (from_option id token (jwt_id c))
    (or_else (authorized_party c) (or_else (claim_client_id c) (application_id c)))
    (subject c) (split_scopes <$> claim_scope c) expires (claim_audience c) ex)).

Definition from_introspection_response (token : str) (d : IntrospectionResponse) (ex : option Extra)
  : option (result AuthInfo AuthenticationError) :=
  expires ← expiration_time (i_expiration d);
  Some (Ok (mkAuthInfo (from_option id token (i_jwt_id d)) (i_client_id d) (i_subject d)
    (split_scopes <$> i_scope d) expires (i_audience d) ex)).
End Info.
Arguments AuthInfo : clear implicits.

(** ** Scopes *)

Module Scope.
Definition non_empty (s : str) : bool := negb (bool_decide (s = [])).

Definition select_scope (www : option str) (prm : option (list str)) (configured : option str) : option str :=
  match (s ← www; let t := trim s in if non_empty t then Some t else None) with
  | Some r => Some r
  | None =>
  match (ss ← prm; let joined := join (s! " ") (List.filter non_empty (trim <$> ss)) in
         if non_empty joined then Some joined else None) with
  | Some r => Some r
  | None => s ← configured; let t := trim s in if non_empty t then Some t else None
  end end.

(** A [BTreeSet<String>] as its sorted list of elements. *)
Fixpoint btree_insert (x : str) (l : list str) : list str :=
  match l with
  | [] => [x]
  | y :: r => match str_cmp x y with Lt => x :: l | Eq => l | Gt => y :: btree_insert x r end
  end.
Definition insert_words (s : option str) (set : list str) : list str :=
  foldl (fun acc w => if non_empty w then btree_insert w acc else acc) set
        (from_option split_whitespace [] s).

Definition union_scopes (prior challenged : option str) : option str :=
  let set := insert_words challenged (insert_words prior []) in
  match set with [] => None | _ => Some (join (s! " ") set) end.
End Scope.

(** ** The [WWW-Authenticate] header *)

Module WwwAuthenticate.
Definition QUOTE : ascii := ascii_of_nat 34.

(** [parse_www_authenticate_param] *)
Definition strip_scheme (body : str) : str :=
  let try_strip p k := match strip_prefix p body with Some r => r | None => k end in
  try_strip (s! "Bearer") (try_strip (s! "bearer") (try_strip (s! "Basic") (try_strip (s! "basic") body))).
Fixpoint find_param (prefix : str) (parts : list str) : option str :=
  match parts with
  | [] => None
  | part :: r =>
      match strip_prefix prefix (trim part) with
      | Some rest =>
          let value := trim_matches QUOTE (trim rest) in
          if bool_decide (value = []) then find_param prefix r else Some value
      | None => find_param prefix r
      end
  end.
Definition parse_www_authenticate_param (www_auth param_name : str) : option str :=
  find_param (param_name ++ s! "=") (split_char ","%char (strip_scheme (trim_start www_auth))).

(** [strip_bearer_prefix], on ASCII headers ([HeaderValue::to_str]). *)
Definition strip_bearer_prefix (header : str) : str :=
  let lower := to_ascii_lowercase header in
  if starts_with (s! "bearer ") lower then trim (drop 7 header)
  else if bool_decide (lower = s! "bearer") then []
  else trim header.

(** [parse_www_authenticate]: the JSON map, [None] without any pair. *)
Definition parse_www_authenticate (header : str) : option (gmap str str) :=
  foldl (fun result part =>
    match split_once_char "="%char (trim part) with
    | Some (key, value) =>
        Some (<[key := trim_matches QUOTE (trim value)]> (from_option id ∅ result))
    | None => result
    end) None (split_char ","%char (strip_bearer_prefix header)).

(** [error_message_from_response], from the readable header and the body text;
    [map_values] lists a JSON map's values in its order. *)
Definition error_message_from_response (map_values : gmap str str -> list str)
  (www_authenticate : option str) (text : option str) (default_message : str) : str :=
  let fallback := from_option id default_message text in
  match www_authenticate ≫= parse_www_authenticate with
  | Some map =>
      match map !! (s! "error_description") with
      | Some s => s
      | None =>
      match map !! (s! "error") with
      | Some s => s
      | None =>
          let values := map_values map in
          if bool_decide (values = []) then fallback else join (s! ", ") values
      end end
  | None => fallback
  end.
End WwwAuthenticate.

(** ** The client's token store *)

Module InMemoryTokenStore.

(** [struct TokenResponse] *)
Record TokenResponse := mkToken {
  access_token : str;
  token_type : str;
  expires_in : option N; (* u64 *)
  refresh_token : option str;
  scope : option str;
}.

(** The methods read the clock anew at each call; [now] in seconds. *)
Definition expires_at_secs (now : N) (t : TokenResponse) : option N := u64_sat_add now <$> expires_in t.
Definition is_expired (now1 now2 : N) (t : TokenResponse) : bool :=
  from_option (fun exp => (exp <=? u64_sat_add now2 30)%N) false (expires_at_secs now1 t).

(** [struct CachedToken] *)
Record CachedToken := mkCached {
  c_access_token : str;
  c_refresh_token : option str;
  c_expires_at_secs : option N;
}.
Definition cached_is_expired (now : N) (c : CachedToken) : bool :=
  from_option (fun exp => (exp <=? u64_sat_add now 30)%N) false (c_expires_at_secs c).

Definition t : Type := option CachedToken.
Definition new : t := None.
Definition get_access_token (now : N) (s : t) : option str :=
  match s with
  | Some ct => if negb (cached_is_expired now ct) then Some (c_access_token ct) else None
  | None => None
  end.
Definition get_refresh_token (s : t) : option str := s ≫= c_refresh_token.
Definition set_tokens (now : N) (r : TokenResponse) (s : t) : t :=
  Some (mkCached (access_token r) (refresh_token r) (expires_at_secs now r)).
Definition clear (s : t) : t := None.

(** [enum GrantType] *)
Inductive GrantType :=
| ClientCredentials
| AuthorizationCode (code redirect_uri : str)
| AuthorizationCodePkce (code redirect_uri code_verifier : str)
| RefreshToken (refresh_token : str).
Definition grant_as_str (g : GrantType) : str :=
  match g with
  | ClientCredentials => s! "client_credentials"
  | AuthorizationCode _ _ | AuthorizationCodePkce _ _ _ => s! "authorization_code"
  | RefreshToken _ => s! "refresh_token"
  end.
End InMemoryTokenStore.

(** ** The cache of remotely verified tokens *)

Module JwtCache.

(** [struct JwtCache]; instants and the interval in nanoseconds. *)
Record t := mk {
  map : gmap str N;
  order : list str;
  remote_verification_interval : N;
  capacity : nat;
}.
Definition new (interval : N) (capacity : nat) : t := mk ∅ [] interval capacity.

Definition is_recent (now : N) (key : str) (c : t) : bool :=
  match map c !! key with
  | Some last => (now - last <=? remote_verification_interval c)%N
  | None => false
  end.

Definition expired_keys (now : N) (c : t) : list str :=
  List.filter (fun key => match map c !! key with
                          | Some last => (remote_verification_interval c <? now - last)%N
                          | None => false end) (order c).
Definition remove_key (c : t) (key : str) : t :=
  mk (delete key (map c)) (List.filter (fun k => negb (bool_decide (k = key))) (order c))
     (remote_verification_interval c) (capacity c).
Definition remove_expired (now : N) (c : t) : t := foldl remove_key c (expired_keys now c).

(** [now1] and [now2] are the two readings of the clock. *)
Definition record (now1 now2 : N) (key : str) (c0 : t) : t :=
  let c := remove_expired now1 c0 in
  if is_some (map c !! key) then
    mk (<[key := now2]> (map c)) (order c) (remote_verification_interval c) (capacity c)
  else
    let c' := if (capacity c <=? size (map c))%nat then
                match order c with
                | oldest :: rest => mk (delete oldest (map c)) rest (remote_verification_interval c) (capacity c)
                | [] => c
                end
              else c in
    mk (<[key := now2]> (map c')) (order c' ++ [key]) (remote_verification_interval c') (capacity c').
End JwtCache.

(** ** The generic token verifier *)

Module Verifier.
Section Verifier.
(** The JWT library: token headers, keys, signature and claim validation; the
    URLs of the configuration; the user-info JSON object. *)
Context {Alg Jwk Url Extra : Type} `{EqDecision Alg}.
Context (show_alg : Alg -> str).

(** [jsonwebtoken::Validation] as [verify] sets it up. *)
Record Validation := mkValidation {
  v_alg : Alg;
  v_audience : option (list str); (* [None]: validate_aud = false *)
  v_issuer : option str;
  v_required_claims : option (list str); (* [None]: the library's default *)
}.
Inductive decode_error := DInvalidToken | DExpiredSignature | DOther (e : str).
Context (decode_header : str -> result (Alg * option str) str).
Context (key_id : Jwk -> option str) (decoding_key_ok : Jwk -> result unit str).
Context (decode : str -> Jwk -> Validation -> result AuthClaims decode_error).

(** [decode_token_header] *)
Definition decode_token_header (token : str) : result (Alg * option str) AuthenticationError :=
  match decode_header token with
  | Ok h => Ok h
  | Err e => Err (TokenVerificationFailed e (Some 401%N))
  end.

Definition validation_for (alg : Alg) (aud : option Audience) (iss : option str) : Validation :=
  let required := (match aud with Some _ => [s! "aud"] | None => [] end) ++
                  (match iss with Some _ => [s! "iss"] | None => [] end) in
  mkValidation alg (to_vec <$> aud) iss (if bool_decide (required = []) then None else Some required).

(** [JsonWebKeySet::verify] *)
Definition jwks_verify (keys : list Jwk) (token : str) (allowed : list Alg)
  (aud : option Audience) (iss : option str) : result AuthClaims AuthenticationError :=
  let? (alg, kid_opt) := decode_token_header token in
  if negb (bool_decide (alg ∈ allowed)) then
    Err (TokenVerificationFailed ((s! "Token algorithm ") ++ show_alg alg ++ (s! " is not allowed")) (Some 401%N))
  else match kid_opt with
  | None => Err (InvalidToken (s! "Missing kid in token header"))
  | Some kid =>
      match List.find (fun key => bool_decide (key_id key = Some kid)) keys with
      | None => Err (InvalidToken (s! "No matching key found in JWKS"))
      | Some jwk =>
          match decoding_key_ok jwk with
          | Err e => Err (TokenVerificationFailed e None)
          | Ok _ =>
              match decode token jwk (validation_for alg aud iss) with
              | Ok c => Ok c
              | Err DInvalidToken => Err (InvalidToken (s! "Invalid token"))
              | Err DExpiredSignature => Err (InvalidToken (s! "Expired token"))
              | Err (DOther e) => Err (TokenVerificationFailed e (Some 400%N))
              end
          end
      end
  end.

(** The answer of a remote endpoint: the request fails, a status that is not a
    success (with the error text the code extracts), or a body that parses. *)
Inductive answer (A : Type) :=
| SendFailed (e : str)
| Refused (status : N) (description : str)
| Body (r : result A str).
Arguments SendFailed {A} e.
Arguments Refused {A} status description.
Arguments Body {A} r.

(** [VerificationStrategies] and [TokenVerifierOptions]. *)
Inductive Strategy :=
| Introspection (introspection_uri client_id client_secret : str) (use_basic_auth : bool)
    (extra_params : option (list (str * str)))
| JWKs (jwks_uri : str)
| UserInfo (userinfo_uri : str).

(** [StrategiesOptions] *)
Record StrategiesOptions := mkStrategies {
  introspection_uri : option Url;
  introspection_basic_auth : bool;
  introspect_extra_params : option (list (str * str));
  s_client_id : option str;
  s_client_secret : option str;
  jwks_uri : option Url;
  userinfo_uri : option Url;
}.
Definition no_strategies : StrategiesOptions := mkStrategies None false None None None None None.

Context (parse_url : str -> result Url str).

(** [unpack]: the options and whether both kinds are present. *)
Definition unpack_one (acc : StrategiesOptions * bool * bool) (s : Strategy)
  : result (StrategiesOptions * bool * bool) AuthenticationError :=
  let '(r, has_jwks, has_other) := acc in
  match s with
  | Introspection uri cid csec basic extra =>
      match parse_url uri with
      | Err e => Err (ParsingError ((s! "Invalid introspection uri: ") ++ e))
      | Ok u => Ok (mkStrategies (Some u) basic extra (Some cid) (Some csec) (jwks_uri r) (userinfo_uri r), has_jwks, true)
      end
  | JWKs uri =>
      match parse_url uri with
      | Err e => Err (ParsingError ((s! "Invalid jwks uri: ") ++ e))
      | Ok u => Ok (mkStrategies (introspection_uri r) (introspection_basic_auth r) (introspect_extra_params r)
                      (s_client_id r) (s_client_secret r) (Some u) (userinfo_uri r), true, has_other)
      end
  | UserInfo uri =>
      match parse_url uri with
      | Err e => Err (ParsingError ((s! "Invalid userinfo uri: ") ++ e))
      | Ok u => Ok (mkStrategies (introspection_uri r) (introspection_basic_auth r) (introspect_extra_params r)
                      (s_client_id r) (s_client_secret r) (jwks_uri r) (Some u), has_jwks, true)
      end
  end.
Fixpoint unpack_all (acc : StrategiesOptions * bool * bool) (ss : list Strategy)
  : result (StrategiesOptions * bool) AuthenticationError :=
  match ss with
  | [] => let '(r, has_jwks, has_other) := acc in Ok (r, has_jwks && has_other)
  | s :: ss' => match unpack_one acc s with Ok acc' => unpack_all acc' ss' | Err e => Err e end
  end.
Definition unpack (ss : list Strategy) : result (StrategiesOptions * bool) AuthenticationError :=
  unpack_all (no_strategies, false, false) ss.

Definition REMOTE_VERIFICATION_INTERVAL : N := 15 * 60 * 1000000000.
Definition JWT_CACHE_CAPACITY : nat := 1000.
Definition JWKS_REFRESH_TIME : N := 24 * 60 * 60 * 1000000000.

(** [struct GenericOauthTokenVerifier]: its configuration and its two caches. *)
Record t := mk {
  validate_audience : option Audience;
  validate_issuer : option str;
  allowed_algorithms : list Alg;
  options : StrategiesOptions;
  jwt_cache : option JwtCache.t;
  json_web_key_set : option (N * list Jwk); (* last_updated, keys *)
}.

Definition new (default_algs : list Alg) (strategies : list Strategy) (aud : option Audience)
  (iss : option str) (cache_capacity : option nat) : result t AuthenticationError :=
  let? (opts, cachable) := unpack strategies in
  Ok (mk aud (trim_end_matches "/"%char <$> iss) default_algs opts
        (if cachable then
           Some (JwtCache.new REMOTE_VERIFICATION_INTERVAL (from_option id JWT_CACHE_CAPACITY cache_capacity))
         else None) None).

(** The form of the introspection request, later keys replacing earlier ones. *)
Definition introspection_form (v : t) (token : str) : gmap str str :=
  let form := <[s! "token" := token]> ∅ in
  let form := if introspection_basic_auth (options v) then form else
    let form := match s_client_id (options v) with Some c => <[s! "client_id" := c]> form | None => form end in
    match s_client_secret (options v) with Some c => <[s! "client_secret" := c]> form | None => form end in
  foldl (fun f kv => <[kv.1 := kv.2]> f) form (from_option id [] (introspect_extra_params (options v))).

(** The remote endpoints, as called with a token. *)
Context (introspect : gmap str str -> answer IntrospectionResponse).
Context (user_info : str -> answer (option Extra)).
Context (fetch_jwks : result (list Jwk) str).

Abbreviation Res := (option (result (AuthInfo Extra) AuthenticationError)).

Definition check_audience (v : t) (r : IntrospectionResponse) : result unit AuthenticationError :=
  match validate_audience v with
  | None => Ok tt
  | Some expected =>
      match i_audience r with
      | None => Err (InvalidToken (s! "Audience attribute (aud) is missing."))
      | Some got =>
          if audience_eqb got expected then Ok tt
          else Err (TokenVerificationFailed
            ((s! "None of the provided audiences are allowed. Expected $") ++ show_audience expected
             ++ (s! ", got: $") ++ show_audience got) (Some 401%N))
      end
  end.
Definition check_issuer (v : t) (r : IntrospectionResponse) : result unit AuthenticationError :=
  match validate_issuer v with
  | None => Ok tt
  | Some expected =>
      match i_issuer r with
      | None => Err (InvalidToken (s! "Issuer (iss) is missing."))
      | Some got =>
          if bool_decide (got = expected) then Ok tt
          else Err (TokenVerificationFailed
            ((s! "Issuer is not allowed. Expected $") ++ expected ++ (s! ", got: $") ++ got) (Some 401%N))
      end
  end.

Definition verify_introspection (v : t) (token : str) : Res :=
  match introspect (introspection_form v token) with
  | SendFailed e => Some (Err (Jwks e))
  | Refused status d => Some (Err (TokenVerificationFailed d (Some status)))
  | Body (Err e) => Some (Err (Jwks e))
  | Body (Ok r) =>
      if negb (active r) then Some (Err InactiveToken)
      else match check_audience v r with
      | Err e => Some (Err e)
      | Ok _ => match check_issuer v r with
                | Err e => Some (Err e)
                | Ok _ => from_introspection_response token r None
                end
      end
  end.

(** [response.json().await.unwrap()]: a success whose body is not JSON panics. *)
Definition verify_user_info (token : str) (unique_id : option str) : Res :=
  let uid := match unique_id with
             | Some i => Ok i
             | None => match decode_token_header token with
                       | Ok (_, kid) => Ok (from_option id token kid)
                       | Err e => Err e end
             end in
  match uid with
  | Err e => Some (Err e)
  | Ok uid =>
      match user_info token with
      | SendFailed e => Some (Err (Jwks e))
      | Refused status d => Some (Err (TokenVerificationFailed d (Some status)))
      | Body (Err _) => None
      | Body (Ok ex) => Some (Ok (mkAuthInfo uid None None None None None ex))
      end
  end.

Definition verify_keys (v : t) (token : str) (keys : list Jwk) : Res :=
  match jwks_verify keys token (allowed_algorithms v) (validate_audience v) (validate_issuer v) with
  | Err e => Some (Err e)
  | Ok c => from_token_data token c None
  end.

Definition set_keys (v : t) (now : N) (keys : list Jwk) : t :=
  mk (validate_audience v) (validate_issuer v) (allowed_algorithms v) (options v) (jwt_cache v) (Some (now, keys)).
Definition set_cache (v : t) (c : JwtCache.t) : t :=
  mk (validate_audience v) (validate_issuer v) (allowed_algorithms v) (options v) (Some c) (json_web_key_set v).

Definition verify_jwks (now : N) (v : t) (token : str) : Res * t :=
  let fresh := match json_web_key_set v with
               | Some (last_updated, keys) => if (now - last_updated <? JWKS_REFRESH_TIME)%N then Some keys else None
               | None => None
               end in
  match fresh with
  | Some keys => (verify_keys v token keys, v)
  | None =>
      match fetch_jwks with
      | Err e => (Some (Err (Jwks e)), v)
      | Ok keys => let v' := set_keys v now keys in (verify_keys v' token keys, v')
      end
  end.

Definition set_extra (a : AuthInfo Extra) (ex : option Extra) : AuthInfo Extra :=
  mkAuthInfo (token_unique_id a) (client_id a) (user_id a) (scopes a) (expires_at a) (audience a) ex.

(** [verify_token]; [now] of the system clock, [inst] of the monotonic one. *)
Definition verify_token (now inst : N) (v0 : t) (token : str) : Res * t :=
  if is_some (jwks_uri (options v0)) then
    let '(r, v) := verify_jwks now v0 token in
    match r with
    | None => (None, v)
    | Some (Err e) => (Some (Err e), v)
    | Some (Ok auth_info) =>
        match jwt_cache v with
        | None => (Some (Ok auth_info), v)
        | Some cache =>
            if JwtCache.is_recent inst (token_unique_id auth_info) cache then (Some (Ok auth_info), v)
            else if is_some (introspection_uri (options v)) then
              match verify_introspection v token with
              | Some (Ok fresh) =>
                  (Some (Ok fresh), set_cache v (JwtCache.record inst inst (token_unique_id fresh) cache))
              | r => (r, v)
              end
            else if is_some (userinfo_uri (options v)) then
              match verify_user_info token (Some (token_unique_id auth_info)) with
              | Some (Ok fresh) =>
                  (Some (Ok (set_extra auth_info (extra fresh))),
                   set_cache v (JwtCache.record inst inst (token_unique_id auth_info) cache))
              | r => (r, v)
              end
            else (Some (Ok auth_info), v)
        end
    end
  else if is_some (introspection_uri (options v0)) then (verify_introspection v0 token, v0)
  else if is_some (userinfo_uri (options v0)) then (verify_user_info token None, v0)
  else (Some (Err (InvalidToken (s! "Invalid token verification strategy!"))), v0).
End Verifier.
Arguments SendFailed {A} e.
Arguments Refused {A} status description.
Arguments Body {A} r.
End Verifier.

(** ** Facts *)

Module AuthFacts.

Section ScopeFacts.
Import Scope.
Abbreviation str_lt := (fun a b => str_cmp a b = Lt).

Lemma btree_insert_elem x l w : w ∈ btree_insert x l <-> w = x \/ w ∈ l.
Proof.
  induction l as [|y l IH]; simpl; [by rewrite list_elem_of_singleton, elem_of_nil; tauto|].
  destruct (str_cmp x y) eqn:E; rewrite ?elem_of_cons, ?IH; try tauto.
  apply str_cmp_eq in E as ->. tauto.
Qed.

Lemma btree_insert_sorted x l : StronglySorted str_lt l -> StronglySorted str_lt (btree_insert x l).
Proof.
  induction 1 as [|y l Hl IH Hy]; simpl; [repeat constructor|].
  destruct (str_cmp x y) eqn:E.
  - by constructor.
  - constructor; [by constructor|]. constructor; [done|].
    eapply Forall_impl; [exact Hy|]. intros z. by apply str_cmp_trans.
  - constructor; [done|]. apply Forall_forall. intros z [->|Hz]%btree_insert_elem; [by apply str_cmp_gt|].
    rewrite Forall_forall in Hy. by apply Hy.
Qed.

Lemma insert_words_spec s set :
  StronglySorted str_lt set ->
  StronglySorted str_lt (insert_words s set) /\
  forall w, w ∈ insert_words s set <-> w ∈ set \/ w ∈ from_option split_whitespace [] s.
Proof.
  intros Hset. unfold insert_words.
  assert (G : Forall (fun w => w <> []) (from_option split_whitespace [] s))
    by (destruct s; [apply words_go_nonempty|constructor]).
  revert set Hset. induction G as [|x l Hx _ IH]; intros set Hset; simpl.
  { split; [done|]. intros w. rewrite elem_of_nil. tauto. }
  assert (E : non_empty x = true) by (unfold non_empty; by rewrite bool_decide_eq_false_2).
  rewrite E. destruct (IH (btree_insert x set)) as [H1 H2]; [by apply btree_insert_sorted|].
  split; [done|]. intros w. rewrite H2, btree_insert_elem, elem_of_cons. tauto.
Qed.
End ScopeFacts.

Section CacheFacts.
Import JwtCache.

(** Keys are listed once, exactly those stored, and every stored instant is
    that of a recorded call. *)
Record Inv (calls : list (N * N * str)) (c : t) : Prop := {
  inv_nodup : NoDup (order c);
  inv_dom k : k ∈ order c <-> is_Some (map c !! k);
  inv_size : size (map c) <= Nat.max 1 (capacity c);
  inv_calls k last : map c !! k = Some last -> exists n1, (n1, last, k) ∈ calls;
}.

Lemma remove_key_inv calls c key : Inv calls c -> Inv calls (remove_key c key).
Proof.
  intros [H1 H2 H3 H4]. split; simpl.
  - clear - H1. induction H1 as [|x l Hx Hl IH]; simpl; [constructor|].
    destruct (negb _); [constructor; [by intros [? _]%filter_In_iff|done]|done].
  - intros k. rewrite filter_In_iff, H2, lookup_delete_is_Some.
    destruct (bool_decide (k = key)) eqn:E; bool_prop; naive_solver.
  - pose proof (map_subseteq_size _ _ (delete_subseteq (map c) key)). lia.
  - intros k last [_ Hk]%lookup_delete_Some. eauto.
Qed.

Lemma remove_expired_inv calls now c :
  Inv calls c -> Inv calls (remove_expired now c) /\
  capacity (remove_expired now c) = capacity c /\
  remote_verification_interval (remove_expired now c) = remote_verification_interval c.
Proof.
  unfold remove_expired. generalize (expired_keys now c). intros ks; revert c.
  induction ks as [|k ks IH]; intros c HI; simpl; [done|].
  destruct (IH (remove_key c k)) as (? & -> & ->); [by apply remove_key_inv|done].
Qed.

Lemma inv_more calls x c : Inv calls c -> Inv (x :: calls) c.
Proof.
  intros [H1 H2 H3 H4]. split; [done..|]. intros k last Hk. destruct (H4 _ _ Hk) as [n1 Hn]. exists n1. by right.
Qed.

Lemma insert_inv calls c n1 n2 key :
  Inv ((n1, n2, key) :: calls) c -> map c !! key = None -> size (map c) < Nat.max 1 (capacity c) ->
  Inv ((n1, n2, key) :: calls)
    (mk (<[key := n2]> (map c)) (order c ++ [key]) (remote_verification_interval c) (capacity c)).
Proof.
  intros [H1 H2 H3 H4] Hk Hs. split; simpl.
  - apply NoDup_app. split_and!; [done| |apply NoDup_singleton].
    intros k Hin ->%list_elem_of_singleton. apply H2 in Hin as [? Hin]. congruence.
  - intros k. rewrite elem_of_app, list_elem_of_singleton, H2, lookup_insert_is_Some. destruct (decide (key = k)); naive_solver.
  - rewrite map_size_insert_None by done. lia.
  - intros k last [[<- <-]|[_ Hk']]%lookup_insert_Some; [exists n1; by left|eauto].
Qed.

Lemma record_inv calls n1 n2 key c :
  Inv calls c -> Inv ((n1, n2, key) :: calls) (record n1 n2 key c) /\
  capacity (record n1 n2 key c) = capacity c /\
  remote_verification_interval (record n1 n2 key c) = remote_verification_interval c.
Proof.
  intros HI. unfold record. destruct (remove_expired_inv calls n1 c HI) as (HI' & Ec & Er).
  apply (inv_more calls (n1, n2, key)) in HI'. revert HI' Ec Er.
  generalize (remove_expired n1 c). intros d HI' <- <-.
  destruct (map d !! key) as [last|] eqn:E; simpl.
  - split; [|done]. destruct HI' as [H1 H2 H3 H4]. split; simpl; [done| | |].
    + intros k. rewrite H2, lookup_insert_is_Some. destruct (decide (key = k)); naive_solver.
    + rewrite map_size_insert_Some by by eexists. done.
    + intros k t' [[<- <-]|[_ Hk]]%lookup_insert_Some; [exists n1; by left|eauto].
  - destruct (Nat.leb_spec (capacity d) (size (map d))) as [Hfull|Hroom].
    2:{ split; [|done]. apply insert_inv; [done|done|lia]. }
    destruct (order d) as [|oldest rest] eqn:Eo; simpl.
    + split; [|done]. apply insert_inv; [done|done|].
      destruct HI' as [_ H2 _ _]. rewrite Eo in H2.
      assert (map d = ∅) as ->.
      { apply map_empty. intros k. destruct (map d !! k) eqn:Ek; [|done].
        exfalso. apply (not_elem_of_nil k), H2. by eexists. }
      rewrite map_size_empty. lia.
    + split; [|done]. destruct HI' as [H1 H2 H3 H4]. rewrite Eo in *.
      apply NoDup_cons in H1 as [Hold Hrest].
      assert (Hin : is_Some (map d !! oldest)) by (apply H2; by left).
      pose proof (map_size_delete_Some oldest (map d) Hin) as Hs.
      assert (size (map d) <> 0). { intros Hz%map_size_empty_iff. rewrite Hz in Hin. by destruct Hin. }
      pose proof (insert_inv calls (mk (delete oldest (map d)) rest (remote_verification_interval d) (capacity d))
        n1 n2 key) as P. simpl in P. apply P; clear P.
      * split; simpl; [done| |lia|].
        -- intros k. rewrite lookup_delete_is_Some, <-H2, elem_of_cons. split; [intros Hk; split; [congruence|auto]|naive_solver].
        -- intros k t' [_ Hk]%lookup_delete_Some. eauto.
      * rewrite lookup_delete_ne; [done|]. intros ->. destruct Hin. congruence.
      * lia.
Qed.

Lemma records_inv interval cap (calls : list (N * N * str)) :
  Inv (rev calls) (foldl (fun c '(n1, n2, k) => record n1 n2 k c) (new interval cap) calls) /\
  capacity (foldl (fun c '(n1, n2, k) => record n1 n2 k c) (new interval cap) calls) = cap /\
  remote_verification_interval (foldl (fun c '(n1, n2, k) => record n1 n2 k c) (new interval cap) calls) = interval.
Proof.
  induction calls as [|[[n1 n2] k] calls (IH1 & IH2 & IH3)] using rev_ind.
  - split; [|done]. split; simpl; [constructor| |rewrite map_size_empty; lia|done].
    intros k. rewrite elem_of_nil, lookup_empty. split; [done|by intros [? ?]].
  - rewrite foldl_app, rev_unit. simpl.
    destruct (record_inv _ n1 n2 k _ IH1) as (H1 & -> & ->). by split.
Qed.
End CacheFacts.

(** *** What an accepted token went through *)

Section VerifierFacts.
Import Verifier.
Context {Alg Jwk Url Extra : Type} `{EqDecision Alg} (show_alg : Alg -> str).
Context (decode_header : str -> result (Alg * option str) str).
Context (key_id : Jwk -> option str) (decoding_key_ok : Jwk -> result unit str).
Context (decode : str -> Jwk -> @Validation Alg -> result AuthClaims decode_error).
Context (introspect : gmap str str -> answer IntrospectionResponse) (user_info : str -> answer (option Extra))
        (fetch_jwks : result (list Jwk) str).
Implicit Types v : @t Alg Jwk Url.

(** The signature and the claims were checked with a published key, an allowed
    algorithm and the configured audience and issuer. *)
Definition locally_verified v (token : str) (c : AuthClaims) : Prop :=
  exists keys alg kid jwk,
    decode_header token = Ok (alg, Some kid) /\ alg ∈ allowed_algorithms v /\
    jwk ∈ keys /\ key_id jwk = Some kid /\
    decode token jwk (validation_for alg (validate_audience v) (validate_issuer v)) = Ok c /\
    (fetch_jwks = Ok keys \/ exists last, json_web_key_set v = Some (last, keys)).

(** The authorization server answered that the token is active, for the
    configured audience and issuer. *)
Definition introspected v (token : str) (r : IntrospectionResponse) : Prop :=
  introspect (introspection_form v token) = Body (Ok r) /\ active r = true /\
  (forall a, validate_audience v = Some a -> exists b, i_audience r = Some b /\ to_vec b = to_vec a) /\
  (forall i, validate_issuer v = Some i -> i_issuer r = Some i).

Lemma find_Some_elem (f : Jwk -> bool) l x : List.find f l = Some x -> x ∈ l /\ f x = true.
Proof. rewrite list_elem_of_In. apply find_some. Qed.

Lemma jwks_verify_sound keys token allowed aud iss c :
  jwks_verify show_alg decode_header key_id decoding_key_ok decode keys token allowed aud iss = Ok c ->
  exists alg kid jwk, decode_header token = Ok (alg, Some kid) /\ alg ∈ allowed /\ jwk ∈ keys /\
    key_id jwk = Some kid /\ decode token jwk (validation_for alg aud iss) = Ok c.
Proof.
  unfold jwks_verify, decode_token_header. destruct (decode_header token) as [[alg [kid|]]|]; try done;
    simpl; destruct (bool_decide (alg ∈ allowed)) eqn:Ea; try done; simpl.
  destruct (List.find _ keys) as [jwk|] eqn:Ef; [|done]. destruct (decoding_key_ok jwk); [|done].
  destruct (decode token jwk _) as [c'|[]] eqn:Ed; try done. intros [= <-].
  apply find_Some_elem in Ef as [Hin Hk]. bool_prop. by exists alg, kid, jwk.
Qed.

Lemma verify_jwks_sound now v token a v' :
  verify_jwks show_alg decode_header key_id decoding_key_ok decode fetch_jwks now v token = (Some (Ok a : result (AuthInfo Extra) _), v') ->
  (exists c, locally_verified v token c /\ from_token_data (Extra := Extra) token c None = Some (Ok a)) /\
  jwt_cache v' = jwt_cache v /\ options v' = options v /\ validate_audience v' = validate_audience v /\
  validate_issuer v' = validate_issuer v.
Proof.
  unfold verify_jwks, verify_keys.
  assert (K : forall keys, match json_web_key_set v with
      | Some (last, keys) => if (now - last <? JWKS_REFRESH_TIME)%N then Some keys else None
      | None => None end = Some keys -> exists last, json_web_key_set v = Some (last, keys)).
  { intros keys. destruct (json_web_key_set v) as [[last ks]|]; [|done].
    case_match; [|done]. intros [= ->]. by exists last. }
  destruct (match json_web_key_set v with Some _ => _ | None => None end) as [keys|].
  - destruct (jwks_verify _ _ _ _ _ _ _ _ _ _) as [c|] eqn:E; simpl; [|by intros].
   
    intros [= Ha <-]. apply jwks_verify_sound in E as (alg & kid & jwk & ? & ? & ? & ? & ?).
    split; [|done]. exists c. split; [|done]. exists keys, alg, kid, jwk. split_and!; try done. right. eauto.
  - destruct fetch_jwks as [keys|] eqn:EF; [|done]. simpl.
    destruct (jwks_verify _ _ _ _ _ _ _ _ _ _) as [c|] eqn:E; simpl; [|by intros].
   
    intros [= Ha <-]. apply jwks_verify_sound in E as (alg & kid & jwk & ? & ? & ? & ? & ?).
    split; [|done]. exists c. split; [|done]. exists keys, alg, kid, jwk. split_and!; try done. by left.
Qed.

Lemma introspection_sound v token a :
  verify_introspection (Extra := Extra) introspect v token = Some (Ok a) ->
  exists r, introspected v token r /\ from_introspection_response (Extra := Extra) token r None = Some (Ok a).
Proof.
  clear decode user_info decode_header. unfold verify_introspection. destruct (introspect _) as [| |[r|]] eqn:E; try done.
  destruct (active r) eqn:Ea; [|done]. simpl. unfold check_audience, check_issuer.
  destruct (validate_audience v) as [aud|] eqn:E1; [destruct (i_audience r) as [b|] eqn:E2; [|done];
    unfold audience_eqb; destruct (bool_decide _) eqn:E3; [|done]; bool_prop|];
  (destruct (validate_issuer v) as [iss|] eqn:E4; [destruct (i_issuer r) as [j|] eqn:E5; [|done];
    destruct (bool_decide _) eqn:E6; [|done]; bool_prop|]);
  intros Hf; exists r; (split; [|done]); unfold introspected; rewrite ?E1, ?E2, ?E4, ?E5;
  split_and!; try done; naive_solver.
Qed.
End VerifierFacts.
End AuthFacts.

Import AuthFacts.

(** [union_scopes] is the union of the two sets of words, sorted and
    without repetition, and absent exactly when both are empty. *)
Theorem union_scopes_spec (prior challenged : option str) :
  exists l, StronglySorted (fun a b => str_cmp a b = Lt) l /\
    (forall w, w ∈ l <-> w ∈ from_option split_whitespace [] prior \/ w ∈ from_option split_whitespace [] challenged) /\
    Scope.union_scopes prior challenged = (if decide (l = []) then None else Some (join (s! " ") l)).
Proof.
  destruct (insert_words_spec prior []) as [S1 E1]; [constructor|].
  destruct (insert_words_spec challenged _ S1) as [S2 E2].
  eexists; split; [exact S2|]. split.
  - intros w. rewrite E2, E1, elem_of_nil. tauto.
  - unfold Scope.union_scopes. by destruct (Scope.insert_words challenged _); case_decide.
Qed.

(** The JWT cache never skips a remote check it should make: a key counts
    as recent only if it was recorded at most one interval ago; and it stays
    within its capacity (at least one entry), each key listed once. *)
Theorem jwt_cache_sound (interval : N) (capacity : nat) (calls : list (N * N * str)) :
  let c := foldl (fun c '(n1, n2, k) => JwtCache.record n1 n2 k c) (JwtCache.new interval capacity) calls in
  (forall now k, JwtCache.is_recent now k c = true -> exists n1 n2, (n1, n2, k) ∈ calls /\ (now - n2 <= interval)%N) /\
  size (JwtCache.map c) <= Nat.max 1 capacity /\ NoDup (JwtCache.order c).
Proof.
  destruct (records_inv interval capacity calls) as ([H1 _ H3 H4] & Hc & Hi). intros c. fold c in H1, H3, H4, Hc, Hi.
  rewrite Hc in H3. split_and!; [|done|done].
  intros now k. unfold JwtCache.is_recent. destruct (JwtCache.map c !! k) as [last|] eqn:E; [|done].
  rewrite Hi. intros Hr. bool_prop. destruct (H4 _ _ E) as [n1 Hn]. exists n1, last.
  split; [|done]. by rewrite list_elem_of_In, <-in_rev, <-list_elem_of_In in Hn.
Qed.


(** A verifier with both strategies, a key set fetched on demand and an
    authorization server that knows one token. *)
Module Demo.
Import Verifier.
Definition v : @t unit unit str :=
  mk (Some (Single (s! "me"))) (Some (s! "https://as")) [tt]
     (mkStrategies (Some (s! "i")) true None None None (Some (s! "j")) None)
     (Some (JwtCache.new REMOTE_VERIFICATION_INTERVAL 10)) None.
Definition claims : AuthClaims := mkClaims None None None (Some 9%Z) (Some (s! "id")) None None None None.
Definition response : IntrospectionResponse :=
  mkIntrospection true None None (Some 9%Z) None (Some (Multiple [s! "me"])) (Some (s! "https://as")) (Some (s! "id")).
Definition verify := verify_token (Extra := unit) (fun _ => []) (fun _ => Ok (tt, Some (s! "k"))) (fun _ => Some (s! "k"))
  (fun _ => Ok tt) (fun _ _ _ => Ok claims) (fun _ => Body (Ok response)) (fun _ => Refused 500 []) (Ok [tt]) 0 0 v (s! "tok").
Definition info : AuthInfo unit := mkAuthInfo (s! "id") None None None (Some 9000000000%N) (Some (Multiple [s! "me"])) None.
End Demo.

