(* ===== verification/ServerRuntime.v ===== *)
(** * The server runtime

    Models crates/rust-mcp-sdk/src/: mcp_runtimes/server_runtime.rs
    ([ServerRuntime]), error.rs, the protocol version functions of utils.rs and
    the default [handle_initialize_request] of mcp_handlers/mcp_server_handler.rs.

    A transport is shared ([Arc]) between the runtime, the tasks of its stream
    and the HTTP handler: it is a number in a heap, and what the runtime needs of
    it is the class [TransportDispatcher], which the SSE transport implements.
    The user's handler is a parameter. *)
From S2P Require Import Prelude RustStr EventStore IdGen Dispatcher Transport Auth.

(** ** Errors *)

Inductive ProtocolErrorKind :=
| IncompatibleVersion (requested current : str)
| ParseError (e : str).

(** [enum McpSdkError] *)
Inductive McpSdkError :=
| ETransport (e : TransportError)
| EIo (e : IoError)
| ERpcError (e : RpcError)
| EJoin (e : str)
| EAuthentication (e : AuthenticationError)
| ESdkError (e : SdkError)
| EProtocol (kind : ProtocolErrorKind)
| EInternal (description : str).

(** ** Protocol versions *)

Definition ensure_server_protocole_compatibility (client_protocol_version server_protocol_version : str)
  : result unit McpSdkError :=
  match str_cmp client_protocol_version server_protocol_version with
  | Lt => Err (EProtocol (IncompatibleVersion client_protocol_version server_protocol_version))
  | Eq | Gt => Ok tt
  end.

Definition enforce_compatible_protocol_version (client_protocol_version server_protocol_version : str)
  : result (option str) McpSdkError :=
  match str_cmp client_protocol_version server_protocol_version with
  | Gt => Err (EProtocol (IncompatibleVersion client_protocol_version server_protocol_version))
  | Eq => Ok None
  | Lt => Ok (Some client_protocol_version)
  end.

(** ** What the runtime needs of a transport *)

Class TransportDispatcher (RequestId In Out Tr : Type) := {
  tr_start : Act Tr TransportError unit;
  tr_shut_down : Act Tr TransportError unit;
  tr_is_shut_down : Tr -> bool;
  tr_keep_alive : Act Tr TransportError unit; (* spawning the ping task *)
  tr_consume_string_payload : str -> Act Tr TransportError unit;
  tr_send_message : Messages Out -> option N -> Act Tr TransportError (option (Messages In));
  tr_send_batch : list Out -> option N -> Act Tr TransportError (option (list In));
  (** [pending_request_tx] and sending on what it returns: [None] without a
      pending request, else whether a receiver was there. *)
  tr_deliver : RequestId -> In -> Tr -> option bool * Tr;
}.

(** The SSE transport; what runs while it waits is a parameter. *)
Section SseInstance.
Context {RequestId : Type} `{Countable RequestId} {In Out W T St : Type}.
Context `{!AsyncWrite W} `{!AckChannel T} `{!EventStore St} `{!Message RequestId In} `{!Message RequestId Out}.
Context (as_batch : Messages In -> result (list In) SdkError) (show_error : TransportError -> str).
Context (now : N) (env0 env : MessageDispatcher.t RequestId In W T St -> MessageDispatcher.t RequestId In W T St).

Definition sse_deliver (id : RequestId) (m : In) (x : SseTransport.t RequestId In W T St)
  : option bool * SseTransport.t RequestId In W T St :=
  match SseTransport.pending_request_tx id x with
  | (None, x) => (None, x)
  | (Some c, x) =>
      match SseTransport.message_sender x with
      | None => (Some false, x)
      | Some s => let '(b, s) := MessageDispatcher.send_on c m s in (Some b, SseTransport.set_sender (Some s) x)
      end
  end.
Definition sse_dispatcher : TransportDispatcher RequestId In Out (SseTransport.t RequestId In W T St) := {|
  tr_start := SseTransport.start;
  tr_shut_down := SseTransport.shut_down;
  tr_is_shut_down := SseTransport.is_shut_down;
  tr_keep_alive := act_ret tt;
  tr_consume_string_payload := SseTransport.consume_string_payload;
  tr_send_message := SseTransport.send_message show_error now env0 env;
  tr_send_batch := SseTransport.send_batch as_batch show_error now env0 env;
  tr_deliver := sse_deliver;
|}.
End SseInstance.

Definition DEFAULT_STREAM_ID : str := s! "STANDALONE-STREAM".
Definition TASK_CHANNEL_CAPACITY : nat := 500.
Definition DEFAULT_TRANSPORT_WAIT_TIMEOUT : N := 10000. (* milliseconds *)

Module ServerRuntime.
Section Runtime.
(** The schema crate's messages from the client, as the runtime matches on
    them, and to it; the JSON values of [AuthInfo]; the client's details. *)
Context {RequestId Req Notif Resp Out MessageFromServer ResultFromServer Extra Details Tr : Type}.

Inductive ClientMessage :=
| Request (id : RequestId) (r : Req)
| Notification (n : Notif)
| Response (id : RequestId) (r : Resp)
| ErrorMessage (id : option RequestId) (e : RpcError).

Context `{!TransportDispatcher RequestId ClientMessage Out Tr}.

(** [struct ServerRuntime]; its [Notify] is whether a permit is stored. *)
Record t := mk {
  session_id : option str;
  transport_map : option nat;
  transport_ready : bool;
  request_id_gen : RequestIdGenNumeric.t;
  client_details : option Details;
  auth_info : option (AuthInfo Extra);
}.

(** The runtime and the transports it shares. *)
Record state := mkState { heap : list Tr; rt : t }.
Abbreviation M := (Act state McpSdkError).

Definition new_instance (session_id : str) (auth : option (AuthInfo Extra)) : t :=
  mk (Some session_id) None false (RequestIdGenNumeric.new None) None auth.
(** [new], its transport being the number [transport]. *)
Definition new (transport : nat) : t := mk None (Some transport) false (RequestIdGenNumeric.new None) None None.

Definition set_map (m : option nat) (ready : bool) (r : t) : t :=
  mk (session_id r) m ready (request_id_gen r) (client_details r) (auth_info r).
Definition with_rt (f : t -> t) (s : state) : state := mkState (heap s) (f (rt s)).
Definition set_auth_info (a : option (AuthInfo Extra)) (r : t) : t :=
  mk (session_id r) (transport_map r) (transport_ready r) (request_id_gen r) (client_details r) a.
Definition set_gen (g : RequestIdGenNumeric.t) (r : t) : t :=
  mk (session_id r) (transport_map r) (transport_ready r) g (client_details r) (auth_info r).

(** A method of the transport numbered [i]. *)
Definition on_transport {A} (i : nat) (f : Act Tr TransportError A) : M A :=
  fun s => match heap s !! i with
           | None => (Err (ETransport (Internal (s! "no such transport"))), s)
           | Some x => let '(r, x) := f x in
                       ((match r with Ok a => Ok a | Err e => Err (ETransport e) end), mkState (<[i := x]> (heap s)) (rt s))
           end.
Definition shut_at (i : nat) (s : state) : bool :=
  match heap s !! i with Some x => tr_is_shut_down x | None => true end.

(** The watch receiver is a field of the runtime, so sending never fails. *)
Definition set_client_details (d : Details) : M unit :=
  act_modify (with_rt (fun r =>
    mk (session_id r) (transport_map r) (transport_ready r) (request_id_gen r) (Some d) (auth_info r))).
Definition is_initialized (s : state) : bool := is_some (client_details (rt s)).

Definition update_auth_info (new_auth_info : option (AuthInfo Extra)) (r : t) : t :=
  let should_update := match auth_info r, new_auth_info with
                       | None, Some _ => true
                       | Some old, Some new => negb (bool_decide (token_unique_id old = token_unique_id new))
                       | Some _, None => true
                       | None, None => false
                       end in
  if should_update then set_auth_info new_auth_info r else r.

(** ** The DEFAULT stream *)

Definition store_transport (stream_id : str) (transport : nat) : M unit :=
  if negb (bool_decide (stream_id = DEFAULT_STREAM_ID)) then act_ret tt
  else act_modify (with_rt (set_map (Some transport) true)).

Definition default_stream_exists (s : state) : bool :=
  match transport_map (rt s) with Some i => negb (shut_at i s) | None => false end.

(** [wait_for_live_default_transport]: it returns the live transport if there
    is one, else it waits, [env] running, and looks again at every wake-up;
    [env] is what runs until it stops waiting. *)
Definition live_transport (s : state) : option nat :=
  match transport_map (rt s) with Some i => if shut_at i s then None else Some i | None => None end.
Definition timed_out : McpSdkError :=
  ESdkError (mkSdkError internal_error (Some (s! "Timed out waiting for DEFAULT transport storage"))).
Definition wait_for_live_default_transport (env : state -> state) : M nat :=
  fun s =>
    let s := match live_transport s with Some _ => s | None => env s end in
    match live_transport s with
    | Some i => (Ok i, with_rt (set_map (transport_map (rt s)) true) s)
    | None => (Err timed_out, s)
    end.
Definition wait_for_transport_ready (env : state -> state) : M unit :=
  do _ <- wait_for_live_default_transport env; act_ret tt.

Definition remove_transport (stream_id : str) (transport_to_remove : nat) : M unit :=
  if negb (bool_decide (stream_id = DEFAULT_STREAM_ID)) then act_ret tt
  else fun s =>
    match transport_map (rt s) with
    | Some current => if bool_decide (current = transport_to_remove)
                      then on_transport current tr_shut_down s else (Ok tt, s)
    | None => (Ok tt, s)
    end.

Definition shutdown (s : state) : state :=
  match transport_map (rt s) with
  | None => s
  | Some i => (on_transport i tr_shut_down (with_rt (set_map None (transport_ready (rt s))) s)).2
  end.

Definition no_transport (what : str) : McpSdkError := ERpcError (mkRpcError internal_error (Some what)).
Definition TRANSPORT_CLOSED : str := s! "transport stream does not exists or is closed!".

Definition consume_payload_string (payload : str) : M unit :=
  fun s => match transport_map (rt s) with
           | None => (Err (no_transport (s! "stream id does not exists or is closed!")), s)
           | Some i => on_transport i (tr_consume_string_payload payload) s
           end.

(** ** Sending *)

(** [ServerMessage::from_message], [as_single], and the kind of a message. *)
Context (from_message : MessageFromServer -> option Z -> result Out RpcError).
Context (answer_message : ResultFromServer + RpcError -> RequestId -> result Out RpcError).
Context (is_request_fs is_notification_fs : MessageFromServer -> bool).
Context (as_single : Messages ClientMessage -> result ClientMessage SdkError).

Definition lift_rpc {A} (r : result A RpcError) : M A :=
  act_lift (match r with Ok a => Ok a | Err e => Err (ERpcError e) end).
Definition single_response (response : option (Messages ClientMessage)) : M (option ClientMessage) :=
  match response with
  | None => act_ret None
  | Some r => match as_single r with Ok m => act_ret (Some m) | Err e => act_fail (ESdkError e) end
  end.

(** [send]: [active] is the transport of the request being handled, if any;
    [env] runs while it waits for the standalone stream.  [None] is the panic of
    [request_id_for_message]. *)
Definition send_on_transport (i : nat) (mcp_message : Out) (timeout : option N) : M (option ClientMessage) :=
  do response <- on_transport i (tr_send_message (Dispatcher.Single mcp_message) timeout);
  single_response response.
Definition send (active : option nat) (env : state -> state) (message : MessageFromServer)
  (request_id : option Z) (timeout : option N) (s : state) : option (result (option ClientMessage) McpSdkError * state) :=
  '(outgoing_request_id, g) ← RequestIdGenNumeric.request_id_for_message
      (is_request_fs message) (is_notification_fs message) request_id (request_id_gen (rt s));
  let s := with_rt (set_gen g) s in
  Some ((do mcp_message <- lift_rpc (from_message message outgoing_request_id);
         match (if is_notification_fs message then active else None) with
         | Some req_transport => send_on_transport req_transport mcp_message timeout
         | None =>
             if is_notification_fs message then
               fun s => match transport_map (rt s) with
                        | None => (Err (no_transport TRANSPORT_CLOSED), s)
                        | Some i => send_on_transport i mcp_message timeout s
                        end
             else do i <- wait_for_live_default_transport env; send_on_transport i mcp_message timeout
         end) s).

Definition send_batch (messages : list Out) (timeout : option N) : M (option (list ClientMessage)) :=
  fun s => match transport_map (rt s) with
           | None => (Err (no_transport TRANSPORT_CLOSED), s)
           | Some i => on_transport i (tr_send_batch messages timeout) s
           end.

(** ** Handling messages *)

(** The user's [McpServerHandler]. *)
Context (handle_request : RequestId -> Req -> state -> result ResultFromServer RpcError * state).
Context (handle_notification : Notif -> M unit) (handle_error : RpcError -> M unit).

(** Handing a response to the sender that waits for it on this transport. *)
Definition deliver_response (transport : nat) (id : RequestId) (m : ClientMessage) : M unit :=
  fun s => match heap s !! transport with
           | None => (Ok tt, s)
           | Some x =>
               let '(o, x) := tr_deliver id m x in
               ((match o with
                 | Some false => Err (ERpcError (mkRpcError internal_error None)) (* with the message's text *)
                 | _ => Ok tt
                 end), mkState (<[transport := x]> (heap s)) (rt s))
           end.

Definition handle_message (message : ClientMessage) (transport : nat) : M (option Out) :=
  match message with
  | Request request_id r =>
      fun s =>
        let '(res, s) := handle_request request_id r s in
        match res with
        | Err error_value =>
            if negb (is_initialized s) then (Err (ERpcError error_value), s)
            else (do m <- lift_rpc (answer_message (inr error_value) request_id); act_ret (Some m)) s
        | Ok success_value =>
            (do m <- lift_rpc (answer_message (inl success_value) request_id); act_ret (Some m)) s
        end
  | Notification n => do _ <- handle_notification n; act_ret None
  | ErrorMessage id e =>
      do _ <- handle_error e;
      match id with
      | Some request_id => do _ <- deliver_response transport request_id message; act_ret None
      | None => act_ret None
      end
  | Response id r => do _ <- deliver_response transport id message; act_ret None
  end.

(** The task spawned for what one line of input holds.  A batch's handlers are
    joined: the first one that fails stops the others. *)
Definition handle_single (m : ClientMessage) (transport : nat) : M (option (Messages ClientMessage)) :=
  fun s => match handle_message m transport s with
           | (Ok (Some result), s) => on_transport transport (tr_send_message (Dispatcher.Single result) None) s
           | (Ok None, s) => (Ok None, s)
           | (Err _, s) => (Ok None, s) (* logged *)
           end.
Definition handle_batch (ms : list ClientMessage) (transport : nat) : M (option (Messages ClientMessage)) :=
  do results <- act_map (fun m => handle_message m transport) ms;
  match omap (fun x => x) results with
  | [] => act_ret None
  | results => on_transport transport (tr_send_message (Batch results) None)
  end.
Definition handle_messages (m : Messages ClientMessage) (transport : nat) : M (option (Messages ClientMessage)) :=
  match m with Dispatcher.Single m => handle_single m transport | Batch ms => handle_batch ms transport end.

(** ** A stream *)

(** [start_stream] up to its loop. *)
Definition start_stream (transport : nat) (stream_id : str) (payload : option str) : M unit :=
  do _ <- on_transport transport tr_start;
  do _ <- store_transport stream_id transport;
  do _ <- on_transport transport tr_keep_alive;
  match payload with
  | None => act_ret tt
  | Some payload =>
      fun s => match on_transport transport (tr_consume_string_payload payload) s with
               | (Ok _, s) => (Ok tt, s)
               | (Err err, s) => let '(_, s) := remove_transport stream_id transport s in (Err err, s)
               end
  end.

(** Its loop: each thing that arrives is handled by a spawned task, which sends
    its result to the loop; tasks may end in any order. *)
Inductive event := Incoming (m : Messages ClientMessage) | TaskDone (k : nat) | Disconnected.
Inductive phase := Reading | Draining (disconnected : bool) | Ended (r : result unit McpSdkError).
Record loop := mkLoop {
  lphase : phase;
  pending : list (Messages ClientMessage); (* the running tasks *)
  results : list (result unit McpSdkError); (* the channel of results *)
}.
Definition new_loop : loop := mkLoop Reading [] [].

Fixpoint first_error {E} (rs : list (result unit E)) : option E :=
  match rs with [] => None | Ok _ :: r => first_error r | Err e :: _ => Some e end.

(** The loop returns, and the task that [create_sse_stream] spawned for it
    removes the transport. *)
Definition end_stream (transport : nat) (stream_id : str) (r : result unit McpSdkError) (l : loop) (s : state) : loop * state :=
  (mkLoop (Ended r) (pending l) [], (remove_transport stream_id transport s).2).

(** Collecting the results of the tasks that remain. *)
Definition settle (transport : nat) (stream_id : str) (disconnected : bool) (l : loop) (s : state) : loop * state :=
  match first_error (results l), pending l with
  | Some e, _ => end_stream transport stream_id (Err e) l s
  | None, _ :: _ => (mkLoop (Draining disconnected) (pending l) [], s)
  | None, [] =>
      if disconnected then
        match remove_transport stream_id transport s with
        | (Ok _, s) => end_stream transport stream_id (Err (ESdkError (mkSdkError connection_closed None))) l s
        | (Err e, s) => end_stream transport stream_id (Err e) l s
        end
      else end_stream transport stream_id (Ok tt) l s
  end.

Definition loop_step (transport : nat) (stream_id : str) (ls : loop * state) (e : event) : loop * state :=
  let '(l, s) := ls in
  match e with
  | TaskDone k =>
      match pending l !! k with
      | None => (l, s)
      | Some m =>
          let '(r, s) := handle_messages m transport s in
          let r := match r with Ok _ => Ok tt | Err e => Err e end in
          let l := mkLoop (lphase l) (delete k (pending l)) (results l ++ [r]) in
          match lphase l with Draining d => settle transport stream_id d l s | _ => (l, s) end
      end
  | Incoming m =>
      match lphase l with
      | Reading =>
          let l := mkLoop Reading (pending l ++ [m]) (results l) in
          match first_error (results l) with
          | Some e => end_stream transport stream_id (Err e) l s
          | None => let l := mkLoop Reading (pending l) [] in
                    if negb (bool_decide (stream_id = DEFAULT_STREAM_ID)) then settle transport stream_id false l s
                    else (l, s)
          end
      | _ => (l, s)
      end
  | Disconnected => match lphase l with Reading => settle transport stream_id true l s | _ => (l, s) end
  end.

(** The whole task. *)
Definition stream_task (transport : nat) (stream_id : str) (payload : option str) (events : list event) (s : state)
  : loop * state :=
  match start_stream transport stream_id payload s with
  | (Err e, s) => end_stream transport stream_id (Err e) new_loop s
  | (Ok _, s) => foldl (loop_step transport stream_id) (new_loop, s) events
  end.
End Runtime.
Arguments t Extra Details : clear implicits.
Arguments state Extra Details Tr : clear implicits.
Arguments ClientMessage RequestId Req Notif Resp : clear implicits.
Arguments mkState {Extra Details Tr} heap rt.
Arguments heap {Extra Details Tr} s.
Arguments rt {Extra Details Tr} s.
Arguments mk {Extra Details}.
Arguments event RequestId Req Notif Resp : clear implicits.
Arguments loop RequestId Req Notif Resp : clear implicits.
Arguments Incoming {RequestId Req Notif Resp} m.
Arguments TaskDone {RequestId Req Notif Resp} k.
Arguments Disconnected {RequestId Req Notif Resp}.
Arguments mkLoop {RequestId Req Notif Resp}.
Arguments new_loop {RequestId Req Notif Resp}.
End ServerRuntime.

(** ** Initialization *)

(** The default [handle_initialize_request]: the protocol version of the answer,
    and the client's details stored. *)
Section Initialize.
Context {Extra Details Tr : Type} (show_error : McpSdkError -> str).
Definition handle_initialize_request (server_version client_version : str) (params : Details)
  (s : ServerRuntime.state Extra Details Tr) : result str RpcError * ServerRuntime.state Extra Details Tr :=
  match enforce_compatible_protocol_version client_version server_version with
  | Err err => (Err (mkRpcError internal_error (Some (show_error err))), s)
  | Ok updated =>
      match ServerRuntime.set_client_details params s with
      | (Err err, s) => (Err (mkRpcError internal_error (Some (show_error err))), s)
      | (Ok _, s) => (Ok (from_option (fun v => v) server_version updated), s)
      end
  end.
End Initialize.

(** ** Facts *)

Module ServerRuntimeFacts.
Import ServerRuntime.
Section Facts.
Context {RequestId Req Notif Resp Out Extra Details Tr : Type}.
Abbreviation CM := (ClientMessage RequestId Req Notif Resp).
Context `{!TransportDispatcher RequestId CM Out Tr}.
Implicit Types (s : state Extra Details Tr) (i j : nat).

Lemma on_transport_spec {A} i (f : Act Tr TransportError A) s :
  rt (on_transport i f s).2 = rt s /\ (forall j, j <> i -> heap (on_transport i f s).2 !! j = heap s !! j) /\
  (forall x, heap s !! i = Some x ->
     heap (on_transport i f s).2 !! i = Some (f x).2 /\
     (on_transport i f s).1 = match (f x).1 with Ok a => Ok a | Err e => Err (ETransport e) end).
Proof.
  unfold on_transport. destruct (heap s !! i) as [x|] eqn:E; [|by repeat split].
  destruct (f x) as [r x'] eqn:Ef. cbn. split_and!; [done|intros j Hj; by rewrite list_lookup_insert_ne|].
  intros y [= <-]. rewrite Ef. split; [|done]. rewrite list_lookup_insert_eq; [done|by apply lookup_lt_Some in E].
Qed.

(** The operations by which streams come and go. *)
Inductive op :=
| OStore (stream_id : str) (transport : nat)
| ORemove (stream_id : str) (transport : nat)
| OShutdown
| OUpdateAuth (a : option (AuthInfo Extra)).
Definition apply s (o : op) : state Extra Details Tr :=
  match o with
  | OStore st i => (store_transport st i s).2
  | ORemove st i => (remove_transport st i s).2
  | OShutdown => shutdown s
  | OUpdateAuth a => with_rt (update_auth_info a) s
  end.
Definition run (os : list op) s : state Extra Details Tr := foldl apply s os.

(** The current standalone transport after these operations. *)
Definition current (m : option nat) (os : list op) : option nat :=
  foldl (fun m o => match o with
                    | OStore st i => if decide (st = DEFAULT_STREAM_ID) then Some i else m
                    | OShutdown => None
                    | _ => m end) m os.

Lemma apply_map s o : transport_map (rt (apply s o)) = current (transport_map (rt s)) [o].
Proof.
  destruct o as [st i|st i| |a]; simpl.
  - unfold store_transport. case_bool_decide; simpl; [by rewrite decide_True|by rewrite decide_False].
  - unfold remove_transport. case_bool_decide; simpl; [|done].
    destruct (transport_map (rt s)) as [j|] eqn:E; simpl; [|by rewrite E]. case_bool_decide; simpl; [|by rewrite E].
    destruct (on_transport_spec j tr_shut_down s) as (-> & _). by rewrite E.
  - unfold shutdown. destruct (transport_map (rt s)) as [j|] eqn:E; simpl; [|by rewrite E].
    match goal with |- context [on_transport j ?f ?s1] => by destruct (on_transport_spec j f s1) as (-> & _) end.
  - unfold update_auth_info. by case_match.
Qed.

Lemma run_map os s : transport_map (rt (run os s)) = current (transport_map (rt s)) os.
Proof. revert s; induction os as [|o os IH]; intros s; [done|]. unfold run, current in *. simpl. by rewrite IH, apply_map. Qed.

(** Which operations may touch transport [i]: its own teardown while it is the
    current one, and the shutdown of the session while it is. *)
Definition touches (m : option nat) i (o : op) : bool :=
  match o with
  | ORemove st j => bool_decide (st = DEFAULT_STREAM_ID) && bool_decide (j = i) && bool_decide (m = Some i)
  | OShutdown => bool_decide (m = Some i)
  | _ => false
  end.
Fixpoint untouched (m : option nat) i (os : list op) : bool :=
  match os with [] => true | o :: r => negb (touches m i o) && untouched (current m [o]) i r end.

Lemma apply_heap s o i : touches (transport_map (rt s)) i o = false -> heap (apply s o) !! i = heap s !! i.
Proof.
  destruct o as [st j|st j| |a]; simpl; intros Ht; [|..|done].
  - unfold store_transport. by case_bool_decide.
  - unfold remove_transport. case_bool_decide as Hst; simpl in *; [|done].
    destruct (transport_map (rt s)) as [c|] eqn:E; [|done].
    destruct (decide (c = j)) as [->|Hc]; [rewrite bool_decide_true by done|by rewrite bool_decide_false].
    destruct (on_transport_spec j tr_shut_down s) as (_ & Hh & _). rewrite Hh; [done|]. intros ->.
    by rewrite !bool_decide_eq_true_2 in Ht.
  - unfold shutdown. destruct (transport_map (rt s)) as [c|] eqn:E; [|done]. bool_prop.
    match goal with |- context [on_transport c ?f ?s1] => destruct (on_transport_spec c f s1) as (_ & Hh & _) end.
    rewrite Hh; [done|]. congruence.
Qed.

Lemma run_heap os s i : untouched (transport_map (rt s)) i os = true -> heap (run os s) !! i = heap s !! i.
Proof.
  revert s; induction os as [|o os IH]; intros s; [done|]. cbn [untouched]. intros [H1 H2]%andb_true_iff.
  apply negb_true_iff in H1. change (run (o :: os) s) with (run os (apply s o)).
  rewrite IH by (by rewrite apply_map). by apply apply_heap.
Qed.

Lemma remove_other st i s : st <> DEFAULT_STREAM_ID -> remove_transport st i s = (Ok tt, s).
Proof. intros Hs. unfold remove_transport. by rewrite bool_decide_eq_false_2. Qed.

Lemma on_transport_rt {A} i (f : Act Tr TransportError A) s a s' : on_transport i f s = (a, s') -> rt s' = rt s.
Proof. intros E. destruct (on_transport_spec i f s) as (K & _). by rewrite E in K. Qed.

Lemma start_stream_map i s s' : start_stream i DEFAULT_STREAM_ID None s = (Ok tt, s') -> transport_map (rt s') = Some i.
Proof.
  unfold start_stream, act_bind, act_ret. destruct (on_transport i tr_start s) as [[[]|e] s1]; [|done].
  unfold store_transport. rewrite bool_decide_true by done. cbn [negb act_modify].
  destruct (on_transport i tr_keep_alive _) as [[[]|e] s2] eqn:E; [|done]. intros [= <-].
  by rewrite (on_transport_rt _ _ _ _ _ E).
Qed.

Lemma update_auth_map (a : option (AuthInfo Extra)) (r : t Extra Details) :
  transport_map (update_auth_info a r) = transport_map r.
Proof. unfold update_auth_info. by case_match. Qed.

Lemma wait_at_once s : wait_for_live_default_transport (fun s => s) s =
  match live_transport s with Some i => (Ok i, with_rt (set_map (transport_map (rt s)) true) s) | None => (Err timed_out, s) end.
Proof. unfold wait_for_live_default_transport. by destruct (live_transport s) eqn:E; rewrite E. Qed.
Lemma default_stream_live s : default_stream_exists s = is_some (live_transport s).
Proof. unfold default_stream_exists, live_transport. destruct (transport_map (rt s)) as [i|]; [|done]. by destruct (shut_at i s). Qed.

Lemma live_transport_Some s i : live_transport s = Some i -> transport_map (rt s) = Some i /\ shut_at i s = false.
Proof. unfold live_transport. destruct (transport_map (rt s)) as [j|]; [|done]. destruct (shut_at j s) eqn:E; [done|by intros [= <-]]. Qed.
End Facts.
End ServerRuntimeFacts.

Import ServerRuntime ServerRuntimeFacts.

Section Ownership.
Context {RequestId Req Notif Resp Out Extra Details Tr : Type}.
Context `{!TransportDispatcher RequestId (ClientMessage RequestId Req Notif Resp) Out Tr}.
Implicit Types (s : state Extra Details Tr) (i j : nat).

(** C15. The session's standalone stream has one owner.  After any sequence of
    streams starting, ending, the session being shut down or its authentication
    updated, the current transport is the last one stored, unless a shutdown
    followed; a transport is only ever shut down by its own teardown while it is
    current, or by a shutdown while it is current, so that the late teardown of
    an earlier stream never touches a newer connection; its own teardown leaves
    it in place, shut down; and waiting for the stream returns a transport that
    is current and alive. *)
Theorem stream_ownership (os : list (op (Extra := Extra))) s i :
  let s' := run os s in
  transport_map (rt s') = current (transport_map (rt s)) os /\
  (untouched (transport_map (rt s)) i os = true -> heap s' !! i = heap s !! i) /\
  (forall x, transport_map (rt s') = Some i -> heap s' !! i = Some x ->
     let s2 := apply s' (ORemove DEFAULT_STREAM_ID i) in
     transport_map (rt s2) = Some i /\ heap s2 !! i = Some (tr_shut_down x).2) /\
  (forall env j s2, wait_for_live_default_transport env s' = (Ok j, s2) ->
     transport_map (rt s2) = Some j /\ shut_at j s2 = false /\ default_stream_exists s2 = true).
Proof.
  intros s'. split; [apply run_map|split; [apply run_heap|]]. clearbody s'. split.
  - intros x Hm Hx. cbn zeta. cbn [apply]. unfold remove_transport.
    rewrite bool_decide_true by done. cbn [negb]. rewrite Hm, bool_decide_true by done.
    destruct (on_transport_spec i tr_shut_down s') as (-> & _ & Hi). split; [done|]. by apply Hi.
  - intros env j s2. unfold wait_for_live_default_transport.
    set (s1 := match live_transport s' with Some _ => s' | None => env s' end).
    destruct (live_transport s1) as [k|] eqn:E; [|done]. intros [= -> <-].
    apply live_transport_Some in E as [Hm Hs]. unfold default_stream_exists, shut_at. cbn. rewrite Hm.
    unfold shut_at in Hs. by rewrite Hs.
Qed.
End Ownership.

(** What the loop of a stream for one exchange makes of its events. *)
Section Exchange.
Context {RequestId Req Notif Resp Out ResultFromServer Extra Details Tr : Type}.
Abbreviation CM := (ClientMessage RequestId Req Notif Resp).
Context `{!TransportDispatcher RequestId CM Out Tr}.
Context (answer_message : ResultFromServer + RpcError -> RequestId -> result Out RpcError).
Context (handle_request : RequestId -> Req -> state Extra Details Tr -> result ResultFromServer RpcError * state Extra Details Tr).
Context (handle_notification : Notif -> Act (state Extra Details Tr) McpSdkError unit).
Context (handle_error : RpcError -> Act (state Extra Details Tr) McpSdkError unit).
Implicit Types (s : state Extra Details Tr) (i : nat) (ls : loop RequestId Req Notif Resp * state Extra Details Tr).
Abbreviation step i st := (loop_step answer_message handle_request handle_notification handle_error i st).
Abbreviation handled m i s := (handle_messages answer_message handle_request handle_notification handle_error m i s).

Lemma ended_stays i st r s es : foldl (step i st) (mkLoop (Ended r) [] [], s) es = (mkLoop (Ended r) [] [], s).
Proof. induction es as [|[] es IH]; [done..]. Qed.

Lemma draining_one i st m s es : st <> DEFAULT_STREAM_ID ->
  let ls' := foldl (step i st) (mkLoop (Draining false) [m] [], s) es in
  ls' = (mkLoop (Draining false) [m] [], s) \/
  ls' = (mkLoop (Ended (match (handled m i s).1 with Ok _ => Ok tt | Err e => Err e end)) [] [], (handled m i s).2).
Proof.
  intros Hst. induction es as [|e es IH]; [by left|]. cbn [foldl].
  destruct e as [m'|[|k]|]; [exact IH| |exact IH..]. right.
  cbn [loop_step pending lookup list_lookup delete list_delete lphase results app].
  destruct (handled m i s) as [r s'] eqn:Eh. cbn [fst snd].
  unfold settle. cbn [results pending first_error]. destruct r as [o|e]; unfold end_stream; cbn [pending];
    rewrite remove_other by done; apply ended_stays.
Qed.

Lemma idle_task_done i st s dones es :
  foldl (step i st) (new_loop, s) ((TaskDone <$> dones) ++ es) = foldl (step i st) (new_loop, s) es.
Proof. induction dones as [|k dones IH]; [done|exact IH]. Qed.

(** Starting a stream that is not the standalone one concerns its transport only. *)
Definition only i s s' : Prop := rt s' = rt s /\ forall j, j <> i -> heap s' !! j = heap s !! j.
Lemma only_trans i s1 s2 s3 : only i s1 s2 -> only i s2 s3 -> only i s1 s3.
Proof. intros [H1 K1] [H2 K2]. split; [congruence|]. intros j Hj. by rewrite K2, K1. Qed.
Lemma on_transport_only {A} i (f : Act Tr TransportError A) s : only i s (on_transport i f s).2.
Proof. by destruct (on_transport_spec i f s) as (H & K & _). Qed.
Lemma bind_only {A B} i (f : Act (state Extra Details Tr) McpSdkError A) (k : A -> Act (state Extra Details Tr) McpSdkError B) s :
  (forall s, only i s (f s).2) -> (forall a s, only i s (k a s).2) -> only i s (act_bind f k s).2.
Proof.
  intros Hf Hk. unfold act_bind. specialize (Hf s). destruct (f s) as [[a|e] s1]; [|done].
  by eapply only_trans, Hk.
Qed.
Lemma only_refl i s : only i s s.
Proof. done. Qed.
#[local] Hint Resolve on_transport_only bind_only only_refl : rust.
Lemma start_stream_only i st payload s : st <> DEFAULT_STREAM_ID -> only i s (start_stream i st payload s).2.
Proof.
  intros Hst. unfold start_stream, store_transport. rewrite bool_decide_eq_false_2 by done. cbn [negb].
  apply bind_only; [|intros _ s1; apply bind_only; [|intros _ s2; apply bind_only; [|intros _ s3]]]; auto with rust.
  destruct payload as [p|]; [|apply only_refl]. pose proof (on_transport_only i (tr_consume_string_payload p) s3) as K.
  destruct (on_transport i _ s3) as [[[]|e] s4]; [exact K|]. by rewrite remove_other.
Qed.

(** A stream opened for one message carries one exchange.  Once it has
    started, which concerns its own transport only, it takes the first message
    that arrives, whatever else arrives, disconnects or ends meanwhile; it ends
    with the outcome of that message's handling as soon as the handling is
    done, and nothing that comes later is handled.  If the connection is lost
    before a message arrives, it ends with [connection_closed] and handles
    none. *)
Theorem post_stream_one_exchange i st payload s s1 (dones : list nat) m es :
  st <> DEFAULT_STREAM_ID -> start_stream i st payload s = (Ok tt, s1) ->
  let task es := stream_task answer_message handle_request handle_notification handle_error i st payload es s in
  let waiting := (mkLoop (Draining false) [m] [], s1) in
  let answered := (mkLoop (Ended (match (handled m i s1).1 with Ok _ => Ok tt | Err e => Err e end)) [] [], (handled m i s1).2) in
  only i s s1 /\
  (task ((TaskDone <$> dones) ++ Incoming m :: es) = waiting \/ task ((TaskDone <$> dones) ++ Incoming m :: es) = answered) /\
  task ((TaskDone <$> dones) ++ Incoming m :: es ++ [TaskDone 0]) = answered /\
  task ((TaskDone <$> dones) ++ Disconnected :: es)
  = (mkLoop (Ended (Err (ESdkError (mkSdkError connection_closed None)))) [] [], s1).
Proof.
  intros Hst Hs1 task waiting answered.
  assert (T : forall es, task es = foldl (step i st) (new_loop, s1) es) by (intros; unfold task, stream_task; by rewrite Hs1).
  assert (F : forall es, foldl (step i st) (new_loop, s1) (Incoming m :: es) = foldl (step i st) waiting es).
  { intros es'. cbn [foldl loop_step lphase new_loop results first_error pending app]. by rewrite bool_decide_eq_false_2. }
  pose proof (start_stream_only i st payload s Hst) as Ho. rewrite Hs1 in Ho. split; [exact Ho|].
  rewrite !T, !idle_task_done, !F, foldl_app. split; [by apply draining_one|]. split.
  - unfold waiting. destruct (draining_one i st m s1 es Hst) as [E|E]; rewrite E; [|apply ended_stays]. clear E.
     pose proof (draining_one i st m s1 [TaskDone 0] Hst) as [E|E]; [|exact E]. exfalso. revert E.
    cbn [foldl loop_step pending lookup list_lookup delete list_delete lphase results app].
    destruct (handled m i s1) as [[o|e] s']; unfold settle, end_stream; by cbn.
  - cbn [foldl loop_step lphase new_loop]. unfold settle. cbn [results pending new_loop first_error].
    rewrite remove_other by done. unfold end_stream. rewrite remove_other by done. apply ended_stays.
Qed.
End Exchange.

(** Over the SSE transport. *)
Section Answers.
Context {RequestId : Type} `{Countable RequestId} {Req Notif Resp Out ResultFromServer Extra Details W T St : Type}.
Abbreviation CM := (ClientMessage RequestId Req Notif Resp).
Context `{!AsyncWrite W} `{!AckChannel T} `{!EventStore St} `{!Message RequestId CM} `{!Message RequestId Out}.
Abbreviation Transport := (SseTransport.t RequestId CM W T St).
Context (as_batch : Messages CM -> result (list CM) SdkError) (show_error : TransportError -> str).
Context (now : N) (env0 env : MessageDispatcher.t RequestId CM W T St -> MessageDispatcher.t RequestId CM W T St).
#[local] Instance dispatcher : TransportDispatcher RequestId CM Out Transport :=
  sse_dispatcher as_batch show_error now env0 env.
Implicit Types (s : state Extra Details Transport) (i : nat) (x : Transport) (d : MessageDispatcher.t RequestId CM W T St).

(** The state after transport [i]'s dispatcher became [d]. *)
Definition with_dispatcher i x d s : state Extra Details Transport :=
  mkState (<[i := SseTransport.set_sender (Some d) x]> (heap s)) (rt s).

Lemma send_plain i x d d' s (o : Out) payload :
  is_request (RequestId := RequestId) o = false -> to_json (RequestId := RequestId) o = Some payload ->
  heap s !! i = Some x -> SseTransport.message_sender x = Some d ->
  MessageDispatcher.server_write_str now payload false d = (Ok tt, d') ->
  on_transport i (tr_send_message (Dispatcher.Single o) None) s = (Ok None, with_dispatcher i x d' s).
Proof.
  intros Hr Hj Hx Hd Hw. unfold on_transport. rewrite Hx. cbn [tr_send_message dispatcher sse_dispatcher].
  unfold SseTransport.send_message, SseTransport.with_sender. rewrite Hd.
  unfold MessageDispatcher.server_send_message, act_get, act_bind, MessageDispatcher.store_pending_request_for_message.
  rewrite Hr, Hj. unfold act_ret, MessageDispatcher.serialize, act_lift, ok_or. by rewrite Hw.
Qed.

Lemma deliver_on i x d s id (m : CM) : heap s !! i = Some x -> SseTransport.message_sender x = Some d ->
  exists r, deliver_response i id m s = (r, with_dispatcher i x (MessageDispatcher.deliver id m d).2 s).
Proof.
  intros Hx Hd. unfold deliver_response. rewrite Hx. cbn [tr_deliver dispatcher sse_dispatcher].
  unfold sse_deliver, SseTransport.pending_request_tx, MessageDispatcher.deliver. rewrite Hd.
  destruct (MessageDispatcher.pending_request_tx id d) as [[c|] d1]; cbn; [|by eexists].
  destruct (MessageDispatcher.send_on c m d1) as [b d2]. by eexists.
Qed.

Context (answer_message : ResultFromServer + RpcError -> RequestId -> result Out RpcError).
Context (handle_request : RequestId -> Req -> state Extra Details Transport -> result ResultFromServer RpcError * state Extra Details Transport).
Context (handle_notification : Notif -> Act (state Extra Details Transport) McpSdkError unit).
Context (handle_error : RpcError -> Act (state Extra Details Transport) McpSdkError unit).
Abbreviation handle := (handle_single answer_message handle_request handle_notification handle_error).

(** C16. Every message of a client is handled on the stream it came by.  A
    request is answered there, by one message made of the handler's result or
    error and the request's id, except an error before the session is
    initialized, after which nothing at all is sent; a response or an error
    response is given to the request of that stream that waits for it, and
    to no other stream; a notification is not answered. *)
Theorem client_message_handled i s :
  (forall id r res s1, handle_request id r s = (res, s1) ->
     match res, is_initialized s1 with
     | Err _, false => handle (Request id r) i s = (Ok None, s1)
     | _, _ => forall o payload x d d',
         answer_message (match res with Ok v => inl v | Err e => inr e end) id = Ok o ->
         is_request (RequestId := RequestId) o = false -> to_json (RequestId := RequestId) o = Some payload ->
         heap s1 !! i = Some x -> SseTransport.message_sender x = Some d ->
         MessageDispatcher.server_write_str now payload false d = (Ok tt, d') ->
         handle (Request id r) i s = (Ok None, with_dispatcher i x d' s1)
     end) /\
  (forall id r x d, heap s !! i = Some x -> SseTransport.message_sender x = Some d ->
     handle (Response id r) i s
     = (Ok None, with_dispatcher i x (MessageDispatcher.deliver id (Response id r : CM) d).2 s)) /\
  (forall id e s1 x d, handle_error e s = (Ok tt, s1) -> heap s1 !! i = Some x -> SseTransport.message_sender x = Some d ->
     handle (ErrorMessage (Some id) e) i s
     = (Ok None, with_dispatcher i x (MessageDispatcher.deliver id (ErrorMessage (Some id) e : CM) d).2 s1)) /\
  (forall n, handle (Notification n) i s = (Ok None, (handle_notification n s).2)).
Proof.
  unfold handle_single, handle_message. split_and!.
  - intros id r res s1 ->. destruct res as [v|e].
    + intros o payload x d d' Ho Hr Hj Hx Hd Hw. unfold lift_rpc, act_lift, act_bind, act_ret. rewrite Ho.
      by eapply send_plain.
    + destruct (is_initialized s1); cbn [negb]; [|done].
      intros o payload x d d' Ho Hr Hj Hx Hd Hw. unfold lift_rpc, act_lift, act_bind, act_ret. rewrite Ho.
      by eapply send_plain.
  - intros id r x d Hx Hd. unfold act_bind. destruct (deliver_on i x d s id (Response id r) Hx Hd) as [[[]|e] ->]; done.
  - intros id e s1 x d He Hx Hd. unfold act_bind. rewrite He.
    destruct (deliver_on i x d s1 id (ErrorMessage (Some id) e) Hx Hd) as [[[]|e'] ->]; done.
  - intros n. unfold act_bind. by destruct (handle_notification n s) as [[[]|e] s1].
Qed.

Lemma send_plain_state i x d s (o : Out) payload timeout :
  is_request (RequestId := RequestId) o = false -> to_json (RequestId := RequestId) o = Some payload ->
  heap s !! i = Some x -> SseTransport.message_sender x = Some d ->
  (on_transport i (tr_send_message (Dispatcher.Single o) timeout) s).2
  = with_dispatcher i x (MessageDispatcher.server_write_str now payload false d).2 s.
Proof.
  intros Hr Hj Hx Hd. unfold on_transport. rewrite Hx. cbn [tr_send_message dispatcher sse_dispatcher].
  unfold SseTransport.send_message, SseTransport.with_sender. rewrite Hd.
  unfold MessageDispatcher.server_send_message, act_get, act_bind, MessageDispatcher.store_pending_request_for_message.
  rewrite Hr, Hj. unfold act_ret, MessageDispatcher.serialize, act_lift, ok_or.
  by destruct (MessageDispatcher.server_write_str now payload false d) as [[[]|e] d'].
Qed.

Lemma send_on_state (as_single : Messages CM -> result CM SdkError) i (o : Out) timeout s :
  exists r, send_on_transport as_single i o timeout s = (r, (on_transport i (tr_send_message (Dispatcher.Single o) timeout) s).2).
Proof.
  unfold send_on_transport, act_bind. destruct (on_transport i _ s) as [[[a|]|e] s1]; [|by eexists..].
  cbn. destruct (as_single a); by eexists.
Qed.

(** The standalone stream after its teardown. *)
Lemma torn_down i x s : transport_map (rt s) = Some i -> heap s !! i = Some x ->
  let s1 := (remove_transport DEFAULT_STREAM_ID i s).2 in
  rt s1 = rt s /\ heap s1 !! i = Some (SseTransport.shut_down x).2.
Proof.
  intros Hm Hx. cbn zeta. unfold remove_transport. rewrite bool_decide_true by done. cbn [negb].
  rewrite Hm, bool_decide_true by done. destruct (on_transport_spec i tr_shut_down s) as (H1 & _ & H2).
  split; [done|]. by apply H2.
Qed.

Context {MessageFromServer : Type} (from_message : MessageFromServer -> option Z -> result Out RpcError).
Context (is_request_fs is_notification_fs : MessageFromServer -> bool) (as_single : Messages CM -> result CM SdkError).
Abbreviation send_out := (send from_message is_request_fs is_notification_fs as_single).

(** What the server sends while the client's standalone stream is gone.  A
    notification is not lost: on a resumable session it goes into the event
    store of the torn down stream, whether or not its line can still be
    written.  A notification sent while a request is handled goes to that
    request's stream and touches neither the map nor the standalone stream.  A
    request is never sent to the dead stream: it takes a fresh id and waits, and
    if no live stream comes it fails with a timeout, nothing having been
    written. *)
Theorem offline_messages i x d se st es s (env' : state Extra Details Transport -> state Extra Details Transport)
  (msg : MessageFromServer) (timeout : option N) (o : Out) (payload : str) :
  transport_map (rt s) = Some i -> heap s !! i = Some x -> SseTransport.message_sender x = Some d ->
  MessageDispatcher.session_id d = Some se -> MessageDispatcher.stream_id d = Some st ->
  MessageDispatcher.event_store d = Some es -> trim payload <> [] ->
  is_request (RequestId := RequestId) o = false -> to_json (RequestId := RequestId) o = Some payload ->
  let s1 := (remove_transport DEFAULT_STREAM_ID i s).2 in
  (is_request_fs msg = false -> is_notification_fs msg = true -> from_message msg None = Ok o ->
     (exists r s2 x' d', send_out None env' msg None timeout s1 = Some (r, s2) /\ rt s2 = rt s1 /\
        heap s2 !! i = Some x' /\ SseTransport.message_sender x' = Some d' /\
        MessageDispatcher.event_store d' = Some (store_event es se st now payload).2) /\
     (forall j, j <> i -> exists r s2, send_out (Some j) env' msg None timeout s1 = Some (r, s2) /\
        rt s2 = rt s1 /\ heap s2 !! i = heap s1 !! i)) /\
  (is_request_fs msg = true -> is_notification_fs msg = false ->
     let s2 := with_rt (set_gen (RequestIdGenNumeric.next_request_id (request_id_gen (rt s1))).2) s1 in
     from_message msg (Some (RequestIdGenNumeric.next_request_id (request_id_gen (rt s1))).1) = Ok o ->
     shut_at i s1 = true -> live_transport (env' s2) = None ->
     send_out None env' msg None timeout s1 = Some (Err timed_out, env' s2)).
Proof.
  intros Hm Hx Hd Hse Hst Hes Hp Hr Hj s1.
  destruct (torn_down i x s Hm Hx) as [Hrt Hx1]. fold s1 in Hrt, Hx1.
  assert (Hd1 : SseTransport.message_sender (SseTransport.shut_down x).2 = Some d) by (by rewrite TransportFacts.shut_down_sender).
  assert (Eta : forall s, with_rt (set_gen (request_id_gen (rt s))) s = s) by (by intros [? []]).
  split.
  - intros Hreq Hn Hf. unfold send, RequestIdGenNumeric.request_id_for_message. rewrite Hreq, Hn. cbn [negb].
    cbn [mbind option_bind]. rewrite Eta, Hf. unfold lift_rpc, act_lift, act_bind. split.
    + destruct (send_on_state as_single i o timeout s1) as [r E]. rewrite Hrt, Hm, E.
      rewrite (send_plain_state i _ d s1 o payload timeout Hr Hj Hx1 Hd1). eexists r, _, _, _.
      split_and!; [done|done|apply list_lookup_insert_eq; by eapply lookup_lt_Some|done|by apply DispatcherFacts.server_write_stores].
    + intros j Hij. destruct (send_on_state as_single j o timeout s1) as [r E]. rewrite E.
      destruct (on_transport_spec j (tr_send_message (Dispatcher.Single o) timeout) s1) as (K1 & K2 & _).
      eexists r, _. split_and!; [done|congruence|by apply K2].
  - intros Hreq Hn s2 Hf Hdown Hlive. unfold send, RequestIdGenNumeric.request_id_for_message. rewrite Hreq, Hn.
    destruct (RequestIdGenNumeric.next_request_id (request_id_gen (rt s1))) as [id g] eqn:Eg. cbn [fst snd] in *.
    cbn [mbind option_bind]. rewrite Hf. unfold lift_rpc, act_lift, act_bind. f_equal.
    unfold wait_for_live_default_transport. fold s2.
    assert (live_transport s2 = None) as ->.
    { unfold live_transport. change (transport_map (rt s2)) with (transport_map (rt s1)).
      rewrite Hrt, Hm. change (shut_at i s2) with (shut_at i s1). by rewrite Hdown. }
    by rewrite Hlive.
Qed.
End Answers.

(** ** Initialization *)

Section Negotiation.
Context {Extra Details Tr : Type} (show_error : McpSdkError -> str).
Implicit Types (s : state Extra Details Tr).

(** Protocol version negotiation.  The server accepts exactly the clients
    that are not newer than it; it then answers with the client's version, which
    is at most its own and which the client's own check accepts, and the session
    is initialized with the client's details.  A newer client is refused and the
    session stays as it was. *)
Theorem initialize_negotiation (client server : str) (details : Details) s :
  let '(res, s') := handle_initialize_request show_error server client details s in
  match str_cmp client server with
  | Gt => s' = s /\ (exists e, res = Err (mkRpcError internal_error (Some (show_error e)))) /\
          ensure_server_protocole_compatibility server client
          = Err (EProtocol (IncompatibleVersion server client))
  | _ => res = Ok client /\ ensure_server_protocole_compatibility client client = Ok tt /\
         ensure_server_protocole_compatibility server client = Ok tt /\
         client_details (rt s') = Some details /\ is_initialized s' = true /\ heap s' = heap s /\
         transport_map (rt s') = transport_map (rt s)
  end.
Proof.
  unfold handle_initialize_request, enforce_compatible_protocol_version, ensure_server_protocole_compatibility.
  pose proof (str_cmp_antisym client server) as A. destruct (str_cmp client server) eqn:E; cbn in *; rewrite A.
  - apply str_cmp_eq in E as ->. by rewrite str_cmp_refl.
  - by rewrite str_cmp_refl.
  - split_and!; [done|by eexists|done].
Qed.
End Negotiation.

(** ** A session on which the claims are tried *)

Module Demo.
Abbreviation cm := (ClientMessage nat bool unit nat).
#[global] Instance client_message : Message nat cm := {
  is_request := fun m => match m with Request _ _ => true | _ => false end;
  request_id := fun m => match m with Request i _ | Response i _ => Some i | ErrorMessage i _ => i | _ => None end;
  to_json := fun _ => Some (s! "{}");
  batch_to_json := fun _ => Some (s! "[]");
  error_message := fun e i => ErrorMessage i e;
}.
Abbreviation transport := (SseTransport.t nat cm bytes unit InMemoryEventStore.t).
Abbreviation session := (state unit unit transport).
#[global] Instance demo_dispatcher : TransportDispatcher nat cm Dispatcher.Demo.msg transport :=
  dispatcher (fun _ => Ok []) (fun _ => []) 5 (fun d => d) (fun d => d).
Definition fresh : transport := SseTransport.new [] [] 60000.
Definition resumable : transport :=
  (SseTransport.start (SseTransport.make_resumable (s! "s1") (s! "st") InMemoryEventStore.default fresh)).2.
(** A session with a standalone stream and a transport for another. *)
Definition demo : session := mkState [resumable; fresh] (mk (Some (s! "s1")) (Some 0) true (RequestIdGenNumeric.new None) None None).
(** A handler that fails on [false]. *)
Definition answer_message (a : nat + RpcError) (id : nat) : result Dispatcher.Demo.msg RpcError :=
  Ok (match a with inl _ => Dispatcher.Demo.Response id | inr e => Dispatcher.Demo.ErrorResponse e (Some id) end).
Definition handle_request (id : nat) (r : bool) (s : session) : result nat RpcError * session :=
  (if r then Ok id else Err (mkRpcError internal_error None), s).
Definition handle_notification : unit -> Act session McpSdkError unit := fun _ => act_ret tt.
Definition handle_error : RpcError -> Act session McpSdkError unit := fun _ => act_ret tt.
End Demo.
Import Demo.

Lemma stream_ownership_witness :
  let s' := run [ORemove DEFAULT_STREAM_ID 0; OStore DEFAULT_STREAM_ID 1; ORemove DEFAULT_STREAM_ID 0] demo in
  transport_map (rt s') = Some 1 /\ heap s' !! 1 = Some fresh.
Proof.
  cbn zeta.
  destruct (stream_ownership [ORemove DEFAULT_STREAM_ID 0; OStore DEFAULT_STREAM_ID 1; ORemove DEFAULT_STREAM_ID 0] demo 1) as (H1 & H2 & _).
  split; [rewrite H1; reflexivity|]. rewrite H2; vm_compute; reflexivity.
Defined.

Lemma post_stream_one_exchange_witness :
  exists l s', stream_task answer_message handle_request handle_notification handle_error 1 (s! "stream-1") (Some (s! "{}"))
      [TaskDone 4; Incoming (Dispatcher.Single (Request 7 true)); Incoming (Dispatcher.Single (Request 8 true)); Disconnected; TaskDone 0] demo
    = (l, s') /\ lphase l = Ended (Ok tt) /\ pending l = [].
Proof.
  set (s1 := (start_stream 1 (s! "stream-1") (Some (s! "{}")) demo).2).
  assert (E : start_stream 1 (s! "stream-1") (Some (s! "{}")) demo = (Ok tt, s1)) by (vm_compute; reflexivity).
  destruct (post_stream_one_exchange answer_message handle_request handle_notification handle_error
    1 (s! "stream-1") (Some (s! "{}")) demo s1 [4] (Dispatcher.Single (Request 7 true))
    [Incoming (Dispatcher.Single (Request 8 true)); Disconnected]) as (_ & _ & H & _); [discriminate|exact E|].
  eexists _, _. split; [exact H|]. split; vm_compute; reflexivity.
Defined.

Lemma client_message_handled_witness :
  exists d', handle_single answer_message handle_request handle_notification handle_error (Request 7 false) 0
      (with_rt (fun r => mk (session_id r) (transport_map r) true (request_id_gen r) (Some tt) None) demo) 
    = (Ok None, d') /\
  handle_single answer_message handle_request handle_notification handle_error (Request 7 false) 0 demo = (Ok None, demo).
Proof.
  set (s := with_rt _ demo).
  destruct (SseTransport.message_sender resumable) as [d|] eqn:Ed; [|discriminate Ed].
  set (d' := (MessageDispatcher.server_write_str 5 (s! "{}") false d).2).
  assert (Ew : MessageDispatcher.server_write_str 5 (s! "{}") false d = (Ok tt, d')).
  { subst d'. vm_compute in Ed. injection Ed as <-. vm_compute. reflexivity. }
  pose proof (client_message_handled (fun _ => Ok []) (fun _ => []) 5 (fun d => d) (fun d => d)
    answer_message handle_request handle_notification handle_error 0) as C.
  eexists. split.
  - refine (proj1 (C s) 7 false _ s eq_refl _ (s! "{}") resumable d d' eq_refl eq_refl eq_refl eq_refl Ed Ew).
  - exact (proj1 (C demo) 7 false _ demo eq_refl).
Defined.

Lemma offline_messages_witness :
  exists r s2 x' d', send (fun b _ => Ok (Dispatcher.Demo.Response 0)) (fun b => negb b) (fun b => b) (fun _ => Ok (Notification tt))
      None (fun s => s) true None None (remove_transport DEFAULT_STREAM_ID 0 demo).2 = Some (r, s2) /\
    heap s2 !! 0 = Some x' /\ SseTransport.message_sender x' = Some d' /\
    MessageDispatcher.event_store d' = Some (store_event InMemoryEventStore.default (s! "s1") (s! "st") 5 (s! "{}")).2.
Proof.
  destruct (SseTransport.message_sender resumable) as [d|] eqn:Ed; [|discriminate Ed]. injection Ed as <-.
  assert (Hp : trim (s! "{}") <> []) by discriminate.
  assert (Hr : is_request (RequestId := nat) (Dispatcher.Demo.Response 0) = false) by reflexivity.
  assert (Hj : to_json (RequestId := nat) (Dispatcher.Demo.Response 0) = Some (s! "{}")) by reflexivity.
  destruct (proj1 (offline_messages (RequestId := nat) (Req := bool) (Notif := unit) (Resp := nat) (fun _ => Ok []) (fun _ => []) 5 (fun d => d) (fun d => d)
    (fun (b : bool) _ => Ok (Dispatcher.Demo.Response 0)) (fun b => negb b) (fun b => b) (fun _ => Ok (Notification tt))
    0 resumable _ (s! "s1") (s! "st") InMemoryEventStore.default demo (fun s => s) true None
    (Dispatcher.Demo.Response 0) (s! "{}") eq_refl eq_refl eq_refl eq_refl eq_refl eq_refl Hp Hr Hj) eq_refl eq_refl eq_refl)
    as [(r & s2 & x' & d' & E & _ & Hx & Hd & He) _].
  exists r, s2, x', d'. split_and!; [exact E|exact Hx|exact Hd|exact He].
Defined.
