(* ===== verification/Requests.v ===== *)
(** * Typed requests and their dispatch

    Models crates/rust-mcp-sdk/src/: the requests and notifications of
    mcp_traits/mcp_server.rs ([McpServer]) and mcp_traits/mcp_client.rs
    ([McpClient]); the dispatch of what the peer asks to the user's handler,
    mcp_runtimes/server_runtime/mcp_server_runtime.rs and
    mcp_runtimes/client_runtime/mcp_client_runtime.rs with their [_core]
    variants; the default handlers of mcp_handlers/; [poll_task_status].

    Requests are a kind and the value of their params, results a type and a
    value: the schema crate's conversions between them and the sum types
    [ResultFromServer] and [ResultFromClient] are a class with its laws. *)
From S2P Require Import Prelude RustStr IdGen Dispatcher Transport Auth TaskStore ServerRuntime.

(** ** What the two sides ask *)

Module FromClient.
Inductive request :=
| InitializeRequest | PingRequest | ListResourcesRequest | ListResourceTemplatesRequest | ReadResourceRequest
| SubscribeRequest | UnsubscribeRequest | ListPromptsRequest | GetPromptRequest | ListToolsRequest
| CallToolRequest | SetLevelRequest | CompleteRequest | GetTaskRequest | GetTaskPayloadRequest
| CancelTaskRequest | ListTasksRequest | CustomRequest.
Inductive notification :=
| CancelledNotification | InitializedNotification | ProgressNotification | RootsListChangedNotification
| TaskStatusNotification | CustomNotification.
#[global] Instance request_eq_dec : EqDecision request.
Proof. solve_decision. Defined.
#[global] Instance notification_eq_dec : EqDecision notification.
Proof. solve_decision. Defined.
End FromClient.

Module FromServer.
Inductive request :=
| PingRequest | CreateMessageRequest | ListRootsRequest | ElicitRequest | GetTaskRequest
| GetTaskPayloadRequest | CancelTaskRequest | ListTasksRequest | CustomRequest.
Inductive notification :=
| CancelledNotification | ProgressNotification | ResourceListChangedNotification | ResourceUpdatedNotification
| PromptListChangedNotification | ToolListChangedNotification | LoggingMessageNotification
| TaskStatusNotification | ElicitationCompleteNotification | CustomNotification.
#[global] Instance request_eq_dec : EqDecision request.
Proof. solve_decision. Defined.
#[global] Instance notification_eq_dec : EqDecision notification.
Proof. solve_decision. Defined.
End FromServer.

(** The result types the handlers and the callers name. *)
Inductive ResultType :=
| RInitializeResult | RResult | RListResourcesResult | RListResourceTemplatesResult | RReadResourceResult
| RListPromptsResult | RGetPromptResult | RListToolsResult | RCallToolResult | RCreateTaskResult
| RCompleteResult | RGetTaskResult | RGetTaskPayloadResult | RCancelTaskResult | RListTasksResult | RGenericResult
| RServerTaskResult | RClientTaskResult | RElicitResult | RListRootsResult | RCreateMessageResult.
#[global] Instance result_type_eq_dec : EqDecision ResultType.
Proof. solve_decision. Defined.

(** [From] and [TryFrom] between a result type and the sum [R]. *)
Class Results (Value R : Type) := {
  into : ResultType -> Value -> R;
  try_from : ResultType -> R -> result Value RpcError;
}.
Class ResultsLaws (Value R : Type) `{Results Value R} : Prop := {
  try_from_into T v : try_from T (into T v) = Ok v;
}.

(** The received messages [M] as the requests look at them; [as_error] and
    [as_response] fail on messages of another kind. *)
Class Received (RequestId R M : Type) := {
  is_error : M -> bool;
  as_error : M -> result RpcError SdkError;
  as_response : M -> result (RequestId * R) SdkError;
}.

(** ** Asking: [McpServer] and [McpClient] *)

Definition lift_sdk {S A} (r : result A SdkError) : Act S McpSdkError A :=
  act_lift (match r with Ok a => Ok a | Err e => Err (ESdkError e) end).
Definition lift_rpc {S A} (r : result A RpcError) : Act S McpSdkError A :=
  act_lift (match r with Ok a => Ok a | Err e => Err (ERpcError e) end).

Section Asking.
Context {S RequestId K N Params Value R M : Type} `{!Results Value R} `{!Received RequestId R M}.
(** [send] of the trait, for a request and for a notification. *)
Context (send_request : K -> Params -> option N -> Act S McpSdkError (option M)).

Definition EMPTY_RESPONSE : RpcError :=
  mkRpcError internal_error (Some (s! "An empty response was received from the client.")).

(** What [request] makes of the response. *)
Definition response_result (response : option M) : Act S McpSdkError (RequestId * R) :=
  do message <- lift_rpc (ok_or response EMPTY_RESPONSE);
  if is_error message then
    do error <- lift_sdk (as_error message); act_fail (ERpcError error)
  else lift_sdk (as_response message).
End Asking.

(** *** [McpClient] *)

Module McpClient.
Section Requests.
Context {S RequestId Params Value R M : Type} `{!Results Value R} `{!Received RequestId R M}.
Context (send_request : FromClient.request -> Params -> option N -> Act S McpSdkError (option M)).
Context (send : FromClient.notification -> Params -> Act S McpSdkError unit).
Abbreviation SdkResult := (Act S McpSdkError).

Definition request (k : FromClient.request) (p : Params) (timeout : option N) : SdkResult R :=
  do response <- send_request k p timeout;
  do r <- response_result response;
  act_ret r.2.
Definition request_as (k : FromClient.request) (T : ResultType) (p : Params) (timeout : option N) : SdkResult Value :=
  do response <- request k p timeout; lift_rpc (try_from T response).

Definition ping (p : Params) (timeout : option N) := request_as FromClient.PingRequest RGenericResult p timeout.
Definition request_completion p := request_as FromClient.CompleteRequest RCompleteResult p None.
Definition request_set_logging_level p := request_as FromClient.SetLevelRequest RResult p None.
Definition request_prompt p := request_as FromClient.GetPromptRequest RGetPromptResult p None.
Definition request_prompt_list p := request_as FromClient.ListPromptsRequest RListPromptsResult p None.
Definition request_resource_list p := request_as FromClient.ListResourcesRequest RListResourcesResult p None.
Definition request_resource_template_list p :=
  request_as FromClient.ListResourceTemplatesRequest RListResourceTemplatesResult p None.
Definition request_resource_read p := request_as FromClient.ReadResourceRequest RReadResourceResult p None.
Definition request_resource_subscription p := request_as FromClient.SubscribeRequest RResult p None.
Definition request_resource_unsubscription p := request_as FromClient.UnsubscribeRequest RResult p None.
Definition request_tool_call p := request_as FromClient.CallToolRequest RCallToolResult p None.
Definition request_tool_list p := request_as FromClient.ListToolsRequest RListToolsResult p None.
Definition request_get_task p := request_as FromClient.GetTaskRequest RGetTaskResult p None.
Definition request_get_task_payload p := request_as FromClient.GetTaskPayloadRequest RServerTaskResult p None.
Definition request_task_cancellation p := request_as FromClient.CancelTaskRequest RCancelTaskResult p None.
Definition request_task_list p := request_as FromClient.ListTasksRequest RListTasksResult p None.

Definition notify_roots_list_changed p := send FromClient.RootsListChangedNotification p.
Definition notify_cancellation p := send FromClient.CancelledNotification p.
Definition notify_progress p := send FromClient.ProgressNotification p.
Definition notify_task_status p := send FromClient.TaskStatusNotification p.
Definition notify_custom p := send FromClient.CustomNotification p.

(** The deprecated names. *)
Definition complete p := request_as FromClient.CompleteRequest RCompleteResult p None.
Definition set_logging_level p := request_as FromClient.SetLevelRequest RResult p None.
Definition get_prompt p := request_as FromClient.GetPromptRequest RGetPromptResult p None.
Definition list_prompts p := request_as FromClient.ListPromptsRequest RListPromptsResult p None.
Definition list_resources p := request_as FromClient.ListResourcesRequest RListResourcesResult p None.
Definition list_resource_templates p := request_as FromClient.ListResourceTemplatesRequest RListResourceTemplatesResult p None.
Definition read_resource p := request_as FromClient.ReadResourceRequest RReadResourceResult p None.
Definition subscribe_resource p := request_as FromClient.SubscribeRequest RResult p None.
Definition unsubscribe_resource p := request_as FromClient.UnsubscribeRequest RResult p None.
Definition call_tool p := request_as FromClient.CallToolRequest RCallToolResult p None.
Definition list_tools p := request_as FromClient.ListToolsRequest RListToolsResult p None.
Definition send_roots_list_changed p := send FromClient.RootsListChangedNotification p.
End Requests.

(** What the client knows of the server once it is initialized. *)
Section ServerInfo.
Context {Cap Implementation : Type}.
Record ServerCapabilities := mkCaps {
  tools : option Cap; prompts : option Cap; experimental : option Cap; resources : option Cap;
  logging : option Cap; completions : option Cap;
}.
Record InitializeResult := mkInit {
  protocol_version : str;
  capabilities : ServerCapabilities;
  server_info : Implementation;
  init_instructions : option str;
}.
Implicit Types (info : option InitializeResult).
Definition is_initialized info : bool := is_some info.
Definition server_version info : option Implementation := server_info <$> info.
Definition server_capabilities info : option ServerCapabilities := capabilities <$> info.
Definition server_has_tools info : option bool := (fun d => is_some (tools (capabilities d))) <$> info.
Definition server_has_prompts info : option bool := (fun d => is_some (prompts (capabilities d))) <$> info.
Definition server_has_experimental info : option bool := (fun d => is_some (experimental (capabilities d))) <$> info.
Definition server_has_resources info : option bool := (fun d => is_some (resources (capabilities d))) <$> info.
Definition server_supports_logging info : option bool := (fun d => is_some (logging (capabilities d))) <$> info.
Definition server_supports_completion info : option bool := (fun d => is_some (completions (capabilities d))) <$> info.
Definition instructions info : option str := info ≫= init_instructions.
End ServerInfo.
Arguments InitializeResult : clear implicits.
Arguments ServerCapabilities : clear implicits.
End McpClient.

(** ** Task stores, as requests and handlers use them *)

(** [TaskStore]: [create_task] returns the id of the new task;
    [store_task_result] is the other operation used here. *)
Class TaskStoreOps (Req Res Meta Status Store : Type) := {
  ts_create_task : option Z -> option Z -> option Meta -> Req -> option str -> Store -> str * Store;
  ts_store_task_result : str -> Status -> Res -> option str -> Store -> Store;
}.

Section InMemory.
Context {Req Res Meta Status : Type} `{EqDecision Status} (Working : Status) (encode : bytes -> str).
(** The clock: the instant, its text, and the expiry of a time to live. *)
Context (now : N) (iso : str) (unix_in : Z -> Z).
Definition in_memory_ops : TaskStoreOps Req Res Meta Status (InMemoryTaskStore.t Req Res Meta Status) := {|
  ts_create_task := fun ttl interval meta req se s =>
    let '(tk, s) := InMemoryTaskStore.create_task Working encode now iso unix_in (InMemoryTaskStore.mkOptions ttl interval meta) req se s in
    (InMemoryTaskStore.task_id tk, s);
  ts_store_task_result := fun id st r se s => InMemoryTaskStore.store_task_result id st r se iso s;
|}.
End InMemory.

(** *** [McpServer] *)

(** What the caller reads of a [CreateTaskResult], and a [GetTaskResult]. *)
Record CreatedTask (Meta : Type) := mkCreated {
  created_id : str; created_ttl : option Z; created_poll_interval : option Z; created_meta : option Meta;
}.
Arguments mkCreated {Meta}. Arguments created_id {Meta} c. Arguments created_ttl {Meta} c.
Arguments created_poll_interval {Meta} c. Arguments created_meta {Meta} c.

Module McpServer.
Section Requests.
Context {S RequestId Params Value R M Meta Status Store : Type} `{!Results Value R} `{!Received RequestId R M}.
(** The stored request: [ServerJsonrpcRequest::new(id, request)]. *)
Abbreviation JsonrpcRequest := (RequestId * FromServer.request * Params)%type.
Context `{!TaskStoreOps JsonrpcRequest R Meta Status Store}.
Context (send_request : FromServer.request -> Params -> option N -> Act S McpSdkError (option M)).
Context (send : FromServer.notification -> Params -> Act S McpSdkError unit).
(** [is_task_augmented], and the variant [CreateTaskResult] of a result. *)
Context (is_task_augmented : FromServer.request -> Params -> bool) (as_create_task : R -> option (CreatedTask Meta)).
(** The runtime's client task store, if it has one, and its session. *)
Context (client_task_store : S -> option Store) (set_client_task_store : Store -> S -> S) (session_id : S -> option str).
Abbreviation SdkResult := (Act S McpSdkError).

Definition NO_ELIGIBLE_REQUEST : RpcError := mkRpcError internal_error (Some (s! "No eligible request found for task storage.")).

Definition request (k : FromServer.request) (p : Params) (timeout : option N) : SdkResult R :=
  let request_clone := if is_task_augmented k p then Some (k, p) else None in
  do response <- send_request k p timeout;
  do response <- response_result response;
  let '(id, r) := response in
  match as_create_task r with
  | None => act_ret r
  | Some created =>
      match request_clone with
      | None => act_fail (ERpcError NO_ELIGIBLE_REQUEST)
      | Some (k, p) =>
          fun s =>
            match client_task_store s with
            | None => (Ok r, s)
            | Some store =>
                let '(_, store) := ts_create_task (created_ttl created) (created_poll_interval created) (created_meta created)
                                     (id, k, p) (session_id s) store in
                (Ok r, set_client_task_store store s)
            end
      end
  end.
Definition request_as (k : FromServer.request) (T : ResultType) (p : Params) (timeout : option N) : SdkResult Value :=
  do response <- request k p timeout; lift_rpc (try_from T response).

Definition NOT_AUGMENTED : RpcError :=
  mkRpcError invalid_params (Some (s! "Invalid parameters: the request is not identified as task-augmented.")).
Definition request_elicitation p := request_as FromServer.ElicitRequest RElicitResult p None.
Definition request_elicitation_task p : SdkResult Value :=
  if negb (is_task_augmented FromServer.ElicitRequest p) then act_fail (ERpcError NOT_AUGMENTED)
  else request_as FromServer.ElicitRequest RCreateTaskResult p None.
Definition request_root_list p := request_as FromServer.ListRootsRequest RListRootsResult p None.
Definition ping (p : Params) (timeout : option N) := request_as FromServer.PingRequest RResult p timeout.
Definition request_message_creation p := request_as FromServer.CreateMessageRequest RCreateMessageResult p None.
Definition request_get_task p := request_as FromServer.GetTaskRequest RGetTaskResult p None.
Definition request_get_task_payload p := request_as FromServer.GetTaskPayloadRequest RClientTaskResult p None.
Definition request_task_cancellation p := request_as FromServer.CancelTaskRequest RCancelTaskResult p None.
Definition request_task_list p := request_as FromServer.ListTasksRequest RListTasksResult p None.
Definition request_custom p := request_as FromServer.CustomRequest RGenericResult p None.

Definition send_notification (n : FromServer.notification) (p : Params) : SdkResult unit := send n p.
Definition notify_log_message p := send_notification FromServer.LoggingMessageNotification p.
Definition notify_prompt_list_changed p := send_notification FromServer.PromptListChangedNotification p.
Definition notify_resource_list_changed p := send_notification FromServer.ResourceListChangedNotification p.
Definition notify_resource_updated p := send_notification FromServer.ResourceUpdatedNotification p.
Definition notify_tool_list_changed p := send_notification FromServer.ToolListChangedNotification p.
Definition notify_cancellation p := send_notification FromServer.CancelledNotification p.
Definition notify_progress p := send_notification FromServer.ProgressNotification p.
Definition notify_task_status p := send_notification FromServer.TaskStatusNotification p.
Definition notify_elicitation_completed p := send_notification FromServer.ElicitationCompleteNotification p.
Definition notify_custom p := send_notification FromServer.CustomNotification p.

(** [report_progress] and the log shortcuts build the params they send. *)
Context {Token Progress : Type} (progress_params : Token -> Progress -> option Progress -> option str -> Params).
Definition report_progress (progress_token : option Token) (progress : Progress) (total : option Progress)
  (message : option str) : SdkResult unit :=
  match progress_token with
  | None => act_ret tt
  | Some token => notify_progress (progress_params token progress total message)
  end.
Inductive LoggingLevel := Debug | Info | Warning | Error.
Context (log_params : LoggingLevel -> str -> Params).
Definition log_debug message := notify_log_message (log_params Debug message).
Definition log_info message := notify_log_message (log_params Info message).
Definition log_warn message := notify_log_message (log_params Warning message).
Definition log_error message := notify_log_message (log_params Error message).

(** The deprecated names. *)
Definition list_roots p := request_as FromServer.ListRootsRequest RListRootsResult p None.
Definition elicit_input p := request_as FromServer.ElicitRequest RElicitResult p None.
Definition create_message p := request_as FromServer.CreateMessageRequest RCreateMessageResult p None.
Definition send_tool_list_changed p := send_notification FromServer.ToolListChangedNotification p.
Definition send_resource_updated p := send_notification FromServer.ResourceUpdatedNotification p.
Definition send_resource_list_changed p := send_notification FromServer.ResourceListChangedNotification p.
Definition send_prompt_list_changed p := send_notification FromServer.PromptListChangedNotification p.
Definition send_logging_message p := send_notification FromServer.LoggingMessageNotification p.

(** [ServerRuntime::poll_task_status]: the params of its requests, and what it
    reads of a [GetTaskResult]. *)
Context (task_id_params : str -> Params) (task_status : Value -> Status) (task_poll_interval : Value -> option Z).
Context (is_terminal : Value -> bool).
Definition poll_task_status (task_id : str) (se : option str) : SdkResult (Status * option Z) :=
  do result <- request_get_task (task_id_params task_id);
  if is_terminal result then
    do task_payload <- request_get_task_payload (task_id_params task_id);
    do _ <- act_modify (fun s =>
      match client_task_store s with
      | None => s
      | Some store => set_client_task_store (ts_store_task_result task_id (task_status result) (into RClientTaskResult task_payload) se store) s
      end);
    act_ret (task_status result, task_poll_interval result)
  else act_ret (task_status result, task_poll_interval result).
End Requests.

(** What the server knows of the client once it is initialized. *)
Section ClientInfo.
Context {Cap Implementation : Type}.
Record ClientCapabilities := mkCaps { sampling : option Cap; roots : option Cap; experimental : option Cap }.
Record InitializeRequestParams := mkInit { capabilities : ClientCapabilities; client_info : Implementation; client_protocol : str }.
Implicit Types (info : option InitializeRequestParams).
Definition is_initialized info : bool := is_some info.
Definition client_version info : option Implementation := client_info <$> info.
Definition client_supports_sampling info : option bool := (fun d => is_some (sampling (capabilities d))) <$> info.
Definition client_supports_root_list info : option bool := (fun d => is_some (roots (capabilities d))) <$> info.
Definition client_supports_experimental info : option bool := (fun d => is_some (experimental (capabilities d))) <$> info.
End ClientInfo.
End McpServer.

(** ** Answering: the server *)

(** [TaskCreator]; the store is the runtime's. *)
Record TaskCreator (RequestId K Params : Type) := mkCreator {
  tc_request_id : RequestId; tc_request : K; tc_params : Params; tc_session_id : option str;
}.
Arguments mkCreator {RequestId K Params}.
Arguments tc_request_id {RequestId K Params} t. Arguments tc_request {RequestId K Params} t.
Arguments tc_params {RequestId K Params} t. Arguments tc_session_id {RequestId K Params} t.

Section TaskCreation.
Context {RequestId K Params Res Meta Status Store : Type} `{!TaskStoreOps (RequestId * K * Params) Res Meta Status Store}.
Definition create_task (c : TaskCreator RequestId K Params) (ttl poll_interval : option Z) (meta : option Meta) (s : Store) : str * Store :=
  ts_create_task ttl poll_interval meta (tc_request_id c, tc_request c, tc_params c) (tc_session_id c) s.
End TaskCreation.

Definition no_handler (method : str) : RpcError :=
  mkRpcError method_not_found (Some ((s! "No handler is implemented for '") ++ method ++ (s! "'."))).

(** The user's handler, [ServerHandler]: one method per request; [St] is the
    runtime with what the handler keeps. *)
Module ServerHandler.
Section Handler.
Context {St RequestId Params Value CallToolError : Type}.
Abbreviation Creator := (TaskCreator RequestId FromClient.request Params).
Abbreviation method := (Params -> Act St RpcError Value).
Abbreviation notified := (Params -> Act St RpcError unit).
Record t := mk {
  on_initialized : St -> St;
  handle_initialize_request : method;
  handle_ping_request : method;
  handle_list_resources_request : method;
  handle_list_resource_templates_request : method;
  handle_read_resource_request : method;
  handle_subscribe_request : method;
  handle_unsubscribe_request : method;
  handle_list_prompts_request : method;
  handle_get_prompt_request : method;
  handle_list_tools_request : method;
  handle_task_augmented_tool_call : Params -> Creator -> Act St CallToolError Value;
  handle_call_tool_request : Params -> Act St CallToolError Value;
  handle_set_level_request : method;
  handle_complete_request : method;
  handle_get_task_request : method;
  handle_get_task_payload_request : method;
  handle_cancel_task_request : method;
  handle_list_task_request : method;
  handle_custom_request : method;
  handle_initialized_notification : notified;
  handle_cancelled_notification : notified;
  handle_progress_notification : notified;
  handle_roots_list_changed_notification : notified;
  handle_task_status_notification : notified;
  handle_custom_notification : notified;
  handle_error : RpcError -> Act St RpcError unit;
}.

(** The default methods.  [method_value] is the schema crate's name of a
    request, [unknown_tool] the result for the name in the params. *)
Context (method_value : FromClient.request -> str) (empty_result : Value).
Context (initialize : method) (unknown_tool : Params -> Value).
Context (can_run_task_augmented_tools : bool) (unsupported_task_augmented_tool_call : CallToolError) (from_message : str -> CallToolError).

Definition not_implemented (k : FromClient.request) : method := fun _ => act_fail (no_handler (method_value k)).
Definition default_ping : method := fun _ => act_ret empty_result.
Definition default_task_augmented_tool_call (p : Params) (c : Creator) : Act St CallToolError Value :=
  if negb can_run_task_augmented_tools then act_fail unsupported_task_augmented_tool_call
  else act_fail (from_message (s! "No handler is implemented for 'task augmented tool call'.")).
Definition default_call_tool (p : Params) : Act St CallToolError Value := act_ret (unknown_tool p).
Definition default_custom : method :=
  fun _ => act_fail (mkRpcError method_not_found (Some (s! "No handler is implemented for custom requests."))).
Definition default_notified : notified := fun _ => act_ret tt.
Definition default_error (e : RpcError) : Act St RpcError unit := act_ret tt.
Definition default : t := {|
  on_initialized := fun s => s;
  handle_initialize_request := initialize;
  handle_ping_request := default_ping;
  handle_list_resources_request := not_implemented FromClient.ListResourcesRequest;
  handle_list_resource_templates_request := not_implemented FromClient.ListResourceTemplatesRequest;
  handle_read_resource_request := not_implemented FromClient.ReadResourceRequest;
  handle_subscribe_request := not_implemented FromClient.SubscribeRequest;
  handle_unsubscribe_request := not_implemented FromClient.UnsubscribeRequest;
  handle_list_prompts_request := not_implemented FromClient.ListPromptsRequest;
  handle_get_prompt_request := not_implemented FromClient.GetPromptRequest;
  handle_list_tools_request := not_implemented FromClient.ListToolsRequest;
  handle_task_augmented_tool_call := default_task_augmented_tool_call;
  handle_call_tool_request := default_call_tool;
  handle_set_level_request := not_implemented FromClient.SetLevelRequest;
  handle_complete_request := not_implemented FromClient.CompleteRequest;
  handle_get_task_request := not_implemented FromClient.GetTaskRequest;
  handle_get_task_payload_request := not_implemented FromClient.GetTaskPayloadRequest;
  handle_cancel_task_request := not_implemented FromClient.CancelTaskRequest;
  handle_list_task_request := not_implemented FromClient.ListTasksRequest;
  handle_custom_request := default_custom;
  handle_initialized_notification := default_notified;
  handle_cancelled_notification := default_notified;
  handle_progress_notification := default_notified;
  handle_roots_list_changed_notification := default_notified;
  handle_task_status_notification := default_notified;
  handle_custom_notification := default_notified;
  handle_error := default_error;
|}.
End Handler.
Arguments t : clear implicits.
End ServerHandler.

(** The [?] on a handler's result. *)
Definition lift_handler {St A} (m : Act St RpcError A) : Act St McpSdkError A :=
  fun s => let '(r, s) := m s in ((match r with Ok a => Ok a | Err e => Err (ERpcError e) end), s).

(** [ServerRuntimeInternalHandler] *)
Module ServerDispatch.
Import ServerHandler.
Section Dispatch.
Context {St RequestId Params Value R CallToolError : Type} `{!Results Value R}.
Abbreviation Handler := (ServerHandler.t St RequestId Params Value CallToolError).
(** What the schema crate says of a request and of the server's capabilities. *)
Context (is_task_augmented : FromClient.request -> Params -> bool) (call_is_task_augmented : Params -> bool).
Context (can_run_task_augmented_tools : bool) (can_handle_request : FromClient.request -> Params -> result unit RpcError).
Context (has_task_store : bool) (session_id : St -> option str).
(** [CallToolError::new(err).into()], and [from_message(..).into()]. *)
Context (call_tool_error : CallToolError -> Value) (call_tool_rpc_error : str -> RpcError).
Abbreviation Creator := (TaskCreator RequestId FromClient.request Params).

Definition NO_TASKS : RpcError := mkRpcError invalid_request (Some ((s! "This MCP server does not support ") ++ [WwwAuthenticate.QUOTE] ++ (s! "tasks") ++ [WwwAuthenticate.QUOTE] ++ (s! "."))).
Definition NO_TASK_STORE : RpcError := mkRpcError invalid_request (Some (s! "The server is not configured with a task store.")).
Definition prepare_task (id : RequestId) (k : FromClient.request) (p : Params) : Act St RpcError (option Creator) :=
  if is_task_augmented k p then
    if negb can_run_task_augmented_tools then act_fail NO_TASKS
    else if negb has_task_store then act_fail NO_TASK_STORE
    else do se <- act_get session_id; act_ret (Some (mkCreator id k p se))
  else act_ret None.

(** A tool call's error becomes a result. *)
Definition or_error_result (T : ResultType) (m : Act St CallToolError Value) : Act St RpcError R :=
  fun s => match m s with
           | (Ok v, s) => (Ok (into T v), s)
           | (Err e, s) => (Ok (into RCallToolResult (call_tool_error e)), s)
           end.
Definition answer (T : ResultType) (m : Act St RpcError Value) : Act St RpcError R := do v <- m; act_ret (into T v).

Definition call_method (h : Handler) (task_creator : option Creator) (k : FromClient.request) (p : Params) : Act St RpcError R :=
  match k with
  | FromClient.InitializeRequest => answer RInitializeResult (handle_initialize_request h p)
  | FromClient.PingRequest => answer RResult (handle_ping_request h p)
  | FromClient.ListResourcesRequest => answer RListResourcesResult (handle_list_resources_request h p)
  | FromClient.ListResourceTemplatesRequest => answer RListResourceTemplatesResult (handle_list_resource_templates_request h p)
  | FromClient.ReadResourceRequest => answer RReadResourceResult (handle_read_resource_request h p)
  | FromClient.SubscribeRequest => answer RResult (handle_subscribe_request h p)
  | FromClient.UnsubscribeRequest => answer RResult (handle_unsubscribe_request h p)
  | FromClient.ListPromptsRequest => answer RListPromptsResult (handle_list_prompts_request h p)
  | FromClient.GetPromptRequest => answer RGetPromptResult (handle_get_prompt_request h p)
  | FromClient.ListToolsRequest => answer RListToolsResult (handle_list_tools_request h p)
  | FromClient.CallToolRequest =>
      if call_is_task_augmented p then
        match task_creator with
        | None => act_fail (call_tool_rpc_error (s! "Error creating a task!"))
        | Some task_creator => or_error_result RCreateTaskResult (handle_task_augmented_tool_call h p task_creator)
        end
      else or_error_result RCallToolResult (handle_call_tool_request h p)
  | FromClient.SetLevelRequest => answer RResult (handle_set_level_request h p)
  | FromClient.CompleteRequest => answer RCompleteResult (handle_complete_request h p)
  | FromClient.GetTaskRequest => answer RGetTaskResult (handle_get_task_request h p)
  | FromClient.GetTaskPayloadRequest => answer RGetTaskPayloadResult (handle_get_task_payload_request h p)
  | FromClient.CancelTaskRequest => answer RCancelTaskResult (handle_cancel_task_request h p)
  | FromClient.ListTasksRequest => answer RListTasksResult (handle_list_task_request h p)
  | FromClient.CustomRequest => answer RGenericResult (handle_custom_request h p)
  end.
Definition handle_request (h : Handler) (id : RequestId) (k : FromClient.request) (p : Params) : Act St RpcError R :=
  do task_creator <- prepare_task id k p;
  do _ <- act_lift (can_handle_request k p);
  call_method h task_creator k p.

Definition handle_error (h : Handler) (e : RpcError) : Act St McpSdkError unit := lift_handler (ServerHandler.handle_error h e).
Definition handle_notification (h : Handler) (n : FromClient.notification) (p : Params) : Act St McpSdkError unit :=
  match n with
  | FromClient.CancelledNotification => lift_handler (handle_cancelled_notification h p)
  | FromClient.InitializedNotification =>
      do _ <- lift_handler (handle_initialized_notification h p);
      act_modify (on_initialized h)
  | FromClient.ProgressNotification => lift_handler (handle_progress_notification h p)
  | FromClient.RootsListChangedNotification => lift_handler (handle_roots_list_changed_notification h p)
  | FromClient.TaskStatusNotification => lift_handler (handle_task_status_notification h p)
  | FromClient.CustomNotification => lift_handler (handle_custom_notification h p)
  end.

(** [RuntimeCoreInternalHandler]: the handler gets the whole message; the
    runtime keeps the client's details of an initialize request. *)
Record CoreHandler := mkCore {
  core_on_initialized : St -> St;
  core_handle_request : FromClient.request -> Params -> Act St RpcError R;
  core_handle_notification : FromClient.notification -> Params -> Act St RpcError unit;
  core_handle_error : RpcError -> Act St RpcError unit;
}.
Context (set_client_details : Params -> Act St McpSdkError unit) (show_sdk_error : McpSdkError -> str).
Definition core_request (h : CoreHandler) (k : FromClient.request) (p : Params) : Act St RpcError R :=
  do _ <- (if bool_decide (k = FromClient.InitializeRequest) then
             fun s => match set_client_details p s with
                      | (Ok _, s) => (Ok tt, s)
                      | (Err e, s) => (Err (mkRpcError internal_error (Some (show_sdk_error e))), s)
                      end
           else act_ret tt);
  core_handle_request h k p.
Definition core_error (h : CoreHandler) (e : RpcError) : Act St McpSdkError unit := lift_handler (core_handle_error h e).
Definition core_notification (h : CoreHandler) (n : FromClient.notification) (p : Params) : Act St McpSdkError unit :=
  do _ <- (if bool_decide (n = FromClient.InitializedNotification) then act_modify (core_on_initialized h) else act_ret tt);
  lift_handler (core_handle_notification h n p).
End Dispatch.
End ServerDispatch.

(** ** Answering: the client *)

(** The user's handler of a client, [ClientHandler]. *)
Module ClientHandler.
Section Handler.
Context {St RequestId Params Value : Type}.
Abbreviation Creator := (TaskCreator RequestId FromServer.request Params).
Abbreviation method := (Params -> Act St RpcError Value).
Abbreviation notified := (Params -> Act St RpcError unit).
Record t := mk {
  handle_ping_request : method;
  handle_create_message_request : method;
  handle_task_augmented_create_message : method;
  handle_list_roots_request : method;
  handle_elicit_request : method;
  handle_task_augmented_elicit_request : Creator -> method;
  handle_get_task_request : method;
  handle_get_task_payload_request : method;
  handle_cancel_task_request : method;
  handle_list_tasks_request : method;
  handle_custom_request : method;
  handle_cancelled_notification : notified;
  handle_progress_notification : notified;
  handle_resource_list_changed_notification : notified;
  handle_resource_updated_notification : notified;
  handle_prompt_list_changed_notification : notified;
  handle_tool_list_changed_notification : notified;
  handle_logging_message_notification : notified;
  handle_task_status_notification : notified;
  handle_elicitation_complete_notification : notified;
  handle_custom_notification : notified;
  handle_error : RpcError -> Act St RpcError unit;
  handle_process_error : str -> Act St RpcError unit;
}.

Context (method_value : FromServer.request -> str) (custom_method : Params -> str) (empty_result : Value).
Context (can_accept_sampling_task : bool).
Definition not_implemented (k : FromServer.request) : method := fun _ => act_fail (no_handler (method_value k)).
Definition default_ping : method := fun _ => act_ret empty_result.
Definition default_task_augmented_create_message : method := fun _ =>
  if negb can_accept_sampling_task
  then act_fail (mkRpcError invalid_request (Some (s! "Task-augmented sampling is not supported.")))
  else act_fail (mkRpcError method_not_found
         (Some ((s! "No handler is implemented for task-augmented '") ++ method_value FromServer.CreateMessageRequest ++ (s! "'.")))).
Definition default_task_augmented_elicit (c : Creator) : method := not_implemented FromServer.ElicitRequest.
Definition default_custom : method := fun p =>
  act_fail (mkRpcError method_not_found (Some ((s! "No handler for custom request : ") ++ [WwwAuthenticate.QUOTE] ++ custom_method p ++ [WwwAuthenticate.QUOTE]))).
Definition default_notified : notified := fun _ => act_ret tt.
Definition default_error (e : RpcError) : Act St RpcError unit := act_ret tt.
(** It logs unless the client is shut down. *)
Definition default_process_error (m : str) : Act St RpcError unit := act_ret tt.
Definition default : t := {|
  handle_ping_request := default_ping;
  handle_create_message_request := not_implemented FromServer.CreateMessageRequest;
  handle_task_augmented_create_message := default_task_augmented_create_message;
  handle_list_roots_request := not_implemented FromServer.ListRootsRequest;
  handle_elicit_request := not_implemented FromServer.ElicitRequest;
  handle_task_augmented_elicit_request := default_task_augmented_elicit;
  handle_get_task_request := not_implemented FromServer.GetTaskRequest;
  handle_get_task_payload_request := not_implemented FromServer.GetTaskPayloadRequest;
  handle_cancel_task_request := not_implemented FromServer.CancelTaskRequest;
  handle_list_tasks_request := not_implemented FromServer.ListTasksRequest;
  handle_custom_request := default_custom;
  handle_cancelled_notification := default_notified;
  handle_progress_notification := default_notified;
  handle_resource_list_changed_notification := default_notified;
  handle_resource_updated_notification := default_notified;
  handle_prompt_list_changed_notification := default_notified;
  handle_tool_list_changed_notification := default_notified;
  handle_logging_message_notification := default_notified;
  handle_task_status_notification := default_notified;
  handle_elicitation_complete_notification := default_notified;
  handle_custom_notification := default_notified;
  handle_error := default_error;
  handle_process_error := default_process_error;
|}.
End Handler.
Arguments t : clear implicits.
End ClientHandler.

(** [ClientInternalHandler] *)
Module ClientDispatch.
Import ClientHandler.
Section Dispatch.
Context {St RequestId Params Value R : Type} `{!Results Value R}.
Abbreviation Handler := (ClientHandler.t St RequestId Params Value).
Context (is_task_augmented : FromServer.request -> Params -> bool) (params_task_augmented : Params -> bool).
Context (can_handle_request : FromServer.request -> Params -> result unit RpcError).
Context (has_task_store : bool) (session_id : St -> option str).
Abbreviation Creator := (TaskCreator RequestId FromServer.request Params).

Definition NO_CREATOR : RpcError := mkRpcError internal_error (Some (s! "Error creating a task!")).
Definition prepare_task (id : RequestId) (k : FromServer.request) (p : Params) : Act St RpcError (option Creator) :=
  if is_task_augmented k p then
    if negb has_task_store then act_fail ServerDispatch.NO_TASK_STORE
    else do se <- act_get session_id; act_ret (Some (mkCreator id k p se))
  else act_ret None.
Definition answer (T : ResultType) (m : Act St RpcError Value) : Act St RpcError R := do v <- m; act_ret (into T v).
Definition call_method (h : Handler) (task_creator : option Creator) (k : FromServer.request) (p : Params) : Act St RpcError R :=
  match k with
  | FromServer.PingRequest => answer RResult (handle_ping_request h p)
  | FromServer.CreateMessageRequest =>
      if params_task_augmented p then answer RCreateTaskResult (handle_task_augmented_create_message h p)
      else answer RCreateMessageResult (handle_create_message_request h p)
  | FromServer.ListRootsRequest => answer RListRootsResult (handle_list_roots_request h p)
  | FromServer.ElicitRequest =>
      if params_task_augmented p then
        match task_creator with
        | None => act_fail NO_CREATOR
        | Some task_creator => answer RCreateTaskResult (handle_task_augmented_elicit_request h task_creator p)
        end
      else answer RElicitResult (handle_elicit_request h p)
  | FromServer.GetTaskRequest => answer RGetTaskResult (handle_get_task_request h p)
  | FromServer.GetTaskPayloadRequest => answer RGenericResult (handle_get_task_payload_request h p)
  | FromServer.CancelTaskRequest => answer RCancelTaskResult (handle_cancel_task_request h p)
  | FromServer.ListTasksRequest => answer RListTasksResult (handle_list_tasks_request h p)
  | FromServer.CustomRequest => answer RListRootsResult (handle_custom_request h p)
  end.
Definition handle_request (h : Handler) (id : RequestId) (k : FromServer.request) (p : Params) : Act St RpcError R :=
  do _ <- act_lift (can_handle_request k p);
  do task_creator <- prepare_task id k p;
  call_method h task_creator k p.

Definition handle_error (h : Handler) (e : RpcError) : Act St McpSdkError unit := lift_handler (ClientHandler.handle_error h e).
Definition handle_process_error (h : Handler) (m : str) : Act St McpSdkError unit := lift_handler (ClientHandler.handle_process_error h m).
Definition handle_notification (h : Handler) (n : FromServer.notification) (p : Params) : Act St McpSdkError unit :=
  lift_handler (match n with
  | FromServer.CancelledNotification => handle_cancelled_notification h p
  | FromServer.ProgressNotification => handle_progress_notification h p
  | FromServer.ResourceListChangedNotification => handle_resource_list_changed_notification h p
  | FromServer.ResourceUpdatedNotification => handle_resource_updated_notification h p
  | FromServer.PromptListChangedNotification => handle_prompt_list_changed_notification h p
  | FromServer.ToolListChangedNotification => handle_tool_list_changed_notification h p
  | FromServer.LoggingMessageNotification => handle_logging_message_notification h p
  | FromServer.TaskStatusNotification => handle_task_status_notification h p
  | FromServer.ElicitationCompleteNotification => handle_elicitation_complete_notification h p
  | FromServer.CustomNotification => handle_custom_notification h p
  end).

(** [ClientCoreInternalHandler]: the handler gets the whole message. *)
Record CoreHandler := mkCore {
  core_handle_request : RequestId -> FromServer.request -> Params -> Act St RpcError R;
  core_handle_notification : FromServer.notification -> Params -> Act St RpcError unit;
  core_handle_error : RpcError -> Act St RpcError unit;
  core_handle_process_error : str -> Act St RpcError unit;
}.
Definition core_request (h : CoreHandler) (id : RequestId) (k : FromServer.request) (p : Params) := core_handle_request h id k p.
Definition core_error (h : CoreHandler) (e : RpcError) : Act St McpSdkError unit := lift_handler (core_handle_error h e).
Definition core_notification (h : CoreHandler) (n : FromServer.notification) (p : Params) : Act St McpSdkError unit :=
  lift_handler (core_handle_notification h n p).
Definition core_process_error (h : CoreHandler) (m : str) : Act St McpSdkError unit := lift_handler (core_handle_process_error h m).
End Dispatch.
End ClientDispatch.

(** ** From one side to the other *)

(** What the schema crate promises of the answer to a request: it is read back
    as the result, or as the error. *)
Class AnswerLaws (RequestId R M : Type) `{Received RequestId R M} (answer_message : R + RpcError -> RequestId -> result M RpcError) : Prop := {
  answer_result r id : exists o, answer_message (inl r) id = Ok o /\ is_error o = false /\ as_response o = Ok (id, r);
  answer_error e id : exists o, answer_message (inr e) id = Ok o /\ is_error o = true /\ as_error o = Ok e;
}.

Section EndToEnd.
Context {RequestId Notif Resp Out Params Value R CallToolError Extra Details Tr : Type}.
Abbreviation St := (ServerRuntime.state Extra Details Tr).
Abbreviation Msg := (ServerRuntime.ClientMessage RequestId (FromClient.request * Params) Notif Resp).
Context `{!TransportDispatcher RequestId Msg Out Tr} `{!Results Value R, !ResultsLaws Value R} `{!Received RequestId R Out}.
Context (answer_message : R + RpcError -> RequestId -> result Out RpcError) `{!AnswerLaws RequestId R Out answer_message}.
Context (is_task_augmented : FromClient.request -> Params -> bool) (call_is_task_augmented : Params -> bool).
Context (can_run_task_augmented_tools : bool) (can_handle_request : FromClient.request -> Params -> result unit RpcError).
Context (has_task_store : bool) (call_tool_error : CallToolError -> Value) (call_tool_rpc_error : str -> RpcError).
Context (handle_notification : Notif -> Act St McpSdkError unit) (handle_error : RpcError -> Act St McpSdkError unit).
Context (h : ServerHandler.t St RequestId Params Value CallToolError).

Definition server_handler (id : RequestId) (r : FromClient.request * Params) : Act St RpcError R :=
  ServerDispatch.handle_request is_task_augmented call_is_task_augmented can_run_task_augmented_tools can_handle_request
    has_task_store (fun s => ServerRuntime.session_id (ServerRuntime.rt s)) call_tool_error call_tool_rpc_error h id r.1 r.2.
(** Sending a request with this id over a stream of the server: the message the
    client gets; [lost] is its error when there is none. *)
Definition over_wire (id : RequestId) (transport : nat) (lost : McpSdkError) (k : FromClient.request) (p : Params) (timeout : option N)
  : Act St McpSdkError (option Out) :=
  fun s => match ServerRuntime.handle_message answer_message server_handler handle_notification handle_error
                   (ServerRuntime.Request id (k, p)) transport s with
           | (Ok (Some m), s) => (Ok (Some m), s)
           | (_, s) => (Err lost, s)
           end.

(** The calls of [McpClient] whose result type is the one of the handler's
    method, with the kind they send and that method. *)
Section Calls.
Import ServerHandler.
Context (id : RequestId) (transport : nat) (lost : McpSdkError).
Abbreviation wire := (over_wire id transport lost).
Definition typed_calls : list (FromClient.request * (Params -> Act St McpSdkError Value) * (Params -> Act St RpcError Value)) :=
  [(FromClient.CompleteRequest, McpClient.request_completion wire, handle_complete_request h);
   (FromClient.SetLevelRequest, McpClient.request_set_logging_level wire, handle_set_level_request h);
   (FromClient.GetPromptRequest, McpClient.request_prompt wire, handle_get_prompt_request h);
   (FromClient.ListPromptsRequest, McpClient.request_prompt_list wire, handle_list_prompts_request h);
   (FromClient.ListResourcesRequest, McpClient.request_resource_list wire, handle_list_resources_request h);
   (FromClient.ListResourceTemplatesRequest, McpClient.request_resource_template_list wire, handle_list_resource_templates_request h);
   (FromClient.ReadResourceRequest, McpClient.request_resource_read wire, handle_read_resource_request h);
   (FromClient.SubscribeRequest, McpClient.request_resource_subscription wire, handle_subscribe_request h);
   (FromClient.UnsubscribeRequest, McpClient.request_resource_unsubscription wire, handle_unsubscribe_request h);
   (FromClient.ListToolsRequest, McpClient.request_tool_list wire, handle_list_tools_request h);
   (FromClient.GetTaskRequest, McpClient.request_get_task wire, handle_get_task_request h);
   (FromClient.CancelTaskRequest, McpClient.request_task_cancellation wire, handle_cancel_task_request h);
   (FromClient.ListTasksRequest, McpClient.request_task_list wire, handle_list_task_request h)].

(** What the caller gets for what the server made of the request. *)
Definition outcome (r : result Value RpcError * St) : result Value McpSdkError * St :=
  match r with
  | (Ok v, s) => (Ok v, s)
  | (Err e, s) => (Err (if ServerRuntime.is_initialized s then ERpcError e else lost), s)
  end.

Lemma over_wire_answer k p timeout s (m : Act St RpcError R) :
  server_handler id (k, p) s = m s ->
  McpClient.request wire k p timeout s =
  match m s with
  | (Ok r, s) => (Ok r, s)
  | (Err e, s) => (Err (if ServerRuntime.is_initialized s then ERpcError e else lost), s)
  end.
Proof.
  intros Hm. unfold McpClient.request, act_bind at 1, over_wire, ServerRuntime.handle_message. rewrite Hm.
  destruct (m s) as [[r|e] s1].
  - destruct (answer_result r id) as (o & Ho & He & Hr). unfold ServerRuntime.lift_rpc, act_bind, act_lift, act_ret. rewrite Ho.
    unfold response_result, lift_rpc, lift_sdk, act_bind, act_lift, ok_or. by rewrite He, Hr.
  - destruct (ServerRuntime.is_initialized s1) eqn:Ei; cbn [negb]; [|done].
    destruct (answer_error e id) as (o & Ho & He & Hr). unfold ServerRuntime.lift_rpc, act_bind, act_lift, act_ret. rewrite Ho.
    unfold response_result, lift_rpc, lift_sdk, act_bind, act_lift, ok_or. by rewrite He, Hr.
Qed.

(** A request the guards admit. *)
Definition admitted (k : FromClient.request) (p : Params) : Prop :=
  is_task_augmented k p = false /\ can_handle_request k p = Ok tt.
Lemma admitted_call k p s : admitted k p ->
  server_handler id (k, p) s = ServerDispatch.call_method call_is_task_augmented call_tool_error call_tool_rpc_error h None k p s.
Proof.
  intros [Ha Hc]. unfold server_handler, ServerDispatch.handle_request, ServerDispatch.prepare_task. cbn [fst snd]. rewrite Ha.
  unfold act_bind, act_lift, act_ret. by rewrite Hc.
Qed.
Lemma typed_outcome k T p s (m : Params -> Act St RpcError Value) : admitted k p ->
  ServerDispatch.call_method call_is_task_augmented call_tool_error call_tool_rpc_error h None k p = ServerDispatch.answer T (m p) ->
  McpClient.request_as wire k T p None s = outcome (m p s).
Proof.
  intros Ha Hc. unfold McpClient.request_as, act_bind. rewrite (over_wire_answer k p None s (ServerDispatch.answer T (m p))).
  2: { by rewrite admitted_call, Hc. }
  unfold ServerDispatch.answer, act_bind, act_ret, outcome. destruct (m p s) as [[v|e] s1]; [|done].
  unfold lift_rpc, act_lift. by rewrite try_from_into.
Qed.
End Calls.

(** C28. A typed call of the client is the server's handler method: an admitted
    request reaches the method of its kind and nothing else, the caller gets the
    value it returns in the caller's result type, or its error once the session
    is initialized; a tool call's own error arrives as a result. *)
Theorem typed_calls_end_to_end (id : RequestId) (transport : nat) (lost : McpSdkError) k call method p s :
  (k, call, method) ∈ typed_calls id transport lost -> admitted k p ->
  call p s = outcome lost (method p s) /\
  (call_is_task_augmented p = false -> admitted FromClient.CallToolRequest p ->
   McpClient.request_tool_call (over_wire id transport lost) p s =
   match ServerHandler.handle_call_tool_request h p s with
   | (Ok v, s) => (Ok v, s)
   | (Err e, s) => (Ok (call_tool_error e), s)
   end).
Proof.
  intros Hin Ha. split.
  - unfold typed_calls in Hin. repeat (apply elem_of_cons in Hin as [[= -> -> ->]|Hin]; [by apply typed_outcome|]).
    by apply elem_of_nil in Hin.
  - intros Hc Hat. unfold McpClient.request_tool_call, McpClient.request_as, act_bind.
    rewrite (over_wire_answer id transport lost _ p None s (ServerDispatch.or_error_result call_tool_error RCallToolResult
                 (ServerHandler.handle_call_tool_request h p))).
    2: { rewrite admitted_call by done. unfold ServerDispatch.call_method. by rewrite Hc. }
    unfold ServerDispatch.or_error_result. destruct (ServerHandler.handle_call_tool_request h p s) as [[v|e] s1];
      unfold lift_rpc, act_lift; by rewrite try_from_into.
Qed.

(** C29. What the guards refuse reaches no handler method: a task-augmented
    request without the capability or without a task store, or a request outside
    the server's capabilities, is answered with the error that says so and
    leaves the server as it was; an admitted tool call never ends in an RPC
    error. *)
Theorem refused_requests (id : RequestId) k p s :
  (is_task_augmented k p = true -> can_run_task_augmented_tools = false ->
   server_handler id (k, p) s = (Err ServerDispatch.NO_TASKS, s)) /\
  (is_task_augmented k p = true -> can_run_task_augmented_tools = true -> has_task_store = false ->
   server_handler id (k, p) s = (Err ServerDispatch.NO_TASK_STORE, s)) /\
  (forall e, (is_task_augmented k p = true -> can_run_task_augmented_tools && has_task_store = true) ->
   can_handle_request k p = Err e -> server_handler id (k, p) s = (Err e, s)) /\
  (is_task_augmented FromClient.CallToolRequest p = call_is_task_augmented p ->
   (call_is_task_augmented p = true -> can_run_task_augmented_tools && has_task_store = true) ->
   can_handle_request FromClient.CallToolRequest p = Ok tt ->
   exists r s', server_handler id (FromClient.CallToolRequest, p) s = (Ok r, s')).
Proof.
  unfold server_handler, ServerDispatch.handle_request, ServerDispatch.prepare_task, act_bind, act_lift, act_ret, act_fail, act_get. cbn [fst snd].
  split_and!.
  - by intros -> ->.
  - by intros -> -> ->.
  - intros e Hok He. destruct (is_task_augmented k p).
    + destruct can_run_task_augmented_tools, has_task_store; try (by specialize (Hok eq_refl)). cbn [negb]. by rewrite He.
    + by rewrite He.
  - intros -> Hok Hc. unfold ServerDispatch.call_method, ServerDispatch.or_error_result. destruct (call_is_task_augmented p).
    + destruct can_run_task_augmented_tools, has_task_store; try (by specialize (Hok eq_refl)). cbn [negb]. rewrite Hc.
      destruct (ServerHandler.handle_task_augmented_tool_call h p _ s) as [[v|e] s1]; eauto.
    + rewrite Hc. destruct (ServerHandler.handle_call_tool_request h p s) as [[v|e] s1]; eauto.
Qed.
End EndToEnd.

(** ** Tasks of the client, as the server tracks them *)

Section Tracking.
Context {RequestId Params Value R Meta Status : Type} `{!Results Value R, !ResultsLaws Value R, EqDecision Status}.
Context (Working : Status) (encode : bytes -> str) (now : N) (iso : str) (unix_in : Z -> Z).
Context (is_task_augmented : FromServer.request -> Params -> bool) (as_create_task : R -> option (CreatedTask Meta)).
Context (task_id_params : str -> Params) (task_status : Value -> Status) (task_poll_interval : Value -> option Z) (is_terminal : Value -> bool).
(** A client that answers every request; [peer] gives its results. *)
Context (request_id : RequestId) (peer : FromServer.request -> Params -> R).
Abbreviation Store := (InMemoryTaskStore.t (RequestId * FromServer.request * Params) R Meta Status).

(** The runtime: its client task store, its session, the requests it sent. *)
Record runtime := mkRuntime { client_tasks : option Store; rt_session : option str; sent : list (FromServer.request * Params) }.
#[local] Instance answers : Received RequestId R (RequestId * R) := {|
  is_error := fun _ => false; as_error := fun _ => Err (mkSdkError internal_error None); as_response := fun m => Ok m |}.
Definition ask (k : FromServer.request) (p : Params) (timeout : option N) : Act runtime McpSdkError (option (RequestId * R)) :=
  fun s => (Ok (Some (request_id, peer k p)), mkRuntime (client_tasks s) (rt_session s) (sent s ++ [(k, p)])).
Definition set_tasks (st : Store) (s : runtime) : runtime := mkRuntime (Some st) (rt_session s) (sent s).
#[local] Instance ops : TaskStoreOps (RequestId * FromServer.request * Params) R Meta Status Store :=
  in_memory_ops Working encode now iso unix_in.
Definition tracked_request := McpServer.request ask is_task_augmented as_create_task client_tasks set_tasks rt_session.
Definition tracked_poll :=
  McpServer.poll_task_status ask is_task_augmented as_create_task client_tasks set_tasks rt_session
    task_id_params task_status task_poll_interval is_terminal.

Lemma plain_ask k T p s v : as_create_task (peer k p) = None -> peer k p = into T v ->
  McpServer.request_as ask is_task_augmented as_create_task client_tasks set_tasks rt_session k T p None s =
  (Ok v, mkRuntime (client_tasks s) (rt_session s) (sent s ++ [(k, p)])).
Proof.
  intros Hn Hv. unfold McpServer.request_as, McpServer.request, ask, response_result, act_bind, lift_rpc, lift_sdk, act_lift, act_ret.
  cbn [ok_or is_error as_response answers]. rewrite Hn, Hv. by rewrite try_from_into.
Qed.

(** The entry [request] makes for the task the client created. *)
Definition tracked_entry (id : str) (k : FromServer.request) (p : Params) (created : CreatedTask Meta) :=
  InMemoryTaskStore.mkEntry (Res := R)
    (InMemoryTaskStore.mkTask id iso Working (created_poll_interval created) (created_ttl created) None iso)
    (request_id, k, p) None (unix_in <$> created_ttl created) (created_meta created) None.
Lemma find_tracked id0 se0 k p created se (store : Store) :
  let id := FastIdGenerator.encode_id encode (FastIdGenerator.prefix (InMemoryTaskStore.id_gen store))
              (FastIdGenerator.counter (InMemoryTaskStore.id_gen store)) in
  InMemoryTaskStore.find_entry
    (ts_create_task (created_ttl created) (created_poll_interval created) (created_meta created) (request_id, k, p) se store).2 id0 se0 =
  if decide ((id, se) = (id0, se0)) then Some (tracked_entry id k p created) else InMemoryTaskStore.find_entry store id0 se0.
Proof.
  intros id. unfold ts_create_task, ops, in_memory_ops, InMemoryTaskStore.create_task, InMemoryTaskStore.find_entry. simpl. fold id.
  destruct (decide (se = se0)) as [<-|Hne].
  - rewrite lookup_insert_eq. simpl. case_decide; simplify_eq; [by rewrite lookup_insert_eq|].
    rewrite lookup_insert_ne by congruence. by destruct (InMemoryTaskStore.tasks store !! se).
  - rewrite lookup_insert_ne by done. by rewrite decide_False by congruence.
Qed.

Lemma stored_result (st : Store) id status (r : R) se e : InMemoryTaskStore.find_entry st id se = Some e ->
  exists e', InMemoryTaskStore.find_entry (InMemoryTaskStore.store_task_result id status r se iso st) id se = Some e' /\
    InMemoryTaskStore.entry_result e' = Some r /\ InMemoryTaskStore.status (InMemoryTaskStore.task e') = status.
Proof.
  intros He. unfold InMemoryTaskStore.store_task_result. rewrite He.
  exists (InMemoryTaskStore.mkEntry (InMemoryTaskStore.with_status (InMemoryTaskStore.task e) status None iso)
            (InMemoryTaskStore.request e) (Some r) (InMemoryTaskStore.expires_at e) (InMemoryTaskStore.entry_meta e)
            (InMemoryTaskStore.result_tx e)).
  split; [|done]. destruct (negb _); unfold InMemoryTaskStore.notify_status_change;
    [|by rewrite TaskStoreFacts.find_task_put, decide_True].
  match goal with |- InMemoryTaskStore.find_entry (InMemoryTaskStore.publish ?s _) _ _ = _ =>
    change (InMemoryTaskStore.find_entry s id se = Some (InMemoryTaskStore.mkEntry (InMemoryTaskStore.with_status (InMemoryTaskStore.task e) status None iso)
            (InMemoryTaskStore.request e) (Some r) (InMemoryTaskStore.expires_at e) (InMemoryTaskStore.entry_meta e)
            (InMemoryTaskStore.result_tx e))) end.
  by rewrite TaskStoreFacts.find_task_put, decide_True.
Qed.

(** A task-augmented request whose answer is a created task enters the
    store, under an id of the store's own generator, as a working task with the
    lifetime and poll interval the client chose, scheduled for polling and
    changing no other task; polling it asks for that id, stores the result once
    the client reports a final status, and changes nothing before. *)
Theorem augmented_request_tracked k p timeout created v payload s store schedule :
  is_task_augmented k p = true -> as_create_task (peer k p) = Some created ->
  client_tasks s = Some store -> InMemoryTaskStore.poll_schedule store = Some schedule ->
  let id := FastIdGenerator.encode_id encode (FastIdGenerator.prefix (InMemoryTaskStore.id_gen store))
              (FastIdGenerator.counter (InMemoryTaskStore.id_gen store)) in
  (forall k' p', k' <> k -> as_create_task (peer k' p') = None) ->
  k <> FromServer.GetTaskRequest -> k <> FromServer.GetTaskPayloadRequest ->
  peer FromServer.GetTaskRequest (task_id_params id) = into RGetTaskResult v ->
  peer FromServer.GetTaskPayloadRequest (task_id_params id) = into RClientTaskResult payload ->
  exists s1 store1 s2 store2,
    tracked_request k p timeout s = (Ok (peer k p), s1) /\ client_tasks s1 = Some store1 /\
    (forall id' se', InMemoryTaskStore.find_entry store1 id' se' =
       if decide ((id, rt_session s) = (id', se')) then Some (tracked_entry id k p created)
       else InMemoryTaskStore.find_entry store id' se') /\
    (exists schedule1, InMemoryTaskStore.poll_schedule store1 = Some schedule1 /\
       (exists t, (t, id, rt_session s) ∈ schedule1) /\ (forall x, x ∈ schedule -> x ∈ schedule1)) /\
    tracked_poll id (rt_session s) s1 = (Ok (task_status v, task_poll_interval v), s2) /\ client_tasks s2 = Some store2 /\
    (if is_terminal v
     then InMemoryTaskStore.get_task_result id (rt_session s) store2 = Some (into RClientTaskResult payload) /\
          InMemoryTaskStore.status <$> InMemoryTaskStore.get_task id (rt_session s) store2 = Some (task_status v) /\
          sent s2 = sent s1 ++ [(FromServer.GetTaskRequest, task_id_params id); (FromServer.GetTaskPayloadRequest, task_id_params id)]
     else store2 = store1).
Proof.
  intros Ha Hc Hst Hsch id Hother Hk1 Hk2 Hg Hp.
  set (store1 := (ts_create_task (created_ttl created) (created_poll_interval created) (created_meta created) (request_id, k, p) (rt_session s) store).2).
  set (s1 := mkRuntime (Some store1) (rt_session s) (sent s ++ [(k, p)])).
  assert (Hfind : forall id' se', InMemoryTaskStore.find_entry store1 id' se' =
       if decide ((id, rt_session s) = (id', se')) then Some (tracked_entry id k p created)
       else InMemoryTaskStore.find_entry store id' se') by (intros; apply find_tracked).
  assert (E1 : tracked_request k p timeout s = (Ok (peer k p), s1)).
  { unfold tracked_request, McpServer.request, ask, response_result, act_bind, lift_rpc, lift_sdk, act_lift, act_ret. rewrite Ha.
    cbn [ok_or is_error as_response answers client_tasks]. rewrite Hc, Hst. cbn [rt_session]. unfold s1, store1.
    cbn [client_tasks]. by destruct (ts_create_task _ _ _ _ _ _). }
  exists s1, store1. unfold tracked_poll, McpServer.poll_task_status, McpServer.request_get_task.
  unfold act_bind at 1. rewrite (plain_ask _ RGetTaskResult _ _ v) by auto.
  assert (Hsched : exists schedule1, InMemoryTaskStore.poll_schedule store1 = Some schedule1 /\
       (exists t, (t, id, rt_session s) ∈ schedule1) /\ (forall x, x ∈ schedule -> x ∈ schedule1)).
  { unfold store1, ts_create_task, ops, in_memory_ops, InMemoryTaskStore.create_task. simpl. rewrite Hsch. simpl.
    assert (Hh : forall x h p, p ∈ InMemoryTaskStore.heap_push x h <-> p = x \/ p ∈ h)
      by (intros; apply (TaskStoreFacts.heap_push_elem Working (fun _ => true))).
    eexists. split; [done|]. split; [eexists; rewrite Hh; by left|]. intros x Hx. rewrite Hh. by right. }
  destruct (is_terminal v); [|by eexists _, _].
  unfold act_bind at 1, McpServer.request_get_task_payload. rewrite (plain_ask _ RClientTaskResult _ _ payload) by auto.
  cbn [client_tasks rt_session sent s1]. unfold act_bind, act_modify, act_ret. cbn [client_tasks].
  eexists _, _. split; [done|]. split; [done|]. split; [done|]. split; [done|]. split; [done|]. split; [done|].
  destruct (stored_result store1 id (task_status v) (into RClientTaskResult payload) (rt_session s) (tracked_entry id k p created))
    as (e & He & Hr & Hs); [by rewrite Hfind, decide_True|].
  split_and!; [| |cbn [sent set_tasks]; by rewrite <-!app_assoc];
    unfold ts_store_task_result, ops, in_memory_ops, InMemoryTaskStore.get_task_result, InMemoryTaskStore.get_task; rewrite He; cbn; congruence.
Qed.
End Tracking.

(** ** Examples *)

Module RequestsDemo.
(** Results that remember their type. *)
Definition R : Type := ResultType * str.
#[local] Instance results : Results str R := {|
  into := fun T v => (T, v);
  try_from := fun T r => if decide (T = r.1) then Ok r.2 else Err (mkRpcError internal_error None) |}.
#[local] Instance results_laws : ResultsLaws str R.
Proof. split. intros T v. cbn. by rewrite decide_True. Qed.
Definition Out : Type := N * (R + RpcError).
#[local] Instance received : Received N R Out := {|
  is_error := fun m => match m.2 with inl _ => false | inr _ => true end;
  as_error := fun m => match m.2 with inl _ => Err (mkSdkError internal_error None) | inr e => Ok e end;
  as_response := fun m => match m.2 with inl r => Ok (m.1, r) | inr _ => Err (mkSdkError internal_error None) end |}.
Definition answer_message (x : R + RpcError) (id : N) : result Out RpcError := Ok (id, x).
#[local] Instance answer_laws : AnswerLaws N R Out answer_message.
Proof. split; intros; by eexists. Qed.
Abbreviation Msg := (ServerRuntime.ClientMessage N (FromClient.request * str) unit unit).
#[local] Instance no_transport : TransportDispatcher N Msg Out unit := {|
  tr_start := act_ret tt; tr_shut_down := act_ret tt; tr_is_shut_down := fun _ => false; tr_keep_alive := act_ret tt;
  tr_consume_string_payload := fun _ => act_ret tt; tr_send_message := fun _ _ => act_ret None; tr_send_batch := fun _ _ => act_ret None;
  tr_deliver := fun _ _ x => (None, x) |}.
Abbreviation St := (ServerRuntime.state unit unit unit).
Definition server : St := ServerRuntime.mkState [tt] (ServerRuntime.mk (Some (s! "S1")) (Some 0) true (RequestIdGenNumeric.new None) (Some tt) None).
Definition base : ServerHandler.t St N str str str :=
  ServerHandler.default (fun _ => s! "method") (s! "{}") (fun _ => act_ret (s! "init")) (fun p => (s! "Unknown tool: ") ++ p)
    false (s! "unsupported") (fun m => m).
(** A handler with prompts. *)
Definition handler : ServerHandler.t St N str str str :=
  {| ServerHandler.on_initialized := ServerHandler.on_initialized base;
     ServerHandler.handle_initialize_request := ServerHandler.handle_initialize_request base;
     ServerHandler.handle_ping_request := ServerHandler.handle_ping_request base;
     ServerHandler.handle_list_resources_request := ServerHandler.handle_list_resources_request base;
     ServerHandler.handle_list_resource_templates_request := ServerHandler.handle_list_resource_templates_request base;
     ServerHandler.handle_read_resource_request := ServerHandler.handle_read_resource_request base;
     ServerHandler.handle_subscribe_request := ServerHandler.handle_subscribe_request base;
     ServerHandler.handle_unsubscribe_request := ServerHandler.handle_unsubscribe_request base;
     ServerHandler.handle_list_prompts_request := ServerHandler.handle_list_prompts_request base;
     ServerHandler.handle_get_prompt_request := fun p => act_ret ((s! "prompt ") ++ p);
     ServerHandler.handle_list_tools_request := ServerHandler.handle_list_tools_request base;
     ServerHandler.handle_task_augmented_tool_call := ServerHandler.handle_task_augmented_tool_call base;
     ServerHandler.handle_call_tool_request := fun p => act_fail ((s! "failed: ") ++ p);
     ServerHandler.handle_set_level_request := ServerHandler.handle_set_level_request base;
     ServerHandler.handle_complete_request := ServerHandler.handle_complete_request base;
     ServerHandler.handle_get_task_request := ServerHandler.handle_get_task_request base;
     ServerHandler.handle_get_task_payload_request := ServerHandler.handle_get_task_payload_request base;
     ServerHandler.handle_cancel_task_request := ServerHandler.handle_cancel_task_request base;
     ServerHandler.handle_list_task_request := ServerHandler.handle_list_task_request base;
     ServerHandler.handle_custom_request := ServerHandler.handle_custom_request base;
     ServerHandler.handle_initialized_notification := ServerHandler.handle_initialized_notification base;
     ServerHandler.handle_cancelled_notification := ServerHandler.handle_cancelled_notification base;
     ServerHandler.handle_progress_notification := ServerHandler.handle_progress_notification base;
     ServerHandler.handle_roots_list_changed_notification := ServerHandler.handle_roots_list_changed_notification base;
     ServerHandler.handle_task_status_notification := ServerHandler.handle_task_status_notification base;
     ServerHandler.handle_custom_notification := ServerHandler.handle_custom_notification base;
     ServerHandler.handle_error := ServerHandler.handle_error base |}.
Definition augmented (k : FromClient.request) (p : str) : bool := bool_decide (p = s! "task").
Definition call_augmented (p : str) : bool := bool_decide (p = s! "task").
Definition capable (k : FromClient.request) (p : str) : result unit RpcError :=
  if bool_decide (k = FromClient.CompleteRequest) then Err (mkRpcError internal_error (Some (s! "no completions"))) else Ok tt.
Definition lost : McpSdkError := EInternal (s! "timeout").
Abbreviation wire := (over_wire answer_message augmented call_augmented true capable false (fun e => e)
  (fun m => mkRpcError internal_error (Some m)) (fun _ : unit => act_ret tt) (fun _ => act_ret tt) handler 5%N 0 lost).

Lemma typed_calls_end_to_end_witness :
  McpClient.request_prompt wire (s! "p") server = (Ok (s! "prompt p"), server) /\
  McpClient.request_tool_call wire (s! "p") server = (Ok (s! "failed: p"), server).
Proof.
  destruct (typed_calls_end_to_end answer_message augmented call_augmented true capable false (fun e => e)
    (fun m => mkRpcError internal_error (Some m)) (fun _ : unit => act_ret tt) (fun _ => act_ret tt) handler 5%N 0 lost
    FromClient.GetPromptRequest (McpClient.request_prompt wire) (ServerHandler.handle_get_prompt_request handler) (s! "p") server)
    as [E1 E2].
  - unfold typed_calls. do 2 right. left.
  - split; reflexivity.
  - split; [exact E1|]. apply E2; [reflexivity|split; reflexivity].
Defined.

Abbreviation serve := (server_handler augmented call_augmented true capable false (fun e : str => e)
  (fun m => mkRpcError internal_error (Some m)) handler 5%N).
Lemma refused_requests_witness :
  serve (FromClient.CallToolRequest, s! "task") server = (Err ServerDispatch.NO_TASK_STORE, server) /\
  serve (FromClient.CompleteRequest, s! "p") server = (Err (mkRpcError internal_error (Some (s! "no completions"))), server).
Proof.
  destruct (refused_requests augmented call_augmented true capable false (fun e : str => e)
    (fun m => mkRpcError internal_error (Some m)) handler 5%N FromClient.CallToolRequest (s! "task") server) as (_ & H1 & _ & _).
  destruct (refused_requests augmented call_augmented true capable false (fun e : str => e)
    (fun m => mkRpcError internal_error (Some m)) handler 5%N FromClient.CompleteRequest (s! "p") server) as (_ & _ & H2 & _).
  split; [by apply H1|]. by apply H2; [intros [=]|].
Defined.

(** A client that creates a task for an elicitation and reports it done. *)
Definition TaskStatus := bool.
Definition peer (k : FromServer.request) (p : str) : R :=
  match k with
  | FromServer.ElicitRequest => (RCreateTaskResult, s! "client-task")
  | FromServer.GetTaskRequest => (RGetTaskResult, s! "done")
  | FromServer.GetTaskPayloadRequest => (RClientTaskResult, s! "answer")
  | FromServer.CustomRequest => (RListRootsResult, s! "roots")
  | _ => (RResult, [])
  end.
Definition as_task (r : R) : option (CreatedTask unit) :=
  if bool_decide (r.1 = RCreateTaskResult) then Some (mkCreated r.2 (Some 60000%Z) (Some 500%Z) None) else None.
Definition tracking : runtime (RequestId := N) (Params := str) (R := R) (Meta := unit) (Status := TaskStatus) :=
  mkRuntime (Some (InMemoryTaskStore.new None)) (Some (s! "S1")) [].
Definition is_done (v : str) : bool := bool_decide (v = s! "done").
Definition request_task := tracked_request false (fun b => b) 0 (s! "now") (fun z => z) (fun _ _ => true) as_task 1%N peer.
Definition poll_task := tracked_poll (EqDecision0 := _) false (fun b => b) 0 (s! "now") (fun z => z) (fun _ _ => true) as_task
  (fun i => i) is_done (fun _ => None) is_done 1%N peer.

Lemma augmented_request_tracked_witness :
  exists s1 store1, request_task FromServer.ElicitRequest (s! "name?") None tracking = (Ok (peer FromServer.ElicitRequest (s! "name?")), s1) /\
    client_tasks s1 = Some store1 /\ length (InMemoryTaskStore.ordered_task_ids store1 !!! Some (s! "S1")) = 1.
Proof.
  destruct (augmented_request_tracked false (fun b => b) 0 (s! "now") (fun z => z) (fun _ _ => true) as_task
    (fun i => i) is_done (fun _ => None) is_done 1%N peer FromServer.ElicitRequest (s! "name?") None
    (mkCreated (s! "client-task") (Some 60000%Z) (Some 500%Z) None) (s! "done") (s! "answer") tracking
    (InMemoryTaskStore.new None) []) as (s1 & store1 & s2 & store2 & E1 & H1 & _); try done.
  - intros [] p' Hk; try done; reflexivity.
  - exists s1, store1. split; [exact E1|]. split; [exact H1|]. vm_compute in E1. injection E1 as <-. injection H1 as <-. reflexivity.
Defined.

(** The id a poll asks for is the store's own, not the one the client gave its
    task. *)
Example poll_asks_for_local_id :
  let s1 := (request_task FromServer.ElicitRequest (s! "name?") None tracking).2 in
  (fun st => InMemoryTaskStore.ordered_task_ids st !! Some (s! "S1")) <$> client_tasks s1 <> Some (Some [s! "client-task"]).
Proof. vm_compute. discriminate. Qed.

(** A custom request is answered with a [ListRootsResult], which the caller
    does not take for the [GenericResult] it expects. *)
Example custom_result_mismatch :
  is_ok (McpServer.request_custom (Received0 := answers) (TaskStoreOps0 := ops false (fun b => b) 0 (s! "now") (fun z => z))
    (ask 1%N peer) (fun _ _ => false) as_task client_tasks set_tasks rt_session (s! "p") tracking).1 = false.
Proof. reflexivity. Qed.
End RequestsDemo.
