(* ===== verification/TaskForwarding.v ===== *)
(** * Task status, from the store to the other side

    Models what a runtime starts beside its main loop for the sake of tasks: the
    subscription to a task store's status changes (subscribe of
    crates/rust-mcp-sdk/src/task_store/in_memory_task_store.rs), the task that
    forwards them as notifications, and the polling of the tasks asked of the
    other side (ServerRuntime::new of mcp_runtimes/server_runtime.rs and start
    of mcp_runtimes/client_runtime.rs); and the options a store is made with.

    tokio's broadcast channel is the list of everything sent, of which the last
    [capacity] items are kept, and a receiver is its position in that list. *)
From S2P Require Import Prelude RustStr IdGen Dispatcher Transport TaskStore ServerRuntime Requests.
Import InMemoryTaskStore.

(** ** The options of a store *)

Record InMemoryTaskStoreOptions := mkStoreOptions {
  o_page_size : nat;
  broadcast_capacity : nat;
  o_default_poll_interval : N; (* milliseconds *)
}.
Definition default_options : InMemoryTaskStoreOptions := mkStoreOptions 50 64 1250.
Definition capacity_options (page_size broadcast_capacity : option nat) : InMemoryTaskStoreOptions :=
  mkStoreOptions (from_option id (o_page_size default_options) page_size)
    (from_option id (TaskForwarding.broadcast_capacity default_options) broadcast_capacity)
    (o_default_poll_interval default_options).

Section Made.
Context {Req Res Meta Status : Type}.
Abbreviation Store := (t Req Res Meta Status).
(** [with_options] and [with_capacity]: the store and the capacity of its channel. *)
Definition store_with (opts : InMemoryTaskStoreOptions) : Store * nat :=
  (with_options (o_page_size opts) (o_default_poll_interval opts), broadcast_capacity opts).
Definition with_capacity (page_size broadcast_capacity : option nat) : Store * nat :=
  store_with (capacity_options page_size broadcast_capacity).
End Made.

(** ** Subscribing *)

Section Subscription.
Context {Item : Type} (capacity : nat).

(** [broadcast::Receiver::recv]: [None] while there is nothing to receive. *)
Inductive Recv := Received (item : Item) | Closed | Lagged (skipped : nat).
Definition recv (closed : bool) (sent : list Item) (pos : nat) : option (Recv * nat) :=
  let oldest := length sent - capacity in
  if (pos <? oldest)%nat then Some (Lagged (oldest - pos), oldest)
  else match sent !! pos with
       | Some item => Some (Received item, S pos)
       | None => if closed then Some (Closed, pos) else None
       end.

(** The closure of [unfold]: [None] while it waits, [Some None] at the end of
    the stream.  It goes round again only after a lag, which leaves an item to
    receive. *)
Fixpoint next_item (fuel : nat) (closed : bool) (sent : list Item) (pos : nat) : option (option Item * nat) :=
  match fuel with
  | O => None
  | S fuel =>
      match recv closed sent pos with
      | Some (Received item, pos) => Some (Some item, pos)
      | Some (Closed, pos) => Some (None, pos)
      | Some (Lagged _, pos) => next_item fuel closed sent pos
      | None => None
      end
  end.
Definition next (closed : bool) (sent : list Item) (pos : nat) : option (option Item * nat) := next_item 2 closed sent pos.

(** ** The forwarding task *)

Context {S : Type} (notify : Item -> Act S McpSdkError unit).
(** [while let Some((params, _)) = stream.next().await { let _ = notify(params) }],
    until it waits ([true]) or the stream ends ([false]). *)
Fixpoint forward (fuel : nat) (closed : bool) (sent : list Item) (pos : nat) (s : S) : bool * nat * S :=
  match fuel with
  | O => (true, pos, s)
  | Datatypes.S fuel =>
      match next closed sent pos with
      | None => (true, pos, s)
      | Some (None, pos) => (false, pos, s)
      | Some (Some item, pos) => forward fuel closed sent pos (notify item s).2
      end
  end.
End Subscription.

(** ** What a runtime starts *)

Section Background.
Context {P : Type} (start_task_polling : P -> result unit McpSdkError * P).
(** Forwarding from a position, and polling. *)
Inductive Background := Forwarding (pos : nat) | Polling.
(** [subscribe()] of a store with events, by their number, or of none. *)
Definition subscribed (task_store : option (option nat)) : list Background :=
  match task_store with Some (Some sent) => [Forwarding sent] | _ => [] end.
Definition poll_of (store : option P) : list Background * option P :=
  match store with
  | None => ([], None)
  | Some store =>
      match start_task_polling store with
      | (Ok _, store) => ([Polling], Some store)
      | (Err _, store) => ([], Some store) (* tracing::error! *)
      end
  end.
(** [ServerRuntime::new] forwards the tasks clients asked for and polls those
    asked of the client; [ClientRuntime::start] the other way round. *)
Definition server_background (task_store : option (option nat)) (client_task_store : option P) : list Background * option P :=
  let '(polling, store) := poll_of client_task_store in (subscribed task_store ++ polling, store).
Definition client_background (task_store : option (option nat)) (server_task_store : option P) : list Background * option P :=
  let '(polling, store) := poll_of server_task_store in (subscribed task_store ++ polling, store).
End Background.

(** ** Facts *)

Module ForwardFacts.
Section Facts.
Context {Item : Type} (capacity : nat) (Hcap : 0 < capacity).
Implicit Types sent : list Item.

(** Where a receiver that is behind goes on. *)
Definition caught_up sent pos : nat := Nat.max pos (length sent - capacity).
Lemma next_spec closed sent pos : pos <= length sent ->
  next capacity closed sent pos =
    match sent !! caught_up sent pos with
    | Some item => Some (Some item, S (caught_up sent pos))
    | None => if closed then Some (None, pos) else None
    end.
Proof.
  intros Hp. unfold next, caught_up. cbn [next_item]. unfold recv at 1.
  destruct (Nat.ltb_spec pos (length sent - capacity)) as [Hlt|Hge].
  - rewrite Nat.max_r by lia. unfold recv. rewrite (proj2 (Nat.ltb_ge _ _)) by lia.
    destruct (lookup_lt_is_Some_2 sent (length sent - capacity) ltac:(lia)) as [x E]. by rewrite E.
  - rewrite Nat.max_l by lia. destruct (sent !! pos); [done|]. by destruct closed.
Qed.

Context {S : Type} (notify : Item -> Act S McpSdkError unit).
(** Everything still kept is forwarded in order, whatever becomes of the
    notifications before it. *)
Lemma forward_spec closed sent pos s fuel : pos <= length sent -> length sent - pos < fuel ->
  forward capacity notify fuel closed sent pos s =
    (negb closed, length sent, foldl (fun s item => (notify item s).2) s (drop (caught_up sent pos) sent)).
Proof.
  revert pos s. induction fuel as [|fuel IH]; intros pos s Hp Hf; [lia|]. cbn [forward]. rewrite next_spec by done.
  destruct (sent !! caught_up sent pos) as [x|] eqn:E.
  - apply lookup_lt_Some in E as Hlt. assert (pos <= caught_up sent pos) by (unfold caught_up; lia).
    rewrite IH by lia. rewrite (drop_S sent x (caught_up sent pos)) by done. cbn [foldl].
    replace (caught_up sent (Datatypes.S (caught_up sent pos))) with (Datatypes.S (caught_up sent pos)) by (unfold caught_up; lia). done.
  - apply lookup_ge_None in E. assert (pos = length sent) as -> by (unfold caught_up in E; lia).
    rewrite (drop_ge sent) by done. by destruct closed.
Qed.
End Facts.

Section Store.
Context {Req Res Meta Status : Type} `{EqDecision Status} (Working : Status) (is_terminal : Status -> bool) (encode : bytes -> str).
Abbreviation Store := (t Req Res Meta Status).

(** A step publishes at most one notification, after those before. *)
Lemma step_publishes (s s' : Store) : step Working is_terminal encode s s' ->
  exists l, broadcast s' = broadcast s ++ l /\ length l <= 1.
Proof.
  assert (Hsame : forall x y : Store, broadcast y = broadcast x -> exists l, broadcast y = broadcast x ++ l /\ length l <= 1)
    by (intros x y ->; exists []; split; [by rewrite app_nil_r|simpl; lia]).
  assert (Hone : forall (x : Store) n, exists l, broadcast x ++ [n] = broadcast x ++ l /\ length l <= 1)
    by (intros x n; exists [n]; by split).
  destruct 1 as [now iso unix_in params req se s|s id se l r _|id st res se iso s|id st msg se iso s|id se s|s|now s ids s' _ _ _ E|a s id se r _|now s _ _ _].
  - apply Hsame. unfold create_task. by destruct (FastIdGenerator.generate_id _ _).
  - apply Hsame. unfold expire, set_timers, remove_task. by destruct (tasks s !! se).
  - unfold store_task_result. destruct (find_entry s id se); [|by apply Hsame]. case_bool_decide; [by apply Hsame|exact (Hone s _)].
  - unfold update_task_status. destruct (find_entry s id se); [|by apply Hsame]. case_bool_decide; [by apply Hsame|exact (Hone s _)].
  - apply Hsame. unfold wait_for_task_result, subscribe_to_task. by destruct (find_entry s id se).
  - apply Hsame. unfold start_task_polling. by destruct (polling s).
  - apply Hsame. unfold tasks_to_poll in E. destruct (poll_schedule s); [|by injection E as <- <-].
    destruct (pop_due _ _). by injection E as <- <-.
  - apply Hsame. unfold handle_answer. destruct a as [st interval|].
    + destruct (is_terminal st); [|done]. unfold remove_task. destruct (tasks _ !! se); simpl; [|done].
      by destruct (_ ≫= _) as [[]|].
    + by destruct (find_entry _ _ _).
  - apply Hsame. unfold re_schedule. by destruct (poll_schedule s).
Qed.
Lemma steps_publish n (s s' : Store) : nsteps (step Working is_terminal encode) n s s' ->
  exists l, broadcast s' = broadcast s ++ l /\ length l <= n.
Proof.
  induction 1 as [s|n s1 s2 s3 H1 _ (l2 & E2 & L2)]; [exists []; split; [by rewrite app_nil_r|done]|].
  apply step_publishes in H1 as (l1 & E1 & L1). exists (l1 ++ l2). rewrite E2, E1, app_assoc, length_app. split; [done|lia].
Qed.
End Store.
End ForwardFacts.
Import ForwardFacts.

(** A runtime subscribes to a store in some state; the store then takes any
    steps.  When its forwarding task gets to run, it waits again having notified
    the other side of the changes published since, in the order they were
    published, each once, whether or not earlier notifications could be sent: of
    all of them when they are no more than the capacity of the channel, which is
    the case after that many steps, and of the newest otherwise. *)
Theorem status_changes_forwarded {Req Res Meta Status} `{EqDecision Status} (Working : Status) is_terminal encode
  {S} (notify : Notification (Meta := Meta) (Status := Status) -> Act S McpSdkError unit)
  (capacity fuel n : nat) (st st' : t Req Res Meta Status) (s : S) :
  0 < capacity -> nsteps (step Working is_terminal encode) n st st' -> n < fuel ->
  exists published, broadcast st' = broadcast st ++ published /\
    forward capacity notify fuel false (broadcast st') (length (broadcast st)) s =
      (true, length (broadcast st'),
       foldl (fun s item => (notify item s).2) s (drop (length published - capacity) published)) /\
    (n <= capacity -> drop (length published - capacity) published = published).
Proof.
  intros Hc Hn Hf. destruct (steps_publish Working is_terminal encode n st st' Hn) as (l & E & Hl). exists l.
  split_and!; [done| |intros; by replace (length l - capacity) with 0 by lia].
  rewrite forward_spec by (rewrite ?E, ?length_app; lia). f_equal. unfold caught_up. rewrite E, length_app.
  destruct (decide (length l <= capacity)).
  - rewrite Nat.max_l by lia. replace (length l - capacity) with 0 by lia. by rewrite drop_app_length, drop_0.
  - rewrite Nat.max_r by lia. replace (length (broadcast st) + length l - capacity) with (length (broadcast st) + (length l - capacity)) by lia.
    by rewrite drop_app_add.
Qed.

Lemma subscribed_elem forwarded b : b ∈ subscribed forwarded <-> exists pos, b = Forwarding pos /\ forwarded = Some (Some pos).
Proof.
  unfold subscribed. destruct forwarded as [[k|]|]; rewrite ?list_elem_of_singleton, ?elem_of_nil.
  - split; [intros ->; by exists k|by intros (pos & -> & [= ->])].
  - split; [done|by intros (? & _ & ?)].
  - split; [done|by intros (? & _ & ?)].
Qed.
Lemma poll_of_elem {P} (start : P -> result unit McpSdkError * P) polled b :
  b ∈ (poll_of start polled).1 <-> b = Polling /\ exists p, polled = Some p /\ (start p).1 = Ok tt.
Proof.
  unfold poll_of. destruct polled as [p|]; [destruct (start p) as [[[]|e] p'] eqn:E|]; cbn [fst];
    rewrite ?list_elem_of_singleton, ?elem_of_nil.
  - split; [intros ->; split; [done|]; exists p; by rewrite E|by intros [-> _]].
  - split; [done|]. intros (_ & q & [= <-] & Ho). by rewrite E in Ho.
  - split; [done|]. by intros (_ & q & ? & _).
Qed.

(** What the server forwards and polls is what the client polls and forwards:
    each side forwards from the moment it subscribes, polls when its store lets
    it, and starts nothing for a store it does not have. *)
Theorem background_started {P} (start : P -> result unit McpSdkError * P) forwarded polled :
  server_background start forwarded polled = client_background start forwarded polled /\
  let '(tasks, store) := server_background start forwarded polled in
  (forall pos, Forwarding pos ∈ tasks <-> forwarded = Some (Some pos)) /\
  (Polling ∈ tasks <-> exists p, polled = Some p /\ (start p).1 = Ok tt) /\
  store = (fun p => (start p).2) <$> polled.
Proof.
  split; [done|]. unfold server_background. pose proof (poll_of_elem start polled) as Hp.
  assert (Es : (poll_of start polled).2 = (fun p => (start p).2) <$> polled)
    by (unfold poll_of; destruct polled as [p|]; [|done]; simpl; by destruct (start p) as [[] ?]).
  destruct (poll_of start polled) as [polling store]. cbn [fst snd] in *.
  split_and!; [intros pos| |done]; rewrite elem_of_app, subscribed_elem, Hp; naive_solver.
Qed.
