(* ===== verification/UtcTime.v ===== *)
(** * The clock of the task store

    Models current_utc_time and iso8601_time of crates/rust-mcp-sdk/src/utils.rs
    and the times create_task of task_store/in_memory_task_store.rs takes from
    them.  The time crate is the class [TimeLib]: a time counts nanoseconds from
    the epoch within a range, and moving it by a duration fails outside of it. *)
From S2P Require Import Prelude RustStr IdGen TaskStore.
Import InMemoryTaskStore.

(** ** The time crate *)

(** [OffsetDateTime], with its [unix_timestamp_nanos], [checked_add],
    [checked_sub] (by nanoseconds) and [format(&Iso8601::DEFAULT)]. *)
Class TimeLib (T : Type) := {
  unix_nanos : T -> Z;
  checked_add : T -> Z -> option T;
  checked_sub : T -> Z -> option T;
  format_iso8601 : T -> option str;
}.
(** A time moves by the duration exactly when the result is in range. *)
Class TimeLaws (T : Type) `{TimeLib T} (earliest latest : Z) := {
  in_range : forall t : T, (earliest <= unix_nanos t <= latest)%Z;
  checked_add_spec : forall (t : T) d,
    match checked_add t d with
    | Some t' => unix_nanos t' = (unix_nanos t + d)%Z
    | None => ~ (earliest <= unix_nanos t + d <= latest)%Z
    end;
  checked_sub_spec : forall (t : T) d,
    match checked_sub t d with
    | Some t' => unix_nanos t' = (unix_nanos t - d)%Z
    | None => ~ (earliest <= unix_nanos t - d <= latest)%Z
    end;
}.

(** A concrete clock: nanoseconds within a range, shown in decimal. *)
Definition Clock (lo hi : Z) : Type := { n : Z | (lo <= n <= hi)%Z }.
Definition clock_at (lo hi n : Z) : option (Clock lo hi) :=
  match decide (lo <= n <= hi)%Z with left p => Some (n ↾ p) | right _ => None end.
#[export] Instance clock_lib (lo hi : Z) : TimeLib (Clock lo hi) := {|
  unix_nanos t := `t;
  checked_add t d := clock_at lo hi (`t + d);
  checked_sub t d := clock_at lo hi (`t - d);
  format_iso8601 t := Some (show_N (Z.to_N (`t)));
|}.

(** ** Times of the SDK *)

Section Times.
Context {T : Type} `{TimeLib T}.

(** [time::Duration::milliseconds], and [OffsetDateTime::unix_timestamp]. *)
Definition milliseconds (ms : Z) : Z := ms * 1000000.
Definition unix_timestamp (t : T) : Z := unix_nanos t / 1000000000.

(** [current_utc_time], at the time [now_utc] the clock shows. *)
Definition current_utc_time (now_utc : T) (ms_offset : option Z) : T :=
  match ms_offset with
  | None => now_utc
  | Some ms =>
      match checked_add now_utc (milliseconds ms) with
      | Some new_dt => new_dt
      | None =>
          if (0 <? ms)%Z
          then from_option (fun t => t) now_utc (checked_add now_utc (milliseconds 180000))
          else from_option (fun t => t) now_utc (checked_sub now_utc (milliseconds 180000))
      end
  end.
Definition iso8601_time (time_value : T) : str := from_option (fun v => v) [] (format_iso8601 time_value).
(** [current_utc_time(Some(ttl)).unix_timestamp()], the [unix_in] of [create_task]. *)
Definition expiry (now_utc : T) (ttl : Z) : Z := unix_timestamp (current_utc_time now_utc (Some ttl)).

(** [create_task], with the clocks it reads: for the text and for the expiry of
    the task, and the [Instant] for its schedule. *)
Definition create_task_at {Req Res Meta Status : Type} (Working : Status) (encode : bytes -> str)
  (instant : N) (now_utc later_utc : T) (params : @CreateTaskOptions Meta) (req : Req) (se : option str)
  (s : t Req Res Meta Status) : @Task Status * t Req Res Meta Status :=
  create_task Working encode instant (iso8601_time (current_utc_time now_utc None)) (expiry later_utc) params req se s.
End Times.

(** ** Its laws *)

Lemma clock_at_spec lo hi n :
  match clock_at lo hi n with Some t => `t = n | None => ~ (lo <= n <= hi)%Z end.
Proof. unfold clock_at. by case_decide. Qed.
#[export] Instance clock_laws lo hi : TimeLaws (Clock lo hi) lo hi.
Proof.
  split; [by intros [n ?]|intros t d..].
  - apply (clock_at_spec lo hi (`t + d)).
  - apply (clock_at_spec lo hi (`t - d)).
Qed.

Section Laws.
Context {T : Type} `{TimeLib T} {earliest latest : Z} `{!TimeLaws T earliest latest}.

(** Moving the clock: exact when the result exists; otherwise three minutes
    towards it, or not at all. *)
Lemma current_utc_time_spec (now : T) ms :
  unix_nanos (current_utc_time now (Some ms)) =
    if decide (earliest <= unix_nanos now + milliseconds ms <= latest)%Z then (unix_nanos now + milliseconds ms)%Z
    else
      let there := (unix_nanos now + milliseconds (if 0 <? ms then 180000 else -180000))%Z in
      if decide (earliest <= there <= latest)%Z then there else unix_nanos now.
Proof.
  pose proof (in_range now) as Hnow. unfold current_utc_time. cbn zeta.
  pose proof (checked_add_spec now (milliseconds ms)) as Hms.
  pose proof (checked_add_spec now (milliseconds 180000)) as Hup.
  pose proof (checked_sub_spec now (milliseconds 180000)) as Hdown.
  destruct (checked_add now (milliseconds ms)) as [t'|].
  { rewrite decide_True; [done|]. pose proof (in_range t'). lia. }
  rewrite decide_False by done. unfold milliseconds in *.
  destruct (0 <? ms)%Z.
  - destruct (checked_add now _) as [t'|]; cbn [from_option].
    + rewrite decide_True; [done|]. pose proof (in_range t'). lia.
    + rewrite decide_False by lia. done.
  - destruct (checked_sub now _) as [t'|]; cbn [from_option].
    + pose proof (in_range t'). rewrite decide_True by lia. lia.
    + rewrite decide_False by lia. done.
Qed.

(** The task [create_task] stores: shown with the time of its creation, and
    expiring when its time to live ends, if that is a time at all; otherwise
    within three minutes of now. *)
Theorem create_task_times {Req Res Meta Status : Type} (Working : Status) encode instant (now later : T)
    (params : @CreateTaskOptions Meta) (req : Req) se (s : t Req Res Meta Status) :
  let created := create_task_at Working encode instant now later params req se s in
  let text := iso8601_time now in
  created_at created.1 = text /\ last_updated_at created.1 = text /\
  exists entry, find_entry created.2 (task_id created.1) se = Some entry /\
    task entry = created.1 /\ expires_at entry = expiry later <$> opt_ttl params /\
    forall ms, opt_ttl params = Some ms ->
      if decide (earliest <= unix_nanos later + milliseconds ms <= latest)%Z
      then expires_at entry = Some ((unix_nanos later + milliseconds ms) / 1000000000)%Z
      else exists at_, expires_at entry = Some at_ /\ (Z.abs (at_ - unix_timestamp later) <= 180)%Z.
Proof.
  cbn zeta. split_and!; [done..|]. eexists. split_and!.
  - unfold find_entry, create_task_at, create_task. simpl. by rewrite lookup_insert_eq; simpl; rewrite lookup_insert_eq.
  - done.
  - done.
  - intros ms Hms. cbn [expires_at]. rewrite Hms. cbn [fmap option_fmap option_map]. unfold expiry, unix_timestamp.
    pose proof (current_utc_time_spec later ms) as E. case_decide; [by rewrite E|].
    eexists. split; [done|]. rewrite E. clear E. unfold milliseconds.
    assert (forall d, (- 180 <= d <= 180)%Z ->
      (Z.abs ((unix_nanos later + d * 1000 * 1000000) / 1000000000 - unix_nanos later / 1000000000) <= 180)%Z) as Hnear.
    { intros d Hd. replace (unix_nanos later + d * 1000 * 1000000)%Z with (unix_nanos later + d * 1000000000)%Z by lia.
      rewrite Z.div_add by done. lia. }
    repeat case_match; try (rewrite Z.sub_diag; simpl; lia).
    + apply (Hnear 180%Z). lia.
    + apply (Hnear (-180)%Z). lia.
Qed.
End Laws.

(** ** A clock until the end of the year 9999 *)

Definition latest_time : Z := 253402300799999999999.
Abbreviation Utc := (Clock 0 latest_time).
Definition utc (n : N) : option Utc := clock_at 0 latest_time (Z.of_N n).
Definition noon : Utc := from_option (fun t => t) (0 ↾ conj (Z.le_refl 0) (Zle_bool_imp_le 0 latest_time eq_refl))%Z (utc 1700000000000000000).

(** A minute is a minute; the largest time to live ends three minutes from now,
    although the doc comment of current_utc_time says it is clamped. *)
Example expiry_minute : expiry noon 60000 = 1700000060%Z.
Proof. by vm_compute. Qed.
Example expiry_overflow : expiry noon I64_MAX = 1700000180%Z.
Proof. by vm_compute. Qed.
