(* ===== verification/Http.v ===== *)
(** * HTTP messages and the middleware chain

    Models, from crates/rust-mcp-sdk/src/mcp_http/: the response builders of
    types.rs and http_utils.rs, dns_rebinding.rs, middleware.rs ([compose]) and
    middleware/ (dns_rebind_protector.rs, cors_middleware.rs,
    auth_middleware.rs).

    The [http] crate's [HeaderMap] and [HeaderValue] are a class with their
    documented laws; a body is kept as the value that is serialised. *)
From S2P Require Import Prelude RustStr Dispatcher Auth.

(** ** Headers *)

(** [http::HeaderMap], keyed by lower-case names; a [HeaderValue] is its bytes. *)
Class HeaderMap (H : Type) := {
  hm_new : H;
  hm_get : H -> str -> option bytes;
  hm_insert : H -> str -> bytes -> H;
  hm_append : H -> str -> bytes -> H;
  to_str : H -> bytes -> option str; (* HeaderValue::to_str; the map only selects the class *)
  from_str : H -> str -> option bytes; (* HeaderValue::from_str *)
}.

(** The bytes [to_str] and [from_str] accept: visible ASCII, space and tab. *)
Definition visible (c : ascii) : bool := ((32 <=? code c) && (code c <? 127) || (code c =? 9))%N.

Class HeaderMapLaws (H : Type) `{HeaderMap H} : Prop := {
  get_new k : hm_get hm_new k = None;
  get_insert h k v k' : hm_get (hm_insert h k v) k' = if decide (k = k') then Some v else hm_get h k';
  get_append h k v k' : hm_get (hm_append h k v) k' =
    if decide (k = k') then Some (from_option id v (hm_get h k)) else hm_get h k';
  to_str_spec h v s : to_str h v = Some s -> v = s /\ Forall (fun c => visible c = true) s;
  to_str_visible h s : Forall (fun c => visible c = true) s -> to_str h s = Some s;
  from_str_spec h s : Forall (fun c => visible c = true) s -> from_str h s = Some s;
}.

(** A list of pairs, the first one for a name being the value. *)
Module ListHeaders.
Definition t : Type := list (str * bytes).
Fixpoint get (h : t) (k : str) : option bytes :=
  match h with [] => None | (k', v) :: r => if decide (k' = k) then Some v else get r k end.
Definition check (s : str) : option str :=
  if bool_decide (Forall (fun c => visible c = true) s) then Some s else None.

#[global] Instance header_map : HeaderMap t := {
  hm_new := []; hm_get := get; hm_insert := fun h k v => (k, v) :: h; hm_append := fun h k v => h ++ [(k, v)];
  to_str := fun _ => check; from_str := fun _ => check;
}.
#[global] Instance laws : HeaderMapLaws t.
Proof.
  split; simpl; try done.
  - intros h k v k'. induction h as [|[k0 v0] h IH]; simpl; [done|]. rewrite IH.
    destruct (decide (k0 = k')), (decide (k = k')), (decide (k0 = k)); simpl; congruence.
  - intros _ v s. unfold check. case_bool_decide; [|done]. by intros [= ->].
  - intros _ s Hs. unfold check. by rewrite bool_decide_eq_true_2.
  - intros _ s Hs. unfold check. by rewrite bool_decide_eq_true_2.
Qed.
End ListHeaders.

(** ** Requests, responses, errors *)

(** [enum McpHttpError] *)
Inductive McpHttpError :=
| SessionIdMissing
| SessionIdInvalid (id : str)
| StreamIoError (e : str)
| HttpError (e : str)
| TransportError (e : str).

(** What a body serialises: raw text, an [SdkError], an [AuthenticationError],
    the lines of the stream of a transport (its number), or those after the
    initial event of an SSE connection. *)
Inductive Body :=
| BText (s : str)
| BSdkError (e : SdkError)
| BAuthError (e : AuthenticationError)
| BStream (n : nat)
| BSse (endpoint : str) (n : nat).

Section Http.
Context {H : Type} `{HeaderMap H}.
Context {Extra : Type}.

(** The parts of [http::Request<&str>] the SDK reads; the extensions hold at
    most one [AuthInfo]. *)
Record Request := mkRequest {
  method : str;
  uri_query : option str;
  headers : H;
  body : str;
  auth_info : option (AuthInfo Extra);
}.
Record Response := mkResponse {
  status : N;
  resp_headers : H;
  resp_body : Body;
}.
Definition set_auth (r : Request) (a : option (AuthInfo Extra)) : Request :=
  mkRequest (method r) (uri_query r) (headers r) (body r) a.
Definition set_headers (r : Response) (h : H) : Response := mkResponse (status r) h (resp_body r).

Definition CONTENT_TYPE : str := s! "content-type".

(** [GenericBody::into_response] without extra headers, and [build_response]. *)
Definition into_response (b : Body) (st : N) : Response :=
  mkResponse st (hm_append hm_new CONTENT_TYPE (s! "text/plain")) b.
Definition build_response (st : N) (payload : str) : Response := into_response (BText payload) st.
(** [GenericBody::into_json_response] without extra headers. *)
Definition into_json_response (b : Body) (st : N) : Response :=
  mkResponse st (hm_append hm_new CONTENT_TYPE (s! "application/json")) b.

(** [error_response] *)
Definition error_response (st : N) (e : SdkError) : Response :=
  mkResponse st (hm_append hm_new CONTENT_TYPE (s! "application/json")) (BSdkError e).

(** A handler on a state [St]: the response or the error, and the new state;
    [None] is a panic. *)
Definition Handler (St : Type) : Type :=
  Request -> St -> option (result Response McpHttpError * St).

(** [headers.get(name).and_then(|v| v.to_str().ok())] *)
Definition get_str (h : H) (name : str) : option str := hm_get h name ≫= to_str h.

(** ** The middleware chain *)

(** [trait Middleware]: the handler with its [next]. *)
Definition Middleware (St : Type) : Type := Handler St -> Handler St.

(** [compose]: folds the middlewares in reverse around the final handler. *)
Definition compose {St} (middlewares : list (Middleware St)) (final_handler : Handler St) : Handler St :=
  foldl (fun next mw => mw next) final_handler (rev middlewares).

(** ** DNS rebinding protection *)

Record DnsRebindingOptions := mkDnsOptions {
  dns_rebinding_protection : bool;
  opt_allowed_hosts : option (list str);
  opt_allowed_origins : option (list str);
}.
Record DnsRebindProtector := mkDns {
  allowed_hosts : option (list str);
  allowed_origins : option (list str);
}.

Definition is_wildcard (host : str) : bool :=
  bool_decide (host = []) || bool_decide (host = s! "0.0.0.0") || bool_decide (host = s! "::").

Definition resolve_dns_middleware (opts : DnsRebindingOptions) (host : str) (port : N) : option DnsRebindProtector :=
  if negb (dns_rebinding_protection opts) then None
  else
    let allowed_hosts :=
      match opt_allowed_hosts opts with
      | Some hosts => Some hosts
      | None => if is_wildcard host then None else Some [host ++ s! ":" ++ show_N port]
      end in
    let allowed_origins := opt_allowed_origins opts in
    if is_some allowed_hosts || is_some allowed_origins then Some (mkDns allowed_hosts allowed_origins) else None.

(** One of the two checks of [protect_dns_rebinding]. *)
Definition check_header (allowed : option (list str)) (value : option str) (name : str) : result unit SdkError :=
  match allowed with
  | None | Some [] => Ok tt
  | Some l =>
      match value with
      | None => Err (mkSdkError bad_request (Some ((s! "Invalid ") ++ name ++ (s! " header: [unknown] "))))
      | Some v =>
          if List.existsb (fun a => eq_ignore_ascii_case a v) l then Ok tt
          else Err (mkSdkError bad_request
                 (Some ((s! "Invalid ") ++ name ++ (s! " header: ") ++ [ascii_of_nat 34] ++ v ++ [ascii_of_nat 34] ++ (s! " "))))
      end
  end.
Definition HOST : str := s! "host".
Definition ORIGIN : str := s! "origin".
Definition protect_dns_rebinding (p : DnsRebindProtector) (h : H) : result unit SdkError :=
  let? _ := check_header (allowed_hosts p) (get_str h HOST) (s! "Host") in
  check_header (allowed_origins p) (get_str h ORIGIN) (s! "Origin").

Definition dns_handle {St} (p : DnsRebindProtector) : Middleware St :=
  fun next req st =>
    match protect_dns_rebinding p (headers req) with
    | Err error => Some (Ok (error_response 403 error), st)
    | Ok _ => next req st
    end.

(** ** CORS *)

Inductive AllowOrigins := Any | OriginList (l : gset str) | Echo.

Record CorsConfig := mkCors {
  allow_origins : AllowOrigins;
  allow_methods : list str;
  allow_headers : list str; (* HeaderName: lower case *)
  allow_credentials : bool;
  max_age : option N;
  expose_headers : list str;
}.
Definition default_cors : CorsConfig :=
  mkCors Any [s! "GET"; s! "POST"; s! "OPTIONS"]
    [s! "content-type"; s! "authorization"; s! "mcp-session-id"] false (Some 86400%N) [].
Definition permissive : CorsConfig :=
  mkCors Any [s! "GET"; s! "POST"; s! "PUT"; s! "DELETE"; s! "PATCH"; s! "OPTIONS"; s! "HEAD"]
    [s! "content-type"; s! "authorization"; s! "accept"; s! "origin"] true (Some 86400%N) [].

Definition resolve_allowed_origin (c : CorsConfig) (origin : str) : option str :=
  match allow_origins c with
  | Any => if allow_credentials c then Some origin else Some (s! "*")
  | OriginList allowed => if bool_decide (origin ∈ allowed) then Some origin else None
  | Echo => Some origin
  end.

Definition ALLOW_ORIGIN : str := s! "access-control-allow-origin".
Definition ALLOW_CREDENTIALS : str := s! "access-control-allow-credentials".
Definition MAX_AGE : str := s! "access-control-max-age".
Definition ALLOW_METHODS : str := s! "access-control-allow-methods".
Definition ALLOW_HEADERS : str := s! "access-control-allow-headers".
Definition EXPOSE_HEADERS : str := s! "access-control-expose-headers".
Definition REQUEST_METHOD : str := s! "access-control-request-method".
Definition REQUEST_HEADERS : str := s! "access-control-request-headers".

(** [headers.insert(name, HeaderValue::from_str(value).expect(..))]; [None] panics. *)
Definition insert_expect (h : H) (name value : str) : option H :=
  (fun v => hm_insert h name v) <$> from_str h value.

Definition insert_origin (c : CorsConfig) (origin : str) (h : H) : option H :=
  match resolve_allowed_origin c origin with
  | Some o => insert_expect h ALLOW_ORIGIN o
  | None => Some h
  end.
Definition insert_credentials (c : CorsConfig) (h : H) : H :=
  if allow_credentials c then hm_insert h ALLOW_CREDENTIALS (s! "true") else h.

Definition preflight_response (c : CorsConfig) (origin : str) : option Response :=
  h ← insert_origin c origin hm_new;
  h ← (match max_age c with
       | Some age => insert_expect (insert_credentials c h) MAX_AGE (show_N age)
       | None => Some (insert_credentials c h) end);
  h ← insert_expect h ALLOW_METHODS (join (s! ", ") (allow_methods c));
  h ← insert_expect h ALLOW_HEADERS (join (s! ", ") (allow_headers c));
  Some (mkResponse 204 h (BText [])).

Definition add_cors_to_response (c : CorsConfig) (resp : Response) (origin : str) : option Response :=
  h ← insert_origin c origin (resp_headers resp);
  let h := insert_credentials c h in
  h ← (match expose_headers c with
       | [] => Some h
       | l => insert_expect h EXPOSE_HEADERS (join (s! ", ") l) end);
  Some (set_headers resp h).

(** [parse::<Method>] accepts the tokens; the parameter is the crate's parser. *)
Context (parse_method : str -> option str).

(** The preflight branch, an [OPTIONS] request. *)
Definition preflight (c : CorsConfig) (h : H) (origin : option str) : option Response :=
  let requested_method := get_str h REQUEST_METHOD ≫= parse_method in
  let requested_headers : list str :=
    match get_str h REQUEST_HEADERS with
    | Some s => (fun h => to_ascii_lowercase (trim h)) <$> split_char ","%char s
    | None => []
    end in
  match origin with
  | None =>
      if (match allow_origins c with Any => true | _ => false end) && negb (allow_credentials c)
      then preflight_response c (s! "*")
      else Some (build_response 400 (s! "CORS origin missing in preflight"))
  | Some origin =>
      if negb (is_some (resolve_allowed_origin c origin))
      then Some (build_response 403 (s! "CORS origin not allowed"))
      else if (match requested_method with Some m => negb (bool_decide (m ∈ allow_methods c)) | None => false end)
      then Some (build_response 405 (s! "CORS method not allowed"))
      else if negb (forallb (fun r => bool_decide (r ∈ to_ascii_lowercase <$> allow_headers c)) requested_headers)
      then Some (build_response 400 (s! "CORS header not allowed"))
      else preflight_response c origin
  end.

Definition cors_handle {St} (c : CorsConfig) : Middleware St :=
  fun next req st =>
    let origin := get_str (headers req) ORIGIN in
    if bool_decide (method req = s! "OPTIONS") then
      r ← preflight c (headers req) origin; Some (Ok r, st)
    else
      '(r, st) ← next req st;
      match r, origin with
      | Ok resp, Some o =>
          if is_some (resolve_allowed_origin c o)
          then resp ← add_cors_to_response c resp o; Some (Ok resp, st)
          else Some (Ok resp, st)
      | _, _ => Some (r, st)
      end.

(** ** Authentication *)

(** [trait AuthProvider], as the middleware uses it. *)
Record AuthProvider (St : Type) := mkProvider {
  verify_token : str -> St -> option (result (AuthInfo Extra) AuthenticationError * St);
  required_scopes : option (list str);
  protected_resource_metadata_url : option str;
}.
Arguments verify_token {St} a t s.
Arguments required_scopes {St} a.
Arguments protected_resource_metadata_url {St} a.

(** [splitn(2, ' ')] *)
Definition splitn2 (s : str) : list str :=
  match split_once_char " "%char s with Some (a, b) => [a; b] | None => [s] end.

Definition AUTHORIZATION : str := s! "authorization".

(** [validate]; [now] is the system clock. *)
Definition validate {St} (p : AuthProvider St) (now : N) (h : H) (st : St)
  : option (result (AuthInfo Extra) AuthenticationError * St) :=
  match hm_get h AUTHORIZATION with
  | None => Some (Err (InvalidToken (s! "Missing access token in Authorization header")), st)
  | Some v =>
      let auth_token := from_option id [] (to_str h v) in
      match splitn2 (trim auth_token) with
      | [scheme; rest] =>
          if negb (eq_ignore_ascii_case scheme (s! "bearer"))
          then Some (Err (InvalidToken (s! "Invalid Authorization header format, expected 'Bearer TOKEN'")), st)
          else
            '(r, st) ← verify_token p (trim rest) st;
            match r with
            | Err e => Some (Err e, st)
            | Ok info =>
                match expires_at info with
                | None => Some (Err (InvalidToken (s! "Token has no expiration time")), st)
                | Some expires =>
                    if (expires <=? now)%N then Some (Err (InvalidToken (s! "Token has expired")), st)
                    else match required_scopes p, scopes info with
                    | Some required, Some user =>
                        if forallb (fun s => bool_decide (s ∈ user)) required then Some (Ok info, st)
                        else Some (Err InsufficientScope, st)
                    | _, _ => Some (Ok info, st)
                    end
                end
            end
      | _ => Some (Err (InvalidToken (s! "Invalid Authorization header format, expected 'Bearer TOKEN'")), st)
      end
  end.

(** The error's name in JSON and its [Display] text, from [serde] and
    [thiserror]. *)
Context (error_code error_text : AuthenticationError -> str).

Definition quoted (s : str) : str := [ascii_of_nat 34] ++ s ++ [ascii_of_nat 34].
Definition create_www_auth_value {St} (p : AuthProvider St) (e : AuthenticationError) : str :=
  (s! "Bearer error=") ++ quoted (error_code e) ++ (s! ", error_description=") ++ quoted (error_text e) ++
  match protected_resource_metadata_url p with
  | Some u => (s! ", resource_metadata=") ++ quoted u
  | None => []
  end.

(** [StatusCode::from_u16] *)
Definition status_from_u16 (n : N) : option N := if ((100 <=? n) && (n <? 1000))%N then Some n else None.

Definition WWW_AUTHENTICATE : str := s! "www-authenticate".
Definition auth_error_status (e : AuthenticationError) : N * bool :=
  match e with
  | InactiveToken | InvalidToken _ => (401%N, true)
  | InsufficientScope => (403%N, true)
  | TokenVerificationFailed _ code =>
      if bool_decide (code = Some 403%N) then (403%N, true)
      else (from_option id 400%N (code ≫= status_from_u16), false)
  | _ => (400%N, false)
  end.
Definition auth_error_response {St} (p : AuthProvider St) (e : AuthenticationError) : Response :=
  let '(st, challenge) := auth_error_status e in
  let response := into_json_response (BAuthError e) st in
  if challenge then
    match from_str (resp_headers response) (create_www_auth_value p e) with
    | None => into_response (BText (s! "Unsupported WWW_AUTHENTICATE value")) 500
    | Some v => set_headers response (hm_append (resp_headers response) WWW_AUTHENTICATE v)
    end
  else response.

Definition auth_handle {St} (p : AuthProvider St) (now : N) : Middleware St :=
  fun next req st =>
    '(r, st) ← validate p now (headers req) st;
    match r with
    | Err e => Some (Ok (auth_error_response p e), st)
    | Ok info => next (set_auth req (Some info)) st
    end.
End Http.
Arguments Request : clear implicits.
Arguments Response : clear implicits.
Arguments Handler H Extra St : clear implicits.
Arguments Middleware H Extra St : clear implicits.

(** ** Facts *)

Module HttpFacts.
Section Facts.
Context {H : Type} `{HeaderMapLaws H} {Extra : Type} {St : Type}.

Lemma compose_cons (mw : Middleware H Extra St) mws f : compose (mw :: mws) f = mw (compose mws f).
Proof. unfold compose. simpl. by rewrite foldl_app. Qed.

(** What the two checks of the protector mean. *)
Definition header_allowed (allowed : option (list str)) (value : option str) : Prop :=
  match allowed with
  | None | Some [] => True
  | Some l => exists v a, value = Some v /\ a ∈ l /\ to_ascii_lowercase a = to_ascii_lowercase v
  end.

Lemma check_header_spec allowed value name :
  match check_header allowed value name with
  | Ok _ => header_allowed allowed value
  | Err _ => ~ header_allowed allowed value
  end.
Proof.
  unfold check_header, header_allowed. destruct allowed as [[|a0 l]|]; [done| |done].
  destruct value as [v|]; [|naive_solver].
  destruct (List.existsb _ (a0 :: l)) eqn:E.
  - apply existsb_exists in E as (a & Ha & Hv). exists v, a. rewrite list_elem_of_In.
    split_and!; try done. by apply bool_decide_eq_true in Hv.
  - intros (v' & a & [= <-] & Ha & Hv). apply not_true_iff_false in E. apply E, existsb_exists.
    exists a. rewrite <-list_elem_of_In. split; [done|]. by apply bool_decide_eq_true.
Qed.

Lemma protect_spec p (h : H) :
  match protect_dns_rebinding p h with
  | Ok _ => header_allowed (allowed_hosts p) (get_str h HOST) /\ header_allowed (allowed_origins p) (get_str h ORIGIN)
  | Err _ => ~ (header_allowed (allowed_hosts p) (get_str h HOST) /\ header_allowed (allowed_origins p) (get_str h ORIGIN))
  end.
Proof.
  unfold protect_dns_rebinding. pose proof (check_header_spec (allowed_hosts p) (get_str h HOST) (s! "Host")).
  pose proof (check_header_spec (allowed_origins p) (get_str h ORIGIN) (s! "Origin")).
  destruct (check_header (allowed_hosts p) _ _); [|tauto]. destruct (check_header (allowed_origins p) _ _); tauto.
Qed.

(** *** CORS *)

Abbreviation readable := (Forall (fun c => visible c = true)).

(** Method and header names are visible text, as the [http] types ensure. *)
Definition wf_config (c : CorsConfig) : Prop :=
  Forall readable (allow_methods c) /\ Forall readable (allow_headers c) /\ Forall readable (expose_headers c).

Lemma readable_join l : Forall readable l -> readable (join (s! ", ") l).
Proof.
  induction 1 as [|x l Hx Hl IH]; [constructor|]. destruct l as [|y l]; [done|].
  change (join (s! ", ") (x :: y :: l)) with (x ++ s! ", " ++ join (s! ", ") (y :: l)).
  rewrite !Forall_app. split_and!; [done|repeat constructor|done].
Qed.

Lemma readable_digits n : readable (show_N n).
Proof.
  eapply Forall_impl; [apply show_N_digits|]. intros c. unfold is_digit, visible.
  rewrite !andb_true_iff, orb_true_iff, andb_true_iff, !N.leb_le, N.ltb_lt. lia.
Qed.

Lemma insert_expect_ok (h : H) name v : readable v -> insert_expect h name v = Some (hm_insert h name v).
Proof. intros Hv. unfold insert_expect. by rewrite from_str_spec. Qed.

Lemma resolve_readable c o r : readable o -> resolve_allowed_origin c o = Some r -> readable r.
Proof.
  unfold resolve_allowed_origin. intros Ho. destruct (allow_origins c); repeat case_match; intros [= <-]; try done.
  repeat constructor.
Qed.

Lemma insert_origin_ok c o (h : H) :
  readable o -> insert_origin c o h =
    Some (match resolve_allowed_origin c o with Some r => hm_insert h ALLOW_ORIGIN r | None => h end).
Proof.
  intros Ho. unfold insert_origin. destruct (resolve_allowed_origin c o) as [r|] eqn:E; [|done].
  apply insert_expect_ok. by eapply resolve_readable.
Qed.

Lemma get_insert_ne (h : H) k v k' : k <> k' -> hm_get (hm_insert h k v) k' = hm_get h k'.
Proof. intros Hk. by rewrite get_insert, decide_False. Qed.

Lemma credentials_origin c (h : H) : hm_get (insert_credentials c h) ALLOW_ORIGIN = hm_get h ALLOW_ORIGIN.
Proof. unfold insert_credentials. case_match; [|done]. by apply get_insert_ne. Qed.

Lemma preflight_response_ok c o :
  wf_config c -> readable o ->
  exists r, preflight_response (H := H) c o = Some r /\ status r = 204%N /\
    hm_get (resp_headers r) ALLOW_ORIGIN = resolve_allowed_origin c o.
Proof.
  intros (Hm & Hh & _) Ho. unfold preflight_response. rewrite insert_origin_ok by done. simpl.
  set (h0 := match resolve_allowed_origin c o with Some r => _ | None => _ end).
  assert (E0 : hm_get (insert_credentials c h0) ALLOW_ORIGIN = resolve_allowed_origin c o).
  { rewrite credentials_origin. unfold h0. destruct (resolve_allowed_origin c o); [|apply get_new].
    by rewrite get_insert, decide_True. }
  destruct (max_age c) as [age|]; [rewrite insert_expect_ok by apply readable_digits|]; simpl;
    rewrite insert_expect_ok by (by apply readable_join); simpl;
    rewrite insert_expect_ok by (by apply readable_join); simpl;
    (eexists; split_and!; [done|done|]); simpl; rewrite !get_insert_ne by done; done.
Qed.

Lemma add_cors_ok c (resp : Response H) o :
  wf_config c -> readable o ->
  exists r, add_cors_to_response c resp o = Some r /\ status r = status resp /\ resp_body r = resp_body resp /\
    (forall a, resolve_allowed_origin c o = Some a -> hm_get (resp_headers r) ALLOW_ORIGIN = Some a).
Proof.
  intros (_ & _ & He) Ho. unfold add_cors_to_response. rewrite insert_origin_ok by done. simpl.
  set (h0 := match resolve_allowed_origin c o with Some r => _ | None => _ end).
  assert (E0 : forall a, resolve_allowed_origin c o = Some a ->
      hm_get (insert_credentials c h0) ALLOW_ORIGIN = Some a).
  { intros a Ha. rewrite credentials_origin. unfold h0. by rewrite Ha, get_insert, decide_True. }
  destruct (expose_headers c) as [|x l]; simpl.
  - eexists; split_and!; [done|done|done|]. exact E0.
  - rewrite insert_expect_ok by (by apply (readable_join (x :: l))). simpl.
    eexists; split_and!; [done|done|done|]. simpl. intros a Ha. rewrite get_insert_ne by done. eauto.
Qed.

Lemma get_str_readable (h : H) k s : get_str h k = Some s -> readable s.
Proof.
  unfold get_str. destruct (hm_get h k) as [v|]; simpl; [|done]. intros Hs. by apply to_str_spec in Hs as [_ ?].
Qed.

(** The conditions of a successful preflight. *)
Definition preflight_allowed (parse_method : str -> option str) (c : CorsConfig) (h : H) (o : str) : Prop :=
  is_Some (resolve_allowed_origin c o) /\
  (forall m, get_str h REQUEST_METHOD ≫= parse_method = Some m -> m ∈ allow_methods c) /\
  (forall s r, get_str h REQUEST_HEADERS = Some s -> r ∈ split_char ","%char s ->
     to_ascii_lowercase (trim r) ∈ to_ascii_lowercase <$> allow_headers c).

Lemma no_cors_header st p : hm_get (resp_headers (build_response (H := H) st p)) ALLOW_ORIGIN = None.
Proof. simpl. rewrite get_append, decide_False by done. apply get_new. Qed.

Lemma preflight_spec parse_method c (h : H) o :
  wf_config c -> get_str h ORIGIN = Some o ->
  exists r, preflight parse_method c h (Some o) = Some r /\
    (status r = 204%N <-> preflight_allowed parse_method c h o) /\
    hm_get (resp_headers r) ALLOW_ORIGIN = (if decide (status r = 204%N) then resolve_allowed_origin c o else None).
Proof.
  intros Hc Ho. unfold preflight, preflight_allowed.
  destruct (resolve_allowed_origin c o) as [a|] eqn:Ea; simpl.
  2:{ eexists; split_and!; [done| |apply no_cors_header]. split; [done|]. by intros ([? ?] & _). }
  destruct (match get_str h REQUEST_METHOD ≫= parse_method with Some m => _ | None => _ end) eqn:Em.
  { eexists; split_and!; [done| |apply no_cors_header]. split; [done|]. intros (_ & Hm & _).
    destruct (get_str h REQUEST_METHOD ≫= parse_method) as [m|]; [|done].
    bool_prop. by specialize (Hm m eq_refl). }
  destruct (forallb _ _) eqn:Eh; simpl.
  - destruct (preflight_response_ok c o Hc (get_str_readable _ _ _ Ho)) as (r & Hr & Hs & Hg).
    exists r. rewrite Hs, decide_True, Hg, Ea by done. split_and!; try done. split; [intros _|done].
    split_and!; [by eexists| |].
    + intros m Hm. rewrite Hm in Em. by bool_prop.
    + intros s r0 Hs0 Hr0. rewrite Hs0 in Eh. rewrite forallb_forall in Eh.
      apply (bool_decide_eq_true _), Eh. apply list_elem_of_In, list_elem_of_fmap. eauto.
  - eexists; split_and!; [done| |apply no_cors_header]. split; [done|]. intros (_ & _ & Hh).
    apply not_true_iff_false in Eh. destruct Eh. apply forallb_forall. intros x Hx.
    apply list_elem_of_In in Hx. destruct (get_str h REQUEST_HEADERS) as [s|]; [|by apply elem_of_nil in Hx].
    apply list_elem_of_fmap in Hx as (r0 & -> & Hr0). apply bool_decide_eq_true. eauto.
Qed.

(** *** Authentication *)

Lemma validate_spec (p : AuthProvider (Extra := Extra) St) now (h : H) st info st' :
  validate p now h st = Some (Ok info, st') ->
  exists v scheme rest, hm_get h AUTHORIZATION = Some v /\
    split_once_char " "%char (trim (from_option id [] (to_str h v))) = Some (scheme, rest) /\
    eq_ignore_ascii_case scheme (s! "bearer") = true /\
    verify_token _ p (trim rest) st = Some (Ok info, st') /\
    (exists e, expires_at info = Some e /\ (now < e)%N) /\
    (forall req user, required_scopes _ p = Some req -> scopes info = Some user -> req ⊆ user).
Proof.
  unfold validate, splitn2. destruct (hm_get h AUTHORIZATION) as [v|]; [|done].
  destruct (split_once_char _ _) as [[scheme rest]|] eqn:Es; [|done].
  destruct (eq_ignore_ascii_case scheme (s! "bearer")) eqn:Eb; simpl; [|done].
  destruct (verify_token _ p (trim rest) st) as [[[i|] st1]|] eqn:Ev; simpl; try done.
  destruct (expires_at i) as [e|] eqn:Ee; [|done]. destruct (N.leb_spec e now) as [|Hlt]; [done|].
  intros Hok. exists v, scheme, rest. split_and!; try done.
  - destruct (required_scopes _ p) as [req|]; [|by injection Hok as <- <-].
    destruct (scopes i); [destruct (forallb _ _); [|done]|]; by injection Hok as <- <-.
  - exists e. split; [|done]. destruct (required_scopes _ p) as [req|]; [|by injection Hok as <- <-].
    destruct (scopes i); [destruct (forallb _ _); [|done]|]; by injection Hok as <- <-.
  - intros req user Hreq Huser. rewrite Hreq in Hok. destruct (scopes i) as [u|] eqn:Eu.
    + destruct (forallb _ _) eqn:Ef; [|done]. injection Hok as <- _. rewrite Eu in Huser. injection Huser as <-.
      intros x Hx. rewrite forallb_forall in Ef. apply (bool_decide_eq_true _), Ef. by apply list_elem_of_In.
    + injection Hok as <- _. congruence.
Qed.
End Facts.
End HttpFacts.

Import HttpFacts.

(** DNS-rebinding protection: at the head of any chain, the protector lets
    a request through unchanged exactly when its Host and Origin headers are
    allowed (ignoring ASCII case); otherwise it answers 403 and nothing else
    runs.  By default, for a server bound to a concrete host, the only Host
    allowed is that [host:port]. *)
Theorem dns_protection {H Extra St : Type} `{HeaderMapLaws H} (opts : DnsRebindingOptions) (host : str) (port : N)
  (p : DnsRebindProtector) (mws : list (Middleware H Extra St)) (final : Handler H Extra St)
  (req : Request H Extra) (st : St) :
  resolve_dns_middleware opts host port = Some p ->
  let ok := header_allowed (allowed_hosts p) (get_str (headers req) HOST) /\
            header_allowed (allowed_origins p) (get_str (headers req) ORIGIN) in
  (ok -> compose (dns_handle p :: mws) final req st = compose mws final req st) /\
  (~ ok -> exists e, compose (dns_handle p :: mws) final req st = Some (Ok (error_response 403 e), st)) /\
  (opt_allowed_hosts opts = None -> is_wildcard host = false ->
   ok -> exists v, get_str (headers req) HOST = Some v /\
     to_ascii_lowercase v = to_ascii_lowercase (host ++ s! ":" ++ show_N port)).
Proof.
  intros Hp ok. subst ok. rewrite compose_cons. unfold dns_handle. pose proof (protect_spec p (headers req)) as P.
  split_and!.
  - intros Hok. by destruct (protect_dns_rebinding p (headers req)).
  - intros Hno. destruct (protect_dns_rebinding p (headers req)) as [|e]; [done|by exists e].
  - intros Hn Hw [Hok _]. unfold resolve_dns_middleware in Hp. rewrite Hn, Hw in Hp.
    destruct (negb _); [done|]. injection Hp as <-. destruct Hok as (v & a & Hv & ->%list_elem_of_singleton & Ha).
    by exists v.
Qed.

Lemma dns_protection_witness :
  exists e, compose (H := ListHeaders.t) (Extra := unit) [dns_handle (mkDns (Some [s! "localhost:80"]) None)]
    (fun _ st => Some (Ok (build_response 200 []), S st))
    (mkRequest (s! "POST") None [(HOST, s! "evil.example")] [] None) 0 = Some (Ok (error_response 403 e), 0).
Proof.
  refine (proj1 (proj2 (dns_protection (mkDnsOptions true None None) (s! "localhost") 80
    (mkDns (Some [s! "localhost:80"]) None) [] (fun _ st => Some (Ok (build_response 200 []), S st))
    (mkRequest (s! "POST") None [(HOST, s! "evil.example")] [] None) 0 _)) _); [reflexivity|].
  intros [(v & a & Hv & Ha & E) _]. vm_compute in Hv. injection Hv as <-.
  apply list_elem_of_singleton in Ha as ->. vm_compute in E. discriminate.
Defined.

(** Whether an origin is allowed, and as what it is named in the answer: any
    origin as the wildcard, or as itself when credentials are. *)
Definition allowed_as (c : CorsConfig) (o a : str) : Prop :=
  match allow_origins c with
  | Any => a = if allow_credentials c then o else s! "*"
  | OriginList l => o ∈ l /\ a = o
  | Echo => a = o
  end.
Lemma allowed_as_spec c o a : allowed_as c o a <-> resolve_allowed_origin c o = Some a.
Proof.
  unfold allowed_as, resolve_allowed_origin. destruct (allow_origins c) as [|l|]; [destruct (allow_credentials c); naive_solver| |naive_solver].
  case_bool_decide; naive_solver.
Qed.
(** A preflight request that asks for nothing but what is allowed. *)
Definition preflight_accepted {H : Type} `{HeaderMap H} (parse_method : str -> option str) (c : CorsConfig) (h : H) (o : str) : Prop :=
  (exists a, allowed_as c o a) /\
  (forall m, get_str h REQUEST_METHOD ≫= parse_method = Some m -> m ∈ allow_methods c) /\
  (forall s r, get_str h REQUEST_HEADERS = Some s -> r ∈ split_char ","%char s ->
     to_ascii_lowercase (trim r) ∈ to_ascii_lowercase <$> allow_headers c).


(** An OPTIONS request that is no preflight, since it does not say which method
    it asks about, is answered all the same and does not reach the server. *)
Lemma options_intercepted :
  exists r, cors_handle (H := ListHeaders.t) (Extra := unit) Some default_cors (fun _ st => Some (Ok (build_response 404 []), S st))
    (mkRequest (s! "OPTIONS") None [(ORIGIN, s! "https://a")] [] None) 0 = Some (Ok r, 0) /\ status r = 204%N.
Proof. eexists. split; vm_compute; reflexivity. Qed.


Module AuthSpec.
(** The token of an Authorization header: [Bearer], in any case, and a token. *)
Definition bearer {H : Type} `{HeaderMap H} (h : H) (token : str) : Prop :=
  exists v text scheme rest, hm_get h AUTHORIZATION = Some v /\ to_str h v = Some text /\
    trim text = scheme ++ " "%char :: rest /\ " "%char ∉ scheme /\
    eq_ignore_ascii_case scheme (s! "bearer") = true /\ token = trim rest.

(** What is to be said of a request: the token's information, or an error. *)
Inductive verdict {H Extra St : Type} `{HeaderMap H} (p : AuthProvider (Extra := Extra) St) (now : N) (h : H) (st : St)
  : option (result (AuthInfo Extra) AuthenticationError * St) -> Prop :=
| no_header : hm_get h AUTHORIZATION = None ->
    verdict p now h st (Some (Err (InvalidToken (s! "Missing access token in Authorization header")), st))
| no_bearer : is_Some (hm_get h AUTHORIZATION) -> (forall t, ~ bearer h t) ->
    verdict p now h st (Some (Err (InvalidToken (s! "Invalid Authorization header format, expected 'Bearer TOKEN'")), st))
| provider_panics t : bearer h t -> verify_token _ p t st = None -> verdict p now h st None
| provider_refuses t e st' : bearer h t -> verify_token _ p t st = Some (Err e, st') -> verdict p now h st (Some (Err e, st'))
| without_expiry t info st' : bearer h t -> verify_token _ p t st = Some (Ok info, st') -> expires_at info = None ->
    verdict p now h st (Some (Err (InvalidToken (s! "Token has no expiration time")), st'))
| expired t info st' e : bearer h t -> verify_token _ p t st = Some (Ok info, st') -> expires_at info = Some e -> (e <= now)%N ->
    verdict p now h st (Some (Err (InvalidToken (s! "Token has expired")), st'))
| out_of_scope t info st' e required user : bearer h t -> verify_token _ p t st = Some (Ok info, st') ->
    expires_at info = Some e -> (now < e)%N -> required_scopes _ p = Some required -> scopes info = Some user ->
    ~ required ⊆ user -> verdict p now h st (Some (Err InsufficientScope, st'))
| accepted t info st' e : bearer h t -> verify_token _ p t st = Some (Ok info, st') ->
    expires_at info = Some e -> (now < e)%N ->
    (forall required user, required_scopes _ p = Some required -> scopes info = Some user -> required ⊆ user) ->
    verdict p now h st (Some (Ok info, st')).

Lemma bearer_split {H : Type} `{HeaderMapLaws H} (h : H) v : hm_get h AUTHORIZATION = Some v ->
  match splitn2 (trim (from_option id [] (to_str h v))) with
  | [scheme; rest] => if eq_ignore_ascii_case scheme (s! "bearer") then bearer h (trim rest) /\ forall t, bearer h t -> t = trim rest
                      else forall t, ~ bearer h t
  | _ => forall t, ~ bearer h t
  end.
Proof.
  intros Hv. assert (B : forall t, bearer h t -> exists scheme rest,
    splitn2 (trim (from_option id [] (to_str h v))) = [scheme; rest] /\ eq_ignore_ascii_case scheme (s! "bearer") = true /\ t = trim rest).
  { intros t (v' & text & scheme & rest & Hv' & Ht & E & Hn & Hb & ->). simplify_eq. exists scheme, rest. split; [|done].
    rewrite Ht. cbn [from_option id]. unfold splitn2. by rewrite E, split_once_char_app. }
  destruct (splitn2 _) as [|scheme [|rest [|]]] eqn:Es; try (intros t Ht; by destruct (B t Ht) as (? & ? & ? & _)).
  destruct (eq_ignore_ascii_case scheme (s! "bearer")) eqn:Eb; [|intros t Ht; destruct (B t Ht) as (? & ? & ? & ? & _); congruence].
  split; [|intros t Ht; destruct (B t Ht) as (? & ? & E & _ & ->); congruence]. unfold splitn2 in Es.
  destruct (split_once_char _ _) as [[a b]|] eqn:E; [|done]. injection Es as -> ->. apply split_once_char_spec in E as [E Hn].
  destruct (to_str h v) as [text|] eqn:Et; [|by destruct scheme]. by exists v, text, scheme, rest.
Qed.

Lemma validate_verdict {H Extra St : Type} `{HeaderMapLaws H} (p : AuthProvider (Extra := Extra) St) now (h : H) st :
  verdict p now h st (validate p now h st).
Proof.
  unfold validate. destruct (hm_get h AUTHORIZATION) as [v|] eqn:Ev; [|by apply no_header].
  pose proof (bearer_split h v Ev) as B. destruct (splitn2 _) as [|scheme [|rest [|]]]; try by apply no_bearer.
  destruct (eq_ignore_ascii_case scheme (s! "bearer")); cbn [negb]; [|by apply no_bearer]. destruct B as [B _].
  destruct (verify_token _ p (trim rest) st) as [[[info|e] st']|] eqn:Et; cbn [mbind option_bind];
    [|by eapply provider_refuses|by eapply provider_panics].
  destruct (expires_at info) as [e|] eqn:Ee; [|by eapply without_expiry].
  destruct (N.leb_spec e now); [by eapply expired|].
  destruct (required_scopes _ p) as [required|] eqn:Er; [|by eapply accepted; [..|congruence]].
  destruct (scopes info) as [user|] eqn:Es; [|by eapply accepted; [..|congruence]].
  destruct (forallb _ required) eqn:Ef.
  - eapply accepted; try done. intros r u. rewrite Er, Es. intros [= <-] [= <-] x Hx. rewrite forallb_forall in Ef.
    apply (bool_decide_eq_true _), Ef. by apply list_elem_of_In.
  - eapply out_of_scope; try done. intros Hs. apply not_true_iff_false in Ef. apply Ef, forallb_forall.
    intros x Hx. apply bool_decide_eq_true, Hs. by apply list_elem_of_In.
Qed.
Lemma verdict_validate {H Extra St : Type} `{HeaderMapLaws H} (p : AuthProvider (Extra := Extra) St) now (h : H) st o :
  verdict p now h st o -> o = validate p now h st.
Proof.
  assert (N : forall t, bearer h t -> hm_get h AUTHORIZATION <> None) by (intros t (v & ? & ? & ? & -> & _); done).
  intros Ho. pose proof (validate_verdict p now h st) as Hv. revert Hv. generalize (validate p now h st). intros o' Ho'.
  assert (U : forall t t', bearer h t -> bearer h t' -> t = t').
  { intros t t' Ht Ht'. destruct (hm_get h AUTHORIZATION) as [v|] eqn:E; [|by destruct (N _ Ht)].
    pose proof (bearer_split h v E) as B. destruct (splitn2 _) as [|? [|? [|]]]; try (by destruct (B t)).
    destruct (eq_ignore_ascii_case _ _); [|by destruct (B t)]. destruct B as [_ B]. by rewrite (B t), (B t'). }
  destruct Ho, Ho'; try done;
    repeat match goal with
    | Ha : bearer h ?a, Hb : bearer h ?b |- _ => assert_fails (constr_eq a b); pose proof (U a b Ha Hb); subst
    | Ha : bearer h ?a, Hb : hm_get h AUTHORIZATION = None |- _ => by destruct (N a Ha)
    | Ha : bearer h ?a, Hb : forall t, ~ bearer h t |- _ => by destruct (Hb a)
    | Ha : is_Some (hm_get _ _), Hb : hm_get _ _ = None |- _ => rewrite Hb in Ha; by destruct Ha
    end; simplify_eq; try done; try lia; exfalso; eauto.
Qed.

(** The answer to a request that is refused. *)
Definition challenge {Extra St : Type} (error_code error_text : AuthenticationError -> str)
  (p : AuthProvider (Extra := Extra) St) (e : AuthenticationError) : str :=
  (s! "Bearer error=") ++ quoted (error_code e) ++ (s! ", error_description=") ++ quoted (error_text e) ++
  from_option (fun u => (s! ", resource_metadata=") ++ quoted u) [] (protected_resource_metadata_url _ p).
Definition refused_with {H Extra St : Type} `{HeaderMap H} (error_code error_text : AuthenticationError -> str)
  (p : AuthProvider (Extra := Extra) St) (e : AuthenticationError) (r : Response H) : Prop :=
  let challenged code := Forall (fun c => visible c = true) (challenge error_code error_text p e) ->
    status r = code /\ resp_body r = BAuthError e /\
    hm_get (resp_headers r) WWW_AUTHENTICATE = Some (challenge error_code error_text p e) in
  let plain code := status r = code /\ resp_body r = BAuthError e /\ hm_get (resp_headers r) WWW_AUTHENTICATE = None in
  match e with
  | InactiveToken | InvalidToken _ => challenged 401%N
  | InsufficientScope => challenged 403%N
  | TokenVerificationFailed _ code =>
      if bool_decide (code = Some 403%N) then challenged 403%N
      else match code with Some n => (100 <= n < 1000)%N -> plain n | None => plain 400%N end
  | _ => plain 400%N
  end.
Lemma refused_with_spec {H Extra St : Type} `{HeaderMapLaws H} (error_code error_text : AuthenticationError -> str)
  (p : AuthProvider (Extra := Extra) St) (e : AuthenticationError) :
  refused_with error_code error_text p e (auth_error_response (H := H) error_code error_text p e).
Proof.
  set (r := auth_error_response (H := H) error_code error_text p e).
  assert (C : forall code, auth_error_status e = (code, true) -> Forall (fun c => visible c = true) (challenge error_code error_text p e) ->
    status r = code /\ resp_body r = BAuthError e /\ hm_get (resp_headers r) WWW_AUTHENTICATE = Some (challenge error_code error_text p e)).
  { intros code Hs Hv. assert (E : create_www_auth_value error_code error_text p e = challenge error_code error_text p e).
    { unfold create_www_auth_value, challenge. by destruct (protected_resource_metadata_url _ p). }
    subst r. unfold auth_error_response. rewrite Hs, E, from_str_spec by done. simpl. split; [done|]. split; [done|].
    by rewrite get_append, decide_True, get_append, decide_False, get_new. }
  assert (P : forall code, auth_error_status e = (code, false) ->
    status r = code /\ resp_body r = BAuthError e /\ hm_get (resp_headers r) WWW_AUTHENTICATE = None).
  { intros code Hs. subst r. unfold auth_error_response. rewrite Hs. simpl. split; [done|]. split; [done|].
    by rewrite get_append, decide_False, get_new. }
  destruct e as [| | | | | | | |d code| | |]; unfold refused_with; try (by apply C); try (by apply P).
  cbn [auth_error_status] in C, P.
  case_bool_decide; [by apply C|]. destruct code as [n|]; [|by apply P]. intros Hn. apply P. cbn [mbind option_bind].
  unfold status_from_u16. by rewrite (proj2 (N.leb_le _ _)), (proj2 (N.ltb_lt _ _)) by lia.
Qed.

End AuthSpec.
Import AuthSpec.


(** A token without scopes passes whatever scopes are required. *)
Lemma unscoped_token_passes {H Extra St : Type} `{HeaderMapLaws H} (p : AuthProvider (Extra := Extra) St) now (h : H)
  v rest st info st' e :
  hm_get h AUTHORIZATION = Some v -> splitn2 (trim (from_option id [] (to_str h v))) = [s! "Bearer"; rest] ->
  verify_token _ p (trim rest) st = Some (Ok info, st') -> expires_at info = Some e -> (now < e)%N ->
  scopes info = None -> validate p now h st = Some (Ok info, st').
Proof.
  intros Hv Hs Ht He Hn Hsc. unfold validate. rewrite Hv, Hs. simpl. rewrite Ht. simpl.
  rewrite He, (proj2 (N.leb_gt _ _)), Hsc by done. by destruct (required_scopes _ p).
Qed.

