(* ===== verification/ClientStream.v ===== *)
(** * The client's streams

    Models crates/rust-mcp-transport/src/: utils/streamable_http_stream.rs
    ([StreamableHttpStream]), utils/sse_stream.rs ([SseStream]), the HTTP
    helpers of utils/http_utils.rs, and [new], [validate_headers] and
    [validate_message_endpoint] of client_sse.rs.

    The network is the list of the replies it will give to the requests to
    come, each with the items of its body; cancellation and the closing of the
    channel to the reader are predicates on the state, and a cancellation that
    wins the [select!] over the next chunk is an item.  Requests and sleeps are
    logged. *)
From S2P Require Import Prelude RustStr Sse SseBody Dispatcher Http.

(** ** HTTP helpers *)

(** [extract_origin] *)
Definition extract_origin (url : str) : option str :=
  let url := match split_once_char "#"%char url with Some (u, _) => u | None => url end in
  match split_once_str (s! "://") url with
  | Some (scheme, rest) =>
      let host_port := match split_once_char "/"%char rest with Some (h, _) => h | None => rest end in
      Some (scheme ++ (s! "://") ++ host_port)
  | None => None
  end.

(** A reply: [http::Response] or the failure of [send]; the items of a body
    end with the stream. *)
Inductive item := Chunk (b : bytes) | Broken (e : str) | Cancel.
Inductive reply (H : Type) := Reply (status : N) (headers : H) (body : list item) | Unreachable (e : str).
Arguments Reply {H} status headers body.
Arguments Unreachable {H} e.

(** What the client did: requests with the session and event ids they carry,
    and sleeps in milliseconds. *)
Inductive action :=
| Post (session : option bytes) (payload : str)
| Get (session last_event_id : option bytes)
| Delete (session : option bytes)
| GetSse
| Sleep (ms : N).

(** An error, an [unwrap] that panics, or the fuel of a definition used up. *)
Inductive failure := Error (e : Dispatcher.TransportError) | Panic | OutOfFuel.

Record World (H : Type) := mkWorld {
  session_id : option str; (* Arc<RwLock<Option<String>>> *)
  delivered : list bytes; (* sent to the readable channel *)
  replies : list (reply H);
  actions : list action;
}.
Arguments mkWorld {H} session_id delivered replies actions.
Arguments session_id {H} w : rename.
Arguments delivered {H} w : rename.
Arguments replies {H} w : rename.
Arguments actions {H} w : rename.

Definition CHANNEL_CLOSED : Dispatcher.TransportError := SendFailure (s! "Failed to send message: stream closed").

Section Http.
Context {H : Type} `{HeaderMap H}.
Abbreviation W := (World H).
Abbreviation M := (Act W failure).
Implicit Types (w : W).

Definition set_session (s : option str) w : W := mkWorld s (delivered w) (replies w) (actions w).
Definition log (a : action) w : W := mkWorld (session_id w) (delivered w) (replies w) (actions w ++ [a]).
Definition fail {A} (e : Dispatcher.TransportError) : M A := act_fail (Error e).
Definition sleep (ms : N) : M unit := act_modify (log (Sleep ms)).

(** Sending a request; a network without replies is unreachable. *)
Definition send_request (a : action) : M (N * H * list item) :=
  fun w =>
    let w := log a w in
    match replies w with
    | [] => (Err (Error (HttpConnection [])), w)
    | r :: rs =>
        let w := mkWorld (session_id w) (delivered w) rs (actions w) in
        match r with
        | Unreachable e => (Err (Error (HttpConnection e)), w)
        | Reply st h body => (Ok (st, h, body), w)
        end
    end.
(** [if !response.status().is_success() { return Err(Http(status)) }] *)
Definition successful (r : N * H * list item) : M (N * H * list item) :=
  if ((200 <=? r.1.1) && (r.1.1 <? 300))%N then act_ret r else fail (Http r.1.1).

(** [HeaderValue::from_str(session_id).unwrap()] *)
Definition session_header (session : option str) : M (option bytes) :=
  match session with
  | None => act_ret None
  | Some id => match from_str (hm_new (H := H)) id with Some v => act_ret (Some v) | None => act_fail Panic end
  end.
Definition http_post (payload : str) (session : option str) : M (N * H * list item) :=
  do v <- session_header session; do r <- send_request (Post v payload); successful r.
Definition http_get (session : option str) (last_event_id : option bytes) : M (N * H * list item) :=
  do v <- session_header session; do r <- send_request (Get v last_event_id); successful r.
Definition http_delete (session : option str) : M (N * H * list item) :=
  do v <- session_header session; do r <- send_request (Delete v); successful r.

(** [StreamableTransportOptions::terminate_session]: the answer, and whether
    there was one, is only logged. *)
Definition terminate_session (session : option str) : M unit :=
  fun w => match http_delete session w with (Err Panic, w) => (Err Panic, w) | (_, w) => (Ok tt, w) end.

(** [validate_response_type] *)
Inductive ResponseType := EventStream | Json.
Definition validate_response_type (h : H) : result ResponseType Dispatcher.TransportError :=
  match hm_get h CONTENT_TYPE with
  | None => Err (UnexpectedContentType (s! "<empty>"))
  | Some v =>
      match to_str h v with
      | None => Err (UnexpectedContentType (s! "<invalid UTF-8>"))
      | Some content_type =>
          let normalized := to_ascii_lowercase content_type in
          if bool_decide (normalized = s! "text/event-stream") then Ok EventStream
          else if bool_decide (normalized = s! "application/json") then Ok Json
          else Err (UnexpectedContentType normalized)
      end
  end.

(** [response.bytes()] *)
Fixpoint body_of (items : list item) : result bytes Dispatcher.TransportError :=
  match items with
  | [] => Ok []
  | Chunk b :: r => let? rest := body_of r in Ok (b ++ rest)
  | Broken e :: _ => Err (HttpConnection e)
  | Cancel :: r => body_of r
  end.
End Http.

(** ** Streamable HTTP *)

Module StreamableHttpStream.
Section Stream.
Context {H : Type} `{HeaderMap H}.
Abbreviation W := (World H).
Abbreviation M := (Act W failure).
Implicit Types (w : W).

(** [max_retries], [retry_delay] in milliseconds, and the two predicates. *)
Context (max_retries : nat) (retry_delay : N) (is_cancelled read_open : W -> bool).

Definition check_cancelled : M unit := fun w => if is_cancelled w then fail Cancelled w else (Ok tt, w).

(** [self.read_tx.send(bytes)] *)
Definition send (e : Dispatcher.TransportError) (b : bytes) : M unit :=
  fun w => if read_open w then (Ok tt, mkWorld (session_id w) (delivered w ++ [b]) (replies w) (actions w))
           else fail e w.

(** The loop of [make_standalone_stream_connection], with the retries left. *)
Definition FAILED_TO_OPEN (s : str) : Dispatcher.TransportError := FailedToOpenSSEStream s.
Fixpoint connect (left : nat) (session : option str) (last_event_id : option bytes) : M (list item) :=
  do _ <- check_cancelled;
  fun w =>
    let retry (e : Dispatcher.TransportError) : M (list item) :=
      match left with
      | O => fail e
      | S l => do _ <- sleep retry_delay; connect l session last_event_id
      end in
    match http_get session last_event_id w with
    | (Ok (_, h, body), w) =>
        match validate_response_type h with
        | Ok EventStream => (Ok body, w)
        | _ => fail (FAILED_TO_OPEN (s! "SSE stream response returned an unexpected Content-Type.")) w
        end
    | (Err (Error e), w) =>
        match e with
        | HttpConnection _ => retry e w
        | Dispatcher.Http code =>
            if bool_decide (code = 404%N) || bool_decide (code = 405%N)
            then fail (FAILED_TO_OPEN ((s! "Not supported (code: ") ++ show_N code ++ (s! ")"))) w (* and the reason phrase *)
            else retry e w
        | e => fail e w
        end
    | (Err f, w) => (Err f, w)
    end.
Definition make_standalone_stream_connection (last_event_id : option str) : M (list item) :=
  do session <- act_get session_id;
  connect max_retries session (last_event_id ≫= from_str (hm_new (H := H))).

(** *** One message: [run] *)

Record post_state := mkPost {
  parser : SseParser.t;
  last_event_id : option str;
  has_priming_event : bool;
  received_response : bool;
  sse_retry_delay : option N;
}.
Definition post_event (st : post_state) (e : SseEvent.t) : M post_state :=
  let retry := match SseEvent.retry e with Some r => Some r | None => sse_retry_delay st end in
  let st := match SseEvent.id e with
            | Some i => mkPost (parser st) (Some i) true (received_response st) retry
            | None => mkPost (parser st) (last_event_id st) (has_priming_event st) (received_response st) retry
            end in
  match SseEvent.data e with
  | Some b =>
      do _ <- send CHANNEL_CLOSED b;
      act_ret (mkPost (parser st) (last_event_id st) (has_priming_event st) true (sse_retry_delay st))
  | None => act_ret st
  end.
Fixpoint post_events (es : list SseEvent.t) (st : post_state) : M post_state :=
  match es with [] => act_ret st | e :: r => do st <- post_event st e; post_events r st end.

(** The chunks of one response: [None] when the call returns, else the state
    at the end of the stream. *)
Fixpoint post_items (items : list item) (st : post_state) : M (option post_state) :=
  match items with
  | [] => act_ret (Some st)
  | Cancel :: _ => fail Cancelled
  | Broken e :: _ => fail (HttpConnection e)
  | Chunk b :: r =>
      let '(p, events) := SseParser.process_new_chunk (parser st) b in
      do st <- post_events events (mkPost p (last_event_id st) (has_priming_event st) (received_response st) (sse_retry_delay st));
      if negb (bool_decide (events = [])) && received_response st then act_ret None else post_items r st
  end.

(** Every reconnection takes a reply, so one more than the replies is enough fuel. *)
Fixpoint post_stream (fuel : nat) (items : list item) (st : post_state) : M unit :=
  match fuel with
  | O => act_fail OutOfFuel
  | S fuel =>
      do o <- post_items items st;
      match o with
      | None => act_ret tt
      | Some st =>
          if has_priming_event st && negb (received_response st) then
            do _ <- sleep (from_option (fun d => d) retry_delay (sse_retry_delay st));
            do items <- make_standalone_stream_connection (last_event_id st);
            post_stream fuel items st
          else fail (Internal (s! "Stream has ended."))
      end
  end.

Definition run (payload : str) : M unit :=
  do session <- act_get session_id;
  do _ <- check_cancelled;
  do r <- http_post payload session;
  let '(st, h, body) := r in
  do _ <- act_modify (set_session (get_str h (s! "mcp-session-id")));
  if negb (bool_decide (st = 200%N)) then act_ret tt
  else
    match validate_response_type h with
    | Err e => fail e
    | Ok Json =>
        match body_of body with
        | Err e => fail e
        | Ok b => do _ <- send (SendFailure (s! "Failed to send message: channel closed or full")) b;
                  send (SendFailure (s! "Failed to send newline: channel closed or full")) [LF]
        end
    | Ok EventStream =>
        fun w => post_stream (S (length (replies w))) body (mkPost SseParser.new None false false None) w
    end.

(** *** The standalone stream: [run_standalone] *)

Record stand_state := mkStand {
  s_parser : SseParser.t;
  s_last_event_id : option str;
  s_retry_delay : option N;
  retry_count : nat;
}.
Definition stand_event (st : stand_state) (e : SseEvent.t) : M stand_state :=
  let retry := match SseEvent.retry e with Some r => Some r | None => s_retry_delay st end in
  match SseEvent.data e with
  | Some b =>
      let last := match SseEvent.id e with Some i => Some i | None => s_last_event_id st end in
      do _ <- send CHANNEL_CLOSED b;
      act_ret (mkStand (s_parser st) last retry (retry_count st))
  | None => act_ret (mkStand (s_parser st) (s_last_event_id st) retry (retry_count st))
  end.
Fixpoint stand_events (es : list SseEvent.t) (st : stand_state) : M stand_state :=
  match es with [] => act_ret st | e :: r => do st <- stand_event st e; stand_events r st end.

(** Before a reconnection: give up, or wait. *)
Definition stand_retry (e : Dispatcher.TransportError) (st : stand_state) : M stand_state :=
  if (max_retries <=? retry_count st)%nat then fail e
  else do _ <- sleep (from_option (fun d => d) retry_delay (s_retry_delay st));
       act_ret (mkStand (s_parser st) (s_last_event_id st) (s_retry_delay st) (S (retry_count st))).
Fixpoint stand_items (items : list item) (st : stand_state) : M stand_state :=
  match items with
  | [] => stand_retry (Internal (s! "Stream has ended; max reconnect retries reached")) st
  | Cancel :: _ => fail Cancelled
  | Broken e :: _ => stand_retry (HttpConnection e) st
  | Chunk b :: r =>
      let '(p, events) := SseParser.process_new_chunk (s_parser st) b in
      do st <- stand_events events (mkStand p (s_last_event_id st) (s_retry_delay st) (retry_count st));
      stand_items r (mkStand (s_parser st) (s_last_event_id st) (s_retry_delay st) 0)
  end.
Fixpoint standalone (fuel : nat) (response : option (list item)) (st : stand_state) : M unit :=
  match fuel with
  | O => act_fail OutOfFuel
  | S fuel =>
      do _ <- check_cancelled;
      do items <- (match response with
                   | Some items => act_ret items
                   | None => make_standalone_stream_connection (s_last_event_id st)
                   end);
      do st <- stand_items items st;
      standalone fuel None st
  end.
(** The loop only returns with an error; every round but the first takes a reply. *)
Definition run_standalone (response : list item) : M unit :=
  fun w => standalone (S (S (length (replies w)))) (Some response) (mkStand SseParser.new None None 0) w.
End Stream.
End StreamableHttpStream.

(** ** The SSE connection *)

Module SseStream.
Section Stream.
Context {H : Type} (max_retries : nat) (retry_delay : N).

(** The oneshot of the messages endpoint is [endpoint], [None] until sent. *)
Record t := mk {
  endpoint : option (option str);
  read_tx : list bytes;
  net : list (reply H);
  log : list action;
}.
Context (is_cancelled read_open : t -> bool).
Implicit Types (w : t).

Definition set_endpoint (e : option str) w : t :=
  match endpoint w with None => mk (Some e) (read_tx w) (net w) (log w) | Some _ => w end.
Definition push (b : bytes) w : t := mk (endpoint w) (read_tx w ++ [b]) (net w) (log w).
Definition act (a : action) w : t := mk (endpoint w) (read_tx w) (net w) (log w ++ [a]).

Definition ENDPOINT_SSE_EVENT : str := s! "endpoint".

(** [received] is [endpoint_event_received], set only when the endpoint was
    sent; the result says whether the task goes on. *)
Fixpoint process_lines (batch : list bytes) (current_event : option str) (received : bool) w : bool * bool * t :=
  match batch with
  | [] => (true, received, w)
  | line :: r =>
      let line_str := from_utf8_lossy line in
      let deliver (content : str) :=
        if bool_decide (content = []) then process_lines r current_event received w
        else if read_open w then process_lines r current_event received (push content w)
        else (false, received, if received then w else set_endpoint None w) in
      match strip_prefix (s! "event: ") line_str with
      | Some event_name => process_lines r (Some (trim event_name)) received w
      | None =>
          match strip_prefix (s! "data: ") line_str with
          | Some data =>
              let payload := trim_start data in
              if negb received && bool_decide (current_event = Some ENDPOINT_SSE_EVENT) && negb (is_some (endpoint w))
              then process_lines r current_event true (set_endpoint (Some (trim payload)) w)
              else deliver payload
          | None =>
              match strip_prefix (s! ":") line_str with
              | Some comment => deliver (trim_start comment)
              | None => process_lines r current_event received w
              end
          end
      end
  end.

(** What lasts between connections. *)
Record loop := mkLoop { buffer : bytes; received : bool; retries : nat }.

Definition give_up_or_wait (always : bool) (st : loop) w : option loop * t :=
  if (max_retries <=? retries st)%nat
  then (None, if always || negb (received st) then set_endpoint None w else w)
  else (Some (mkLoop (buffer st) (received st) (S (retries st))), act (Sleep retry_delay) w).

(** One connection: [None] when the task is over. *)
Fixpoint read_items (items : list item) (st : loop) w : option loop * t :=
  match items with
  | [] => give_up_or_wait true st w
  | Cancel :: _ => (None, w)
  | Broken _ :: _ => give_up_or_wait false st w
  | Chunk b :: r =>
      let buf := buffer st ++ b in
      let '(lines, rest) := SseParser.drain_lines (length buf) buf in
      let batch := List.filter (fun l => (1 <? length l)%nat) lines in
      let '(go, rc, w) := process_lines batch None (received st) w in
      if (go : bool) then read_items r (mkLoop rest rc 0) w else (None, w)
  end.

(** Every round takes a reply, or one of the retries once there is none. *)
Fixpoint run_loop (fuel : nat) (st : loop) w : option t :=
  match fuel with
  | O => None
  | S fuel =>
      if is_cancelled w then Some w
      else
        let w := act GetSse w in
        let '(o, w) := match net w with
                       | [] => give_up_or_wait true st w
                       | r :: rs =>
                           let w := mk (endpoint w) (read_tx w) rs (log w) in
                           match r with
                           | Unreachable _ => give_up_or_wait true st w
                           | Reply _ _ body => read_items body st w
                           end
                       end in
        match o with Some st => run_loop fuel st w | None => Some w end
  end.
Definition run w : option t := run_loop (S (length (net w)) + max_retries + 1) (mkLoop [] false 0) w.
End Stream.
Arguments t : clear implicits.
End SseStream.

(** ** The client's SSE transport: its configuration *)

Module ClientSseTransport.
Definition DEFAULT_MAX_RETRY : nat := 5.
Definition DEFAULT_RETRY_TIME_SECONDS : N := 1.

Section Config.
Context {H : Type} `{HeaderMap H}.
(** [parse::<HeaderName>], and the texts of its error and of [HeaderValue]'s. *)
Context (parse_name : str -> result str str) (invalid_value : str).

Definition validate_headers (headers : list (str * str)) : result H Dispatcher.TransportError :=
  foldl (fun acc kv =>
    let? header_map := acc in
    match parse_name kv.1 with
    | Err e => Err (Configuration ((s! "Invalid header name: ") ++ e))
    | Ok name =>
        match from_str header_map kv.2 with
        | None => Err (Configuration ((s! "Invalid header value: ") ++ invalid_value))
        | Some v => Ok (hm_insert header_map name v)
        end
    end) (Ok hm_new) headers.

(** The part of [struct ClientSseTransport] that [new] computes. *)
Record t := mk {
  sse_url : str;
  base_url : str;
  max_retries : nat;
  retry_delay : N;
  custom_headers : option H;
}.
Definition new (server_url : str) (max_retries : option nat) (retry_delay : option N)
  (custom_headers : option (list (str * str))) : result t Dispatcher.TransportError :=
  match extract_origin server_url with
  | None => Err (Configuration ((s! "Failed to extract origin from server URL: ") ++ server_url))
  | Some base_url =>
      let? headers := match custom_headers with
                      | Some h => let? m := validate_headers h in Ok (Some m)
                      | None => Ok None
                      end in
      Ok (mk server_url base_url (from_option (fun n => n) DEFAULT_MAX_RETRY max_retries)
             (from_option (fun d => d) (DEFAULT_RETRY_TIME_SECONDS * 1000)%N retry_delay) headers)
  end.

Definition validate_message_endpoint (x : t) (endpoint : str) : result str Dispatcher.TransportError :=
  if starts_with (s! "/") endpoint then Ok (base_url x ++ endpoint)
  else match extract_origin endpoint with
       | Some endpoint_origin =>
           if negb (bool_decide (endpoint_origin = base_url x))
           then Err (Configuration ((s! "Endpoint origin does not match connection origin. expected: ") ++ base_url x ++
                                    (s! " , received: ") ++ endpoint_origin))
           else Ok endpoint
       | None => Ok endpoint
       end.
End Config.
Arguments t : clear implicits.
End ClientSseTransport.

(** ** Facts *)

Module ClientStreamFacts.
Import StreamableHttpStream.

Lemma feed_app p a b :
  SseParser.feed p (a ++ b) =
  let '(p1, e1) := SseParser.feed p a in let '(p2, e2) := SseParser.feed p1 b in (p2, e1 ++ e2).
Proof.
  revert p; induction a as [|c a IH]; intros p; cbn [app SseParser.feed]; [by destruct (SseParser.feed p b)|].
  destruct (SseParser.process_new_chunk p c) as [p1 e1]. rewrite IH. destruct (SseParser.feed p1 a) as [p2 e2].
  destruct (SseParser.feed p2 b) as [p3 e3]. by rewrite app_assoc.
Qed.

Section Streamable.
Context {H : Type} `{HeaderMapLaws H}.
Context (max_retries : nat) (retry_delay : N) (is_cancelled read_open : World H -> bool).
Context (live : forall w, is_cancelled w = false) (open : forall w, read_open w = true).
Implicit Types (w : World H) (es : list SseEvent.t).

(** The data of events, the id of the last event with data, the last [retry]. *)
Definition datas es : list bytes := omap SseEvent.data es.
Definition last_from (o : option str) es : option str :=
  foldl (fun o e => match SseEvent.data e, SseEvent.id e with Some _, Some i => Some i | _, _ => o end) o es.
Definition retry_from (o : option N) es : option N :=
  foldl (fun o e => match SseEvent.retry e with Some r => Some r | None => o end) o es.
Definition deliver (bs : list bytes) w : World H := mkWorld (session_id w) (delivered w ++ bs) (replies w) (actions w).

Lemma deliver_app a b w : deliver b (deliver a w) = deliver (a ++ b) w.
Proof. unfold deliver. cbn. by rewrite app_assoc. Qed.
Lemma deliver_nil w : deliver [] w = w.
Proof. destruct w. unfold deliver. cbn. by rewrite app_nil_r. Qed.

Lemma send_open e b w : send read_open e b w = (Ok tt, deliver [b] w).
Proof. unfold send. by rewrite open. Qed.

Lemma stand_events_spec es st w :
  stand_events read_open es st w =
  (Ok (mkStand (s_parser st) (last_from (s_last_event_id st) es) (retry_from (s_retry_delay st) es) (retry_count st)),
   deliver (datas es) w).
Proof.
  revert st w; induction es as [|e es IH]; intros st w; cbn [stand_events].
  { unfold act_ret. cbn. rewrite deliver_nil. by destruct st. }
  unfold act_bind at 1, stand_event, last_from, retry_from, datas. cbn [foldl omap list_omap].
  destruct (SseEvent.data e) as [b|]; [unfold act_bind at 1; rewrite send_open|]; cbn [act_ret];
    unfold act_ret; rewrite IH; cbn [s_parser s_last_event_id s_retry_delay retry_count].
  - rewrite deliver_app. by destruct (SseEvent.id e), (SseEvent.retry e).
  - by destruct (SseEvent.retry e).
Qed.

Lemma stand_items_spec cs st w :
  stand_items max_retries retry_delay read_open (Chunk <$> cs) st w =
  let '(p, es) := SseParser.feed (s_parser st) cs in
  stand_retry max_retries retry_delay (Internal (s! "Stream has ended; max reconnect retries reached"))
    (mkStand p (last_from (s_last_event_id st) es) (retry_from (s_retry_delay st) es)
       (match cs with [] => retry_count st | _ => 0 end)) (deliver (datas es) w).
Proof.
  revert st w; induction cs as [|c cs IH]; intros st w.
  { cbn. rewrite deliver_nil. by destruct st. }
  cbn [fmap list_fmap stand_items SseParser.feed].
  destruct (SseParser.process_new_chunk (s_parser st) c) as [p es]. unfold act_bind at 1. rewrite stand_events_spec, IH.
  cbn [s_parser s_last_event_id s_retry_delay retry_count].
  destruct (SseParser.feed p cs) as [p' es']. rewrite deliver_app. unfold last_from, retry_from, datas.
  rewrite !foldl_app, omap_app. by destruct cs.
Qed.

(** The event ids of the stream requests made so far. *)
Definition resumes w : list (option bytes) :=
  omap (fun a => match a with Get _ l => Some l | _ => None end) (actions w).

(** A reply that opens an event stream. *)
Definition opens (r : reply H) (items : list item) : Prop :=
  exists st h, r = Reply st h items /\ (200 <= st < 300)%N /\ validate_response_type h = Ok EventStream.
Definition session_ok w : Prop := forall id, session_id w = Some id -> Forall (fun c => visible c = true) id.

Lemma session_header_ok w w' : session_ok w -> session_header (H := H) (session_id w) w' = (Ok (session_id w), w').
Proof.
  unfold session_ok, session_header. destruct (session_id w) as [id|]; [|done]. intros Hv.
  by rewrite from_str_spec by auto.
Qed.

Definition took (a : action) w rs : World H := mkWorld (session_id w) (delivered w) rs (actions w ++ [a]).

Lemma http_get_opens w last r rs items : session_ok w -> replies w = r :: rs -> opens r items ->
  exists st h, validate_response_type h = Ok EventStream /\
    http_get (session_id w) last w = (Ok (st, h, items), took (Get (session_id w) last) w rs).
Proof.
  intros Hs Hr (st & h & -> & Hst & Hv). exists st, h. split; [done|].
  unfold http_get, act_bind. rewrite session_header_ok by done. unfold send_request, log. cbn [replies session_id delivered actions].
  rewrite Hr. unfold successful. cbn [fst]. by rewrite (proj2 (N.leb_le _ _)), (proj2 (N.ltb_lt _ _)) by lia.
Qed.
Lemma http_get_none w last : session_ok w -> replies w = [] ->
  http_get (session_id w) last w = (Err (Error (HttpConnection [])), took (Get (session_id w) last) w []).
Proof.
  intros Hs Hr. unfold http_get, act_bind. rewrite session_header_ok by done.
  unfold send_request, log, took. cbn [replies]. by rewrite Hr.
Qed.

Lemma connect_opens left w last r rs items : session_ok w -> replies w = r :: rs -> opens r items ->
  connect retry_delay is_cancelled left (session_id w) last w = (Ok items, took (Get (session_id w) last) w rs).
Proof.
  intros Hs Hr Ho. destruct (http_get_opens w last r rs items Hs Hr Ho) as (st & h & Hv & E).
  destruct left; cbn [connect]; unfold act_bind at 1, check_cancelled; rewrite live, E, Hv; done.
Qed.
Lemma connect_none left w last : session_ok w -> replies w = [] ->
  exists w', connect retry_delay is_cancelled left (session_id w) last w = (Err (Error (HttpConnection [])), w') /\
    session_id w' = session_id w /\ delivered w' = delivered w /\ replies w' = [] /\
    resumes w' = resumes w ++ replicate (S left) last.
Proof.
  revert w; induction left as [|l IH]; intros w Hs Hr; cbn [connect]; unfold act_bind at 1, check_cancelled;
    rewrite live, http_get_none by done.
  - eexists. split; [done|]. unfold resumes. cbn. by rewrite omap_app.
  - unfold act_bind at 1, sleep, act_modify.
    set (w1 := log (Sleep retry_delay) (took (Get (session_id w) last) w [])).
    destruct (IH w1) as (w' & E & Es & Ed & Er & Eq); [done..|].
    exists w'. split; [exact E|]. split_and!; try done.
    rewrite Eq. unfold resumes, w1. cbn. rewrite !omap_app. cbn. by rewrite <-!app_assoc.
Qed.

Definition event_header (id : option str) : option bytes := id ≫= from_str (hm_new (H := H)).
Abbreviation reconnect := (make_standalone_stream_connection max_retries retry_delay is_cancelled).
Lemma reconnect_opens w last r rs items : session_ok w -> replies w = r :: rs -> opens r items ->
  reconnect last w = (Ok items, took (Get (session_id w) (event_header last)) w rs).
Proof. intros. unfold make_standalone_stream_connection, act_bind, act_get. by eapply connect_opens. Qed.
Lemma reconnect_none w last : session_ok w -> replies w = [] ->
  exists w', reconnect last w = (Err (Error (HttpConnection [])), w') /\
    session_id w' = session_id w /\ delivered w' = delivered w /\ replies w' = [] /\
    resumes w' = resumes w ++ replicate (S max_retries) (event_header last).
Proof. intros. unfold make_standalone_stream_connection, act_bind, act_get. by apply connect_none. Qed.

(** One connection of the standalone stream: what it delivers, then the next. *)
Abbreviation loop := (standalone max_retries retry_delay is_cancelled read_open).
Lemma loop_some fuel cs st w p es : cs <> [] -> 0 < max_retries -> SseParser.feed (s_parser st) cs = (p, es) ->
  exists st1 w1, loop (S fuel) (Some (Chunk <$> cs)) st w = loop fuel None st1 w1 /\
    s_parser st1 = p /\ s_last_event_id st1 = last_from (s_last_event_id st) es /\
    session_id w1 = session_id w /\ replies w1 = replies w /\ delivered w1 = delivered w ++ datas es /\ resumes w1 = resumes w.
Proof.
  intros Hcs Hm Ef. cbn [standalone]. unfold act_bind at 1, check_cancelled at 1. rewrite live.
  unfold act_bind at 1, act_ret at 1. unfold act_bind at 1. rewrite stand_items_spec, Ef.
  destruct cs as [|c cs]; [done|]. unfold stand_retry. cbn [retry_count].
  rewrite (proj2 (Nat.leb_gt max_retries 0)) by lia. unfold act_bind, sleep, act_modify, act_ret. eexists _, _. split; [done|].
  split_and!; try done. unfold resumes. cbn. rewrite omap_app. cbn. by rewrite app_nil_r.
Qed.
Lemma loop_none fuel st w : loop (S fuel) None st w =
  match reconnect (s_last_event_id st) w with
  | (Ok items, w) => loop (S fuel) (Some items) st w
  | (Err e, w) => (Err e, w)
  end.
Proof.
  cbn [standalone]. unfold act_bind at 1, check_cancelled at 1. rewrite live. unfold act_bind at 1.
  destruct (reconnect _ w) as [[items|e] w1]; [|done]. unfold act_bind at 2, check_cancelled. by rewrite live.
Qed.

(** The standalone stream over connections that each open: every connection
    resumes after the last event id seen, and the data of all events arrive. *)
Lemma standalone_spec css rs cs st w k :
  Forall2 (fun r cs => opens r (Chunk <$> cs)) rs css -> Forall (fun cs => cs <> []) (cs :: css) ->
  0 < max_retries -> session_ok w -> replies w = rs ->
  let seen n := SseParser.feed (s_parser st) (cs ++ concat (take n css)) in
  let resume n := event_header (last_from (s_last_event_id st) (seen n).2) in
  exists w', loop (S (S (length css + k))) (Some (Chunk <$> cs)) st w = (Err (Error (HttpConnection [])), w') /\
    session_id w' = session_id w /\ replies w' = [] /\
    delivered w' = delivered w ++ datas (seen (length css)).2 /\
    resumes w' = resumes w ++ (resume <$> seq 0 (S (length css))) ++ replicate max_retries (resume (length css)).
Proof.
  intros Hrs. revert cs st w k. induction Hrs as [|r cs1 rs css Ho Hrs IH]; intros cs st w k Hne Hm Hs Hr seen resume;
    inversion Hne as [|? ? Hcs Hne']; clear Hne; subst;
    destruct (SseParser.feed (s_parser st) cs) as [p es] eqn:Ef;
    assert (S0 : seen 0 = (p, es)) by (unfold seen; cbn; by rewrite app_nil_r).
  - destruct (loop_some (S k) cs st w p es Hcs Hm Ef) as (st1 & w1 & E & Hp & Hl & Es & Er & Ed & Eq).
    cbn [length Nat.add]. rewrite E, loop_none.
    destruct (reconnect_none w1 (s_last_event_id st1)) as (w' & -> & Es' & Ed' & Er' & Eq');
      [unfold session_ok; by rewrite Es|by rewrite Er|].
    exists w'. unfold resume. cbn [length seq fmap list_fmap]. rewrite S0. cbn [snd]. rewrite <-Hl. split_and!; try congruence.
    by rewrite Eq', Eq.
  - destruct (loop_some (S (S (length css + k))) cs st w p es Hcs Hm Ef) as (st1 & w1 & E & Hp & Hl & Es & Er & Ed & Eq).
    cbn [length Nat.add]. rewrite E, loop_none.
    rewrite (reconnect_opens w1 _ r rs (Chunk <$> cs1)) by (done || congruence || by unfold session_ok; rewrite Es).
    set (w2 := took _ w1 rs).
    destruct (IH cs1 st1 w2 k Hne' Hm) as (w' & E' & Es' & Er' & Ed' & Eq'); [unfold session_ok; cbn; by rewrite Es|done|].
    assert (Hseen : forall n, seen (S n) = (fun q => (q.1, es ++ q.2)) (SseParser.feed (s_parser st1) (cs1 ++ concat (take n css)))).
    { intros n. unfold seen. cbn [take concat]. rewrite feed_app, Ef, Hp. by destruct (SseParser.feed p _). }
    exists w'. split; [exact E'|]. split_and!; [rewrite Es'; exact Es|done| |].
    + rewrite Ed'. cbn. rewrite Ed, Hseen, <-app_assoc. unfold datas. cbn. by rewrite omap_app.
    + assert (Hres : forall n, resume (S n) = event_header (last_from (s_last_event_id st1)
                                 (SseParser.feed (s_parser st1) (cs1 ++ concat (take n css))).2)).
      { intros n. unfold resume. rewrite Hseen, Hl. unfold last_from. cbn. by rewrite foldl_app. }
      assert (E2 : resumes w2 = resumes w ++ [resume 0]).
      { rewrite <-Eq. unfold resume, resumes. rewrite S0. cbn [snd]. rewrite <-Hl. cbn. by rewrite omap_app. }
      rewrite Eq', E2, <-app_assoc. cbn [length]. rewrite <-(cons_seq (S (length css)) 0), <-fmap_S_seq, fmap_cons, <-list_fmap_compose.
      rewrite Hres. cbn [app]. do 3 f_equal. apply list_fmap_ext. intros ? n _. symmetry. apply Hres.
Qed.

(** One message.  The id of the last event that has one; whether one has. *)
Definition last_id (o : option str) es : option str :=
  foldl (fun o e => match SseEvent.id e with Some i => Some i | None => o end) o es.
Definition has_id es : bool := existsb (fun e => is_some (SseEvent.id e)) es.

Lemma post_events_spec es st w :
  post_events read_open es st w =
  (Ok (mkPost (parser st) (last_id (last_event_id st) es) (has_priming_event st || has_id es)
         (received_response st || negb (bool_decide (datas es = []))) (retry_from (sse_retry_delay st) es)),
   deliver (datas es) w).
Proof.
  revert st w; induction es as [|e es IH]; intros st w; cbn [post_events].
  { unfold act_ret. cbn. rewrite deliver_nil, !orb_false_r. by destruct st. }
  unfold act_bind at 1, post_event, last_id, retry_from, datas, has_id. cbn [foldl omap list_omap existsb].
  destruct (SseEvent.data e) as [b|], (SseEvent.id e); cbn [is_some];
    try (unfold act_bind at 1; rewrite send_open); unfold act_ret; rewrite IH;
    cbn [parser last_event_id has_priming_event received_response sse_retry_delay orb];
    rewrite ?deliver_app, ?orb_true_r, ?orb_false_r, ?orb_true_l; by destruct (SseEvent.retry e).
Qed.

(** A part of a stream without data, and the chunk that has some. *)
Lemma post_items_quiet cs items st w p es : SseParser.feed (parser st) cs = (p, es) -> datas es = [] ->
  received_response st = false ->
  post_items read_open ((Chunk <$> cs) ++ items) st w =
  post_items read_open items (mkPost p (last_id (last_event_id st) es) (has_priming_event st || has_id es) false
                                (retry_from (sse_retry_delay st) es)) w.
Proof.
  revert st w es; induction cs as [|c cs IH]; intros st w es Ef Hd Hr; cbn [SseParser.feed] in Ef.
  { simplify_eq. destruct st; cbn in *; subst. by rewrite orb_false_r. }
  cbn [fmap list_fmap app post_items]. destruct (SseParser.process_new_chunk (parser st) c) as [p1 e1].
  destruct (SseParser.feed p1 cs) as [p2 e2] eqn:E2. simplify_eq. unfold datas in Hd. rewrite omap_app in Hd.
  apply app_nil in Hd as [Hd1 Hd2]. unfold act_bind at 1. rewrite post_events_spec.
  cbn [parser last_event_id has_priming_event received_response sse_retry_delay].
  change (datas e1 = []) in Hd1. rewrite Hd1, Hr, (bool_decide_eq_true_2 ([] = [] :> list bytes)) by done.
  cbn [negb orb]. rewrite andb_false_r, deliver_nil.
  rewrite (IH _ _ e2) by done. cbn [parser last_event_id has_priming_event received_response sse_retry_delay].
  unfold last_id, retry_from, has_id. by rewrite !foldl_app, existsb_app, orb_assoc.
Qed.
Lemma post_items_answer c items st w : let es := (SseParser.process_new_chunk (parser st) c).2 in datas es <> [] ->
  post_items read_open (Chunk c :: items) st w = (Ok None, deliver (datas es) w).
Proof.
  cbn [post_items]. destruct (SseParser.process_new_chunk (parser st) c) as [p es]. cbn [snd]. intros Hd.
  unfold act_bind at 1. rewrite post_events_spec. cbn [received_response].
  rewrite (bool_decide_eq_false_2 (datas es = [])) by done. rewrite bool_decide_eq_false_2 by (by intros ->).
  by rewrite orb_true_r.
Qed.

(** What a connection that ends without data leads to. *)
Definition round (session : option str) (st : post_state) es : list action :=
  [Sleep (from_option (fun d => d) retry_delay (retry_from (sse_retry_delay st) es));
   Get session (event_header (last_id (last_event_id st) es))].
Abbreviation posting := (post_stream max_retries retry_delay is_cancelled read_open).
Definition advance (st : post_state) p es : post_state :=
  mkPost p (last_id (last_event_id st) es) (has_priming_event st || has_id es) false (retry_from (sse_retry_delay st) es).
Lemma posting_round fuel cs st w r rs items p es : SseParser.feed (parser st) cs = (p, es) -> datas es = [] ->
  received_response st = false -> has_priming_event st || has_id es = true -> session_ok w -> replies w = r :: rs -> opens r items ->
  posting (S fuel) (Chunk <$> cs) st w =
  posting fuel items (advance st p es) (mkWorld (session_id w) (delivered w) rs (actions w ++ round (session_id w) st es)).
Proof.
  intros Ef Hd Hr Hp Hs Hrs Ho. cbn [post_stream]. unfold act_bind at 1. rewrite <-(app_nil_r (Chunk <$> cs)).
  rewrite (post_items_quiet _ _ _ _ p es) by done. cbn [post_items]. unfold act_ret at 1.
  cbn [has_priming_event received_response sse_retry_delay last_event_id]. rewrite Hp. cbn [negb andb].
  unfold act_bind at 1, sleep, act_modify. unfold act_bind at 1. rewrite (reconnect_opens _ _ r rs items) by (exact Hs || done).
  unfold took, advance. cbn [session_id delivered actions log]. by rewrite <-app_assoc, Hp.
Qed.

Lemma posting_spec primes cur next pre c rest rs later st w k :
  cur :: next = primes ++ [pre ++ c :: rest] -> Forall2 (fun r cs => opens r (Chunk <$> cs)) rs next ->
  replies w = rs ++ later -> session_ok w -> received_response st = false ->
  let seen n := (SseParser.feed (parser st) (concat (take (S n) primes))).2 in
  let before := SseParser.feed (parser st) (concat primes ++ pre) in
  let es := (SseParser.process_new_chunk before.1 c).2 in
  datas before.2 = [] -> primes = [] \/ has_priming_event st || has_id (seen 0) = true -> datas es <> [] ->
  posting (S (length next + k)) (Chunk <$> cur) st w =
  (Ok tt, mkWorld (session_id w) (delivered w ++ datas es) later
            (actions w ++ concat ((fun n => round (session_id w) st (seen n)) <$> seq 0 (length primes)))).
Proof.
  intros Hcur Hrs. revert primes cur st w k Hcur.
  induction Hrs as [|r cs1 rs next Ho Hrs IH]; intros primes cur st w k Hcur Hw Hs Hr seen before es Hd Hp Ha.
  - destruct primes as [|q primes]; [|destruct primes; simplify_eq/=]. simplify_eq/=. unfold act_bind at 1.
    rewrite fmap_app. destruct (SseParser.feed (parser st) pre) as [p e] eqn:Ef. subst before es. cbn [fst snd] in *.
    rewrite (post_items_quiet _ _ _ _ p e) by done. cbn [fmap list_fmap]. rewrite post_items_answer by done.
    unfold act_ret, deliver. cbn. by rewrite app_nil_r.
  - destruct primes as [|q primes]; [done|]. injection Hcur as -> Hcur. destruct Hp as [|Hp]; [done|].
    destruct (SseParser.feed (parser st) q) as [p e] eqn:Ef.
    assert (S0 : seen 0 = e) by (unfold seen; cbn [take concat]; by rewrite app_nil_r, Ef).
    assert (Sn : forall n, seen (S n) = e ++ (SseParser.feed p (concat (take (S n) primes))).2).
    { intros n. unfold seen. change (take (S (S n)) (q :: primes)) with (q :: take (S n) primes). cbn [concat].
      rewrite feed_app, Ef. by destruct (SseParser.feed p _). }
    assert (Hb : before = (fun x => (x.1, e ++ x.2)) (SseParser.feed p (concat primes ++ pre))).
    { unfold before. cbn [concat]. rewrite <-app_assoc, feed_app, Ef. by destruct (SseParser.feed p _). }
    subst es. rewrite Hb in Hd, Ha |- *. cbn [fst snd] in *. unfold datas in Hd. rewrite omap_app in Hd.
    apply app_nil in Hd as [Hd1 Hd2]. rewrite S0 in Hp.
    rewrite (posting_round _ q st w r (rs ++ later) (Chunk <$> cs1) p e) by done.
    rewrite (IH primes cs1 (advance st p e) _ k) by (done || (right; cbn [has_priming_event advance]; by rewrite Hp)).
    cbn [session_id delivered actions length seq]. rewrite fmap_cons, <-fmap_S_seq, <-list_fmap_compose. cbn [concat].
    rewrite S0, <-app_assoc. do 5 f_equal. apply list_fmap_ext. intros ? n _.
    trans (round (session_id w) st (seen (S n))); [|done]. rewrite Sn. unfold round, last_id, retry_from. by rewrite !foldl_app.
Qed.

(** The head of [run]: the request, then what the reply says. *)
Abbreviation post := (run max_retries retry_delay is_cancelled read_open).
Definition posted payload h w rs : World H :=
  mkWorld (get_str h (s! "mcp-session-id")) (delivered w) rs (actions w ++ [Post (session_id w) payload]).
Lemma http_post_reply payload w w' st h body rs : session_ok w -> replies w' = Reply st h body :: rs -> (200 <= st < 300)%N ->
  http_post payload (session_id w) w' =
  (Ok (st, h, body), mkWorld (session_id w') (delivered w') rs (actions w' ++ [Post (session_id w) payload])).
Proof.
  intros Hs Hr Hst. unfold http_post, act_bind. rewrite session_header_ok by done. unfold send_request. cbn [replies log].
  rewrite Hr. unfold successful. cbn [fst]. by rewrite (proj2 (N.leb_le _ _)), (proj2 (N.ltb_lt _ _)) by lia.
Qed.
Lemma post_head payload w st h body rs : session_ok w -> replies w = Reply st h body :: rs -> (200 <= st < 300)%N ->
  post payload w =
  (if bool_decide (st = 200%N) then
    match validate_response_type h with
    | Err e => fail e
    | Ok Json => match body_of body with
                 | Err e => fail e
                 | Ok b => fun w => (Ok tt, deliver [b; [LF]] w)
                 end
    | Ok EventStream => posting (S (length rs)) body (mkPost SseParser.new None false false None)
    end else act_ret tt) (posted payload h w rs).
Proof.
  intros Hs Hr Hst. unfold run. unfold act_bind at 1, act_get. unfold act_bind at 1, check_cancelled at 1. rewrite live.
  unfold act_bind at 1. rewrite (http_post_reply _ _ _ st h body rs) by done. unfold act_bind at 1, act_modify.
  change (set_session _ _) with (posted payload h w rs). destruct (bool_decide (st = 200%N)); cbn [negb]; [|done].
  destruct (validate_response_type h) as [[]|e]; [done| |done]. destruct (body_of body) as [b|e]; [|done].
  unfold act_bind at 1. rewrite !send_open. by rewrite deliver_app.
Qed.

(** A reply without a stream: 202 and the like deliver nothing, JSON delivers
    the body and a newline. *)
Lemma post_accepted payload w st h body rs : session_ok w -> replies w = Reply st h body :: rs ->
  (200 <= st < 300)%N -> st <> 200%N -> post payload w = (Ok tt, posted payload h w rs).
Proof. intros. rewrite (post_head _ _ st h body rs) by done. by rewrite bool_decide_eq_false_2. Qed.
Lemma post_json payload w h chunks rs : session_ok w -> replies w = Reply 200%N h (Chunk <$> chunks) :: rs ->
  validate_response_type h = Ok Json ->
  post payload w = (Ok tt, deliver [concat chunks; [LF]] (posted payload h w rs)).
Proof.
  intros Hs Hr Hv. rewrite (post_head _ _ 200%N h (Chunk <$> chunks) rs) by done. rewrite bool_decide_eq_true_2, Hv by done.
  assert (Hb : body_of (Chunk <$> chunks) = Ok (concat chunks)) by (clear; induction chunks as [|c l IH]; [done|]; cbn; by rewrite IH).
  by rewrite Hb.
Qed.

(** The session header a response carries can be sent back. *)
Lemma posted_session_ok payload h w rs : session_ok (posted payload h w rs).
Proof. intros id Hid. by apply HttpFacts.get_str_readable in Hid. Qed.
End Streamable.

(** *** The SSE connection *)

Section SseConnection.
Context {H : Type} (max_retries : nat) (retry_delay : N) (is_cancelled read_open : SseStream.t H -> bool).
Import SseStream.
Implicit Types (w : SseStream.t H).

(** Nothing but the request takes a reply. *)
Lemma set_endpoint_net e w : net (set_endpoint e w) = net w.
Proof. unfold set_endpoint. by destruct (endpoint w). Qed.
Lemma give_up_net always st w : net (give_up_or_wait max_retries retry_delay always st w).2 = net w.
Proof. unfold give_up_or_wait. repeat case_match; simpl; by rewrite ?set_endpoint_net. Qed.
Lemma process_lines_net batch cur rc w : net (process_lines read_open batch cur rc w).2 = net w.
Proof.
  revert cur rc w; induction batch as [|l batch IH]; intros cur rc w; cbn [process_lines]; [done|].
  repeat case_match; cbn [snd]; rewrite ?IH, ?set_endpoint_net; done.
Qed.
Lemma read_items_net items st w : net (read_items max_retries retry_delay read_open items st w).2 = net w.
Proof.
  revert st w; induction items as [|[b|e|] items IH]; intros st w; cbn [read_items]; [apply give_up_net| |apply give_up_net|done].
  destruct (SseParser.drain_lines _ _) as [ls rest].
  pose proof (process_lines_net (List.filter (fun l => (1 <? length l)%nat) ls) None (received st) w) as Hn.
  destruct (process_lines _ _ _ _ _) as [[go rc] w']. destruct go; [rewrite IH|]; exact Hn.
Qed.

(** Every round takes a reply or a retry, so the task ends. *)
Abbreviation running := (run_loop max_retries retry_delay is_cancelled read_open).
Lemma run_loop_total fuel st w :
  length (net w) + max_retries < fuel \/ net w = [] /\ max_retries - retries st < fuel -> running fuel st w <> None.
Proof.
  revert st w; induction fuel as [|fuel IH]; intros st w Hf; [lia|]. cbn [run_loop]. destruct (is_cancelled w); [done|].
  cbn [act net]. destruct (net w) as [|r rs] eqn:En.
  - unfold give_up_or_wait. destruct (max_retries <=? retries st) eqn:E; [done|]. bool_prop. apply IH. right.
    cbn [net act retries]. split; [done|lia].
  - destruct Hf as [Hf|[? _]]; [|done]. cbn [length] in Hf. destruct r as [st' h body|e]; cbn [endpoint read_tx log].
    + pose proof (read_items_net body st (mk (endpoint w) (read_tx w) rs (log w ++ [GetSse]))) as Hn.
      destruct (read_items _ _ _ _ _ _) as [[st1|] w1]; [|done]. cbn [snd] in Hn. apply IH. left. rewrite Hn. cbn [net]. lia.
    + pose proof (give_up_net true st (mk (endpoint w) (read_tx w) rs (log w ++ [GetSse]))) as Hn.
      destruct (give_up_or_wait _ _ _ _ _) as [[st1|] w1]; [|done]. cbn [snd] in Hn. apply IH. left. rewrite Hn. cbn [net]. lia.
Qed.
Lemma sse_run_total w : run max_retries retry_delay is_cancelled read_open w <> None.
Proof. apply run_loop_total. lia. Qed.

Context (live : forall w, is_cancelled w = false) (open : forall w, read_open w = true).

(** What one line adds to the channel once the endpoint is known. *)
Definition line_content (line : bytes) : option bytes :=
  let content := match strip_prefix (s! "event: ") (from_utf8_lossy line) with
                 | Some _ => []
                 | None =>
                     match strip_prefix (s! "data: ") (from_utf8_lossy line) with
                     | Some d => trim_start d
                     | None => from_option trim_start [] (strip_prefix (s! ":") (from_utf8_lossy line))
                     end
                 end in
  if bool_decide (content = []) then None else Some content.
Definition long (l : bytes) : bool := (1 <? length l)%nat.
Definition contents (ls : list bytes) : list bytes := omap line_content (List.filter long ls).
Definition pushed (bs : list bytes) w : SseStream.t H := mk (endpoint w) (read_tx w ++ bs) (net w) (log w).

Lemma process_lines_delivers batch cur w :
  process_lines read_open batch cur true w = (true, true, pushed (omap line_content batch) w).
Proof.
  revert cur w; induction batch as [|l batch IH]; intros cur w; cbn [process_lines].
  { unfold pushed. cbn. rewrite app_nil_r. by destruct w. }
  cbn [negb andb omap list_omap]. unfold line_content at 1. rewrite open.
  destruct (strip_prefix (s! "event: ") _); [by rewrite IH|]. destruct (strip_prefix (s! "data: ") _) as [d|].
  2: destruct (strip_prefix (s! ":") _) as [d|]; [|by rewrite IH].
  all: cbn [from_option]; destruct (bool_decide (trim_start d = [])); rewrite IH; [done|];
    unfold pushed, push; cbn [endpoint read_tx net log]; by rewrite <-app_assoc.
Qed.

(** The chunks of a connection once the endpoint is known. *)
Abbreviation reading := (read_items max_retries retry_delay read_open).
Lemma contents_app a b : contents (a ++ b) = contents a ++ contents b.
Proof. unfold contents. by rewrite List.filter_app, omap_app. Qed.
Lemma pushed_app a b w : pushed b (pushed a w) = pushed (a ++ b) w.
Proof. unfold pushed. cbn. by rewrite app_assoc. Qed.
Lemma read_delivers cs buf n w : LF ∉ buf ->
  let lines := SseFacts.split_lf (buf ++ concat cs) in
  reading (Chunk <$> cs) (mkLoop buf true n) w =
  give_up_or_wait max_retries retry_delay true (mkLoop lines.2 true (match cs with [] => n | _ => 0 end)) (pushed (contents lines.1) w).
Proof.
  revert buf n w; induction cs as [|c cs IH]; intros buf n w Hb.
  { cbn [fmap list_fmap read_items concat]. rewrite app_nil_r, SseFacts.split_lf_nolf by done. cbn.
    unfold pushed. rewrite app_nil_r. by destruct w. }
  cbn [fmap list_fmap read_items buffer received concat]. rewrite SseFacts.drain_lines_spec by done.
  rewrite app_assoc, (SseFacts.split_lf_app (buf ++ c)).
  pose proof (SseFacts.split_lf_lines (buf ++ c)) as [_ Hr]. destruct (SseFacts.split_lf (buf ++ c)) as [ls rest]. cbn [fst snd] in *.
  rewrite process_lines_delivers, IH by done. fold (contents ls). rewrite pushed_app, contents_app. by destruct cs.
Qed.

(** Without replies the task retries until it gives up. *)
Lemma run_loop_exhausts left fuel st w : net w = [] -> retries st + left = max_retries -> left < fuel ->
  exists w', running fuel st w = Some w' /\ endpoint w' = endpoint (set_endpoint None w) /\ read_tx w' = read_tx w /\
    log w' = log w ++ concat (replicate left [GetSse; Sleep retry_delay]) ++ [GetSse].
Proof.
  revert fuel st w; induction left as [|left IH]; intros [|fuel] st w Hn Hl Hf; try lia; cbn [run_loop]; rewrite live;
    cbn [act net]; rewrite Hn; unfold give_up_or_wait.
  - rewrite (proj2 (Nat.leb_le _ _)) by lia. cbn [orb]. eexists. split; [done|]. unfold set_endpoint. cbn.
    by destruct (endpoint w) eqn:E; cbn; rewrite ?E.
  - rewrite (proj2 (Nat.leb_gt _ _)) by lia.
    destruct (IH fuel (mkLoop (buffer st) (received st) (S (retries st))) (act (Sleep retry_delay) (act GetSse w)))
      as (w' & E & Ee & Er & El); [done|cbn; lia|lia|].
    exists w'. split_and!; [exact E| |done|].
    + rewrite Ee. unfold set_endpoint. cbn. by destruct (endpoint w).
    + rewrite El. cbn. by rewrite <-!app_assoc.
Qed.

(** The frames of the SSE transport. *)
Definition json_text (m : str) : Prop := SseFacts.line_text m /\ exists c r, m = c :: r /\ graphic c = true.
Lemma line_content_data m : json_text m -> line_content (((s! "data: ") ++ m) ++ [LF]) = Some (m ++ [LF]).
Proof.
  intros ([Hu Hl] & c & r & -> & Hc). unfold line_content. rewrite from_utf8_lossy_valid.
  2: { rewrite utf8_valid_app by (by rewrite utf8_valid_app). done. }
  rewrite <-app_assoc. replace (strip_prefix (s! "event: ") _) with (@None str) by done.
  rewrite strip_prefix_app, <-app_comm_cons, trim_start_graphic by done. by rewrite bool_decide_eq_false_2.
Qed.
Definition plain_lines (ms : list str) : list bytes := ms ≫= (fun m => [((s! "data: ") ++ m) ++ [LF]; [LF]]).
Lemma plain_lines_contents ms : Forall json_text ms -> contents (plain_lines ms) = (fun m => m ++ [LF]) <$> ms.
Proof.
  induction 1 as [|m ms Hm _ IH]; [done|].
  change (contents (([((s! "data: ") ++ m) ++ [LF]] ++ [[LF]]) ++ plain_lines ms) = [m ++ [LF]] ++ ((fun m => m ++ [LF]) <$> ms)).
  rewrite contents_app, IH. f_equal.
  change (contents ([((s! "data: ") ++ m) ++ [LF]] ++ [[LF]])) with (omap line_content [((s! "data: ") ++ m) ++ [LF]]).
  cbn [omap list_omap]. by rewrite line_content_data.
Qed.

(** The body [handle_sse_connection] sends: the endpoint event, then a frame for
    each message the transport writes. *)
Lemma plain_frames ms : Forall json_text ms ->
  body_bytes (body_frames plain_event (concat ((fun m => m ++ [LF]) <$> ms))) = concat (plain_lines ms).
Proof.
  intros Hms. rewrite SseBodyFacts.body_of_lines by (eapply Forall_impl; [exact Hms|]; by intros m [? _]).
  induction Hms as [|m ms [[Hu Hl] (c & r & -> & Hc)] _ IH]; [done|].
  cbn [fmap list_fmap concat plain_lines mbind list_bind] in *. rewrite IH. rewrite concat_app. f_equal.
  unfold plain_event. rewrite SseBodyFacts.trim_end_LF by done. unfold SseEvent.to_string, SseEvent.fmt_lines, SseEvent.data_lines.
  cbn [SseEvent.retry SseEvent.id SseEvent.event SseEvent.data SseEvent.with_data SseEvent.default app]. rewrite Hu.
  rewrite SseBodyFacts.lines_single by done. cbn [fmap list_fmap concat]. unfold SseEvent.writeln. by rewrite !app_nil_r.
Qed.

Lemma plain_lines_are ms : Forall json_text ms -> Forall SseFacts.is_line (plain_lines ms).
Proof.
  induction 1 as [|m ms [[_ Hl] _] _ IH]; [constructor|].
  apply Forall_cons; split; [|apply Forall_cons; split; [exists []; split; [apply not_elem_of_nil|done]|exact IH]].
  exists ((s! "data: ") ++ m). split; [|done]. rewrite elem_of_app. intros [Hd|?]; [|done]. revert Hd.
  apply SseFacts.not_LF. by repeat constructor.
Qed.

(** A first chunk that holds the endpoint event. *)
Definition endpoint_text (e : str) : Prop := e <> [] /\ Forall (fun c => graphic c = true) e.
Lemma initial_lines e : endpoint_text e ->
  SseEvent.as_bytes (initial_sse_event e) = concat [(s! "event: endpoint") ++ [LF]; ((s! "data: ") ++ e) ++ [LF]; [LF]] /\
  Forall SseFacts.is_line [(s! "event: endpoint") ++ [LF]; ((s! "data: ") ++ e) ++ [LF]; [LF]].
Proof.
  intros [Hne Hg]. pose proof (SseBodyFacts.graphic_line_text e Hg) as [Hu Hl]. split.
  - unfold initial_sse_event, SseEvent.as_bytes, SseEvent.to_string, SseEvent.fmt_lines, SseEvent.data_lines.
    cbn [SseEvent.retry SseEvent.id SseEvent.event SseEvent.data SseEvent.with_data SseEvent.with_event SseEvent.default app]. rewrite Hu.
    rewrite SseBodyFacts.lines_single by done. cbn [fmap list_fmap concat app]. unfold SseEvent.writeln. by rewrite !app_nil_r, <-app_assoc.
  - assert (Hn : forall w : bytes, LF ∉ w -> SseFacts.is_line (w ++ [LF])) by (intros w Hw; by exists w).
    assert (Hp : forall w : bytes, Forall (fun c => SseParser.is_lf c = false) w -> LF ∉ w) by (intros; by apply SseFacts.not_LF).
    apply Forall_cons; split; [|apply Forall_cons; split; [|apply Forall_singleton]].
    + apply Hn, Hp. by repeat constructor.
    + apply Hn. rewrite elem_of_app. intros [Hd|?]; [|done]. revert Hd. apply Hp. by repeat constructor.
    + apply (Hn []), not_elem_of_nil.
Qed.

Lemma process_endpoint e ls w : endpoint_text e -> endpoint w = None ->
  process_lines read_open (List.filter long ([(s! "event: endpoint") ++ [LF]; ((s! "data: ") ++ e) ++ [LF]; [LF]] ++ ls)) None false w =
  (true, true, pushed (contents ls) (set_endpoint (Some e) w)).
Proof.
  intros [Hne Hg] Hw.
  change (List.filter long _) with (((s! "event: endpoint") ++ [LF]) :: (((s! "data: ") ++ e) ++ [LF]) :: List.filter long ls).
  cbn [process_lines]. replace (from_utf8_lossy ((s! "event: endpoint") ++ [LF])) with ((s! "event: ") ++ (s! "endpoint") ++ [LF]) by done.
  rewrite strip_prefix_app. rewrite from_utf8_lossy_valid.
  2: { apply SseBodyFacts.line_utf8, SseBodyFacts.line_text_app; [|by apply SseBodyFacts.graphic_line_text].
       split; [done|]. apply SseFacts.not_LF. by repeat constructor. }
  rewrite <-app_assoc. replace (strip_prefix (s! "event: ") ((s! "data: ") ++ _)) with (@None str) by done.
  rewrite strip_prefix_app, Hw. replace (bool_decide _) with true by (symmetry; by apply bool_decide_eq_true_2).
  cbn [negb andb is_some]. destruct e as [|c r]; [done|].
  rewrite <-app_comm_cons, trim_start_graphic, app_comm_cons by (by apply Forall_inv in Hg).
  rewrite (trim_snoc_LF (c :: r)) by (by apply trimmed_graphic). by rewrite process_lines_delivers.
Qed.
Lemma read_endpoint e x cs w n : endpoint_text e -> endpoint w = None ->
  let lines := SseFacts.split_lf (x ++ concat cs) in
  reading (Chunk <$> ((SseEvent.as_bytes (initial_sse_event e) ++ x) :: cs)) (mkLoop [] false n) w =
  give_up_or_wait max_retries retry_delay true (mkLoop lines.2 true 0) (pushed (contents lines.1) (set_endpoint (Some e) w)).
Proof.
  intros He Hw. destruct (initial_lines e He) as [-> Hi]. cbn [fmap list_fmap read_items buffer received app].
  rewrite SseFacts.drain_lines_spec, SseFacts.split_lf_concat by done.
  pose proof (SseFacts.split_lf_lines x) as [_ Hr]. destruct (SseFacts.split_lf x) as [ls rest] eqn:Ex. cbn [fst snd] in *.
  fold long. rewrite process_endpoint by done. rewrite read_delivers by done.
  rewrite pushed_app, <-contents_app, (SseFacts.split_lf_app x), Ex. cbn [fst snd]. by destruct cs.
Qed.
End SseConnection.
End ClientStreamFacts.

(** ** Properties *)

Import ClientStreamFacts.

Section Properties.
Context {H : Type} `{HeaderMapLaws H}.
Context (max_retries : nat) (retry_delay : N).

(** The standalone stream is one stream cut into connections: while the
    server accepts the reconnections, the messages of all events of the joined
    bodies are delivered once and in order, every reconnection sends the id of
    the last event with data and the session id, and when the server is gone
    the client asks [max_retries] + 1 times and reports the failure. *)
Theorem standalone_stream_delivery (is_cancelled read_open : World H -> bool) first bodies w :
  (forall w, is_cancelled w = false) -> (forall w, read_open w = true) -> 0 < max_retries ->
  Forall (fun cs => cs <> []) (first :: bodies) -> session_ok w ->
  Forall2 (fun r cs => opens r (Chunk <$> cs)) (replies w) bodies ->
  let seen n := (SseParser.process_new_chunk SseParser.new (concat (first ++ concat (take n bodies)))).2 in
  let resume n := event_header (H := H) (last_from None (seen n)) in
  exists w',
    StreamableHttpStream.run_standalone max_retries retry_delay is_cancelled read_open (Chunk <$> first) w
    = (Err (Error (HttpConnection [])), w') /\
    delivered w' = delivered w ++ datas (seen (length bodies)) /\
    resumes w' = resumes w ++ (resume <$> seq 0 (S (length bodies))) ++ replicate max_retries (resume (length bodies)).
Proof.
  intros live open Hm Hne Hs Ho seen resume. unfold StreamableHttpStream.run_standalone.
  replace (length (replies w)) with (length bodies + 0) by (rewrite (Forall2_length _ _ _ Ho); lia).
  destruct (standalone_spec max_retries retry_delay is_cancelled read_open live open bodies (replies w) first
              (StreamableHttpStream.mkStand SseParser.new None None 0) w 0 Ho Hne Hm Hs eq_refl) as (w' & E & _ & _ & Ed & Er).
  exists w'. split; [exact E|]. subst seen resume. cbn [StreamableHttpStream.s_parser StreamableHttpStream.s_last_event_id] in *.
  setoid_rewrite SseFacts.feed_concat in Ed. setoid_rewrite SseFacts.feed_concat in Er. done.
Qed.

(** The answer to a message over a stream: connections that end without a
    message but gave an event id are resumed after the delay the server asked
    for, with the last event id and the session id of the reply; the call
    delivers the messages the first chunk with data completes, and returns. *)
Theorem post_stream_delivery (is_cancelled read_open : World H -> bool) payload h body bodies primes pre c rest rs later w :
  (forall w, is_cancelled w = false) -> (forall w, read_open w = true) -> session_ok w ->
  replies w = Reply 200%N h (Chunk <$> body) :: rs ++ later -> validate_response_type h = Ok EventStream ->
  body :: bodies = primes ++ [pre ++ c :: rest] -> Forall2 (fun r cs => opens r (Chunk <$> cs)) rs bodies ->
  let parsed cs := SseParser.process_new_chunk SseParser.new (concat cs) in
  let seen n := (parsed (concat (take (S n) primes))).2 in
  let before := parsed (concat primes ++ pre) in
  let completed := (SseParser.process_new_chunk before.1 c).2 in
  let session := get_str h (s! "mcp-session-id") in
  datas before.2 = [] -> datas completed <> [] -> primes = [] \/ has_id (seen 0) = true ->
  StreamableHttpStream.run max_retries retry_delay is_cancelled read_open payload w =
  (Ok tt, mkWorld session (delivered w ++ datas completed) later
            (actions w ++ Post (session_id w) payload ::
             concat ((fun n => [Sleep (from_option (fun d => d) retry_delay (retry_from None (seen n)));
                                Get session (event_header (H := H) (last_id None (seen n)))]) <$> seq 0 (length primes)))).
Proof.
  intros live open Hs Hr Hv Hb Hrs parsed seen before completed session Hd Hc Hp.
  rewrite (post_head _ _ _ _ live open _ _ 200%N h (Chunk <$> body) (rs ++ later)) by done.
  rewrite bool_decide_eq_true_2, Hv by done. rewrite length_app, (Forall2_length _ _ _ Hrs).
  subst completed before seen. unfold parsed in *. cbv beta in *. rewrite <-SseFacts.feed_concat in Hd, Hc |- *.
  setoid_rewrite <-SseFacts.feed_concat in Hp.
  rewrite (posting_spec max_retries retry_delay is_cancelled read_open live open primes body bodies pre c rest rs later)
    by first [done | apply posted_session_ok | destruct Hp; [by left|by right]].
  cbn [session_id delivered actions posted]. rewrite <-app_assoc. do 5 f_equal. apply list_fmap_ext.
  intros ? n _. unfold round. by rewrite SseFacts.feed_concat.
Qed.
End Properties.

(** C27. The SSE transport end to end: if the first chunk holds the endpoint
    event, the client learns the endpoint and its channel gets every message
    the server wrote, each with its newline, however the rest of the body is
    cut; then it retries [max_retries] times and ends. *)
Theorem sse_messages_end_to_end {H : Type} (max_retries : nat) (retry_delay : N) (is_cancelled read_open : SseStream.t H -> bool)
  endpoint messages x chunks st h w :
  (forall w, is_cancelled w = false) -> (forall w, read_open w = true) ->
  endpoint_text endpoint -> Forall json_text messages -> SseStream.endpoint w = None ->
  SseStream.net w = [Reply st h (Chunk <$> ((SseEvent.as_bytes (initial_sse_event endpoint) ++ x) :: chunks))] ->
  concat ((SseEvent.as_bytes (initial_sse_event endpoint) ++ x) :: chunks) =
    sse_connection_body endpoint (concat ((fun m => m ++ [LF]) <$> messages)) ->
  exists w', SseStream.run max_retries retry_delay is_cancelled read_open w = Some w' /\
    SseStream.endpoint w' = Some (Some endpoint) /\
    SseStream.read_tx w' = SseStream.read_tx w ++ ((fun m => m ++ [LF]) <$> messages) /\
    SseStream.log w' = SseStream.log w ++ concat (replicate max_retries [GetSse; Sleep retry_delay]) ++ [GetSse].
Proof.
  intros live open He Hms Hw Hn Hb. unfold SseStream.run. rewrite Hn.
  assert (exists fuel, S (length [Reply st h (Chunk <$> ((SseEvent.as_bytes (initial_sse_event endpoint) ++ x) :: chunks))]) + max_retries + 1
                       = S fuel /\ max_retries < fuel) as (fuel & -> & Hf) by (exists (S (max_retries + 1)); cbn [length]; split; lia).
  cbn [SseStream.run_loop]. rewrite live. cbn [SseStream.act SseStream.net SseStream.endpoint SseStream.read_tx SseStream.log]. rewrite Hn.
  rewrite (read_endpoint max_retries retry_delay read_open open) by done.
  cbn [concat] in Hb. unfold sse_connection_body in Hb. rewrite <-app_assoc in Hb. apply app_inv_head in Hb.
  rewrite Hb, plain_frames by done. rewrite <-(app_nil_r (concat _)), SseFacts.split_lf_concat by (by apply plain_lines_are).
  cbn [fst snd SseFacts.split_lf]. rewrite app_nil_r, plain_lines_contents, Hw by done. unfold SseStream.set_endpoint at 1. cbn [SseStream.endpoint].
  unfold SseStream.give_up_or_wait. cbn [SseStream.retries SseStream.received SseStream.buffer SseStream.set_endpoint].
  destruct (Nat.leb_spec max_retries 0) as [Hm|Hm].
  - replace max_retries with 0 by lia. eexists. by split_and!.
  - destruct (run_loop_exhausts max_retries retry_delay is_cancelled read_open live (max_retries - 1) fuel (SseStream.mkLoop [] true 1)
                (SseStream.act (Sleep retry_delay) (pushed ((fun m => m ++ [LF]) <$> messages)
                  (SseStream.mk (Some (Some endpoint)) (SseStream.read_tx w) [] (SseStream.log w ++ [GetSse])))))
      as (w' & E & Ee & Er & El); [done|cbn; lia|lia|].
    exists w'. split_and!; [exact E|exact Ee|exact Er|]. rewrite El. destruct max_retries as [|m]; [lia|].
    cbn [Nat.sub replicate concat SseStream.act SseStream.log pushed]. rewrite Nat.sub_0_r. by rewrite <-!app_assoc.
Qed.

(** ** Examples *)

Module ClientStreamExamples.
Abbreviation Headers := ListHeaders.t.
Definition event_stream : Headers := [(CONTENT_TYPE, s! "text/event-stream")].
Definition with_session : Headers := (s! "mcp-session-id", s! "S1") :: event_stream.
Definition never {A} (_ : A) : bool := false.
Definition always {A} (_ : A) : bool := true.
Definition text (ls : list str) : bytes := concat ((fun l => l ++ [LF]) <$> ls).
Definition message (i m : str) : bytes := text [(s! "id: ") ++ i; (s! "data: ") ++ m; []].
Definition priming : bytes := text [s! "id: p0"; s! "retry: 250"; []].
Definition start rs : World Headers := mkWorld (Some (s! "S0")) [] rs [].
Abbreviation run_post := (StreamableHttpStream.run 2 1000 never always).

(** A response that comes in a later chunk than a notification is lost. *)
Example response_after_notification_lost :
  let body := Chunk <$> [message (s! "1") (s! "{notification}"); message (s! "2") (s! "{response}")] in
  let '(r, w) := run_post (s! "{request}") (start [Reply 200%N event_stream body]) in
  r = Ok tt /\ delivered w = [(s! "{notification}") ++ [LF]].
Proof. vm_compute. split; reflexivity. Qed.

(** A reply without the session header makes the client forget its session. *)
Example session_forgotten :
  session_id (run_post (s! "{notification}") (start [Reply 202%N [] []])).2 = None.
Proof. vm_compute. reflexivity. Qed.

(** The id of an event without data is not used to resume the standalone stream. *)
Example standalone_priming_id_ignored :
  resumes (StreamableHttpStream.run_standalone 1 1000 never always [Chunk priming] (start [])).2 = [None; None].
Proof. vm_compute. reflexivity. Qed.

(** JSON with a parameter in its content type is refused. *)
Example json_with_charset_rejected :
  validate_response_type [(CONTENT_TYPE, s! "application/json; charset=utf-8")]
  = Err (UnexpectedContentType (s! "application/json; charset=utf-8")).
Proof. vm_compute. reflexivity. Qed.

(** The text of a comment reaches the channel; an endpoint event whose lines
    come in two chunks is taken for a message. *)
Definition sse_client (chunks : list bytes) : option (SseStream.t Headers) :=
  SseStream.run 0 1000 never always (SseStream.mk None [] [Reply 200%N event_stream (Chunk <$> chunks)] []).
Example comment_delivered :
  SseStream.read_tx <$> sse_client [text [s! ": ping"; []]] = Some [(s! "ping") ++ [LF]].
Proof. vm_compute. reflexivity. Qed.
Example split_endpoint_missed :
  (fun w => (SseStream.endpoint w, SseStream.read_tx w)) <$>
    sse_client [text [s! "event: endpoint"]; text [s! "data: /messages?sessionId=1"; []]]
  = Some (Some None, [(s! "/messages?sessionId=1") ++ [LF]]).
Proof. vm_compute. reflexivity. Qed.

Lemma visible_S0 : forall id, Some (s! "S0") = Some id -> Forall (fun c => visible c = true) id.
Proof. intros id [= <-]. decided. Qed.
Definition opened (cs : list bytes) : reply Headers := Reply 200%N event_stream (Chunk <$> cs).
Lemma opened_opens cs : opens (opened cs) (Chunk <$> cs).
Proof. by exists 200%N, event_stream. Qed.

Definition stand_bodies : list (list bytes) := [[message (s! "2") (s! "{b}")]].
Lemma standalone_stream_delivery_witness :
  exists w', StreamableHttpStream.run_standalone 1 1000 never always (Chunk <$> [message (s! "1") (s! "{a}")])
               (start (opened <$> stand_bodies)) = (Err (Error (HttpConnection [])), w') /\
    delivered w' = [(s! "{a}") ++ [LF]; (s! "{b}") ++ [LF]] /\ resumes w' = [Some (s! "1"); Some (s! "2"); Some (s! "2")].
Proof.
  destruct (standalone_stream_delivery 1 1000 never always [message (s! "1") (s! "{a}")] stand_bodies (start (opened <$> stand_bodies)))
    as (w' & E & Ed & Er); [done|done|lia|by repeat constructor|exact visible_S0| |].
  - constructor; [apply opened_opens|constructor].
  - exists w'. split; [exact E|]. rewrite Ed, Er. vm_compute. split; reflexivity.
Defined.

Lemma post_stream_delivery_witness :
  run_post (s! "{request}") (start [Reply 200%N with_session (Chunk <$> [priming]); opened [message (s! "1") (s! "{response}")]]) =
  (Ok tt, mkWorld (Some (s! "S1")) [(s! "{response}") ++ [LF]] []
            [Post (Some (s! "S0")) (s! "{request}"); Sleep 250%N; Get (Some (s! "S1")) (Some (s! "p0"))]).
Proof.
  etransitivity.
  - apply (post_stream_delivery 2 1000 never always (s! "{request}") with_session [priming] [[message (s! "1") (s! "{response}")]]
             [[priming]] [] (message (s! "1") (s! "{response}")) [] [opened [message (s! "1") (s! "{response}")]] []);
      [done|done|exact visible_S0|done|vm_compute; reflexivity|done| |vm_compute; reflexivity|vm_compute; discriminate|right; vm_compute; reflexivity].
    constructor; [apply opened_opens|constructor].
  - vm_compute. reflexivity.
Defined.

Definition sse_body : bytes := sse_connection_body (s! "/messages?sessionId=1") (text [s! "{a}"; s! "{b}"]).
Lemma sse_messages_end_to_end_witness :
  let initial := SseEvent.as_bytes (initial_sse_event (s! "/messages?sessionId=1")) in
  let rest := drop (length initial) sse_body in
  exists w', SseStream.run 1 1000 never always
               (SseStream.mk None [] [opened [initial ++ take 3 rest; drop 3 rest]] []) = Some w' /\
    SseStream.endpoint w' = Some (Some (s! "/messages?sessionId=1")) /\
    SseStream.read_tx w' = [(s! "{a}") ++ [LF]; (s! "{b}") ++ [LF]] /\
    SseStream.log w' = [GetSse; Sleep 1000%N; GetSse].
Proof.
  intros initial rest.
  apply (sse_messages_end_to_end 1 1000 never always (s! "/messages?sessionId=1") [s! "{a}"; s! "{b}"] (take 3 rest) [drop 3 rest] 200%N event_stream);
    [done|done| | |done|done|vm_compute; reflexivity].
  - split; [done|]. decided.
  - repeat constructor; try decided; by (eexists _, _; split; [vm_compute; reflexivity|]).
Defined.
End ClientStreamExamples.
