(* ===== verification/HttpHandler.v ===== *)
(** * The HTTP handler of the server

    Models crates/rust-mcp-sdk/src/mcp_http/: mcp_http_handler.rs
    ([McpHttpHandler] and the checks of session id headers), the stream and
    session functions of http_utils.rs, app_state.rs ([McpAppState]), and from
    utils.rs [valid_initialize_method] and [remove_query_and_hash].

    Sessions, runtimes and transports are shared objects: the session store
    keeps the number of a runtime, a runtime the number of its transport.  A
    spawned task is recorded in the state; when its first part runs is up to
    the scheduler.  The user's JSON types, [serde_json] and the protocol version
    parser are parameters. *)
From S2P Require Import Prelude RustStr EventStore SessionStore IdGen Dispatcher Auth ServerRuntime Http.

(** ** JSON, as the handler looks at it *)

(** [serde_json::Value], as far as it is matched on. *)
Inductive Value := VObject (fields : list (str * Value)) | VArray (items : list Value) | VOther.
Definition contains_key (fields : list (str * Value)) (k : str) : bool := bool_decide (k ∈ fields.*1).
Definition is_object_with (keys : list str) (v : Value) : bool :=
  match v with VObject fields => forallb (contains_key fields) keys | _ => false end.

Section Json.
Context (from_json : str -> option Value). (* serde_json::from_str *)
Definition contains_request (json : str) : option bool :=
  v ← from_json json;
  Some (match v with
        | VObject _ => is_object_with [s! "id"; s! "method"] v
        | VArray items => List.existsb (is_object_with [s! "id"; s! "method"]) items
        | VOther => false
        end).
Definition is_result (json : str) : option bool :=
  v ← from_json json;
  Some (match v with
        | VObject _ => is_object_with [s! "result"] v
        | VArray items => forallb (is_object_with [s! "result"]) items
        | VOther => false
        end).
End Json.

Section Initialize.
Context {CM : Type} (from_json : str -> option (Messages CM)) (is_initialize_request : CM -> bool).
Definition valid_initialize_method (json : str) : result unit McpSdkError :=
  let not_found := Err (ESdkError (mkSdkError bad_request (Some (s! "Bad Request: Session not found")))) in
  match from_json json with
  | None => not_found
  | Some (Dispatcher.Single m) => if is_initialize_request m then Ok tt else not_found
  | Some (Dispatcher.Batch ms) =>
      if (1 <? length (List.filter is_initialize_request ms))%nat
      then Err (ESdkError (mkSdkError invalid_request (Some (s! "Bad Request: Only one initialization request is allowed"))))
      else Ok tt
  end.
End Initialize.

(** ** Headers and the query *)

Definition remove_query_and_hash (endpoint : str) : str :=
  let without_fragment := match split_once_char "#"%char endpoint with Some (p, _) => p | None => endpoint end in
  let without_query := match split_once_char "?"%char without_fragment with Some (p, _) => p | None => without_fragment end in
  if bool_decide (without_query = []) then s! "/" else without_query.

Definition MAX_SESSION_ID_LEN : nat := 128.
Definition is_valid_session_id (value : str) : result unit str :=
  if bool_decide (value = []) then Err (s! "session ID must not be empty")
  else if (MAX_SESSION_ID_LEN <? length value)%nat then Err (s! "session ID exceeds maximum length of 128 bytes")
  else if negb (forallb (fun b => graphic b && negb (bool_decide (b = " "%char))) value)
  then Err (s! "session ID contains invalid characters")
  else Ok tt.

Definition MCP_SESSION_ID_HEADER : str := s! "mcp-session-id".
Definition MCP_PROTOCOL_VERSION_HEADER : str := s! "mcp-protocol-version".
Definition MCP_LAST_EVENT_ID_HEADER : str := s! "last-event-id".
Definition ACCEPT : str := s! "accept".
Definition CONNECTION : str := s! "connection".
Definition DEFAULT_MESSAGES_ENDPOINT : str := s! "/messages".

Section Headers.
Context {H : Type} `{HeaderMap H} {Extra : Type}.

Definition parse_session_id_header (headers : H) (header_name : str) : result (option str) str :=
  match hm_get headers header_name with
  | None => Ok None
  | Some value =>
      match to_str headers value with
      | None => Err (s! "session ID is not valid UTF-8")
      | Some v => let? _ := is_valid_session_id v in Ok (Some v)
      end
  end.

Definition header_or_empty (headers : H) (name : str) : str := from_option (fun v => v) [] (get_str headers name).
Definition lists_type (prefix : str) (value : str) : bool :=
  List.existsb (fun val => starts_with prefix (trim val)) (split_char ","%char value).
Definition acceptable_content_type (headers : H) : bool :=
  lists_type (s! "application/json") (header_or_empty headers CONTENT_TYPE).
Definition accepts_event_stream (headers : H) : bool :=
  lists_type (s! "text/event-stream") (header_or_empty headers ACCEPT).
Definition valid_streaming_http_accept_header (headers : H) : bool :=
  lists_type (s! "text/event-stream") (header_or_empty headers ACCEPT) &&
  lists_type (s! "application/json") (header_or_empty headers ACCEPT).

(** [ProtocolVersion::try_from] *)
Context (parse_version : str -> result unit str).
Definition validate_mcp_protocol_version (version : str) : result unit McpSdkError :=
  match parse_version version with Ok _ => Ok tt | Err e => Err (EProtocol (ParseError e)) end.
Definition validate_mcp_protocol_version_header (headers : H) : result unit McpSdkError :=
  let v := header_or_empty headers MCP_PROTOCOL_VERSION_HEADER in
  if bool_decide (v = []) then Ok tt else validate_mcp_protocol_version v.

Fixpoint find_param (pairs : list str) (key : str) : option str :=
  match pairs with
  | [] => None
  | kv :: r =>
      let '(k, v) := match split_once_char "="%char kv with Some p => p | None => (kv, []) end in
      if bool_decide (k = key) then Some v else find_param r key
  end.
Definition query_param (request : Request H Extra) (key : str) : option str :=
  uri_query request ≫= (fun query => find_param (split_char "&"%char query) key).

(** [create_request]; a [HeaderMap] yields the name only with the first of
    its values. *)
Definition create_request (method : str) (query : option str) (headers : list (option str * bytes)) (body : option str)
  : Request H Extra :=
  mkRequest method query
    (foldl (fun h kv => match kv.1 with Some k => hm_insert h k kv.2 | None => h end) hm_new headers)
    (from_option (fun b => b) [] body) None.
End Headers.

(** ** The shared state *)

Module McpAppState.
Section State.
Context {Extra Details Tr St G : Type}.

(** The spawned tasks. *)
Inductive task :=
| StreamTask (runtime transport : nat) (stream_id : str) (payload : option str)
| SseTask (runtime transport : nat) (session_id : str)
| ReplayTask (transport : nat) (last_event_id : option str).

(** [struct McpAppState], with the runtimes, transports and tasks that exist;
    [resumable] says whether an event store is configured. *)
Record t := mk {
  session_store : St;
  id_generator : G;
  stream_id_gen : FastIdGenerator.t;
  enable_json_response : bool;
  resumable : bool;
  runtimes : list (ServerRuntime.t Extra Details);
  transports : list Tr;
  tasks : list task;
}.
Definition set_store (s : St) (w : t) : t :=
  mk s (id_generator w) (stream_id_gen w) (enable_json_response w) (resumable w) (runtimes w) (transports w) (tasks w).
Definition set_ids (g : G) (w : t) : t :=
  mk (session_store w) g (stream_id_gen w) (enable_json_response w) (resumable w) (runtimes w) (transports w) (tasks w).
Definition set_stream_ids (g : FastIdGenerator.t) (w : t) : t :=
  mk (session_store w) (id_generator w) g (enable_json_response w) (resumable w) (runtimes w) (transports w) (tasks w).
Definition add_runtime (r : ServerRuntime.t Extra Details) (w : t) : t :=
  mk (session_store w) (id_generator w) (stream_id_gen w) (enable_json_response w) (resumable w) (runtimes w ++ [r]) (transports w) (tasks w).
Definition add_transport (x : Tr) (w : t) : t :=
  mk (session_store w) (id_generator w) (stream_id_gen w) (enable_json_response w) (resumable w) (runtimes w) (transports w ++ [x]) (tasks w).
Definition spawn (k : task) (w : t) : t :=
  mk (session_store w) (id_generator w) (stream_id_gen w) (enable_json_response w) (resumable w) (runtimes w) (transports w) (tasks w ++ [k]).
Definition set_runtimes (rs : list (ServerRuntime.t Extra Details)) (ts : list Tr) (w : t) : t :=
  mk (session_store w) (id_generator w) (stream_id_gen w) (enable_json_response w) (resumable w) rs ts (tasks w).

(** A method of runtime [i], on the transports all runtimes share. *)
Definition on_runtime {A} (i : nat) (f : Act (ServerRuntime.state Extra Details Tr) McpSdkError A) : Act t McpSdkError A :=
  fun w => match runtimes w !! i with
           | None => (Err (EInternal (s! "no such runtime")), w)
           | Some r => let '(a, s) := f (ServerRuntime.mkState (transports w) r) in
                       (a, set_runtimes (<[i := ServerRuntime.rt s]> (runtimes w)) (ServerRuntime.heap s) w)
           end.
(** What runtime [i] answers without changing. *)
Definition runtime_is (i : nat) (p : ServerRuntime.state Extra Details Tr -> bool) (w : t) : bool :=
  match runtimes w !! i with None => false | Some r => p (ServerRuntime.mkState (transports w) r) end.
End State.
Arguments t : clear implicits.
End McpAppState.
Import McpAppState.

(** ** The handler *)

Module McpHttpHandler.
Section Handler.
Context {H : Type} `{HeaderMap H} {Extra Details Tr St G RequestId Req Notif Resp Out : Type}.
Context `{!SessionStore nat St} `{!IdGenerator G}.
Context `{!TransportDispatcher RequestId (ServerRuntime.ClientMessage RequestId Req Notif Resp) Out Tr}.
Abbreviation World := (McpAppState.t Extra Details Tr St G).
Abbreviation M := (Act World McpHttpError).
Abbreviation Answer := (M (Response H)).

Context (now : N) (encode : bytes -> str) (parse_value : str -> option Value)
  (parse_messages : str -> option (Messages (ServerRuntime.ClientMessage RequestId Req Notif Resp)))
  (is_initialize_request : ServerRuntime.ClientMessage RequestId Req Notif Resp -> bool)
  (parse_version : str -> result unit str) (show_error : McpSdkError -> str)
  (tr_new : option (str * str) -> Tr). (* a new SSE transport, resumable for a session and stream or not *)

Definition respond (r : Response H) : Answer := act_ret r.
Definition get_session (id : str) : M (option nat) :=
  fun w => let '(o, st) := get now (session_store w) id in (Ok o, set_store st w).
(** [runtime.update_auth_info(auth_info)] *)
Definition update_auth (i : nat) (a : option (AuthInfo Extra)) : M unit :=
  fun w => (Ok tt, (on_runtime i (act_modify (ServerRuntime.with_rt (ServerRuntime.update_auth_info a))) w).2).
Definition not_found_response : Response H := error_response 404 (mkSdkError session_not_found None).
Definition invalid_header_value : McpHttpError := HttpError (s! "failed to parse header value").

(** [http::Response::builder()] with these headers *)
Definition with_headers (hs : list (str * bytes)) : H := foldl (fun h kv => hm_append h kv.1 kv.2) hm_new hs.

Definition create_sse_stream (runtime : nat) (session_id : str) (payload : option str) (standalone : bool)
  (last_event_id : option str) : Answer :=
  fun w =>
    match (match payload with Some p => contains_request parse_value p | None => Some false end) with
    | None => (Ok (error_response 400 (mkSdkError parse_error None)), w)
    | Some payload_contains_request =>
        let '(stream_id, w) := if standalone then (DEFAULT_STREAM_ID, w)
                               else let '(i, g) := FastIdGenerator.generate_id encode (stream_id_gen w) in (i, set_stream_ids g w) in
        let transport := length (transports w) in
        let w := add_transport (tr_new (if resumable w then Some (session_id, stream_id) else None)) w in
        let w := spawn (StreamTask runtime transport stream_id payload) w in
        match from_str (hm_new (H := H)) session_id with
        | None => (Err invalid_header_value, w)
        | Some session_id_value =>
            (Ok (mkResponse (if payload_contains_request then 200 else 202)%N
                   (with_headers [(CONTENT_TYPE, s! "text/event-stream"); (MCP_SESSION_ID_HEADER, session_id_value);
                                  (CONNECTION, s! "keep-alive")]) (BStream transport)),
             spawn (ReplayTask transport last_event_id) w)
        end
    end.

(** [env] is what runs while it waits for the transport to be stored. *)
Definition create_standalone_stream (env : World -> World) (session_id : str) (last_event_id : option str)
  (auth : option (AuthInfo Extra)) : Answer :=
  do o <- get_session session_id;
  match o with
  | None => act_fail (SessionIdInvalid session_id)
  | Some runtime =>
      do _ <- update_auth runtime auth;
      do exists_ <- act_get (runtime_is runtime ServerRuntime.default_stream_exists);
      if (exists_ : bool) then respond (error_response 409 (mkSdkError bad_request (Some (s! "Only one SSE stream is allowed per session"))))
      else
        do response <- create_sse_stream runtime session_id None true last_event_id;
        fun w =>
          let w := if runtime_is runtime ServerRuntime.default_stream_exists w then w else env w in
          match on_runtime runtime (ServerRuntime.wait_for_transport_ready (fun s => s)) w with
          | (Ok _, w) => (Ok (mkResponse 200 (resp_headers response) (resp_body response)), w)
          | (Err err, w) => (Err (HttpError ((s! "Failed waiting for transport readiness: ") ++ show_error err)), w)
          end
  end.

Definition full_response : Response H :=
  error_response 503 (mkSdkError internal_error (Some (s! "Server is at maximum session capacity, try again later."))).

Definition start_new_session (payload : str) (auth : option (AuthInfo Extra)) : Answer :=
  fun w =>
    let '(full, st) := is_full now (session_store w) in
    let w := set_store st w in
    if (full : bool) then (Ok full_response, w)
    else
      let '(session_id, g) := generate (id_generator w) in
      let w := set_ids g w in
      let runtime := length (runtimes w) in
      let w := add_runtime (ServerRuntime.new_instance session_id auth) w in
      match create_sse_stream runtime session_id (Some payload) false None w with
      | (Ok response, w) => (Ok response, set_store (set now (session_store w) session_id runtime) w)
      | (Err e, w) => (Err e, w)
      end.

(** [read_line] is what comes as the first line of the transport's stream
    while the spawned tasks run: nothing before its end, a line, or an error. *)
Definition single_shot_stream (read_line : nat -> World -> option (result str str) * World)
  (runtime : nat) (session_id : str) (payload : option str) (standalone : bool) : Answer :=
  fun w =>
    let transport := length (transports w) in
    let w := add_transport (tr_new None) w in
    let '(stream_id, w) := if standalone then (DEFAULT_STREAM_ID, w)
                           else let '(i, g) := generate (id_generator w) in (i, set_ids g w) in
    let w := spawn (StreamTask runtime transport stream_id payload) w in
    let '(line, w) := read_line transport w in
    match from_str (hm_new (H := H)) session_id with
    | None => (Err invalid_header_value, w)
    | Some session_id_value =>
        (Ok (match line with
             | Some (Ok line) =>
                 mkResponse 200 (with_headers [(CONTENT_TYPE, s! "application/json"); (MCP_SESSION_ID_HEADER, session_id_value)])
                   (BText (trim_end_matches LF line))
             | Some (Err err) => mkResponse 500 (with_headers [(CONTENT_TYPE, s! "application/json")]) (BText err)
             | None => mkResponse 422 (with_headers [(CONTENT_TYPE, s! "application/json")])
                         (BText (s! "End of the transport stream reached."))
             end), w)
    end.

Definition process_incoming_message_return read_line (session_id payload : str) (auth : option (AuthInfo Extra)) : Answer :=
  do o <- get_session session_id;
  match o with
  | Some runtime => do _ <- update_auth runtime auth; single_shot_stream read_line runtime session_id (Some payload) false
  | None => respond not_found_response
  end.

Definition process_incoming_message (session_id payload : str) (auth : option (AuthInfo Extra)) : Answer :=
  do o <- get_session session_id;
  match o with
  | None => respond not_found_response
  | Some runtime =>
      do _ <- update_auth runtime auth;
      match is_result parse_value payload with
      | None => respond (error_response 400 (mkSdkError parse_error None))
      | Some true =>
          fun w => match on_runtime runtime (ServerRuntime.consume_payload_string payload) w with
                   | (Ok _, w) => (Ok (mkResponse 200 (with_headers [(CONTENT_TYPE, s! "application/json")]) (BText [])), w)
                   | (Err err, w) => (Ok (error_response 400 (mkSdkError internal_error (Some (show_error err)))), w)
                   end
      | Some false => create_sse_stream runtime session_id (Some payload) false None
      end
  end.

Definition delete_session (session_id : str) : Answer :=
  do o <- get_session session_id;
  match o with
  | Some runtime =>
      fun w =>
        let '(_, w) := on_runtime runtime (fun s => (Ok tt, ServerRuntime.shutdown s)) w in
        (Ok (mkResponse 200 (with_headers [(CONTENT_TYPE, s! "application/json")]) (BText (s! "ok"))),
         set_store (delete (session_store w) session_id) w)
  | None => respond not_found_response
  end.

(** The SSE transport: the session is stored at once, its stream being the
    standalone one. *)
Definition connect_sse (sse_message_endpoint : option str) (auth : option (AuthInfo Extra)) : Answer :=
  fun w =>
    let '(full, st) := is_full now (session_store w) in
    let w := set_store st w in
    if (full : bool) then (Ok full_response, w)
    else
      let '(session_id, g) := generate (id_generator w) in
      let w := set_ids g w in
      let messages_endpoint :=
        endpoint_with_session_id (from_option (fun e => e) DEFAULT_MESSAGES_ENDPOINT sse_message_endpoint) session_id in
      let transport := length (transports w) in
      let w := add_transport (tr_new None) w in
      let runtime := length (runtimes w) in
      let w := add_runtime (ServerRuntime.new_instance session_id auth) w in
      let w := set_store (set now (session_store w) session_id runtime) w in
      let w := spawn (SseTask runtime transport session_id) w in
      (Ok (mkResponse 200 (with_headers [(CONTENT_TYPE, s! "text/event-stream"); (CONNECTION, s! "keep-alive")])
             (BSse messages_endpoint transport)), w).

(** ** The methods of Streamable HTTP *)

Definition bad_request_with (msg : str) : Response H := error_response 400 (mkSdkError bad_request (Some msg)).
Definition invalid_version (e : McpSdkError) : Response H := bad_request_with ((s! "Bad Request: ") ++ show_error e).
Definition invalid_id (name msg : str) : Response H := bad_request_with ((s! "Invalid ") ++ name ++ (s! " header: ") ++ msg).

Definition handle_http_post read_line (request : Request H Extra) (auth : option (AuthInfo Extra)) : Answer :=
  let h := headers request in
  if negb (valid_streaming_http_accept_header h) then
    respond (error_response 406 (mkSdkError bad_request (Some (s! "Client must accept both application/json and text/event-stream"))))
  else if negb (acceptable_content_type h) then
    respond (error_response 415 (mkSdkError bad_request (Some (s! "Unsupported Media Type: Content-Type must be application/json"))))
  else
    match validate_mcp_protocol_version_header parse_version h with
    | Err e => respond (invalid_version e)
    | Ok _ =>
        match parse_session_id_header h MCP_SESSION_ID_HEADER with
        | Err msg => respond (invalid_id (s! "Mcp-Session-Id") msg)
        | Ok (Some id) =>
            fun w => if enable_json_response w then process_incoming_message_return read_line id (body request) auth w
                     else process_incoming_message id (body request) auth w
        | Ok None =>
            match valid_initialize_method parse_messages is_initialize_request (body request) with
            | Ok _ => start_new_session (body request) auth
            | Err (ESdkError error) => respond (error_response 400 error)
            | Err error => respond (bad_request_with (show_error error))
            end
        end
    end.

Definition handle_http_get (env : World -> World) (request : Request H Extra) (auth : option (AuthInfo Extra)) : Answer :=
  let h := headers request in
  if negb (accepts_event_stream h) then
    respond (error_response 406 (mkSdkError bad_request (Some (s! "Client must accept text/event-stream"))))
  else
    match validate_mcp_protocol_version_header parse_version h with
    | Err e => respond (invalid_version e)
    | Ok _ =>
        match parse_session_id_header h MCP_SESSION_ID_HEADER with
        | Err msg => respond (invalid_id (s! "Mcp-Session-Id") msg)
        | Ok session_id =>
            match parse_session_id_header h MCP_LAST_EVENT_ID_HEADER with
            | Err msg => respond (invalid_id (s! "Mcp-Last-Event-Id") msg)
            | Ok last_event_id =>
                match session_id with
                | Some id => create_standalone_stream env id last_event_id auth
                | None => respond (bad_request_with (s! "Bad request: session not found"))
                end
            end
        end
    end.

Definition handle_http_delete (request : Request H Extra) : Answer :=
  let h := headers request in
  match validate_mcp_protocol_version_header parse_version h with
  | Err e => respond (invalid_version e)
  | Ok _ =>
      match parse_session_id_header h MCP_SESSION_ID_HEADER with
      | Err msg => respond (invalid_id (s! "Mcp-Session-Id") msg)
      | Ok (Some id) => delete_session id
      | Ok None => respond (bad_request_with (s! "Bad Request: Session not found"))
      end
  end.

Definition internal_handle_streamable_http (env : World -> World) read_line (request : Request H Extra) : Answer :=
  let auth := auth_info request in
  let request := set_auth request None in
  if bool_decide (method request = s! "GET") then handle_http_get env request auth
  else if bool_decide (method request = s! "POST") then handle_http_post read_line request auth
  else if bool_decide (method request = s! "DELETE") then handle_http_delete request
  else respond (error_response 405 (mkSdkError bad_request
         (Some ((s! "'") ++ method request ++ (s! "' is not a valid HTTP method for StreamableHTTP transport."))))).

Definition internal_handle_sse_message (request : Request H Extra) : Answer :=
  match query_param request (s! "sessionId") with
  | None => act_fail SessionIdMissing
  | Some session_id =>
      do o <- get_session session_id;
      match o with
      | None => act_fail (SessionIdInvalid session_id)
      | Some transmit =>
          fun w => match on_runtime transmit (ServerRuntime.consume_payload_string (body request)) w with
                   | (Ok _, w) => (Ok (mkResponse 202 hm_new (BText [])), w)
                   | (Err err, w) => (Err (StreamIoError (show_error err)), w)
                   end
      end
  end.

(** ** The entry points: the middlewares around a handler *)

Definition final (f : Request H Extra -> Answer) : Handler H Extra World := fun req w => Some (f req w).
Definition handle_streamable_http (middlewares : list (Middleware H Extra World)) env read_line : Handler H Extra World :=
  compose middlewares (final (internal_handle_streamable_http env read_line)).
Definition handle_sse_message (middlewares : list (Middleware H Extra World)) : Handler H Extra World :=
  compose middlewares (final internal_handle_sse_message).
Definition handle_sse_connection (middlewares : list (Middleware H Extra World)) (sse_message_endpoint : option str)
  : Handler H Extra World :=
  fun request => compose middlewares (final (fun _ => connect_sse sse_message_endpoint (auth_info request))) (set_auth request None).
(** The provider's own endpoints; the provider is the user's. *)
Definition handle_auth_requests (auth : option (Handler H Extra World)) : Handler H Extra World :=
  fun request w => match auth with
                   | None => Some (Err (HttpError (s! "Authentication is not supported by this server.")), w)
                   | Some handle_request => compose [] handle_request request w
                   end.
Definition handle_health (health_handler : option (Request H Extra -> Response H)) (default_status : str)
  (request : Request H Extra) : Response H :=
  match health_handler with
  | Some call => call request
  | None => into_json_response (BText default_status) 200
  end.

(** ** The spawned tasks *)

(** The first part of a stream's task: it starts the stream, or is over. *)
Definition begin_task (k : task) (w : World) : World :=
  match k with
  | StreamTask runtime transport stream_id payload =>
      match on_runtime runtime (ServerRuntime.start_stream transport stream_id payload) w with
      | (Ok _, w) => w
      | (Err _, w) => (on_runtime runtime (ServerRuntime.remove_transport stream_id transport) w).2
      end
  | SseTask runtime transport session_id =>
      match on_runtime runtime (ServerRuntime.start_stream transport DEFAULT_STREAM_ID None) w with
      | (Ok _, w) => w
      | (Err _, w) => set_store (delete (session_store w) session_id) w
      end
  | ReplayTask _ _ => w
  end.

(** The replay: what [events_after] answers is written to the transport
    without being stored again; errors are only logged. *)
Definition replay_task (events_after : str -> result (option EventStore.EventStoreEntry) str)
  (write_str : str -> Act Tr Dispatcher.TransportError unit) (transport : nat) (last_event_id : option str) (w : World) : World :=
  match (if resumable w then last_event_id else None) with
  | Some id =>
      match events_after id with
      | Ok (Some events) =>
          foldl (fun w m => match transports w !! transport with
                            | Some x => set_runtimes (runtimes w) (<[transport := (write_str m x).2]> (transports w)) w
                            | None => w end) w (EventStore.messages events)
      | _ => w
      end
  | None => w
  end.
End Handler.
End McpHttpHandler.

(** ** Facts *)

Module HttpHandlerFacts.

Section Headers.
Context {H : Type} `{HeaderMapLaws H}.
Implicit Types (h : H) (name value prefix v : str).

(** A media type list names a type. *)
Definition lists prefix value : Prop :=
  exists item rest, item ∈ split_char ","%char value /\ trim item = prefix ++ rest.

Lemma lists_type_spec prefix value : lists_type prefix value = true <-> lists prefix value.
Proof.
  unfold lists_type, lists. rewrite existsb_exists. setoid_rewrite <-list_elem_of_In. split.
  - intros (item & Hi & Hs). apply starts_with_spec in Hs as [rest Hr]. eauto.
  - intros (item & rest & Hi & Hr). exists item. split; [done|]. apply starts_with_spec. eauto.
Qed.

(** What an id header may hold: 1 to 128 printable characters. *)
Definition wf_id v : Prop := 0 < length v <= MAX_SESSION_ID_LEN /\ Forall (fun c => graphic c = true) v.
Definition id_header_ok h name : Prop := forall v, hm_get h name = Some v -> to_str h v = Some v /\ wf_id v.

Lemma graphic_visible v : Forall (fun c => graphic c = true) v -> Forall (fun c => visible c = true) v.
Proof.
  intros Hv. eapply Forall_impl; [exact Hv|]. intros c. unfold graphic, visible. rewrite andb_true_iff, orb_true_iff, andb_true_iff, !N.leb_le, N.ltb_lt. lia.
Qed.

Lemma is_valid_session_id_spec v : (is_valid_session_id v = Ok tt <-> wf_id v).
Proof.
  unfold is_valid_session_id, wf_id. destruct (bool_decide (v = [])) eqn:Ev.
  { apply bool_decide_eq_true in Ev as ->. split; [done|]. simpl. intros []; lia. }
  apply bool_decide_eq_false in Ev. assert (0 < length v) by (destruct v; [done|simpl; lia]).
  destruct (Nat.ltb_spec MAX_SESSION_ID_LEN (length v)); [split; [done|lia]|].
  assert (E : forallb (fun b => graphic b && negb (bool_decide (b = " "%char))) v = true <-> Forall (fun c => graphic c = true) v).
  { rewrite forallb_forall, Forall_forall. setoid_rewrite <-list_elem_of_In. split; intros Hg x Hx; specialize (Hg x Hx).
    - by apply andb_true_iff in Hg as [].
    - rewrite Hg. apply negb_true_iff, bool_decide_eq_false. by intros ->. }
  destruct (forallb _ v); simpl; split; try done.
  - intros _. split; [lia|]. by apply E.
  - intros [_ Hg]. by apply E in Hg.
Qed.

Lemma parse_session_id_header_spec h name :
  match parse_session_id_header h name with
  | Ok o => id_header_ok h name /\ o = get_str h name /\ o = hm_get h name
  | Err _ => ~ id_header_ok h name
  end.
Proof.
  unfold parse_session_id_header, id_header_ok, get_str. destruct (hm_get h name) as [v|]; simpl; [|done].
  destruct (to_str h v) as [s|] eqn:Es; [|intros K; destruct (K v eq_refl); congruence].
  destruct (to_str_spec h v s Es) as [-> _].
  destruct (is_valid_session_id s) as [[]|] eqn:Ev.
  - apply is_valid_session_id_spec in Ev. split; [|done]. by intros v [= <-].
  - intros K. destruct (K s eq_refl) as [_ Hw]. apply is_valid_session_id_spec in Hw. congruence.
Qed.
End Headers.

Section Handler.
Import McpHttpHandler.
Context {H : Type} `{HeaderMapLaws H} {Extra Details Tr St G RequestId Req Notif Resp Out : Type}.
Context `{!SessionStore nat St} `{!SessionStoreLaws nat St} `{!IdGenerator G}.
Context `{!TransportDispatcher RequestId (ServerRuntime.ClientMessage RequestId Req Notif Resp) Out Tr}.
Abbreviation World := (McpAppState.t Extra Details Tr St G).
Context (now : N) (encode : bytes -> str) (parse_value : str -> option Value)
  (parse_version : str -> result unit str) (tr_new : option (str * str) -> Tr).
Implicit Types (w : World) (h : H).

Definition version_ok h : Prop :=
  header_or_empty h MCP_PROTOCOL_VERSION_HEADER = [] \/
  parse_version (header_or_empty h MCP_PROTOCOL_VERSION_HEADER) = Ok tt.
Lemma version_spec h :
  match validate_mcp_protocol_version_header parse_version h with Ok _ => version_ok h | Err _ => ~ version_ok h end.
Proof.
  unfold validate_mcp_protocol_version_header, validate_mcp_protocol_version, version_ok.
  case_bool_decide as E; [by left|]. destruct (parse_version _) as [[]|e]; [by right|]. intros [?|?]; congruence.
Qed.

(** What the method handlers demand of a POST. *)
Definition acceptable_post h : Prop :=
  lists (s! "text/event-stream") (header_or_empty h ACCEPT) /\
  lists (s! "application/json") (header_or_empty h ACCEPT) /\
  lists (s! "application/json") (header_or_empty h CONTENT_TYPE) /\
  version_ok h /\ id_header_ok h MCP_SESSION_ID_HEADER.

(** The world apart from the bookkeeping of the session store. *)
Definition same_sessions w w' : Prop :=
  exists st, w' = set_store st w /\ valid st /\ forall k, holds st k = holds (session_store w) k.
Lemma get_session_spec id w : valid (session_store w) ->
  exists w', get_session now id w = (Ok (holds (session_store w) id), w') /\ same_sessions w w'.
Proof.
  intros Hv. unfold get_session. destruct (get_law now (session_store w) id Hv) as (G1 & G2 & G3).
  destruct (get now (session_store w) id) as [o st]. simpl in *. subst o. eexists. split; [done|]. by exists st.
Qed.

Lemma on_runtime_frame {A} i (f : Act (ServerRuntime.state Extra Details Tr) McpSdkError A) w :
  let w' := (on_runtime i f w).2 in
  session_store w' = session_store w /\ id_generator w' = id_generator w /\ stream_id_gen w' = stream_id_gen w /\
  resumable w' = resumable w /\ tasks w' = tasks w /\ enable_json_response w' = enable_json_response w.
Proof. cbn zeta. unfold on_runtime. destruct (runtimes w !! i) as [r|]; [|done]. by destruct (f _) as [a s]. Qed.

Lemma update_auth_spec i a w : exists rs, update_auth i a w = (Ok tt, set_runtimes rs (transports w) w).
Proof.
  unfold update_auth, on_runtime. destruct (runtimes w !! i) as [r|]; simpl; [by eexists|].
  exists (runtimes w). by destruct w.
Qed.

(** Opening the standalone stream waits until it is live. *)
Abbreviation live i w := (runtime_is i ServerRuntime.default_stream_exists w).
Lemma wait_spec i w :
  let '(res, w') := on_runtime i (ServerRuntime.wait_for_transport_ready (fun s => s)) w in
  if live i w then res = Ok tt /\ live i w' = true /\
                   forall r, runtimes w !! i = Some r ->
                     exists r', runtimes w' !! i = Some r' /\ ServerRuntime.transport_map r' = ServerRuntime.transport_map r
  else exists e, res = Err e.
Proof.
  unfold on_runtime, runtime_is. destruct (runtimes w !! i) as [r|] eqn:Hr; [|by eexists].
  unfold ServerRuntime.wait_for_transport_ready, act_bind. rewrite ServerRuntimeFacts.wait_at_once.
  set (s := ServerRuntime.mkState (transports w) r). rewrite ServerRuntimeFacts.default_stream_live.
  destruct (ServerRuntime.live_transport s) as [j|] eqn:El; [|by eexists]. cbn [is_some act_ret].
  split; [done|]. cbn [runtimes set_runtimes transports].
  rewrite list_lookup_insert_eq by (by eapply lookup_lt_Some). split; [|by intros r0 [= <-]; eexists].
  rewrite ServerRuntimeFacts.default_stream_live.
  by match goal with |- is_some ?x = true => change x with (ServerRuntime.live_transport s); rewrite El end.
Qed.

(** Neither new authentication nor a new transport changes whether it is. *)
Lemma live_update_auth i a w r : runtimes w !! i = Some r ->
  exists r', ServerRuntime.transport_map r' = ServerRuntime.transport_map r /\
    update_auth i a w = (Ok tt, set_runtimes (<[i := r']> (runtimes w)) (transports w) w).
Proof.
  intros Hr. exists (ServerRuntime.update_auth_info a r). split; [apply ServerRuntimeFacts.update_auth_map|].
  unfold update_auth, on_runtime. by rewrite Hr.
Qed.
Lemma live_ext i w w' r r' : runtimes w !! i = Some r -> runtimes w' !! i = Some r' ->
  ServerRuntime.transport_map r' = ServerRuntime.transport_map r ->
  (forall j, ServerRuntime.transport_map r = Some j -> transports w' !! j = transports w !! j) -> live i w' = live i w.
Proof.
  intros Hr Hr' Hm Ht. unfold runtime_is, ServerRuntime.default_stream_exists, ServerRuntime.shut_at. rewrite Hr, Hr'. cbn.
  rewrite Hm. destruct (ServerRuntime.transport_map r) as [j|]; [|done]. by rewrite Ht.
Qed.

Lemma response_session_id (v ct conn : bytes) :
  hm_get (with_headers (H := H) [(CONTENT_TYPE, ct); (MCP_SESSION_ID_HEADER, v); (CONNECTION, conn)]) MCP_SESSION_ID_HEADER = Some v.
Proof.
  unfold with_headers. cbn [foldl fst snd]. rewrite get_append, decide_False by discriminate.
  rewrite get_append, decide_True by done. by rewrite get_append, decide_False, get_new by discriminate.
Qed.

(** A new stream: a transport and the tasks for it, nothing else. *)
Lemma create_sse_stream_spec i id p (standalone : bool) last w b :
  match p with Some p => contains_request parse_value p | None => Some false end = Some b ->
  Forall (fun c => visible c = true) id ->
  exists sid g h, create_sse_stream (H := H) encode parse_value tr_new i id p standalone last w =
    (Ok (mkResponse (if b then 200 else 202)%N h (BStream (length (transports w)))),
     mk (session_store w) (id_generator w) g (enable_json_response w) (resumable w) (runtimes w)
        (transports w ++ [tr_new (if resumable w then Some (id, sid) else None)])
        (tasks w ++ [StreamTask i (length (transports w)) sid p; ReplayTask (length (transports w)) last])) /\
    hm_get h MCP_SESSION_ID_HEADER = Some id /\ (if standalone then sid = DEFAULT_STREAM_ID else True).
Proof.
  intros Hb Hid. unfold create_sse_stream. rewrite Hb.
  destruct standalone.
  - cbn [resumable transports spawn add_transport]. rewrite from_str_spec by done.
    eexists _, _, _. split; [unfold spawn, add_transport; cbn; by rewrite <-app_assoc|]. split; [|done].
    apply response_session_id.
  - destruct (FastIdGenerator.generate_id encode (stream_id_gen w)) as [sid g].
    cbn [resumable transports spawn add_transport set_stream_ids]. rewrite from_str_spec by done.
    eexists sid, g, _. split; [unfold spawn, add_transport, set_stream_ids; cbn; by rewrite <-app_assoc|]. split; [|done].
    apply response_session_id.
Qed.
End Handler.
End HttpHandlerFacts.

(** ** Claims *)

Import McpHttpHandler HttpHandlerFacts.
Section Claims.
Context {H : Type} `{HeaderMapLaws H} {Extra Details Tr St G RequestId Req Notif Resp Out : Type}.
Context `{!SessionStore nat St} `{!SessionStoreLaws nat St} `{!IdGenerator G}.
Abbreviation CM := (ServerRuntime.ClientMessage RequestId Req Notif Resp).
Context `{!TransportDispatcher RequestId CM Out Tr}.
Abbreviation World := (McpAppState.t Extra Details Tr St G).
Context (now : N) (encode : bytes -> str) (parse_value : str -> option Value) (parse_messages : str -> option (Messages CM))
  (is_initialize_request : CM -> bool) (parse_version : str -> result unit str) (show_error : McpSdkError -> str)
  (tr_new : option (str * str) -> Tr).
Abbreviation post read_line req auth w :=
  (handle_http_post (H := H) now encode parse_value parse_messages is_initialize_request parse_version show_error tr_new read_line req auth w).
Implicit Types (w : World) (req : Request H Extra).

Lemma post_checks read_line req auth w :
  (acceptable_post parse_version (headers req) /\
   post read_line req auth w =
     match get_str (headers req) MCP_SESSION_ID_HEADER with
     | Some id => if enable_json_response w then process_incoming_message_return now tr_new read_line id (body req) auth w
                  else process_incoming_message now encode parse_value show_error tr_new id (body req) auth w
     | None => match valid_initialize_method parse_messages is_initialize_request (body req) with
               | Ok _ => start_new_session now encode parse_value tr_new (body req) auth w
               | Err (ESdkError error) => respond (error_response 400 error) w
               | Err error => respond (bad_request_with (show_error error)) w
               end
     end) \/
  (~ acceptable_post parse_version (headers req) /\
   exists st e, post read_line req auth w = (Ok (error_response st e), w) /\ (400 <= st < 500)%N).
Proof.
  unfold handle_http_post, acceptable_post.
  destruct (valid_streaming_http_accept_header (headers req)) eqn:E1; cbn [negb]; unfold valid_streaming_http_accept_header in E1.
  2:{ right. split; [|by do 2 eexists]. rewrite <-!lists_type_spec. apply andb_false_iff in E1 as [E|E]; rewrite E; naive_solver. }
  apply andb_true_iff in E1 as [Ea Eb]. apply lists_type_spec in Ea, Eb.
  destruct (acceptable_content_type (headers req)) eqn:E2; cbn [negb]; unfold acceptable_content_type in E2.
  2:{ right. split; [|by do 2 eexists]. intros (_ & _ & K & _). apply lists_type_spec in K. congruence. }
  apply lists_type_spec in E2. pose proof (version_spec parse_version (headers req)) as Hv.
  destruct (validate_mcp_protocol_version_header parse_version (headers req)) as [[]|e].
  2:{ right. split; [naive_solver|]. by do 2 eexists. }
  pose proof (parse_session_id_header_spec (headers req) MCP_SESSION_ID_HEADER) as Hid.
  destruct (parse_session_id_header (headers req) MCP_SESSION_ID_HEADER) as [o|msg].
  2:{ right. split; [naive_solver|]. by do 2 eexists. }
  destruct Hid as (Hid & -> & _). left. split; [naive_solver|].
  destruct (get_str (headers req) MCP_SESSION_ID_HEADER); [done|].
  by destruct (valid_initialize_method parse_messages is_initialize_request (body req)) as [[]|[]].
Qed.

(** A payload that may not open a session: no message at all, a single message
    other than initialize, or a batch with more than one initialize request. *)
Definition opens_no_session (payload : str) : Prop :=
  match parse_messages payload with
  | None => True
  | Some (Dispatcher.Single m) => is_initialize_request m = false
  | Some (Dispatcher.Batch ms) => exists l1 m1 l2 m2 l3, ms = l1 ++ m1 :: l2 ++ m2 :: l3 /\
      is_initialize_request m1 = true /\ is_initialize_request m2 = true
  end.
Lemma opens_no_session_refused payload : opens_no_session payload ->
  exists e, valid_initialize_method parse_messages is_initialize_request payload = Err (ESdkError e).
Proof.
  unfold opens_no_session, valid_initialize_method. destruct (parse_messages payload) as [[m|ms]|]; [intros ->; by eexists| |by eexists].
  intros (l1 & m1 & l2 & m2 & l3 & -> & Hm1 & Hm2). rewrite (proj2 (Nat.ltb_lt _ _)); [by eexists|].
  rewrite List.filter_app, length_app. cbn [List.filter]. rewrite Hm1. cbn [length]. rewrite List.filter_app, length_app.
  cbn [List.filter]. rewrite Hm2. cbn [length]. lia.
Qed.

(** A message for a session that exists. *)
Lemma session_found id (i : nat) (auth : option (AuthInfo Extra)) w : valid (session_store w) -> holds (session_store w) id = Some i ->
  exists (st : St) (rs : list (ServerRuntime.t Extra Details)), valid st /\ (forall k, holds st k = holds (session_store w) k) /\
    (forall A (k : option nat -> Act World McpHttpError A),
      (do o <- get_session now id; k o) w = k (Some i) (set_store st w)) /\
    forall B (f : Act World McpHttpError B),
      (do _ <- update_auth i auth; f) (set_store st w) = f (set_runtimes rs (transports w) (set_store st w)).
Proof.
  intros Hv Hk. destruct (get_session_spec now id w Hv) as (w1 & Hg & st & -> & Hvs & Hs).
  destruct (update_auth_spec i auth (set_store st w)) as [rs Hu]. exists st, rs. split; [done|]. split; [done|].
  unfold act_bind. split; [intros A k; by rewrite Hg, Hk|]. intros B f. by rewrite Hu.
Qed.
Lemma acceptable_id h id : acceptable_post parse_version h -> get_str h MCP_SESSION_ID_HEADER = Some id ->
  Forall (fun c => visible c = true) id.
Proof.
  intros (_ & _ & _ & _ & K) Hid. unfold get_str in Hid. destruct (hm_get _ _) as [v|] eqn:Ev; [|done].
  destruct (K v Ev) as [Kv [_ Kg]]. simpl in Hid. rewrite Kv in Hid. simplify_eq. by apply graphic_visible.
Qed.


(** C6. The life of a session.  When the store is not full, an initialize
    request creates a session under the next id of the generator: the answer carries the id in its
    header, the store finds under it a new runtime with the caller's
    authentication, and the other sessions stay or were evicted for being idle;
    when it is full the answer is 503 and nothing is created.  Deleting a
    session drops its standalone stream and its entry and no other; afterwards
    messages to it and a second deletion are answered with 404 and its stream
    cannot be opened. *)
Theorem session_lifecycle w (payload : str) auth (id : str) g :
  valid (session_store w) -> generate (id_generator w) = (id, g) -> Forall (fun c => visible c = true) id ->
  (forall b, contains_request parse_value payload = Some b ->
     let '(res, w') := start_new_session (H := H) now encode parse_value tr_new payload auth w in
     if (is_full now (session_store w)).1 then
       res = Ok full_response /\ runtimes w' = runtimes w /\ tasks w' = tasks w /\
       forall k, holds (session_store w') k = holds (session_store w) k \/ holds (session_store w') k = None
     else
       (exists h, res = Ok (mkResponse (if b then 200 else 202)%N h (BStream (length (transports w)))) /\
                  hm_get h MCP_SESSION_ID_HEADER = Some id) /\
       holds (session_store w') id = Some (length (runtimes w)) /\
       runtimes w' = runtimes w ++ [ServerRuntime.new_instance id auth] /\
       (exists sid, tasks w' = tasks w ++ [StreamTask (length (runtimes w)) (length (transports w)) sid (Some payload);
                                           ReplayTask (length (transports w)) None]) /\
       forall k, k <> id -> holds (session_store w') k = holds (session_store w) k \/ holds (session_store w') k = None) /\
  (forall sid i r, holds (session_store w) sid = Some i -> runtimes w !! i = Some r ->
     exists resp w', delete_session (H := H) now sid w = (Ok resp, w') /\ status resp = 200%N /\
       (forall k, holds (session_store w') k = if decide (sid = k) then None else holds (session_store w) k) /\
       (exists r', runtimes w' !! i = Some r' /\ ServerRuntime.transport_map r' = None) /\
       (process_incoming_message (H := H) now encode parse_value show_error tr_new sid payload auth w').1 = Ok not_found_response /\
       (delete_session (H := H) now sid w').1 = Ok not_found_response /\
       forall env last, (create_standalone_stream (H := H) now encode parse_value show_error tr_new env sid last auth w').1
                        = Err (SessionIdInvalid sid)).
Proof.
  intros Hv Hg Hid. split.
  - intros b Hb. unfold start_new_session. destruct (is_full_law now (session_store w) Hv) as [Hv' Hf].
    destruct (is_full now (session_store w)) as [full st]. cbn [fst snd] in *. destruct full; [done|].
    cbn [id_generator set_store]. rewrite Hg. cbn [runtimes set_ids set_store].
    set (w1 := add_runtime _ _).
    destruct (create_sse_stream_spec encode parse_value tr_new (length (runtimes w)) id (Some payload) false None w1 b Hb Hid)
      as (sid & g' & h & -> & Hh & _).
    destruct (set_law now st id (length (runtimes w)) Hv') as [_ Hs]. cbn. split_and!; try done.
    + by exists h.
    + by rewrite Hs, decide_True.
    + by exists sid.
    + intros k Hk. rewrite Hs, decide_False by done. apply Hf.
  - intros sid i r Hh Hr.
    destruct (get_session_spec now sid w Hv) as (w1 & Hgs & st & -> & Hvs & Hs).
    unfold delete_session at 1, act_bind. rewrite Hgs, Hh. unfold on_runtime at 1. cbn [runtimes set_store]. rewrite Hr.
    set (s := ServerRuntime.shutdown _). cbn [set_store session_store set_runtimes].
    destruct (delete_law st sid Hvs) as [Hvd Hd]. eexists _, _. split; [done|]. split; [done|]. split; [|split].
    + intros k. cbn. rewrite Hd. by case_decide.
    + cbn. exists (ServerRuntime.rt s). split; [apply list_lookup_insert_eq; by eapply lookup_lt_Some|].
      exact (ServerRuntimeFacts.apply_map (ServerRuntime.mkState (transports w) r) ServerRuntimeFacts.OShutdown).
    + match goal with |- context [process_incoming_message _ _ _ _ _ _ _ _ ?w'] =>
        destruct (get_session_spec now sid w' Hvd) as (w2 & Hg2 & _); assert (Hn : holds (session_store w') sid = None) end.
      { cbn. by rewrite Hd, decide_True. }
      rewrite Hn in Hg2. unfold process_incoming_message, delete_session, create_standalone_stream, act_bind.
      rewrite Hg2. done.
Qed.

(** C13. Opening the standalone stream.  A GET that comes while a live one exists
    is answered with 409 and opens nothing.  Otherwise a stream is made and tasks
    spawned to run it and to replay what follows the client's last event id; the
    answer is given only once the runtime has a live stream, and it is an error
    if none comes.  When the task spawned for this GET is what runs meanwhile and
    it starts the stream, the answer is 200 with that stream, and it is the
    session's current one.  (Of two GETs that are both checked before either
    stream is stored both are accepted, [two_gets_accepted]: that only one is
    answered is not claimed.) *)
Theorem one_standalone_stream w env (id : str) last auth i r :
  valid (session_store w) -> holds (session_store w) id = Some i -> runtimes w !! i = Some r ->
  (forall j, ServerRuntime.transport_map r = Some j -> j < length (transports w)) ->
  Forall (fun c => visible c = true) id ->
  let get_stream env w := create_standalone_stream (H := H) now encode parse_value show_error tr_new env id last auth w in
  let t := length (transports w) in
  let live w := runtime_is i ServerRuntime.default_stream_exists w in
  (live w = true -> exists e w', get_stream env w = (Ok (error_response 409 e), w') /\ tasks w' = tasks w /\ transports w' = transports w) /\
  (live w = false ->
     let w1 := ((do _ <- get_session now id; do _ <- update_auth i auth;
                 create_sse_stream (H := H) encode parse_value tr_new i id None true last) w).2 in
     tasks w1 = tasks w ++ [StreamTask i t DEFAULT_STREAM_ID None; ReplayTask t last] /\
     transports w1 = transports w ++ [tr_new (if resumable w then Some (id, DEFAULT_STREAM_ID) else None)] /\
     (forall resp w', get_stream env w = (Ok resp, w') ->
        status resp = 200%N /\ resp_body resp = BStream t /\ live w' = true) /\
     (live (env w1) = false -> exists e w', get_stream env w = (Err (HttpError e), w')) /\
     (forall w2, on_runtime i (ServerRuntime.start_stream t DEFAULT_STREAM_ID None) w1 = (Ok tt, w2) -> live w2 = true ->
        exists resp w' r', get_stream (begin_task (StreamTask i t DEFAULT_STREAM_ID None)) w = (Ok resp, w') /\
          status resp = 200%N /\ resp_body resp = BStream t /\
          runtimes w' !! i = Some r' /\ ServerRuntime.transport_map r' = Some t)).
Proof.
  intros Hv Hh Hr Hwf Hid get_stream t live.
  destruct (get_session_spec now id w Hv) as (w0 & Hg & st & -> & Hvs & Hs).
  destruct (live_update_auth i auth (set_store st w) r Hr) as (r0 & Hm0 & Hu).
  set (wa := set_runtimes (<[i := r0]> (runtimes (set_store st w))) (transports (set_store st w)) (set_store st w)) in Hu.
  assert (Ha : runtimes wa !! i = Some r0) by (apply list_lookup_insert_eq; by eapply lookup_lt_Some).
  assert (La : live wa = live w) by (by apply (live_ext _ w wa r r0)).
  assert (E : forall env, get_stream env w =
    (if live wa then respond (error_response 409 (mkSdkError bad_request (Some (s! "Only one SSE stream is allowed per session"))))
     else do response <- create_sse_stream (H := H) encode parse_value tr_new i id None true last;
        fun w =>
          let w := if live w then w else env w in
          match on_runtime i (ServerRuntime.wait_for_transport_ready (fun s => s)) w with
          | (Ok _, w) => (Ok (mkResponse 200 (resp_headers response) (resp_body response)), w)
          | (Err err, w) => (Err (HttpError ((s! "Failed waiting for transport readiness: ") ++ show_error err)), w)
          end) wa).
  { intros env'. unfold get_stream, create_standalone_stream, act_bind at 1. rewrite Hg, Hh. unfold act_bind at 1. by rewrite Hu. }
  rewrite La in E. split; [intros Hl; rewrite E, Hl; by do 2 eexists|]. intros Hl. rewrite Hl in E.
  destruct (create_sse_stream_spec encode parse_value tr_new i id None true last wa false eq_refl Hid) as (sid & g & h & Hc & _ & ->).
  set (w1 := mk _ _ _ _ _ _ _ _) in Hc.
  assert (L1 : live w1 = false).
  { rewrite <-Hl, <-La. apply (live_ext _ wa w1 r0 r0); [done..|]. intros j Hj. apply lookup_app_l, Hwf. congruence. }
  assert (E1 : forall env, get_stream env w =
    match on_runtime i (ServerRuntime.wait_for_transport_ready (fun s => s)) (env w1) with
    | (Ok _, w) => (Ok (mkResponse 200 h (BStream t)), w)
    | (Err err, w) => (Err (HttpError ((s! "Failed waiting for transport readiness: ") ++ show_error err)), w)
    end) by (intros env'; rewrite E; unfold act_bind; by rewrite Hc, L1).
  assert (((do _ <- get_session now id; do _ <- update_auth i auth;
            create_sse_stream (H := H) encode parse_value tr_new i id None true last) w).2 = w1) as ->.
  { unfold act_bind. by rewrite Hg, Hu, Hc. }
  split; [done|]. split; [done|]. split_and!.
  - intros resp w'. rewrite E1. pose proof (wait_spec i (env w1)) as Hw.
    destruct (on_runtime i _ (env w1)) as [res w2]. destruct (runtime_is i _ (env w1)).
    + destruct Hw as (-> & Hlive & _). by intros [= <- <-].
    + by destruct Hw as [e ->].
  - intros Hd. rewrite E1. pose proof (wait_spec i (env w1)) as Hw. destruct (on_runtime i _ (env w1)) as [res w2].
    unfold live in Hd. rewrite Hd in Hw. destruct Hw as [e ->]. by do 2 eexists.
  - intros w2 Hst Hd. rewrite E1. unfold begin_task. rewrite Hst. pose proof (wait_spec i w2) as Hw.
    destruct (on_runtime i _ w2) as [res w3]. unfold live in Hd. rewrite Hd in Hw. destruct Hw as (-> & _ & Hm).
    revert Hst. unfold on_runtime. rewrite (Ha : runtimes w1 !! i = Some r0).
    destruct (ServerRuntime.start_stream _ _ _ _) as [[[]|e] s'] eqn:Es; [|done]. intros [= <-].
    apply ServerRuntimeFacts.start_stream_map in Es.
    destruct (Hm (ServerRuntime.rt s')) as (r' & Hr' & Hmr).
    { apply list_lookup_insert_eq. by eapply lookup_lt_Some. }
    eexists _, _, r'. split; [done|]. split_and!; try done. by rewrite Hmr.
Qed.
End Claims.

(** The authentication of an SSE connection is taken from the request before
    the middlewares run, so what the authentication middleware verifies does
    not reach the session. *)
Lemma sse_auth_lost {H} `{HeaderMap H} {Extra Details Tr St G : Type} `{!SessionStore nat St} `{!IdGenerator G}
  (p : AuthProvider (McpAppState.t Extra Details Tr St G)) error_code error_text now time tr_new endpoint
  (request : Request H Extra) w w' info :
  auth_info request = None -> validate p time (headers request) w = Some (Ok info, w') ->
  handle_sse_connection now tr_new [auth_handle error_code error_text p time] endpoint request w
  = Some (connect_sse now tr_new endpoint None w').
Proof.
  intros Ha Hv. unfold handle_sse_connection, compose. cbn [rev app foldl]. unfold auth_handle, set_auth. cbn [headers].
  rewrite Hv. cbn. unfold final. by rewrite Ha.
Qed.

(** An error response of the client is not a result: it gets a stream of its
    own instead of going to the stream that waits for it. *)
Lemma error_response_misrouted (from_json : str -> option Value) payload fields :
  from_json payload = Some (VObject fields) -> contains_key fields (s! "error") = true ->
  contains_key fields (s! "result") = false -> contains_key fields (s! "method") = false ->
  is_result from_json payload = Some false /\ contains_request from_json payload = Some false.
Proof.
  intros Hj _ Hr Hm. unfold is_result, contains_request. rewrite Hj. unfold is_object_with.
  cbn [mbind option_bind forallb]. rewrite Hr, Hm. by destruct (contains_key fields (s! "id")).
Qed.

(** A batch without an initialize request counts as a valid one. *)
Lemma batch_without_initialize {CM} (from_json : str -> option (Messages CM)) is_init payload ms :
  from_json payload = Some (Dispatcher.Batch ms) -> Forall (fun m => is_init m = false) ms ->
  valid_initialize_method from_json is_init payload = Ok tt.
Proof.
  intros Hj Hf. unfold valid_initialize_method. rewrite Hj.
  assert (List.filter is_init ms = []) as ->; [|done]. clear Hj. induction Hf as [|m ms Hm _ IH]; [done|]. cbn. by rewrite Hm.
Qed.

(** ** A server on which the claims are tried *)

Module Demo.
Import ServerRuntime.Demo.
Definition hash (k : str) : N := N.of_nat (length k).
#[global] Instance demo_sessions : SessionStore nat (InMemorySessionStore.t nat) := InMemorySessionStore.store_instance hash.
#[global] Instance demo_sessions_laws : SessionStoreLaws nat (InMemorySessionStore.t nat) := SessionStoreFacts.in_memory_laws hash.
Definition encode (b : bytes) : str := show_N (N.of_nat (length b)).
#[global] Instance demo_ids : IdGenerator FastIdGenerator.t := { generate := FastIdGenerator.generate_id encode }.
Abbreviation world := (McpAppState.t unit unit transport (InMemorySessionStore.t nat) FastIdGenerator.t).
Definition parse_value (s : str) : option Value :=
  Some (VObject (if bool_decide (s = s! "init") then [(s! "id", VOther); (s! "method", VOther)] else [])).
Definition parse_messages (_ : str) : option (Messages cm) := Some (Dispatcher.Single (ServerRuntime.Request 0 true)).
Definition new_transport (o : option (str * str)) : transport :=
  match o with
  | Some (se, st) => Transport.SseTransport.make_resumable se st EventStore.InMemoryEventStore.default fresh
  | None => fresh
  end.
(** One session "s1" whose standalone stream is not open. *)
Definition demo : world :=
  McpAppState.mk (InMemorySessionStore.set_session hash 5 (InMemorySessionStore.with_limits (Some 5%N) None) (s! "s1") 0)
    (FastIdGenerator.new (Some (s! "id-"))) (FastIdGenerator.new (Some (s! "st-"))) false true
    [ServerRuntime.new_instance (s! "s1") None] [] [].
Definition request : Request ListHeaders.t unit :=
  mkRequest (s! "POST") None [(ACCEPT, s! "text/event-stream, application/json"); (CONTENT_TYPE, s! "application/json");
    (MCP_SESSION_ID_HEADER, s! "s1")] (s! "init") None.

Lemma demo_valid : valid (session_store demo).
Proof. reflexivity. Qed.
Lemma request_ok parse_version : acceptable_post parse_version (headers request).
Proof.
  unfold acceptable_post. rewrite <-!lists_type_spec. split_and!; [reflexivity..|by left|].
  intros v [= <-]. split; [reflexivity|]. split; [unfold MAX_SESSION_ID_LEN; simpl; lia|]. repeat constructor.
Qed.
End Demo.
Import ServerRuntime.Demo Demo.

(** Whether a stream is live is checked before the new one is stored: a second
    GET that arrives in between is accepted too, and both are answered with 200
    and a stream, of which the session keeps one. *)
Lemma two_gets_accepted :
  let get env := create_standalone_stream (H := ListHeaders.t) 5 encode parse_value (fun _ => []) new_transport env (s! "s1") None None in
  let second w := get (begin_task (StreamTask 0 1 DEFAULT_STREAM_ID None)) w in
  let checked := (create_sse_stream (H := ListHeaders.t) encode parse_value new_transport 0 (s! "s1") None true None demo).2 in
  let answer (p : result (Response ListHeaders.t) McpHttpError * world) := match p.1 with Ok r => Some (status r, resp_body r) | Err _ => None end in
  answer (second checked) = Some (200%N, BStream 1) /\
  answer (get (fun w => (second w).2) demo) = Some (200%N, BStream 0).
Proof. vm_compute. split; reflexivity. Qed.


Lemma session_lifecycle_witness :
  (exists w', delete_session (H := ListHeaders.t) 5 (s! "s1") demo = (Ok (mkResponse 200 (with_headers [(CONTENT_TYPE, s! "application/json")]) (BText (s! "ok"))), w') /\
    (delete_session (H := ListHeaders.t) 5 (s! "s1") w').1 = Ok not_found_response) /\
  holds (session_store (start_new_session (H := ListHeaders.t) 5 encode parse_value new_transport (s! "init") None demo).2) (s! "id-8") = Some 1.
Proof.
  assert (Hid : Forall (fun c => visible c = true) (s! "id-8")) by (repeat constructor).
  assert (Eg : generate (id_generator demo) = (s! "id-8", (generate (id_generator demo)).2)) by reflexivity.
  destruct (session_lifecycle (H := ListHeaders.t) 5 encode parse_value (fun _ => []) new_transport demo (s! "init") None (s! "id-8") _
    demo_valid Eg Hid) as [C D].
  split.
  - destruct (D (s! "s1") 0 (ServerRuntime.new_instance (s! "s1") None)) as (resp & w' & E & _ & _ & _ & _ & Hn & _);
      [vm_compute; reflexivity..|]. exists w'. split; [|exact Hn]. rewrite E. f_equal.
    assert (E2 : fst (delete_session (H := ListHeaders.t) 5 (s! "s1") demo) = Ok resp) by (by rewrite E).
    rewrite <-E2. vm_compute. reflexivity.
  - specialize (C true eq_refl). revert C. destruct (start_new_session _ _ _ _ _ _ demo) as [res w'].
    assert ((is_full 5 (session_store demo)).1 = false) as -> by (vm_compute; reflexivity). intros (_ & Hh & _). exact Hh.
Defined.

Lemma one_standalone_stream_witness :
  exists resp w' r', create_standalone_stream (H := ListHeaders.t) 5 encode parse_value (fun _ => []) new_transport
      (begin_task (StreamTask 0 0 DEFAULT_STREAM_ID None)) (s! "s1") (Some (s! "e1")) None demo = (Ok resp, w') /\
    status resp = 200%N /\ runtimes w' !! 0 = Some r' /\ ServerRuntime.transport_map r' = Some 0.
Proof.
  assert (Hid : Forall (fun c => visible c = true) (s! "s1")) by (repeat constructor).
  pose proof (proj2 (one_standalone_stream (H := ListHeaders.t) 5 encode parse_value (fun _ => []) new_transport demo (fun w => w)
    (s! "s1") (Some (s! "e1")) None 0 (ServerRuntime.new_instance (s! "s1") None) demo_valid eq_refl eq_refl ltac:(discriminate) Hid) eq_refl) as L.
  cbv zeta in L. destruct L as (_ & _ & _ & _ & L). set (w1 := (act_bind _ _ demo).2) in L.
  set (w2 := (on_runtime 0 (ServerRuntime.start_stream 0 DEFAULT_STREAM_ID None) w1).2).
  destruct (L w2) as (resp & w' & r' & E & Hs & _ & Hr & Hm); [vm_compute; reflexivity..|].
  exists resp, w', r'. split; [exact E|]. split; [exact Hs|]. split; [exact Hr|exact Hm].
Defined.
