(* ===== verification/ClientRuntime.v ===== *)
(** * The client runtime

    Models crates/rust-mcp-sdk/src/mcp_runtimes/client_runtime.rs:
    [ClientRuntime], its reconnection loop for the standalone stream and its
    implementation of [McpClient].

    As in the server runtime a transport is a number in a heap.  What the
    runtime needs of it is the class [ClientTransport]: sending is split at the
    point where the sender waits, since the runtime handles what arrives then.
    Making a transport takes the next answer of the network [Net]; what other
    tasks do at an await is a function on the state. *)
From S2P Require Import Prelude RustStr IdGen Dispatcher Transport Auth TaskStore ServerRuntime Requests.

(** What a stream yields next: an item, nothing yet, or its end. *)
Inductive next (A : Type) := Item (a : A) | Idle | Closed.
Arguments Item {A} a. Arguments Idle {A}. Arguments Closed {A}.

Class ClientTransport (RequestId In Out Net Tr : Type) := {
  Receivers : Type; (* the channels a sent message waits on *)
  ct_new : option str -> bool -> Act Net TransportError Tr; (* session id, standalone *)
  ct_start : Act Tr TransportError unit;
  ct_write : Messages Out -> Act Tr TransportError Receivers;
  ct_waits : Receivers -> bool;
  ct_await : option N -> Receivers -> Act Tr TransportError (option (Messages In));
  ct_next : Tr -> next (Messages In) * Tr;
  ct_deliver : RequestId -> In -> Tr -> option bool * Tr;
  ct_session_id : Tr -> option str;
  ct_shut_down : Act Tr TransportError unit;
}.

Module ClientRuntime.
Section Runtime.
Context {RequestId Req Notif Resp Out MessageFromClient ResultFromClient Details Net Tr U : Type}.

Inductive ServerMessage :=
| Request (id : RequestId) (r : Req)
| Notification (n : Notif)
| Response (id : RequestId) (r : Resp)
| ErrorMessage (id : option RequestId) (e : RpcError).

Context `{!ClientTransport RequestId ServerMessage Out Net Tr}.

(** [struct ClientRuntime]; [has_options] is [transport_options.is_some()]. *)
Record t := mk {
  transport_map : option nat;
  request_id_gen : RequestIdGenNumeric.t;
  stream_id_gen : FastIdGenerator.t;
  has_options : bool;
  shut : bool; (* is_shut_down *)
  session_id : option str;
  server_details : option Details;
  handlers : nat; (* running tasks *)
}.
(** The transports, the network, the runtime, the sleeps in milliseconds,
    and what the user's handlers keep. *)
Record state := mkState { heap : list Tr; net : Net; rt : t; sleeps : list N; user : U }.
Abbreviation M := (Act state McpSdkError).

Definition STREAM_PREFIX : str := s! "s_".
Definition new (transport : nat) : t :=
  mk (Some transport) (RequestIdGenNumeric.new None) (FastIdGenerator.new (Some STREAM_PREFIX)) false false None None 0.
Definition new_instance : t :=
  mk None (RequestIdGenNumeric.new None) (FastIdGenerator.new (Some STREAM_PREFIX)) true false None None 0.

Definition with_rt (f : t -> t) (s : state) : state := mkState (heap s) (net s) (f (rt s)) (sleeps s) (user s).
Definition set_map (m : option nat) (r : t) : t :=
  mk m (request_id_gen r) (stream_id_gen r) (has_options r) (shut r) (session_id r) (server_details r) (handlers r).
Definition set_gen (g : RequestIdGenNumeric.t) (r : t) : t :=
  mk (transport_map r) g (stream_id_gen r) (has_options r) (shut r) (session_id r) (server_details r) (handlers r).
Definition set_stream_gen (g : FastIdGenerator.t) (r : t) : t :=
  mk (transport_map r) (request_id_gen r) g (has_options r) (shut r) (session_id r) (server_details r) (handlers r).
Definition set_shut (b : bool) (r : t) : t :=
  mk (transport_map r) (request_id_gen r) (stream_id_gen r) (has_options r) b (session_id r) (server_details r) (handlers r).
Definition set_session (se : option str) (r : t) : t :=
  mk (transport_map r) (request_id_gen r) (stream_id_gen r) (has_options r) (shut r) se (server_details r) (handlers r).
Definition set_details (d : option Details) (r : t) : t :=
  mk (transport_map r) (request_id_gen r) (stream_id_gen r) (has_options r) (shut r) (session_id r) d (handlers r).
Definition set_handlers (n : nat) (r : t) : t :=
  mk (transport_map r) (request_id_gen r) (stream_id_gen r) (has_options r) (shut r) (session_id r) (server_details r) n.

(** A method of the transport numbered [i]. *)
Definition on_transport {A} (i : nat) (f : Act Tr TransportError A) : M A :=
  fun s => match heap s !! i with
           | None => (Err (ETransport (Internal (s! "no such transport"))), s)
           | Some x => let '(r, x) := f x in
                       ((match r with Ok a => Ok a | Err e => Err (ETransport e) end),
                        mkState (<[i := x]> (heap s)) (net s) (rt s) (sleeps s) (user s))
           end.

Definition set_server_details (d : Details) : M unit := act_modify (with_rt (set_details (Some d))).
Definition server_info (s : state) : option Details := server_details (rt s).
Definition is_shut_down (s : state) : bool := shut (rt s).

Definition TRANSPORT_CLOSED : McpSdkError :=
  ERpcError (mkRpcError internal_error (Some (s! "transport stream does not exists or is closed!"))).
(** [store_transport]; the stream id is only traced. *)
Definition store_transport (stream_id : str) (transport : nat) : M unit := act_modify (with_rt (set_map (Some transport))).

Definition new_transport (session : option str) (standalone : bool) : M nat :=
  fun s =>
    if negb (has_options (rt s)) then (Err (ESdkError (mkSdkError connection_closed None)), s)
    else match ct_new session standalone (net s) with
         | (Ok x, n) => (Ok (length (heap s)), mkState (heap s ++ [x]) n (rt s) (sleeps s) (user s))
         | (Err e, n) => (Err (ETransport e), mkState (heap s) n (rt s) (sleeps s) (user s))
         end.

(** ** Handling messages *)

(** [ClientMessage::from_message]; the user's [McpClientHandler]. *)
Context (from_message : MessageFromClient -> option Z -> result Out RpcError).
Context (answer_message : ResultFromClient + RpcError -> RequestId -> result Out RpcError).
Context (handle_request : RequestId -> Req -> Act state RpcError ResultFromClient).
Context (handle_notification : Notif -> M unit) (handle_error : RpcError -> M unit).

Definition deliver_response (transport : nat) (id : RequestId) (m : ServerMessage) : M unit :=
  fun s => match heap s !! transport with
           | None => (Ok tt, s)
           | Some x =>
               let '(o, x) := ct_deliver id m x in
               ((match o with
                 | Some false => Err (ERpcError (mkRpcError internal_error None)) (* with the message's text *)
                 | _ => Ok tt
                 end), mkState (<[transport := x]> (heap s)) (net s) (rt s) (sleeps s) (user s))
           end.
Definition handle_message (message : ServerMessage) (transport : nat) : M (option Out) :=
  match message with
  | Request request_id r =>
      fun s =>
        let '(result, s) := handle_request request_id r s in
        let response := match result with Ok v => inl v | Err e => inr e end in
        (do m <- lift_rpc (answer_message response request_id); act_ret (Some m)) s
  | Notification n => do _ <- handle_notification n; act_ret None
  | ErrorMessage id e =>
      do _ <- handle_error e;
      match id with
      | Some request_id => do _ <- deliver_response transport request_id message; act_ret None
      | None => act_ret None
      end
  | Response id r => do _ <- deliver_response transport id message; act_ret None
  end.

(** [transport.send_message] of messages without requests, and with some: what
    runs while it waits is [env]. *)
Definition send_message (i : nat) (messages : Messages Out) (timeout : option N) (env : state -> state)
  : M (option (Messages ServerMessage)) :=
  do rx <- on_transport i (ct_write messages);
  fun s => on_transport i (ct_await timeout rx) (if ct_waits rx then env s else s).

(** Handling one item of a stream and sending the answers; a batch's handlers
    are joined, the first one that fails stopping the others. *)
Definition handle_item (m : Messages ServerMessage) (transport : nat) : M unit :=
  match m with
  | Dispatcher.Single m =>
      do result <- handle_message m transport;
      match result with
      | Some result => do _ <- send_message transport (Dispatcher.Single result) None (fun s => s); act_ret tt
      | None => act_ret tt
      end
  | Batch ms =>
      do results <- act_map (fun m => handle_message m transport) ms;
      match omap (fun x => x) results with
      | [] => act_ret tt
      | results => do _ <- send_message transport (Batch results) None (fun s => s); act_ret tt
      end
  end.

(** ** One exchange over streamable HTTP *)

(** The receive task: it handles the first item unless the stream is the
    standalone one; [None] is the panic of a [select!] without branches, when
    the stream has ended.  A failed handler ends it. *)
Fixpoint receive_task (fuel : nat) (transport : nat) (stream_id : str) (s : state) : option state :=
  match fuel with
  | O => Some s
  | S fuel =>
      match heap s !! transport with
      | None => Some s
      | Some x =>
          match ct_next x with
          | (Idle, _) => Some s
          | (Closed, _) => None
          | (Item m, x) =>
              match handle_item m transport (mkState (<[transport := x]> (heap s)) (net s) (rt s) (sleeps s) (user s)) with
              | (Err _, s) => Some s
              | (Ok _, s) => if negb (bool_decide (stream_id = DEFAULT_STREAM_ID)) then Some s
                             else receive_task fuel transport stream_id s
              end
          end
      end
  end.

Context (encode : bytes -> str) (is_request : Out -> bool).
Definition has_request (messages : Messages Out) : bool :=
  match messages with Dispatcher.Single m => is_request m | Batch ms => existsb is_request ms end.
Definition generate_stream_id (s : state) : str * state :=
  let '(id, g) := FastIdGenerator.generate_id encode (stream_id_gen (rt s)) in (id, with_rt (set_stream_gen g) s).

(** The end of the send task: the response, and the session id the server chose. *)
Definition finish_send (i : nat) (no_session_id : bool) (timeout : option N) (rx : Receivers) : M (option (Messages ServerMessage)) :=
  do result <- on_transport i (ct_await timeout rx);
  do _ <- act_modify (fun s =>
    if no_session_id then
      match heap s !! i ≫= ct_session_id with
      | Some id => with_rt (set_session (Some id)) s
      | None => s
      end
    else s);
  act_ret result.
Definition start_stream (messages : Messages Out) (timeout : option N) (s : state)
  : option (result (option (Messages ServerMessage)) McpSdkError * state) :=
  let '(stream_id, s) := generate_stream_id s in
  let session := session_id (rt s) in
  let no_session_id := negb (is_some session) in
  match (do i <- new_transport session false; do _ <- on_transport i ct_start; act_ret i) s with
  | (Err e, s) => Some (Err e, s)
  | (Ok i, s) =>
      match on_transport i (ct_write messages) s with
      | (Err e, s) => Some (Err e, s)
      | (Ok rx, s) =>
          if negb (has_request messages) then Some (finish_send i no_session_id timeout rx s)
          else s ← receive_task 1 i stream_id s; Some (finish_send i no_session_id timeout rx s)
      end
  end.

(** ** [McpClient] *)

Context (is_request_fc is_notification_fc : MessageFromClient -> bool).
Context (as_single : Messages ServerMessage -> result ServerMessage SdkError).
Context (as_batch : Messages ServerMessage -> result (list ServerMessage) SdkError).
Definition convert {A} (f : Messages ServerMessage -> result A SdkError) (response : option (Messages ServerMessage)) : M (option A) :=
  match response with
  | None => act_ret None
  | Some r => match f r with Ok a => act_ret (Some a) | Err e => act_fail (ESdkError e) end
  end.
Definition then_convert {A} (f : Messages ServerMessage -> result A SdkError)
  (o : option (result (option (Messages ServerMessage)) McpSdkError * state)) : option (result (option A) McpSdkError * state) :=
  '(r, s) ← o; Some (match r with Ok r => convert f r s | Err e => (Err e, s) end).

(** [send]; [env] runs while it waits on the transport that [new] was given. *)
Definition send (env : state -> state) (message : MessageFromClient) (request_id : option Z) (timeout : option N) (s : state)
  : option (result (option ServerMessage) McpSdkError * state) :=
  if negb (has_options (rt s)) && negb (is_some (transport_map (rt s))) then Some (Err TRANSPORT_CLOSED, s)
  else
    '(outgoing_request_id, g) ← RequestIdGenNumeric.request_id_for_message
        (is_request_fc message) (is_notification_fc message) request_id (request_id_gen (rt s));
    let s := with_rt (set_gen g) s in
    match from_message message outgoing_request_id with
    | Err e => Some (Err (ERpcError e), s)
    | Ok mcp_message =>
        if has_options (rt s) then then_convert as_single (start_stream (Dispatcher.Single mcp_message) timeout s)
        else match transport_map (rt s) with
             | None => Some (Err TRANSPORT_CLOSED, s)
             | Some i => then_convert as_single (Some (send_message i (Dispatcher.Single mcp_message) timeout env s))
             end
    end.
Definition send_batch (env : state -> state) (messages : list Out) (timeout : option N) (s : state)
  : option (result (option (list ServerMessage)) McpSdkError * state) :=
  if has_options (rt s) then then_convert as_batch (start_stream (Batch messages) timeout s)
  else match transport_map (rt s) with
       | None => Some (Err TRANSPORT_CLOSED, s)
       | Some i =>
           let '(r, s) := send_message i (Batch messages) timeout env s in
           Some (match r with
                 | Ok (Some r) => match as_batch r with Ok l => Ok (Some l) | Err e => Err (ETransport (Sdk e)) end
                 | Ok None => Ok None
                 | Err e => Err e
                 end, s)
       end.

(** [shut_down]: what the transport says is ignored, the tasks are aborted. *)
Definition shut_down : M unit :=
  fun s =>
    let s := with_rt (set_shut true) s in
    let s := match transport_map (rt s) with
             | None => s
             | Some i => (on_transport i ct_shut_down (with_rt (set_map None) s)).2
             end in
    (Ok tt, with_rt (set_handlers 0) s).
(** [terminate_session]: the DELETE takes an answer of the network. *)
Context (delete_session : option str -> Net -> Net).
Definition terminate_session (s : state) : state :=
  let s := if has_options (rt s)
           then (shut_down (mkState (heap s) (delete_session (session_id (rt s)) (net s)) (rt s) (sleeps s) (user s))).2
           else s in
  (shut_down s).2.

(** ** The standalone stream *)

Inductive outcome := Ended (r : result unit McpSdkError) | Waiting | OutOfFuel.

(** What other tasks do while the loop awaits. *)
Context (others : state -> state).

(** [try_reconnect] with the attempts so far: whether to go on. *)
Definition try_reconnect (attempt : nat) (max_retries : option nat) (retry_delay : N) (s : state) : bool * nat * state :=
  if shut (rt s) then (false, attempt, s)
  else
    let attempt := S attempt in
    if match max_retries with Some max => (max <? attempt)%nat | None => false end then (false, attempt, s)
    else (true, attempt, others (mkState (heap s) (net s) (rt s) (sleeps s ++ [retry_delay]) (user s))).

(** The inner loop over one connection: what ends it, and the attempts. *)
Inductive inner := Return (r : result unit McpSdkError) | Break (attempt : nat) | Pending_.
Fixpoint read_loop (fuel : nat) (transport : nat) (attempt : nat) (s : state) : option (inner * state) :=
  match fuel with
  | O => None
  | S fuel =>
      if shut (rt s) then Some (Return (Ok tt), s)
      else match heap s !! transport with
           | None => Some (Pending_, s)
           | Some x =>
               match ct_next x with
               | (Idle, _) => Some (Pending_, s)
               | (Closed, x) => Some (Break attempt, mkState (<[transport := x]> (heap s)) (net s) (rt s) (sleeps s) (user s))
               | (Item m, x) =>
                   match handle_item m transport (others (mkState (<[transport := x]> (heap s)) (net s) (rt s) (sleeps s) (user s))) with
                   | (Err e, s) => Some (Return (Err e), s)
                   | (Ok _, s) => read_loop fuel transport 0 s
                   end
               end
           end
  end.
Fixpoint sse_reconnect_loop (fuel items : nat) (stream_id : str) (retry_delay : N) (max_retries : option nat) (attempt : nat) (s : state)
  : outcome * state :=
  match fuel with
  | O => (OutOfFuel, s)
  | S fuel =>
      let retry attempt s :=
        match try_reconnect attempt max_retries retry_delay s with
        | (false, _, s) => (Ended (Ok tt), s)
        | (true, attempt, s) => sse_reconnect_loop fuel items stream_id retry_delay max_retries attempt s
        end in
      if shut (rt s) then (Ended (Ok tt), s)
      else
        match (do i <- new_transport (session_id (rt s)) true; do _ <- on_transport i ct_start; act_ret i) s with
        | (Err _, s) => retry attempt s
        | (Ok i, s) =>
            match (do _ <- store_transport stream_id i; act_ret tt) s with
            | (Err e, s) => (Ended (Err e), s)
            | (Ok _, s) =>
                match read_loop items i attempt s with
                | None => (OutOfFuel, s)
                | Some (Return r, s) => (Ended r, s)
                | Some (Pending_, s) => (Waiting, s)
                | Some (Break attempt, s) => retry attempt s
                end
            end
        end
  end.
(** [create_sse_stream] spawns the loop. *)
Definition create_sse_stream : M unit := act_modify (with_rt (fun r => set_handlers (S (handlers r)) r)).

(** ** Requests and initialization *)

(** [request] and [send_notification] of the trait over [send], which panics
    where it is [None]; [env] runs during the waits. *)
Context {Value Status Store Meta TaskRequest : Type} `{!Results Value Resp} `{!Received RequestId Resp ServerMessage}.
Context `{!TaskStoreOps TaskRequest Resp Meta Status Store}.
Abbreviation P A := (state -> option (result A McpSdkError * state)).
Definition and_then {A B} (m : P A) (k : A -> P B) : P B :=
  fun s => '(r, s) ← m s; match r with Ok a => k a s | Err e => Some (Err e, s) end.
Definition request (env : state -> state) (message : MessageFromClient) (timeout : option N) : P Resp :=
  and_then (send env message None timeout) (fun response s =>
    Some ((do r <- response_result (RequestId := RequestId) response; act_ret r.2) s)).
Definition request_as (env : state -> state) (T : ResultType) (message : MessageFromClient) : P Value :=
  and_then (request env message None) (fun r s => Some (act_lift (match try_from T r with Ok v => Ok v | Err e => Err (ERpcError e) end) s)).
Definition send_notification (env : state -> state) (message : MessageFromClient) : P unit :=
  and_then (send env message None None) (fun _ s => Some (Ok tt, s)).

(** [initialize_request]: [as_initialize_result] is the match on the result,
    the two messages are made from [client_details]. *)
Context (client_version : str) (server_version : Details -> str) (as_initialize_result : Resp -> option Details).
Context (initialize_message initialized_message : MessageFromClient).
Definition INCORRECT_RESPONSE : McpSdkError :=
  ERpcError (mkRpcError invalid_params (Some (s! "Incorrect response to InitializeRequest!"))).
Definition initialize_request (env : state -> state) : P unit :=
  and_then (request env initialize_message None) (fun result =>
    match as_initialize_result result with
    | None => fun s => Some (Err INCORRECT_RESPONSE, s)
    | Some d =>
        and_then (fun s => Some ((do _ <- act_lift (ensure_server_protocole_compatibility client_version (server_version d));
                                  do _ <- set_server_details d;
                                  create_sse_stream) s))
                 (fun _ => send_notification env initialized_message)
    end).

(** [poll_task_status]: the store is that of the tasks of the server. *)
Context (get_task_message get_task_payload_message : str -> MessageFromClient).
Context (is_terminal : Value -> bool) (task_status : Value -> Status) (task_poll_interval : Value -> option Z).
Definition poll_task_status (env : state -> state) (task_id : str) (se : option str) (task_store : Store)
  (s : state) : option (result (Status * option Z) McpSdkError * Store * state) :=
  '(result, s) ← request_as env RGetTaskResult (get_task_message task_id) s;
  match result with
  | Err e => Some (Err e, task_store, s)
  | Ok result =>
      if is_terminal result then
        '(payload, s) ← request_as env RServerTaskResult (get_task_payload_message task_id) s;
        match payload with
        | Err e => Some (Err e, task_store, s)
        | Ok payload =>
            Some (Ok (task_status result, task_poll_interval result),
                  ts_store_task_result task_id (task_status result) (into RServerTaskResult payload) se task_store, s)
        end
      else Some (Ok (task_status result, task_poll_interval result), task_store, s)
  end.

(** The main task of [start_standalone]: the items of its transport until the
    stream ends. *)
Fixpoint main_task (transport : nat) (items : list (Messages ServerMessage)) : M unit :=
  match items with
  | [] => act_ret tt
  | Dispatcher.Single m :: r =>
      fun s =>
        match handle_message m transport s with
        | (Err _, s) => main_task transport r s (* logged *)
        | (Ok None, s) => main_task transport r s
        | (Ok (Some result), s) => (do _ <- send_message transport (Dispatcher.Single result) None (fun s => s); main_task transport r) s
        end
  | Batch ms :: r => do _ <- handle_item (Batch ms) transport; main_task transport r
  end.
(** The task that reads the error stream of a child process. *)
Context (handle_process_error : str -> M unit).
Fixpoint err_task (lines : list (option str)) : M unit :=
  match lines with
  | Some error_message :: r => do _ <- handle_process_error error_message; err_task r
  | _ => act_ret tt (* the stream ended or could not be read *)
  end.
(** The handles of the two tasks are kept when the initialization succeeded. *)
Definition start_standalone (env : state -> state) : P unit :=
  fun s => match transport_map (rt s) with
           | None => Some (Err TRANSPORT_CLOSED, s)
           | Some i =>
               and_then (fun s => Some (on_transport i ct_start s)) (fun _ =>
               and_then (initialize_request env) (fun _ s =>
                 Some (act_modify (with_rt (fun r => set_handlers (S (S (handlers r))) r)) s))) s
           end.
(** [start], without the subscription to the client's task store and the
    polling of the server task store, which run on their own. *)
Definition start (env : state -> state) : P unit :=
  fun s => if has_options (rt s) then initialize_request env s else start_standalone env s.
End Runtime.
Arguments t : clear implicits.
Arguments state : clear implicits.
Arguments ServerMessage : clear implicits.
End ClientRuntime.

(** ** The standalone stream against a scripted network *)

(** What a network will do with the connections to come: refuse one, or accept
    it, deliver some items and end it; after that it refuses. *)
Definition opened {RequestId In Out Net Tr} `{!ClientTransport RequestId In Out Net Tr} (se : option str) (n : Net) : option Tr * Net :=
  match ct_new se true n with
  | (Ok x, n) => match ct_start x with (Ok _, x) => (Some x, n) | _ => (None, n) end
  | (Err _, n) => (None, n)
  end.
Class ScriptedTransport (RequestId In Out Net Tr : Type) `{!ClientTransport RequestId In Out Net Tr} := {
  script : Net -> list (option (list (Messages In)));
  unread : Tr -> list (Messages In);
  opened_script se n :
    match script n, opened se n with
    | Some ms :: r, (Some x, n') => unread x = ms /\ script n' = r
    | None :: r, (None, n') => script n' = r
    | [], (None, n') => script n' = []
    | _, _ => False
    end;
  next_unread x :
    match unread x, ct_next x with
    | m :: r, (Item m', x') => m' = m /\ unread x' = r
    | [], (Closed, _) => True
    | _, _ => False
    end;
}.

(** The reconnections of a client that gives up after [max] in a row without
    an item, and the items it gets. *)
Section Reference.
Context {A : Type} (max : nat).
Implicit Types (conns : list (option (list A))).
Definition attempts (attempt : nat) (c : option (list A)) : nat :=
  match c with Some (_ :: _) => 0 | _ => attempt end.
Fixpoint reconnections (attempt : nat) conns : nat :=
  match conns with
  | [] => max - attempt
  | c :: r => if (attempts attempt c <? max)%nat then S (reconnections (S (attempts attempt c)) r) else 0
  end.
Fixpoint items_read (attempt : nat) conns : list A :=
  match conns with
  | [] => []
  | c :: r => from_option (fun ms => ms) [] c ++
              if (attempts attempt c <? max)%nat then items_read (S (attempts attempt c)) r else []
  end.
Definition delivers (c : option (list A)) : bool := match c with Some (_ :: _) => true | _ => false end.

(** What one connection leads to; an exhausted network refuses. *)
Lemma reconnections_step conns attempt :
  let c := from_option (fun c => c) None (head conns) in
  reconnections attempt conns =
  if (attempts attempt c <? max)%nat then S (reconnections (S (attempts attempt c)) (tail conns)) else 0.
Proof.
  destruct conns as [|c r]; [|done]. cbn [reconnections head from_option attempts tail]. destruct (Nat.ltb_spec attempt max); [|lia]. by replace (max - attempt) with (S (max - S attempt)) by lia.
Qed.
Lemma items_read_step conns attempt :
  let c := from_option (fun c => c) None (head conns) in
  items_read attempt conns =
  from_option (fun ms => ms) [] c ++ if (attempts attempt c <? max)%nat then items_read (S (attempts attempt c)) (tail conns) else [].
Proof. destruct conns as [|c r]; [|done]. cbn. by case_match. Qed.

Lemma reconnections_bounded conns attempt : attempt <= max ->
  reconnections attempt conns <= (max - attempt) + max * length (List.filter delivers conns).
Proof.
  revert attempt; induction conns as [|c r IH]; intros attempt Ha; cbn [reconnections List.filter]; [lia|].
  assert (attempts attempt c <= attempt) by (destruct c as [[]|]; cbn; lia).
  destruct (Nat.ltb_spec (attempts attempt c) max) as [Hl|Hl]; [|lia].
  pose proof (IH (S (attempts attempt c)) ltac:(lia)).
  destruct c as [[|m ms]|]; cbn [attempts delivers length] in *; lia.
Qed.
End Reference.

Module ClientRuntimeFacts.
Section Reconnecting.
Context {RequestId Req Notif Resp Out ResultFromClient Details Net Tr U : Type}.
Abbreviation In := (ClientRuntime.ServerMessage RequestId Req Notif Resp).
Context `{!ClientTransport RequestId In Out Net Tr} `{!ScriptedTransport RequestId In Out Net Tr}.
Abbreviation state := (ClientRuntime.state Details Net Tr U).
Context (answer_message : ResultFromClient + RpcError -> RequestId -> result Out RpcError).
Context (handle_request : RequestId -> Req -> Act state RpcError ResultFromClient).
Context (handle_notification : Notif -> Act state McpSdkError unit) (handle_error : RpcError -> Act state McpSdkError unit).
Context (others : state -> state).
Implicit Types (s : state).
Abbreviation handle_item := (ClientRuntime.handle_item answer_message handle_request handle_notification handle_error).
Abbreviation read_loop := (ClientRuntime.read_loop answer_message handle_request handle_notification handle_error others).
Abbreviation loop := (ClientRuntime.sse_reconnect_loop answer_message handle_request handle_notification handle_error others).

(** A step that leaves the streams, the network and the runtime's flags alone. *)
Record undisturbed s s' : Prop := {
  same_heap i x : ClientRuntime.heap s !! i = Some x -> exists x', ClientRuntime.heap s' !! i = Some x' /\ unread x' = unread x;
  same_net : script (ClientRuntime.net s') = script (ClientRuntime.net s);
  same_shut : ClientRuntime.shut (ClientRuntime.rt s') = ClientRuntime.shut (ClientRuntime.rt s);
  same_options : ClientRuntime.has_options (ClientRuntime.rt s') = ClientRuntime.has_options (ClientRuntime.rt s);
  same_sleeps : ClientRuntime.sleeps s' = ClientRuntime.sleeps s;
}.

(** A transport of the heap replaced. *)
Abbreviation put i x s := (ClientRuntime.mkState (<[i := x]> (ClientRuntime.heap s)) (ClientRuntime.net s) (ClientRuntime.rt s) (ClientRuntime.sleeps s) (ClientRuntime.user s)).

Lemma connect_spec s se : ClientRuntime.has_options (ClientRuntime.rt s) = true ->
  match opened se (ClientRuntime.net s),
        act_bind (ClientRuntime.new_transport se true) (fun i =>
          act_bind (ClientRuntime.on_transport (Details := Details) (U := U) i ct_start) (fun _ => act_ret i)) s with
  | (Some x, n), (Ok i, s') =>
      i = length (ClientRuntime.heap s) /\
      s' = ClientRuntime.mkState (ClientRuntime.heap s ++ [x]) n (ClientRuntime.rt s) (ClientRuntime.sleeps s) (ClientRuntime.user s)
  | (None, n), (Err _, s') =>
      exists h, s' = ClientRuntime.mkState h n (ClientRuntime.rt s) (ClientRuntime.sleeps s) (ClientRuntime.user s)
  | _, _ => False
  end.
Proof.
  intros Ho. unfold opened, act_bind, ClientRuntime.new_transport, ClientRuntime.on_transport. rewrite Ho. cbn [negb].
  destruct (ct_new se true (ClientRuntime.net s)) as [[x|e] n]; cbn; [|by eexists].
  rewrite list_lookup_middle by done. destruct (ct_start x) as [[[]|e] x']; cbn; [|by eexists].
  split; [done|]. f_equal. rewrite insert_app_r_alt by lia. by rewrite Nat.sub_diag.
Qed.

(** Handlers that succeed and, like the other tasks, leave the streams alone;
    [seen] is what they record. *)
Context (seen : U -> list (Messages In)).
Context (others_calm : forall s, undisturbed s (others s) /\ seen (ClientRuntime.user (others s)) = seen (ClientRuntime.user s)).
Context (good : Messages In -> Prop).
Context (handled : forall m i s, good m -> is_Some (ClientRuntime.heap s !! i) -> exists s',
  handle_item m i s = (Ok tt, s') /\ undisturbed s s' /\ seen (ClientRuntime.user s') = seen (ClientRuntime.user s) ++ [m]).

(** Between two states of the loop: what was read and slept, and the network's script. *)
Definition advanced s s' (ms : list (Messages In)) (slept : list N) sc : Prop :=
  script (ClientRuntime.net s') = sc /\
  ClientRuntime.shut (ClientRuntime.rt s') = ClientRuntime.shut (ClientRuntime.rt s) /\
  ClientRuntime.has_options (ClientRuntime.rt s') = ClientRuntime.has_options (ClientRuntime.rt s) /\
  ClientRuntime.sleeps s' = ClientRuntime.sleeps s ++ slept /\
  seen (ClientRuntime.user s') = seen (ClientRuntime.user s) ++ ms.
Lemma advanced_trans s1 s2 s3 ms ms' sl sl' sc sc' : advanced s1 s2 ms sl sc -> advanced s2 s3 ms' sl' sc' ->
  advanced s1 s3 (ms ++ ms') (sl ++ sl') sc'.
Proof. intros (?&?&?&E1&E2) (?&?&?&E3&E4). split_and!; [done|congruence|congruence|by rewrite E3, E1, app_assoc|by rewrite E4, E2, app_assoc]. Qed.
Lemma advanced_others s : advanced s (others s) [] [] (script (ClientRuntime.net s)).
Proof. destruct (others_calm s) as [[] ?]. split_and!; [done..|by rewrite app_nil_r|by rewrite app_nil_r]. Qed.

Definition readable (items : nat) (c : option (list (Messages In))) : Prop :=
  let ms := from_option (fun ms => ms) [] c in length ms < items /\ Forall good ms.
Lemma read_loop_spec ms fuel i x attempt s :
  ClientRuntime.heap s !! i = Some x -> unread x = ms -> ClientRuntime.shut (ClientRuntime.rt s) = false -> length ms < fuel -> Forall good ms ->
  exists s', read_loop fuel i attempt s = Some (ClientRuntime.Break (attempts attempt (Some ms)), s') /\
             advanced s s' ms [] (script (ClientRuntime.net s)).
Proof.
  revert fuel x attempt s; induction ms as [|m ms IH]; intros fuel x attempt s Hx Hu Hs Hf Hg; destruct fuel as [|fuel]; cbn [length] in *; try lia;
    cbn [ClientRuntime.read_loop]; rewrite Hs, Hx; pose proof (next_unread x) as Hn; rewrite Hu in Hn; destruct (ct_next x) as [[m'| |] x']; try done.
  - eexists. split; [done|]. split_and!; try done; by rewrite app_nil_r.
  - destruct Hn as [-> Hu'].
    destruct (others_calm (put i x' s)) as [[Oh On Os Oo Ol] Oseen].
    destruct (Oh i x') as (x1 & Hx1 & Hu1); [by apply list_lookup_insert_eq, (lookup_lt_Some _ _ x)|].
    destruct (handled m i (others (put i x' s))) as (s1 & -> & [Hh Hnet Hsh Hop Hsl] & Hseen); [by inversion Hg|by rewrite Hx1|].
    destruct (Hh i x1 Hx1) as (x2 & Hx2 & Hu2). cbn in On, Os, Oo, Ol, Oseen.
    destruct (IH fuel x2 0 s1) as (s2 & -> & E); [done|congruence|congruence|lia|by inversion Hg|].
    exists s2. split; [by destruct ms|]. destruct E as (E1 & E2 & E3 & E4 & E5).
    split_and!; [congruence..| |]; [by rewrite E4, Hsl, Ol, app_nil_r|by rewrite E5, Hseen, Oseen, <-app_assoc].
Qed.

Lemma try_reconnect_spec attempt max delay s : ClientRuntime.shut (ClientRuntime.rt s) = false ->
  if (attempt <? max)%nat
  then exists s', ClientRuntime.try_reconnect others attempt (Some max) delay s = (true, S attempt, s') /\
                  advanced s s' [] [delay] (script (ClientRuntime.net s))
  else ClientRuntime.try_reconnect others attempt (Some max) delay s = (false, S attempt, s).
Proof.
  intros Hs. unfold ClientRuntime.try_reconnect. rewrite Hs.
  destruct (Nat.ltb_spec attempt max), (Nat.ltb_spec max (S attempt)); try lia; [|done].
  eexists. split; [done|]. destruct (others_calm (ClientRuntime.mkState (ClientRuntime.heap s) (ClientRuntime.net s) (ClientRuntime.rt s)
    (ClientRuntime.sleeps s ++ [delay]) (ClientRuntime.user s))) as [[] ?]. split_and!; [done..|by rewrite app_nil_r].
Qed.

(** One round of the loop: a connection, its items, and what it leads to. *)
Lemma loop_round fuel items stream_id delay max attempt s :
  ClientRuntime.has_options (ClientRuntime.rt s) = true -> ClientRuntime.shut (ClientRuntime.rt s) = false ->
  let conns := script (ClientRuntime.net s) in
  let c := from_option (fun c => c) None (head conns) in
  Forall (readable items) (take 1 conns) ->
  exists s1, advanced s s1 (from_option (fun ms => ms) [] c) [] (tail conns) /\
    loop (S fuel) items stream_id delay (Some max) attempt s =
    match ClientRuntime.try_reconnect others (attempts attempt c) (Some max) delay s1 with
    | (false, _, s) => (ClientRuntime.Ended (Ok tt), s)
    | (true, attempt, s) => loop fuel items stream_id delay (Some max) attempt s
    end.
Proof.
  intros Ho Hs conns c Hf. cbn [ClientRuntime.sse_reconnect_loop]. rewrite Hs.
  pose proof (connect_spec s (ClientRuntime.session_id (ClientRuntime.rt s)) Ho) as Hc.
  pose proof (opened_script (ClientRuntime.session_id (ClientRuntime.rt s)) (ClientRuntime.net s)) as Ho'.
  fold conns in Ho'. destruct (opened _ _) as [[x|] n]; destruct (act_bind _ _ s) as [[i|e] s']; try done.
  - destruct Hc as [-> ->]. destruct conns as [|[ms|] r]; try done. destruct Ho' as [Hx Hn].
    destruct (read_loop_spec ms items (length (ClientRuntime.heap s)) x attempt
                (ClientRuntime.with_rt (ClientRuntime.set_map (Some (length (ClientRuntime.heap s))))
                   (ClientRuntime.mkState (ClientRuntime.heap s ++ [x]) n (ClientRuntime.rt s) (ClientRuntime.sleeps s) (ClientRuntime.user s))))
      as (s1 & Hr & A); [by apply list_lookup_middle|done|done|by apply Forall_cons in Hf as [[] _]..|].
    exists s1. split; [by rewrite <-Hn|]. unfold act_bind, ClientRuntime.store_transport, act_modify, act_ret. by rewrite Hr.
  - destruct Hc as [h ->]. eexists. split; [|by destruct conns as [|[ms|] r]].
    split_and!; [by destruct conns as [|[ms|] r]|done|done|by rewrite app_nil_r|].
    destruct conns as [|[ms|] r]; try done; by rewrite app_nil_r.
Qed.

(** The connections [cs] come to nothing that makes the loop give up. *)
Fixpoint reaches (max attempt : nat) (cs : list (option (list (Messages In)))) : bool :=
  match cs with [] => true | c :: r => (attempts attempt c <? max)%nat && reaches max (S (attempts attempt c)) r end.
(** An item that cannot be handled or answered. *)
Definition fails (m : Messages In) (e : McpSdkError) : Prop :=
  forall i s, is_Some (ClientRuntime.heap s !! i) -> exists s', handle_item m i s = (Err e, s') /\
    ClientRuntime.sleeps s' = ClientRuntime.sleeps s /\ seen (ClientRuntime.user s') = seen (ClientRuntime.user s).
Lemma read_loop_fails pre m post e fuel i x attempt s :
  ClientRuntime.heap s !! i = Some x -> unread x = pre ++ m :: post -> ClientRuntime.shut (ClientRuntime.rt s) = false ->
  length pre < fuel -> Forall good pre -> fails m e ->
  exists s', read_loop fuel i attempt s = Some (ClientRuntime.Return (Err e), s') /\
    ClientRuntime.sleeps s' = ClientRuntime.sleeps s /\ seen (ClientRuntime.user s') = seen (ClientRuntime.user s) ++ pre.
Proof.
  revert fuel x attempt s; induction pre as [|m0 pre IH]; intros fuel x attempt s Hx Hu Hs Hf Hg Hb; destruct fuel as [|fuel]; cbn [length app] in *; try lia;
    cbn [ClientRuntime.read_loop]; rewrite Hs, Hx; pose proof (next_unread x) as Hn; rewrite Hu in Hn; destruct (ct_next x) as [[m'| |] x']; try done;
    destruct Hn as [-> Hu']; destruct (others_calm (put i x' s)) as [[Oh On Os Oo Ol] Oseen];
    (destruct (Oh i x') as (x1 & Hx1 & Hu1); [by apply list_lookup_insert_eq, (lookup_lt_Some _ _ x)|]); cbn in On, Os, Oo, Ol, Oseen.
  - destruct (Hb i (others (put i x' s))) as (s1 & -> & E1 & E2); [by rewrite Hx1|]. exists s1. split; [done|]. by rewrite E1, E2, app_nil_r.
  - destruct (handled m0 i (others (put i x' s))) as (s1 & -> & [Hh Hnet Hsh Hop Hsl] & Hseen); [by inversion Hg|by rewrite Hx1|].
    destruct (Hh i x1 Hx1) as (x2 & Hx2 & Hu2).
    destruct (IH fuel x2 0 s1) as (s2 & -> & E1 & E2); [done|congruence|congruence|lia|by inversion Hg|done|].
    exists s2. split; [done|]. split; [congruence|]. by rewrite E2, Hseen, Oseen, <-app_assoc.
Qed.

(** The item that fails ends the loop, whatever connections came before. *)
Lemma loop_fails cs pre m post rest e fuel items stream_id delay max attempt s :
  ClientRuntime.has_options (ClientRuntime.rt s) = true -> ClientRuntime.shut (ClientRuntime.rt s) = false ->
  script (ClientRuntime.net s) = cs ++ Some (pre ++ m :: post) :: rest ->
  reaches max attempt cs = true -> Forall (readable items) cs -> length pre < items -> Forall good pre -> fails m e -> length cs < fuel ->
  exists s', loop fuel items stream_id delay (Some max) attempt s = (ClientRuntime.Ended (Err e), s') /\
    ClientRuntime.sleeps s' = ClientRuntime.sleeps s ++ replicate (length cs) delay /\
    seen (ClientRuntime.user s') = seen (ClientRuntime.user s) ++ concat (from_option (fun ms => ms) [] <$> cs) ++ pre.
Proof.
  revert fuel attempt s; induction cs as [|c cs IH]; intros fuel attempt s Ho Hs Hsc Hr Hc Hp Hg Hb Hf; destruct fuel as [|fuel]; cbn [length] in Hf; try lia.
  - cbn [app] in Hsc. cbn [ClientRuntime.sse_reconnect_loop]. rewrite Hs.
    pose proof (connect_spec s (ClientRuntime.session_id (ClientRuntime.rt s)) Ho) as Hcs.
    pose proof (opened_script (ClientRuntime.session_id (ClientRuntime.rt s)) (ClientRuntime.net s)) as Ho'. rewrite Hsc in Ho'.
    destruct (opened _ _) as [[x|] n]; [|done]. destruct (act_bind _ _ s) as [[i|e'] s']; [|done].
    destruct Hcs as [-> ->], Ho' as [Hx Hn].
    destruct (read_loop_fails pre m post e items (length (ClientRuntime.heap s)) x attempt
                (ClientRuntime.with_rt (ClientRuntime.set_map (Some (length (ClientRuntime.heap s))))
                   (ClientRuntime.mkState (ClientRuntime.heap s ++ [x]) n (ClientRuntime.rt s) (ClientRuntime.sleeps s) (ClientRuntime.user s))))
      as (s1 & E & E1 & E2); [by apply list_lookup_middle|done..|].
    exists s1. unfold act_bind, ClientRuntime.store_transport, act_modify, act_ret. rewrite E. split; [done|].
    cbn in *. by rewrite app_nil_r.
  - cbn [reaches] in Hr. apply andb_prop in Hr as [Hl Hr]. apply Forall_cons in Hc as [Hc Hcs].
    destruct (loop_round fuel items stream_id delay max attempt s Ho Hs) as (s1 & A & ->); [rewrite Hsc; by constructor|].
    pose proof (try_reconnect_spec (attempts attempt c) max delay s1) as Ht. rewrite Hl in Ht.
    rewrite Hsc in *. cbn [app head from_option tail] in *.
    destruct Ht as (s2 & -> & A2); [by destruct A as (? & -> & _)|].
    pose proof (advanced_trans _ _ _ _ _ _ _ _ _ A A2) as (Esc & Es & Eo & El & Em).
    destruct A as (Ea & _).
    destruct (IH fuel (S (attempts attempt c)) s2) as (s3 & -> & E1 & E2); [first [done | lia | congruence]..|].
    exists s3. split; [done|]. rewrite E1, E2, El, Em. cbn. rewrite app_nil_r, <-!app_assoc. done.
Qed.

Lemma loop_spec n items stream_id delay max attempt s :
  ClientRuntime.has_options (ClientRuntime.rt s) = true -> ClientRuntime.shut (ClientRuntime.rt s) = false ->
  let conns := script (ClientRuntime.net s) in
  reconnections max attempt conns = n ->
  Forall (readable items) conns ->
  exists s' sc, loop (S n) items stream_id delay (Some max) attempt s = (ClientRuntime.Ended (Ok tt), s') /\
    advanced s s' (items_read max attempt conns) (replicate n delay) sc.
Proof.
  revert attempt s; induction n as [|n IH]; intros attempt s Ho Hs conns Hn Hf; pose proof (Forall_take _ 1 _ Hf) as Hf1;
    [destruct (loop_round 0 items stream_id delay max attempt s Ho Hs Hf1) as (s1 & A & ->)
    |destruct (loop_round (S n) items stream_id delay max attempt s Ho Hs Hf1) as (s1 & A & ->)];
    subst conns; rewrite reconnections_step in Hn; rewrite items_read_step; cbv zeta in *;
    pose proof (try_reconnect_spec (attempts attempt (from_option (fun c => c) None (head (script (ClientRuntime.net s))))) max delay s1) as Ht;
    destruct (_ <? max)%nat eqn:E; try done.
  - rewrite Ht by (destruct A as (? & -> & _); done). rewrite app_nil_r. by eexists _, _.
  - destruct Ht as (s2 & -> & A2); [by destruct A as (? & -> & _)|].
    pose proof (advanced_trans _ _ _ _ _ _ _ _ _ A A2) as A3. rewrite app_nil_r in A3. destruct A3 as (Esc & Es & Eo & El & Em).
    assert (Hsc : script (ClientRuntime.net s2) = tail (script (ClientRuntime.net s))) by (rewrite Esc; by destruct A).
    destruct (IH (S (attempts attempt (from_option (fun c => c) None (head (script (ClientRuntime.net s)))))) s2) as (s3 & sc & -> & A4);
      [congruence|congruence|rewrite Hsc; lia| |].
    { rewrite Hsc. by destruct Hf. }
    rewrite Hsc in A4. exists s3, sc. split; [done|].
    apply (advanced_trans s s2 s3 _ _ [delay] (replicate n delay) (script (ClientRuntime.net s2)) sc); [|done]. by split_and!.
Qed.
End Reconnecting.
End ClientRuntimeFacts.

Section Properties.
Context {RequestId Req Notif Resp Out ResultFromClient Details Net Tr U : Type}.
Abbreviation In := (ClientRuntime.ServerMessage RequestId Req Notif Resp).
Context `{!ClientTransport RequestId In Out Net Tr} `{!ScriptedTransport RequestId In Out Net Tr}.
Abbreviation state := (ClientRuntime.state Details Net Tr U).
Context (answer_message : ResultFromClient + RpcError -> RequestId -> result Out RpcError).
Context (handle_request : RequestId -> Req -> Act state RpcError ResultFromClient).
Context (handle_notification : Notif -> Act state McpSdkError unit) (handle_error : RpcError -> Act state McpSdkError unit).
Context (others : state -> state).
Import ClientRuntimeFacts.
Implicit Types (s : state).

(** C30. The client keeps its standalone stream up while every item it brings
    is handled and answered without an error: as long as nobody shuts the
    client down it reads every connection to its end, hands each item to the
    handler once and in order, sleeps before each reconnection, and gives up
    exactly when [max_retries] reconnections in a row brought no item; an item
    starts the count again. The first item whose handling or answer fails
    ends the task for good with that error, whatever the network would still
    deliver. Other tasks are assumed to leave streams and network alone. *)
Theorem standalone_stream_kept (seen : U -> list (Messages In)) (good : Messages In -> Prop) items stream_id delay max s :
  (forall s, undisturbed s (others s) /\ seen (ClientRuntime.user (others s)) = seen (ClientRuntime.user s)) ->
  (forall m i s, good m -> is_Some (ClientRuntime.heap s !! i) -> exists s',
     ClientRuntime.handle_item answer_message handle_request handle_notification handle_error m i s = (Ok tt, s') /\
     undisturbed s s' /\ seen (ClientRuntime.user s') = seen (ClientRuntime.user s) ++ [m]) ->
  ClientRuntime.has_options (ClientRuntime.rt s) = true -> ClientRuntime.shut (ClientRuntime.rt s) = false ->
  let conns := script (ClientRuntime.net s) in
  let loop fuel := ClientRuntime.sse_reconnect_loop answer_message handle_request handle_notification handle_error others
                     fuel items stream_id delay (Some max) 0 s in
  (Forall (readable good items) conns ->
   let n := reconnections max 0 conns in
   n <= max * S (length (List.filter delivers conns)) /\
   exists s', loop (S n) = (ClientRuntime.Ended (Ok tt), s') /\
     ClientRuntime.sleeps s' = ClientRuntime.sleeps s ++ replicate n delay /\
     seen (ClientRuntime.user s') = seen (ClientRuntime.user s) ++ items_read max 0 conns) /\
  (forall cs pre m post rest e,
     conns = cs ++ Some (pre ++ m :: post) :: rest ->
     reaches max 0 cs = true -> Forall (readable good items) cs -> length pre < items -> Forall good pre ->
     fails answer_message handle_request handle_notification handle_error seen m e ->
     exists s', loop (S (length cs)) = (ClientRuntime.Ended (Err e), s') /\
       ClientRuntime.sleeps s' = ClientRuntime.sleeps s ++ replicate (length cs) delay /\
       seen (ClientRuntime.user s') = seen (ClientRuntime.user s) ++ concat (from_option (fun ms => ms) [] <$> cs) ++ pre).
Proof.
  intros Ho Hh Hop Hs conns loop. split.
  - intros Hf n. split; [pose proof (reconnections_bounded max conns 0 ltac:(lia)); subst n; lia|].
    destruct (loop_spec answer_message handle_request handle_notification handle_error others seen Ho good Hh n items stream_id
                delay max 0 s Hop Hs eq_refl Hf) as (s' & sc & E & _ & _ & _ & El & Em).
    by exists s'.
  - intros cs pre m post rest e Hc Hr Hcs Hp Hg Hb. apply (loop_fails _ _ _ _ _ _ Ho good Hh cs pre m post rest); try done. lia.
Qed.

(** Without transport options, as over standard streams, the loop that
    [initialize_request] spawns never connects and never ends. *)
Lemma without_options_never_ends fuel items stream_id delay attempt s :
  (forall s, undisturbed s (others s)) ->
  ClientRuntime.has_options (ClientRuntime.rt s) = false -> ClientRuntime.shut (ClientRuntime.rt s) = false ->
  exists s', ClientRuntime.sse_reconnect_loop answer_message handle_request handle_notification handle_error others
               fuel items stream_id delay None attempt s = (ClientRuntime.OutOfFuel, s') /\
    ClientRuntime.sleeps s' = ClientRuntime.sleeps s ++ replicate fuel delay.
Proof.
  intros Ho. revert attempt s; induction fuel as [|fuel IH]; intros attempt s Hop Hs; cbn [ClientRuntime.sse_reconnect_loop].
  - eexists. split; [done|]. by rewrite app_nil_r.
  - rewrite Hs. unfold act_bind at 1, ClientRuntime.new_transport. rewrite Hop. cbn [negb]. unfold ClientRuntime.try_reconnect. rewrite Hs.
    destruct (Ho (ClientRuntime.mkState (ClientRuntime.heap s) (ClientRuntime.net s) (ClientRuntime.rt s)
      (ClientRuntime.sleeps s ++ [delay]) (ClientRuntime.user s))) as [_ _ Es Eo El].
    destruct (IH (S attempt) (others (ClientRuntime.mkState (ClientRuntime.heap s) (ClientRuntime.net s) (ClientRuntime.rt s)
      (ClientRuntime.sleeps s ++ [delay]) (ClientRuntime.user s)))) as (s' & E & Esl); [by rewrite Eo|by rewrite Es|].
    exists s'. split; [exact E|]. rewrite Esl, El. cbn. by rewrite <-app_assoc.
Qed.
End Properties.

(** ** A scripted network *)

Module ClientRuntimeDemo.
Import ClientRuntimeFacts.
Abbreviation In := (ClientRuntime.ServerMessage nat bool nat nat).
Abbreviation Script := (list (option (list (Messages In)))).
#[global] Instance scripted : ClientTransport nat In nat Script (list (Messages In)) := {|
  Receivers := unit;
  ct_new := fun _ _ n => match n with
                         | Some ms :: r => (Ok ms, r)
                         | _ :: r => (Err (HttpConnection []), r)
                         | [] => (Err (HttpConnection []), [])
                         end;
  ct_start := act_ret tt;
  ct_write := fun _ => act_ret tt;
  ct_waits := fun _ => false;
  ct_await := fun _ _ => act_ret None;
  ct_next := fun x => match x with m :: r => (Item m, r) | [] => (Closed, []) end;
  ct_deliver := fun _ _ x => (None, x);
  ct_session_id := fun _ => None;
  ct_shut_down := act_ret tt;
|}.
#[global] Instance scripted_laws : ScriptedTransport nat In nat Script (list (Messages In)).
Proof.
  refine (Build_ScriptedTransport _ _ _ _ _ _ (fun n => n) (fun x => x) _ _).
  - by intros se [|[ms|] r].
  - by intros [|m r].
Defined.

(** A handler that records the notifications and refuses 0. *)
Abbreviation state := (ClientRuntime.state unit Script (list (Messages In)) (list nat)).
Definition record (n : nat) : Act state McpSdkError unit :=
  match n with
  | O => act_fail (ERpcError (mkRpcError internal_error None))
  | _ => act_modify (fun s => ClientRuntime.mkState (ClientRuntime.heap s) (ClientRuntime.net s) (ClientRuntime.rt s) (ClientRuntime.sleeps s)
                         (ClientRuntime.user s ++ [n]))
  end.
Definition refuse (id : nat) (r : bool) : Act state RpcError unit := act_fail (mkRpcError internal_error None).
Definition ignore (e : RpcError) : Act state McpSdkError unit := act_ret tt.
Definition note (n : nat) : Messages In := Dispatcher.Single (ClientRuntime.Notification n).
Definition start n : state := ClientRuntime.mkState [] n ClientRuntime.new_instance [] [].
Definition conns : Script := [Some [note 1; note 2]; None; Some []; Some [note 3]; None].
Definition no_answer (r : unit + RpcError) (id : nat) : result nat RpcError := Ok id.
Abbreviation loop := (ClientRuntime.sse_reconnect_loop no_answer refuse record ignore (fun s => s)).

Definition failing : Script := [None; Some [note 1]; Some [note 2; note 0; note 3]; Some [note 4]].

Lemma numbers_of_notes (l : list nat) : 
  omap (fun m => match m with Dispatcher.Single (ClientRuntime.Notification n) => Some n | _ => None end) (note <$> l) = l.
Proof. induction l as [|n l IH]; [done|]. cbn. by f_equal. Qed.
#[export] Instance note_inj : Inj (=) (=) (fmap (M := list) note).
Proof. intros l l' E. by rewrite <-(numbers_of_notes l), E, numbers_of_notes. Qed.

Lemma standalone_stream_kept_witness :
  (exists s', loop 7 3 DEFAULT_STREAM_ID 1000 (Some 3) 0 (start conns) = (ClientRuntime.Ended (Ok tt), s') /\
     ClientRuntime.sleeps s' = replicate 6 1000%N /\ ClientRuntime.user s' = [1; 2; 3]) /\
  (exists s', loop 3 3 DEFAULT_STREAM_ID 1000 (Some 3) 0 (start failing) =
                (ClientRuntime.Ended (Err (ERpcError (mkRpcError internal_error None))), s') /\
     ClientRuntime.user s' = [1; 2]).
Proof.
  assert (calm : forall s : state, undisturbed s s /\ note <$> ClientRuntime.user s = note <$> ClientRuntime.user s).
  { intros s. split; [|done]. split; [|done..]. intros i x Hx. by exists x. }
  assert (handled : forall m i (s : state), (exists n, m = note (S n)) -> is_Some (ClientRuntime.heap s !! i) -> exists s',
    ClientRuntime.handle_item no_answer refuse record ignore m i s = (Ok tt, s') /\
    undisturbed s s' /\ note <$> ClientRuntime.user s' = (note <$> ClientRuntime.user s) ++ [m]).
  { intros m i s [n ->] _. eexists. split; [reflexivity|]. split; [|cbn [ClientRuntime.user]; by rewrite fmap_app].
    split; [|done..]. intros j x Hx. by exists x. }
  split.
  - destruct (standalone_stream_kept no_answer refuse record ignore (fun s => s) (fmap (M := list) note) (fun m => exists n, m = note (S n))
                3 DEFAULT_STREAM_ID 1000 3 (start conns) calm handled eq_refl eq_refl) as [K _].
    destruct K as (_ & s' & E & El & Em); [cbn; repeat constructor; cbn; first [lia | by eexists]|].
    exists s'. split; [exact E|]. split; [exact El|]. by apply (inj (fmap (M := list) note)).
  - destruct (standalone_stream_kept no_answer refuse record ignore (fun s => s) (fmap (M := list) note) (fun m => exists n, m = note (S n))
                3 DEFAULT_STREAM_ID 1000 3 (start failing) calm handled eq_refl eq_refl) as [_ K].
    destruct (K [None; Some [note 1]] [note 2] (note 0) [note 3] [Some [note 4]] (ERpcError (mkRpcError internal_error None)))
      as (s' & E & _ & Em); [reflexivity|reflexivity|cbn; repeat constructor; cbn; first [lia | by eexists]|cbn; lia|
                             repeat constructor; by eexists|intros i s _; by eexists|].
    exists s'. split; [exact E|]. by apply (inj (fmap (M := list) note)).
Defined.
End ClientRuntimeDemo.
