(* ===== verification/StreamableClient.v ===== *)
(** * The streamable HTTP transport of the client

    Models crates/rust-mcp-transport/src/client_streamable_http.rs
    ([ClientStreamableTransport]) over [StreamableHttpStream], the message
    dispatcher and the line reader, and composes it with the client runtime.

    A transport owns the part of the network that will answer its requests: the
    replies to the stream's own requests and those to the messages posted while
    the standalone stream runs.  Of the standalone mode's buffered writer only
    the pieces it hands to the post task are used. *)
From S2P Require Import Prelude RustStr Sse LineReader EventStore IdGen Dispatcher Transport Auth TaskStore ServerRuntime Requests Http ClientStream ClientRuntime.

(** ** Sending, split where the sender waits *)

Section Halves.
Context {RequestId : Type} `{Countable RequestId}.
Context {In Out W T St : Type} `{!AsyncWrite W} `{!AckChannel T} `{!EventStore St}.
Context `{!Message RequestId In} `{!Message RequestId Out}.
Context (show_error : Dispatcher.TransportError -> str).
Import MessageDispatcher.
Abbreviation D := (MessageDispatcher.t RequestId In W T St).

(** The channels a message waits on, with the ids of a batch's requests. *)
Inductive receivers := NoResponse | One (c : nat) | Many (ids : list (option RequestId)) (cs : list nat).
Definition waits (rx : receivers) : bool := match rx with NoResponse => false | _ => true end.

Definition write_half (messages : Messages Out) : Act D Dispatcher.TransportError receivers :=
  match messages with
  | Dispatcher.Single message =>
      do rx_response <- store_pending_request_for_message message;
      do payload <- serialize (to_json (RequestId := RequestId) message);
      do _ <- client_write_str payload true;
      act_ret (match rx_response with Some c => One c | None => NoResponse end)
  | Dispatcher.Batch ms =>
      let requests := List.filter (is_request (RequestId := RequestId)) ms in
      do tasks <- act_map store_pending_request_for_message requests;
      do payload <- serialize (batch_to_json (RequestId := RequestId) ms);
      do _ <- client_write_str payload true;
      act_ret (if bool_decide (request_id <$> requests = []) then NoResponse
               else Many (request_id <$> requests) (omap (fun x => x) tasks))
  end.
Definition await_half (timeout : option N) (rx : receivers) : Act D Dispatcher.TransportError (option (Messages In)) :=
  do default <- act_get request_timeout;
  let timeout := from_option id default timeout in
  match rx with
  | NoResponse => act_ret None
  | One c =>
      fun s => match receive timeout c s with
               | (Ok m, s) => (Ok (Some (Dispatcher.Single m)), s)
               | (Err ChannelClosed, s) => (Err (Sdk (mkSdkError connection_closed None)), s)
               | (Err e, s) => (Err e, s)
               end
  | Many ids cs =>
      do rs <- receive_batch timeout cs;
      act_ret (Some (Dispatcher.Batch (batch_results show_error ids rs)))
  end.
Definition both_halves (env : D -> D) (messages : Messages Out) (timeout : option N)
  : Act D Dispatcher.TransportError (option (Messages In)) :=
  do rx <- write_half messages;
  fun s => await_half timeout rx (if waits rx then env s else s).
End Halves.

(** ** The tasks of a transport *)

Module ClientStreamableTransport.
Section Tasks.
Context {H : Type} `{HeaderMap H}.
Context (cancelled read_open : World H -> bool).

(** The post task of an exchange: it runs each payload and acknowledges it,
    until a panic or the cancellation ends it. *)
Record post_task := mkTask { alive : bool; t_max_retries : nat; t_retry_delay : N; t_world : World H }.
Definition ack_channel : AckChannel post_task := {|
  send_with_ack := fun p data =>
    if negb (alive p) then (Err (s! "channel closed"), p)
    else
      let '(r, w) := StreamableHttpStream.run (t_max_retries p) (t_retry_delay p) cancelled read_open (trim data) (t_world p) in
      match r with
      | Ok _ => (Ok (Some (Ok tt)), mkTask true (t_max_retries p) (t_retry_delay p) w)
      | Err (Error e) => (Ok (Some (Err e)), mkTask true (t_max_retries p) (t_retry_delay p) w)
      | Err _ => (Ok None, mkTask false (t_max_retries p) (t_retry_delay p) w)
      end
|}.

(** The post task of the standalone mode: errors are logged. *)
Definition post_payload (session_id : option str) (data : bytes) (w : World H) : World H :=
  (http_post (trim (from_utf8_lossy data)) session_id w).2.
Definition post_all (session_id : option str) (datas : list bytes) (w : World H) : World H :=
  foldl (fun w data => post_payload session_id data w) w datas.
End Tasks.

(** The buffered writer of the standalone mode, whose pieces the post task takes. *)
Class PieceWriter (W : Type) := {
  new_writer : W;
  take_pieces : W -> list bytes * W;
}.

(** [struct RequestOptions]. *)
Record options := mkOptions {
  request_timeout : N;
  max_line_length : nat;
  o_retry_delay : option N;
  o_max_retries : option nat;
  custom_headers : option (list (str * str));
}.
(** [RequestOptions::default()], with the timeout and the line limit of
    [TransportOptions::default()]. *)
Definition default_request_options : options := mkOptions 60000 (16 * 1024 * 1024) None None None.
Definition DEFAULT_MAX_RETRY : nat := 5.
Definition DEFAULT_RETRY_TIME_SECONDS : N := 1.

Section Transport.
Context {H : Type} `{HeaderMap H} {RequestId : Type} `{Countable RequestId}.
Context {In Out W St : Type} `{!AsyncWrite W} `{!PieceWriter W} `{!EventStore St}.
Context `{!Message RequestId In} `{!Message RequestId Out}.
Context (show_error : Dispatcher.TransportError -> str).
Context (decode : str -> option (Messages In)).
Context (cancelled read_open : World H -> bool).
(** [parse::<HeaderName>], and the text of [HeaderValue]'s error. *)
Context (parse_name : str -> result str str) (invalid_value : str).
#[local] Instance post_ack : AckChannel (post_task (H := H)) := ack_channel cancelled read_open.
Abbreviation Dispatcher := (MessageDispatcher.t RequestId In W (post_task (H := H)) St).

(** What the network will reply to the requests of one transport. *)
Record conversation := mkConversation { stream_replies : list (reply H); post_replies : list (reply H) }.

Record t := mk {
  shutdown_source : option CancellationToken.watch;
  is_shut_down : bool;
  opts : options;
  standalone : bool;
  sse_world : World H; (* in standalone mode, and before the start *)
  posts : World H;
  session_of_posts : option str; (* the session id the post task was given *)
  post_handle : bool; (* post_task *)
  message_sender : option Dispatcher;
  taken : nat; (* the chunks the reader has taken over *)
  reader : list (LineReader.item unit);
}.
Definition max_retries (o : options) : nat := from_option (fun n => n) DEFAULT_MAX_RETRY (o_max_retries o).
Definition retry_delay (o : options) : N := from_option (fun d => d) (DEFAULT_RETRY_TIME_SECONDS * 1000)%N (o_retry_delay o).

(** The headers are checked like those of [ClientSseTransport]. *)
Definition validate_headers (headers : list (str * str)) : result H Dispatcher.TransportError :=
  ClientSseTransport.validate_headers parse_name invalid_value headers.
Definition new (o : options) (session_id : option str) (standalone : bool) (c : conversation) : result t Dispatcher.TransportError :=
  match match custom_headers o with Some h => let? m := validate_headers h in Ok (Some m) | None => Ok None end with
  | Err e => Err e
  | Ok _ => Ok (mk None false o standalone (mkWorld session_id [] (stream_replies c) []) (mkWorld session_id [] (post_replies c) [])
                   session_id false None 0 [])
  end.

Definition set_source (src : option CancellationToken.watch) (x : t) : t :=
  mk src (is_shut_down x) (opts x) (standalone x) (sse_world x) (posts x) (session_of_posts x) (post_handle x) (message_sender x) (taken x) (reader x).
Definition set_down (x : t) : t :=
  mk (shutdown_source x) true (opts x) (standalone x) (sse_world x) (posts x) (session_of_posts x) false (message_sender x) (taken x) (reader x).
Definition set_sse (w : World H) (x : t) : t :=
  mk (shutdown_source x) (is_shut_down x) (opts x) (standalone x) w (posts x) (session_of_posts x) (post_handle x) (message_sender x) (taken x) (reader x).
Definition set_posts (w : World H) (x : t) : t :=
  mk (shutdown_source x) (is_shut_down x) (opts x) (standalone x) (sse_world x) w (session_of_posts x) (post_handle x) (message_sender x) (taken x) (reader x).
Definition set_started (session : option str) (d : Dispatcher) (x : t) : t :=
  mk (shutdown_source x) (is_shut_down x) (opts x) (standalone x) (sse_world x) (posts x) session true (Some d) (taken x) (reader x).
Definition set_sender (d : Dispatcher) (x : t) : t :=
  mk (shutdown_source x) (is_shut_down x) (opts x) (standalone x) (sse_world x) (posts x) (session_of_posts x) (post_handle x) (Some d) (taken x) (reader x).
Definition set_reader (n : nat) (r : list (LineReader.item unit)) (x : t) : t :=
  mk (shutdown_source x) (is_shut_down x) (opts x) (standalone x) (sse_world x) (posts x) (session_of_posts x) (post_handle x) (message_sender x) n r.

(** The state the tasks share with the transport. *)
Definition world (x : t) : World H :=
  match message_sender x ≫= MessageDispatcher.writable_tx with Some p => t_world p | None => sse_world x end.
Definition session_id (x : t) : option str := ClientStream.session_id (world x).

(** A new source with a token for each of the three tasks. *)
Definition three_tokens : CancellationToken.watch := CancellationToken.token (CancellationToken.token CancellationToken.new).
Definition no_tokens (w : CancellationToken.watch) : CancellationToken.watch :=
  CancellationToken.drop_token (CancellationToken.drop_token (CancellationToken.drop_token w)).

(** [start].  A failure carries a panic of the connection as an error of its own. *)
Definition of_failure (f : failure) : Dispatcher.TransportError :=
  match f with Error e => e | _ => Internal (s! "task panicked") end.
Definition start_alone : Act t Dispatcher.TransportError unit :=
  fun x =>
    let x := set_source (Some three_tokens) x in
    let o := opts x in
    let session := ClientStream.session_id (sse_world x) in
    match StreamableHttpStream.make_standalone_stream_connection (max_retries o) (retry_delay o) cancelled None (sse_world x) with
    | (Err f, w) => (Err (of_failure f), set_source (Some (no_tokens three_tokens)) (set_sse w x))
    | (Ok response, w) =>
        let w := (StreamableHttpStream.run_standalone (max_retries o) (retry_delay o) cancelled read_open response w).2 in
        (Ok tt, set_started session (MessageDispatcher.new new_writer (request_timeout o)) (set_sse w x))
    end.
Definition start_exchange : Act t Dispatcher.TransportError unit :=
  fun x =>
    let x := set_source (Some three_tokens) x in
    let o := opts x in
    (Ok tt, set_started (session_of_posts x)
              (MessageDispatcher.new_with_acknowledgement (mkTask true (max_retries o) (retry_delay o) (sse_world x)) (request_timeout o)) x).
Definition start : Act t Dispatcher.TransportError unit :=
  fun x => if standalone x then start_alone x else start_exchange x.

(** A standalone transport's post task runs at the awaits. *)
Definition post_pending (x : t) : t :=
  match message_sender x with
  | Some d =>
      match MessageDispatcher.writable_std d with
      | Some w => let '(pieces, w) := take_pieces w in
                  set_posts (post_all (session_of_posts x) pieces (posts x)) (set_sender (MessageDispatcher.with_std (Some w) d) x)
      | None => x
      end
  | None => x
  end.

(** [self.message_sender.read().await.as_ref().ok_or(connection_closed)?] *)
Definition with_sender {A} (f : Act Dispatcher Dispatcher.TransportError A) : Act t Dispatcher.TransportError A :=
  fun x => match message_sender x with
           | None => (Err (Sdk (mkSdkError connection_closed None)), x)
           | Some d => let '(r, d) := f d in (r, set_sender d x)
           end.
Definition send_message (env : Dispatcher -> Dispatcher) (m : Messages Out) (timeout : option N) :=
  with_sender (MessageDispatcher.client_send_message show_error env m timeout).
Definition write_str (payload : str) (skip_store : bool) := with_sender (MessageDispatcher.client_write_str payload skip_store).
Definition send as_single (env : Dispatcher -> Dispatcher) (m : Out) (timeout : option N) :=
  with_sender (MessageDispatcher.client_send as_single show_error env m timeout).
Definition send_batch as_batch (env : Dispatcher -> Dispatcher) (ms : list Out) (timeout : option N) :=
  with_sender (MessageDispatcher.client_send_batch as_batch show_error env ms timeout).
Definition consume_string_payload (payload : str) : Act t Dispatcher.TransportError unit :=
  act_fail (Internal (s! "Invalid invocation of consume_string_payload() function for ClientStreamableTransport")).
Definition keep_alive (interval : N) : Act t Dispatcher.TransportError unit :=
  act_fail (Internal (s! "Invalid invocation of keep_alive() function for ClientStreamableTransport")).

(** [shut_down]; [timed_out]: the post task did not end in time. *)
Definition shut_down (timed_out : bool) : Act t Dispatcher.TransportError unit :=
  fun x =>
    let joined := if timed_out && post_handle x then Err ShutdownTimeout else Ok tt in
    match shutdown_source x with
    | None => (joined, set_down x)
    | Some w =>
        match CancellationToken.cancel w with
        | (Err e, _) => (Err e, x)
        | (Ok _, w) => (joined, set_down (set_source None x))
        end
    end.

Definition pending_request_tx (id : RequestId) (x : t) : option nat * t :=
  match message_sender x with
  | None => (None, x)
  | Some d => let '(c, d) := MessageDispatcher.pending_request_tx id d in (c, set_sender d x)
  end.
Definition deliver (id : RequestId) (m : In) (x : t) : option bool * t :=
  match pending_request_tx id x with
  | (None, x) => (None, x)
  | (Some c, x) =>
      match message_sender x with
      | None => (None, x)
      | Some d => let '(b, d) := MessageDispatcher.send_on c m d in (Some b, set_sender d x)
      end
  end.

(** *** The stream of incoming items *)

Definition has_line (r : list (LineReader.item unit)) : bool :=
  existsb (fun i => match i with Data c => bool_decide (c = []) || existsb is_lf c | Fail _ => true end) r.
(** The next line that decodes; [ended] when no more bytes will come. *)
Fixpoint next_line (fuel max : nat) (ended : bool) (r : list (LineReader.item unit)) : next (Messages In) * list (LineReader.item unit) :=
  match fuel with
  | O => (Idle, r)
  | S fuel =>
      if has_line r || ended then
        match read_capped_line max [] r with
        | (Ok Eof, r) => (Closed, r)
        | (Ok TooLong, r) => next_line fuel max ended r
        | (Ok (Line line), r) => match decode line with Some m => (Item m, r) | None => next_line fuel max ended r end
        | (Err _, r) => (Closed, r)
        end
      else (Idle, r)
  end.
(** In standalone mode the sse task has run to its end; in an exchange more may
    come as long as the post task lives. *)
Definition ended (x : t) : bool :=
  if standalone x then true
  else match message_sender x ≫= MessageDispatcher.writable_tx with Some p => negb (alive p) | None => true end.
Definition stream_next (x : t) : next (Messages In) * t :=
  let r := reader x ++ (Data <$> drop (taken x) (delivered (world x))) in
  if is_shut_down x then (Closed, x)
  else let '(n, r) := next_line (S (length (stream r))) (max_line_length (opts x)) (ended x) r in
       (n, set_reader (length (delivered (world x))) r x).

(** The transport as the client runtime uses it; the network is the
    conversations of the transports to come. *)
Definition open_transport (o : options) (session : option str) (alone : bool)
  : Act (list conversation) Dispatcher.TransportError t :=
  fun n => match new o session alone (from_option (fun c => c) (mkConversation [] []) (head n)) with
           | Ok x => (Ok x, tail n)
           | Err e => (Err e, n)
           end.
Definition client_transport (o : options) : ClientTransport RequestId In Out (list conversation) t := {|
  Receivers := receivers (RequestId := RequestId);
  ct_new := open_transport o;
  ct_start := start;
  ct_write := fun m x => let '(r, x) := with_sender (write_half m) x in (r, post_pending x);
  ct_waits := waits;
  ct_await := fun timeout rx => with_sender (await_half show_error timeout rx);
  ct_next := stream_next;
  ct_deliver := deliver;
  ct_session_id := session_id;
  ct_shut_down := shut_down false;
|}.
End Transport.
Arguments conversation : clear implicits.
Arguments t H RequestId {_ _} In W St.
End ClientStreamableTransport.

Module StreamableClientFacts.
Import ClientStreamFacts.

Section Halves.
Context {RequestId : Type} `{Countable RequestId}.
Context {In Out W T St : Type} `{!AsyncWrite W} `{!AckChannel T} `{!EventStore St}.
Context `{!Message RequestId In} `{!Message RequestId Out}.
Context (show_error : Dispatcher.TransportError -> str).
Import MessageDispatcher.
Implicit Types (s : MessageDispatcher.t RequestId In W T St).

Lemma client_write_timeout payload skip s : request_timeout (client_write_str payload skip s).2 = request_timeout s.
Proof. by apply (DispatcherFacts.write_line_keeps request_timeout None payload). Qed.

(** Registering channels changes nothing else. *)
Lemma store_pending_timeout (m : Out) s : request_timeout (store_pending_request_for_message m s).2 = request_timeout s.
Proof. unfold store_pending_request_for_message. destruct (is_request m); [|done]. by destruct (request_id m). Qed.
Lemma store_all_timeout (ms : list Out) s : request_timeout (act_map store_pending_request_for_message ms s).2 = request_timeout s.
Proof.
  revert s; induction ms as [|m ms IH]; intros s; [done|]. cbn [act_map]. unfold act_bind.
  pose proof (store_pending_timeout m s) as E. destruct (store_pending_request_for_message m s) as [[c|e] s1]; [|done].
  pose proof (IH s1) as E1. destruct (act_map store_pending_request_for_message ms s1) as [[cs|e] s2]; cbn in *; congruence.
Qed.

(** The two halves are [send_message]. *)
Lemma halves_send env (messages : Messages Out) timeout s : (forall s, request_timeout (env s) = request_timeout s) ->
  both_halves show_error env messages timeout s = client_send_message show_error env messages timeout s.
Proof.
  intros He. unfold both_halves, client_send_message, act_get. destruct messages as [m|ms]; cbn [write_half]; unfold act_bind; cbn [fst].
  - pose proof (store_pending_timeout m s) as E. destruct (store_pending_request_for_message m s) as [[o|e] s1]; [|done].
    destruct (serialize (to_json m) s1) as [[p|e] s2] eqn:Es; [|done]. injection Es as _ <-.
    pose proof (client_write_timeout p true s1) as E2. destruct (client_write_str p true s1) as [[[]|e] s3]; [|done]. cbn in *.
    destruct o as [c|]; [|done]. cbn. rewrite He, E2, E. unfold other_tasks, act_modify. done.
  - pose proof (store_all_timeout (List.filter is_request ms) s) as E.
    destruct (act_map _ _ s) as [[o|e] s1]; [|done].
    destruct (serialize (batch_to_json ms) s1) as [[p|e] s2] eqn:Es; [|done]. injection Es as _ <-.
    pose proof (client_write_timeout p true s1) as E2. destruct (client_write_str p true s1) as [[[]|e] s3]; [|done]. cbn in *.
    case_bool_decide; [done|]. cbn. unfold act_bind. rewrite He, E2, E. unfold other_tasks, act_modify. done.
Qed.
End Halves.

(** Reading one line that decodes. *)
Section Reading.
Context {In : Type} (decode : str -> option (Messages In)).
Abbreviation next_line := (ClientStreamableTransport.next_line decode).
Lemma has_line_stream (r : list (LineReader.item unit)) : existsb is_lf (stream r) = true -> ClientStreamableTransport.has_line r = true.
Proof.
  unfold ClientStreamableTransport.has_line. induction r as [|[c|e] r IH]; [done| |done]. rewrite stream_cons, existsb_app. cbn [existsb].
  destruct (existsb is_lf c); cbn [orb]; [by rewrite orb_true_r|]. intros E. by rewrite IH, orb_true_r.
Qed.
Lemma existsb_lf (a b : bytes) : existsb is_lf (a ++ LF :: b) = true.
Proof. rewrite existsb_app. cbn. by rewrite orb_true_r. Qed.
Lemma next_line_item fuel max ended r json rest m : chunks_ok r -> stream r = json ++ LF :: rest -> LF ∉ json ->
  length json <= max -> decode (line_to_string json) = Some m ->
  exists r', next_line (S fuel) max ended r = (Item m, r') /\ chunks_ok r' /\ stream r' = rest.
Proof.
  intros Hr Es Hl Hm Hd. cbn [ClientStreamableTransport.next_line].
  rewrite has_line_stream by (rewrite Es; apply existsb_lf). cbn [orb].
  destruct (read_capped_spec max r [] Hr eq_refl (Nat.le_0_l _)) as (r' & -> & Hr' & Hs).
  assert (Ef : first_line max ([] ++ stream r) = (line_of max json, rest)).
  { cbn [app]. unfold first_line. rewrite Es, position_app_r.
    - rewrite take_app_length. f_equal. replace (S (length json)) with (length json + 1) by lia. by rewrite drop_app_add.
    - apply Forall_forall. intros c Hc. apply bool_decide_eq_false. by intros ->.
    - done. }
  rewrite Ef in *. cbn [fst snd] in *. unfold line_of. rewrite (proj2 (Nat.ltb_ge _ _)) by done. rewrite Hd. by exists r'.
Qed.
End Reading.

#[local] Arguments StreamableHttpStream.run : simpl never.
Section Exchange.
Import ClientStreamableTransport.
Context {H : Type} `{HeaderMapLaws H} {RequestId : Type} `{Countable RequestId}.
Context {Req Notif Resp Out W St MessageFromClient ResultFromClient Details U : Type} `{!AsyncWrite W} `{!PieceWriter W} `{!EventStore St}.
Abbreviation In := (ClientRuntime.ServerMessage RequestId Req Notif Resp).
Context `{!Message RequestId In} `{!Message RequestId Out}.
Context (show_error : Dispatcher.TransportError -> str) (decode : str -> option (Messages In)).
Context (cancelled read_open : World H -> bool) (parse_name : str -> result str str) (invalid_value : str) (o : options).
Abbreviation transport := (ClientStreamableTransport.t H RequestId In W St).
Abbreviation network := (list (conversation H)).
#[local] Instance exchange_ack : AckChannel (post_task (H := H)) := ack_channel cancelled read_open.
#[local] Instance exchange_transport : ClientTransport RequestId In Out network transport :=
  client_transport show_error decode cancelled read_open parse_name invalid_value o.
Abbreviation state := (ClientRuntime.state Details network transport U).
Implicit Types (s : state) (w : World H).

Definition headers_ok : Prop := forall l, custom_headers o = Some l -> is_ok (validate_headers (H := H) parse_name invalid_value l) = true.
Context (Hheaders : headers_ok).

(** A started exchange and what can have changed in it. *)
Definition exchanging se (c : conversation H) p cs w n r : transport :=
  mk (Some three_tokens) false o false (mkWorld se [] (stream_replies c) []) (mkWorld se [] (post_replies c) []) se true
     (Some (MessageDispatcher.mk p cs None (Some (mkTask true (max_retries o) (retry_delay o) w)) (request_timeout o) None None None)) n r.
Definition next_conversation s : conversation H := from_option (fun c => c) (mkConversation [] []) (head (ClientRuntime.net s)).
Definition fresh_world se (c : conversation H) : World H := mkWorld se [] (stream_replies c) [].
Definition with_transport (x : transport) s : state :=
  ClientRuntime.mkState (ClientRuntime.heap s ++ [x]) (tail (ClientRuntime.net s)) (ClientRuntime.rt s) (ClientRuntime.sleeps s) (ClientRuntime.user s).

Lemma new_ok se b c : new (RequestId := RequestId) (In := In) (W := W) (St := St) parse_name invalid_value o se b c =
  Ok (mk None false o b (mkWorld se [] (stream_replies c) []) (mkWorld se [] (post_replies c) []) se false None 0 []).
Proof.
  unfold new. pose proof Hheaders as Hh. unfold headers_ok in Hh. destruct (custom_headers o) as [l|]; [|done].
  specialize (Hh l eq_refl). by destruct (validate_headers parse_name invalid_value l).
Qed.

Lemma exchange_opened se s : ClientRuntime.has_options (ClientRuntime.rt s) = true ->
  act_bind (ClientRuntime.new_transport se false) (fun i =>
    act_bind (ClientRuntime.on_transport i ct_start) (fun _ => act_ret i)) s =
  (Ok (length (ClientRuntime.heap s)),
   with_transport (exchanging se (next_conversation s) ∅ [] (fresh_world se (next_conversation s)) 0 []) s).
Proof.
  intros Ho. unfold act_bind, ClientRuntime.new_transport. rewrite Ho. cbn [negb ct_new exchange_transport client_transport].
  unfold open_transport. rewrite new_ok. unfold ClientRuntime.on_transport. cbn [ClientRuntime.heap ClientRuntime.net].
  rewrite list_lookup_middle by done. cbn. unfold act_ret, with_transport. do 2 f_equal.
  rewrite insert_app_r_alt by lia. by rewrite Nat.sub_diag.
Qed.

(** Posting one message whose run succeeds. *)
Lemma exchange_written out payload se c w w1 :
  to_json (RequestId := RequestId) out = Some payload ->
  StreamableHttpStream.run (max_retries o) (retry_delay o) cancelled read_open (trim payload) w = (Ok tt, w1) ->
  (forall id, is_request (RequestId := RequestId) out = true -> request_id out = Some id ->
     ct_write (Dispatcher.Single out) (exchanging se c ∅ [] w 0 []) =
     (Ok (One 0), exchanging se c (<[id := 0]> ∅) [MessageDispatcher.Waiting] w1 0 [])) /\
  (is_request (RequestId := RequestId) out = false ->
     ct_write (Dispatcher.Single out) (exchanging se c ∅ [] w 0 []) = (Ok NoResponse, exchanging se c ∅ [] w1 0 [])).
Proof.
  intros Hj Hr. split; [intros id Hq Hid|intros Hq]; cbn [ct_write exchange_transport client_transport];
    unfold with_sender, exchanging; cbn [message_sender write_half]; unfold act_bind, MessageDispatcher.store_pending_request_for_message;
    rewrite Hq; try rewrite Hid; unfold MessageDispatcher.serialize; rewrite Hj; cbn; by rewrite Hr.
Qed.

(** The reader's view of what was delivered. *)
Definition delivers_line (chunks : list bytes) (json : str) (rest : bytes) : Prop :=
  Forall (fun c => c <> []) chunks /\ concat chunks = json ++ LF :: rest /\ LF ∉ json /\ length json <= max_line_length o.
Lemma stream_data (chunks : list bytes) : stream ((Data <$> chunks) : list (LineReader.item unit)) = concat chunks.
Proof. induction chunks as [|c cs IH]; [done|]. rewrite fmap_cons, stream_cons. cbn [concat]. by f_equal. Qed.
Lemma exchange_next se c p cs w json rest m : delivers_line (delivered w) json rest -> decode (line_to_string json) = Some m ->
  exists n r, ct_next (exchanging se c p cs w 0 []) = (Item m, exchanging se c p cs w n r).
Proof.
  intros (Hne & Hc & Hl & Hm) Hd. cbn [ct_next exchange_transport client_transport]. unfold stream_next, world, exchanging.
  cbn [message_sender taken reader is_shut_down ended opts standalone mbind option_bind MessageDispatcher.writable_tx t_world app].
  rewrite drop_0.
  destruct (next_line_item decode (length (stream (IoError := unit) (Data <$> delivered w))) (max_line_length o) (negb true)
              (Data <$> delivered w) json rest m) as (r' & E & _); [|by rewrite stream_data|done..|].
  - apply Forall_fmap. eapply Forall_impl; [exact Hne|]. intros c' Hc'. by exists c'.
  - unfold ended. cbn [standalone message_sender mbind option_bind MessageDispatcher.writable_tx alive].
    rewrite E. by eexists _, r'.
Qed.
Lemma exchange_deliver id m se c w n r : exists p,
  ct_deliver id m (exchanging se c (<[id := 0]> ∅) [MessageDispatcher.Waiting] w n r) =
  (Some true, exchanging se c p [MessageDispatcher.Sent m] w n r).
Proof.
  eexists. cbn [ct_deliver exchange_transport client_transport]. unfold deliver, pending_request_tx, exchanging. cbn [message_sender].
  unfold MessageDispatcher.pending_request_tx. cbn [MessageDispatcher.pending_requests]. rewrite lookup_insert_eq. done.
Qed.
Lemma exchange_await timeout m se c p w n r :
  ct_await timeout (One 0) (exchanging se c p [MessageDispatcher.Sent m] w n r) =
  (Ok (Some (Dispatcher.Single m)), exchanging se c p [MessageDispatcher.ReceiverDropped] w n r).
Proof. done. Qed.

(** *** The exchanges of the runtime *)

Context (from_message : MessageFromClient -> option Z -> result Out RpcError).
Context (answer_message : ResultFromClient + RpcError -> RequestId -> result Out RpcError).
Context (handle_request : RequestId -> Req -> Act state RpcError ResultFromClient).
Context (handle_notification : Notif -> Act state McpSdkError unit) (handle_error : RpcError -> Act state McpSdkError unit).
Context (encode : bytes -> str).
Abbreviation start_stream :=
  (ClientRuntime.start_stream answer_message handle_request handle_notification handle_error encode (is_request (RequestId := RequestId))).
Definition remember (session : option str) s : state :=
  ClientRuntime.with_rt (fun r => if is_some (ClientRuntime.session_id r) then r
                                  else match session with Some id => ClientRuntime.set_session (Some id) r | None => r end) s.
Definition after_generate s : state := (ClientRuntime.generate_stream_id encode s).2.

(** Generating an id changes only the generator. *)
Lemma generated s : exists sid, ClientRuntime.generate_stream_id encode s = (sid, after_generate s) /\
  ClientRuntime.session_id (ClientRuntime.rt (after_generate s)) = ClientRuntime.session_id (ClientRuntime.rt s) /\
  ClientRuntime.has_options (ClientRuntime.rt (after_generate s)) = ClientRuntime.has_options (ClientRuntime.rt s) /\
  next_conversation (after_generate s) = next_conversation s.
Proof.
  unfold after_generate, ClientRuntime.generate_stream_id.
  destruct (FastIdGenerator.generate_id encode (ClientRuntime.stream_id_gen (ClientRuntime.rt s))) as [sid g]. by exists sid.
Qed.
Lemma last_lookup (l : list transport) x : (l ++ [x]) !! length l = Some x.
Proof. by apply list_lookup_middle. Qed.
Lemma last_insert (l : list transport) x y : <[length l := y]> (l ++ [x]) = l ++ [y].
Proof. rewrite insert_app_r_alt by lia. by rewrite Nat.sub_diag. Qed.
Lemma on_last {A} (f : Act transport Dispatcher.TransportError A) x s :
  ClientRuntime.on_transport (length (ClientRuntime.heap s)) f (with_transport x s) =
  ((match (f x).1 with Ok a => Ok a | Err e => Err (ETransport e) end), with_transport (f x).2 s).
Proof.
  unfold ClientRuntime.on_transport, with_transport. cbn [ClientRuntime.heap ClientRuntime.net ClientRuntime.rt ClientRuntime.sleeps ClientRuntime.user].
  rewrite last_lookup. destruct (f x) as [[a|e] y]; cbn; by rewrite last_insert.
Qed.

Lemma with_transport_lookup x s : ClientRuntime.heap (with_transport x s) !! length (ClientRuntime.heap s) = Some x.
Proof. apply last_lookup. Qed.
Lemma with_transport_put x y s :
  ClientRuntime.mkState (<[length (ClientRuntime.heap s) := y]> (ClientRuntime.heap (with_transport x s))) (ClientRuntime.net (with_transport x s))
    (ClientRuntime.rt (with_transport x s)) (ClientRuntime.sleeps (with_transport x s)) (ClientRuntime.user (with_transport x s)) = with_transport y s.
Proof. unfold with_transport. cbn [ClientRuntime.heap]. by rewrite last_insert. Qed.

(** The messages that answer a request. *)
Definition answers_to (id : RequestId) (m : In) : Prop :=
  (exists r, m = ClientRuntime.Response id r) \/
  (exists e, m = ClientRuntime.ErrorMessage (Some id) e /\ forall s, handle_error e s = (Ok tt, s)).
Lemma handle_answer id m x y s : answers_to id m -> ct_deliver id m x = (Some true, y) ->
  ClientRuntime.handle_item answer_message handle_request handle_notification handle_error
    (Dispatcher.Single m) (length (ClientRuntime.heap s)) (with_transport x s) = (Ok tt, with_transport y s).
Proof.
  intros Hm Hd. cbn [ClientRuntime.handle_item].
  assert (E : ClientRuntime.deliver_response (length (ClientRuntime.heap s)) id m (with_transport x s) = (Ok tt, with_transport y s)).
  { unfold ClientRuntime.deliver_response. rewrite with_transport_lookup, Hd. by rewrite with_transport_put. }
  destruct Hm as [[r ->]|(e & -> & He)]; cbn [ClientRuntime.handle_message]; unfold act_bind; [|rewrite He]; by rewrite E.
Qed.
Lemma finish_exchange timeout rx x y s res : ct_await timeout rx x = (Ok res, y) ->
  ClientRuntime.finish_send (length (ClientRuntime.heap s)) (negb (is_some (ClientRuntime.session_id (ClientRuntime.rt s)))) timeout rx
    (with_transport x s) = (Ok res, remember (ct_session_id y) (with_transport y s)).
Proof.
  intros Ha. unfold ClientRuntime.finish_send, act_bind. rewrite on_last, Ha. cbn [fst snd]. unfold act_modify, act_ret. do 2 f_equal.
  unfold remember. rewrite with_transport_lookup. cbn [mbind option_bind]. unfold ClientRuntime.with_rt.
  destruct (is_some (ClientRuntime.session_id (ClientRuntime.rt s))) eqn:E; cbn [negb];
    change (ClientRuntime.rt (with_transport y s)) with (ClientRuntime.rt s); rewrite E; [by destruct s|].
  destruct (ct_session_id y); [done|by destruct s].
Qed.

Lemma start_stream_answered s out payload id m json rest w timeout : answers_to id m ->
  let se := ClientRuntime.session_id (ClientRuntime.rt s) in
  let c := next_conversation s in
  ClientRuntime.has_options (ClientRuntime.rt s) = true ->
  is_request (RequestId := RequestId) out = true -> request_id out = Some id -> to_json (RequestId := RequestId) out = Some payload ->
  StreamableHttpStream.run (max_retries o) (retry_delay o) cancelled read_open (trim payload) (fresh_world se c) = (Ok tt, w) ->
  delivers_line (delivered w) json rest ->
  decode (line_to_string json) = Some (Dispatcher.Single m) ->
  exists p cs n rd,
    start_stream (Dispatcher.Single out) timeout s =
    Some (Ok (Some (Dispatcher.Single m)),
          remember (ClientStream.session_id w) (with_transport (exchanging se c p cs w n rd) (after_generate s))).
Proof.
  intros Hans se c Ho Hq Hid Hj Hr Hl Hd. destruct (generated s) as (sid & Eg & Ese & Eo & Ec).
  unfold start_stream, ClientRuntime.start_stream. rewrite Eg, exchange_opened by congruence. rewrite Ese, Ec. fold se c.
  rewrite on_last. rewrite (proj1 (exchange_written out payload se c (fresh_world se c) w Hj Hr) id Hq Hid). cbn [fst snd].
  unfold ClientRuntime.has_request. rewrite Hq. cbn [negb ClientRuntime.receive_task]. rewrite with_transport_lookup.
  destruct (exchange_next se c (<[id := 0]> ∅) [MessageDispatcher.Waiting] w json rest _ Hl Hd) as (n & rd & ->).
  destruct (exchange_deliver id m se c w n rd) as (p & Ed).
  rewrite with_transport_put, (handle_answer id m _ _ _ Hans Ed).
  assert (E : forall b : bool, (if b then Some (with_transport (exchanging se c p [MessageDispatcher.Sent m] w n rd) (after_generate s))
                       else Some (with_transport (exchanging se c p [MessageDispatcher.Sent m] w n rd) (after_generate s)))
                      = Some (with_transport (exchanging se c p [MessageDispatcher.Sent m] w n rd) (after_generate s)))
    by (by intros []).
  rewrite E. cbn [mbind option_bind]. replace (is_some se) with (is_some (ClientRuntime.session_id (ClientRuntime.rt (after_generate s)))) by (by rewrite Ese).
  rewrite (finish_exchange timeout (One 0) _ _ _ _ (exchange_await timeout _ _ _ _ _ _ _)).
  by eexists p, _, n, rd.
Qed.

(** A message that asks for nothing, once the reply accepted it. *)
Lemma start_stream_accepted s out payload w timeout :
  let se := ClientRuntime.session_id (ClientRuntime.rt s) in
  let c := next_conversation s in
  ClientRuntime.has_options (ClientRuntime.rt s) = true ->
  is_request (RequestId := RequestId) out = false -> to_json (RequestId := RequestId) out = Some payload ->
  StreamableHttpStream.run (max_retries o) (retry_delay o) cancelled read_open (trim payload) (fresh_world se c) = (Ok tt, w) ->
  start_stream (Dispatcher.Single out) timeout s =
  Some (Ok None, remember (ClientStream.session_id w) (with_transport (exchanging se c ∅ [] w 0 []) (after_generate s))).
Proof.
  intros se c Ho Hq Hj Hr. destruct (generated s) as (sid & Eg & Ese & Eo & Ec).
  unfold start_stream, ClientRuntime.start_stream. rewrite Eg, exchange_opened by congruence. rewrite Ese, Ec. fold se c.
  rewrite on_last. rewrite (proj2 (exchange_written out payload se c (fresh_world se c) w Hj Hr) Hq). cbn [fst snd].
  unfold ClientRuntime.has_request. rewrite Hq. cbn [negb].
  replace (is_some se) with (is_some (ClientRuntime.session_id (ClientRuntime.rt (after_generate s)))) by (by rewrite Ese).
  rewrite (finish_exchange timeout NoResponse (exchanging se c ∅ [] w 0 []) (exchanging se c ∅ [] w 0 []) _ None); [done|reflexivity].
Qed.

(** *** Replies that answer a message *)

Context (live : forall w, cancelled w = false) (open : forall w, read_open w = true).
(** A body whose first chunk with data completes one event, [json], or is [json]. *)
Inductive answer (h : H) (body : list bytes) (json : str) : Prop :=
| AnswerStream pre c rest : validate_response_type h = Ok EventStream -> body = pre ++ c :: rest ->
    datas (SseParser.feed SseParser.new pre).2 = [] ->
    datas (SseParser.process_new_chunk (SseParser.feed SseParser.new pre).1 c).2 = [json ++ [LF]] -> answer h body json
| AnswerJson : validate_response_type h = Ok Json -> concat body = json -> answer h body json.
Definition replies_with (c : conversation H) (json : str) (session : option str) : Prop :=
  exists h body rs, stream_replies c = Reply 200%N h (Chunk <$> body) :: rs /\ answer h body json /\ session = get_str h (s! "mcp-session-id").
Definition accepts (c : conversation H) : Prop :=
  exists st h body rs, stream_replies c = Reply st h body :: rs /\ (200 <= st < 300)%N /\ st <> 200%N.
Definition line_of_json (json : str) : Prop := json <> [] /\ LF ∉ json /\ length json <= max_line_length o.

Lemma answer_run se c json session payload : session_ok (fresh_world se c) -> replies_with c json session -> line_of_json json ->
  exists w, StreamableHttpStream.run (max_retries o) (retry_delay o) cancelled read_open payload (fresh_world se c) = (Ok tt, w) /\
    delivers_line (delivered w) json [] /\ ClientStream.session_id w = session /\ actions w = [Post se payload].
Proof.
  intros Hs (h & body & rs & Hr & Ha & ->) (Hne & Hl & Hm).
  destruct Ha as [pre c0 rest Hv -> Hd Hc|Hv Hb].
  - rewrite (post_head _ _ _ _ live open _ _ 200%N h (Chunk <$> (pre ++ c0 :: rest)) rs) by done.
    rewrite bool_decide_eq_true_2, Hv by done.
    pose proof (posting_spec (max_retries o) (retry_delay o) cancelled read_open live open [] (pre ++ c0 :: rest) [] pre c0 rest [] rs
                  (StreamableHttpStream.mkPost SseParser.new None false false None) (posted payload h (fresh_world se c) rs) (length rs)) as P.
    cbn [length Nat.add] in P. rewrite P; try done.
    + eexists. split; [reflexivity|]. cbn [delivered ClientStream.session_id actions posted fresh_world app concat StreamableHttpStream.parser].
      rewrite Hc. split; [|done]. split_and!; [by destruct json; repeat constructor|cbn; by rewrite app_nil_r|done|done].
    + apply posted_session_ok.
    + by left.
    + cbn [concat app StreamableHttpStream.parser]. by rewrite Hc.
  - rewrite (post_json _ _ _ _ live open _ _ h body rs) by done. eexists. split; [reflexivity|].
    cbn [delivered ClientStream.session_id actions posted fresh_world deliver app]. rewrite Hb. split; [|done].
    split_and!; [by repeat constructor|done..].
Qed.
Lemma accepts_run se c payload : session_ok (fresh_world se c) -> accepts c ->
  exists w, StreamableHttpStream.run (max_retries o) (retry_delay o) cancelled read_open payload (fresh_world se c) = (Ok tt, w) /\
    actions w = [Post se payload].
Proof.
  intros Hs (st & h & body & rs & Hr & Hst & Hne). eexists. split; [by apply (post_accepted _ _ _ _ live open _ _ st h body rs)|done].
Qed.

(** *** [send] *)

Context (is_request_fc is_notification_fc : MessageFromClient -> bool).
Context (as_single : Messages In -> result In SdkError) (as_single_ok : forall m, as_single (Dispatcher.Single m) = Ok m).
Abbreviation send := (ClientRuntime.send from_message answer_message handle_request handle_notification handle_error encode
  (is_request (RequestId := RequestId)) is_request_fc is_notification_fc as_single).

(** What one exchange changes: a transport that posted [payload], the network,
    the generators and, if there was none, the session id. *)
Record exchanged (payload : str) (session : option str) (g : RequestIdGenNumeric.t) s s' : Prop := {
  x_transport : exists x, ClientRuntime.heap s' = ClientRuntime.heap s ++ [x] /\
    actions (world x) = [Post (ClientRuntime.session_id (ClientRuntime.rt s)) payload];
  x_net : ClientRuntime.net s' = tail (ClientRuntime.net s);
  x_session : ClientRuntime.session_id (ClientRuntime.rt s') =
    if is_some (ClientRuntime.session_id (ClientRuntime.rt s)) then ClientRuntime.session_id (ClientRuntime.rt s) else session;
  x_gen : ClientRuntime.request_id_gen (ClientRuntime.rt s') = g;
  x_options : ClientRuntime.has_options (ClientRuntime.rt s') = ClientRuntime.has_options (ClientRuntime.rt s);
  x_details : ClientRuntime.server_details (ClientRuntime.rt s') = ClientRuntime.server_details (ClientRuntime.rt s);
  x_handlers : ClientRuntime.handlers (ClientRuntime.rt s') = ClientRuntime.handlers (ClientRuntime.rt s);
  x_user : ClientRuntime.user s' = ClientRuntime.user s;
}.
Lemma remember_exchanged payload session g s x w : 
  actions (world x) = [Post (ClientRuntime.session_id (ClientRuntime.rt s)) payload] -> ClientStream.session_id w = session ->
  exchanged payload session g s
    (remember (ClientStream.session_id w) (with_transport x (after_generate (ClientRuntime.with_rt (ClientRuntime.set_gen g) s)))).
Proof.
  intros Ha <-. unfold remember, after_generate, ClientRuntime.generate_stream_id, with_transport.
  destruct (FastIdGenerator.generate_id encode _) as [sid sg].
  split; cbn [snd ClientRuntime.heap ClientRuntime.net ClientRuntime.rt ClientRuntime.user ClientRuntime.with_rt ClientRuntime.set_stream_gen
    ClientRuntime.set_gen ClientRuntime.session_id]; try done; try (by eexists);
    destruct (ClientRuntime.session_id (ClientRuntime.rt s)) eqn:E; cbn; destruct (ClientStream.session_id w); done.
Qed.

Definition visible_session s : Prop :=
  forall id, ClientRuntime.session_id (ClientRuntime.rt s) = Some id -> Forall (fun c => visible c = true) id.
(** A request, and the line that answers it. *)
Definition asks (message : MessageFromClient) (g : RequestIdGenNumeric.t) (payload : str) (id : RequestId) : Prop :=
  is_request_fc message = true /\ exists out, from_message message (Some (RequestIdGenNumeric.message_id_counter g)) = Ok out /\
  is_request (RequestId := RequestId) out = true /\ request_id out = Some id /\ to_json (RequestId := RequestId) out = Some payload.
Definition tells (message : MessageFromClient) (payload : str) : Prop :=
  is_request_fc message = false /\ is_notification_fc message = true /\ exists out, from_message message None = Ok out /\
  is_request (RequestId := RequestId) out = false /\ to_json (RequestId := RequestId) out = Some payload.
Definition responds (json : str) (id : RequestId) (r : Resp) : Prop :=
  line_of_json json /\ decode (line_to_string json) = Some (Dispatcher.Single (ClientRuntime.Response id r)).

Lemma send_answered env message timeout s payload id json m session :
  ClientRuntime.has_options (ClientRuntime.rt s) = true -> visible_session s ->
  asks message (ClientRuntime.request_id_gen (ClientRuntime.rt s)) payload id ->
  replies_with (next_conversation s) json session -> line_of_json json ->
  decode (line_to_string json) = Some (Dispatcher.Single m) -> answers_to id m ->
  exists s', send env message None timeout s = Some (Ok (Some m), s') /\
    exchanged (trim payload) session (RequestIdGenNumeric.next_request_id (ClientRuntime.request_id_gen (ClientRuntime.rt s))).2 s s'.
Proof.
  intros Ho Hv [Hq (out & Hm & Hqo & Hid & Hj)] Hr Hl Hd Hans. unfold ClientRuntime.send. rewrite Ho. cbn [negb andb].
  unfold RequestIdGenNumeric.request_id_for_message. rewrite Hq. cbn [RequestIdGenNumeric.next_request_id mbind option_bind].
  rewrite Hm. set (g := (RequestIdGenNumeric.next_request_id (ClientRuntime.request_id_gen (ClientRuntime.rt s))).2).
  change (ClientRuntime.has_options (ClientRuntime.rt (ClientRuntime.with_rt _ s))) with (ClientRuntime.has_options (ClientRuntime.rt s)).
  rewrite Ho. destruct (answer_run (ClientRuntime.session_id (ClientRuntime.rt s)) _ json session (trim payload) Hv Hr Hl) as (w & Hw & Hdl & Hs & Ha).
  destruct (start_stream_answered (ClientRuntime.with_rt (ClientRuntime.set_gen g) s) out payload id m json [] w timeout)
    as (p & cs & n & rd & E); [done..|].
  change (ClientRuntime.with_rt (ClientRuntime.set_gen _) s) with (ClientRuntime.with_rt (ClientRuntime.set_gen g) s).
  rewrite E. unfold ClientRuntime.then_convert. cbn [mbind option_bind ClientRuntime.convert]. rewrite as_single_ok.
  eexists. split; [reflexivity|]. by apply remember_exchanged.
Qed.
Lemma send_accepted env message timeout s payload :
  ClientRuntime.has_options (ClientRuntime.rt s) = true -> visible_session s -> tells message payload -> accepts (next_conversation s) ->
  exists s' session, send env message None timeout s = Some (Ok None, s') /\
    exchanged (trim payload) session (ClientRuntime.request_id_gen (ClientRuntime.rt s)) s s'.
Proof.
  intros Ho Hv (Hq & Hn & out & Hm & Hqo & Hj) Hr. unfold ClientRuntime.send. rewrite Ho. cbn [negb andb].
  unfold RequestIdGenNumeric.request_id_for_message. rewrite Hq, Hn. cbn [negb mbind option_bind]. rewrite Hm.
  change (ClientRuntime.has_options (ClientRuntime.rt (ClientRuntime.with_rt _ s))) with (ClientRuntime.has_options (ClientRuntime.rt s)).
  rewrite Ho. destruct (accepts_run (ClientRuntime.session_id (ClientRuntime.rt s)) _ (trim payload) Hv Hr) as (w & Hw & Ha).
  set (g := ClientRuntime.request_id_gen (ClientRuntime.rt s)).
  rewrite (start_stream_accepted (ClientRuntime.with_rt (ClientRuntime.set_gen g) s) out payload w timeout) by done.
  eexists _, _. split; [reflexivity|]. by apply remember_exchanged.
Qed.
End Exchange.
End StreamableClientFacts.

Section Properties.
Import ClientStreamableTransport StreamableClientFacts.
Context {H : Type} `{HeaderMapLaws H} {RequestId : Type} `{Countable RequestId}.
Context {Req Notif Resp Out W St MessageFromClient ResultFromClient Details U : Type} `{!AsyncWrite W} `{!PieceWriter W} `{!EventStore St}.
Abbreviation In := (ClientRuntime.ServerMessage RequestId Req Notif Resp).
Context `{!Message RequestId In} `{!Message RequestId Out} `{!Received RequestId Resp In}.
Context (show_error : Dispatcher.TransportError -> str) (decode : str -> option (Messages In)).
Context (cancelled read_open : World H -> bool) (parse_name : str -> result str str) (invalid_value : str) (o : options).
Abbreviation transport := (ClientStreamableTransport.t H RequestId In W St).
Abbreviation network := (list (conversation H)).
#[local] Instance the_transport : ClientTransport RequestId In Out network transport :=
  client_transport show_error decode cancelled read_open parse_name invalid_value o.
Abbreviation state := (ClientRuntime.state Details network transport U).
Implicit Types (s : state).
Context (from_message : MessageFromClient -> option Z -> result Out RpcError).
Context (answer_message : ResultFromClient + RpcError -> RequestId -> result Out RpcError).
Context (handle_request : RequestId -> Req -> Act state RpcError ResultFromClient).
Context (handle_notification : Notif -> Act state McpSdkError unit) (handle_error : RpcError -> Act state McpSdkError unit).
Context (encode : bytes -> str) (is_request_fc is_notification_fc : MessageFromClient -> bool).
Context (as_single : Messages In -> result In SdkError).
Abbreviation send := (ClientRuntime.send from_message answer_message handle_request handle_notification handle_error encode
  (is_request (RequestId := RequestId)) is_request_fc is_notification_fc as_single).

(** A request of the client over HTTP is answered: a fresh transport posts
    the trimmed payload once, with the session id; if the reply is JSON or a
    stream whose first chunk with data completes one event, that line is the
    response to the request's id and is what [send] returns.  The first session
    id a server gives is kept, and later ones are ignored.  A notification that
    is accepted is posted once and returns nothing. *)
Theorem http_exchange env timeout s c later :
  headers_ok (H := H) parse_name invalid_value o -> (forall w, cancelled w = false) -> (forall w, read_open w = true) ->
  (forall m, as_single (Dispatcher.Single m) = Ok m) ->
  ClientRuntime.has_options (ClientRuntime.rt s) = true -> visible_session s -> ClientRuntime.net s = c :: later ->
  (forall request payload id json r session,
     asks from_message is_request_fc request (ClientRuntime.request_id_gen (ClientRuntime.rt s)) payload id ->
     replies_with c json session -> responds decode o json id r ->
     exists s' x, send env request None timeout s = Some (Ok (Some (ClientRuntime.Response id r)), s') /\
       ClientRuntime.heap s' = ClientRuntime.heap s ++ [x] /\
       actions (world x) = [Post (ClientRuntime.session_id (ClientRuntime.rt s)) (trim payload)] /\
       ClientRuntime.net s' = later /\
       ClientRuntime.session_id (ClientRuntime.rt s') =
         if is_some (ClientRuntime.session_id (ClientRuntime.rt s)) then ClientRuntime.session_id (ClientRuntime.rt s) else session) /\
  (forall notification payload,
     tells from_message is_request_fc is_notification_fc notification payload -> accepts c ->
     exists s' x, send env notification None timeout s = Some (Ok None, s') /\
       ClientRuntime.heap s' = ClientRuntime.heap s ++ [x] /\
       actions (world x) = [Post (ClientRuntime.session_id (ClientRuntime.rt s)) (trim payload)] /\
       ClientRuntime.net s' = later).
Proof.
  intros Hh live open Has Ho Hv Hn. assert (Hc : next_conversation s = c) by (unfold next_conversation; by rewrite Hn). split.
  - intros request payload id json r session Hq Hr Hp. rewrite <-Hc in Hr.
    destruct (send_answered show_error decode cancelled read_open parse_name invalid_value o Hh from_message answer_message handle_request
      handle_notification handle_error encode live open is_request_fc is_notification_fc as_single Has env request timeout s payload id json _
      session Ho Hv Hq Hr (proj1 Hp) (proj2 Hp) (or_introl (ex_intro _ r eq_refl))) as (s' & E & [(x & Hx & Ha) Hnet Hse _ _ _ _ _]).
    exists s', x. rewrite Hn in Hnet. by split_and!.
  - intros notification payload Ht Hacc. rewrite <-Hc in Hacc.
    destruct (send_accepted show_error decode cancelled read_open parse_name invalid_value o Hh from_message answer_message handle_request
      handle_notification handle_error encode live open is_request_fc is_notification_fc as_single env notification timeout s payload
      Ho Hv Ht Hacc) as (s' & session & E & [(x & Hx & Ha) Hnet _ _ _ _ _ _]).
    exists s', x. rewrite Hn in Hnet. by split_and!.
Qed.

Context (client_version : str) (server_version : Details -> str) (as_initialize_result : Resp -> option Details).
Context (initialize_message initialized_message : MessageFromClient).
Abbreviation initialize_request := (ClientRuntime.initialize_request from_message answer_message handle_request handle_notification handle_error
  encode (is_request (RequestId := RequestId)) is_request_fc is_notification_fc as_single client_version server_version as_initialize_result
  initialize_message initialized_message).

(** C31. Connecting over HTTP, for a client that has no session yet and a
    server whose answer is either a JSON body or an event stream whose first
    chunk with data completes exactly that one event: the client posts the
    initialize request without a session id, and keeps the session id the
    answer carries, whatever follows. When the answer is an initialize result
    of a server that is not newer, its details are stored, the standalone
    stream is spawned, and the initialized notification is posted with the
    session id; when it is newer, or the result is another one, the client
    reports so, stores no details and sends nothing more. *)
Theorem client_initialization env s c1 c2 later request notification id json r session :
  headers_ok (H := H) parse_name invalid_value o -> (forall w, cancelled w = false) -> (forall w, read_open w = true) ->
  (forall m, as_single (Dispatcher.Single m) = Ok m) ->
  (forall id r, is_error (ClientRuntime.Response id r) = false /\ as_response (ClientRuntime.Response id r) = Ok (id, r)) ->
  ClientRuntime.has_options (ClientRuntime.rt s) = true -> ClientRuntime.session_id (ClientRuntime.rt s) = None ->
  ClientRuntime.net s = c1 :: c2 :: later ->
  asks from_message is_request_fc initialize_message (ClientRuntime.request_id_gen (ClientRuntime.rt s)) request id ->
  replies_with c1 json session -> responds decode o json id r ->
  tells from_message is_request_fc is_notification_fc initialized_message notification -> accepts c2 ->
  exists s' x1, (is_some session = true -> ClientRuntime.session_id (ClientRuntime.rt s') = session) /\ actions (world x1) = [Post None (trim request)] /\
  match as_initialize_result r with
  | Some d =>
      match str_cmp client_version (server_version d) with
      | Lt => initialize_request env s = Some (Err (EProtocol (IncompatibleVersion client_version (server_version d))), s') /\
              ClientRuntime.heap s' = ClientRuntime.heap s ++ [x1] /\ ClientRuntime.net s' = c2 :: later /\
              ClientRuntime.server_info s' = ClientRuntime.server_info s
      | _ => initialize_request env s = Some (Ok tt, s') /\ ClientRuntime.server_info s' = Some d /\
             (exists x2, ClientRuntime.heap s' = ClientRuntime.heap s ++ [x1; x2] /\ actions (world x2) = [Post session (trim notification)]) /\
             ClientRuntime.net s' = later /\
             ClientRuntime.handlers (ClientRuntime.rt s') = S (ClientRuntime.handlers (ClientRuntime.rt s))
      end
  | None => initialize_request env s = Some (Err ClientRuntime.INCORRECT_RESPONSE, s') /\
            ClientRuntime.heap s' = ClientRuntime.heap s ++ [x1] /\ ClientRuntime.net s' = c2 :: later /\
            ClientRuntime.server_info s' = ClientRuntime.server_info s
  end.
Proof.
  intros Hh live open Has Hrec Ho Hse Hn Hq Hr Hp Ht Hacc.
  assert (Hc : next_conversation s = c1) by (unfold next_conversation; by rewrite Hn).
  assert (Hvis : visible_session s) by (unfold visible_session; by rewrite Hse). pose proof Hr as Hr'. rewrite <-Hc in Hr.
  destruct (send_answered show_error decode cancelled read_open parse_name invalid_value o Hh from_message answer_message handle_request
    handle_notification handle_error encode live open is_request_fc is_notification_fc as_single Has env initialize_message None s request id
    json _ session Ho Hvis Hq Hr (proj1 Hp) (proj2 Hp) (or_introl (ex_intro _ r eq_refl))) as (s1 & E & [(x1 & Hx & Ha) Hnet Hsess Hgen Hopt Hdet Hhand _]).
  change (send env initialize_message None None s = Some (Ok (Some (ClientRuntime.Response id r)), s1)) in E.
  rewrite Hse in Hsess, Ha. cbn [is_some] in Hsess. rewrite Hn in Hnet. cbn [tail] in Hnet.
  assert (Er : ClientRuntime.request from_message answer_message handle_request handle_notification handle_error encode
    (is_request (RequestId := RequestId)) is_request_fc is_notification_fc as_single env initialize_message None s = Some (Ok r, s1)).
  { unfold ClientRuntime.request, ClientRuntime.and_then. rewrite E. destruct (Hrec id r) as [He Hres].
    cbn [mbind option_bind]. unfold response_result, act_bind, ok_or, lift_rpc, lift_sdk, act_lift. by rewrite He, Hres. }
  assert (Hk : forall k, ClientRuntime.and_then (A := Resp) (B := unit) (ClientRuntime.request from_message answer_message handle_request
    handle_notification handle_error encode (is_request (RequestId := RequestId)) is_request_fc is_notification_fc as_single env
    initialize_message None) k s = k r s1) by (intros k; unfold ClientRuntime.and_then; by rewrite Er).
  unfold ClientRuntime.initialize_request. rewrite !Hk. destruct (as_initialize_result r) as [d|]; [|by exists s1, x1].
  unfold ClientRuntime.and_then, ensure_server_protocole_compatibility.
  set (s2 := ClientRuntime.with_rt (fun r => ClientRuntime.set_handlers (S (ClientRuntime.handlers r)) r)
               (ClientRuntime.with_rt (ClientRuntime.set_details (Some d)) s1)).
  destruct (send_accepted show_error decode cancelled read_open parse_name invalid_value o Hh from_message answer_message handle_request
    handle_notification handle_error encode live open is_request_fc is_notification_fc as_single env initialized_message None s2 notification)
    as (s3 & se3 & E3 & [(x2 & Hx2 & Ha2) Hnet2 Hsess2 _ _ Hdet2 Hhand2 _]).
  - cbn. congruence.
  - unfold visible_session. cbn. rewrite Hsess. destruct Hr' as (h & body & rs & _ & _ & ->). intros i Hi. by apply HttpFacts.get_str_readable in Hi.
  - done.
  - unfold next_conversation. cbn. by rewrite Hnet.
  - change (send env initialized_message None None s2 = Some (Ok None, s3)) in E3. cbn in Hx2, Ha2, Hnet2, Hsess2, Hdet2, Hhand2.
    rewrite Hnet in Hnet2. rewrite Hsess in Ha2, Hsess2. rewrite Hhand in Hhand2. rewrite Hx, <-app_assoc in Hx2.
    assert (Hs3 : ClientRuntime.session_id (ClientRuntime.rt s3) = if is_some session then session else se3) by done. clear Hsess2.
    assert (E4 : ClientRuntime.send_notification from_message answer_message handle_request handle_notification handle_error encode
      (is_request (RequestId := RequestId)) is_request_fc is_notification_fc as_single env initialized_message s2 = Some (Ok tt, s3))
      by (unfold ClientRuntime.send_notification, ClientRuntime.and_then; by rewrite E3).
    destruct (str_cmp client_version (server_version d)); [exists s3, x1|by exists s1, x1|exists s3, x1];
      (split; [intros Hsome; by rewrite Hs3, Hsome|]); (split; [done|]);
      (split; [exact E4|]); (split; [exact Hdet2|]); (split; [by exists x2|done]).
Qed.
End Properties.

(** ** A client on which the claims are tried *)

Module StreamableClientDemo.
Import ClientStreamFacts ClientStreamableTransport StreamableClientFacts ClientStreamExamples.
Inductive out := Ask (id : Z) (payload : str) | Tell (payload : str).
Abbreviation In := (ClientRuntime.ServerMessage Z unit nat str).
#[global] Instance out_message : Message Z out := {|
  is_request := fun m => match m with Ask _ _ => true | _ => false end;
  request_id := fun m => match m with Ask i _ => Some i | _ => None end;
  to_json := fun m => match m with Ask _ p | Tell p => Some p end;
  batch_to_json := fun _ => None;
  error_message := fun _ _ => Tell [];
|}.
#[global] Instance in_message : Message Z In := {|
  is_request := fun m => match m with ClientRuntime.Request _ _ => true | _ => false end;
  request_id := fun m => match m with ClientRuntime.Request i _ | ClientRuntime.Response i _ => Some i | ClientRuntime.ErrorMessage i _ => i
                         | _ => None end;
  to_json := fun _ => None;
  batch_to_json := fun _ => None;
  error_message := fun e i => ClientRuntime.ErrorMessage i e;
|}.
#[global] Instance received : Received Z str In := {|
  is_error := fun m => match m with ClientRuntime.ErrorMessage _ _ => true | _ => false end;
  as_error := fun m => match m with ClientRuntime.ErrorMessage _ e => Ok e | _ => Err (mkSdkError internal_error None) end;
  as_response := fun m => match m with ClientRuntime.Response i r => Ok (i, r) | _ => Err (mkSdkError internal_error None) end;
|}.
#[global] Instance pieces : PieceWriter bytes := {| new_writer := []; take_pieces := fun w => ([w], []) |}.

Definition from_message (m : bool * str) (id : option Z) : result out RpcError :=
  match m, id with
  | (true, p), Some z => Ok (Ask z p)
  | (false, p), _ => Ok (Tell p)
  | _, _ => Err (mkRpcError internal_error None)
  end.
Definition decode (line : str) : option (Messages In) :=
  if decide (line = s! "{initialized}") then Some (Dispatcher.Single (ClientRuntime.Response 0%Z (s! "2025-06-18")))
  else if decide (line = s! "{note}") then Some (Dispatcher.Single (ClientRuntime.Notification 7))
  else None.
Definition as_single (m : Messages In) : result In SdkError :=
  match m with Dispatcher.Single m => Ok m | _ => Err (mkSdkError internal_error None) end.
Definition opts : options := mkOptions 60000 1000 None None None.
Abbreviation transport := (ClientStreamableTransport.t ListHeaders.t Z In bytes InMemoryEventStore.t).
Abbreviation network := (list (conversation ListHeaders.t)).
Definition parse_name (n : str) : result str str := Ok n.
#[local] Instance demo_transport : ClientTransport Z In out network transport :=
  client_transport (fun _ => []) decode never always parse_name [] opts.
Abbreviation state := (ClientRuntime.state str network transport (list nat)).
Definition start_state n : state := ClientRuntime.mkState [] n ClientRuntime.new_instance [] [].
Definition answer_message (r : unit + RpcError) (id : Z) : result out RpcError := Ok (Tell []).
Definition refuse (id : Z) (r : unit) : Act state RpcError unit := act_fail (mkRpcError internal_error None).
Definition record (n : nat) : Act state McpSdkError unit :=
  act_modify (fun s => ClientRuntime.mkState (ClientRuntime.heap s) (ClientRuntime.net s) (ClientRuntime.rt s) (ClientRuntime.sleeps s)
                         (ClientRuntime.user s ++ [n])).
Definition ignore (e : RpcError) : Act state McpSdkError unit := act_ret tt.
Definition idle (s : state) : state := s.
Abbreviation send := (ClientRuntime.send from_message answer_message refuse record ignore (fun b => b) (is_request (RequestId := Z)) fst
  (fun m => negb (fst m)) as_single).
Abbreviation initialize := (ClientRuntime.initialize_request from_message answer_message refuse record ignore (fun b => b)
  (is_request (RequestId := Z)) fst (fun m => negb (fst m)) as_single (s! "2025-06-18") (fun d => d)
  (fun r => Some r) (true, (s! "{initialize}") ++ [LF]) (false, s! "{notify}")).

Definition talk (body : list bytes) : conversation ListHeaders.t := mkConversation [Reply 200%N with_session (Chunk <$> body)] [].
Definition accepted : conversation ListHeaders.t := mkConversation [Reply 202%N [] []] [].

(** Only the first item of an exchange is handled: a response behind a
    notification in the same chunk is not, and the request times out. *)
Example response_behind_notification :
  option_map (fun '(r, s) => (r, ClientRuntime.user s))
    (send idle (true, s! "{ask}") None None (start_state [talk [message (s! "1") (s! "{note}") ++ message (s! "2") (s! "{initialized}")]]))
  = Some (Err (ETransport (Sdk (mkSdkError (request_timeout_ms 60000) None))), [7]).
Proof. vm_compute. reflexivity. Qed.

(** A JSON body of several lines is not decoded. *)
Definition json_reply (b : bytes) : conversation ListHeaders.t :=
  mkConversation [Reply 200%N [(CONTENT_TYPE, s! "application/json")] [Chunk b]] [].
Example json_of_two_lines :
  option_map fst (send idle (true, s! "{ask}") None None (start_state [json_reply ((s! "{") ++ LF :: (s! "initialized}"))]))
  = Some (Err (ETransport (Sdk (mkSdkError (request_timeout_ms 60000) None)))).
Proof. vm_compute. reflexivity. Qed.

Lemma headers_fine : headers_ok (H := ListHeaders.t) parse_name [] opts.
Proof. intros l. discriminate. Qed.
Lemma talk_replies json pre : datas (SseParser.feed SseParser.new pre).2 = [] ->
  datas (SseParser.process_new_chunk (SseParser.feed SseParser.new pre).1 (message (s! "1") json)).2 = [json ++ [LF]] ->
  replies_with (talk (pre ++ [message (s! "1") json])) json (Some (s! "S1")).
Proof.
  intros Hp Hm. exists with_session, (pre ++ [message (s! "1") json]), []. split; [done|]. split; [|vm_compute; reflexivity].
  by apply (AnswerStream _ _ _ pre (message (s! "1") json) []).
Qed.

Lemma http_exchange_witness :
  exists s' x, send idle (true, (s! "{ask}") ++ [LF]) None None (start_state [talk [priming; message (s! "1") (s! "{initialized}")]])
    = Some (Ok (Some (ClientRuntime.Response 0%Z (s! "2025-06-18"))), s') /\
    ClientRuntime.heap s' = [x] /\ actions (world x) = [Post None (s! "{ask}")] /\ ClientRuntime.session_id (ClientRuntime.rt s') = Some (s! "S1").
Proof.
  destruct (proj1 (http_exchange (fun _ => []) decode never always parse_name [] opts from_message answer_message refuse record ignore (fun b => b)
    fst (fun m => negb (fst m)) as_single idle None (start_state [talk [priming; message (s! "1") (s! "{initialized}")]])
    (talk ([priming] ++ [message (s! "1") (s! "{initialized}")])) [] headers_fine (fun _ => eq_refl) (fun _ => eq_refl) (fun _ => eq_refl) eq_refl
    ltac:(intros i; discriminate) eq_refl) (true, (s! "{ask}") ++ [LF]) ((s! "{ask}") ++ [LF]) 0%Z (s! "{initialized}") (s! "2025-06-18") (Some (s! "S1")))
    as (s' & x & E & Hx & Ha & _ & Hs).
  - split; [reflexivity|]. eexists. split; [reflexivity|]. by split_and!.
  - apply talk_replies; vm_compute; reflexivity.
  - split; [|vm_compute; reflexivity]. split; [done|]. split; [decided|vm_compute; lia].
  - exists s', x. split; [exact E|]. split; [exact Hx|]. split; [rewrite Ha; vm_compute; reflexivity|rewrite Hs; reflexivity].
Defined.

Lemma client_initialization_witness :
  exists s', initialize idle (start_state [talk [message (s! "1") (s! "{initialized}")]; accepted]) = Some (Ok tt, s') /\
    ClientRuntime.server_info s' = Some (s! "2025-06-18") /\
    (fun x => actions (world x)) <$> ClientRuntime.heap s' = [[Post None (s! "{initialize}")]; [Post (Some (s! "S1")) (s! "{notify}")]].
Proof.
  destruct (client_initialization (fun _ => []) decode never always parse_name [] opts from_message answer_message refuse record ignore (fun b => b)
    fst (fun m => negb (fst m)) as_single (s! "2025-06-18") (fun d => d) (fun r => Some r) (true, (s! "{initialize}") ++ [LF]) (false, s! "{notify}")
    idle (start_state [talk [message (s! "1") (s! "{initialized}")]; accepted]) (talk ([] ++ [message (s! "1") (s! "{initialized}")])) accepted []
    ((s! "{initialize}") ++ [LF]) (s! "{notify}") 0%Z (s! "{initialized}") (s! "2025-06-18") (Some (s! "S1"))
    headers_fine (fun _ => eq_refl) (fun _ => eq_refl) (fun _ => eq_refl) ltac:(intros; by split) eq_refl eq_refl eq_refl)
    as (s' & x1 & _ & Ha1 & E & Hd & (x2 & Hx & Ha2) & _).
  - split; [reflexivity|]. eexists. split; [reflexivity|]. by split_and!.
  - apply talk_replies; vm_compute; reflexivity.
  - split; [|vm_compute; reflexivity]. split; [done|]. split; [decided|vm_compute; lia].
  - split; [reflexivity|]. split; [reflexivity|]. eexists. by split_and!.
  - by exists 202%N, [], [], [].
  - exists s'. split; [exact E|]. split; [exact Hd|]. rewrite Hx. cbn [ClientRuntime.heap start_state fmap list_fmap app].
    rewrite Ha1, Ha2. vm_compute. reflexivity.
Defined.
End StreamableClientDemo.
