(* ===== verification/HttpSession.v ===== *)
(** * A session over streamable HTTP

    The client of crates/rust-mcp-sdk/src/mcp_runtimes/client_runtime.rs over
    its transport crates/rust-mcp-transport/src/client_streamable_http.rs, and
    the server of crates/rust-mcp-sdk/src/mcp_http/ with its runtime and the SSE
    transport: each post of the client is handled by the server's HTTP handler,
    the tasks this spawns run, and the bytes they write come back to the client
    in any chunks.  The claim is that a session over the network is the same as
    calling the server's handler. *)
From S2P Require Import Prelude RustStr LineReader Sse EventStore SessionStore IdGen Dispatcher SseBody Transport Auth TaskStore ServerRuntime Requests.
From S2P Require Import Http HttpHandler ClientStream ClientRuntime StreamableClient.
Import McpAppState.

(** ** The system *)

Module HttpSession.
Section Server.
Context {H : Type} `{HeaderMap H} {RequestId : Type} `{Countable RequestId}.
(** Messages of the client and of the server. *)
Context {Req Notif Resp SReq SNotif SResp : Type}.
Abbreviation CM := (ServerRuntime.ClientMessage RequestId Req Notif Resp).
Abbreviation SM := (ClientRuntime.ServerMessage RequestId SReq SNotif SResp).
Context `{!Message RequestId CM} `{!Message RequestId SM}.
Context {Extra Details St G ResultFromServer : Type} `{!SessionStore nat St} `{!IdGenerator G}.

(** A transport of the server: tokio's duplex pipes, which the other end
    empties, are the bytes written to them. *)
Abbreviation ServerTr := (SseTransport.t RequestId CM bytes unit InMemoryEventStore.t).
Abbreviation World := (McpAppState.t Extra Details ServerTr St G).
Abbreviation session := (ServerRuntime.state Extra Details ServerTr).
Context (as_batch : Messages CM -> result (list CM) SdkError) (show_error : Dispatcher.TransportError -> str) (clock : N)
  (env0 env : MessageDispatcher.t RequestId CM bytes unit InMemoryEventStore.t -> MessageDispatcher.t RequestId CM bytes unit InMemoryEventStore.t).
#[local] Instance server_transport : TransportDispatcher RequestId CM SM ServerTr :=
  sse_dispatcher as_batch show_error clock env0 env.
(** [SseTransport::new] with the options' timeout, and [make_resumable] with
    the event store. *)
Context (timeout : N) (store : InMemoryEventStore.t).
Definition new_transport (resumable : option (str * str)) : ServerTr :=
  let x := SseTransport.new [] [] timeout in
  match resumable with Some (se, st) => SseTransport.make_resumable se st store x | None => x end.

Context (now : N) (encode : bytes -> str) (parse_value : str -> option Value) (is_initialize_request : CM -> bool)
  (parse_version : str -> result unit str) (show_sdk_error : McpSdkError -> str).
(** The user's handler, and the messages made of its results. *)
Context (answer_message : ResultFromServer + RpcError -> RequestId -> result SM RpcError).
Context (handle_request : RequestId -> Req -> session -> result ResultFromServer RpcError * session).
Context (handle_notification : Notif -> Act session McpSdkError unit) (handle_error : RpcError -> Act session McpSdkError unit).
(** [serde_json::from_str::<ClientMessages>] and [max_line_length]. *)
Context (decode_client : str -> option (Messages CM)) (max : nat).

(** *** The tasks a post spawns *)

(** What the reader of a stream hands over of the bytes in its pipe. *)
Definition incoming (received : bytes) : list (Messages CM) :=
  let r : list (LineReader.item unit) := match received with [] => [] | _ => [Data received] end in
  from_option fst [] (spawn_reader decode_client max (fun _ => false) (fun _ => true) (S (length received)) 0 r).
Definition received_by (i : nat) (s : session) : bytes := from_option SseTransport.receiver_tx [] (ServerRuntime.heap s !! i).
(** The task of a stream, run until the handling of its message is done. *)
Definition run_stream (transport : nat) (stream_id : str) (payload : option str) (s : session) : session :=
  let started := (ServerRuntime.start_stream transport stream_id payload s).2 in
  let events := (ServerRuntime.Incoming <$> incoming (received_by transport started)) ++ [ServerRuntime.TaskDone 0] in
  (ServerRuntime.stream_task answer_message handle_request handle_notification handle_error transport stream_id payload events s).2.
(** A post spawns no other tasks than streams, and replays of nothing. *)
Definition run_task (w : World) (k : task) : World :=
  match k with
  | StreamTask runtime transport stream_id payload =>
      (on_runtime runtime (fun s => (Ok tt, run_stream transport stream_id payload s)) w).2
  | _ => w
  end.
Definition run_new (before : nat) (w : World) : World := foldl run_task w (drop before (tasks w)).

(** What a transport wrote, and its first line as [read_line] gives it. *)
Definition content (x : ServerTr) : bytes :=
  match SseTransport.message_sender x with
  | Some d => from_option (fun b => b) [] (MessageDispatcher.writable_std d)
  | None => []
  end.
Definition written_by (i : nat) (w : World) : bytes := from_option content [] (transports w !! i).
Definition BAD_LINE : str := s! "stream did not contain valid UTF-8".
Definition read_line (before i : nat) (w : World) : option (result str str) * World :=
  let w := run_new before w in
  let line := match SseFacts.split_lf (written_by i w) with (l :: _, _) => l | ([], rest) => rest end in
  (if bool_decide (line = []) then None else Some (if utf8_valid line then Ok line else Err BAD_LINE), w).

(** *** Serving a post *)

(** The request [http_post] builds, without custom headers. *)
Definition post_request (session_id : option bytes) (payload : str) : Request H Extra :=
  mkRequest (s! "POST") None
    (McpHttpHandler.with_headers ([(CONTENT_TYPE, s! "application/json"); (ACCEPT, s! "application/json, text/event-stream")]
                   ++ match session_id with Some v => [(MCP_SESSION_ID_HEADER, v)] | None => [] end))
    payload None.

(** The answer of the server, its body cut into chunks somehow, and the server
    once the tasks have run; the adapters make 500 of a handler's error. *)
Definition serve (cut : bytes -> list bytes) (session_id : option bytes) (payload : str) (w : World) : reply H * World :=
  let before := length (tasks w) in
  match McpHttpHandler.internal_handle_streamable_http now encode parse_value decode_client is_initialize_request parse_version
          show_sdk_error new_transport (fun w => w) (read_line before) (post_request session_id payload) w with
  | (Ok r, w) =>
      match resp_body r with
      | BStream i =>
          let w' := run_new before w in
          (Reply (status r) (resp_headers r) (Chunk <$> cut (body_bytes (body_frames (line_event (resumable w)) (written_by i w')))), w')
      | BText b => (Reply (status r) (resp_headers r) (Chunk <$> cut b), w)
      | _ => (Reply (status r) (resp_headers r) [], w)
      end
  | (Err _, w) => (Reply 500%N hm_new [], run_new before w)
  end.

(** *** The client's calls *)

Context {ServerInfo U W CSt ResultFromClient MessageFromClient : Type} `{!AsyncWrite W} `{!ClientStreamableTransport.PieceWriter W} `{!EventStore CSt}.
Abbreviation ClientTr := (ClientStreamableTransport.t H RequestId SM W CSt).
Abbreviation network := (list (ClientStreamableTransport.conversation H)).
Abbreviation client_state := (ClientRuntime.state ServerInfo network ClientTr U).
Context (decode_server : str -> option (Messages SM)) (cancelled read_open : ClientStream.World H -> bool)
  (parse_name : str -> result str str) (invalid_value : str) (o : ClientStreamableTransport.options).
#[local] Instance client_transport : ClientTransport RequestId SM CM network ClientTr :=
  ClientStreamableTransport.client_transport show_error decode_server cancelled read_open parse_name invalid_value o.
(** [ClientMessage::from_message], the client's handler, [as_single]. *)
Context (from_message : MessageFromClient -> option Z -> result CM RpcError) (is_request_fc is_notification_fc : MessageFromClient -> bool).
Context (client_answer : ResultFromClient + RpcError -> RequestId -> result CM RpcError).
Context (client_handle_request : RequestId -> SReq -> Act client_state RpcError ResultFromClient).
Context (client_handle_notification : SNotif -> Act client_state McpSdkError unit).
Context (client_handle_error : RpcError -> Act client_state McpSdkError unit).
Context (client_encode : bytes -> str) (as_single : Messages SM -> result SM SdkError) (client_env : client_state -> client_state).
Abbreviation send := (ClientRuntime.send from_message client_answer client_handle_request client_handle_notification client_handle_error
  client_encode (is_request (RequestId := RequestId)) is_request_fc is_notification_fc as_single client_env).

Definition with_net (n : network) (s : client_state) : client_state :=
  ClientRuntime.mkState (ClientRuntime.heap s) n (ClientRuntime.rt s) (ClientRuntime.sleeps s) (ClientRuntime.user s).
(** What the client will post for a message. *)
Definition outgoing (message : MessageFromClient) (s : client_state) : option str :=
  let id := if is_request_fc message then Some (RequestIdGenNumeric.message_id_counter (ClientRuntime.request_id_gen (ClientRuntime.rt s))) else None in
  match from_message message id with Ok m => trim <$> to_json (RequestId := RequestId) m | Err _ => None end.
(** [send], the network answering its post by what the server serves. *)
Definition call (cut : bytes -> list bytes) (message : MessageFromClient) (wait : option N) (x : client_state * World)
  : option (result (option SM) McpSdkError * (client_state * World)) :=
  let '(s, w) := x in
  let '(replies, w) := match outgoing message s with
                       | Some payload => let '(r, w) := serve cut (ClientRuntime.session_id (ClientRuntime.rt s)) payload w in ([r], w)
                       | None => ([], w)
                       end in
  '(r, s) ← send message None wait (with_net [ClientStreamableTransport.mkConversation replies []] s);
  Some (r, (s, w)).
(** Calls, one after the other. *)
Fixpoint converse (cuts : list (bytes -> list bytes)) (messages : list MessageFromClient) (x : client_state * World)
  : option (list (result (option SM) McpSdkError) * (client_state * World)) :=
  match messages, cuts with
  | [], _ => Some ([], x)
  | m :: ms, cut :: cuts =>
      '(r, x) ← call cut m None x;
      '(rs, x) ← converse cuts ms x;
      Some (r :: rs, x)
  | _, [] => None
  end.
End Server.

(** *** The specification: the handler is called directly *)

Section Direct.
Context {RequestId Req Notif SM Extra Details ResultFromServer : Type}.
Abbreviation runtime := (ServerRuntime.t Extra Details).
(** The handler, its messages, and the ids the client gives its requests. *)
Context (reply : RequestId -> Req -> runtime -> result ResultFromServer RpcError * runtime) (notified : Notif -> runtime -> runtime).
Context (answer : RequestId -> result ResultFromServer RpcError -> SM) (id_of : Z -> RequestId).
Inductive message := Ask (r : Req) | Tell (n : Notif).

Fixpoint direct (ms : list message) (g : RequestIdGenNumeric.t) (rt : runtime) : list (option SM) * runtime :=
  match ms with
  | [] => ([], rt)
  | Ask r :: ms =>
      let '(z, g) := RequestIdGenNumeric.next_request_id g in
      let '(res, rt) := reply (id_of z) r (ServerRuntime.update_auth_info None rt) in
      let '(rs, rt) := direct ms g rt in (Some (answer (id_of z) res) :: rs, rt)
  | Tell n :: ms =>
      let '(rs, rt) := direct ms g (notified n (ServerRuntime.update_auth_info None rt)) in (None :: rs, rt)
  end.

(** What the client posts for them. *)
Context (request_text : Z -> Req -> str) (notification_text : Notif -> str).
Fixpoint texts (ms : list message) (g : RequestIdGenNumeric.t) : list str :=
  match ms with
  | [] => []
  | Ask r :: ms => let '(z, g) := RequestIdGenNumeric.next_request_id g in trim (request_text z r) :: texts ms g
  | Tell n :: ms => trim (notification_text n) :: texts ms g
  end.
End Direct.
End HttpSession.

(** ** Facts *)

Module HttpSessionFacts.
Import SseBodyFacts.
Import HttpSession.

(** *** A line in a pipe, an event in chunks *)

Lemma incoming_line {RequestId Req Notif Resp : Type} (decode : str -> option (Messages (ServerRuntime.ClientMessage RequestId Req Notif Resp)))
    max (line : str) m : clean max line -> decode line = Some m -> incoming decode max (line ++ [LF]) = [m].
Proof.
  intros Hc Hd. unfold incoming. destruct (line ++ [LF]) as [|b bs] eqn:E; [by destruct line|]. rewrite <-E in *.
  assert (Hs : stream ([Data (line ++ [LF])] : list (LineReader.item unit)) = line ++ [LF]) by (cbn; by rewrite app_nil_r).
  rewrite spawn_reader_spec; rewrite ?Hs; [|repeat constructor; eexists; split; [done|by rewrite E]|lia].
  assert (A : forall n, all_lines (S n) max (line ++ [LF]) = Line line :: all_lines n max []).
  { intros n. cbn [all_lines]. rewrite first_line_clean by done. by rewrite E. }
  replace (length (line ++ [LF])) with (S (length line)) by (rewrite length_app; simpl; lia). rewrite A.
  cbn [from_option fst]. unfold LineReader.delivered. cbn [omap list_omap]. rewrite Hd. by destruct (length line).
Qed.

(** Of the chunks of one event, one completes it. *)
Lemma completing_chunk (p : SseParser.t) (chunks : list bytes) d : ClientStreamFacts.datas (SseParser.feed p chunks).2 = [d] ->
  exists pre c rest, chunks = pre ++ c :: rest /\ ClientStreamFacts.datas (SseParser.feed p pre).2 = [] /\
    ClientStreamFacts.datas (SseParser.process_new_chunk (SseParser.feed p pre).1 c).2 = [d].
Proof.
  revert p; induction chunks as [|c cs IH]; intros p; [done|]. cbn [SseParser.feed].
  destruct (SseParser.process_new_chunk p c) as [p1 e1] eqn:E1. destruct (SseParser.feed p1 cs) as [p2 e2] eqn:E2. cbn [snd].
  unfold ClientStreamFacts.datas. rewrite omap_app. fold (ClientStreamFacts.datas e1) (ClientStreamFacts.datas e2). intros Hd.
  destruct (ClientStreamFacts.datas e1) as [|d1 ds1] eqn:Ed.
  - destruct (IH p1) as (pre & c' & rest & -> & Hpre & Hc); [by rewrite E2|].
    exists (c :: pre), c', rest. split; [done|]. cbn [SseParser.feed]. rewrite E1.
    destruct (SseParser.feed p1 pre) as [p3 e3]. cbn [fst snd] in *. split; [|done].
    unfold ClientStreamFacts.datas in *. by rewrite omap_app, Ed, Hpre.
  - destruct ds1; [|done]. injection Hd as <- Hd. exists [], c, cs. split_and!; [done|done|]. cbn [SseParser.feed fst]. by rewrite E1.
Qed.

(** *** One message on a fresh stream of the server *)

Section Stream.
Context {RequestId : Type} `{Countable RequestId} {Req Notif Resp SReq SNotif SResp : Type}.
Abbreviation CM := (ServerRuntime.ClientMessage RequestId Req Notif Resp).
Abbreviation SM := (ClientRuntime.ServerMessage RequestId SReq SNotif SResp).
Context `{!Message RequestId CM} `{!Message RequestId SM} {Extra Details ResultFromServer : Type}.
Abbreviation ServerTr := (SseTransport.t RequestId CM bytes unit InMemoryEventStore.t).
Abbreviation session := (ServerRuntime.state Extra Details ServerTr).
Abbreviation dispatcher := (MessageDispatcher.t RequestId CM bytes unit InMemoryEventStore.t).
Context (as_batch : Messages CM -> result (list CM) SdkError) (show_error : Dispatcher.TransportError -> str) (clock : N)
  (env0 env : dispatcher -> dispatcher) (timeout : N) (store : InMemoryEventStore.t).
#[local] Instance stream_transport : TransportDispatcher RequestId CM SM ServerTr :=
  server_transport as_batch show_error clock env0 env.
Context (answer_message : ResultFromServer + RpcError -> RequestId -> result SM RpcError).
Context (handle_request : RequestId -> Req -> session -> result ResultFromServer RpcError * session).
Context (handle_notification : Notif -> Act session McpSdkError unit) (handle_error : RpcError -> Act session McpSdkError unit).
Context (decode_client : str -> option (Messages CM)) (max : nat).
Abbreviation fresh r := (new_transport (RequestId := RequestId) (Req := Req) (Notif := Notif) (Resp := Resp) timeout store r).
Abbreviation run := (run_stream as_batch show_error clock env0 env answer_message handle_request handle_notification handle_error decode_client max).
Implicit Types (ts us : list ServerTr) (r : option (str * str)).

Definition sender r : dispatcher :=
  let d := MessageDispatcher.new [] timeout in
  match r with Some (se, st) => MessageDispatcher.make_resumable se st store d | None => d end.
Definition opened r payload : ServerTr := SseTransport.set_receiver (payload ++ [LF]) (SseTransport.start (fresh r)).2.
Lemma opened_sender r payload : SseTransport.message_sender (opened r payload) = Some (sender r).
Proof. by destruct r as [[se st]|]. Qed.

Lemma on_one_transport {A} ts us x rt (f : Act ServerTr Dispatcher.TransportError A) a y : f x = (Ok a, y) ->
  ServerRuntime.on_transport (length ts) f (ServerRuntime.mkState (ts ++ x :: us) rt : session) = (Ok a, ServerRuntime.mkState (ts ++ y :: us) rt).
Proof.
  intros Hf. unfold ServerRuntime.on_transport. cbn [ServerRuntime.heap ServerRuntime.rt]. rewrite list_lookup_middle by done. rewrite Hf.
  rewrite insert_app_r_alt by lia. by rewrite Nat.sub_diag.
Qed.
Lemma start_fresh r ts us rt sid payload : sid <> DEFAULT_STREAM_ID ->
  ServerRuntime.start_stream (length ts) sid (Some payload) (ServerRuntime.mkState (ts ++ fresh r :: us) rt : session) =
  (Ok tt, ServerRuntime.mkState (ts ++ opened r payload :: us) rt).
Proof.
  intros Hs. unfold ServerRuntime.start_stream, act_bind.
  rewrite (on_one_transport ts us (fresh r) rt tr_start tt (SseTransport.start (fresh r)).2) by (by destruct r as [[se st]|]).
  unfold ServerRuntime.store_transport. rewrite bool_decide_eq_false_2 by done. cbn [negb act_ret]. unfold act_ret.
  rewrite (on_one_transport _ _ _ _ tr_keep_alive tt (SseTransport.start (fresh r)).2) by done.
  by rewrite (on_one_transport _ _ _ _ (tr_consume_string_payload payload) tt (opened r payload)) by (by destruct r as [[se st]|]).
Qed.

(** What is written for a text. *)
Definition line_for r (text : str) : str :=
  match r with Some (se, st) => InMemoryEventStore.generate_event_id se st clock ++ ID_SEPARATOR :: text | None => text end.
Lemma sender_writes r text : trim text <> [] ->
  exists d', MessageDispatcher.server_write_str clock text false (sender r) = (Ok tt, d') /\
    MessageDispatcher.writable_std d' = Some (line_for r text ++ [LF]).
Proof.
  intros Ht. unfold MessageDispatcher.server_write_str, act_bind, MessageDispatcher.store_for_resume.
  rewrite bool_decide_eq_false_2 by done. destruct r as [[se st]|]; cbn; eexists; (split; [reflexivity|]); cbn; by rewrite <-?app_assoc.
Qed.

(** The task of the stream handles the message posted, and is over. *)
Lemma run_handles r ts us rt sid payload m : sid <> DEFAULT_STREAM_ID -> clean max payload -> decode_client payload = Some m ->
  run (length ts) sid (Some payload) (ServerRuntime.mkState (ts ++ fresh r :: us) rt) =
  (ServerRuntime.handle_messages answer_message handle_request handle_notification handle_error m (length ts)
     (ServerRuntime.mkState (ts ++ opened r payload :: us) rt)).2.
Proof.
  intros Hs Hc Hd. unfold run_stream. rewrite start_fresh by done. cbn [snd].
  unfold received_by. cbn [ServerRuntime.heap]. rewrite list_lookup_middle by done. cbn [from_option].
  replace (SseTransport.receiver_tx (opened r payload)) with (payload ++ [LF]) by (by destruct r as [[se st]|]).
  rewrite (incoming_line _ _ _ m) by done.
  pose proof (ServerRuntime.post_stream_one_exchange answer_message handle_request handle_notification handle_error (length ts) sid (Some payload)
    _ _ [] m [] Hs (start_fresh r ts us rt sid payload Hs)) as (_ & _ & E & _).
  exact (f_equal snd E).
Qed.

(** A request the handler answers, and a notification. *)
Lemma run_request r ts us rt sid payload id q res rt' out text : sid <> DEFAULT_STREAM_ID -> clean max payload ->
  decode_client payload = Some (Dispatcher.Single (ServerRuntime.Request id q)) ->
  (forall h, handle_request id q (ServerRuntime.mkState h rt) = (res, ServerRuntime.mkState h rt')) ->
  (is_some (ServerRuntime.client_details rt') = true \/ exists v, res = Ok v) ->
  answer_message (match res with Ok v => inl v | Err e => inr e end) id = Ok out ->
  is_request (RequestId := RequestId) out = false -> to_json (RequestId := RequestId) out = Some text -> trim text <> [] ->
  exists x d, run (length ts) sid (Some payload) (ServerRuntime.mkState (ts ++ fresh r :: us) rt) = ServerRuntime.mkState (ts ++ x :: us) rt' /\
    SseTransport.message_sender x = Some d /\ MessageDispatcher.writable_std d = Some (line_for r text ++ [LF]).
Proof.
  intros Hs Hc Hd Hh Hi Ho Hr Hj Ht. rewrite (run_handles r ts us rt sid payload _ Hs Hc Hd). cbn [ServerRuntime.handle_messages].
  destruct (sender_writes r text Ht) as (d' & Hw & Hd'). exists (SseTransport.set_sender (Some d') (opened r payload)), d'.
  split; [|done].
  assert (E : ServerRuntime.on_transport (length ts) (tr_send_message (Dispatcher.Single out) None)
    (ServerRuntime.mkState (ts ++ opened r payload :: us) rt' : session) =
    (Ok None, ServerRuntime.mkState (ts ++ SseTransport.set_sender (Some d') (opened r payload) :: us) rt')).
  { pose proof (ServerRuntime.send_plain as_batch show_error clock env0 env (length ts) (opened r payload) (sender r) d'
      (ServerRuntime.mkState (ts ++ opened r payload :: us) rt' : session) out text Hr Hj) as P.
    unfold ServerRuntime.with_dispatcher in P. cbn [ServerRuntime.heap ServerRuntime.rt] in P.
    rewrite insert_app_r_alt, Nat.sub_diag in P by lia. apply P; [by apply list_lookup_middle|apply opened_sender|done]. }
  unfold ServerRuntime.handle_single, ServerRuntime.handle_message. rewrite Hh.
  destruct res as [v|e]; [|destruct Hi as [Hi|[v ?]]; [|done]; unfold ServerRuntime.is_initialized; cbn [ServerRuntime.rt]; rewrite Hi; cbn [negb]];
    unfold act_bind, ServerRuntime.lift_rpc, act_lift, act_ret; by rewrite Ho, E.
Qed.
Lemma run_notification r ts us rt sid payload n rt' : sid <> DEFAULT_STREAM_ID -> clean max payload ->
  decode_client payload = Some (Dispatcher.Single (ServerRuntime.Notification n)) ->
  (forall h, exists res, handle_notification n (ServerRuntime.mkState h rt) = (res, ServerRuntime.mkState h rt')) ->
  run (length ts) sid (Some payload) (ServerRuntime.mkState (ts ++ fresh r :: us) rt) = ServerRuntime.mkState (ts ++ opened r payload :: us) rt'.
Proof.
  intros Hs Hc Hd Hh. rewrite (run_handles r ts us rt sid payload _ Hs Hc Hd). cbn [ServerRuntime.handle_messages].
  unfold ServerRuntime.handle_single, ServerRuntime.handle_message, act_bind.
  destruct (Hh (ts ++ opened r payload :: us)) as [res ->]. by destruct res as [[]|e].
Qed.
End Stream.

(** *** The bytes of an answer *)

Section Bytes.
Context {H : Type} `{HeaderMapLaws H} (clock : N).
Implicit Types (r : option (str * str)) (text id : str).

Definition frame_ids r : Prop := match r with Some (se, st) => frame_id se /\ frame_id st | None => True end.
Definition event_for r text : SseEvent.t :=
  SseEvent.mk None (Some text) (match r with Some (se, st) => Some (InMemoryEventStore.generate_event_id se st clock) | None => None end) None.
Lemma line_for_event r text : frame_ids r -> message_text text ->
  line_event (is_some r) (line_for clock r text ++ [LF]) = event_for r text /\ SseFacts.line_text (line_for clock r text).
Proof.
  intros Hr Ht. pose proof Ht as [Hl _]. destruct r as [[se st]|]; cbn [is_some line_for].
  - destruct Hr. split; [by apply line_event_message; [apply frame_id_generate|]|].
    by apply (line_of_text se st (clock, text)).
  - split; [|done]. apply line_event_plain; [done|by right].
Qed.
Lemma line_for_body r text : frame_ids r -> message_text text ->
  body_bytes (body_frames (line_event (is_some r)) (line_for clock r text ++ [LF])) = SseEvent.to_string (event_for r text).
Proof.
  intros Hr Ht. destruct (line_for_event r text Hr Ht) as [He Hl].
  pose proof (body_of_lines (line_event (is_some r)) [line_for clock r text] (Forall_cons_2 _ _ _ Hl (Forall_nil_2 _))) as B.
  cbn [fmap list_fmap concat app] in B. by rewrite !app_nil_r, He in B.
Qed.
(** However the body arrives, the client finds the text in it. *)
Lemma stream_answer (h : H) r text chunks : frame_ids r -> message_text text -> validate_response_type h = Ok EventStream ->
  concat chunks = body_bytes (body_frames (line_event (is_some r)) (line_for clock r text ++ [LF])) ->
  StreamableClientFacts.answer h chunks text.
Proof.
  intros Hr Ht Hv Hc. rewrite line_for_body in Hc by done.
  assert (Hd : ClientStreamFacts.datas (SseParser.feed SseParser.new chunks).2 = [text ++ [LF]]).
  { rewrite (parse_events [event_for r text] chunks).
    - cbn [mbind list_bind]. unfold event_for. by rewrite received_message, app_nil_r by done.
    - apply Forall_cons_2; [|by apply Forall_nil_2]. apply wf_message; [by apply Ht|].
      destruct r as [[se st]|]; [|done]. intros v [= <-]. destruct Hr. by apply frame_id_generate.
    - cbn [fmap list_fmap concat]. by rewrite app_nil_r. }
  destruct (completing_chunk _ _ _ Hd) as (pre & c & rest & -> & Hp & Hcs).
  by apply (StreamableClientFacts.AnswerStream h _ text pre c rest).
Qed.

(** The headers of both kinds of answer. *)
Definition stream_headers id : H :=
  McpHttpHandler.with_headers [(CONTENT_TYPE, s! "text/event-stream"); (MCP_SESSION_ID_HEADER, id); (CONNECTION, s! "keep-alive")].
Definition json_headers id : H := McpHttpHandler.with_headers [(CONTENT_TYPE, s! "application/json"); (MCP_SESSION_ID_HEADER, id)].
#[local] Ltac header_get :=
  unfold stream_headers, json_headers, McpHttpHandler.with_headers; cbn [foldl fst snd];
  repeat (rewrite get_append; first [rewrite decide_True by done | rewrite decide_False by discriminate]); by rewrite ?get_new.
Lemma typed_headers (h : H) ct ty id : hm_get h CONTENT_TYPE = Some ct -> hm_get h MCP_SESSION_ID_HEADER = Some id ->
  Forall (fun c => visible c = true) ct -> Forall (fun c => visible c = true) id ->
  (if bool_decide (to_ascii_lowercase ct = s! "text/event-stream") then Ok EventStream
   else if bool_decide (to_ascii_lowercase ct = s! "application/json") then Ok Json
   else Err (UnexpectedContentType (to_ascii_lowercase ct))) = Ok ty ->
  validate_response_type h = Ok ty /\ get_str h MCP_SESSION_ID_HEADER = Some id.
Proof.
  intros Ec Ei Hc Hi E. unfold validate_response_type, get_str. rewrite Ec, Ei. cbn [mbind option_bind].
  by rewrite !to_str_visible by done.
Qed.
Lemma stream_headers_spec id : Forall (fun c => visible c = true) id ->
  validate_response_type (stream_headers id) = Ok EventStream /\ get_str (stream_headers id) MCP_SESSION_ID_HEADER = Some id.
Proof. intros Hid. apply (typed_headers _ (s! "text/event-stream")); [header_get|header_get|decided|done|done]. Qed.
Lemma json_headers_spec id : Forall (fun c => visible c = true) id ->
  validate_response_type (json_headers id) = Ok Json /\ get_str (json_headers id) MCP_SESSION_ID_HEADER = Some id.
Proof. intros Hid. apply (typed_headers _ (s! "application/json")); [header_get|header_get|decided|done|done]. Qed.

(** What the client posts is acceptable to the server. *)
Lemma post_acceptable {Extra} (parse_version : str -> result unit str) (session_id : option str) payload :
  (forall id, session_id = Some id -> HttpHandlerFacts.wf_id id) ->
  let req := post_request (H := H) (Extra := Extra) session_id payload in
  HttpHandlerFacts.acceptable_post parse_version (headers req) /\ get_str (headers req) MCP_SESSION_ID_HEADER = session_id.
Proof.
  intros Hid req.
  assert (E : hm_get (headers req) CONTENT_TYPE = Some (s! "application/json") /\
    hm_get (headers req) ACCEPT = Some (s! "application/json, text/event-stream") /\
    hm_get (headers req) MCP_SESSION_ID_HEADER = session_id /\ hm_get (headers req) MCP_PROTOCOL_VERSION_HEADER = None).
  { destruct session_id as [id|]; unfold req, post_request; cbn [headers app]; split_and!; header_get. }
  destruct E as (Ec & Ea & Ei & Ev).
  assert (Hv : forall v, session_id = Some v -> Forall (fun c => visible c = true) v).
  { intros v Hs. apply HttpHandlerFacts.graphic_visible. by apply Hid in Hs as [_ ?]. }
  split.
  - unfold HttpHandlerFacts.acceptable_post, HttpHandlerFacts.version_ok, HttpHandlerFacts.id_header_ok, header_or_empty, get_str.
    rewrite Ec, Ea, Ei, Ev. cbn [mbind option_bind]. rewrite !to_str_visible by decided.
    rewrite <-!HttpHandlerFacts.lists_type_spec. split_and!; [by vm_compute..|by left|].
    intros v ->. rewrite to_str_visible by auto. split; [done|auto].
  - unfold get_str. rewrite Ei. destruct session_id as [v|]; [|done]. cbn. by rewrite to_str_visible by auto.
Qed.
End Bytes.

(** *** Serving one post *)

Section Serving.
Context {H : Type} `{HeaderMapLaws H} {RequestId : Type} `{Countable RequestId} {Req Notif Resp SReq SNotif SResp : Type}.
Abbreviation CM := (ServerRuntime.ClientMessage RequestId Req Notif Resp).
Abbreviation SM := (ClientRuntime.ServerMessage RequestId SReq SNotif SResp).
Context `{!Message RequestId CM} `{!Message RequestId SM} {Extra Details St G ResultFromServer : Type}.
Context `{!SessionStore nat St} `{!SessionStoreLaws nat St} `{!IdGenerator G}.
Abbreviation ServerTr := (SseTransport.t RequestId CM bytes unit InMemoryEventStore.t).
Abbreviation World := (McpAppState.t Extra Details ServerTr St G).
Abbreviation session := (ServerRuntime.state Extra Details ServerTr).
Abbreviation runtime := (ServerRuntime.t Extra Details).
Context (as_batch : Messages CM -> result (list CM) SdkError) (show_error : Dispatcher.TransportError -> str) (clock : N)
  (env0 env : MessageDispatcher.t RequestId CM bytes unit InMemoryEventStore.t -> MessageDispatcher.t RequestId CM bytes unit InMemoryEventStore.t)
  (timeout : N) (store : InMemoryEventStore.t).
Context (now : N) (encode : bytes -> str) (parse_value : str -> option Value) (is_initialize_request : CM -> bool)
  (parse_version : str -> result unit str) (show_sdk_error : McpSdkError -> str).
Context (answer_message : ResultFromServer + RpcError -> RequestId -> result SM RpcError).
Context (handle_request : RequestId -> Req -> session -> result ResultFromServer RpcError * session).
Context (handle_notification : Notif -> Act session McpSdkError unit) (handle_error : RpcError -> Act session McpSdkError unit).
Context (decode_client : str -> option (Messages CM)) (max : nat).
#[local] Instance serving_transport : TransportDispatcher RequestId CM SM ServerTr :=
  server_transport as_batch show_error clock env0 env.
Abbreviation fresh r := (new_transport (RequestId := RequestId) (Req := Req) (Notif := Notif) (Resp := Resp) timeout store r).
Abbreviation run := (run_stream as_batch show_error clock env0 env answer_message handle_request handle_notification handle_error decode_client max).
Abbreviation run_task := (run_task as_batch show_error clock env0 env answer_message handle_request handle_notification handle_error decode_client max).
Abbreviation run_new := (run_new as_batch show_error clock env0 env answer_message handle_request handle_notification handle_error decode_client max).
Abbreviation serve := (serve (H := H) as_batch show_error clock env0 env timeout store now encode parse_value is_initialize_request parse_version
  show_sdk_error answer_message handle_request handle_notification handle_error decode_client max).
Implicit Types (w : World) (r : option (str * str)) (id payload : str) (rt : runtime).

(** The ids the server makes are fit for headers and frames. *)
Context (good : G -> Prop) (good_ids : forall g, good g -> good (generate g).2 /\
  HttpHandlerFacts.wf_id (generate g).1 /\ frame_id (generate g).1 /\ (generate g).1 <> DEFAULT_STREAM_ID).
Context (frame_codes : forall b, frame_id (encode b)).
Definition STREAM_PREFIX : str := s! "s_".

Record ready w : Prop := {
  r_store : valid (session_store w);
  r_ids : good (id_generator w);
  r_streams : FastIdGenerator.prefix (stream_id_gen w) = STREAM_PREFIX;
}.
(** Session [id] is runtime [i], which is as [rt]. *)
Record connected id i rt w : Prop := {
  c_ready : ready w;
  c_holds : holds (session_store w) id = Some i;
  c_runtime : runtimes w !! i = Some rt;
  c_header : HttpHandlerFacts.wf_id id;
  c_frame : frame_id id;
}.
(** Only runtime [i] changed, to [rt]. *)
Record only i rt w w' : Prop := {
  o_ready : ready w';
  o_holds : forall k, holds (session_store w') k = holds (session_store w) k;
  o_runtimes : runtimes w' = <[i := rt]> (runtimes w);
  o_json : enable_json_response w' = enable_json_response w;
}.
Lemma only_connected id i rt rt' w w' : connected id i rt w -> only i rt' w w' -> connected id i rt' w'.
Proof.
  intros [? Hh Hr ? ?] [? Ho Hrs _]. split; [done|by rewrite Ho| |done..].
  rewrite Hrs. apply list_lookup_insert_eq. by eapply lookup_lt_Some.
Qed.

(** *** The task of the new stream *)

(** The task of one stream among others. *)
Lemma run_stream_task w i ts us sid payload rt x rt' r : transports w = ts ++ fresh r :: us -> runtimes w !! i = Some rt ->
  run (length ts) sid (Some payload) (ServerRuntime.mkState (ts ++ fresh r :: us) rt) = ServerRuntime.mkState (ts ++ x :: us) rt' ->
  run_task w (StreamTask i (length ts) sid (Some payload)) = set_runtimes (<[i := rt']> (runtimes w)) (ts ++ x :: us) w.
Proof. intros Hts Hi Hrun. cbn [HttpSession.run_task]. unfold on_runtime. rewrite Hi, Hts. cbn. by rewrite Hrun. Qed.
Lemma run_new_stream w before i ts sid payload rest rt x rt' r :
  tasks w = before ++ StreamTask i (length ts) sid (Some payload) :: rest -> rest = [] \/ rest = [ReplayTask (length ts) None] ->
  transports w = ts ++ [fresh r] -> runtimes w !! i = Some rt ->
  run (length ts) sid (Some payload) (ServerRuntime.mkState (ts ++ [fresh r]) rt) = ServerRuntime.mkState (ts ++ [x]) rt' ->
  run_new (length before) w = set_runtimes (<[i := rt']> (runtimes w)) (ts ++ [x]) w.
Proof.
  intros Ht Hrest Hts Hi Hrun. unfold HttpSession.run_new. rewrite Ht, drop_app_length. cbn [foldl].
  rewrite (run_stream_task w i ts [] sid payload rt x rt' r Hts Hi Hrun). by destruct Hrest as [->| ->].
Qed.
Lemma written_last w ts x : transports w = ts ++ [x] -> written_by (length ts) w = content x.
Proof. intros Hw. unfold written_by. by rewrite Hw, list_lookup_middle. Qed.

(** On a fresh stream the message [payload] turns the runtime into [rt'] and
    writes [out], which may depend on the ids of a resumable stream. *)
Definition handles rt payload rt' (out : option (str * str) -> bytes) : Prop :=
  forall r ts us sid, sid <> DEFAULT_STREAM_ID -> exists x,
    run (length ts) sid (Some payload) (ServerRuntime.mkState (ts ++ fresh r :: us) rt) = ServerRuntime.mkState (ts ++ x :: us) rt' /\
    content x = out r.
Lemma new_stream_handled w before i ts sid payload rest rt rt' r out :
  tasks w = before ++ StreamTask i (length ts) sid (Some payload) :: rest -> rest = [] \/ rest = [ReplayTask (length ts) None] ->
  transports w = ts ++ [fresh r] -> runtimes w !! i = Some rt -> sid <> DEFAULT_STREAM_ID -> handles rt payload rt' out ->
  exists x, run_new (length before) w = set_runtimes (<[i := rt']> (runtimes w)) (ts ++ [x]) w /\
    written_by (length ts) (run_new (length before) w) = out r.
Proof.
  intros Ht Hrest Hts Hi Hs Hh. destruct (Hh r ts [] sid Hs) as (x & Hrun & Hx). exists x.
  pose proof (run_new_stream w before i ts sid payload rest rt x rt' r Ht Hrest Hts Hi Hrun) as E. rewrite E.
  split; [done|]. by rewrite (written_last _ ts x) by done.
Qed.

(** *** The handler *)

Lemma stream_id_fine w sid g : FastIdGenerator.prefix (stream_id_gen w) = STREAM_PREFIX ->
  FastIdGenerator.generate_id encode (stream_id_gen w) = (sid, g) ->
  sid <> DEFAULT_STREAM_ID /\ frame_id sid /\ FastIdGenerator.prefix g = STREAM_PREFIX.
Proof.
  intros Hp. unfold FastIdGenerator.generate_id, FastIdGenerator.encode_id. rewrite Hp. cbn. intros [= <- <-].
  split_and!; [done| |done]. apply (frame_id_app (s! "s_")); [split; decided|apply frame_codes].
Qed.
Lemma update_auth_runtime w i a rt : runtimes w !! i = Some rt ->
  McpHttpHandler.update_auth i a w =
  (Ok tt, set_runtimes (<[i := ServerRuntime.update_auth_info a rt]> (runtimes w)) (transports w) w).
Proof. intros Hr. unfold McpHttpHandler.update_auth, on_runtime. by rewrite Hr. Qed.
(** A stream that [create_sse_stream] opens for a message of a session. *)
Lemma create_stream w i id payload b sid g : contains_request parse_value payload = Some b -> Forall (fun c => visible c = true) id ->
  FastIdGenerator.generate_id encode (stream_id_gen w) = (sid, g) ->
  McpHttpHandler.create_sse_stream (H := H) encode parse_value (new_transport timeout store) i id (Some payload) false None w =
  (Ok (mkResponse (if b then 200 else 202)%N (stream_headers id) (BStream (length (transports w)))),
   mk (session_store w) (id_generator w) g (enable_json_response w) (resumable w) (runtimes w)
      (transports w ++ [fresh (if resumable w then Some (id, sid) else None)])
      (tasks w ++ [StreamTask i (length (transports w)) sid (Some payload); ReplayTask (length (transports w)) None])).
Proof.
  intros Hb Hid Hg. unfold McpHttpHandler.create_sse_stream. rewrite Hb, Hg. cbn [resumable transports spawn add_transport set_stream_ids].
  rewrite from_str_spec by done. unfold spawn, add_transport, set_stream_ids. cbn. by rewrite <-app_assoc.
Qed.
(** What a POST of the client comes to. *)
Lemma client_post read_line (session_id : option str) payload w : (forall id, session_id = Some id -> HttpHandlerFacts.wf_id id) ->
  McpHttpHandler.internal_handle_streamable_http now encode parse_value decode_client is_initialize_request parse_version show_sdk_error
    (new_transport timeout store) (fun w => w) read_line (post_request (H := H) (Extra := Extra) session_id payload) w =
  match session_id with
  | Some id =>
      if enable_json_response w
      then McpHttpHandler.process_incoming_message_return now (new_transport timeout store) read_line id payload None w
      else McpHttpHandler.process_incoming_message now encode parse_value show_sdk_error (new_transport timeout store) id payload None w
  | None =>
      match valid_initialize_method decode_client is_initialize_request payload with
      | Ok _ => McpHttpHandler.start_new_session now encode parse_value (new_transport timeout store) payload None w
      | Err (ESdkError error) => McpHttpHandler.respond (error_response 400 error) w
      | Err error => McpHttpHandler.respond (McpHttpHandler.bad_request_with (show_sdk_error error)) w
      end
  end.
Proof.
  intros Hid. destruct (post_acceptable (H := H) (Extra := Extra) parse_version session_id payload Hid) as [Ha Hs].
  change (McpHttpHandler.internal_handle_streamable_http _ _ _ _ _ _ _ _ _ _ _ w) with
    (McpHttpHandler.handle_http_post now encode parse_value decode_client is_initialize_request parse_version show_sdk_error
      (new_transport timeout store) read_line (post_request (H := H) (Extra := Extra) session_id payload) None w).
  destruct (post_checks now encode parse_value decode_client is_initialize_request parse_version show_sdk_error (new_transport timeout store)
    read_line (post_request (H := H) (Extra := Extra) session_id payload) None w) as [[_ E]|[Hn _]]; [|done].
  rewrite E. by rewrite Hs.
Qed.

(** *** The answers *)

Lemma connected_visible id i rt w : connected id i rt w -> Forall (fun c => visible c = true) id.
Proof. intros [_ _ _ [_ Hg] _]. by apply HttpHandlerFacts.graphic_visible. Qed.

(** A message of a session opens a stream of its own, in which it will be handled. *)
Record spawned id i payload sid w w' : Prop := {
  sp_ready : ready w';
  sp_holds : forall k, holds (session_store w') k = holds (session_store w) k;
  sp_sid : sid <> DEFAULT_STREAM_ID /\ frame_id sid;
  sp_transports : transports w' = transports w ++ [fresh (if resumable w then Some (id, sid) else None)];
  sp_tasks : tasks w' = tasks w ++ [StreamTask i (length (transports w)) sid (Some payload); ReplayTask (length (transports w)) None];
  sp_options : enable_json_response w' = enable_json_response w /\ resumable w' = resumable w;
}.
Lemma post_spawns read_line id i rt w payload b : connected id i rt w -> enable_json_response w = false ->
  contains_request parse_value payload = Some b -> is_result parse_value payload = Some false ->
  exists sid w', McpHttpHandler.internal_handle_streamable_http now encode parse_value decode_client is_initialize_request parse_version
      show_sdk_error (new_transport timeout store) (fun w => w) read_line (post_request (H := H) (Extra := Extra) (Some id) payload) w =
    (Ok (mkResponse (if b then 200 else 202)%N (stream_headers id) (BStream (length (transports w)))), w') /\
    spawned id i payload sid w w' /\ runtimes w' = <[i := ServerRuntime.update_auth_info None rt]> (runtimes w).
Proof.
  intros Hc Hj Hb Hr. pose proof (connected_visible id i rt w Hc) as Hv. destruct Hc as [[Hst Hids Hp] Hk Hi Hw Hf].
  rewrite client_post by (by intros ? [= <-]). rewrite Hj. unfold McpHttpHandler.process_incoming_message, act_bind.
  destruct (HttpHandlerFacts.get_session_spec now id w Hst) as (w1 & -> & st & -> & Hvs & Hks). rewrite Hk.
  rewrite (update_auth_runtime _ i None rt) by done. rewrite Hr.
  set (w2 := set_runtimes _ _ _). destruct (FastIdGenerator.generate_id encode (stream_id_gen w2)) as [sid g] eqn:Eg.
  destruct (stream_id_fine w2 sid g Hp Eg) as (Hsid & Hfs & Hpg).
  rewrite (create_stream w2 i id payload b sid g Hb Hv Eg).
  eexists sid, _. split; [reflexivity|]. split; [|done]. split; cbn; by try split.
Qed.
Lemma serve_stream cut id i rt w payload rt' out b : connected id i rt w -> enable_json_response w = false ->
  contains_request parse_value payload = Some b -> is_result parse_value payload = Some false ->
  handles (ServerRuntime.update_auth_info None rt) payload rt' out ->
  exists r w', serve cut (Some id) payload w =
    (Reply (if b then 200 else 202)%N (stream_headers id)
       (Chunk <$> cut (body_bytes (body_frames (line_event (is_some r)) (out r)))), w') /\ frame_ids r /\ only i rt' w w'.
Proof.
  intros Hc Hj Hb Hr Hh. unfold HttpSession.serve.
  destruct (post_spawns (read_line as_batch show_error clock env0 env answer_message handle_request handle_notification handle_error decode_client
    max (length (tasks w))) id i rt w payload b Hc Hj Hb Hr) as (sid & w3 & E3 & [Hrd Hk3 [Hsid Hfs] Ht3 Hk [Hj3 Hre]] & Hrs).
  match type of E3 with ?served = _ => match goal with |- context [match ?t with pair _ _ => _ end] => change t with served end end. rewrite E3.
  cbn [resp_body status resp_headers]. set (r := if resumable w then Some (id, sid) else None) in *.
  destruct (new_stream_handled w3 (tasks w) i (transports w) sid payload [ReplayTask (length (transports w)) None]
    (ServerRuntime.update_auth_info None rt) rt' r out) as (x & E & Ew); [done|by right|done| |done|done|].
  { rewrite Hrs. apply list_lookup_insert_eq. destruct Hc as [_ _ Hi _ _]. by eapply lookup_lt_Some. }
  exists r, (run_new (length (tasks w)) w3). split; [|split].
  - rewrite Ew, Hre. by replace (resumable w) with (is_some r) by (unfold r; by destruct (resumable w)).
  - unfold r. destruct Hc as [_ _ _ _ Hf]. by destruct (resumable w).
  - destruct Hrd as [? ? ?]. rewrite E. split; cbn; [by split|done| |done]. by rewrite Hrs, list_insert_insert_eq.
Qed.
Lemma read_first_line before i w text : LF ∉ text -> utf8_valid text = true ->
  written_by i (run_new before w) = text ++ [LF] ->
  read_line as_batch show_error clock env0 env answer_message handle_request handle_notification handle_error decode_client max before i w =
  (Some (Ok (text ++ [LF])), run_new before w).
Proof.
  intros Hl Hu Hw. unfold read_line. rewrite Hw, SseFacts.split_lf_line by done.
  rewrite bool_decide_eq_false_2 by (by destruct text). by rewrite utf8_valid_app.
Qed.
Lemma serve_json cut id i rt w payload rt' out text : connected id i rt w -> enable_json_response w = true ->
  handles (ServerRuntime.update_auth_info None rt) payload rt' out -> out None = text ++ [LF] -> LF ∉ text -> utf8_valid text = true ->
  exists w', serve cut (Some id) payload w = (Reply 200%N (json_headers id) (Chunk <$> cut text), w') /\ only i rt' w w'.
Proof.
  intros Hc Hj Hh Ho Hl Hu. pose proof (connected_visible id i rt w Hc) as Hv. destruct Hc as [[Hst Hids Hp] Hk Hi Hw Hf].
  unfold HttpSession.serve. rewrite client_post by (by intros ? [= <-]). rewrite Hj.
  unfold McpHttpHandler.process_incoming_message_return, act_bind.
  destruct (HttpHandlerFacts.get_session_spec now id w Hst) as (w1 & -> & st & -> & Hvs & Hks). rewrite Hk.
  rewrite (update_auth_runtime _ i None rt) by done. unfold McpHttpHandler.single_shot_stream.
  cbn [id_generator add_transport set_runtimes set_store]. destruct (good_ids _ Hids) as (Hg & _ & _ & Hd).
  destruct (generate (id_generator w)) as [sid g]. cbn [fst snd] in *.
  set (w3 := spawn _ _).
  destruct (new_stream_handled w3 (tasks w) i (transports w) sid payload []
    (ServerRuntime.update_auth_info None rt) rt' None out) as (x & E & Ew); [done|by left|done| |done|done|].
  { cbn. apply list_lookup_insert_eq. by eapply lookup_lt_Some. }
  match goal with |- context [read_line _ _ _ _ _ _ _ _ _ _ _ _ ?j w3] => change j with (length (transports w)) end.
  rewrite Ho in Ew. rewrite (read_first_line (length (tasks w)) (length (transports w)) w3 text Hl Hu Ew).
  rewrite from_str_spec by done. cbn [resp_body status resp_headers]. exists (run_new (length (tasks w)) w3).
  split; [by rewrite trim_end_LF|]. rewrite E. split; cbn; [by split|done| |done]. by rewrite list_insert_insert_eq.
Qed.
(** The initialize request opens a session. *)
Lemma serve_start cut w payload rt' out m : ready w -> (is_full now (session_store w)).1 = false ->
  contains_request parse_value payload = Some true -> decode_client payload = Some (Dispatcher.Single m) -> is_initialize_request m = true ->
  let id := (generate (id_generator w)).1 in
  handles (ServerRuntime.new_instance id None) payload rt' out ->
  exists r w', serve cut None payload w =
    (Reply 200%N (stream_headers id) (Chunk <$> cut (body_bytes (body_frames (line_event (is_some r)) (out r)))), w') /\ frame_ids r /\
    connected id (length (runtimes w)) rt' w' /\ runtimes w' = runtimes w ++ [rt'] /\ enable_json_response w' = enable_json_response w /\
    (forall k, k <> id -> holds (session_store w') k = holds (session_store (set_store (is_full now (session_store w)).2 w)) k).
Proof.
  intros [Hst Hids Hp] Hfull Hb Hd Hinit id Hh. unfold HttpSession.serve. rewrite client_post by done.
  unfold valid_initialize_method. rewrite Hd, Hinit. unfold McpHttpHandler.start_new_session.
  destruct (is_full_law now (session_store w) Hst) as [Hst1 _].
  destruct (is_full now (session_store w)) as [full st]. cbn [fst snd] in *. subst full.
  destruct (good_ids _ Hids) as (Hg & Hw & Hf & _). fold id in Hw, Hf. cbn [id_generator set_store].
  replace (generate (id_generator w)) with (id, (generate (id_generator w)).2) by (unfold id; by destruct (generate _)).
  set (w2 := add_runtime _ _). destruct (FastIdGenerator.generate_id encode (stream_id_gen w2)) as [sid g] eqn:Eg.
  destruct (stream_id_fine w2 sid g Hp Eg) as (Hsid & Hfs & Hpg).
  assert (Hv : Forall (fun c => visible c = true) id) by (apply HttpHandlerFacts.graphic_visible, Hw).
  change (runtimes (set_ids _ (set_store st w))) with (runtimes w).
  rewrite (create_stream w2 (length (runtimes w)) id payload true sid g Hb Hv Eg). cbn [resp_body status resp_headers].
  set (r := if resumable w2 then Some (id, sid) else None). set (w3 := set_store _ _).
  destruct (new_stream_handled w3 (tasks w) (length (runtimes w)) (transports w) sid payload [ReplayTask (length (transports w)) None]
    (ServerRuntime.new_instance id None) rt' r out) as (x & E & Ew); [done|by right|done| |done|done|].
  { cbn. by apply list_lookup_middle. }
  destruct (set_law now st id (length (runtimes w)) Hst1) as [Hst2 Hset].
  exists r, (run_new (length (tasks w)) w3). split; [|split].
  - change (length (transports w2)) with (length (transports w)). rewrite Ew. replace (resumable w3) with (is_some r); [done|].
    unfold r. cbn. by destruct (resumable w).
  - unfold r. by destruct (resumable w2).
  - assert (Er : <[length (runtimes w) := rt']> (runtimes w ++ [ServerRuntime.new_instance id None]) = runtimes w ++ [rt'])
      by (rewrite insert_app_r_alt by lia; by rewrite Nat.sub_diag).
    rewrite E. cbn. rewrite Er. split_and!; [|done|done|].
    + split; cbn; [by split| |by apply list_lookup_middle|done|done]. rewrite Hset. by rewrite decide_True.
    + intros k Hne. rewrite Hset. by rewrite decide_False.
Qed.

(** *** What the handler makes of the messages *)

(** The text of a message of the client, read as [m], with or without a request. *)
Definition posted payload (m : CM) (b : bool) : Prop :=
  clean max payload /\ decode_client payload = Some (Dispatcher.Single m) /\
  contains_request parse_value payload = Some b /\ is_result parse_value payload = Some false.

Lemma handles_request rt payload q_id q res rt' out text : clean max payload ->
  decode_client payload = Some (Dispatcher.Single (ServerRuntime.Request q_id q)) ->
  (forall h, handle_request q_id q (ServerRuntime.mkState h rt) = (res, ServerRuntime.mkState h rt')) ->
  (is_some (ServerRuntime.client_details rt') = true \/ exists v, res = Ok v) ->
  answer_message (match res with Ok v => inl v | Err e => inr e end) q_id = Ok out ->
  is_request (RequestId := RequestId) out = false -> to_json (RequestId := RequestId) out = Some text -> trim text <> [] ->
  handles rt payload rt' (fun r => line_for clock r text ++ [LF]).
Proof.
  intros Hc Hd Hh Hi Ho Hr Hj Ht r ts us sid Hs.
  destruct (run_request as_batch show_error clock env0 env timeout store answer_message handle_request handle_notification handle_error
    decode_client max r ts us rt sid payload q_id q res rt' out text Hs Hc Hd Hh Hi Ho Hr Hj Ht) as (x & d & Hrun & Hx & Hb).
  exists x. split; [exact Hrun|]. unfold content. by rewrite Hx, Hb.
Qed.
Lemma handles_notification rt payload n rt' : clean max payload ->
  decode_client payload = Some (Dispatcher.Single (ServerRuntime.Notification n)) ->
  (forall h, exists res, handle_notification n (ServerRuntime.mkState h rt) = (res, ServerRuntime.mkState h rt')) ->
  handles rt payload rt' (fun _ => []).
Proof.
  intros Hc Hd Hh r ts us sid Hs. eexists. split.
  - by apply (run_notification as_batch show_error clock env0 env timeout store answer_message handle_request handle_notification handle_error
      decode_client max r ts us rt sid payload n rt' Hs Hc Hd Hh).
  - by destruct r as [[se st]|].
Qed.
End Serving.
End HttpSessionFacts.

(** ** Claims *)

Section Session.
Import HttpSession HttpSessionFacts ClientStreamableTransport StreamableClientFacts.
Context {H : Type} `{HeaderMapLaws H} {RequestId : Type} `{Countable RequestId} {Req Notif Resp SReq SNotif SResp : Type}.
Abbreviation CM := (ServerRuntime.ClientMessage RequestId Req Notif Resp).
Abbreviation SM := (ClientRuntime.ServerMessage RequestId SReq SNotif SResp).
Context `{!Message RequestId CM} `{!Message RequestId SM} {Extra Details St G ResultFromServer : Type}.
Context `{!SessionStore nat St} `{!SessionStoreLaws nat St} `{!IdGenerator G}.
Abbreviation ServerTr := (SseTransport.t RequestId CM bytes unit InMemoryEventStore.t).
Abbreviation World := (McpAppState.t Extra Details ServerTr St G).
Abbreviation session := (ServerRuntime.state Extra Details ServerTr).
Abbreviation runtime := (ServerRuntime.t Extra Details).
Context (as_batch : Messages CM -> result (list CM) SdkError) (show_error : Dispatcher.TransportError -> str) (clock : N)
  (env0 env : MessageDispatcher.t RequestId CM bytes unit InMemoryEventStore.t -> MessageDispatcher.t RequestId CM bytes unit InMemoryEventStore.t)
  (timeout : N) (store : InMemoryEventStore.t).
Context (now : N) (encode : bytes -> str) (parse_value : str -> option Value) (is_initialize_request : CM -> bool)
  (parse_version : str -> result unit str) (show_sdk_error : McpSdkError -> str).
Context (answer_message : ResultFromServer + RpcError -> RequestId -> result SM RpcError).
Context (handle_request : RequestId -> Req -> session -> result ResultFromServer RpcError * session).
Context (handle_notification : Notif -> Act session McpSdkError unit) (handle_error : RpcError -> Act session McpSdkError unit).
Context (decode_client : str -> option (Messages CM)) (max : nat).
Context {ServerInfo U W CSt ResultFromClient MessageFromClient : Type} `{!AsyncWrite W} `{!PieceWriter W} `{!EventStore CSt}.
Abbreviation ClientTr := (ClientStreamableTransport.t H RequestId SM W CSt).
Abbreviation network := (list (conversation H)).
Abbreviation client_state := (ClientRuntime.state ServerInfo network ClientTr U).
Context (decode_server : str -> option (Messages SM)) (cancelled read_open : ClientStream.World H -> bool)
  (parse_name : str -> result str str) (invalid_value : str) (o : options).
#[local] Instance session_transport : ClientTransport RequestId SM CM network ClientTr :=
  HttpSession.client_transport show_error decode_server cancelled read_open parse_name invalid_value o.
Context (from_message : MessageFromClient -> option Z -> result CM RpcError) (is_request_fc is_notification_fc : MessageFromClient -> bool).
Context (client_answer : ResultFromClient + RpcError -> RequestId -> result CM RpcError).
Context (client_handle_request : RequestId -> SReq -> Act client_state RpcError ResultFromClient).
Context (client_handle_notification : SNotif -> Act client_state McpSdkError unit).
Context (client_handle_error : RpcError -> Act client_state McpSdkError unit).
Context (client_encode : bytes -> str) (as_single : Messages SM -> result SM SdkError) (client_env : client_state -> client_state).
Abbreviation call := (call as_batch show_error clock env0 env timeout store now encode parse_value is_initialize_request parse_version
  show_sdk_error answer_message handle_request handle_notification handle_error decode_client max decode_server cancelled read_open
  parse_name invalid_value o from_message is_request_fc is_notification_fc client_answer client_handle_request client_handle_notification
  client_handle_error client_encode as_single client_env).
Abbreviation converse := (converse as_batch show_error clock env0 env timeout store now encode parse_value is_initialize_request parse_version
  show_sdk_error answer_message handle_request handle_notification handle_error decode_client max decode_server cancelled read_open
  parse_name invalid_value o from_message is_request_fc is_notification_fc client_answer client_handle_request client_handle_notification
  client_handle_error client_encode as_single client_env).
Abbreviation serve := (serve (H := H) as_batch show_error clock env0 env timeout store now encode parse_value is_initialize_request parse_version
  show_sdk_error answer_message handle_request handle_notification handle_error decode_client max).

(** The handler, apart from transports; its messages; the client's texts. *)
Context (reply : RequestId -> Req -> runtime -> result ResultFromServer RpcError * runtime) (notified : Notif -> runtime -> runtime).
Context (answer : RequestId -> result ResultFromServer RpcError -> SM) (id_of : Z -> RequestId).
Context (answer_text : RequestId -> result ResultFromServer RpcError -> str).
Context (message_of : message (Req := Req) (Notif := Notif) -> MessageFromClient).
Context (request_text : Z -> Req -> str) (notification_text : Notif -> str) (good : G -> Prop).
Abbreviation direct := (direct reply notified answer id_of).
Abbreviation initialized rt := (is_some (ServerRuntime.client_details (rt : runtime))).

(** What is relied on: the server's handler sends nothing itself and a session
    stays initialized; messages are written as one line within the limits and
    read back; the client's error handler does not fail; the server's ids are
    printable and without separator; the client has no headers of its own. *)
Record protocol : Prop := {
  replies id r h rt : handle_request id r (ServerRuntime.mkState h rt) = ((reply id r rt).1, ServerRuntime.mkState h (reply id r rt).2);
  notifies n h rt : exists res, handle_notification n (ServerRuntime.mkState h rt) = (res, ServerRuntime.mkState h (notified n rt));
  stays_initialized rt : initialized rt = true ->
    (forall id r, initialized (reply id r rt).2 = true) /\ forall n, initialized (notified n rt) = true;
  asked z r : let m : CM := ServerRuntime.Request (id_of z) r in
    is_request_fc (message_of (Ask r)) = true /\ from_message (message_of (Ask r)) (Some z) = Ok m /\
    is_request (RequestId := RequestId) m = true /\ request_id m = Some (id_of z) /\
    to_json (RequestId := RequestId) m = Some (request_text z r) /\
    posted parse_value decode_client max (trim (request_text z r)) m true;
  told n : let m : CM := ServerRuntime.Notification n in
    is_request_fc (message_of (Tell n)) = false /\ is_notification_fc (message_of (Tell n)) = true /\
    from_message (message_of (Tell n)) None = Ok m /\ is_request (RequestId := RequestId) m = false /\
    to_json (RequestId := RequestId) m = Some (notification_text n) /\
    posted parse_value decode_client max (trim (notification_text n)) m false;
  answered id r rt : let res := (reply id r rt).1 in let text := answer_text id res in
    answer_message (match res with Ok v => inl v | Err e => inr e end) id = Ok (answer id res) /\
    is_request (RequestId := RequestId) (answer id res) = false /\ to_json (RequestId := RequestId) (answer id res) = Some text /\
    SseBodyFacts.message_text text /\ trim text <> [] /\ length text <= max_line_length o /\
    decode_server (line_to_string text) = Some (Dispatcher.Single (answer id res)) /\
    answers_to client_handle_error id (answer id res);
  ids g : good g -> good (generate g).2 /\
    HttpHandlerFacts.wf_id (generate g).1 /\ SseBodyFacts.frame_id (generate g).1 /\ (generate g).1 <> DEFAULT_STREAM_ID;
  codes b : SseBodyFacts.frame_id (encode b);
  single m : as_single (Dispatcher.Single m) = Ok m;
  plain : custom_headers o = None;
  never_cancelled w : cancelled w = false;
  always_open w : read_open w = true;
}.
Context (P : protocol).

Lemma plain_headers : headers_ok (H := H) parse_name invalid_value o.
Proof. intros l. by rewrite (plain P). Qed.

Definition cuts_ok (cuts : list (bytes -> list bytes)) : Prop := Forall (fun cut => forall b, concat (cut b) = b) cuts.
(** The client after one call: a transport that posted [text], the generator
    and the session. *)
Record called (se id : option str) (text : str) (g : RequestIdGenNumeric.t) (s s' : client_state) : Prop := {
  k_transport : exists x, ClientRuntime.heap s' = ClientRuntime.heap s ++ [x] /\ actions (world x) = [Post se text];
  k_session : ClientRuntime.session_id (ClientRuntime.rt s') = id;
  k_gen : ClientRuntime.request_id_gen (ClientRuntime.rt s') = g;
  k_options : ClientRuntime.has_options (ClientRuntime.rt s') = true;
}.
Abbreviation send := (ClientRuntime.send from_message client_answer client_handle_request client_handle_notification client_handle_error
  client_encode (is_request (RequestId := RequestId)) is_request_fc is_notification_fc as_single client_env).
Abbreviation counter s := (RequestIdGenNumeric.message_id_counter (ClientRuntime.request_id_gen (ClientRuntime.rt (s : client_state)))).
Abbreviation next_gen s := (RequestIdGenNumeric.next_request_id (ClientRuntime.request_id_gen (ClientRuntime.rt (s : client_state)))).2.

Lemma client_asks (s : client_state) r h chunks id rt : ClientRuntime.has_options (ClientRuntime.rt s) = true ->
  visible_session s -> get_str h MCP_SESSION_ID_HEADER = Some id ->
  (forall id', ClientRuntime.session_id (ClientRuntime.rt s) = Some id' -> id' = id) ->
  let res := (reply (id_of (counter s)) r rt).1 in
  StreamableClientFacts.answer h chunks (answer_text (id_of (counter s)) res) ->
  exists s', send (message_of (Ask r)) None None (with_net [mkConversation [Reply 200%N h (Chunk <$> chunks)] []] s) =
    Some (Ok (Some (answer (id_of (counter s)) res)), s') /\
    called (ClientRuntime.session_id (ClientRuntime.rt s)) (Some id) (trim (request_text (counter s) r)) (next_gen s) s s'.
Proof.
  intros Ho Hv Hid Hse res Ha. destruct (asked P (counter s) r) as (Hq & Hm & Hqo & Hi & Hj & _).
  destruct (answered P (id_of (counter s)) r rt) as (_ & _ & _ & [[_ Hlf] [Hne _]] & _ & Hlen & Hd & Hto). fold res in Hlf, Hne, Hlen, Hd, Hto.
  set (c := mkConversation [Reply 200%N h (Chunk <$> chunks)] []).
  destruct (send_answered show_error decode_server cancelled read_open parse_name invalid_value o plain_headers from_message client_answer
    client_handle_request client_handle_notification client_handle_error client_encode (never_cancelled P) (always_open P) is_request_fc
    is_notification_fc as_single (single P) client_env (message_of (Ask r)) None (with_net [c] s) (request_text (counter s) r)
    (id_of (counter s)) (answer_text (id_of (counter s)) res) (answer (id_of (counter s)) res) (Some id)) as (s' & E & [Hx Hn Hs Hg Hop _ _ _]);
    [done|done| | |done|done|done|].
  - split; [done|]. eexists. split; [exact Hm|]. by split_and!.
  - exists h, chunks, []. by split_and!.
  - exists s'. split; [exact E|]. split; [exact Hx| |exact Hg|by rewrite Hop]. rewrite Hs. cbn.
    destruct (ClientRuntime.session_id (ClientRuntime.rt s)) as [id'|]; [|done]. cbn. by rewrite (Hse id').
Qed.
Lemma client_tells (s : client_state) n h chunks id : ClientRuntime.has_options (ClientRuntime.rt s) = true ->
  visible_session s -> ClientRuntime.session_id (ClientRuntime.rt s) = Some id ->
  exists s', send (message_of (Tell n)) None None (with_net [mkConversation [Reply 202%N h (Chunk <$> chunks)] []] s) = Some (Ok None, s') /\
    called (Some id) (Some id) (trim (notification_text n)) (ClientRuntime.request_id_gen (ClientRuntime.rt s)) s s'.
Proof.
  intros Ho Hv Hse. destruct (told P n) as (Hq & Hn & Hm & Hqo & Hj & _).
  set (c := mkConversation [Reply 202%N h (Chunk <$> chunks)] []).
  destruct (send_accepted show_error decode_server cancelled read_open parse_name invalid_value o plain_headers from_message client_answer
    client_handle_request client_handle_notification client_handle_error client_encode (never_cancelled P) (always_open P) is_request_fc
    is_notification_fc as_single client_env (message_of (Tell n)) None (with_net [c] s) (notification_text n)) as (s' & se & E & [Hx Hnet Hs Hg Hop _ _ _]);
    [done|done| |by exists 202%N, h, (Chunk <$> chunks), []|].
  - split; [done|]. split; [done|]. eexists. split; [exact Hm|]. by split_and!.
  - exists s'. split; [exact E|]. cbn in Hx. rewrite Hse in Hx. split; [exact Hx| |exact Hg|by rewrite Hop]. rewrite Hs. cbn. by rewrite Hse.
Qed.

(** *** One call *)

Abbreviation connected := (connected good).
Abbreviation only := (only good).
Abbreviation authless rt := (ServerRuntime.update_auth_info None (rt : runtime)).
Abbreviation answers s r rt := (reply (id_of (counter s)) r (authless rt)).
Lemma authless_initialized rt : initialized (authless rt) = initialized rt.
Proof. unfold ServerRuntime.update_auth_info. by case_match. Qed.

Lemma asked_handled r z rt : initialized rt = true \/ (exists v, (reply (id_of z) r rt).1 = Ok v) ->
  let res := reply (id_of z) r rt in
  handles as_batch show_error clock env0 env timeout store answer_message handle_request handle_notification handle_error decode_client max
    rt (trim (request_text z r)) res.2 (fun ids => line_for clock ids (answer_text (id_of z) res.1) ++ [LF]).
Proof.
  intros Hi res. destruct (asked P z r) as (_ & _ & _ & _ & _ & Hc & Hd & _). destruct (answered P (id_of z) r rt) as (Ha & Hr & Hj & _ & Ht & _).
  apply (handles_request as_batch show_error clock env0 env timeout store answer_message handle_request handle_notification handle_error
    decode_client max rt _ (id_of z) r res.1 res.2 (answer (id_of z) res.1)); try done.
  - intros h. apply (replies P).
  - destruct Hi as [Hi|Hv]; [left|by right]. by apply (stays_initialized P).
Qed.
Lemma outgoing_ask (s : client_state) r : outgoing from_message is_request_fc (message_of (Ask r)) s = Some (trim (request_text (counter s) r)).
Proof. destruct (asked P (counter s) r) as (Hq & Hm & _ & _ & Hj & _). unfold outgoing. by rewrite Hq, Hm, Hj. Qed.
Lemma outgoing_tell (s : client_state) n : outgoing from_message is_request_fc (message_of (Tell n)) s = Some (trim (notification_text n)).
Proof. destruct (told P n) as (Hq & _ & Hm & _ & Hj & _). unfold outgoing. by rewrite Hq, Hm, Hj. Qed.
(** A call whose post is served with [r], and what the client makes of it. *)
Lemma call_served cut m (s s' : client_state) w w' payload r res : outgoing from_message is_request_fc m s = Some payload ->
  serve cut (ClientRuntime.session_id (ClientRuntime.rt s)) payload w = (r, w') ->
  send m None None (with_net [mkConversation [r] []] s) = Some (res, s') -> call cut m None (s, w) = Some (res, (s', w')).
Proof.
  intros Ho Hs Hc. unfold HttpSession.call. rewrite Ho.
  rewrite Hs. cbn [mbind option_bind]. change (ClientRuntime.send _ _ _ _ _ _ _ _ _ _ _ m None None _) with (send m None None (with_net [mkConversation [r] []] s)).
  by rewrite Hc.
Qed.
Lemma call_ask cut id i rt (s : client_state) w r : (forall b, concat (cut b) = b) ->
  ClientRuntime.has_options (ClientRuntime.rt s) = true -> ClientRuntime.session_id (ClientRuntime.rt s) = Some id ->
  connected id i rt w -> initialized rt = true ->
  let res := answers s r rt in
  exists s' w', call cut (message_of (Ask r)) None (s, w) = Some (Ok (Some (answer (id_of (counter s)) res.1)), (s', w')) /\
    called (Some id) (Some id) (trim (request_text (counter s) r)) (next_gen s) s s' /\ only i res.2 w w'.
Proof.
  intros Hcut Ho Hse Hc Hi res. pose proof (connected_visible good id i rt w Hc) as Hv.
  assert (Hvs : visible_session s) by (intros id'; rewrite Hse; by intros [= <-]).
  destruct (asked P (counter s) r) as (_ & _ & _ & _ & _ & Hcl & Hd & Hb & Hr).
  destruct (answered P (id_of (counter s)) r (authless rt)) as (_ & _ & _ & Htext & _). fold res in Htext.
  pose proof (asked_handled r (counter s) (authless rt) (or_introl (eq_trans (authless_initialized rt) Hi))) as Hh. cbn zeta in Hh. fold res in Hh.
  assert (Hs : exists h chunks w', serve cut (Some id) (trim (request_text (counter s) r)) w = (Reply 200%N h (Chunk <$> chunks), w') /\
    StreamableClientFacts.answer h chunks (answer_text (id_of (counter s)) res.1) /\ get_str h MCP_SESSION_ID_HEADER = Some id /\ only i res.2 w w').
  { destruct (enable_json_response w) eqn:Hj.
    - destruct (serve_json as_batch show_error clock env0 env timeout store now encode parse_value is_initialize_request parse_version
        show_sdk_error answer_message handle_request handle_notification handle_error decode_client max good (ids P) cut id i rt w _ res.2 _
        (answer_text (id_of (counter s)) res.1) Hc Hj Hh eq_refl) as (w' & E & Hw'); [apply Htext..|].
      destruct (json_headers_spec (H := H) id Hv) as [Ht Hid]. eexists _, _, w'. split; [exact E|]. split; [|by split].
      by apply AnswerJson.
    - destruct (serve_stream as_batch show_error clock env0 env timeout store now encode parse_value is_initialize_request parse_version
        show_sdk_error answer_message handle_request handle_notification handle_error decode_client max good (codes P) cut id i rt w _ res.2 _
        true Hc Hj Hb Hr Hh) as (ids & w' & E & Hf & Hw').
      destruct (stream_headers_spec (H := H) id Hv) as [Ht Hid]. eexists _, _, w'. split; [exact E|]. split; [|by split].
      apply (stream_answer clock _ ids); [done|done|done|apply Hcut]. }
  destruct Hs as (h & chunks & w' & E & Ha & Hid & Hw').
  destruct (client_asks s r h chunks id (authless rt) Ho Hvs Hid) as (s' & Es & Hs'); [by rewrite Hse; intros ? [= ->]|exact Ha|].
  exists s', w'. rewrite Hse in Hs'. split; [|by split]. eapply call_served; [apply outgoing_ask| |exact Es]. by rewrite Hse.
Qed.
Lemma call_tell cut id i rt (s : client_state) w n : enable_json_response w = false ->
  ClientRuntime.has_options (ClientRuntime.rt s) = true -> ClientRuntime.session_id (ClientRuntime.rt s) = Some id -> connected id i rt w ->
  exists s' w', call cut (message_of (Tell n)) None (s, w) = Some (Ok None, (s', w')) /\
    called (Some id) (Some id) (trim (notification_text n)) (ClientRuntime.request_id_gen (ClientRuntime.rt s)) s s' /\
    only i (notified n (authless rt)) w w'.
Proof.
  intros Hj Ho Hse Hc. pose proof (connected_visible good id i rt w Hc) as Hv.
  assert (Hvs : visible_session s) by (intros id'; rewrite Hse; by intros [= <-]).
  destruct (told P n) as (_ & _ & _ & _ & _ & Hcl & Hd & Hb & Hr).
  pose proof (handles_notification as_batch show_error clock env0 env timeout store answer_message handle_request handle_notification handle_error
    decode_client max (authless rt) _ n _ Hcl Hd (fun h => notifies P n h (authless rt))) as Hh.
  destruct (serve_stream as_batch show_error clock env0 env timeout store now encode parse_value is_initialize_request parse_version
    show_sdk_error answer_message handle_request handle_notification handle_error decode_client max good (codes P) cut id i rt w _ _ _
    false Hc Hj Hb Hr Hh) as (ids & w' & E & _ & Hw').
  destruct (client_tells s n (stream_headers id) (cut (body_bytes (body_frames (line_event (is_some ids)) []))) id Ho Hvs Hse) as (s' & Es & Hs').
  exists s', w'. split; [|by split]. eapply call_served; [apply outgoing_tell| |exact Es]. by rewrite Hse.
Qed.
(** The first call of a client without a session: the initialize request. *)
Lemma call_start cut (s : client_state) w r v : (forall b, concat (cut b) = b) ->
  ClientRuntime.has_options (ClientRuntime.rt s) = true -> ClientRuntime.session_id (ClientRuntime.rt s) = None ->
  ready good w -> (is_full now (session_store w)).1 = false -> is_initialize_request (ServerRuntime.Request (id_of (counter s)) r) = true ->
  let id := (generate (id_generator w)).1 in
  let res := answers s r (ServerRuntime.new_instance id None) in
  res.1 = Ok v ->
  exists s' w', call cut (message_of (Ask r)) None (s, w) = Some (Ok (Some (answer (id_of (counter s)) res.1)), (s', w')) /\
    called None (Some id) (trim (request_text (counter s) r)) (next_gen s) s s' /\
    connected id (length (runtimes w)) res.2 w' /\ runtimes w' = runtimes w ++ [res.2] /\
    enable_json_response w' = enable_json_response w /\
    (forall k, k <> id -> holds (session_store w') k = holds (is_full now (session_store w)).2 k).
Proof.
  intros Hcut Ho Hse Hw Hfull Hinit id res Hv. set (rt := ServerRuntime.new_instance id None : runtime) in *.
  destruct (asked P (counter s) r) as (_ & _ & _ & _ & _ & Hcl & Hd & Hb & Hr).
  pose proof (asked_handled r (counter s) rt (or_intror (ex_intro _ v Hv))) as Hh.
  destruct (serve_start as_batch show_error clock env0 env timeout store now encode parse_value is_initialize_request parse_version
    show_sdk_error answer_message handle_request handle_notification handle_error decode_client max good (ids P) (codes P) cut w _ _ _ _
    Hw Hfull Hb Hd Hinit Hh) as (ids & w' & E & Hf & Hc & Hrs & Hj & Hks).
  pose proof (connected_visible good _ _ _ _ Hc) as Hvis. destruct (stream_headers_spec (H := H) id Hvis) as [Ht Hid].
  assert (Hvs : visible_session s) by (intros id'; by rewrite Hse).
  destruct (client_asks s r (stream_headers id) (cut (body_bytes (body_frames (line_event (is_some ids))
    (line_for clock ids (answer_text (id_of (counter s)) res.1) ++ [LF])))) id rt Ho Hvs Hid) as (s' & Es & Hs'); [by rewrite Hse| |].
  { destruct (answered P (id_of (counter s)) r rt) as (_ & _ & _ & Htext & _). apply (stream_answer clock _ ids); [done|exact Htext|done|apply Hcut]. }
  exists s', w'. rewrite Hse in Hs'. split; [|by split_and!]. eapply call_served; [apply outgoing_ask| |exact Es]. by rewrite Hse.
Qed.

(** *** A conversation *)

Abbreviation texts := (texts request_text notification_text).
Abbreviation gen s := (ClientRuntime.request_id_gen (ClientRuntime.rt (s : client_state))).
Definition exchanges (xs : list ClientTr) : list (list action) := (fun x => actions (world x)) <$> xs.

Lemma converse_connected ms cuts id i rt (s : client_state) w : cuts_ok cuts -> length cuts = length ms ->
  ClientRuntime.has_options (ClientRuntime.rt s) = true -> ClientRuntime.session_id (ClientRuntime.rt s) = Some id ->
  connected id i rt w -> initialized rt = true -> (enable_json_response w = true -> Forall (fun m => exists r, m = Ask r) ms) ->
  exists s' w' xs, converse cuts (message_of <$> ms) (s, w) = Some (Ok <$> (direct ms (gen s) rt).1, (s', w')) /\
    ClientRuntime.heap s' = ClientRuntime.heap s ++ xs /\ exchanges xs = (fun text => [Post (Some id) text]) <$> texts ms (gen s) /\
    ClientRuntime.session_id (ClientRuntime.rt s') = Some id /\ connected id i (direct ms (gen s) rt).2 w' /\
    (forall j, j <> i -> runtimes w' !! j = runtimes w !! j).
Proof.
  revert cuts rt s w; induction ms as [|m ms IH]; intros cuts rt s w Hcuts Hlen Ho Hse Hc Hi Hj.
  { exists s, w, []. split; [by destruct cuts|]. by rewrite app_nil_r. }
  destruct cuts as [|cut cuts]; [done|]. injection Hlen as Hlen. apply Forall_cons in Hcuts as [Hcut Hcuts].
  assert (Step : exists s1 w1 x rt1 res text, call cut (message_of m) None (s, w) = Some (Ok res, (s1, w1)) /\
    ClientRuntime.heap s1 = ClientRuntime.heap s ++ [x] /\ actions (world x) = [Post (Some id) text] /\
    ClientRuntime.has_options (ClientRuntime.rt s1) = true /\ ClientRuntime.session_id (ClientRuntime.rt s1) = Some id /\
    only i rt1 w w1 /\ initialized rt1 = true /\ texts (m :: ms) (gen s) = text :: texts ms (gen s1) /\
    direct (m :: ms) (gen s) rt = (res :: (direct ms (gen s1) rt1).1, (direct ms (gen s1) rt1).2)).
  { destruct m as [r|n].
    - destruct (call_ask cut id i rt s w r Hcut Ho Hse Hc Hi) as (s1 & w1 & E & [(x & Hx & Ha) Hs1 Hg Ho1] & Hw1).
      exists s1, w1, x, (answers s r rt).2. eexists _, _. split_and!; [exact E|done|exact Ha|done|done|done| | |].
      + apply (stays_initialized P). by rewrite authless_initialized.
      + by rewrite Hg.
      + cbn [HttpSession.direct RequestIdGenNumeric.next_request_id]. rewrite Hg. unfold RequestIdGenNumeric.next_request_id. cbn [snd].
        destruct (reply _ r (authless rt)) as [res rt1]. cbn [fst snd]. by destruct (direct ms _ rt1) as [rs rt2].
    - assert (Hjw : enable_json_response w = false).
      { destruct (enable_json_response w); [|done]. specialize (Hj eq_refl). apply Forall_cons in Hj as [[r Hr] _]. done. }
      destruct (call_tell cut id i rt s w n Hjw Ho Hse Hc) as (s1 & w1 & E & [(x & Hx & Ha) Hs1 Hg Ho1] & Hw1).
      exists s1, w1, x, (notified n (authless rt)). eexists _, _. split_and!; [exact E|done|exact Ha|done|done|done| | |].
      + apply (stays_initialized P). by rewrite authless_initialized.
      + by rewrite Hg.
      + cbn [HttpSession.direct]. rewrite Hg. by destruct (direct ms _ _) as [rs rt2]. }
  destruct Step as (s1 & w1 & x & rt1 & res & text & E & Hx & Ha & Ho1 & Hs1 & Hw1 & Hi1 & -> & ->).
  destruct (IH cuts rt1 s1 w1 Hcuts Hlen Ho1 Hs1 (only_connected good id i rt rt1 w w1 Hc Hw1) Hi1) as (s' & w' & xs & E' & Hxs & Hp & Hs' & Hc' & Hrs).
  { intros Hjw. rewrite (o_json _ _ _ _ _ Hw1) in Hjw. specialize (Hj Hjw). by apply Forall_cons in Hj as [_ Hj]. }
  exists s', w', (x :: xs). split_and!; [| | |done|done|].
  - cbn [fmap list_fmap HttpSession.converse]. rewrite E. cbn [mbind option_bind]. by rewrite E'.
  - by rewrite Hxs, Hx, <-app_assoc.
  - unfold exchanges in *. cbn [fmap list_fmap]. by rewrite Ha, Hp.
  - intros j Hne. rewrite Hrs by done. rewrite (o_runtimes _ _ _ _ _ Hw1). by rewrite list_lookup_insert_ne.
Qed.

(** C3. A session over HTTP is the same as calling the handler.  A client
    without a session sends an initialize request that the handler accepts and
    then, one after the other, further messages: any requests and notifications
    when the server, not at its capacity, answers with streams of events,
    resumable or not; only requests when it answers with JSON (a notification,
    the initialized one included, is answered 422 there).  The server handles
    each post with its HTTP handler, runs the tasks this spawns, and its answer
    comes back cut into any chunks.  Every call returns what the handler answers
    to it, called directly in that order on the runtime of the session; the
    client posts each message once, the first without a session and the others
    with the id the server generated, under which the server holds that
    runtime; and the runtimes of other sessions are what they were. *)
Theorem http_session ms cuts (s : client_state) w r v :
  cuts_ok cuts -> length cuts = S (length ms) -> (enable_json_response w = true -> Forall (fun m => exists r, m = Ask r) ms) ->
  ClientRuntime.has_options (ClientRuntime.rt s) = true -> ClientRuntime.session_id (ClientRuntime.rt s) = None ->
  ready good w -> (is_full now (session_store w)).1 = false -> is_initialize_request (ServerRuntime.Request (id_of (counter s)) r) = true ->
  let id := (generate (id_generator w)).1 in
  let rt : runtime := ServerRuntime.new_instance id None in
  let i := length (runtimes w) in
  (reply (id_of (counter s)) r rt).1 = Ok v -> initialized (reply (id_of (counter s)) r rt).2 = true ->
  exists s' w' xs,
    converse cuts (message_of <$> Ask r :: ms) (s, w) = Some (Ok <$> (direct (Ask r :: ms) (gen s) rt).1, (s', w')) /\
    ClientRuntime.heap s' = ClientRuntime.heap s ++ xs /\
    exchanges xs = [Post None (trim (request_text (counter s) r))] :: ((fun text => [Post (Some id) text]) <$> texts ms (next_gen s)) /\
    ClientRuntime.session_id (ClientRuntime.rt s') = Some id /\
    holds (session_store w') id = Some i /\ runtimes w' !! i = Some (direct (Ask r :: ms) (gen s) rt).2 /\
    (forall j, j < i -> runtimes w' !! j = runtimes w !! j).
Proof.
  intros Hcuts Hlen Hj Ho Hse Hw Hfull Hinit id rt i Hv Hi. destruct cuts as [|cut cuts]; [done|].
  injection Hlen as Hlen. apply Forall_cons in Hcuts as [Hcut Hcuts].
  destruct (call_start cut s w r v Hcut Ho Hse Hw Hfull Hinit Hv) as (s1 & w1 & E & [(x & Hx & Ha) Hs1 Hg Ho1] & Hc & Hrs & Hj1 & _).
  fold id rt i in E, Hs1, Hc, Hrs. rewrite <-Hj1 in Hj.
  destruct (converse_connected ms cuts id i _ s1 w1 Hcuts Hlen Ho1 Hs1 Hc Hi Hj) as (s' & w' & xs & E' & Hxs & Hp & Hs' & Hc' & Hr').
  rewrite Hg in E', Hp, Hc'.
  assert (D : direct (Ask r :: ms) (gen s) rt = (Some (answer (id_of (counter s)) (reply (id_of (counter s)) r rt).1)
      :: (direct ms (next_gen s) (reply (id_of (counter s)) r rt).2).1, (direct ms (next_gen s) (reply (id_of (counter s)) r rt).2).2)).
  { cbn [HttpSession.direct]. unfold RequestIdGenNumeric.next_request_id. cbn [snd].
    change (authless rt) with rt. destruct (reply _ r rt) as [res rt1]. cbn [fst snd]. by destruct (direct ms _ rt1). }
  exists s', w', (x :: xs). rewrite D. cbn [fst snd]. split_and!; [| | |done|apply Hc'|apply Hc'|].
  - cbn [fmap list_fmap HttpSession.converse]. rewrite E. cbn [mbind option_bind]. by rewrite E'.
  - by rewrite Hxs, Hx, <-app_assoc.
  - unfold exchanges in *. cbn [fmap list_fmap]. by rewrite Ha, Hp.
  - intros j Hlt. rewrite Hr' by lia. rewrite Hrs. by apply lookup_app_l.
Qed.
End Session.

(** ** A session on which the claim is tried *)

Module HttpSessionDemo.
Import HttpSession HttpSessionFacts ClientStreamableTransport StreamableClientFacts.
Abbreviation CM := (ServerRuntime.ClientMessage unit bool unit unit).
Abbreviation SM := (ClientRuntime.ServerMessage unit unit unit bool).
Abbreviation runtime := (ServerRuntime.t unit unit).
(** A request initializes the session or asks whether it is initialized. *)
Definition reply (_ : unit) (initialize : bool) (rt : runtime) : result bool RpcError * runtime :=
  if initialize
  then (Ok true, ServerRuntime.mk (ServerRuntime.session_id rt) (ServerRuntime.transport_map rt) (ServerRuntime.transport_ready rt)
                   (ServerRuntime.request_id_gen rt) (Some tt) (ServerRuntime.auth_info rt))
  else (Ok (is_some (ServerRuntime.client_details rt)), rt).
Definition notified (_ : unit) (rt : runtime) : runtime := rt.
Definition request_text (_ : Z) (initialize : bool) : str := if initialize then s! "{initialize}" else s! "{ask}".
Definition notification_text (_ : unit) : str := s! "{note}".
Definition answer (_ : unit) (res : result bool RpcError) : SM :=
  match res with Ok b => ClientRuntime.Response tt b | Err e => ClientRuntime.ErrorMessage (Some tt) e end.
Definition answer_text (_ : unit) (res : result bool RpcError) : str := match res with Ok true => s! "{yes}" | _ => s! "{no}" end.
#[global] Instance client_messages : Message unit CM := {
  is_request := fun m => match m with ServerRuntime.Request _ _ => true | _ => false end;
  request_id := fun m => match m with ServerRuntime.Request i _ | ServerRuntime.Response i _ => Some i
                         | ServerRuntime.ErrorMessage i _ => i | _ => None end;
  to_json := fun m => match m with ServerRuntime.Request _ b => Some (request_text 0 b) | ServerRuntime.Notification n => Some (notification_text n)
                      | _ => None end;
  batch_to_json := fun _ => None;
  error_message := fun e i => ServerRuntime.ErrorMessage i e;
}.
#[global] Instance server_messages : Message unit SM := {
  is_request := fun m => match m with ClientRuntime.Request _ _ => true | _ => false end;
  request_id := fun m => match m with ClientRuntime.Request i _ | ClientRuntime.Response i _ => Some i
                         | ClientRuntime.ErrorMessage i _ => i | _ => None end;
  to_json := fun m => match m with ClientRuntime.Response i b => Some (answer_text i (Ok b)) | _ => None end;
  batch_to_json := fun _ => None;
  error_message := fun e i => ClientRuntime.ErrorMessage i e;
}.
Definition decode_client (line : str) : option (Messages CM) :=
  if decide (line = s! "{initialize}") then Some (Dispatcher.Single (ServerRuntime.Request tt true))
  else if decide (line = s! "{ask}") then Some (Dispatcher.Single (ServerRuntime.Request tt false))
  else if decide (line = s! "{note}") then Some (Dispatcher.Single (ServerRuntime.Notification tt)) else None.
Definition decode_server (line : str) : option (Messages SM) :=
  if decide (line = s! "{yes}") then Some (Dispatcher.Single (ClientRuntime.Response tt true))
  else if decide (line = s! "{no}") then Some (Dispatcher.Single (ClientRuntime.Response tt false)) else None.
Definition parse_value (text : str) : option Value :=
  Some (VObject ((s! "method", VOther) :: if decide (text = s! "{note}") then [] else [(s! "id", VOther)])).
Definition is_initialize (m : CM) : bool := match m with ServerRuntime.Request _ b => b | _ => false end.
Definition answer_message (res : bool + RpcError) (id : unit) : result SM RpcError :=
  Ok (answer id (match res with inl b => Ok b | inr e => Err e end)).
Definition from_message (m : message (Req := bool) (Notif := unit)) (id : option Z) : result CM RpcError :=
  Ok (match m with Ask b => ServerRuntime.Request tt b | Tell n => ServerRuntime.Notification n end).
Definition is_ask (m : message (Req := bool) (Notif := unit)) : bool := match m with Ask _ => true | _ => false end.
Definition as_single (m : Messages SM) : result SM SdkError :=
  match m with Dispatcher.Single m => Ok m | _ => Err (mkSdkError internal_error None) end.
#[global] Instance one_id : IdGenerator unit := { generate := fun g => (s! "S1", g) }.

Abbreviation ServerTr := (SseTransport.t unit CM bytes unit InMemoryEventStore.t).
Abbreviation session := (ServerRuntime.state unit unit ServerTr).
Abbreviation world := (McpAppState.t unit unit ServerTr (InMemorySessionStore.t nat) unit).
Abbreviation client := (ClientRuntime.state unit (list (conversation ListHeaders.t))
  (ClientStreamableTransport.t ListHeaders.t unit SM bytes InMemoryEventStore.t) unit).
Definition handle_request (id : unit) (b : bool) (s : session) : result bool RpcError * session :=
  ((reply id b (ServerRuntime.rt s)).1, ServerRuntime.mkState (ServerRuntime.heap s) (reply id b (ServerRuntime.rt s)).2).
Definition handle_notification (_ : unit) : Act session McpSdkError unit := act_ret tt.
Definition handle_error (_ : RpcError) : Act session McpSdkError unit := act_ret tt.
Definition client_refuses (_ : unit) (_ : unit) : Act client RpcError unit := act_fail (mkRpcError internal_error None).
Definition client_ignores {A} (_ : A) : Act client McpSdkError unit := act_ret tt.
Definition client_answer (_ : unit + RpcError) (_ : unit) : result CM RpcError := Err (mkRpcError internal_error None).
(** A server with an event store and one other session. *)
Definition server : world :=
  McpAppState.mk (HttpHandler.Demo.demo.(session_store)) tt (FastIdGenerator.new (Some STREAM_PREFIX)) false true
    [ServerRuntime.new_instance (s! "s1") None] [] [].
Definition client_start : client := ClientRuntime.mkState [] [] ClientRuntime.new_instance [] tt.
Definition codes (_ : bytes) : str := s! "x".
Definition in_two (b : bytes) : list bytes := [take 9 b; drop 9 b].

(** What is relied on holds of it. *)
Lemma http_demo_protocol :
  protocol codes parse_value answer_message handle_request handle_notification decode_client 1000 decode_server
    ClientStreamExamples.never ClientStreamExamples.always StreamableClientDemo.opts
    from_message is_ask (fun m => negb (is_ask m)) client_ignores as_single reply notified answer (fun _ => tt) answer_text (fun m => m)
    request_text notification_text (fun _ => True) (H := ListHeaders.t) (U := unit) (W := bytes) (CSt := InMemoryEventStore.t) (ServerInfo := unit).
Proof.
  split.
  - intros. done.
  - intros. by eexists.
  - intros rt Hi. split; [|done]. intros id []; [done|exact Hi].
  - intros z b m. unfold m. unfold posted. destruct b; split_and!; first [reflexivity | decided | vm_compute; lia].
  - intros [] m. unfold m, posted. split_and!; first [reflexivity | decided | vm_compute; lia].
  - intros [] b rt. assert (E : exists v, (reply tt b rt).1 = Ok v) by (destruct b; eexists; reflexivity). destruct E as [v ->]. cbv zeta.
    split; [reflexivity|]. split; [reflexivity|]. split; [reflexivity|].
    destruct v; split_and!; first [reflexivity | decided | vm_compute; lia | by left; eexists].
  - intros g _. split_and!; first [decided | vm_compute; lia].
  - intros b. split; decided.
  - done.
  - reflexivity.
  - done.
  - done.
Qed.
Lemma in_two_concat b : concat (in_two b) = b.
Proof. unfold in_two. cbn. by rewrite app_nil_r, take_drop. Qed.

Abbreviation converse := (converse (RequestId := unit) (fun _ => Err (mkSdkError internal_error None)) (fun _ => []) 7 (fun x => x) (fun x => x) 60 (InMemoryEventStore.new (Some 10))
  5 codes parse_value is_initialize (fun _ => Ok tt) (fun _ => []) answer_message handle_request handle_notification handle_error decode_client
  1000 decode_server ClientStreamExamples.never ClientStreamExamples.always StreamableClientDemo.parse_name [] StreamableClientDemo.opts
  from_message is_ask (fun m => negb (is_ask m)) client_answer client_refuses client_ignores client_ignores codes as_single (fun s => s)).

(** The client initializes, notifies and asks; each event stream reaches it in
    two pieces. *)
Lemma http_session_witness :
  exists s' w', converse (replicate 3 in_two) [Ask true; Tell tt; Ask false] (client_start, server)
    = Some ([Ok (Some (ClientRuntime.Response tt true)); Ok None; Ok (Some (ClientRuntime.Response tt true))], (s', w')) /\
  exchanges (ClientRuntime.heap s') = [[Post None (s! "{initialize}")]; [Post (Some (s! "S1")) (s! "{note}")]; [Post (Some (s! "S1")) (s! "{ask}")]] /\
  ClientRuntime.session_id (ClientRuntime.rt s') = Some (s! "S1") /\ holds (session_store w') (s! "S1") = Some 1.
Proof.
  destruct (http_session (fun _ => Err (mkSdkError internal_error None)) (fun _ => []) 7 (fun x => x) (fun x => x) 60 (InMemoryEventStore.new (Some 10))
    5 codes parse_value is_initialize (fun _ => Ok tt) (fun _ => []) answer_message handle_request handle_notification handle_error decode_client
    1000 decode_server ClientStreamExamples.never ClientStreamExamples.always StreamableClientDemo.parse_name [] StreamableClientDemo.opts
    from_message is_ask (fun m => negb (is_ask m)) client_answer client_refuses client_ignores client_ignores codes as_single (fun s => s)
    reply notified answer (fun _ => tt) answer_text (fun m => m) request_text notification_text (fun _ => True) http_demo_protocol
    [Tell tt; Ask false] (replicate 3 in_two) client_start server true true)
    as (s' & w' & xs & E & Hx & Hp & Hs & Hk & _).
  - by apply Forall_replicate, in_two_concat.
  - reflexivity.
  - discriminate.
  - reflexivity.
  - reflexivity.
  - split; [vm_compute; reflexivity|exact I|reflexivity].
  - reflexivity.
  - reflexivity.
  - reflexivity.
  - reflexivity.
  - exists s', w'. split; [exact E|]. split; [rewrite Hx; exact Hp|]. by split.
Defined.
End HttpSessionDemo.
