(* ===== verification/HttpConcurrent.v ===== *)
(** * Concurrent posts over streamable HTTP

    Posts of any number of clients to any number of sessions arrive at the HTTP
    handler of crates/rust-mcp-sdk/src/mcp_http/ while the tasks of earlier
    posts are still waiting; the scheduler runs these in any order.  The claim
    is that the server is linearizable: it behaves as if the handler had been
    called directly, once for each post, in the order in which the tasks ran. *)
From S2P Require Import Prelude RustStr LineReader Sse EventStore SessionStore IdGen Dispatcher SseBody Transport Auth TaskStore ServerRuntime Requests.
From S2P Require Import Http HttpHandler ClientStream ClientRuntime StreamableClient HttpSession.
Import McpAppState.

(** ** The system *)

Module HttpConcurrent.
Section System.
Context {H : Type} `{HeaderMap H} {RequestId : Type} `{Countable RequestId} {Req Notif Resp SReq SNotif SResp : Type}.
Abbreviation CM := (ServerRuntime.ClientMessage RequestId Req Notif Resp).
Abbreviation SM := (ClientRuntime.ServerMessage RequestId SReq SNotif SResp).
Context `{!Message RequestId CM} `{!Message RequestId SM} {Extra Details St G ResultFromServer : Type}.
Context `{!SessionStore nat St} `{!IdGenerator G}.
Abbreviation ServerTr := (SseTransport.t RequestId CM bytes unit InMemoryEventStore.t).
Abbreviation World := (McpAppState.t Extra Details ServerTr St G).
Abbreviation session := (ServerRuntime.state Extra Details ServerTr).
Context (as_batch : Messages CM -> result (list CM) SdkError) (show_error : Dispatcher.TransportError -> str) (clock : N)
  (env0 env : MessageDispatcher.t RequestId CM bytes unit InMemoryEventStore.t -> MessageDispatcher.t RequestId CM bytes unit InMemoryEventStore.t)
  (timeout : N) (store : InMemoryEventStore.t).
#[local] Instance concurrent_transport : TransportDispatcher RequestId CM SM ServerTr :=
  HttpSession.server_transport as_batch show_error clock env0 env.
Context (now : N) (encode : bytes -> str) (parse_value : str -> option Value) (is_initialize_request : CM -> bool)
  (parse_version : str -> result unit str) (show_sdk_error : McpSdkError -> str).
Context (answer_message : ResultFromServer + RpcError -> RequestId -> result SM RpcError).
Context (handle_request : RequestId -> Req -> session -> result ResultFromServer RpcError * session).
Context (handle_notification : Notif -> Act session McpSdkError unit) (handle_error : RpcError -> Act session McpSdkError unit).
Context (decode_client : str -> option (Messages CM)) (max : nat).

(** A client posts [payload] to a session, or the [k]-th waiting task runs. *)
Inductive event := Post (session_id payload : str) | Run (k : nat).
(** The server, the tasks that wait, those that ran, and the answers. *)
Record system := mkSystem {
  world : World;
  pool : list task;
  ran : list task;
  responses : list (result (Response H) McpHttpError);
}.
Definition start (w : World) : system := mkSystem w [] [] [].

(** The HTTP handler answers a post while its tasks wait; with JSON answers it
    waits for the only one itself. *)
Definition step (x : system) (e : event) : system :=
  match e with
  | Post id payload =>
      let before := length (tasks (world x)) in
      let '(r, w) := McpHttpHandler.internal_handle_streamable_http now encode parse_value decode_client is_initialize_request parse_version
                       show_sdk_error (HttpSession.new_transport timeout store) (fun w => w)
                       (HttpSession.read_line as_batch show_error clock env0 env answer_message handle_request handle_notification handle_error
                          decode_client max before) (HttpSession.post_request (Some id) payload) (world x) in
      mkSystem w (pool x ++ if enable_json_response w then [] else drop before (tasks w)) (ran x) (responses x ++ [r])
  | Run k =>
      match pool x !! k with
      | Some t =>
          mkSystem (HttpSession.run_task as_batch show_error clock env0 env answer_message handle_request handle_notification handle_error
                      decode_client max (world x) t) (base.delete k (pool x)) (ran x ++ [t]) (responses x)
      | None => x
      end
  end.
Definition execute (x : system) (es : list event) : system := foldl step x es.
(** The streams whose tasks are in a list. *)
Definition streams (ts : list task) : list nat := omap (fun t => match t with StreamTask _ n _ _ => Some n | _ => None end) ts.
(** The bytes of the response whose body is stream [n]. *)
Definition body (n : nat) (x : system) : bytes := body_bytes (body_frames (line_event (resumable (world x))) (HttpSession.written_by n (world x))).
End System.

(** *** The specification: the handler is called directly *)

Section Linear.
Context {RequestId Req Notif Resp Extra Details ResultFromServer : Type}.
Abbreviation CM := (ServerRuntime.ClientMessage RequestId Req Notif Resp).
Abbreviation runtime := (ServerRuntime.t Extra Details).
Context (reply : RequestId -> Req -> runtime -> result ResultFromServer RpcError * runtime) (notified : Notif -> runtime -> runtime).
Abbreviation answer := (option (RequestId * result ResultFromServer RpcError)).

Definition perform (m : CM) (rt : runtime) : answer * runtime :=
  match m with
  | ServerRuntime.Request id r => let '(res, rt) := reply id r rt in (Some (id, res), rt)
  | ServerRuntime.Notification n => (None, notified n rt)
  | _ => (None, rt)
  end.
(** A call to the session [c.1], whose runtime is [runtime_of c.1]. *)
Context (runtime_of : str -> option nat).
Definition perform_in (c : str * CM) (rts : list runtime) : answer * list runtime :=
  match runtime_of c.1 with
  | Some i => match rts !! i with
              | Some rt => let '(a, rt) := perform c.2 rt in (a, <[i := rt]> rts)
              | None => (None, rts)
              end
  | None => (None, rts)
  end.
Fixpoint linear (calls : list (str * CM)) (rts : list runtime) : list answer * list runtime :=
  match calls with
  | [] => ([], rts)
  | c :: calls =>
      let '(a, rts) := perform_in c rts in
      let '(answers, rts) := linear calls rts in (a :: answers, rts)
  end.
(** The calls a schedule makes, one for each post. *)
Context (decode_client : str -> option (Messages CM)).
Definition call_of (e : event) : option (str * CM) :=
  match e with
  | Post id payload => match decode_client payload with Some (Dispatcher.Single m) => Some (id, m) | _ => None end
  | Run _ => None
  end.
Definition calls (es : list event) : list (str * CM) := omap call_of es.
End Linear.
End HttpConcurrent.

(** ** Facts *)

Module HttpConcurrentFacts.
Import HttpConcurrent.

Section LinearFacts.
Context {RequestId Req Notif Resp Extra Details ResultFromServer : Type}.
Abbreviation CM := (ServerRuntime.ClientMessage RequestId Req Notif Resp).
Abbreviation runtime := (ServerRuntime.t Extra Details).
Context (reply : RequestId -> Req -> runtime -> result ResultFromServer RpcError * runtime) (notified : Notif -> runtime -> runtime).
Context (runtime_of : str -> option nat).
Abbreviation perform_in := (perform_in (Resp := Resp) reply notified runtime_of).
Abbreviation linear := (linear (Resp := Resp) reply notified runtime_of).
Lemma linear_snoc calls c rts :
  linear (calls ++ [c]) rts = ((linear calls rts).1 ++ [(perform_in c (linear calls rts).2).1], (perform_in c (linear calls rts).2).2).
Proof.
  revert rts; induction calls as [|c' calls IH]; intros rts; cbn [app HttpConcurrent.linear].
  - cbn [fst snd app]. by destruct (perform_in c rts).
  - destruct (perform_in c' rts) as [a rts']. rewrite IH. by destruct (linear calls rts').
Qed.
Lemma linear_length calls rts : length (linear calls rts).1 = length calls.
Proof.
  revert rts; induction calls as [|c calls IH]; intros rts; cbn [HttpConcurrent.linear]; [done|].
  destruct (perform_in c rts) as [a rts']. specialize (IH rts'). destruct (linear calls rts'). cbn in *. by rewrite IH.
Qed.
End LinearFacts.

(** *** The tasks that wait *)

Section Pool.
Implicit Types (ts : list task).
Lemma streams_app ts ts' : streams (ts ++ ts') = streams ts ++ streams ts'.
Proof. apply omap_app. Qed.
Lemma streams_delete ts k t : ts !! k = Some t -> streams [t] ++ streams (base.delete k ts) ≡ₚ streams ts.
Proof. intros Hk. rewrite <-streams_app. symmetry. apply omap_Permutation. by apply delete_Permutation. Qed.
Lemma in_streams n ts : n ∈ streams ts <-> exists i sid p, StreamTask i n sid p ∈ ts.
Proof.
  unfold streams. rewrite list_elem_of_omap. split.
  - intros ([i n' sid p| |] & Hin & E); [|done..]. injection E as ->. by exists i, sid, p.
  - intros (i & sid & p & Hin). by exists (StreamTask i n sid p).
Qed.
End Pool.

(** *** What is kept by every event *)

Section Concurrent.
Import SseBodyFacts HttpSession HttpSessionFacts.
Context {H : Type} `{HeaderMapLaws H} {RequestId : Type} `{Countable RequestId} {Req Notif Resp SReq SNotif SResp : Type}.
Abbreviation CM := (ServerRuntime.ClientMessage RequestId Req Notif Resp).
Abbreviation SM := (ClientRuntime.ServerMessage RequestId SReq SNotif SResp).
Context `{!Message RequestId CM} `{!Message RequestId SM} {Extra Details St G ResultFromServer : Type}.
Context `{!SessionStore nat St} `{!SessionStoreLaws nat St} `{!IdGenerator G}.
Abbreviation ServerTr := (SseTransport.t RequestId CM bytes unit InMemoryEventStore.t).
Abbreviation World := (McpAppState.t Extra Details ServerTr St G).
Abbreviation session := (ServerRuntime.state Extra Details ServerTr).
Abbreviation runtime := (ServerRuntime.t Extra Details).
Context (as_batch : Messages CM -> result (list CM) SdkError) (show_error : Dispatcher.TransportError -> str) (clock : N)
  (env0 env : MessageDispatcher.t RequestId CM bytes unit InMemoryEventStore.t -> MessageDispatcher.t RequestId CM bytes unit InMemoryEventStore.t)
  (timeout : N) (store : InMemoryEventStore.t).
Context (now : N) (encode : bytes -> str) (parse_value : str -> option Value) (is_initialize_request : CM -> bool)
  (parse_version : str -> result unit str) (show_sdk_error : McpSdkError -> str).
Context (answer_message : ResultFromServer + RpcError -> RequestId -> result SM RpcError).
Context (handle_request : RequestId -> Req -> session -> result ResultFromServer RpcError * session).
Context (handle_notification : Notif -> Act session McpSdkError unit) (handle_error : RpcError -> Act session McpSdkError unit).
Context (decode_client : str -> option (Messages CM)) (max : nat).
Abbreviation System := (system (H := H) (RequestId := RequestId) (Req := Req) (Notif := Notif) (Resp := Resp) (Extra := Extra)
  (Details := Details) (St := St) (G := G)).
Abbreviation step := (step (H := H) as_batch show_error clock env0 env timeout store now encode parse_value is_initialize_request parse_version
  show_sdk_error answer_message handle_request handle_notification handle_error decode_client max).
Abbreviation execute := (execute (H := H) as_batch show_error clock env0 env timeout store now encode parse_value is_initialize_request parse_version
  show_sdk_error answer_message handle_request handle_notification handle_error decode_client max).
Abbreviation fresh r := (new_transport (RequestId := RequestId) (Req := Req) (Notif := Notif) (Resp := Resp) timeout store r).
Abbreviation run_task := (run_task as_batch show_error clock env0 env answer_message handle_request handle_notification handle_error decode_client max).
Abbreviation handles := (handles as_batch show_error clock env0 env timeout store answer_message handle_request handle_notification handle_error
  decode_client max).
Abbreviation calls := (calls decode_client).
Implicit Types (w : World) (x : System) (es : list event) (rt : runtime) (m : CM) (r : option (str * str)).

(** The handler, apart from transports, and its messages. *)
Context (reply : RequestId -> Req -> runtime -> result ResultFromServer RpcError * runtime) (notified : Notif -> runtime -> runtime).
Context (answer : RequestId -> result ResultFromServer RpcError -> SM) (answer_text : RequestId -> result ResultFromServer RpcError -> str).
Context (good : G -> Prop).
Abbreviation perform := (perform (Resp := Resp) reply notified).
(** A session is initialized, and not authenticated. *)
Definition settled rt : Prop := is_some (ServerRuntime.client_details rt) = true /\ ServerRuntime.auth_info rt = None.

(** What is relied on: the handler sends nothing itself and leaves its session
    settled; its answers are written as one line; the server's ids are
    printable and without separator. *)
Record handler : Prop := {
  replies id q h rt : handle_request id q (ServerRuntime.mkState h rt) = ((reply id q rt).1, ServerRuntime.mkState h (reply id q rt).2);
  notifies n h rt : exists res, handle_notification n (ServerRuntime.mkState h rt) = (res, ServerRuntime.mkState h (notified n rt));
  settles rt : settled rt -> (forall id q, settled (reply id q rt).2) /\ forall n, settled (notified n rt);
  answered id q rt : let res := (reply id q rt).1 in let text := answer_text id res in
    answer_message (match res with Ok v => inl v | Err e => inr e end) id = Ok (answer id res) /\
    is_request (RequestId := RequestId) (answer id res) = false /\ to_json (RequestId := RequestId) (answer id res) = Some text /\
    message_text text /\ trim text <> [];
  ids g : good g -> good (generate g).2 /\
    HttpHandlerFacts.wf_id (generate g).1 /\ frame_id (generate g).1 /\ (generate g).1 <> DEFAULT_STREAM_ID;
  codes b : frame_id (encode b);
}.
Context (L : handler).

(** A post of one request or one notification. *)
Definition asks m : bool := match m with ServerRuntime.Request _ _ => true | _ => false end.
Definition fit (payload : str) m : Prop :=
  posted parse_value decode_client max payload m (asks m) /\
  match m with ServerRuntime.Request _ _ | ServerRuntime.Notification _ => True | _ => False end.
(** What a stream whose ids are [r] carries for an answer. *)
Definition written r (a : option (RequestId * result ResultFromServer RpcError)) : bytes :=
  match a with Some (id, res) => line_for clock r (answer_text id res) ++ [LF] | None => [] end.

Definition readable (a : option (RequestId * result ResultFromServer RpcError)) : Prop :=
  match a with Some (id, res) => message_text (answer_text id res) | None => True end.

Lemma perform_readable m rt : readable (perform m rt).1.
Proof. destruct m as [id q|n| |]; try done. cbn. destruct (answered L id q rt) as (_ & _ & _ & Ht & _). by destruct (reply id q rt). Qed.
Lemma perform_settled m rt : settled rt -> settled (perform m rt).2.
Proof. intros Hs. destruct (settles L rt Hs) as [Hr Hn]. destruct m; cbn; [|done..|done]. specialize (Hr id r). by destruct (reply id r rt). Qed.
Lemma fit_handles payload m rt : fit payload m -> settled rt -> handles rt payload (perform m rt).2 (fun r => written r (perform m rt).1).
Proof.
  intros [(Hc & Hd & _ & _) Hm] Hs. destruct m as [id q|n| |]; [| |done..].
  - destruct (answered L id q rt) as (Ha & Hr & Hj & _ & Ht). destruct (settles L rt Hs) as [Hset _].
    replace (perform (ServerRuntime.Request id q) rt) with (Some (id, (reply id q rt).1), (reply id q rt).2)
      by (cbn [HttpConcurrent.perform]; by destruct (reply id q rt)).
    apply (handles_request as_batch show_error clock env0 env timeout store answer_message handle_request handle_notification handle_error
      decode_client max rt payload id q (reply id q rt).1 (reply id q rt).2 (answer id (reply id q rt).1)); try done.
    + intros h. apply (replies L).
    + left. apply Hset.
  - apply (handles_notification as_batch show_error clock env0 env timeout store answer_message handle_request handle_notification handle_error
      decode_client max rt payload n); [done|done|]. intros h. apply (notifies L).
Qed.

(** The sessions posted to, and what each of them is. *)
Context (target : str -> Prop) (w : World).
Abbreviation base := (length (transports w)).
Definition served w' (id : str) : Prop := exists i rt, connected good id i rt w' /\ settled rt.
(** The calls in the order in which their streams ran, made directly. *)
Definition ordered es (ns : list nat) : list (str * CM) := omap (fun n => calls es !! (n - base)) ns.
Definition spec es x := linear reply notified (holds (session_store w)) (ordered es (streams (ran x))) (runtimes w).
(** Stream [n] is that of a call, and has not run. *)
Definition waiting es x (k : task) : Prop :=
  match k with
  | StreamTask i n sid payload => exists id m p, calls es !! (n - base) = Some (id, m) /\ target id /\ holds (session_store w) id = Some i /\
      payload = Some p /\ fit p m /\ sid <> DEFAULT_STREAM_ID /\ frame_id sid /\
      transports (world x) !! n = Some (fresh (if resumable w then Some (id, sid) else None))
  | ReplayTask _ None => True
  | _ => False
  end.
(** Stream [n] ran as the [q]-th, and carries the answer. *)
Definition carries es x (q n : nat) : Prop :=
  exists id m sid a, calls es !! (n - base) = Some (id, m) /\ target id /\ frame_id sid /\ (spec es x).1 !! q = Some a /\
    written_by n (world x) = written (if resumable w then Some (id, sid) else None) a /\ readable a.
Definition status m : N := if asks m then 200%N else 202%N.

Record linearized es x : Prop := {
  l_served id : target id -> served (world x) id;
  l_holds k : holds (session_store (world x)) k = holds (session_store w) k;
  l_options : enable_json_response (world x) = false /\ resumable (world x) = resumable w;
  l_transports : length (transports (world x)) = base + length (calls es);
  l_runtimes : runtimes (world x) = (spec es x).2;
  l_tasks : streams (pool x) ++ streams (ran x) ≡ₚ seq base (length (calls es));
  l_size : length (pool x) <= 2 * length (calls es);
  l_pool : Forall (waiting es x) (pool x);
  l_responses : responses x = imap (fun p c => Ok (mkResponse (status c.2) (stream_headers c.1) (BStream (base + p)))) (calls es);
  l_answers q n : streams (ran x) !! q = Some n -> carries es x q n;
}.

(** A post is answered and its tasks wait. *)
Definition posts_to e := match e with
                         | Post id payload => target id /\ exists m, fit payload m
                         | Run _ => True
                         end.
Lemma calls_post es id payload m : fit payload m -> calls (es ++ [Post id payload]) = calls es ++ [(id, m)].
Proof. intros [(_ & Hd & _) _]. unfold HttpConcurrent.calls. rewrite omap_app. cbn. by rewrite Hd. Qed.
Lemma calls_run es k : calls (es ++ [Run k]) = calls es.
Proof. unfold HttpConcurrent.calls. rewrite omap_app. cbn. by rewrite app_nil_r. Qed.
Lemma ordered_more es es' c ns : calls es' = calls es ++ [c] -> Forall (fun n => n - base < length (calls es)) ns ->
  ordered es' ns = ordered es ns.
Proof.
  intros Hc Hns. unfold ordered. rewrite Hc. induction Hns as [|n ns Hn _ IH]; [done|]. cbn [omap list_omap].
  rewrite lookup_app_l by done. by rewrite IH.
Qed.
Lemma ordered_length es ns : Forall (fun n => n - base < length (calls es)) ns -> length (ordered es ns) = length ns.
Proof.
  unfold ordered. induction 1 as [|n ns Hn _ IH]; [done|]. cbn [omap list_omap].
  destruct (proj2 (lookup_lt_is_Some (calls es) _) Hn) as [c ->]. cbn. by rewrite IH.
Qed.
Lemma ordered_lookup es ns q n : Forall (fun n => n - base < length (calls es)) ns -> ns !! q = Some n ->
  ordered es ns !! q = calls es !! (n - base).
Proof.
  intros Hns. revert q. unfold ordered. induction Hns as [|n' ns Hn _ IH]; intros q; [done|]. cbn [omap list_omap].
  destruct (lookup_lt_is_Some_2 (calls es) _ Hn) as [c Hc]. rewrite Hc. destruct q as [|q]; cbn; [by intros [= ->]|apply IH].
Qed.
Lemma streams_bound es x n : linearized es x -> n ∈ streams (pool x) ++ streams (ran x) -> base <= n < base + length (calls es).
Proof. intros Hx. rewrite (l_tasks _ _ Hx), elem_of_seq. lia. Qed.
Lemma waiting_kept es es' x x' k : calls es `prefix_of` calls es' ->
  (forall i n sid payload, k = StreamTask i n sid payload -> transports (world x') !! n = transports (world x) !! n) ->
  waiting es x k -> waiting es' x' k.
Proof.
  intros Hp Ht. destruct k as [i n sid payload| |]; [|done..]. intros (id & m & p & Hc & Hid & Hi & Hpay & Hf & Hs & Hfr & Hx).
  exists id, m, p. split_and!; try done; [by eapply prefix_lookup_Some|]. by rewrite (Ht _ _ _ _ eq_refl).
Qed.
Lemma carries_kept es es' x x' q n a : calls es `prefix_of` calls es' -> (spec es x).1 !! q = Some a -> (spec es' x').1 !! q = Some a ->
  transports (world x') !! n = transports (world x) !! n -> carries es x q n -> carries es' x' q n.
Proof.
  intros Hp Ha Ha' Ht (id & m & sid & a0 & Hc & Hid & Hf & Hs & Hw & Hre). exists id, m, sid, a0.
  split_and!; [by eapply prefix_lookup_Some|done|done|by rewrite <-Hs, Ha| |done]. unfold written_by. by rewrite Ht.
Qed.
Lemma served_kept w1 w2 id : ready good w2 -> (forall k, holds (session_store w2) k = holds (session_store w1) k) ->
  (forall i rt, runtimes w1 !! i = Some rt -> settled rt -> exists rt', runtimes w2 !! i = Some rt' /\ settled rt') ->
  served w1 id -> served w2 id.
Proof.
  intros Hr Hh Hrt (i & rt & [_ Hk Hi Hw Hf] & Hs). destruct (Hrt i rt Hi Hs) as (rt' & Hi' & Hs').
  exists i, rt'. split; [|done]. split; [done|by rewrite Hh|done..].
Qed.
Lemma unauthenticated rt : settled rt -> ServerRuntime.update_auth_info None rt = rt.
Proof. intros [_ Ha]. unfold ServerRuntime.update_auth_info. by rewrite Ha. Qed.

Lemma linearized_post es x id payload m : target id -> fit payload m -> linearized es x ->
  linearized (es ++ [Post id payload]) (step x (Post id payload)).
Proof.
  intros Hid Hf Hx. pose proof Hf as [(Hcl & Hd & Hb & Hr) _]. destruct (l_served _ _ Hx id Hid) as (i & rt & Hc & Hs).
  destruct (l_options _ _ Hx) as [Hj Hre].
  pose proof (calls_post es id payload m Hf) as Hcs. set (es' := es ++ [Post id payload]) in *.
  destruct (post_spawns (H := H) as_batch show_error clock env0 env timeout store now encode parse_value is_initialize_request parse_version
    show_sdk_error decode_client good (codes L)
    (read_line as_batch show_error clock env0 env answer_message handle_request handle_notification handle_error decode_client max
      (length (tasks (world x)))) id i rt (world x) payload (asks m) Hc Hj Hb Hr)
    as (sid & w' & E & [Hrd Hk [Hsid Hfs] Ht Htk [Hj' Hre']] & Hrs).
  rewrite (unauthenticated rt Hs), list_insert_id in Hrs by apply Hc.
  unfold HttpConcurrent.step. match type of E with ?served = _ => match goal with |- context [match ?t with pair _ _ => _ end] => change t with served end end.
  rewrite E, Hj', Hj, Htk, drop_app_length.
  set (x' := mkSystem _ _ _ _).
  assert (Hpre : calls es `prefix_of` calls es') by (rewrite Hcs; by apply prefix_app_r).
  assert (Hold : forall n, n < length (transports (world x)) -> transports (world x') !! n = transports (world x) !! n)
    by (intros n Hn; cbn; rewrite Ht; by apply lookup_app_l).
  pose proof (l_transports _ _ Hx) as Hlen.
  assert (Hsp : spec es' x' = spec es x).
  { unfold spec. rewrite (ordered_more es es' (id, m)); [done|done|]. apply Forall_forall. intros n Hn.
    pose proof (streams_bound es x n Hx) as B. rewrite elem_of_app in B. specialize (B (or_intror Hn)). lia. }
  split.
  - intros k Hk'. apply (served_kept (world x)); [done|done| |by apply Hx]. intros j rt' Hj1 Hs1. exists rt'. by rewrite <-Hrs in Hj1.
  - intros k. cbn. rewrite Hk. apply Hx.
  - split; cbn; [by rewrite Hj'|by rewrite Hre'].
  - cbn. rewrite Ht, Hcs, !length_app. cbn. lia.
  - rewrite Hsp. cbn. rewrite Hrs. apply Hx.
  - unfold x'. cbn [pool ran]. rewrite streams_app. cbn [streams omap list_omap]. rewrite Hcs, length_app, seq_app. cbn [length seq].
    rewrite <-(l_tasks _ _ Hx), Hlen. rewrite <-!app_assoc. apply Permutation_app_head. apply Permutation_app_comm.
  - cbn. rewrite Hcs, !length_app. pose proof (l_size _ _ Hx). cbn. lia.
  - change (pool x') with (pool x ++ [StreamTask i (length (transports (world x))) sid (Some payload); ReplayTask (length (transports (world x))) None]). apply Forall_app. split; [|apply Forall_cons; split; [|by apply Forall_singleton]].
    + eapply Forall_impl; [exact (l_pool _ _ Hx)|]. intros k Hw. apply (waiting_kept es es' x x'); [done| |done].
      intros j n sid' pl ->. apply Hold. destruct Hw as (? & ? & ? & _ & _ & _ & _ & _ & _ & _ & Hl). by eapply lookup_lt_Some.
    + exists id, m, payload. split_and!; try done.
      * rewrite Hcs, Hlen, lookup_app_r by lia. by replace (_ - _) with 0 by lia.
      * rewrite <-(l_holds _ _ Hx). apply Hc.
      * cbn. rewrite Ht, Hre. by apply list_lookup_middle.
  - unfold x'. cbn [responses]. rewrite Hcs, imap_app, (l_responses _ _ Hx). cbn [imap fst snd]. by rewrite Nat.add_0_r, Hlen.
  - intros q n Hq. pose proof (l_answers _ _ Hx q n Hq) as Hc0. destruct (Hc0) as (? & ? & ? & a & _ & _ & _ & Ha & _).
    apply (carries_kept es es' x x' q n a); [done|done|by rewrite Hsp| |done]. apply Hold.
    pose proof (streams_bound es x n Hx) as B. rewrite elem_of_app in B. rewrite Hlen. apply B. right. by eapply list_elem_of_lookup_2.
Qed.

(** The task of a stream runs: the call takes its turn. *)
Lemma run_waiting es x i n sid payload : linearized es x -> waiting es x (StreamTask i n sid payload) ->
  exists id m rt y, calls es !! (n - base) = Some (id, m) /\ target id /\ frame_id sid /\ holds (session_store w) id = Some i /\
    runtimes (world x) !! i = Some rt /\ settled rt /\
    run_task (world x) (StreamTask i n sid payload) =
      set_runtimes (<[i := (perform m rt).2]> (runtimes (world x))) (<[n := y]> (transports (world x))) (world x) /\
    content y = written (if resumable w then Some (id, sid) else None) (perform m rt).1 /\ n < length (transports (world x)).
Proof.
  intros Hx (id & m & p & Hc & Hid & Hi & -> & Hf & Hsid & Hfr & Ht).
  destruct (l_served _ _ Hx id Hid) as (j & rt & [_ Hk Hrt _ _] & Hs).
  assert (j = i) as -> by (rewrite (l_holds _ _ Hx), Hi in Hk; by injection Hk).
  pose proof (list_elem_of_split_length _ _ _ Ht) as (ts & us & Hts & Hn). subst n.
  destruct (fit_handles p m rt Hf Hs (if resumable w then Some (id, sid) else None) ts us sid Hsid) as (y & Hrun & Hy).
  exists id, m, rt, y. split_and!; try done.
  - rewrite (run_stream_task as_batch show_error clock env0 env timeout store answer_message handle_request handle_notification handle_error
      decode_client max (world x) i ts us sid p rt y (perform m rt).2 (if resumable w then Some (id, sid) else None) Hts Hrt Hrun).
    f_equal. rewrite Hts, insert_app_r_alt by lia. by rewrite Nat.sub_diag.
  - rewrite Hts, length_app. cbn. lia.
Qed.
Lemma linearized_calls es es' x : calls es' = calls es -> linearized es x -> linearized es' x.
Proof. intros Hc []. split; unfold waiting, carries, spec, ordered in *; rewrite ?Hc; assumption. Qed.
Lemma linearized_run es x k : linearized es x -> linearized (es ++ [Run k]) (step x (Run k)).
Proof.
  intros Hx. pose proof (calls_run es k) as Hcs. set (es' := es ++ [Run k]) in *. cbn [HttpConcurrent.step].
  destruct (pool x !! k) as [t|] eqn:Ek.
  2: { by apply (linearized_calls es). }
  set (x' := mkSystem _ _ _ _).
  pose proof (proj1 (Forall_lookup _ _) (l_pool _ _ Hx) k t Ek) as Ht.
  pose proof (streams_delete (pool x) k t Ek) as Hdel.
  assert (Hperm : streams (base.delete k (pool x)) ++ streams (ran x ++ [t]) ≡ₚ streams (pool x) ++ streams (ran x)).
  { rewrite streams_app, <-Hdel. solve_Permutation. }
  assert (Hsize : length (base.delete k (pool x)) <= length (pool x)) by (rewrite length_delete by (rewrite Ek; by eexists); lia).
  pose proof (Forall_delete _ _ k (l_pool _ _ Hx)) as Hrest.
  assert (Hnd : NoDup (streams (pool x) ++ streams (ran x))) by (rewrite (l_tasks _ _ Hx); apply NoDup_seq).
  assert (Hpre : calls es `prefix_of` calls es') by (by rewrite Hcs).
  assert (Hord : forall ns, ordered es' ns = ordered es ns) by (intros; unfold ordered; by rewrite Hcs).
  destruct t as [i n sid payload| |tr last]; [|done|].
  2: { (* a replay of nothing *)
    assert (Hsp : spec es' x' = spec es x) by (unfold spec, x'; cbn [ran]; rewrite streams_app; cbn; by rewrite app_nil_r, Hord).
    split; rewrite ?Hcs, ?Hsp; try apply Hx.
    - unfold x'. cbn [pool ran]. by rewrite Hperm, (l_tasks _ _ Hx).
    - pose proof (l_size _ _ Hx). cbn. lia.
    - unfold x' at 2. cbn [pool]. eapply Forall_impl; [exact Hrest|]. intros t Hw. by apply (waiting_kept es es' x x').
    - intros q n Hq. unfold x' in Hq. cbn [ran] in Hq. rewrite streams_app in Hq. cbn in Hq. rewrite app_nil_r in Hq.
      pose proof (l_answers _ _ Hx q n Hq) as Hc0. destruct (Hc0) as (? & ? & ? & a & _ & _ & _ & Ha & _).
      apply (carries_kept es es' x x' q n a); [done|done|by rewrite Hsp|done|done]. }
  destruct (run_waiting es x i n sid payload Hx Ht) as (id & m & rt & y & Hc & Hid & Hfr & Hi & Hrt & Hs & Hrun & Hy & Hn).
  assert (Hsp : spec es' x' = ((spec es x).1 ++ [(perform m rt).1], <[i := (perform m rt).2]> (spec es x).2)).
  { unfold spec, x'. cbn [ran]. rewrite streams_app, Hord. unfold ordered. rewrite omap_app. cbn. rewrite Hc. rewrite linear_snoc.
    fold (ordered es (streams (ran x))). fold (spec es x). unfold HttpConcurrent.perform_in. cbn [fst snd].
    rewrite Hi, <-(l_runtimes _ _ Hx), Hrt. by destruct (perform m rt). }
  assert (Hother : forall n', n' <> n -> transports (world x') !! n' = transports (world x) !! n').
  { intros n' Hne. unfold x'. cbn [world]. rewrite Hrun. cbn. by rewrite list_lookup_insert_ne. }
  assert (Hw' : world x' = set_runtimes (<[i := (perform m rt).2]> (runtimes (world x))) (<[n := y]> (transports (world x))) (world x)) by done.
  pose proof (l_served _ _ Hx id Hid) as (? & ? & [Hrd _ _ _ _] & _).
  rewrite <-Hperm in Hnd.
  split; rewrite ?Hcs.
  - intros id' Hid'. apply (served_kept (world x)); [rewrite Hw'; by destruct Hrd|by rewrite Hw'| |by apply Hx].
    intros j rt' Hj Hs'. rewrite Hw'. cbn. destruct (decide (j = i)) as [->|Hne].
    + exists (perform m rt).2. split; [|by apply perform_settled]. apply list_lookup_insert_eq. by eapply lookup_lt_Some.
    + exists rt'. by rewrite list_lookup_insert_ne.
  - intros k'. rewrite Hw'. apply Hx.
  - rewrite Hw'. apply Hx.
  - rewrite Hw'. cbn. rewrite length_insert. apply Hx.
  - rewrite Hsp, Hw'. cbn. by rewrite (l_runtimes _ _ Hx).
  - unfold x'. cbn [pool ran]. by rewrite Hperm, (l_tasks _ _ Hx).
  - pose proof (l_size _ _ Hx). cbn. lia.
  - unfold x' at 2. cbn [pool]. apply Forall_forall. intros t Hin. pose proof (proj1 (Forall_forall _ _) Hrest t Hin) as Hwt.
    apply (waiting_kept es es' x x'); [done| |done]. intros j n' sid' pl ->. apply Hother. intros ->.
    apply NoDup_app in Hnd as (_ & Hnd & _). apply (Hnd n); [apply in_streams; by exists j, sid', pl|].
    rewrite streams_app, elem_of_app. right. by apply list_elem_of_singleton.
  - apply Hx.
  - intros q n' Hq. unfold x' in Hq. cbn [ran] in Hq. rewrite streams_app in Hq, Hnd. apply lookup_snoc_Some in Hq as [[Hlt Hq]|[-> <-]].
    + pose proof (l_answers _ _ Hx q n' Hq) as Hc0. destruct (Hc0) as (? & ? & ? & a & _ & _ & _ & Ha & _).
      apply (carries_kept es es' x x' q n' a); [done|done| | |done].
      * rewrite Hsp. cbn [fst]. by apply lookup_app_l_Some.
      * apply Hother. intros ->. apply NoDup_app in Hnd as (_ & _ & Hnd). apply NoDup_app in Hnd as (_ & Hnd & _).
        apply (Hnd n); [by eapply list_elem_of_lookup_2|by apply list_elem_of_singleton].
    + exists id, m, sid, (perform m rt).1. rewrite Hcs, Hsp. split_and!; try done.
      * cbn [fst]. apply list_lookup_middle. unfold spec. rewrite linear_length, ordered_length; [done|].
        apply Forall_forall. intros n' Hin. pose proof (streams_bound es x n' Hx) as B. rewrite elem_of_app in B. specialize (B (or_intror Hin)). lia.
      * unfold written_by. rewrite Hw'. cbn. rewrite list_lookup_insert_eq by done. exact Hy.
      * apply perform_readable.
Qed.

(** *** Whole schedules *)

Lemma linearized_start : (forall id, target id -> served w id) -> enable_json_response w = false -> linearized [] (start w).
Proof. intros Hs Hj. by split. Qed.
Lemma linearized_execute es es' x : Forall posts_to es' -> linearized es x -> linearized (es ++ es') (execute x es').
Proof.
  intros Hes. revert es x. induction Hes as [|e es' He _ IH]; intros es x Hx; cbn; [by rewrite app_nil_r|].
  replace (es ++ e :: es') with ((es ++ [e]) ++ es') by (by rewrite <-app_assoc). apply IH.
  destruct e as [id payload|k]; [|by apply linearized_run]. destruct He as [Hid [m Hf]]. by apply (linearized_post es x id payload m).
Qed.
(** Every task can run. *)
Lemma drain n x : length (pool x) = n -> pool (execute x (replicate n (Run 0))) = [].
Proof.
  revert x; induction n as [|n IH]; intros x Hn; cbn; [by apply nil_length_inv|]. apply IH.
  destruct (pool x) as [|t p]; [done|]. cbn. by injection Hn.
Qed.
Lemma ran_grows x es : exists ts, ran (execute x es) = ran x ++ ts.
Proof.
  revert x; induction es as [|e es IH]; intros x; [exists []; by rewrite app_nil_r|].
  change (execute x (e :: es)) with (execute (step x e) es). destruct (IH (step x e)) as [ts ->]. destruct e as [id payload|k]; cbn.
  - exists ts. by case_match.
  - destruct (pool x !! k) as [t|]; cbn; [exists (t :: ts); by rewrite <-app_assoc|by exists ts].
Qed.
Lemma not_yet es x n : linearized es x -> base <= n < base + length (calls es) -> n ∉ streams (ran x) -> written_by n (world x) = [].
Proof.
  intros Hx Hn Hout. assert (Hin : n ∈ streams (pool x) ++ streams (ran x)) by (rewrite (l_tasks _ _ Hx), elem_of_seq; lia).
  apply elem_of_app in Hin as [Hin|]; [|done]. apply in_streams in Hin as (i & sid & p & Hin).
  destruct (proj1 (Forall_forall _ _) (l_pool _ _ Hx) _ Hin) as (id & m & p' & _ & _ & _ & _ & _ & _ & _ & Ht).
  unfold written_by. rewrite Ht. by destruct (resumable w).
Qed.
Lemma carried es x q n : linearized es x -> carries es x q n ->
  exists id m a, calls es !! (n - base) = Some (id, m) /\ (spec es x).1 !! q = Some a /\
    match a with
    | Some (rid, res) => forall chunks, concat chunks = body n x -> StreamableClientFacts.answer (stream_headers (H := H) id) chunks (answer_text rid res)
    | None => written_by n (world x) = []
    end.
Proof.
  intros Hx (id & m & sid & a & Hc & Hid & Hf & Hs & Hw & Hre). exists id, m, a. split; [done|]. split; [done|].
  destruct a as [[rid res]|]; [|done]. intros chunks Hch. destruct (l_served _ _ Hx id Hid) as (i & rt & Hcn & _).
  pose proof (connected_visible good id i rt _ Hcn) as Hv.
  apply (stream_answer clock _ (if resumable w then Some (id, sid) else None)); [|exact Hre|by apply stream_headers_spec|].
  - destruct Hcn as [_ _ _ _ Hfi]. by destruct (resumable w).
  - rewrite Hch. unfold body. rewrite Hw. rewrite (proj2 (l_options _ _ Hx)). by destruct (resumable w).
Qed.

(** C4. The HTTP server is linearizable.  Any number of posts to any number of
    sessions arrive in any order, and the tasks they spawn run in any order.
    Then every post has been answered with the event stream of its own call;
    the runtimes of all sessions are as if the handler had been called
    directly, once for each stream that has run, in the order in which they
    ran; however the body of such a stream is cut, the client finds in it the
    answer to its own call, and in that of a notification nothing; a stream
    whose turn has not come is empty; what comes later does not change the order
    so far; and after at most two tasks for each post none is left waiting. *)
Theorem posts_linearizable es :
  (forall id, target id -> served w id) -> enable_json_response w = false -> Forall posts_to es ->
  let x := execute (start w) es in
  let order := streams (ran x) in
  let direct := linear reply notified (holds (session_store w)) (ordered es order) (runtimes w) in
  streams (pool x) ++ order ≡ₚ seq base (length (calls es)) /\ runtimes (world x) = direct.2 /\
  (forall p id m, calls es !! p = Some (id, m) -> let n := base + p in
    responses x !! p = Some (Ok (mkResponse (status m) (stream_headers id) (BStream n))) /\
    (n ∉ order -> written_by n (world x) = []) /\
    (forall q, order !! q = Some n -> exists a, ordered es order !! q = Some (id, m) /\ direct.1 !! q = Some a /\
      match a with
      | Some (rid, res) => forall chunks, concat chunks = body n x -> StreamableClientFacts.answer (stream_headers (H := H) id) chunks (answer_text rid res)
      | None => written_by n (world x) = []
      end)) /\
  (forall es', order `prefix_of` streams (ran (execute x es'))) /\
  exists k, k <= 2 * length (calls es) /\ pool (execute x (replicate k (Run 0))) = [].
Proof.
  intros Hs Hj Hes x order direct. pose proof (linearized_execute [] es (start w) Hes (linearized_start Hs Hj)) as Hx.
  cbn [app] in Hx. fold x in Hx. split; [apply Hx|]. split; [apply Hx|]. split.
  - intros p id m Hp n. pose proof (lookup_lt_Some _ _ _ Hp) as Hlt.
    assert (Hnp : n - base = p) by (unfold n; lia). split; [|split].
    + rewrite (l_responses _ _ Hx), list_lookup_imap, Hp. done.
    + apply (not_yet es x n Hx). unfold n. lia.
    + intros q Hq. destruct (carried es x q n Hx (l_answers _ _ Hx q n Hq)) as (id' & m' & a & Hc & Ha & Hbody).
      rewrite Hnp, Hp in Hc. injection Hc as <- <-. exists a. split; [|by split].
      rewrite (ordered_lookup es order q n); [by rewrite Hnp| |done]. apply Forall_forall. intros n' Hin.
      pose proof (streams_bound es x n' Hx) as B. rewrite elem_of_app in B. specialize (B (or_intror Hin)). lia.
  - split; [|exists (length (pool x)); split; [apply Hx|by apply drain]].
    intros es'. destruct (ran_grows x es') as [ts ->]. rewrite streams_app. by apply prefix_app_r.
Qed.
End Concurrent.
End HttpConcurrentFacts.

(** ** A schedule on which the claim is tried *)

Module HttpConcurrentDemo.
Import SseBodyFacts HttpSession HttpSessionFacts HttpSessionDemo HttpConcurrent HttpConcurrentFacts.
Abbreviation runtime := (ServerRuntime.t unit bool).
Definition with_details (b : bool) (rt : runtime) : runtime :=
  ServerRuntime.mk (ServerRuntime.session_id rt) (ServerRuntime.transport_map rt) (ServerRuntime.transport_ready rt)
    (ServerRuntime.request_id_gen rt) (Some b) (ServerRuntime.auth_info rt).
Definition toggle (rt : runtime) : bool := match ServerRuntime.client_details rt with Some b => b | None => false end.
(** A request reads the session's flag and flips it, a notification clears it. *)
Definition reply (_ : unit) (_ : bool) (rt : runtime) : result bool RpcError * runtime := (Ok (toggle rt), with_details (negb (toggle rt)) rt).
Definition notified (_ : unit) (rt : runtime) : runtime := with_details false rt.
Abbreviation session := (ServerRuntime.state unit bool ServerTr).
Definition handle_request (id : unit) (b : bool) (s : session) : result bool RpcError * session :=
  ((reply id b (ServerRuntime.rt s)).1, ServerRuntime.mkState (ServerRuntime.heap s) (reply id b (ServerRuntime.rt s)).2).
Definition handle_notification (n : unit) : Act session McpSdkError unit :=
  act_modify (fun s => ServerRuntime.mkState (ServerRuntime.heap s) (notified n (ServerRuntime.rt s))).
Definition handle_error (_ : RpcError) : Act session McpSdkError unit := act_ret tt.
(** Two sessions, both initialized, one with the flag set. *)
Definition two : McpAppState.t unit bool ServerTr (InMemorySessionStore.t nat) unit :=
  McpAppState.mk (InMemorySessionStore.set_session HttpHandler.Demo.hash 5 (session_store HttpHandler.Demo.demo) (s! "s2") 1) tt
    (FastIdGenerator.new (Some STREAM_PREFIX)) false true
    [with_details true (ServerRuntime.new_instance (s! "s1") None); with_details false (ServerRuntime.new_instance (s! "s2") None)] [] [].
Definition target (id : str) : Prop := id = s! "s1" \/ id = s! "s2".
(** Both posts to the first session wait when that to the second arrives; the
    second runs first. *)
Definition schedule : list event :=
  [Post (s! "s1") (s! "{ask}"); Post (s! "s1") (s! "{ask}"); Post (s! "s2") (s! "{note}"); Run 2; Run 1; Run 0].

Lemma demo_handler : handler HttpSessionDemo.codes answer_message handle_request handle_notification reply notified answer answer_text (fun _ => True).
Proof.
  split.
  - done.
  - intros n h rt. by eexists.
  - intros rt [Hd Ha]. by split.
  - intros [] b rt. unfold reply. cbn [fst]. cbv zeta. destruct (toggle rt); split_and!; first [reflexivity | decided].
  - intros g _. split_and!; first [decided | vm_compute; lia].
  - intros b. split; decided.
Qed.
Lemma two_served id : target id -> served (fun _ => True) two id.
Proof.
  intros [-> | ->].
  - exists 0, (with_details true (ServerRuntime.new_instance (s! "s1") None)). split; [|by split].
    split; [split; [by vm_compute|done|done]|by vm_compute|done|split; [vm_compute; lia|decided]|split; decided].
  - exists 1, (with_details false (ServerRuntime.new_instance (s! "s2") None)). split; [|by split].
    split; [split; [by vm_compute|done|done]|by vm_compute|done|split; [vm_compute; lia|decided]|split; decided].
Qed.
Lemma ask_fits : fit parse_value decode_client 1000 (s! "{ask}") (ServerRuntime.Request tt false).
Proof. split; [|done]. unfold posted. split_and!; first [reflexivity | decided | vm_compute; lia]. Qed.
Lemma note_fits : fit parse_value decode_client 1000 (s! "{note}") (ServerRuntime.Notification tt).
Proof. split; [|done]. unfold posted. split_and!; first [reflexivity | decided | vm_compute; lia]. Qed.
Lemma schedule_posts : Forall (posts_to parse_value decode_client 1000 target) schedule.
Proof.
  unfold schedule. repeat (apply Forall_cons; split); try done.
  all: split; [first [by left | by right]|]; eexists; first [apply ask_fits | apply note_fits].
Qed.

Abbreviation execute := (execute (H := ListHeaders.t) (RequestId := unit) (fun _ => Err (mkSdkError internal_error None)) (fun _ => []) 7 (fun x => x) (fun x => x) 60
  (InMemoryEventStore.new (Some 10)) 5 HttpSessionDemo.codes parse_value is_initialize (fun _ => Ok tt) (fun _ => []) answer_message handle_request
  handle_notification handle_error decode_client 1000).
Lemma order_of_schedule : streams (ran (execute (start two) schedule)) = [1; 0].
Proof. by vm_compute. Qed.

(** The second post is answered first, with the flag that was set; the first
    finds it flipped. *)
Lemma posts_linearizable_witness :
  StreamableClientFacts.answer (stream_headers (H := ListHeaders.t) (s! "s1")) (in_two (body 1 (execute (start two) schedule))) (s! "{yes}") /\
  StreamableClientFacts.answer (stream_headers (H := ListHeaders.t) (s! "s1")) [body 0 (execute (start two) schedule)] (s! "{no}").
Proof.
  destruct (posts_linearizable (H := ListHeaders.t) (fun _ => Err (mkSdkError internal_error None)) (fun _ => []) 7 (fun x => x) (fun x => x) 60
    (InMemoryEventStore.new (Some 10)) 5 HttpSessionDemo.codes parse_value is_initialize (fun _ => Ok tt) (fun _ => []) answer_message handle_request
    handle_notification handle_error decode_client 1000 reply notified answer answer_text (fun _ => True) demo_handler target two schedule
    two_served eq_refl schedule_posts) as (_ & _ & P & _).
  split.
  - destruct (P 1 (s! "s1") (ServerRuntime.Request tt false) eq_refl) as (_ & _ & Q).
    destruct (Q 0) as (a & _ & Ha & Hb); [by rewrite order_of_schedule|]. rewrite order_of_schedule in Ha. injection Ha as <-.
    exact (Hb _ (in_two_concat _)).
  - destruct (P 0 (s! "s1") (ServerRuntime.Request tt false) eq_refl) as (_ & _ & Q).
    destruct (Q 1) as (a & _ & Ha & Hb); [by rewrite order_of_schedule|]. rewrite order_of_schedule in Ha. injection Ha as <-.
    exact (Hb [body 0 (execute (start two) schedule)] (app_nil_r _)).
Defined.
End HttpConcurrentDemo.
