(* ===== verification/HttpResume.v ===== *)
(** * Resuming the standalone stream over HTTP

    A session's standalone stream is lost while the server goes on sending
    notifications; the client reconnects with the id of the last event it saw.
    The server of crates/rust-mcp-sdk/src/mcp_http/ answers with a new stream,
    into which a task replays from the event store what the client missed.  All
    transports share one event store, so the new transport gets the store as
    the old one left it. *)
From S2P Require Import Prelude RustStr LineReader Sse EventStore SessionStore IdGen Dispatcher SseBody Transport Auth TaskStore ServerRuntime Requests.
From S2P Require Import Http HttpHandler ClientStream ClientRuntime StreamableClient HttpSession.
Import McpAppState.

(** ** The system *)

Module HttpResume.
Section System.
Context {H : Type} `{HeaderMap H} {RequestId : Type} `{Countable RequestId} {Req Notif Resp SReq SNotif SResp : Type}.
Abbreviation CM := (ServerRuntime.ClientMessage RequestId Req Notif Resp).
Abbreviation SM := (ClientRuntime.ServerMessage RequestId SReq SNotif SResp).
Context `{!Message RequestId CM} `{!Message RequestId SM} {Extra Details St G MessageFromServer : Type}.
Context `{!SessionStore nat St} `{!IdGenerator G}.
Abbreviation ServerTr := (SseTransport.t RequestId CM bytes unit InMemoryEventStore.t).
Abbreviation World := (McpAppState.t Extra Details ServerTr St G).
Abbreviation dispatcher := (MessageDispatcher.t RequestId CM bytes unit InMemoryEventStore.t).
Context (as_batch : Messages CM -> result (list CM) SdkError) (show_error : Dispatcher.TransportError -> str) (env0 env : dispatcher -> dispatcher)
  (timeout : N).
(** The dispatch at the time [clock], which stamps the events stored. *)
Definition transport_at (clock : N) : TransportDispatcher RequestId CM SM ServerTr :=
  HttpSession.server_transport as_batch show_error clock env0 env.
Context (from_message : MessageFromServer -> option Z -> result SM RpcError) (is_request_fs is_notification_fs : MessageFromServer -> bool)
  (as_single : Messages CM -> result CM SdkError).
Context (now : N) (encode : bytes -> str) (parse_value : str -> option Value) (decode_client : str -> option (Messages CM))
  (is_initialize_request : CM -> bool) (parse_version : str -> result unit str) (show_sdk_error : McpSdkError -> str).

(** The server sends a notification, outside any request; or it notices that
    the connection of stream [t] is gone. *)
Inductive happening := Notify (clock : N) (message : MessageFromServer) | TearDown.
Definition happen (i t : nat) (w : World) (e : happening) : World :=
  match e with
  | Notify clock message =>
      (on_runtime i (fun s => match ServerRuntime.send (TransportDispatcher0 := transport_at clock) from_message is_request_fs is_notification_fs
                                        as_single None (fun s => s) message None None s with
                              | Some (r, s) => (r, s)
                              | None => (Ok None, s)
                              end) w).2
  | TearDown => (on_runtime i (ServerRuntime.remove_transport (TransportDispatcher0 := transport_at now) DEFAULT_STREAM_ID t) w).2
  end.
(** The event store as transport [t] sees it. *)
Definition store_at (t : nat) (w : World) : option InMemoryEventStore.t :=
  x ← transports w !! t; d ← SseTransport.message_sender x; MessageDispatcher.event_store d.

(** The request [make_standalone_stream_connection] sends, without custom headers. *)
Definition get_request (session_id last_event_id : str) : Request H Extra :=
  mkRequest (s! "GET") None
    (McpHttpHandler.with_headers [(CONTENT_TYPE, s! "application/json"); (ACCEPT, s! "application/json, text/event-stream");
       (MCP_LAST_EVENT_ID_HEADER, last_event_id); (MCP_SESSION_ID_HEADER, session_id)]) [] None.
(** The spawned tasks: the stream is started; the replay runs at the time
    [clock], when the store is [store] or what the new stream has made of it. *)
Definition begin_task (w : World) (k : task) : World :=
  McpHttpHandler.begin_task (TransportDispatcher0 := transport_at now) k w.
Definition replay (store : InMemoryEventStore.t) (clock : N) (w : World) (k : task) : World :=
  match k with
  | ReplayTask t last =>
      McpHttpHandler.replay_task (fun id => events_after (from_option (fun es => es) store (store_at t w)) id)
        (fun m => SseTransport.write_str clock m true) t last w
  | _ => w
  end.
(** The client reconnects: while the answer waits for the stream, the tasks
    spawned begin; [between] happens before the replay. *)
Definition reconnect (clock : N) (t : nat) (between : World -> World) (session_id last_event_id : str) (w : World)
  : result (Response H) McpHttpError * World :=
  let spawned w' := drop (length (tasks w)) (tasks w') in
  let store := from_option (fun es => es) InMemoryEventStore.default (store_at t w) in
  let '(r, w') := McpHttpHandler.internal_handle_streamable_http (TransportDispatcher0 := transport_at now) now encode parse_value decode_client
                    is_initialize_request parse_version show_sdk_error (HttpSession.new_transport timeout store)
                    (fun w' => foldl begin_task w' (spawned w')) (fun _ w => (None, w)) (get_request session_id last_event_id) w in
  (r, foldl (replay store clock) (between w') (spawned w')).
End System.
End HttpResume.

(** ** Facts *)

Module HttpResumeFacts.
Import SseBodyFacts HttpSession HttpSessionFacts HttpResume.
Section Resume.
Context {H : Type} `{HeaderMapLaws H} {RequestId : Type} `{Countable RequestId} {Req Notif Resp SReq SNotif SResp : Type}.
Abbreviation CM := (ServerRuntime.ClientMessage RequestId Req Notif Resp).
Abbreviation SM := (ClientRuntime.ServerMessage RequestId SReq SNotif SResp).
Context `{!Message RequestId CM} `{!Message RequestId SM} {Extra Details St G MessageFromServer : Type}.
Context `{!SessionStore nat St} `{!SessionStoreLaws nat St} `{!IdGenerator G}.
Abbreviation ServerTr := (SseTransport.t RequestId CM bytes unit InMemoryEventStore.t).
Abbreviation World := (McpAppState.t Extra Details ServerTr St G).
Abbreviation runtime := (ServerRuntime.t Extra Details).
Abbreviation dispatcher := (MessageDispatcher.t RequestId CM bytes unit InMemoryEventStore.t).
Context (as_batch : Messages CM -> result (list CM) SdkError) (show_error : Dispatcher.TransportError -> str) (env0 env : dispatcher -> dispatcher)
  (timeout : N).
Context (from_message : MessageFromServer -> option Z -> result SM RpcError) (is_request_fs is_notification_fs : MessageFromServer -> bool)
  (as_single : Messages CM -> result CM SdkError).
Context (now : N) (encode : bytes -> str) (parse_value : str -> option Value) (decode_client : str -> option (Messages CM))
  (is_initialize_request : CM -> bool) (parse_version : str -> result unit str) (show_sdk_error : McpSdkError -> str).
Abbreviation happen := (happen as_batch show_error env0 env from_message is_request_fs is_notification_fs as_single now).
Abbreviation fresh store r := (new_transport (RequestId := RequestId) (Req := Req) (Notif := Notif) (Resp := Resp) timeout store r).
Implicit Types (w : World) (rt : runtime) (x : ServerTr) (d : dispatcher) (es : InMemoryEventStore.t) (id : str).

(** What a notification is written as. *)
Context (text_of : MessageFromServer -> str).
Definition notification m : Prop :=
  is_request_fs m = false /\ is_notification_fs m = true /\
  exists o, from_message m None = Ok o /\ is_request (RequestId := RequestId) o = false /\ to_json (RequestId := RequestId) o = Some (text_of m) /\
    message_text (text_of m) /\ trim (text_of m) <> [].
Definition sends (e : happening (MessageFromServer := MessageFromServer)) : Prop :=
  match e with Notify _ m => notification m | TearDown => True end.
Definition sent (happenings : list (happening (MessageFromServer := MessageFromServer))) : list (N * str) :=
  omap (fun e => match e with Notify clock m => Some (clock, text_of m) | TearDown => None end) happenings.

(** Transport [t] is the standalone stream of session [id], runtime [i], the
    store is [es], and [b] has been written. *)
Record streaming i id t es (b : bytes) w : Prop := {
  st_runtime : exists rt, runtimes w !! i = Some rt /\ ServerRuntime.transport_map rt = Some t;
  st_transport : exists x d, transports w !! t = Some x /\ SseTransport.message_sender x = Some d /\
    MessageDispatcher.session_id d = Some id /\ MessageDispatcher.stream_id d = Some DEFAULT_STREAM_ID /\ MessageDispatcher.event_store d = Some es /\
    MessageDispatcher.writable_std d = Some b;
}.
Definition lines id (msgs : list (N * str)) : bytes := concat ((fun l => l ++ [LF]) <$> (line_of id DEFAULT_STREAM_ID <$> msgs)).
Lemma streaming_store i id t es b w : streaming i id t es b w -> store_at t w = Some es.
Proof. intros [_ (x & d & Hx & Hd & _ & _ & He & _)]. unfold store_at. by rewrite Hx; cbn; rewrite Hd. Qed.
(** Only transports have changed. *)
Record transports_only w w' : Prop := {
  ot_runtimes : runtimes w' = runtimes w;
  ot_length : length (transports w') = length (transports w);
  ot_store : session_store w' = session_store w;
  ot_options : resumable w' = resumable w /\ enable_json_response w' = enable_json_response w;
}.

(** A method that changes transport [t] of a runtime and nothing else. *)
Lemma on_runtime_transport {A} i t rt w (f : Act (ServerRuntime.state Extra Details ServerTr) McpSdkError A) y :
  runtimes w !! i = Some rt ->
  (f (ServerRuntime.mkState (transports w) rt)).2 = ServerRuntime.mkState (<[t := y]> (transports w)) rt ->
  (on_runtime i f w).2 = set_runtimes (runtimes w) (<[t := y]> (transports w)) w.
Proof.
  intros Hr Hf. unfold on_runtime. rewrite Hr. destruct (f _) as [a s]. cbn [snd] in *. rewrite Hf. cbn. by rewrite list_insert_id.
Qed.
Lemma write_stored clock d id es (b : bytes) m : MessageDispatcher.session_id d = Some id -> MessageDispatcher.stream_id d = Some DEFAULT_STREAM_ID ->
  MessageDispatcher.event_store d = Some es -> MessageDispatcher.writable_std d = Some b -> trim m <> [] ->
  MessageDispatcher.writable_std (MessageDispatcher.server_write_str clock m false d).2 = Some (b ++ lines id [(clock, m)]).
Proof.
  destruct d. cbn. intros -> -> -> -> Hm. unfold MessageDispatcher.server_write_str, act_bind, MessageDispatcher.store_for_resume.
  rewrite bool_decide_eq_false_2 by done. cbn. unfold line_of. by rewrite app_nil_r, <-!app_assoc.
Qed.
Lemma happen_streaming i id t es b w e : sends e -> streaming i id t es b w ->
  streaming i id t (InMemoryEventStore.run es (store_op id DEFAULT_STREAM_ID <$> sent [e])) (b ++ lines id (sent [e])) (happen i t w e) /\ transports_only w (happen i t w e).
Proof.
  intros He [(rt & Hr & Hm) (x & d & Hx & Hd & Hse & Hst & Hes & Hb)]. pose proof (lookup_lt_Some _ _ _ Hx) as Hlt.
  assert (Eta : forall s : ServerRuntime.state Extra Details ServerTr,
    ServerRuntime.with_rt (ServerRuntime.set_gen (ServerRuntime.request_id_gen (ServerRuntime.rt s))) s = s) by (by intros [? []]).
  assert (K : forall y, happen i t w e = set_runtimes (runtimes w) (<[t := y]> (transports w)) w ->
    transports_only w (happen i t w e)) by (intros y ->; split; [done|by apply length_insert|done|done]).
  destruct e as [clock m|].
  - destruct He as (Hq & Hn & o & Hf & Ho & Hj & Ht & Hne).
    set (d' := (MessageDispatcher.server_write_str clock (text_of m) false d).2).
    assert (E : happen i t w (Notify clock m) = set_runtimes (runtimes w) (<[t := SseTransport.set_sender (Some d') x]> (transports w)) w).
    { cbn [HttpResume.happen]. apply (on_runtime_transport i t rt); [done|].
      unfold ServerRuntime.send, RequestIdGenNumeric.request_id_for_message. rewrite Hq, Hn. cbn [negb mbind option_bind].
      rewrite Eta, Hf. unfold ServerRuntime.lift_rpc, act_lift, act_bind.
      cbn [ServerRuntime.rt]. rewrite Hm.
      destruct (ServerRuntime.send_on_state as_batch show_error clock env0 env as_single t o None (ServerRuntime.mkState (transports w) rt)) as [r E].
      match type of E with ?sent = _ => match goal with |- (match ?t with pair _ _ => _ end).2 = _ => change t with sent end end. rewrite E. cbn [snd].
      by rewrite (ServerRuntime.send_plain_state as_batch show_error clock env0 env t x d (ServerRuntime.mkState (transports w) rt) o (text_of m) None Ho Hj Hx Hd). }
    split; [|by eapply K]. rewrite E. split; [by exists rt|]. exists (SseTransport.set_sender (Some d') x), d'.
    destruct (DispatcherFacts.server_write_keeps_ids clock (text_of m) false d) as [K1 K2].
    split_and!; [by apply list_lookup_insert_eq|done|by rewrite <-Hse|by rewrite <-Hst| |by eapply write_stored].
    by apply (DispatcherFacts.server_write_stores d clock (text_of m) id DEFAULT_STREAM_ID es).
  - assert (E : happen i t w TearDown = set_runtimes (runtimes w) (<[t := (SseTransport.shut_down x).2]> (transports w)) w).
    { cbn [HttpResume.happen]. apply (on_runtime_transport i t rt); [done|]. unfold ServerRuntime.remove_transport.
      rewrite bool_decide_true by done. cbn [negb ServerRuntime.rt]. rewrite Hm, bool_decide_true by done.
      unfold ServerRuntime.on_transport. cbn [ServerRuntime.heap]. rewrite Hx. cbn [tr_shut_down transport_at server_transport sse_dispatcher].
      by destruct (SseTransport.shut_down x). }
    split; [|by eapply K]. rewrite E. split; [by exists rt|]. exists (SseTransport.shut_down x).2, d.
    split_and!; [by apply list_lookup_insert_eq|by rewrite TransportFacts.shut_down_sender|done|done|done|by rewrite app_nil_r].
Qed.

Lemma happens_streaming i id t es b w l : Forall sends l -> streaming i id t es b w ->
  streaming i id t (InMemoryEventStore.run es (store_op id DEFAULT_STREAM_ID <$> sent l)) (b ++ lines id (sent l)) (foldl (happen i t) w l) /\
  transports_only w (foldl (happen i t) w l).
Proof.
  intros Hl. revert es b w. induction Hl as [|e l He _ IH]; intros es b w Hw; [by rewrite app_nil_r|].
  destruct (happen_streaming i id t es b w e He Hw) as [Hw1 [R1 L1 S1 [O1 J1]]]. destruct (IH _ _ _ Hw1) as [Hw2 [R2 L2 S2 [O2 J2]]].
  cbn [foldl]. split; [|split; [congruence|congruence|congruence|split; congruence]].
  replace (sent (e :: l)) with (sent [e] ++ sent l) by (unfold sent; rewrite <-omap_app; done).
  unfold lines in *. rewrite !fmap_app, concat_app, app_assoc. unfold InMemoryEventStore.run in *. by rewrite foldl_app.
Qed.

(** *** Reconnecting *)

#[local] Ltac header_get :=
  unfold McpHttpHandler.with_headers; cbn [foldl fst snd];
  repeat (rewrite get_append; first [rewrite decide_True by done | rewrite decide_False by discriminate]); by rewrite ?get_new.
Lemma parsed (h : H) name v : hm_get h name = Some v -> HttpHandlerFacts.wf_id v -> parse_session_id_header h name = Ok (Some v).
Proof.
  intros Hg Hv. pose proof (HttpHandlerFacts.parse_session_id_header_spec h name) as P.
  destruct (parse_session_id_header h name) as [o|e]; [destruct P as (_ & _ & ->); by rewrite Hg|].
  destruct P. intros v' Hv'. rewrite Hg in Hv'. injection Hv' as <-. split; [|done].
  apply to_str_visible. apply HttpHandlerFacts.graphic_visible, Hv.
Qed.
Lemma get_acceptable id last : HttpHandlerFacts.wf_id id -> HttpHandlerFacts.wf_id last ->
  let h := headers (get_request (H := H) (Extra := Extra) id last) in
  accepts_event_stream h = true /\ validate_mcp_protocol_version_header parse_version h = Ok tt /\
  parse_session_id_header h MCP_SESSION_ID_HEADER = Ok (Some id) /\ parse_session_id_header h MCP_LAST_EVENT_ID_HEADER = Ok (Some last).
Proof.
  intros Hid Hl h.
  assert (E : hm_get h ACCEPT = Some (s! "application/json, text/event-stream") /\ hm_get h MCP_PROTOCOL_VERSION_HEADER = None /\
    hm_get h MCP_SESSION_ID_HEADER = Some id /\ hm_get h MCP_LAST_EVENT_ID_HEADER = Some last).
  { unfold h, get_request. cbn [headers]. split_and!; header_get. }
  destruct E as (Ea & Ev & Ei & El). split_and!; [| |by apply parsed|by apply parsed].
  - unfold accepts_event_stream, header_or_empty, get_str. rewrite Ea. cbn [mbind option_bind]. rewrite to_str_visible by decided. by vm_compute.
  - unfold validate_mcp_protocol_version_header, header_or_empty, get_str. by rewrite Ev.
Qed.

(** The new standalone stream, once its task has begun. *)
Definition resumed es id : ServerTr := (SseTransport.start (fresh es (Some (id, DEFAULT_STREAM_ID)))).2.
#[local] Hint Extern 0 (TransportDispatcher _ _ _ _) => exact (transport_at as_batch show_error env0 env now) : typeclass_instances.
Lemma start_standalone es id ts rt :
  ServerRuntime.start_stream (length ts) DEFAULT_STREAM_ID None
    (ServerRuntime.mkState (ts ++ [fresh es (Some (id, DEFAULT_STREAM_ID))]) rt : ServerRuntime.state Extra Details ServerTr) =
  (Ok tt, ServerRuntime.mkState (ts ++ [resumed es id]) (ServerRuntime.set_map (Some (length ts)) true rt)).
Proof.
  unfold ServerRuntime.start_stream, act_bind.
  rewrite (on_one_transport ts [] (fresh es (Some (id, DEFAULT_STREAM_ID))) rt tr_start tt (resumed es id)) by done.
  unfold ServerRuntime.store_transport. rewrite bool_decide_true by done. cbn [negb].
  unfold act_modify, ServerRuntime.with_rt. cbn [ServerRuntime.heap ServerRuntime.rt].
  by rewrite (on_one_transport ts [] (resumed es id) _ tr_keep_alive tt (resumed es id)) by done.
Qed.

Abbreviation reconnect := (reconnect (H := H) as_batch show_error env0 env timeout now encode parse_value decode_client is_initialize_request
  parse_version show_sdk_error).
Record reopened i id n es w w' : Prop := {
  re_runtime : exists rt, runtimes w' !! i = Some rt /\ ServerRuntime.transport_map rt = Some n;
  re_others j : j <> i -> runtimes w' !! j = runtimes w !! j;
  re_transports : transports w' = transports w ++ [resumed es id];
  re_holds k : holds (session_store w') k = holds (session_store w) k;
  re_resumable : resumable w' = resumable w;
}.
Lemma reconnected clock t between i id last es b w : valid (session_store w) -> holds (session_store w) id = Some i ->
  HttpHandlerFacts.wf_id id -> HttpHandlerFacts.wf_id last -> resumable w = true -> streaming i id t es b w ->
  runtime_is i ServerRuntime.default_stream_exists w = false ->
  let n := length (transports w) in
  exists w', reconnect clock t between id last w =
      (Ok (mkResponse 200 (stream_headers id) (BStream n)),
       foldl (replay es clock) (between w') [StreamTask i n DEFAULT_STREAM_ID None; ReplayTask n (Some last)]) /\
    reopened i id n es w w'.
Proof.
  intros Hst Hk Hid Hlast Hres Hs Hlive n. pose proof (HttpHandlerFacts.graphic_visible id (proj2 Hid)) as Hv.
  destruct (st_runtime _ _ _ _ _ _ Hs) as (rt & Hr & Hm). destruct (st_transport _ _ _ _ _ _ Hs) as (x & d & Hx & _).
  destruct (get_acceptable id last Hid Hlast) as (Ha & Hve & Hpi & Hpl).
  unfold HttpResume.reconnect. rewrite (streaming_store _ _ _ _ _ _ Hs). cbn [from_option].
  set (env' := fun w' => foldl _ w' (drop (length (tasks w)) (tasks w'))).
  unfold McpHttpHandler.internal_handle_streamable_http. rewrite bool_decide_true by done.
  unfold McpHttpHandler.handle_http_get. change (headers (set_auth _ None)) with (headers (get_request (H := H) (Extra := Extra) id last)).
  rewrite Ha. cbn [negb]. rewrite Hve, Hpi, Hpl. change (auth_info (get_request id last)) with (@None (AuthInfo Extra)).
  unfold McpHttpHandler.create_standalone_stream, act_bind.
  destruct (HttpHandlerFacts.get_session_spec now id w Hst) as (w1 & -> & st & -> & Hvs & Hks). rewrite Hk.
  rewrite (update_auth_runtime _ i None rt) by done. set (rt' := ServerRuntime.update_auth_info None rt).
  set (wa := set_runtimes _ _ _). assert (Hra : runtimes wa !! i = Some rt') by (apply list_lookup_insert_eq; by eapply lookup_lt_Some).
  assert (Hma : ServerRuntime.transport_map rt' = ServerRuntime.transport_map rt) by apply ServerRuntimeFacts.update_auth_map.
  unfold act_get. rewrite (HttpHandlerFacts.live_ext i w wa rt rt' Hr Hra Hma) by done. rewrite Hlive.
  unfold McpHttpHandler.create_sse_stream. change (resumable wa) with (resumable w). rewrite Hres. change (length (transports wa)) with n.
  rewrite from_str_spec by done. set (wb := spawn _ (spawn _ _)). cbn [resp_headers resp_body].
  assert (Hrb : runtimes wb !! i = Some rt') by done.
  assert (Htb : transports wb = transports w ++ [fresh es (Some (id, DEFAULT_STREAM_ID))]) by done.
  assert (Hlb : runtime_is i ServerRuntime.default_stream_exists wb = false).
  { rewrite <-Hlive. apply (HttpHandlerFacts.live_ext i w wb rt rt' Hr Hrb Hma). intros j Hj. rewrite Htb. apply lookup_app_l.
    rewrite Hm in Hj. injection Hj as <-. by eapply lookup_lt_Some. }
  assert (Hkb : tasks wb = tasks w ++ [StreamTask i n DEFAULT_STREAM_ID None; ReplayTask n (Some last)]) by (cbn; by rewrite <-app_assoc).
  assert (He : env' wb = set_runtimes (<[i := ServerRuntime.set_map (Some n) true rt']> (runtimes wb)) (transports w ++ [resumed es id]) wb).
  { unfold env'. rewrite Hkb, drop_app_length. cbn [foldl]. unfold begin_task, McpHttpHandler.begin_task at 2. cbn [McpHttpHandler.begin_task].
    unfold on_runtime. rewrite Hrb, Htb. unfold n. rewrite start_standalone. done. }
  rewrite Hlb, He. set (rt2 := ServerRuntime.set_map (Some n) true rt'). set (wc := set_runtimes _ _ wb).
  assert (Hi : i < length (runtimes wb)) by (by eapply lookup_lt_Some).
  assert (Hrc : runtimes wc !! i = Some rt2) by (by apply list_lookup_insert_eq).
  assert (Hw : on_runtime i (ServerRuntime.wait_for_transport_ready (fun s => s)) wc = (Ok tt, wc)).
  { unfold on_runtime. rewrite Hrc. unfold ServerRuntime.wait_for_transport_ready, act_bind. rewrite ServerRuntimeFacts.wait_at_once.
    assert (El : ServerRuntime.live_transport (ServerRuntime.mkState (transports wc) rt2) = Some n).
    { unfold ServerRuntime.live_transport, ServerRuntime.shut_at. cbn [ServerRuntime.rt ServerRuntime.heap].
      change (ServerRuntime.transport_map rt2) with (Some n). cbv iota.
      assert (Hn : transports wc !! n = Some (resumed es id)) by (by apply list_lookup_middle). by rewrite Hn. }
    rewrite El. cbn. by rewrite list_insert_insert_eq. }
  rewrite Hw. exists wc. split.
  - change (tasks wc) with (tasks wb). by rewrite Hkb, drop_app_length.
  - split; [by exists rt2| |done| |done].
    + intros j Hj. cbn. by rewrite !list_lookup_insert_ne by done.
    + exact Hks.
Qed.

(** *** The replay *)

(** Transport [n] is started, its store is [es] and it has written [b]. *)
Definition wrote n es (b : bytes) w : Prop := exists x d, transports w !! n = Some x /\ SseTransport.message_sender x = Some d /\
  MessageDispatcher.event_store d = Some es /\ MessageDispatcher.writable_std d = Some b.
Lemma wrote_written n es b w : wrote n es b w -> written_by n w = b /\ store_at n w = Some es.
Proof.
  intros (x & d & Hx & Hd & He & Hb). unfold written_by, store_at. rewrite Hx. cbn. unfold content. rewrite Hd. cbn. by rewrite Hb.
Qed.
Definition replay_one (clock : N) (n : nat) w (m : str) : World :=
  match transports w !! n with
  | Some x => set_runtimes (runtimes w) (<[n := (SseTransport.write_str clock m true x).2]> (transports w)) w
  | None => w
  end.
Lemma write_unstored clock d (b : bytes) m : MessageDispatcher.writable_std d = Some b ->
  exists d', MessageDispatcher.server_write_str clock m true d = (Ok tt, d') /\
    MessageDispatcher.event_store d' = MessageDispatcher.event_store d /\ MessageDispatcher.writable_std d' = Some (b ++ m ++ [LF]).
Proof.
  destruct d. cbn. intros ->. eexists. split; [reflexivity|]. cbn. by rewrite <-app_assoc.
Qed.
Lemma replay_one_wrote clock n es b w m : wrote n es b w ->
  wrote n es (b ++ m ++ [LF]) (replay_one clock n w m) /\ transports_only w (replay_one clock n w m).
Proof.
  intros (x & d & Hx & Hd & He & Hb). unfold replay_one. rewrite Hx. split; [|split; [done|by apply length_insert|done|done]].
  destruct (write_unstored clock d b m Hb) as (d' & E & Ee & Eb).
  unfold SseTransport.write_str, SseTransport.with_sender. rewrite Hd, E. cbn [snd].
  exists (SseTransport.set_sender (Some d') x), d'. split_and!; [|done|by rewrite Ee|done].
  apply list_lookup_insert_eq. by eapply lookup_lt_Some.
Qed.
Lemma replayed clock n es b w texts : wrote n es b w ->
  wrote n es (b ++ concat ((fun m => m ++ [LF]) <$> texts)) (foldl (replay_one clock n) w texts) /\
  transports_only w (foldl (replay_one clock n) w texts).
Proof.
  revert b w; induction texts as [|m texts IH]; intros b w Hw; cbn [foldl fmap list_fmap concat]; [by rewrite app_nil_r|].
  destruct (replay_one_wrote clock n es b w m Hw) as [Hw1 [R1 L1 S1 [O1 J1]]]. destruct (IH _ _ Hw1) as [Hw2 [R2 L2 S2 [O2 J2]]].
  split; [|split; [congruence|congruence|congruence|split; congruence]]. rewrite <-!app_assoc in Hw2. rewrite <-app_assoc. exact Hw2.
Qed.
Lemma reopened_streaming i id es w w' : reopened i id (length (transports w)) es w w' -> streaming i id (length (transports w)) es [] w'.
Proof.
  intros [Hr _ Ht _ _]. split; [done|]. eexists (resumed es id), _. split; [by rewrite Ht, list_lookup_middle|].
  split; [reflexivity|]. by split_and!.
Qed.
Lemma run_replay store clock i id n es b w last se st texts : streaming i id n es b w -> resumable w = true ->
  events_after es last = Ok (Some (mkEventStoreEntry se st texts)) ->
  foldl (replay store clock) w [StreamTask i n DEFAULT_STREAM_ID None; ReplayTask n (Some last)] = foldl (replay_one clock n) w texts.
Proof.
  intros Hs Hr He. cbn [foldl replay]. unfold McpHttpHandler.replay_task. rewrite Hr, (streaming_store _ _ _ _ _ _ Hs). cbn [from_option].
  by rewrite He.
Qed.

(** A replay that comes before the stream is started is lost: nothing is
    written, and nobody is told. *)
Lemma replay_too_early store clock n last w x : transports w !! n = Some x -> SseTransport.message_sender x = None ->
  replay store clock w (ReplayTask n last) = w.
Proof.
  intros Hx Hd. cbn [replay]. unfold McpHttpHandler.replay_task. destruct (if resumable w then last else None) as [id|]; [|done].
  destruct (events_after _ id) as [[entry|]|e]; [|done..]. induction (EventStore.messages entry) as [|m ms IH]; [done|]. cbn [foldl].
  rewrite Hx. unfold SseTransport.write_str at 2, SseTransport.with_sender. rewrite Hd. cbn [snd]. rewrite list_insert_id by done.
  replace (set_runtimes (runtimes w) (transports w) w) with w by (by destruct w). exact IH.
Qed.

(** What the client's parser makes of the new stream: the messages sent on it
    with their ids, then those replayed without. *)
Definition live_event id (nm : N * str) : SseEvent.t := SseEvent.mk None (Some (nm.2 ++ [LF])) (Some (id_of id DEFAULT_STREAM_ID nm)) None.
Definition replayed_event (m : str) : SseEvent.t := SseEvent.mk None (Some (m ++ [LF])) None None.
Lemma resumed_body id late texts chunks : frame_id id -> Forall (fun nm : N * str => message_text nm.2) late ->
  Forall (fun m => message_text m /\ ID_SEPARATOR ∉ m) texts ->
  concat chunks = body_bytes (body_frames (line_event true) (lines id late ++ concat ((fun m => m ++ [LF]) <$> texts))) ->
  (SseParser.feed SseParser.new chunks).2 = (live_event id <$> late) ++ (replayed_event <$> texts).
Proof.
  intros Hid Hl Ht Hc. assert (Hd : frame_id DEFAULT_STREAM_ID) by (split; decided).
  assert (Hll : Forall SseFacts.line_text ((line_of id DEFAULT_STREAM_ID <$> late) ++ texts)).
  { apply Forall_app. split; [apply Forall_fmap|]; (eapply Forall_impl; [eassumption|]).
    - intros nm [Hnm _]. by apply line_of_text.
    - intros m [[Hm _] _]. exact Hm. }
  unfold lines in Hc. rewrite <-concat_app, <-fmap_app, body_of_lines in Hc by exact Hll.
  rewrite !fmap_app, line_events in Hc by done.
  assert (Et : (fun l => line_event true (l ++ [LF])) <$> texts = (fun m => SseEvent.mk None (Some m) None None) <$> texts).
  { clear -Ht. induction Ht as [|m texts [Hm Hs] _ IH]; [done|]. cbn [fmap list_fmap]. rewrite line_event_plain by auto. by f_equal. }
  rewrite Et, <-fmap_app in Hc. rewrite (fun Hwf => parse_events _ chunks Hwf Hc).
  2: { apply Forall_app. split; apply Forall_fmap; (eapply Forall_impl; [eassumption|]).
       - intros nm [Hnm _]. apply wf_message; [done|]. intros v [= <-]. by apply frame_id_generate.
       - intros m [[Hm _] _]. by apply wf_message. }
  rewrite bind_app. f_equal; [by apply received_events|].
  clear -Ht. induction Ht as [|m texts [Hm _] _ IH]; [done|]. cbn [fmap list_fmap mbind list_bind]. rewrite received_message by done.
  simpl. f_equal. exact IH.
Qed.

Lemma Forall_missed (P : str -> Prop) max (post : list (N * str)) : Forall (fun nm => P nm.2) post -> Forall P (missed max post).
Proof. intros Hp. unfold missed. destruct (_ <? _)%nat; [by apply Forall_fmap|done]. Qed.

End Resume.
End HttpResumeFacts.

(** ** A reconnection on which the claim is tried *)

Module HttpResumeDemo.
Import SseBodyFacts HttpSession HttpSessionFacts HttpSessionDemo HttpResume HttpResumeFacts.
(** Notifications are their own texts. *)
Abbreviation SM := (ClientRuntime.ServerMessage unit unit str bool).
#[global] Instance note_messages : Message unit SM := {
  is_request := fun m => match m with ClientRuntime.Request _ _ => true | _ => false end;
  request_id := fun m => match m with ClientRuntime.Request i _ | ClientRuntime.Response i _ => Some i
                         | ClientRuntime.ErrorMessage i _ => i | _ => None end;
  to_json := fun m => match m with ClientRuntime.Notification text => Some text | _ => None end;
  batch_to_json := fun _ => None;
  error_message := fun e i => ClientRuntime.ErrorMessage i e;
}.
Definition from_message (text : str) (id : option Z) : result SM RpcError := Ok (ClientRuntime.Notification text).
Definition as_single (m : Messages CM) : result CM SdkError :=
  match m with Dispatcher.Single m => Ok m | _ => Err (mkSdkError internal_error None) end.
Definition store : InMemoryEventStore.t := InMemoryEventStore.new (Some 10).
(** Session "s1" with its standalone stream open. *)
Definition open_session : world :=
  McpAppState.mk (session_store HttpHandler.Demo.demo) tt (FastIdGenerator.new (Some STREAM_PREFIX)) false true
    [ServerRuntime.set_map (Some 0) true (ServerRuntime.new_instance (s! "s1") None)] [resumed 60 store (s! "s1")] [].
(** The connection is lost after two notifications; the third finds no stream,
    the fourth comes just before the replay. *)
Definition before : list (happening (MessageFromServer := str)) := [Notify 1 (s! "{a}"); Notify 2 (s! "{b}"); TearDown; Notify 3 (s! "{c}")].
Definition meanwhile : list (happening (MessageFromServer := str)) := [Notify 4 (s! "{d}")].

Lemma note_sends text : message_text text -> trim text <> [] ->
  notification from_message (fun _ => false) (fun _ => true) (fun text => text) text.
Proof. intros Ht Hn. split_and!; try done. by exists (ClientRuntime.Notification text). Qed.
Lemma all_sends : Forall (sends from_message (fun _ => false) (fun _ => true) (fun text => text)) (before ++ meanwhile).
Proof. repeat (apply Forall_cons; split); try done; apply note_sends; first [decided | split; [split; [reflexivity|decided]|split; discriminate]]. Qed.
Lemma session_open : streaming 0 (s! "s1") 0 store [] open_session.
Proof. split; [by eexists|]. eexists _, _. split; [reflexivity|]. split; [reflexivity|]. by split_and!. Qed.

Abbreviation happen := (HttpResume.happen (RequestId := unit) (fun _ => Err (mkSdkError internal_error None)) (fun _ => []) (fun d => d) (fun d => d)
  from_message (fun _ => false) (fun _ => true) as_single 5).
Abbreviation last_seen := (InMemoryEventStore.generate_event_id (s! "s1") DEFAULT_STREAM_ID 1).
Abbreviation reconnected := (HttpResume.reconnect (H := ListHeaders.t) (RequestId := unit) (SReq := unit) (SNotif := str) (SResp := bool) (fun _ => Err (mkSdkError internal_error None)) (fun _ => [])
  (fun d => d) (fun d => d) 60 5 codes parse_value decode_client is_initialize (fun _ => Ok tt) (fun _ => []) 9 0
  (fun w => foldl (happen 0 1) w meanwhile) (s! "s1") last_seen (foldl (happen 0 0) open_session before)).

End HttpResumeDemo.
