(* ===== verification/Json.v ===== *)
(** * JSON documents and their codecs

    [serde_json::Value] as far as the library builds and reads documents, and
    the behaviour of the [Serialize] and [Deserialize] that serde derives for a
    struct whose optional fields carry the attributes
    [default, skip_serializing_if].  [Codec] is the interface between a field's
    type and the documents; the round-trip lemmas are about any struct written
    as a list of entries. *)
From S2P Require Import Prelude RustStr.

(** A document; an object keeps its entries in the order of the text.  A number
    is a [u64] or [i64], or a float: its decimal digits and how many of them
    follow the point. *)
Inductive Value :=
| VNull
| VBool (b : bool)
| VNumber (z : Z)
| VFloat (digits : Z) (scale : nat)
| VString (s : str)
| VArray (items : list Value)
| VObject (fields : list (str * Value)).

(** [Value::get], the last of several entries with one key. *)
Definition json_get (k : str) (v : Value) : option Value :=
  match v with
  | VObject fs => snd <$> last (List.filter (fun f => bool_decide (f.1 = k)) fs)
  | _ => None
  end.
Definition as_string (v : Value) : option str := match v with VString s => Some s | _ => None end.
Definition as_bool (v : Value) : option bool := match v with VBool b => Some b | _ => None end.
Definition as_u64 (v : Value) : option N :=
  match v with VNumber z => if ((0 <=? z) && (z <? 2 ^ 64))%Z then Some (Z.to_N z) else None | _ => None end.
Definition as_array (v : Value) : option (list Value) := match v with VArray l => Some l | _ => None end.

(** ** Types with a document form *)

(** [Serialize] and [Deserialize]; [wf] says for which values the text is read
    back. *)
Class Codec (A : Type) := {
  ser : A -> Value;
  de : Value -> option A;
  wf : A -> Prop;
  de_ser a : wf a -> de (ser a) = Some a;
  ser_not_null a : ser a <> VNull;
}.

#[local] Obligation Tactic := idtac.

#[export] Program Instance string_codec : Codec str :=
  {| ser := VString; de := as_string; wf _ := True |}.
Next Obligation. by intros. Qed.
Next Obligation. by intros. Qed.

#[export] Program Instance bool_codec : Codec bool :=
  {| ser := VBool; de := as_bool; wf _ := True |}.
Next Obligation. by intros. Qed.
Next Obligation. by intros. Qed.

#[export] Program Instance u64_codec : Codec N :=
  {| ser n := VNumber (Z.of_N n); de := as_u64; wf n := (n < 2 ^ 64)%N |}.
Next Obligation.
  intros n Hn. unfold as_u64. rewrite (proj2 (Z.leb_le _ _)) by lia.
  rewrite (proj2 (Z.ltb_lt _ _)) by (change (2 ^ 64)%Z with (Z.of_N (2 ^ 64)); by apply N2Z.inj_lt).
  by rewrite N2Z.id.
Qed.
Next Obligation. by intros. Qed.

#[export] Program Instance list_codec {A} `{Codec A} : Codec (list A) :=
  {| ser l := VArray (ser <$> l); de v := as_array v ≫= mapM de; wf := Forall wf |}.
Next Obligation.
  intros A HA l Hl. simpl. induction Hl as [|x r Hx _ IH]; [done|].
  rewrite fmap_cons. simpl in *. rewrite de_ser by done. simpl. by rewrite IH.
Qed.
Next Obligation. by intros. Qed.

(** ** Structs *)

(** The entries a struct writes: a field that is skipped writes none. *)
Definition entries (l : list (str * option Value)) : list (str * Value) :=
  mjoin ((fun f => from_option (fun v => [(f.1, v)]) [] f.2) <$> l).

(** What [Deserialize] finds for a key; a second entry is an error. *)
Definition field (k : str) (fs : list (str * Value)) : option (option Value) :=
  match List.filter (fun f => bool_decide (f.1 = k)) fs with
  | [] => Some None
  | [f] => Some (Some f.2)
  | _ => None
  end.

Section Fields.
Context {A : Type} `{Codec A}.

(** A required field. *)
Definition put (a : A) : option Value := Some (ser a).
Definition take (k : str) (fs : list (str * Value)) : option A := o ← field k fs; v ← o; de v.

(** [default, skip_serializing_if = Option::is_none] *)
Definition put_opt (o : option A) : option Value := ser <$> o.
Definition take_opt (k : str) (fs : list (str * Value)) : option (option A) :=
  o ← field k fs;
  match o with None | Some VNull => Some None | Some v => Some <$> de v end.

(** [default, skip_serializing_if = Vec::is_empty] *)
Definition put_vec (l : list A) : option Value := match l with [] => None | _ => Some (ser l) end.
Definition take_vec (k : str) (fs : list (str * Value)) : option (list A) :=
  o ← field k fs;
  match o with None => Some [] | Some v => de v end.
End Fields.

Definition object_fields (v : Value) : option (list (str * Value)) :=
  match v with VObject fs => Some fs | _ => None end.

(** ** Reading back what was written *)

Section Facts.
Implicit Types (l : list (str * option Value)) (k : str) (o : option Value).

Lemma filter_entries_absent l k :
  k ∉ l.*1 -> List.filter (fun f => bool_decide (f.1 = k)) (entries l) = [].
Proof.
  induction l as [|[k' [v|]] l IH]; [done|..]; rewrite fmap_cons, not_elem_of_cons; simpl; intros [Hk Hl].
  - rewrite bool_decide_eq_false_2 by congruence. by apply IH.
  - by apply IH.
Qed.

Lemma field_entries l k o : NoDup l.*1 -> (k, o) ∈ l -> field k (entries l) = Some o.
Proof.
  unfold field. induction l as [|[k' o'] l IH]; intros Hnd Hin; [by apply elem_of_nil in Hin|].
  rewrite fmap_cons in Hnd. apply NoDup_cons in Hnd as [Hk Hnd]. simpl in Hk.
  apply elem_of_cons in Hin as [[= -> ->]|Hin].
  - destruct o' as [v|]; simpl.
    + rewrite bool_decide_eq_true_2 by done. change (mjoin _) with (entries l). by rewrite filter_entries_absent.
    + change (entries _) with (entries l). by rewrite filter_entries_absent.
  - assert (k' <> k) by (intros ->; apply Hk; apply list_elem_of_fmap; by exists (k, o)).
    destruct o' as [v|]; simpl; [rewrite bool_decide_eq_false_2 by done|]; by apply IH.
Qed.

Lemma json_get_entries l k o : NoDup l.*1 -> (k, o) ∈ l -> json_get k (VObject (entries l)) = o.
Proof.
  intros Hn Hi. pose proof (field_entries l k o Hn Hi) as E. unfold field in E. simpl.
  destruct (List.filter _ _) as [|f [|f' r]]; by simplify_eq/=.
Qed.

Context {A : Type} `{Codec A}.

Lemma take_put l k (a : A) : NoDup l.*1 -> (k, put a) ∈ l -> wf a -> take k (entries l) = Some a.
Proof. intros Hn Hi Ha. unfold take. rewrite (field_entries l k (put a)) by done. simpl. by apply de_ser. Qed.

Lemma take_put_opt l k (x : option A) :
  NoDup l.*1 -> (k, put_opt x) ∈ l -> from_option wf True x -> take_opt k (entries l) = Some x.
Proof.
  intros Hn Hi Ha. unfold take_opt. rewrite (field_entries l k (put_opt x)) by done. destruct x as [a|]; [|done].
  simpl in *. pose proof (ser_not_null a). destruct (ser a) eqn:E; try done; rewrite <-E, de_ser; done.
Qed.

Lemma take_put_vec l k (x : list A) :
  NoDup l.*1 -> (k, put_vec x) ∈ l -> Forall wf x -> take_vec k (entries l) = Some x.
Proof.
  intros Hn Hi Ha. unfold take_vec. rewrite (field_entries l k (put_vec x)) by done.
  destruct x as [|a x]; [done|]. exact (de_ser (a :: x) Ha).
Qed.
End Facts.

(** What the common field types need to be read back. *)
Lemma wf_strings (x : list str) : Forall wf x.
Proof. by apply Forall_true. Qed.
Lemma wf_opt_strings (x : option (list str)) : from_option wf True x.
Proof. destruct x; [apply wf_strings|done]. Qed.

Lemma wf_opt_text (x : option str) : from_option wf True x.
Proof. by destruct x. Qed.
Lemma wf_opt_bool (x : option bool) : from_option wf True x.
Proof. by destruct x. Qed.

Lemma bind_eq {A B} (x : option A) (a : A) (f : A -> option B) r : x = Some a -> f a = r -> (x ≫= f) = r.
Proof. by intros ->. Qed.

(** Membership in a literal list of entries. *)
Ltac in_entries :=
  lazymatch goal with
  | |- (?k, _) ∈ (?k, _) :: _ => apply list_elem_of_here
  | |- _ => apply list_elem_of_further; in_entries
  end.
