(* ===== verification/Claims.v ===== *)
(** * The claims of a token as JSON

    Models crates/rust-mcp-sdk/src/auth/spec/: the serialization of [Audience]
    (audience.rs) and, whole, the structs of claims.rs, of which Auth.v uses the
    claims the SDK reads: how they are read from a token's payload or from an
    introspection response, and written. *)
From S2P Require Import Prelude RustStr Auth Json.

(** ** Audience *)

Definition NOT_STRINGS : str := s! "audience array must contain strings".
Definition NOT_AN_AUDIENCE : str := s! "audience must be a string or an array of strings".
Definition ser_audience (a : Audience) : Value :=
  match a with Single s => VString s | Multiple v => VArray (VString <$> v) end.
Fixpoint strings_of (arr : list Value) : result (list str) str :=
  match arr with
  | [] => Ok []
  | VString s :: arr => let? strings := strings_of arr in Ok (s :: strings)
  | _ :: _ => Err NOT_STRINGS
  end.
Definition de_audience (v : Value) : result Audience str :=
  match v with
  | VString s => Ok (Single s)
  | VArray arr => let? strings := strings_of arr in Ok (Multiple strings)
  | _ => Err NOT_AN_AUDIENCE
  end.
(** The conversions from a string and from a list of strings. *)
Definition audience_of_str (s : str) : Audience := Single s.
Definition audience_of_list (v : list str) : Audience := Multiple v.

Lemma strings_of_spec l : strings_of (VString <$> l) = Ok l.
Proof. induction l as [|x l IH]; [done|]. rewrite fmap_cons. simpl. by rewrite IH. Qed.
Lemma de_ser_audience a : de_audience (ser_audience a) = Ok a.
Proof. destruct a; [done|]. simpl. by rewrite strings_of_spec. Qed.

Definition read_audience (v : Value) : option Audience := match de_audience v with Ok a => Some a | Err _ => None end.
#[local] Obligation Tactic := idtac.
#[export] Program Instance audience_codec : Codec Audience :=
  {| ser := ser_audience; de := read_audience; wf _ := True |}.
Next Obligation. intros a _. unfold read_audience. by rewrite de_ser_audience. Qed.
Next Obligation. by intros []. Qed.

Definition as_i64 (v : Value) : option Z :=
  match v with VNumber z => if ((- 2 ^ 63 <=? z) && (z <? 2 ^ 63))%Z then Some z else None | _ => None end.
#[export] Program Instance i64_codec : Codec Z :=
  {| ser := VNumber; de := as_i64; wf z := (- 2 ^ 63 <= z < 2 ^ 63)%Z |}.
Next Obligation. intros z [H1 H2]. unfold as_i64. by rewrite (proj2 (Z.leb_le _ _)), (proj2 (Z.ltb_lt _ _)). Qed.
Next Obligation. by intros. Qed.
(** [serde_json::Value] itself; null is read as no value. *)
Definition not_null (v : Value) : Prop := v <> VNull.
Definition take_value (k : str) (fs : list (str * Value)) : option (option Value) :=
  o ← field k fs; Some (match o with Some VNull => None | _ => o end).

(** ** The structs *)

(** [struct Address] *)
Record Address := mkAddress {
  formatted : option str;
  street_address : option str;
  locality : option str;
  region : option str;
  postal_code : option str;
  country : option str;
}.
Definition address_entries (a : Address) : list (str * option Value) :=
  [(s! "formatted", put_opt (formatted a)); (s! "street_address", put_opt (street_address a)); (s! "locality", put_opt (locality a));
   (s! "region", put_opt (region a)); (s! "postal_code", put_opt (postal_code a)); (s! "country", put_opt (country a))].
Definition de_address (v : Value) : option Address :=
  fs ← object_fields v;
  f ← take_opt (s! "formatted") fs;
  s ← take_opt (s! "street_address") fs;
  l ← take_opt (s! "locality") fs;
  r ← take_opt (s! "region") fs;
  p ← take_opt (s! "postal_code") fs;
  c ← take_opt (s! "country") fs;
  Some (mkAddress f s l r p c).

(** One field read back: its key is among the entries. *)
Ltac read_claim n :=
  lazymatch goal with
  | |- (take ?k (entries ?l) ≫= _) = _ => eapply bind_eq; [eapply (take_put l k _ n)|]
  | |- (take_opt ?k (entries ?l) ≫= _) = _ => eapply bind_eq; [eapply (take_put_opt l k _ n)|]
  end;
  [solve [in_entries]
  |solve [exact I | apply wf_opt_strings | apply wf_opt_text | apply wf_opt_bool | match goal with U : _ |- _ => exact U end
         | match goal with |- from_option _ True ?x => destruct x; exact I end]
  |].
Lemma address_roundtrip (a : Address) : de_address (VObject (entries (address_entries a))) = Some a.
Proof.
  assert (n : NoDup (address_entries a).*1) by decided. unfold de_address. cbn [object_fields mbind option_bind].
  unfold address_entries in *. do 6 read_claim n. by destruct a.
Qed.
#[export] Program Instance address_codec : Codec Address :=
  {| ser a := VObject (entries (address_entries a)); de := de_address; wf _ := True |}.
Next Obligation. intros a _. apply address_roundtrip. Qed.
Next Obligation. by intros. Qed.

Module Claims.
(** [struct AuthClaims], in the order of the source. *)
Record t := mk {
  issuer : option str;
  subject : option str;
  audience : option Audience;
  expiration : option Z;
  not_before : option Z;
  issued_at : option Z;
  jwt_id : option str;
  scope : option str;
  client_id : option str;
  confirmation : option Value;
  auth_time : option Z;
  authorized_party : option str;
  actor : option Value;
  session_id : option str;
  name : option str;
  given_name : option str;
  family_name : option str;
  middle_name : option str;
  nickname : option str;
  preferred_username : option str;
  profile : option str;
  picture : option str;
  website : option str;
  email : option str;
  email_verified : option bool;
  gender : option str;
  birthdate : option str;
  zoneinfo : option str;
  locale : option str;
  phone_number : option str;
  phone_number_verified : option bool;
  address : option Address;
  updated_at : option Z;
  object_id : option str;
  tenant_id : option str;
  user_principal_name : option str;
  roles : option (list str);
  groups : option (list str);
  application_id : option str;
  unique_name : option str;
  version : option str;
}.
Definition claim_entries (c : t) : list (str * option Value) :=
  [(s! "iss", put_opt (issuer c));
   (s! "sub", put_opt (subject c));
   (s! "aud", put_opt (audience c));
   (s! "exp", put_opt (expiration c));
   (s! "nbf", put_opt (not_before c));
   (s! "iat", put_opt (issued_at c));
   (s! "jti", put_opt (jwt_id c));
   (s! "scope", put_opt (scope c));
   (s! "client_id", put_opt (client_id c));
   (s! "cnf", confirmation c);
   (s! "auth_time", put_opt (auth_time c));
   (s! "azp", put_opt (authorized_party c));
   (s! "act", actor c);
   (s! "sid", put_opt (session_id c));
   (s! "name", put_opt (name c));
   (s! "given_name", put_opt (given_name c));
   (s! "family_name", put_opt (family_name c));
   (s! "middle_name", put_opt (middle_name c));
   (s! "nickname", put_opt (nickname c));
   (s! "preferred_username", put_opt (preferred_username c));
   (s! "profile", put_opt (profile c));
   (s! "picture", put_opt (picture c));
   (s! "website", put_opt (website c));
   (s! "email", put_opt (email c));
   (s! "email_verified", put_opt (email_verified c));
   (s! "gender", put_opt (gender c));
   (s! "birthdate", put_opt (birthdate c));
   (s! "zoneinfo", put_opt (zoneinfo c));
   (s! "locale", put_opt (locale c));
   (s! "phone_number", put_opt (phone_number c));
   (s! "phone_number_verified", put_opt (phone_number_verified c));
   (s! "address", put_opt (address c));
   (s! "updated_at", put_opt (updated_at c));
   (s! "oid", put_opt (object_id c));
   (s! "tid", put_opt (tenant_id c));
   (s! "upn", put_opt (user_principal_name c));
   (s! "roles", put_opt (roles c));
   (s! "groups", put_opt (groups c));
   (s! "appid", put_opt (application_id c));
   (s! "unique_name", put_opt (unique_name c));
   (s! "ver", put_opt (version c))].
Definition ser_claims (c : t) : Value := VObject (entries (claim_entries c)).
Definition de_claims (v : Value) : option t :=
  fs ← object_fields v;
  issuer ← take_opt (s! "iss") fs;
  subject ← take_opt (s! "sub") fs;
  audience ← take_opt (s! "aud") fs;
  expiration ← take_opt (s! "exp") fs;
  not_before ← take_opt (s! "nbf") fs;
  issued_at ← take_opt (s! "iat") fs;
  jwt_id ← take_opt (s! "jti") fs;
  scope ← take_opt (s! "scope") fs;
  client_id ← take_opt (s! "client_id") fs;
  confirmation ← take_value (s! "cnf") fs;
  auth_time ← take_opt (s! "auth_time") fs;
  authorized_party ← take_opt (s! "azp") fs;
  actor ← take_value (s! "act") fs;
  session_id ← take_opt (s! "sid") fs;
  name ← take_opt (s! "name") fs;
  given_name ← take_opt (s! "given_name") fs;
  family_name ← take_opt (s! "family_name") fs;
  middle_name ← take_opt (s! "middle_name") fs;
  nickname ← take_opt (s! "nickname") fs;
  preferred_username ← take_opt (s! "preferred_username") fs;
  profile ← take_opt (s! "profile") fs;
  picture ← take_opt (s! "picture") fs;
  website ← take_opt (s! "website") fs;
  email ← take_opt (s! "email") fs;
  email_verified ← take_opt (s! "email_verified") fs;
  gender ← take_opt (s! "gender") fs;
  birthdate ← take_opt (s! "birthdate") fs;
  zoneinfo ← take_opt (s! "zoneinfo") fs;
  locale ← take_opt (s! "locale") fs;
  phone_number ← take_opt (s! "phone_number") fs;
  phone_number_verified ← take_opt (s! "phone_number_verified") fs;
  address ← take_opt (s! "address") fs;
  updated_at ← take_opt (s! "updated_at") fs;
  object_id ← take_opt (s! "oid") fs;
  tenant_id ← take_opt (s! "tid") fs;
  user_principal_name ← take_opt (s! "upn") fs;
  roles ← take_opt (s! "roles") fs;
  groups ← take_opt (s! "groups") fs;
  application_id ← take_opt (s! "appid") fs;
  unique_name ← take_opt (s! "unique_name") fs;
  version ← take_opt (s! "ver") fs;
  Some (mk issuer subject audience expiration not_before issued_at jwt_id scope client_id confirmation auth_time
          authorized_party actor session_id name given_name family_name middle_name nickname preferred_username profile
          picture website email email_verified gender birthdate zoneinfo locale phone_number phone_number_verified
          address updated_at object_id tenant_id user_principal_name roles groups application_id unique_name version).
(** Values the wire can carry: times in [i64], and no null where a value is. *)
Definition fits (o : option Z) : Prop := from_option wf True o.
Definition not_nulls (o : option Value) : Prop := from_option not_null True o.
Definition wf_claims (c : t) : Prop :=
  fits (expiration c) /\ fits (not_before c) /\ fits (issued_at c) /\ fits (auth_time c) /\ fits (updated_at c) /\
  not_nulls (confirmation c) /\ not_nulls (actor c).

(** The claims Auth.v reads. *)
Definition read (c : t) : AuthClaims :=
  mkClaims (issuer c) (subject c) (audience c) (expiration c) (jwt_id c) (scope c) (client_id c) (authorized_party c) (application_id c).
End Claims.

Module Introspection.
(** [struct IntrospectionResponse] *)
Record t := mk {
  active : bool;
  scope : option str;
  client_id : option str;
  username : option str;
  token_type : option str;
  expiration : option Z;
  issued_at : option Z;
  not_before : option Z;
  subject : option str;
  audience : option Audience;
  issuer : option str;
  jwt_id : option str;
}.
(** [#[serde(default)]]: [None] is written as null. *)
Definition put_null {A} `{Codec A} (o : option A) : option Value := Some (from_option ser VNull o).
Definition response_entries (d : t) : list (str * option Value) :=
  [(s! "active", put (active d));
   (s! "scope", put_null (scope d));
   (s! "client_id", put_null (client_id d));
   (s! "username", put_null (username d));
   (s! "token_type", put_null (token_type d));
   (s! "exp", put_opt (expiration d));
   (s! "iat", put_opt (issued_at d));
   (s! "nbf", put_opt (not_before d));
   (s! "sub", put_opt (subject d));
   (s! "aud", put_opt (audience d));
   (s! "iss", put_opt (issuer d));
   (s! "jti", put_opt (jwt_id d))].
Definition ser_response (d : t) : Value := VObject (entries (response_entries d)).
Definition de_response (v : Value) : option t :=
  fs ← object_fields v;
  active ← take (s! "active") fs;
  scope ← take_opt (s! "scope") fs;
  client_id ← take_opt (s! "client_id") fs;
  username ← take_opt (s! "username") fs;
  token_type ← take_opt (s! "token_type") fs;
  expiration ← take_opt (s! "exp") fs;
  issued_at ← take_opt (s! "iat") fs;
  not_before ← take_opt (s! "nbf") fs;
  subject ← take_opt (s! "sub") fs;
  audience ← take_opt (s! "aud") fs;
  issuer ← take_opt (s! "iss") fs;
  jwt_id ← take_opt (s! "jti") fs;
  Some (mk active scope client_id username token_type expiration issued_at not_before subject audience issuer jwt_id).
(** The fields Auth.v reads. *)
Definition read (d : t) : IntrospectionResponse :=
  mkIntrospection (active d) (scope d) (client_id d) (expiration d) (subject d) (audience d) (issuer d) (jwt_id d).
Lemma take_put_null {A} `{Codec A} l k (x : option A) :
  NoDup l.*1 -> (k, put_null x) ∈ l -> from_option wf True x -> take_opt k (entries l) = Some x.
Proof.
  intros Hn Hi Ha. unfold take_opt. rewrite (field_entries l k (put_null x)) by done. destruct x as [a|]; [|done].
  simpl in *. pose proof (ser_not_null a). destruct (ser a) eqn:E; try done; rewrite <-E, de_ser; done.
Qed.
End Introspection.

(** ** Facts *)

Lemma take_value_entries l k (x : option Value) :
  NoDup l.*1 -> (k, x) ∈ l -> Claims.not_nulls x -> take_value k (entries l) = Some x.
Proof.
  intros Hn Hi Hx. unfold take_value. rewrite (field_entries l k x) by done. simpl. f_equal. destruct x as [[]|]; try done.
Qed.

(** What is written is read back: an audience as the string or the list it is,
    claims and introspection responses field by field; other keys of a token's
    payload are ignored, and a key that occurs twice makes it unreadable. *)
Theorem claims_roundtrip (c : Claims.t) : Claims.wf_claims c -> Claims.de_claims (Claims.ser_claims c) = Some c.
Proof.
  unfold Claims.wf_claims, Claims.fits. intros (W1 & W2 & W3 & W4 & W5 & W6 & W7).
  assert (n : NoDup (Claims.claim_entries c).*1) by decided.
  unfold Claims.de_claims, Claims.ser_claims. cbn [object_fields mbind option_bind].
  unfold Claims.claim_entries in *.
  repeat first [read_claim n | eapply bind_eq; [eapply (take_value_entries _ _ _ n); [solve [in_entries]|assumption]|]].
  by destruct c.
Qed.
Theorem response_roundtrip (d : Introspection.t) :
  Claims.fits (Introspection.expiration d) -> Claims.fits (Introspection.issued_at d) -> Claims.fits (Introspection.not_before d) ->
  Introspection.de_response (Introspection.ser_response d) = Some d.
Proof.
  unfold Claims.fits. intros W1 W2 W3. assert (n : NoDup (Introspection.response_entries d).*1) by decided.
  unfold Introspection.de_response, Introspection.ser_response. cbn [object_fields mbind option_bind].
  unfold Introspection.response_entries in *.
  repeat first [read_claim n
    | eapply bind_eq; [eapply (Introspection.take_put_null _ _ _ n); [solve [in_entries]|apply wf_opt_text]|]].
  by destruct d.
Qed.

(** Only the active flag is required of a response; and an audience that is
    neither a string nor a list of strings makes the whole document unreadable. *)
Theorem response_minimal b : exists d, Introspection.de_response (VObject [(s! "active", VBool b)]) = Some d /\
  Introspection.read d = mkIntrospection b None None None None None None None.
Proof. eexists. by split. Qed.
Theorem audience_errors v e : de_audience v = Err e ->
  Introspection.de_response (VObject [(s! "active", VBool true); (s! "aud", v)]) = None \/ v = VNull.
Proof.
  intros E. destruct v as [|b|z|z n|x|l|fs]; [by right|by left..| |by left]. left. cbn [de_audience] in E.
  assert (Ea : take_opt (s! "aud") [(s! "active", VBool true); (s! "aud", VArray l)] = (None : option (option Audience))).
  { change (Some <$> (match de_audience (VArray l) with Ok a => Some a | Err _ => None end) = (None : option (option Audience))).
    cbn [de_audience]. by destruct (strings_of l). }
  unfold Introspection.de_response. do 10 (eapply bind_eq; [reflexivity|]). by rewrite Ea.
Qed.

(** Audiences that are equal can be written differently: the comparison is of
    the lists, and the form is kept. *)
Theorem audience_equality (a b : Audience) : audience_eqb a b = true <->
  (exists s, a = Single s /\ b = Multiple [s] \/ a = Multiple [s] /\ b = Single s) \/ a = b.
Proof.
  unfold audience_eqb. rewrite bool_decide_eq_true. split.
  - destruct a as [x|x], b as [y|y]; simpl; intros E; subst; try (by right); [injection E as ->; by right|left; eauto..].
  - intros [(s & [[-> ->]|[-> ->]])| ->]; done.
Qed.
