(* ===== verification/Metadata.v ===== *)
(** * OAuth metadata and the endpoints that serve it

    Models crates/rust-mcp-sdk/src/auth/spec/discovery.rs (the two metadata
    documents and [create_discovery_endpoints]), auth/metadata.rs
    ([AuthMetadataBuilder]), auth/auth_provider.rs, auth/auth_provider/
    remote_auth_provider.rs ([RemoteAuthProvider]), [url_base] of
    mcp_http/http_utils.rs and [join_url] of utils.rs.

    The url crate is the class [UrlLib]; the JSON text of a document is a
    parameter.  Errors are the description of [McpSdkError::Internal], the only
    variant these functions build. *)
From S2P Require Import Prelude RustStr Json Dispatcher Auth Http.

(** ** URLs *)

(** The methods of [url::Url]; a parse error is its text.  [pop_if_empty] and
    [extend_segments] are those of [path_segments_mut], [append_pairs] those of
    [query_pairs_mut]. *)
Class UrlLib (Url : Type) := {
  url_parse : str -> result Url str;
  url_scheme : Url -> str;
  url_authority : Url -> str;
  url_host : Url -> option str;
  url_path : Url -> str;
  as_str : Url -> str;
  cannot_be_a_base : Url -> bool;
  pop_if_empty : Url -> Url;
  extend_segments : Url -> list str -> Url;
  query_pairs : Url -> list (str * str);
  append_pairs : Url -> list (str * str) -> Url;
}.

Section Urls.
Context {Url : Type} `{UrlLib Url}.

Definition url_base (url : Url) : str := url_scheme url ++ s! "://" ++ from_option id [] (url_host url).

Definition join_url (base : Url) (segment : str) : result Url str :=
  if cannot_be_a_base base then Err (s! "relative URL without a base")
  else Ok (extend_segments (pop_if_empty base)
             (List.filter (fun s => negb (bool_decide (s = [])))
                (split_char "/"%char (trim_start_matches "/"%char segment)))).

(** A URL that is read back from its text. *)
Definition reparses (u : Url) : Prop := url_parse (as_str u) = Ok u.

#[export] Program Instance url_codec : Codec Url :=
  {| ser u := VString (as_str u);
     de v := s ← as_string v; match url_parse s with Ok u => Some u | Err _ => None end;
     wf := reparses |}.
Next Obligation. intros u Hu. simpl. by rewrite Hu. Qed.
Next Obligation. by intros. Qed.
End Urls.

(** A path segment that is written as it is: not empty, not [.] or [..], and
    of characters that are not percent-encoded. *)
Definition unreserved (c : ascii) : bool :=
  let n := code c in
  is_digit c || ((65 <=? n) && (n <=? 90))%N || ((97 <=? n) && (n <=? 122))%N ||
  bool_decide (c ∈ ["-"; "."; "_"; "~"]%char).
Definition plain_segment (s : str) : bool :=
  negb (bool_decide (s ∈ [[]; s! "."; s! ".."])) && forallb unreserved s.
(** The path [/s1/s2/...] of some segments, and a path as the directory of others. *)
Definition segments_path (segs : list str) : str := mjoin ((fun s => s! "/" ++ s) <$> segs).
Definition strip_slash (p : str) : str := from_option id p (strip_suffix (s! "/") p).
Definition directory (p : str) : str := if bool_decide (strip_slash p = s! "/") then [] else strip_slash p.

(** What is documented of the url crate: a URL's text is read back as the URL,
    and so it is for a URL that was extended; extending with plain segments
    leaves the scheme and the authority and puts the segments after the path,
    of which a slash at the end is dropped. *)
Class UrlLaws (Url : Type) `{UrlLib Url} : Prop := {
  parse_reparses s (u : Url) : url_parse s = Ok u -> reparses u;
  extend_reparses (base : Url) segs : cannot_be_a_base base = false -> reparses base ->
    reparses (extend_segments (pop_if_empty base) segs);
  extend_plain (base : Url) segs : cannot_be_a_base base = false -> reparses base ->
    segs <> [] -> Forall (fun s => plain_segment s = true) segs ->
    let u := extend_segments (pop_if_empty base) segs in
    url_scheme u = url_scheme base /\ url_authority u = url_authority base /\
    url_path u = directory (url_path base) ++ segments_path segs;
}.

(** A concrete library of URLs: the text [scheme://authority/path?query]. *)
Module SimpleUrl.
Definition t : Type := str.
Definition parse (s : str) : result t str :=
  if is_some (split_once_str (s! "://") s) then Ok s else Err (s! "relative URL without a base").
Definition scheme (u : t) : str := from_option fst [] (split_once_str (s! "://") u).
Definition rest (u : t) : str := from_option snd [] (split_once_str (s! "://") u).
Definition without_query (s : str) : str := from_option fst s (split_once_char "?"%char s).
Definition authority (u : t) : str :=
  let r := without_query (rest u) in from_option fst r (split_once_char "/"%char r).
Definition host (u : t) : str := from_option fst (authority u) (split_once_char ":"%char (authority u)).
Definition path (u : t) : str :=
  from_option (fun p => s! "/" ++ p.2) (s! "/") (split_once_char "/"%char (without_query (rest u))).
Definition query (u : t) : list (str * str) :=
  match split_once_char "?"%char (rest u) with
  | None => []
  | Some (_, q) => (fun kv => from_option id (kv, []) (split_once_char "="%char kv)) <$> split_char "&"%char q
  end.
Definition query_text (u : t) : str := from_option (fun p => s! "?" ++ p.2) [] (split_once_char "?"%char (rest u)).
Definition with_path (u : t) (p : str) : t := scheme u ++ s! "://" ++ authority u ++ p ++ query_text u.
Definition pop (u : t) : t := with_path u (strip_slash (path u)).
Definition extend (u : t) (segs : list str) : t :=
  with_path u ((if bool_decide (path u = s! "/") then [] else path u) ++ segments_path segs).
Definition append (u : t) (l : list (str * str)) : t :=
  match l with
  | [] => u
  | _ => u ++ (if bool_decide (query u = []) then s! "?" else s! "&") ++
         join (s! "&") ((fun kv => kv.1 ++ s! "=" ++ kv.2) <$> l)
  end.

#[global] Instance lib : UrlLib t := {
  url_parse := parse; url_scheme := scheme; url_authority := authority; url_host := fun u => Some (host u);
  url_path := path; as_str := id; cannot_be_a_base := fun _ => false;
  pop_if_empty := pop; extend_segments := extend; query_pairs := query; append_pairs := append;
}.

Lemma split_once_str_found sep a b : exists p, split_once_str sep (a ++ sep ++ b) = Some p.
Proof.
  induction a as [|x a [p IH]]; simpl app.
  - exists ([], b). destruct (sep ++ b) eqn:E; simpl; rewrite <-E, strip_prefix_app; done.
  - simpl. destruct (strip_prefix _ _); [by eexists|]. rewrite IH. by eexists.
Qed.
Lemma parts u : parse u = Ok u -> split_once_str (s! "://") u = Some (scheme u, rest u).
Proof. unfold parse, scheme, rest. by destruct (split_once_str _ u) as [[]|]. Qed.
Lemma without_query_clean s : "?"%char ∉ without_query s.
Proof.
  unfold without_query. destruct (split_once_char "?"%char s) as [[a b]|] eqn:E; simpl; [by destruct (split_once_char_spec _ _ _ _ E)|by apply split_once_char_None].
Qed.
Lemma query_text_shape u : query_text u = [] \/ exists q, query_text u = "?"%char :: q.
Proof. unfold query_text. destruct (split_once_char _ _); [right; by eexists|by left]. Qed.
Lemma authority_clean u : "?"%char ∉ authority u /\ "/"%char ∉ authority u.
Proof.
  pose proof (without_query_clean (rest u)) as Hq. unfold authority. revert Hq. generalize (without_query (rest u)) as r.
  intros r Hr. destruct (split_once_char "/"%char r) as [[a b]|] eqn:E; simpl.
  - apply split_once_char_spec in E as [-> Ha]. set_solver.
  - by apply split_once_char_None in E.
Qed.
Lemma path_clean u : "?"%char ∉ path u.
Proof.
  pose proof (without_query_clean (rest u)) as Hq. unfold path. destruct (split_once_char _ _) as [[a b]|] eqn:E; simpl; [|set_solver].
  apply split_once_char_spec in E as [E _]. rewrite E in Hq. set_solver.
Qed.

(** A URL with another path. *)
Lemma with_path_parts u p : parse u = Ok u -> "?"%char ∉ p -> (p = [] \/ exists p', p = "/"%char :: p') ->
  parse (with_path u p) = Ok (with_path u p) /\ scheme (with_path u p) = scheme u /\ authority (with_path u p) = authority u /\
  query_text (with_path u p) = query_text u /\ path (with_path u p) = (if bool_decide (p = []) then s! "/" else p).
Proof.
  intros Hu Hq Hp. pose proof (parts u Hu) as Hs. destruct (authority_clean u) as [Haq Has].
  assert (E : split_once_str (s! "://") (with_path u p) = Some (scheme u, authority u ++ p ++ query_text u)).
  { unfold with_path. apply (split_once_str_first _ _ (rest u)). rewrite <-Hs. f_equal. symmetry. by apply split_once_str_spec. }
  assert (Er : rest (with_path u p) = authority u ++ p ++ query_text u) by (unfold rest at 1; by rewrite E).
  assert (Hno : "?"%char ∉ authority u ++ p) by set_solver.
  assert (Ew : without_query (rest (with_path u p)) = authority u ++ p /\ query_text (with_path u p) = query_text u).
  { unfold without_query, query_text at 1. rewrite Er. destruct (query_text_shape u) as [Eq|[q Eq]]; rewrite Eq, app_assoc.
    - rewrite app_nil_r, split_once_char_none by done. done.
    - rewrite split_once_char_app by done. done. }
  destruct Ew as [Ew Eqt]. split_and!; [by unfold parse; rewrite E|by unfold scheme at 1; rewrite E| |done|].
  - unfold authority at 1. rewrite Ew. destruct Hp as [->|[p' ->]].
    + rewrite app_nil_r, split_once_char_none by done. done.
    + by rewrite split_once_char_app.
  - unfold path. rewrite Ew. destruct Hp as [->|[p' ->]].
    + rewrite app_nil_r, split_once_char_none by done. done.
    + by rewrite split_once_char_app.
Qed.
Lemma path_slash u : exists p', path u = "/"%char :: p'.
Proof. unfold path. destruct (split_once_char _ _); by eexists. Qed.
Lemma strip_slash_sub p : (exists p', p = "/"%char :: p') ->
  (strip_slash p = [] \/ exists p', strip_slash p = "/"%char :: p') /\ forall c, c ∈ strip_slash p -> c ∈ p.
Proof.
  intros [p' ->]. unfold strip_slash. destruct (strip_suffix _ _) as [r|] eqn:E; simpl; [|split; [right; by eexists|done]].
  apply strip_suffix_Some in E. split; [|intros c Hc; rewrite E; set_solver].
  destruct r as [|x r]; [by left|]. injection E as <- _. right. by eexists.
Qed.
Lemma directory_shape p : (exists p', p = "/"%char :: p') -> directory p = [] \/ exists p', directory p = "/"%char :: p'.
Proof. intros [Hs _]%strip_slash_sub. unfold directory. case_bool_decide; auto. Qed.
Lemma segments_path_shape segs : segments_path segs = [] \/ exists p, segments_path segs = "/"%char :: p.
Proof. destruct segs as [|s segs]; [by left|]. right. by eexists. Qed.
Lemma plain_no_query segs : Forall (fun s => plain_segment s = true) segs -> "?"%char ∉ segments_path segs.
Proof.
  induction 1 as [|s segs Hs _ IH]; [set_solver|]. unfold segments_path. cbn [fmap list_fmap mjoin list_join].
  apply andb_prop in Hs as [_ Hs]. rewrite forallb_forall in Hs.
  intros Hin. apply elem_of_app in Hin as [Hin|Hin]; [|done]. apply elem_of_cons in Hin as [|Hin]; [done|].
  apply list_elem_of_In, Hs in Hin. vm_compute in Hin. done.
Qed.

#[global] Instance laws : UrlLaws t.
Proof.
  split; unfold reparses; simpl.
  - intros s u. unfold parse. destruct (split_once_str _ s) eqn:E; [|done]. intros [= <-]. unfold id. by rewrite E.
  - intros base segs _ Hb. unfold extend, id. generalize (pop base) as u. intros u.
    unfold with_path, parse. destruct (split_once_str_found (s! "://") (scheme u)
      (authority u ++ ((if bool_decide (path u = s! "/") then [] else path u) ++ segments_path segs) ++ query_text u)) as [p ->]. done.
  - intros base segs _ Hb Hne Hplain.
    pose proof (path_slash base) as Hps. destruct (strip_slash_sub _ Hps) as [Hshape Hsub].
    destruct (with_path_parts base (strip_slash (path base)) Hb) as (P0 & P1 & P2 & _ & P4);
      [intros Hc%Hsub; by apply path_clean in Hc|done|].
    unfold pop. set (u := with_path base (strip_slash (path base))) in *.
    assert (Ed : (if bool_decide (path u = s! "/") then [] else path u) = directory (path base)).
    { rewrite P4. unfold directory. case_bool_decide as E1; [by rewrite E1|]. done. }
    unfold extend. rewrite Ed.
    destruct (with_path_parts u (directory (path base) ++ segments_path segs) P0) as (_ & Q1 & Q2 & _ & Q4).
    + intros [Hc|Hc]%elem_of_app; [|by apply plain_no_query in Hc].
      clear Ed; unfold directory in Hc. case_bool_decide; [by apply elem_of_nil in Hc|]. apply Hsub in Hc. by apply path_clean in Hc.
    + destruct (directory_shape _ Hps) as [->|[p' ->]]; [apply (segments_path_shape segs)|right; by eexists].
    + split_and!; [by rewrite Q1, P1|by rewrite Q2, P2|]. rewrite Q4, bool_decide_eq_false_2; [done|].
      intros E. apply app_eq_nil in E as [_ E]. by destruct segs.
Qed.
End SimpleUrl.

(** ** The metadata documents *)

Section Documents.
Context {Url : Type} `{UrlLib Url}.

(** [struct AuthorizationServerMetadata] *)
Record AuthorizationServerMetadata := mkServerMetadata {
  issuer : Url;
  authorization_endpoint : Url;
  token_endpoint : Url;
  jwks_uri : option Url;
  registration_endpoint : option Url;
  scopes_supported : option (list str);
  response_types_supported : list str;
  response_modes_supported : option (list str);
  grant_types_supported : option (list str);
  token_endpoint_auth_methods_supported : option (list str);
  token_endpoint_auth_signing_alg_values_supported : option (list str);
  service_documentation : option Url;
  revocation_endpoint : option Url;
  revocation_endpoint_auth_signing_alg_values_supported : option (list str);
  revocation_endpoint_auth_methods_supported : option (list str);
  introspection_endpoint : option Url;
  introspection_endpoint_auth_methods_supported : option (list str);
  introspection_endpoint_auth_signing_alg_values_supported : option (list str);
  code_challenge_methods_supported : option (list str);
  userinfo_endpoint : option str;
  client_id_metadata_document_supported : option bool;
}.

(** [AuthorizationServerMetadata::new] *)
Definition new_server_metadata (iss auth token : str) : result AuthorizationServerMetadata str :=
  let? iss := url_parse iss in
  let? auth := url_parse auth in
  let? token := url_parse token in
  Ok (mkServerMetadata iss auth token None None None [] None None None None None None None None None None None None None None).

(** [struct OauthProtectedResourceMetadata] *)
Record OauthProtectedResourceMetadata := mkResourceMetadata {
  resource : Url;
  authorization_servers : list Url;
  r_jwks_uri : option Url;
  r_scopes_supported : option (list str);
  bearer_methods_supported : option (list str);
  resource_signing_alg_values_supported : option (list str);
  resource_name : option str;
  resource_documentation : option str;
  resource_policy_uri : option Url;
  resource_tos_uri : option Url;
  tls_client_certificate_bound_access_tokens : option bool;
  authorization_details_types_supported : option (list str);
  dpop_signing_alg_values_supported : option (list str);
  dpop_bound_access_tokens_required : option bool;
}.

(** [.map(parse).collect::<Result<Vec<_>, _>>()] *)
Fixpoint collect {A B E} (f : A -> result B E) (l : list A) : result (list B) E :=
  match l with
  | [] => Ok []
  | x :: r => let? y := f x in let? ys := collect f r in Ok (y :: ys)
  end.

(** [OauthProtectedResourceMetadata::new] *)
Definition new_resource_metadata (res : str) (servers : list str) (scopes : option (list str))
  : result OauthProtectedResourceMetadata str :=
  let? res := url_parse res in
  let? servers := collect url_parse servers in
  Ok (mkResourceMetadata res servers None scopes None None None None None None None None None None).
End Documents.
Arguments AuthorizationServerMetadata : clear implicits.
Arguments OauthProtectedResourceMetadata : clear implicits.

(** *** Their JSON *)

Section Codecs.
Context {Url : Type} `{UrlLib Url}.

Definition server_entries (m : AuthorizationServerMetadata Url) : list (str * option Value) :=
  [(s! "issuer", put (issuer m));
   (s! "authorization_endpoint", put (authorization_endpoint m));
   (s! "token_endpoint", put (token_endpoint m));
   (s! "jwks_uri", put_opt (jwks_uri m));
   (s! "registration_endpoint", put_opt (registration_endpoint m));
   (s! "scopes_supported", put_opt (scopes_supported m));
   (s! "response_types_supported", put_vec (response_types_supported m));
   (s! "response_modes_supported", put_opt (response_modes_supported m));
   (s! "grant_types_supported", put_opt (grant_types_supported m));
   (s! "token_endpoint_auth_methods_supported", put_opt (token_endpoint_auth_methods_supported m));
   (s! "token_endpoint_auth_signing_alg_values_supported", put_opt (token_endpoint_auth_signing_alg_values_supported m));
   (s! "service_documentation", put_opt (service_documentation m));
   (s! "revocation_endpoint", put_opt (revocation_endpoint m));
   (s! "revocation_endpoint_auth_signing_alg_values_supported", put_opt (revocation_endpoint_auth_signing_alg_values_supported m));
   (s! "revocation_endpoint_auth_methods_supported", put_opt (revocation_endpoint_auth_methods_supported m));
   (s! "introspection_endpoint", put_opt (introspection_endpoint m));
   (s! "introspection_endpoint_auth_methods_supported", put_opt (introspection_endpoint_auth_methods_supported m));
   (s! "introspection_endpoint_auth_signing_alg_values_supported", put_opt (introspection_endpoint_auth_signing_alg_values_supported m));
   (s! "code_challenge_methods_supported", put_opt (code_challenge_methods_supported m));
   (s! "userinfo_endpoint", put_opt (userinfo_endpoint m));
   (s! "client_id_metadata_document_supported", put_opt (client_id_metadata_document_supported m))].
Definition ser_server (m : AuthorizationServerMetadata Url) : Value := VObject (entries (server_entries m)).
Definition de_server (v : Value) : option (AuthorizationServerMetadata Url) :=
  fs ← object_fields v;
  iss ← take (s! "issuer") fs;
  auth ← take (s! "authorization_endpoint") fs;
  token ← take (s! "token_endpoint") fs;
  jwks ← take_opt (s! "jwks_uri") fs;
  reg ← take_opt (s! "registration_endpoint") fs;
  scopes ← take_opt (s! "scopes_supported") fs;
  types ← take_vec (s! "response_types_supported") fs;
  modes ← take_opt (s! "response_modes_supported") fs;
  grants ← take_opt (s! "grant_types_supported") fs;
  methods ← take_opt (s! "token_endpoint_auth_methods_supported") fs;
  algs ← take_opt (s! "token_endpoint_auth_signing_alg_values_supported") fs;
  docs ← take_opt (s! "service_documentation") fs;
  rev ← take_opt (s! "revocation_endpoint") fs;
  rev_algs ← take_opt (s! "revocation_endpoint_auth_signing_alg_values_supported") fs;
  rev_methods ← take_opt (s! "revocation_endpoint_auth_methods_supported") fs;
  intro ← take_opt (s! "introspection_endpoint") fs;
  intro_methods ← take_opt (s! "introspection_endpoint_auth_methods_supported") fs;
  intro_algs ← take_opt (s! "introspection_endpoint_auth_signing_alg_values_supported") fs;
  pkce ← take_opt (s! "code_challenge_methods_supported") fs;
  info ← take_opt (s! "userinfo_endpoint") fs;
  cimd ← take_opt (s! "client_id_metadata_document_supported") fs;
  Some (mkServerMetadata iss auth token jwks reg scopes types modes grants methods algs docs rev rev_algs rev_methods
          intro intro_methods intro_algs pkce info cimd).
Definition server_urls (m : AuthorizationServerMetadata Url) : list Url :=
  [issuer m; authorization_endpoint m; token_endpoint m] ++
  omap id [jwks_uri m; registration_endpoint m; service_documentation m; revocation_endpoint m; introspection_endpoint m].

Definition resource_entries (m : OauthProtectedResourceMetadata Url) : list (str * option Value) :=
  [(s! "resource", put (resource m));
   (s! "authorization_servers", put_vec (authorization_servers m));
   (s! "jwks_uri", put_opt (r_jwks_uri m));
   (s! "scopes_supported", put_opt (r_scopes_supported m));
   (s! "bearer_methods_supported", put_opt (bearer_methods_supported m));
   (s! "resource_signing_alg_values_supported", put_opt (resource_signing_alg_values_supported m));
   (s! "resource_name", put_opt (resource_name m));
   (s! "resource_documentation", put_opt (resource_documentation m));
   (s! "resource_policy_uri", put_opt (resource_policy_uri m));
   (s! "resource_tos_uri", put_opt (resource_tos_uri m));
   (s! "tls_client_certificate_bound_access_tokens", put_opt (tls_client_certificate_bound_access_tokens m));
   (s! "authorization_details_types_supported", put_opt (authorization_details_types_supported m));
   (s! "dpop_signing_alg_values_supported", put_opt (dpop_signing_alg_values_supported m));
   (s! "dpop_bound_access_tokens_required", put_opt (dpop_bound_access_tokens_required m))].
Definition ser_resource (m : OauthProtectedResourceMetadata Url) : Value := VObject (entries (resource_entries m)).
Definition de_resource (v : Value) : option (OauthProtectedResourceMetadata Url) :=
  fs ← object_fields v;
  res ← take (s! "resource") fs;
  servers ← take_vec (s! "authorization_servers") fs;
  jwks ← take_opt (s! "jwks_uri") fs;
  scopes ← take_opt (s! "scopes_supported") fs;
  bearer ← take_opt (s! "bearer_methods_supported") fs;
  algs ← take_opt (s! "resource_signing_alg_values_supported") fs;
  name ← take_opt (s! "resource_name") fs;
  docs ← take_opt (s! "resource_documentation") fs;
  policy ← take_opt (s! "resource_policy_uri") fs;
  tos ← take_opt (s! "resource_tos_uri") fs;
  tls ← take_opt (s! "tls_client_certificate_bound_access_tokens") fs;
  details ← take_opt (s! "authorization_details_types_supported") fs;
  dpop ← take_opt (s! "dpop_signing_alg_values_supported") fs;
  bound ← take_opt (s! "dpop_bound_access_tokens_required") fs;
  Some (mkResourceMetadata res servers jwks scopes bearer algs name docs policy tos tls details dpop bound).
Definition resource_urls (m : OauthProtectedResourceMetadata Url) : list Url :=
  resource m :: authorization_servers m ++ omap id [r_jwks_uri m; resource_policy_uri m; resource_tos_uri m].
End Codecs.

(** ** The builder of the metadata *)

Definition WELL_KNOWN_OAUTH_AUTHORIZATION_SERVER : str := s! "/.well-known/oauth-authorization-server".
Definition OAUTH_PROTECTED_RESOURCE_BASE : str := s! "/.well-known/oauth-protected-resource".

Module AuthMetadataBuilder.

(** The fields of the builder by their type. *)
Module Field.
Inductive text :=
| issuer | authorization_endpoint | token_endpoint | registration_endpoint | revocation_endpoint
| introspection_endpoint | service_documentation | resource | jwks_uri | resource_name
| resource_documentation | resource_policy_uri | resource_tos_uri | userinfo_endpoint.
Inductive texts :=
| scopes_supported | response_types_supported | response_modes_supported | grant_types_supported
| token_endpoint_auth_methods_supported | token_endpoint_auth_signing_alg_values_supported
| revocation_endpoint_auth_signing_alg_values_supported | revocation_endpoint_auth_methods_supported
| introspection_endpoint_auth_methods_supported | introspection_endpoint_auth_signing_alg_values_supported
| code_challenge_methods_supported | authorization_servers | required_scopes | bearer_methods_supported
| resource_signing_alg_values_supported | authorization_details_types_supported
| dpop_signing_alg_values_supported.
Inductive flag := tls_client_certificate_bound_access_tokens | dpop_bound_access_tokens_required.
#[global] Instance text_eq_dec : EqDecision text.
Proof. solve_decision. Defined.
#[global] Instance texts_eq_dec : EqDecision texts.
Proof. solve_decision. Defined.
#[global] Instance flag_eq_dec : EqDecision flag.
Proof. solve_decision. Defined.
End Field.

(** [struct AuthMetadataBuilder], its fields as functions of their names. *)
Record t := mk {
  text : Field.text -> option str;
  texts : Field.texts -> option (list str);
  flags : Field.flag -> option bool;
}.
Definition default : t := mk (fun _ => None) (fun _ => None) (fun _ => None).
Definition set_text (f : Field.text) (v : str) (b : t) : t :=
  mk (fun g => if decide (g = f) then Some v else text b g) (texts b) (flags b).
Definition set_texts (f : Field.texts) (v : list str) (b : t) : t :=
  mk (text b) (fun g => if decide (g = f) then Some v else texts b g) (flags b).
Definition set_flag (f : Field.flag) (v : bool) (b : t) : t :=
  mk (text b) (texts b) (fun g => if decide (g = f) then Some v else flags b g).

Definition with_defaults (protected_resource : str) : t :=
  set_texts Field.response_types_supported [s! "code"]
    (set_texts Field.code_challenge_methods_supported [s! "S256"]
    (set_texts Field.token_endpoint_auth_methods_supported [s! "client_secret_post"]
    (set_texts Field.grant_types_supported [s! "authorization_code"; s! "refresh_token"]
    (set_text Field.resource protected_resource default)))).
Definition new (protected_resource_url : str) : t := with_defaults protected_resource_url.

(** The setters. *)
Definition scopes_supported := set_texts Field.scopes_supported.
Definition issuer := set_text Field.issuer.
Definition service_documentation := set_text Field.service_documentation.
Definition authorization_endpoint := set_text Field.authorization_endpoint.
Definition token_endpoint := set_text Field.token_endpoint.
Definition response_types_supported := set_texts Field.response_types_supported.
Definition response_modes_supported := set_texts Field.response_modes_supported.
Definition registration_endpoint := set_text Field.registration_endpoint.
Definition userinfo_endpoint := set_text Field.userinfo_endpoint.
Definition grant_types_supported := set_texts Field.grant_types_supported.
Definition token_endpoint_auth_methods_supported := set_texts Field.token_endpoint_auth_methods_supported.
Definition token_endpoint_auth_signing_alg_values_supported :=
  set_texts Field.token_endpoint_auth_signing_alg_values_supported.
Definition revocation_endpoint := set_text Field.revocation_endpoint.
Definition revocation_endpoint_auth_methods_supported := set_texts Field.revocation_endpoint_auth_methods_supported.
Definition revocation_endpoint_auth_signing_alg_values_supported :=
  set_texts Field.revocation_endpoint_auth_signing_alg_values_supported.
Definition introspection_endpoint := set_text Field.introspection_endpoint.
Definition introspection_endpoint_auth_methods_supported :=
  set_texts Field.introspection_endpoint_auth_methods_supported.
Definition introspection_endpoint_auth_signing_alg_values_supported :=
  set_texts Field.introspection_endpoint_auth_signing_alg_values_supported.
Definition code_challenge_methods_supported := set_texts Field.code_challenge_methods_supported.
Definition resource := set_text Field.resource.
Definition authorization_servers := set_texts Field.authorization_servers.
Definition reqquired_scopes := set_texts Field.required_scopes.
Definition resource_documentation := set_text Field.resource_documentation.
Definition jwks_uri := set_text Field.jwks_uri.
Definition bearer_methods_supported := set_texts Field.bearer_methods_supported.
Definition resource_signing_alg_values_supported := set_texts Field.resource_signing_alg_values_supported.
Definition resource_name := set_text Field.resource_name.
Definition resource_policy_uri := set_text Field.resource_policy_uri.
Definition resource_tos_uri := set_text Field.resource_tos_uri.
Definition tls_client_certificate_bound_access_tokens := set_flag Field.tls_client_certificate_bound_access_tokens.
Definition authorization_details_types_supported := set_texts Field.authorization_details_types_supported.
Definition dpop_signing_alg_values_supported := set_texts Field.dpop_signing_alg_values_supported.
Definition dpop_bound_access_tokens_required := set_flag Field.dpop_bound_access_tokens_required.

(** *** From a discovery document *)

(** The answer to a GET as [reqwest] gives it: an error of sending, or the
    status and what [json] reads. *)
Definition reply : Type := result (N * result Value str) str.

Definition get_str (json : Value) (key : str) : option str := json_get key json ≫= as_string.
Definition get_str_array (json : Value) (key : str) : option (list str) :=
  (fun arr => List.filter (fun v => negb (bool_decide (v = []))) (omap as_string arr)) <$>
    (json_get key json ≫= as_array).

Definition quote (s : str) : str := [ascii_of_nat 34] ++ s ++ [ascii_of_nat 34].

(** [status_error] is [reqwest]'s text for an error status. *)
Definition from_discovery_url (status_error : N -> str) (fetch : str -> reply) (discovery_url protected_resource : str)
  (required_scopes : list str) : result t str :=
  match fetch discovery_url with
  | Err e => Err ((s! "Failed to fetch discovery document : ") ++ quote discovery_url ++ (s! ": ") ++ e)
  | Ok (status, body) =>
      if ((400 <=? status) && (status <? 600))%N
      then Err ((s! "Discovery endpoint returned error: ") ++ status_error status)
      else match body with
      | Err e => Err ((s! "Failed to parse JSON from discovery document: ") ++ e)
      | Ok json =>
          match get_str json (s! "issuer") with
          | None => Err (s! "Missing 'issuer' in discovery document")
          | Some iss =>
              Ok (mk
                (fun f => match f with
                 | Field.issuer => Some iss
                 | Field.authorization_endpoint => get_str json (s! "authorization_endpoint")
                 | Field.token_endpoint => get_str json (s! "token_endpoint")
                 | Field.jwks_uri => get_str json (s! "jwks_uri")
                 | Field.userinfo_endpoint => get_str json (s! "userinfo_endpoint")
                 | Field.registration_endpoint => get_str json (s! "registration_endpoint")
                 | Field.revocation_endpoint => get_str json (s! "revocation_endpoint")
                 | Field.introspection_endpoint => get_str json (s! "introspection_endpoint")
                 | Field.service_documentation => get_str json (s! "service_documentation")
                 | Field.resource => Some protected_resource
                 | Field.resource_name | Field.resource_documentation
                 | Field.resource_policy_uri | Field.resource_tos_uri => None
                 end)
                (fun f => match f with
                 | Field.scopes_supported => get_str_array json (s! "scopes_supported")
                 | Field.required_scopes => Some required_scopes
                 | Field.response_types_supported => get_str_array json (s! "response_types_supported")
                 | Field.response_modes_supported => get_str_array json (s! "response_modes_supported")
                 | Field.grant_types_supported => get_str_array json (s! "grant_types_supported")
                 | Field.token_endpoint_auth_methods_supported =>
                     get_str_array json (s! "token_endpoint_auth_methods_supported")
                 | Field.token_endpoint_auth_signing_alg_values_supported =>
                     get_str_array json (s! "token_endpoint_auth_signing_alg_values_supported")
                 | Field.revocation_endpoint_auth_signing_alg_values_supported =>
                     get_str_array json (s! "revocation_endpoint_auth_signing_alg_values_supported")
                 | Field.revocation_endpoint_auth_methods_supported =>
                     get_str_array json (s! "revocation_endpoint_auth_methods_supported")
                 | Field.introspection_endpoint_auth_methods_supported =>
                     get_str_array json (s! "introspection_endpoint_auth_methods_supported")
                 | Field.introspection_endpoint_auth_signing_alg_values_supported =>
                     get_str_array json (s! "introspection_endpoint_auth_signing_alg_values_supported")
                 | Field.code_challenge_methods_supported => get_str_array json (s! "code_challenge_methods_supported")
                 | Field.authorization_servers => Some [iss]
                 | Field.bearer_methods_supported | Field.resource_signing_alg_values_supported
                 | Field.authorization_details_types_supported | Field.dpop_signing_alg_values_supported => None
                 end)
                (fun _ => None))
          end
      end
  end.

(** *** Building the documents *)

Section Build.
Context {Url : Type} `{UrlLib Url}.

(** Both kinds of field read their value so. *)
Definition resolve (value : str) (base_url : option Url) : result Url str :=
  if is_some (split_once_str (s! "://") value) then url_parse value
  else match base_url with
       | Some base => join_url base value
       | None => url_parse value
       end.
Definition not_valid (field_name : str) (e : str) : str :=
  (s! "Error: '") ++ field_name ++ (s! "' is not a valid URL: ") ++ e.

Definition parse_url_field (field_name : str) (value : option str) (base_url : option Url) : result Url str :=
  match value with
  | None => Err ((s! "Error: '") ++ field_name ++ (s! "' is missing."))
  | Some value =>
      match resolve value base_url with Ok u => Ok u | Err e => Err (not_valid field_name e) end
  end.
Definition parse_optional_url_field (field_name : str) (value : option str) (base_url : option Url)
  : result (option Url) str :=
  match value with
  | None => Ok None
  | Some value =>
      match resolve value base_url with Ok u => Ok (Some u) | Err e => Err (not_valid field_name e) end
  end.

Definition parse_server (url : str) : result Url str :=
  match url_parse url with
  | Ok u => Ok u
  | Err err => Err ((s! "Error: 'authorization_servers' contains invalid URL '") ++ url ++ (s! "': ") ++ err)
  end.

Definition build (b : t) : result (AuthorizationServerMetadata Url * OauthProtectedResourceMetadata Url) str :=
  let? iss := parse_url_field (s! "issuer") (text b Field.issuer) None in
  let? auth := parse_url_field (s! "authorization_endpoint") (text b Field.authorization_endpoint) (Some iss) in
  let? token := parse_url_field (s! "token_endpoint") (text b Field.token_endpoint) (Some iss) in
  let? registration :=
    parse_optional_url_field (s! "registration_endpoint") (text b Field.registration_endpoint) (Some iss) in
  let? revocation :=
    parse_optional_url_field (s! "revocation_endpoint") (text b Field.revocation_endpoint) (Some iss) in
  let? introspection :=
    parse_optional_url_field (s! "introspection_endpoint") (text b Field.introspection_endpoint) (Some iss) in
  let? documentation :=
    parse_optional_url_field (s! "service_documentation") (text b Field.service_documentation) None in
  let? jwks := parse_optional_url_field (s! "jwks_uri") (text b Field.jwks_uri) (Some iss) in
  let server := mkServerMetadata iss auth token jwks registration
    (texts b Field.scopes_supported)
    (from_option id [] (texts b Field.response_types_supported))
    (texts b Field.response_modes_supported)
    (texts b Field.grant_types_supported)
    (texts b Field.token_endpoint_auth_methods_supported)
    (texts b Field.token_endpoint_auth_signing_alg_values_supported)
    documentation revocation
    (texts b Field.revocation_endpoint_auth_signing_alg_values_supported)
    (texts b Field.revocation_endpoint_auth_methods_supported)
    introspection
    (texts b Field.introspection_endpoint_auth_methods_supported)
    (texts b Field.introspection_endpoint_auth_signing_alg_values_supported)
    (texts b Field.code_challenge_methods_supported)
    (text b Field.userinfo_endpoint) None in
  let? res := parse_url_field (s! "resource") (text b Field.resource) None in
  let? policy := parse_optional_url_field (s! "resource_policy_uri") (text b Field.resource_policy_uri) None in
  let? tos := parse_optional_url_field (s! "resource_tos_uri") (text b Field.resource_tos_uri) None in
  let? servers := ok_or (texts b Field.authorization_servers) (s! "Error: 'authorization_servers' is missing") in
  if bool_decide (servers = []) then Err (s! "Error: 'authorization_servers' must contain at least one URL") else
  let? servers := collect parse_server servers in
  Ok (server, mkResourceMetadata res servers jwks
    (texts b Field.required_scopes)
    (texts b Field.bearer_methods_supported)
    (texts b Field.resource_signing_alg_values_supported)
    (text b Field.resource_name) (text b Field.resource_documentation) policy tos
    (flags b Field.tls_client_certificate_bound_access_tokens)
    (texts b Field.authorization_details_types_supported)
    (texts b Field.dpop_signing_alg_values_supported)
    (flags b Field.dpop_bound_access_tokens_required)).
End Build.
End AuthMetadataBuilder.

(** ** Serving the metadata *)

(** [enum OauthEndpoint] *)
Inductive OauthEndpoint :=
| AuthorizationEndpoint
| TokenEndpoint
| RegistrationEndpoint
| RevocationEndpoint
| IntrospectionEndpoint
| AuthorizationServerMetadataEndpoint
| ProtectedResourceMetadataEndpoint.
#[export] Instance oauth_endpoint_eq_dec : EqDecision OauthEndpoint.
Proof. solve_decision. Defined.

Definition create_protected_resource_metadata_url (path : str) : str :=
  OAUTH_PROTECTED_RESOURCE_BASE ++ (if bool_decide (path = s! "/") then [] else path).

Section Discovery.
Context {Url : Type} `{UrlLib Url}.

(** What [create_discovery_endpoints] and [RemoteAuthProvider::new] compute from
    the resource's URL: the endpoint map and the metadata's absolute URL. *)
Definition discovery_endpoints (resource_url : Url) : gmap str OauthEndpoint * str :=
  let relative_url := create_protected_resource_metadata_url (url_path resource_url) in
  let base_url := url_base resource_url in
  (<[relative_url := ProtectedResourceMetadataEndpoint]>
     (<[WELL_KNOWN_OAUTH_AUTHORIZATION_SERVER := AuthorizationServerMetadataEndpoint]> ∅),
   trim_end_matches "/"%char base_url ++ relative_url).

Definition create_discovery_endpoints (mcp_server_url : str) : result (gmap str OauthEndpoint * str) str :=
  let? resource_url := url_parse mcp_server_url in
  Ok (discovery_endpoints resource_url).
End Discovery.

Section Serving.
Context {H : Type} `{HeaderMap H} {Extra St Url : Type} `{UrlLib Url}.
Context (parse_method : str -> option str) (json_text : Value -> str).

Definition ALLOW : str := s! "allow".

(** [GenericBody::create_404_response] and [create_405_response] *)
Definition create_404_response : Response H := into_response (BText []) 404.
Definition create_405_response (method : str) (allowed_methods : list str) : Response H :=
  let response := into_response (BText ((s! "The method ") ++ method ++ (s! " is not allowed for this endpoint"))) 405 in
  set_headers response (hm_append (resp_headers response) ALLOW
    (from_option id (s! "unknown") (from_str (resp_headers response) (join (s! ", ") allowed_methods)))).

Definition allowed_methods (e : OauthEndpoint) : list str :=
  match e with
  | AuthorizationEndpoint => [s! "GET"; s! "HEAD"; s! "OPTIONS"]
  | TokenEndpoint => [s! "POST"; s! "OPTIONS"]
  | RegistrationEndpoint => [s! "POST"; s! "GET"; s! "PUT"; s! "PATCH"; s! "DELETE"; s! "OPTIONS"]
  | RevocationEndpoint => [s! "POST"; s! "OPTIONS"]
  | IntrospectionEndpoint => [s! "POST"; s! "OPTIONS"]
  | AuthorizationServerMetadataEndpoint => [s! "GET"; s! "HEAD"; s! "OPTIONS"]
  | ProtectedResourceMetadataEndpoint => [s! "GET"; s! "HEAD"; s! "OPTIONS"]
  end.
Definition validate_allowed_methods (e : OauthEndpoint) (method : str) : option (Response H) :=
  if bool_decide (method ∈ allowed_methods e) then None else Some (create_405_response method (allowed_methods e)).

(** [handle_authorization_server_metadata] and
    [handle_protected_resource_metadata], on the document's text. *)
Definition handle_metadata (response_str : str) : result (Response H) McpHttpError :=
  Ok (mkResponse 200 (hm_append hm_new CONTENT_TYPE (s! "application/json")) (BText response_str)).

(** [handle_request] of every provider, on its endpoints and documents;
    [path] is the path of the request's URI. *)
Definition serve_metadata (endpoint_map : gmap str OauthEndpoint) (server : AuthorizationServerMetadata Url)
  (res : OauthProtectedResourceMetadata Url) (path : str) : Handler H Extra St :=
  fun request st =>
    match endpoint_map !! path with
    | None => Some (Ok (mkResponse 404 hm_new (BText [])), st)
    | Some endpoint =>
        match validate_allowed_methods endpoint (method request) with
        | Some response => Some (Ok response, st)
        | None =>
            match endpoint with
            | AuthorizationServerMetadataEndpoint =>
                cors_handle parse_method default_cors
                  (fun _ st => Some (handle_metadata (json_text (ser_server server)), st)) request st
            | ProtectedResourceMetadataEndpoint =>
                cors_handle parse_method default_cors
                  (fun _ st => Some (handle_metadata (json_text (ser_resource res)), st)) request st
            | _ => Some (Ok create_404_response, st)
            end
        end
    end.
End Serving.

(** ** The remote provider *)

Module RemoteAuthProvider.
Section Provider.
Context {H : Type} `{HeaderMap H} {Extra St Url : Type} `{UrlLib Url}.

(** A token verifier, [None] for a panic. *)
Abbreviation Verify := (str -> St -> option (result (AuthInfo Extra) AuthenticationError * St)).

(** [struct RemoteAuthProvider] *)
Record t := mk {
  auth_server_meta : AuthorizationServerMetadata Url;
  protected_resource_meta : OauthProtectedResourceMetadata Url;
  token_verifier : Verify;
  endpoint_map : gmap str OauthEndpoint;
  scopes_required : option (list str);
  metadata_url : str;
}.
Definition new (server : AuthorizationServerMetadata Url) (res : OauthProtectedResourceMetadata Url)
  (verify : Verify) (required_scopes : option (list str)) : t :=
  let '(endpoints, url) := discovery_endpoints (resource res) in
  mk server res verify endpoints required_scopes url.

(** The answer is read without looking at its status; [type_error] is serde's
    text for a document of another type. *)
Definition with_remote_metadata_url (type_error : Value -> str) (fetch : str -> AuthMetadataBuilder.reply)
  (authorization_server_metadata_url : str) (res : OauthProtectedResourceMetadata Url)
  (verify : Verify) (required_scopes : option (list str)) : result t str :=
  let? (_, body) := fetch authorization_server_metadata_url in
  let? json := body in
  match de_server json with
  | None => Err (type_error json)
  | Some server => Ok (new server res verify required_scopes)
  end.

Definition endpoint_type (p : t) (path : str) : option OauthEndpoint := endpoint_map p !! path.
Definition handle_request parse_method json_text (p : t) (path : str) : Handler H Extra St :=
  serve_metadata parse_method json_text (endpoint_map p) (auth_server_meta p) (protected_resource_meta p) path.

(** The provider as the authentication middleware uses it. *)
Definition as_provider (p : t) : AuthProvider (Extra := Extra) St :=
  mkProvider St (token_verifier p) (scopes_required p) (Some (metadata_url p)).
End Provider.
Arguments t : clear implicits.
End RemoteAuthProvider.

(** ** Facts *)

Module MetadataFacts.
Section Facts.
Context {Url : Type} `{UrlLib Url}.

Lemma Forall_omap_id {A} (P : A -> Prop) (l : list (option A)) :
  Forall P (omap id l) -> Forall (from_option P True) l.
Proof. induction l as [|[a|] l IH]; simpl; [constructor|intros [? ?]%Forall_cons|]; constructor; auto. done. Qed.

Lemma server_keys m : NoDup (server_entries m).*1.
Proof. decided. Qed.
Lemma resource_keys m : NoDup (resource_entries m).*1.
Proof. decided. Qed.

(** One field read back: its key is among the entries. *)
Ltac read_field n :=
  lazymatch goal with
  | |- (take ?k (entries ?l) ≫= _) = _ => eapply bind_eq; [eapply (take_put l k _ n)|]
  | |- (take_opt ?k (entries ?l) ≫= _) = _ => eapply bind_eq; [eapply (take_put_opt l k _ n)|]
  | |- (take_vec ?k (entries ?l) ≫= _) = _ => eapply bind_eq; [eapply (take_put_vec l k _ n)|]
  end;
  [solve [unfold server_entries, resource_entries; in_entries]
  |solve [exact I | apply wf_strings | apply wf_opt_strings | apply wf_opt_text | apply wf_opt_bool
         | match goal with U : _ |- _ => exact U end]
  |].

Lemma server_roundtrip (m : AuthorizationServerMetadata Url) :
  Forall reparses (server_urls m) -> de_server (ser_server m) = Some m.
Proof.
  unfold server_urls. intros [Hu Ho]%Forall_app. apply Forall_omap_id in Ho.
  rewrite !Forall_cons in Hu. rewrite !Forall_cons in Ho. destruct Hu as (H1 & H2 & H3 & _), Ho as (H4 & H5 & H6 & H7 & H8 & _).
  unfold de_server, ser_server. cbn [object_fields mbind option_bind].
  pose proof (server_keys m) as n. do 21 read_field n. by destruct m.
Qed.

Lemma resource_roundtrip (m : OauthProtectedResourceMetadata Url) :
  Forall reparses (resource_urls m) -> de_resource (ser_resource m) = Some m.
Proof.
  unfold resource_urls. intros [H1 [Hs Ho]%Forall_app]%Forall_cons. apply Forall_omap_id in Ho.
  rewrite !Forall_cons in Ho. destruct Ho as (H2 & H3 & H4 & _).
  unfold de_resource, ser_resource. cbn [object_fields mbind option_bind].
  pose proof (resource_keys m) as n. do 14 read_field n. by destruct m.
Qed.

(** *** The builder *)

Lemma collect_Ok {A B E} (f : A -> result B E) l ys : collect f l = Ok ys -> Forall2 (fun x y => f x = Ok y) l ys.
Proof.
  revert ys. induction l as [|x l IH]; simpl; intros ys Hl; [by simplify_eq; constructor|].
  destruct (f x) eqn:E1; [|done]. destruct (collect f l) eqn:E2; [|done]. simplify_eq. constructor; auto.
Qed.
Lemma collect_map {A B C E} (g : C -> A) (f : A -> result B E) (h : C -> B) l :
  (forall x, x ∈ l -> f (g x) = Ok (h x)) -> collect f (g <$> l) = Ok (h <$> l).
Proof.
  induction l as [|x l IH]; intros Hf; [done|]. rewrite !fmap_cons. simpl.
  rewrite Hf, IH; [done| |constructor]. intros y Hy. apply Hf. by constructor.
Qed.
End Facts.

Section BuilderFacts.
Context {Url : Type} `{UrlLaws Url}.

Lemma resolve_reparses value base (u : Url) :
  from_option reparses True base -> AuthMetadataBuilder.resolve value base = Ok u -> reparses u.
Proof.
  unfold AuthMetadataBuilder.resolve. intros Hb. destruct (is_some _); [apply parse_reparses|].
  destruct base as [base|]; [|apply parse_reparses]. unfold join_url. destruct (cannot_be_a_base base) eqn:E; [done|].
  intros [= <-]. by apply extend_reparses.
Qed.
Lemma parse_url_field_ok name value base (u : Url) :
  AuthMetadataBuilder.parse_url_field name value base = Ok u -> exists v, value = Some v /\ AuthMetadataBuilder.resolve v base = Ok u.
Proof. unfold AuthMetadataBuilder.parse_url_field. destruct value as [v|]; [|done]. destruct (AuthMetadataBuilder.resolve v base) eqn:E; [|done]. naive_solver. Qed.
Lemma parse_optional_ok name value base (o : option Url) :
  AuthMetadataBuilder.parse_optional_url_field name value base = Ok o ->
  match value with Some v => exists u, o = Some u /\ AuthMetadataBuilder.resolve v base = Ok u | None => o = None end.
Proof.
  unfold AuthMetadataBuilder.parse_optional_url_field. destruct value as [v|]; [|naive_solver].
  destruct (AuthMetadataBuilder.resolve v base) eqn:E; [|done]. naive_solver.
Qed.
Lemma field_reparses name value base (u : Url) :
  from_option reparses True base -> AuthMetadataBuilder.parse_url_field name value base = Ok u -> reparses u.
Proof. intros Hb (v & _ & Hv)%parse_url_field_ok. by eapply resolve_reparses. Qed.
Lemma optional_reparses name value base (o : option Url) :
  from_option reparses True base -> AuthMetadataBuilder.parse_optional_url_field name value base = Ok o -> from_option reparses True o.
Proof.
  intros Hb Ho%parse_optional_ok. destruct value; [|by subst]. destruct Ho as (u & -> & Hu). by eapply resolve_reparses.
Qed.
Lemma parse_server_ok s (u : Url) : AuthMetadataBuilder.parse_server s = Ok u -> url_parse s = Ok u.
Proof. unfold AuthMetadataBuilder.parse_server. by destruct (url_parse s). Qed.

Lemma Forall_omap_id_2 {A} (P : A -> Prop) (l : list (option A)) :
  Forall (from_option P True) l -> Forall P (omap id l).
Proof. induction 1 as [|[a|] l Ha _ IH]; simpl; [done|by constructor|done]. Qed.

(** What a successful [build] went through. *)
Lemma build_ok b (a : AuthorizationServerMetadata Url) (p : OauthProtectedResourceMetadata Url) :
  AuthMetadataBuilder.build b = Ok (a, p) ->
  let at_issuer name o f := AuthMetadataBuilder.parse_optional_url_field name (AuthMetadataBuilder.text b f) (Some (issuer a)) = Ok o in
  AuthMetadataBuilder.parse_url_field (s! "issuer") (AuthMetadataBuilder.text b AuthMetadataBuilder.Field.issuer) None = Ok (issuer a) /\
  AuthMetadataBuilder.parse_url_field (s! "authorization_endpoint") (AuthMetadataBuilder.text b AuthMetadataBuilder.Field.authorization_endpoint) (Some (issuer a))
    = Ok (authorization_endpoint a) /\
  AuthMetadataBuilder.parse_url_field (s! "token_endpoint") (AuthMetadataBuilder.text b AuthMetadataBuilder.Field.token_endpoint) (Some (issuer a)) = Ok (token_endpoint a) /\
  at_issuer (s! "registration_endpoint") (registration_endpoint a) AuthMetadataBuilder.Field.registration_endpoint /\
  at_issuer (s! "revocation_endpoint") (revocation_endpoint a) AuthMetadataBuilder.Field.revocation_endpoint /\
  at_issuer (s! "introspection_endpoint") (introspection_endpoint a) AuthMetadataBuilder.Field.introspection_endpoint /\
  at_issuer (s! "jwks_uri") (jwks_uri a) AuthMetadataBuilder.Field.jwks_uri /\
  AuthMetadataBuilder.parse_optional_url_field (s! "service_documentation") (AuthMetadataBuilder.text b AuthMetadataBuilder.Field.service_documentation) None
    = Ok (service_documentation a) /\
  AuthMetadataBuilder.parse_url_field (s! "resource") (AuthMetadataBuilder.text b AuthMetadataBuilder.Field.resource) None = Ok (resource p) /\
  AuthMetadataBuilder.parse_optional_url_field (s! "resource_policy_uri") (AuthMetadataBuilder.text b AuthMetadataBuilder.Field.resource_policy_uri) None
    = Ok (resource_policy_uri p) /\
  AuthMetadataBuilder.parse_optional_url_field (s! "resource_tos_uri") (AuthMetadataBuilder.text b AuthMetadataBuilder.Field.resource_tos_uri) None = Ok (resource_tos_uri p) /\
  r_jwks_uri p = jwks_uri a /\
  exists servers, AuthMetadataBuilder.texts b AuthMetadataBuilder.Field.authorization_servers = Some servers /\ servers <> [] /\
    Forall2 (fun s u => url_parse s = Ok u) servers (authorization_servers p).
Proof.
  unfold AuthMetadataBuilder.build. intros Hb.
  repeat match type of Hb with
  | match ?r with Ok _ => _ | Err _ => _ end = _ => destruct r eqn:?; [|done]
  end.
  case_bool_decide; [done|].
  match type of Hb with match ?r with _ => _ end = _ => destruct r as [us|] eqn:Hs; [|done] end.
  injection Hb as <- <-. simpl. split_and!; try done.
  match goal with E : ok_or ?o _ = Ok ?l |- _ => exists l; destruct o; simplify_eq/= end.
  split_and!; try done. apply collect_Ok in Hs. eapply Forall2_impl; [done|]. by apply parse_server_ok.
Qed.

(** The fields a path may stand in for a URL under the issuer, and the URLs
    the document has for them. *)
Definition under_issuer (f : AuthMetadataBuilder.Field.text) : bool :=
  match f with
  | AuthMetadataBuilder.Field.authorization_endpoint | AuthMetadataBuilder.Field.token_endpoint
  | AuthMetadataBuilder.Field.registration_endpoint | AuthMetadataBuilder.Field.revocation_endpoint
  | AuthMetadataBuilder.Field.introspection_endpoint | AuthMetadataBuilder.Field.jwks_uri => true
  | _ => false
  end.
Definition endpoint (a : AuthorizationServerMetadata Url) (f : AuthMetadataBuilder.Field.text) : option Url :=
  match f with
  | AuthMetadataBuilder.Field.authorization_endpoint => Some (authorization_endpoint a)
  | AuthMetadataBuilder.Field.token_endpoint => Some (token_endpoint a)
  | AuthMetadataBuilder.Field.registration_endpoint => registration_endpoint a
  | AuthMetadataBuilder.Field.revocation_endpoint => revocation_endpoint a
  | AuthMetadataBuilder.Field.introspection_endpoint => introspection_endpoint a
  | AuthMetadataBuilder.Field.jwks_uri => jwks_uri a
  | _ => None
  end.
Lemma endpoint_resolved b (a : AuthorizationServerMetadata Url) (p : OauthProtectedResourceMetadata Url) f :
  AuthMetadataBuilder.build b = Ok (a, p) -> under_issuer f = true ->
  match AuthMetadataBuilder.text b f with
  | Some s => exists u, endpoint a f = Some u /\ AuthMetadataBuilder.resolve s (Some (issuer a)) = Ok u
  | None => endpoint a f = None
  end.
Proof.
  intros (_ & Ha & Ht & Hreg & Hrev & Hint & Hj & _)%build_ok Hf.
  destruct f; try done; cbn [endpoint];
    first [apply parse_url_field_ok in Ha as (v & -> & Hv) | idtac]; first [by eexists | by apply parse_optional_ok in Hreg | by apply parse_optional_ok in Hrev
      | by apply parse_optional_ok in Hint | by apply parse_optional_ok in Hj | apply parse_url_field_ok in Ht as (w & -> & Hw); by eexists].
Qed.

(** The segments of a path of plain segments. *)
Lemma plain_no_char c s : plain_segment s = true -> unreserved c = false -> c ∉ s.
Proof. intros [_ Hs]%andb_prop Hc Hin. rewrite forallb_forall in Hs. apply list_elem_of_In, Hs in Hin. congruence. Qed.
Lemma split_join_plain segs : segs <> [] -> Forall (fun s => plain_segment s = true) segs -> split_char "/"%char (join (s! "/") segs) = segs.
Proof.
  intros Hne Hs. induction Hs as [|s segs Hp Hs IH]; [done|]. pose proof (plain_no_char "/"%char s Hp eq_refl) as Hc.
  destruct segs as [|s' segs]; [by apply split_char_nosep|]. cbn [join app]. change (s! "/" ++ ?x) with ("/"%char :: x).
  rewrite split_char_app by done. f_equal. by apply IH.
Qed.
Lemma plain_path_segments value segs :
  segs <> [] -> Forall (fun s => plain_segment s = true) segs ->
  value = join (s! "/") segs \/ value = s! "/" ++ join (s! "/") segs ->
  List.filter (fun s => negb (bool_decide (s = []))) (split_char "/"%char (trim_start_matches "/"%char value)) = segs /\
  split_once_str (s! "://") value = None.
Proof.
  intros Hne Hs Hv.
  assert (Hfirst : exists c r, join (s! "/") segs = c :: r /\ c <> "/"%char).
  { destruct Hs as [|s segs Hp _]; [done|]. destruct s as [|c s]; [done|].
    exists c. pose proof (plain_no_char "/"%char (c :: s) Hp eq_refl) as Hc. destruct segs; eexists; (split; [done|set_solver]). }
  assert (Ht : trim_start_matches "/"%char value = join (s! "/") segs).
  { destruct Hfirst as (c & r & E & Hc). destruct Hv as [-> | ->]; rewrite E; simpl; by rewrite ?decide_False, ?decide_True by done. }
  split.
  - rewrite Ht, split_join_plain by done. apply Forall_filter_id. eapply Forall_impl; [exact Hs|]. intros s Hp.
    apply andb_prop in Hp as [Hp _]. destruct (bool_decide_reflect (s = [])) as [->|]; [|done]. done.
  - destruct (split_once_str (s! "://") value) as [[u v]|] eqn:E; [|done]. apply split_once_str_spec in E.
    assert (Hin : ":"%char ∈ value) by (rewrite E; set_solver).
    assert (Hno : ":"%char ∉ join (s! "/") segs).
    { clear -Hs. induction Hs as [|s segs Hp Hs IH]; [set_solver|]. pose proof (plain_no_char ":"%char s Hp eq_refl).
      destruct segs; cbn [join]; [done|]. set_solver. }
    destruct Hv as [-> | ->]; set_solver.
Qed.

Lemma build_reparses b (a : AuthorizationServerMetadata Url) (p : OauthProtectedResourceMetadata Url) :
  AuthMetadataBuilder.build b = Ok (a, p) ->
  Forall reparses (server_urls a) /\ Forall reparses (resource_urls p) /\ authorization_servers p <> [].
Proof.
  intros (Hi & Ha & Ht & Hreg & Hrev & Hint & Hj & Hd & Hr & Hp & Hs & Ej & l & El & Hl & Hsv)%build_ok.
  assert (reparses (issuer a)) by (by eapply field_reparses; [|exact Hi]).
  assert (from_option reparses True (jwks_uri a)) by (by eapply optional_reparses; [|exact Hj]).
  split_and!.
  - unfold server_urls. apply Forall_app. split; [|apply Forall_omap_id_2];
      rewrite !Forall_cons; split_and!; try done; first [by eapply field_reparses; [|eassumption] | by eapply optional_reparses; [|eassumption]].
  - unfold resource_urls. rewrite Forall_cons, Forall_app. split_and!; [by eapply field_reparses; [|exact Hr]| |].
    + clear -Hsv H0. induction Hsv as [|x u l us Hu _ IH]; constructor; [by eapply parse_reparses|done].
    + apply Forall_omap_id_2. rewrite Ej, !Forall_cons. split_and!; try done; by eapply optional_reparses; [|eassumption].
  - intros E. rewrite E in Hsv. by inversion Hsv; subst.
Qed.
End BuilderFacts.
End MetadataFacts.

Module DiscoveryFacts.
Import MetadataFacts.
Section Facts.
Context {Url : Type} `{UrlLib Url} (m : AuthorizationServerMetadata Url).
Abbreviation doc := (ser_server m).
Abbreviation get_str := AuthMetadataBuilder.get_str.
Abbreviation get_str_array := AuthMetadataBuilder.get_str_array.

Lemma omap_strings (x : list str) : omap as_string (ser <$> x) = x.
Proof. induction x as [|a x IH]; [done|]. exact (f_equal (cons a) IH). Qed.
Lemma nonempty_kept (x : list str) :
  Forall (fun s => s <> []) x -> List.filter (fun v => negb (bool_decide (v = []))) x = x.
Proof.
  induction 1 as [|a x Ha _ IH]; [done|]. simpl. by rewrite bool_decide_eq_false_2, IH.
Qed.

Lemma get_str_url k (u : Url) : (k, put u) ∈ server_entries m -> get_str doc k = Some (as_str u).
Proof. intros Hk. unfold AuthMetadataBuilder.get_str, ser_server. by rewrite (json_get_entries _ _ _ (server_keys m) Hk). Qed.
Lemma get_str_opt_url k (u : option Url) : (k, put_opt u) ∈ server_entries m -> get_str doc k = as_str <$> u.
Proof.
  intros Hk. unfold AuthMetadataBuilder.get_str, ser_server. rewrite (json_get_entries _ _ _ (server_keys m) Hk). by destruct u.
Qed.
Lemma get_str_text k (x : option str) : (k, put_opt x) ∈ server_entries m -> get_str doc k = x.
Proof.
  intros Hk. unfold AuthMetadataBuilder.get_str, ser_server. rewrite (json_get_entries _ _ _ (server_keys m) Hk). by destruct x.
Qed.
Lemma get_array k (x : option (list str)) :
  (k, put_opt x) ∈ server_entries m -> from_option (Forall (fun s => s <> [])) True x -> get_str_array doc k = x.
Proof.
  intros Hk Hx. unfold AuthMetadataBuilder.get_str_array, ser_server.
  rewrite (json_get_entries _ _ _ (server_keys m) Hk). destruct x as [x|]; [|done].
  cbn [put_opt fmap option_fmap option_map mbind option_bind as_array ser list_codec].
  by rewrite omap_strings, nonempty_kept.
Qed.
Lemma get_vec k (x : list str) :
  (k, put_vec x) ∈ server_entries m -> Forall (fun s => s <> []) x -> from_option id [] (get_str_array doc k) = x.
Proof.
  intros Hk Hx. unfold AuthMetadataBuilder.get_str_array, ser_server.
  rewrite (json_get_entries _ _ _ (server_keys m) Hk). destruct x as [|a x]; [done|].
  cbn [put_vec fmap option_fmap option_map mbind option_bind as_array ser list_codec from_option id].
  by rewrite omap_strings, nonempty_kept.
Qed.

(** An absolute URL's text resolves to it. *)
Definition absolute (u : Url) : Prop := reparses u /\ is_some (split_once_str (s! "://") (as_str u)) = true.
Lemma resolve_absolute (u : Url) base : absolute u -> AuthMetadataBuilder.resolve (as_str u) base = Ok u.
Proof. intros [Hp Ha]. unfold AuthMetadataBuilder.resolve. rewrite Ha. exact Hp. Qed.
Lemma field_absolute name (u : Url) base : absolute u ->
  AuthMetadataBuilder.parse_url_field name (Some (as_str u)) base = Ok u.
Proof. intros Hu. unfold AuthMetadataBuilder.parse_url_field. by rewrite resolve_absolute. Qed.
Lemma optional_absolute name (u : option Url) base : from_option absolute True u ->
  AuthMetadataBuilder.parse_optional_url_field name (as_str <$> u) base = Ok u.
Proof. intros Hu. destruct u as [u|]; [|done]. simpl. by rewrite resolve_absolute. Qed.

(** The lists of the document hold no empty text. *)
Definition server_lists : list (list str) :=
  response_types_supported m :: omap id
    [scopes_supported m; response_modes_supported m; grant_types_supported m;
     token_endpoint_auth_methods_supported m; token_endpoint_auth_signing_alg_values_supported m;
     revocation_endpoint_auth_signing_alg_values_supported m; revocation_endpoint_auth_methods_supported m;
     introspection_endpoint_auth_methods_supported m; introspection_endpoint_auth_signing_alg_values_supported m;
     code_challenge_methods_supported m].
End Facts.
End DiscoveryFacts.

Module ServingFacts.
Section Facts.
Context {H : Type} `{HeaderMapLaws H} {Extra St : Type} (parse_method : str -> option str).

(** The default CORS configuration only adds one header to an answer. *)
Lemma default_cors_answer (next : Handler H Extra St) req st resp st' :
  method req <> s! "OPTIONS" -> next req st = Some (Ok resp, st') ->
  exists h, cors_handle parse_method default_cors next req st = Some (Ok (set_headers resp h), st') /\
    forall k, k <> ALLOW_ORIGIN -> hm_get h k = hm_get (resp_headers resp) k.
Proof.
  intros Hm Hn. unfold cors_handle. rewrite bool_decide_eq_false_2, Hn by done. simpl.
  destruct (get_str _ _) as [o|].
  - change (resolve_allowed_origin default_cors o) with (Some (s! "*")). cbn [is_some].
    unfold add_cors_to_response, insert_origin, insert_expect.
    change (resolve_allowed_origin default_cors o) with (Some (s! "*")). cbn iota beta.
    rewrite from_str_spec by (repeat constructor). simpl. eexists. split; [done|].
    intros k Hk. unfold insert_credentials. simpl. by rewrite get_insert, decide_False.
  - exists (resp_headers resp). split; [by destruct resp|done].
Qed.

(** A document behind the default CORS configuration. *)
Lemma document_answer body (req : Request H Extra) (st : St) :
  method req = s! "GET" ->
  exists r, cors_handle parse_method default_cors (fun _ st => Some (handle_metadata body, st)) req st = Some (Ok r, st) /\
    status r = 200%N /\ resp_body r = BText body /\ hm_get (resp_headers r) CONTENT_TYPE = Some (s! "application/json").
Proof.
  intros Hm. edestruct (default_cors_answer (fun _ st => Some (handle_metadata body, st)) req st) as (h & E & Hh);
    [by rewrite Hm|done|].
  eexists. split; [exact E|]. split_and!; [done..|]. simpl. rewrite Hh by done. simpl.
  by rewrite get_append, decide_True, get_new.
Qed.

Lemma refused_method e m :
  allowed_methods e = [s! "GET"; s! "HEAD"; s! "OPTIONS"] -> m ∉ allowed_methods e ->
  exists r : Response H, validate_allowed_methods e m = Some r /\ status r = 405%N /\
    hm_get (resp_headers r) ALLOW = Some (s! "GET, HEAD, OPTIONS").
Proof.
  intros He Hm. unfold validate_allowed_methods. rewrite bool_decide_eq_false_2 by done. eexists. split; [done|].
  split; [done|]. simpl. rewrite He, from_str_spec by (repeat constructor).
  rewrite get_append, decide_True by done. by rewrite get_append, decide_False, get_new.
Qed.
Lemma get_is_allowed e : allowed_methods e = [s! "GET"; s! "HEAD"; s! "OPTIONS"] ->
  validate_allowed_methods (H := H) e (s! "GET") = None.
Proof. intros He. unfold validate_allowed_methods. rewrite He. by rewrite bool_decide_eq_true_2 by decided. Qed.
End Facts.
End ServingFacts.
Import MetadataFacts DiscoveryFacts ServingFacts.

(** A server and a resource, as a builder gives them. *)
Module MetadataDemo.
Definition builder : AuthMetadataBuilder.t :=
  AuthMetadataBuilder.authorization_servers [s! "https://auth.example"]
    (AuthMetadataBuilder.token_endpoint (s! "/token")
    (AuthMetadataBuilder.authorization_endpoint (s! "https://auth.example/authorize")
    (AuthMetadataBuilder.jwks_uri (s! "jwks")
    (AuthMetadataBuilder.issuer (s! "https://auth.example")
    (AuthMetadataBuilder.new (s! "https://mcp.example/mcp")))))).
Definition server : AuthorizationServerMetadata SimpleUrl.t :=
  mkServerMetadata (s! "https://auth.example") (s! "https://auth.example/authorize") (s! "https://auth.example/token")
    (Some (s! "https://auth.example/jwks")) None None [s! "code"] None (Some [s! "authorization_code"; s! "refresh_token"])
    (Some [s! "client_secret_post"]) None None None None None None None None (Some [s! "S256"]) None None.
Definition res : OauthProtectedResourceMetadata SimpleUrl.t :=
  mkResourceMetadata (s! "https://mcp.example/mcp") [s! "https://auth.example"] (Some (s! "https://auth.example/jwks"))
    None None None None None None None None None None None.
Example built : AuthMetadataBuilder.build builder = Ok (server, res).
Proof. vm_compute. reflexivity. Qed.

(** A JSON text that only knows these two documents. *)
Definition json_text (v : Value) : str := match v with VObject (_ :: (k, _) :: _) => k | _ => [] end.
Definition json_parse (s : str) : option Value :=
  if bool_decide (s = s! "authorization_servers") then Some (ser_resource res) else Some (ser_server server).
Definition get : Request ListHeaders.t unit := mkRequest (s! "GET") None [(ORIGIN, s! "https://a")] [] None.
End MetadataDemo.

(** ** Claims *)

(** C32. The builder's documents are well formed: when [build] succeeds, the
    JSON of both documents is read back as the same documents, the resource
    names at least one authorization server and both name the same keys. The
    endpoints that may be given as a path - authorization, token,
    registration, revocation, introspection and the keys - are present exactly
    when configured: a path of plain segments gives the URL with the issuer's
    scheme and authority and those segments after the issuer's path, a text
    with [://] is parsed as it is. *)
Theorem build_well_formed {Url : Type} `{UrlLaws Url} (b : AuthMetadataBuilder.t)
  (a : AuthorizationServerMetadata Url) (p : OauthProtectedResourceMetadata Url) :
  AuthMetadataBuilder.build b = Ok (a, p) ->
  de_server (ser_server a) = Some a /\ de_resource (ser_resource p) = Some p /\
  authorization_servers p <> [] /\ r_jwks_uri p = jwks_uri a /\
  forall f, under_issuer f = true ->
    match AuthMetadataBuilder.text b f with
    | None => endpoint a f = None
    | Some value =>
        exists u, endpoint a f = Some u /\
        (forall x y, value = x ++ s! "://" ++ y -> url_parse value = Ok u) /\
        (forall segs, segs <> [] -> Forall (fun s => plain_segment s = true) segs ->
           value = join (s! "/") segs \/ value = s! "/" ++ join (s! "/") segs ->
           url_scheme u = url_scheme (issuer a) /\ url_authority u = url_authority (issuer a) /\
           url_path u = directory (url_path (issuer a)) ++ segments_path segs)
    end.
Proof.
  intros Hb. pose proof (build_ok _ _ _ Hb) as (Hi & _ & _ & _ & _ & _ & _ & _ & _ & _ & _ & Hj & _).
  destruct (build_reparses _ _ _ Hb) as (Ha & Hp & Hs).
  split_and!; auto using server_roundtrip, resource_roundtrip.
  intros f Hf. pose proof (endpoint_resolved _ _ _ f Hb Hf) as He. destruct (AuthMetadataBuilder.text b f) as [value|]; [|done].
  destruct He as (u & Hu & Hr). exists u. split; [done|]. unfold AuthMetadataBuilder.resolve in Hr. split.
  - intros x y ->. destruct (SimpleUrl.split_once_str_found (s! "://") x y) as [q Hq]. by rewrite Hq in Hr.
  - intros segs Hne Hplain Hv. destruct (plain_path_segments value segs Hne Hplain Hv) as [Hsegs Hrel].
    rewrite Hrel in Hr. cbn [is_some] in Hr. unfold join_url in Hr. rewrite Hsegs in Hr.
    destruct (cannot_be_a_base (issuer a)) eqn:Ec; [done|]. injection Hr as <-.
    apply extend_plain; try done. by eapply field_reparses; [|exact Hi].
Qed.

Lemma build_well_formed_witness :
  de_server (ser_server MetadataDemo.server) = Some MetadataDemo.server /\
  de_resource (ser_resource MetadataDemo.res) = Some MetadataDemo.res /\
  url_path (token_endpoint MetadataDemo.server) = s! "/token".
Proof.
  destruct (build_well_formed _ _ _ MetadataDemo.built) as (Hs & Hr & _ & _ & Hf). split; [exact Hs|]. split; [exact Hr|].
  destruct (Hf AuthMetadataBuilder.Field.token_endpoint eq_refl) as (u & [= <-] & _ & Hu).
  destruct (Hu [s! "token"]) as (_ & _ & Hp); [done|by repeat constructor|by right|]. exact Hp.
Defined.

(** The provider serves its metadata: a GET of either well-known path is
    answered 200 with JSON that reads back as the provider's document, for any
    origin; the resource's path is the one its advertised absolute URL ends
    in.  Other methods than GET, HEAD and OPTIONS get 405 with the allowed
    ones, other paths 404. *)
Theorem metadata_served {H Extra St Url : Type} `{HeaderMapLaws H} `{UrlLib Url}
  (parse_method : str -> option str) (json_text : Value -> str) (json_parse : str -> option Value)
  (server : AuthorizationServerMetadata Url) (res : OauthProtectedResourceMetadata Url)
  (verify : str -> St -> option (result (AuthInfo Extra) AuthenticationError * St)) (scopes : option (list str))
  (req : Request H Extra) (st : St) :
  Forall reparses (server_urls server) -> Forall reparses (resource_urls res) ->
  json_parse (json_text (ser_server server)) = Some (ser_server server) ->
  json_parse (json_text (ser_resource res)) = Some (ser_resource res) ->
  let p := RemoteAuthProvider.new server res verify scopes in
  let answer path := RemoteAuthProvider.handle_request parse_method json_text p path req st in
  let resource_path := create_protected_resource_metadata_url (url_path (resource res)) in
  let json_answer path (readable : str -> Prop) :=
    exists r body, answer path = Some (Ok r, st) /\ status r = 200%N /\ resp_body r = BText body /\
      hm_get (resp_headers r) CONTENT_TYPE = Some (s! "application/json") /\ readable body in
  RemoteAuthProvider.metadata_url p = trim_end_matches "/"%char (url_base (resource res)) ++ resource_path /\
  (method req = s! "GET" ->
   json_answer WELL_KNOWN_OAUTH_AUTHORIZATION_SERVER (fun body => json_parse body ≫= de_server = Some server) /\
   json_answer resource_path (fun body => json_parse body ≫= de_resource = Some res)) /\
  (forall path, path ∈ [WELL_KNOWN_OAUTH_AUTHORIZATION_SERVER; resource_path] ->
   method req ∉ [s! "GET"; s! "HEAD"; s! "OPTIONS"] ->
   exists r, answer path = Some (Ok r, st) /\ status r = 405%N /\
     hm_get (resp_headers r) ALLOW = Some (s! "GET, HEAD, OPTIONS")) /\
  (forall path, path ∉ [WELL_KNOWN_OAUTH_AUTHORIZATION_SERVER; resource_path] ->
   exists r, answer path = Some (Ok r, st) /\ status r = 404%N).
Proof.
  intros Hs Hr Js Jr p answer resource_path json_answer.
  assert (Ne : resource_path <> WELL_KNOWN_OAUTH_AUTHORIZATION_SERVER) by (unfold resource_path; discriminate).
  assert (L1 : RemoteAuthProvider.endpoint_map p !! WELL_KNOWN_OAUTH_AUTHORIZATION_SERVER = Some AuthorizationServerMetadataEndpoint).
  { simpl. by rewrite lookup_insert_ne, lookup_insert_eq. }
  assert (L2 : RemoteAuthProvider.endpoint_map p !! resource_path = Some ProtectedResourceMetadataEndpoint).
  { simpl. by rewrite lookup_insert_eq. }
  assert (L3 : forall path, path ∉ [WELL_KNOWN_OAUTH_AUTHORIZATION_SERVER; resource_path] ->
    RemoteAuthProvider.endpoint_map p !! path = None).
  { intros path Hp. rewrite !not_elem_of_cons in Hp. simpl. rewrite !lookup_insert_ne by naive_solver. apply lookup_empty. }
  split_and!; [done|..].
  - intros Hm. unfold json_answer, answer, RemoteAuthProvider.handle_request, serve_metadata.
    change (RemoteAuthProvider.auth_server_meta p) with server. change (RemoteAuthProvider.protected_resource_meta p) with res.
    rewrite L1, L2, Hm, !get_is_allowed by done. split.
    + destruct (document_answer parse_method (json_text (ser_server server)) req st Hm) as (r & -> & ? & ? & ?).
      exists r, (json_text (ser_server server)). rewrite Js. split_and!; try done. by apply server_roundtrip.
    + destruct (document_answer parse_method (json_text (ser_resource res)) req st Hm) as (r & -> & ? & ? & ?).
      exists r, (json_text (ser_resource res)). rewrite Jr. split_and!; try done. by apply resource_roundtrip.
  - intros path Hp Hm. unfold answer, RemoteAuthProvider.handle_request, serve_metadata.
    rewrite !elem_of_cons, elem_of_nil in Hp. destruct Hp as [->|[->|[]]].
    + rewrite L1. destruct (refused_method AuthorizationServerMetadataEndpoint (method req) eq_refl Hm) as (r & -> & ? & ?).
      by exists r.
    + rewrite L2. destruct (refused_method ProtectedResourceMetadataEndpoint (method req) eq_refl Hm) as (r & -> & ? & ?).
      by exists r.
  - intros path Hp. unfold answer, RemoteAuthProvider.handle_request, serve_metadata. rewrite L3 by done. by eexists.
Qed.

Lemma metadata_served_witness :
  exists r, RemoteAuthProvider.handle_request (Extra := unit) Some MetadataDemo.json_text
    (RemoteAuthProvider.new MetadataDemo.server MetadataDemo.res (fun _ st => Some (Err InactiveToken, st)) None)
    (s! "/.well-known/oauth-protected-resource/mcp") MetadataDemo.get 0 = Some (Ok r, 0) /\ status r = 200%N.
Proof.
  destruct (metadata_served Some MetadataDemo.json_text MetadataDemo.json_parse MetadataDemo.server MetadataDemo.res
    (fun _ st => Some (Err InactiveToken, st)) None MetadataDemo.get 0
    ltac:(repeat constructor) ltac:(repeat constructor) eq_refl eq_refl) as (_ & Hg & _).
  destruct (Hg eq_refl) as (_ & r & body & Hr & Hs & _). exists r. split; [exact Hr|exact Hs].
Defined.

Ltac member := unfold server_entries; in_entries.
Ltac read_required k u := rewrite (get_str_url _ k u) by member; rewrite (field_absolute _ u) by done.
Ltac read_optional k u := rewrite (get_str_opt_url _ k u) by member; rewrite (optional_absolute _ u) by done.
Ltac read_list k x := rewrite (get_array _ k x) by (done || member).

(** A provider made from a server's discovery document publishes that
    document: fetching the JSON of a server's metadata and building from it
    yields the same metadata, and a resource that names the server's issuer,
    its keys and the required scopes. *)
Theorem discovery_document_rebuilt {Url : Type} `{UrlLib Url} (m : AuthorizationServerMetadata Url)
  (status_error : N -> str) (fetch : str -> AuthMetadataBuilder.reply) (url mcp : str) (r : Url) (scopes : list str) :
  Forall absolute (server_urls m) -> Forall (Forall (fun s => s <> [])) (server_lists m) ->
  client_id_metadata_document_supported m = None ->
  is_some (split_once_str (s! "://") mcp) = true -> url_parse mcp = Ok r ->
  fetch url = Ok (200%N, Ok (ser_server m)) ->
  exists b, AuthMetadataBuilder.from_discovery_url status_error fetch url mcp scopes = Ok b /\
    AuthMetadataBuilder.build b =
      Ok (m, mkResourceMetadata r [issuer m] (jwks_uri m) (Some scopes) None None None None None None None None None None).
Proof.
  unfold server_urls, server_lists. intros [Hu Ho]%Forall_app Hl Hc Hm Hr Hf. apply Forall_omap_id in Ho.
  rewrite !Forall_cons in Hu. rewrite !Forall_cons in Ho. rewrite !Forall_cons in Hl.
  destruct Hu as (H1 & H2 & H3 & _), Ho as (H4 & H5 & H6 & H7 & H8 & _), Hl as [Ht Hl].
  apply Forall_omap_id in Hl. rewrite !Forall_cons in Hl. destruct Hl as (L1 & L2 & L3 & L4 & L5 & L6 & L7 & L8 & L9 & L10 & _).
  unfold AuthMetadataBuilder.from_discovery_url. rewrite Hf. cbn [N.leb].
  assert (Hi : AuthMetadataBuilder.get_str (ser_server m) (s! "issuer") = Some (as_str (issuer m))).
  { apply get_str_url. member. }
  simpl (_ && _). cbv iota. rewrite Hi. eexists. split; [done|].
  unfold AuthMetadataBuilder.build. cbn [AuthMetadataBuilder.text AuthMetadataBuilder.texts AuthMetadataBuilder.flags].
  rewrite (field_absolute _ (issuer m)) by done.
  read_required (s! "authorization_endpoint") (authorization_endpoint m).
  read_required (s! "token_endpoint") (token_endpoint m).
  read_optional (s! "registration_endpoint") (registration_endpoint m).
  read_optional (s! "revocation_endpoint") (revocation_endpoint m).
  read_optional (s! "introspection_endpoint") (introspection_endpoint m).
  read_optional (s! "service_documentation") (service_documentation m).
  read_optional (s! "jwks_uri") (jwks_uri m).
  unfold AuthMetadataBuilder.parse_url_field at 1, AuthMetadataBuilder.resolve at 1. rewrite Hm, Hr.
  cbn [AuthMetadataBuilder.parse_optional_url_field ok_or]. rewrite bool_decide_eq_false_2 by done.
  cbn [collect]. unfold AuthMetadataBuilder.parse_server. rewrite (proj1 H1).
  rewrite (get_vec m (s! "response_types_supported") (response_types_supported m)) by (done || member).
  read_list (s! "scopes_supported") (scopes_supported m).
  read_list (s! "response_modes_supported") (response_modes_supported m).
  read_list (s! "grant_types_supported") (grant_types_supported m).
  read_list (s! "token_endpoint_auth_methods_supported") (token_endpoint_auth_methods_supported m).
  read_list (s! "token_endpoint_auth_signing_alg_values_supported") (token_endpoint_auth_signing_alg_values_supported m).
  read_list (s! "revocation_endpoint_auth_signing_alg_values_supported") (revocation_endpoint_auth_signing_alg_values_supported m).
  read_list (s! "revocation_endpoint_auth_methods_supported") (revocation_endpoint_auth_methods_supported m).
  read_list (s! "introspection_endpoint_auth_methods_supported") (introspection_endpoint_auth_methods_supported m).
  read_list (s! "introspection_endpoint_auth_signing_alg_values_supported") (introspection_endpoint_auth_signing_alg_values_supported m).
  read_list (s! "code_challenge_methods_supported") (code_challenge_methods_supported m).
  rewrite (get_str_text m (s! "userinfo_endpoint") (userinfo_endpoint m)) by member.
  rewrite <-Hc. by destruct m.
Qed.

Lemma discovery_document_rebuilt_witness :
  exists b, AuthMetadataBuilder.from_discovery_url (fun _ => []) (fun _ => Ok (200%N, Ok (ser_server MetadataDemo.server)))
      (s! "https://auth.example/d") (s! "https://mcp.example/mcp") [s! "mcp"] = Ok b /\
    exists r, AuthMetadataBuilder.build b = Ok (MetadataDemo.server, r).
Proof.
  destruct (discovery_document_rebuilt MetadataDemo.server (fun _ => [])
    (fun _ => Ok (200%N, Ok (ser_server MetadataDemo.server))) (s! "https://auth.example/d") (s! "https://mcp.example/mcp")
    (s! "https://mcp.example/mcp") [s! "mcp"]) as (b & Hb & Hd);
    [repeat constructor|repeat (constructor; try discriminate)|reflexivity..|].
  exists b. split; [exact Hb|]. eexists. exact Hd.
Defined.
