(* ===== verification/AuthProviders.v ===== *)
(** * The providers for Keycloak, WorkOS and Scalekit

    Models crates/rust-mcp-extra/src/auth_provider.rs and auth_provider/
    {keycloak,work_os,scalekit}.rs: how their options become metadata documents,
    endpoints and a token verifier.  The three types answer requests alike, with
    Metadata.[serve_metadata]; none overrides [AuthProvider::required_scopes]. *)
From S2P Require Import Prelude RustStr Json Dispatcher Auth Http ServerRuntime Metadata.

(** [resolve_audience] *)
Definition resolve_audience (disable : bool) (explicit : option Audience) (resource : str) : option Audience :=
  if disable then None else Some (from_option id (Auth.Single resource) explicit).

(** The [?] on a [McpSdkError::Internal]. *)
Definition internal {A} (r : result A str) : result A McpSdkError :=
  match r with Ok a => Ok a | Err d => Err (EInternal d) end.

Definition set_some {A} (f : A -> AuthMetadataBuilder.t -> AuthMetadataBuilder.t) (o : option A)
  (b : AuthMetadataBuilder.t) : AuthMetadataBuilder.t :=
  match o with Some a => f a b | None => b end.

Section Providers.
Context {Alg Jwk Url V : Type} `{UrlLib Url} (default_algs : list Alg).

(** The verifier of a provider: the caller's own or the generic one. *)
Inductive TokenVerifier := Custom (v : V) | Generic (v : @Verifier.t Alg Jwk Url).

(** The fields the three provider types share. *)
Record Provider := mkProvider {
  auth_server_meta : AuthorizationServerMetadata Url;
  protected_resource_meta : OauthProtectedResourceMetadata Url;
  endpoint_map : gmap str OauthEndpoint;
  metadata_url : str;
  token_verifier : TokenVerifier;
}.

Definition make_verifier (custom : option V) (strategies : list Verifier.Strategy) (aud : option Audience) (iss : str)
  : result TokenVerifier McpSdkError :=
  match custom with
  | Some v => Ok (Custom v)
  | None => match Verifier.new url_parse default_algs strategies aud (Some iss) None with
            | Ok v => Ok (Generic v)
            | Err e => Err (EAuthentication e)
            end
  end.

(** The URL of the keys, which [build] leaves out when none was given. *)
Definition jwks_of (a : AuthorizationServerMetadata Url) : result str McpSdkError :=
  match jwks_uri a with
  | Some u => Ok (as_str u)
  | None => Err (EInternal (s! "jwks_uri is not defined!"))
  end.

Definition userinfo_at (a : AuthorizationServerMetadata Url) (segment : str) : result str McpSdkError :=
  match join_url (issuer a) segment with
  | Ok u => Ok (as_str u)
  | Err e => Err (EInternal ((s! "invalid userinfo url :") ++ e))
  end.

(** *** Keycloak *)

(** [struct KeycloakAuthOptions] *)
Record KeycloakAuthOptions := mkKeycloak {
  k_base_url : str;
  k_mcp_server_url : str;
  k_required_scopes : option (list str);
  k_client_id : option str;
  k_client_secret : option str;
  k_token_verifier : option V;
  k_resource_name : option str;
  k_resource_documentation : option str;
  k_validate_audience : option Audience;
  k_disable_audience_validation : bool;
}.
Definition KEYCLOAK_SCOPES : list str :=
  [s! "openid"; s! "acr"; s! "basic"; s! "web-origins"; s! "email"; s! "mcp:tools"; s! "address"; s! "profile"; s! "phone";
   s! "roles"; s! "microprofile-jwt"; s! "service_account"; s! "offline_access"; s! "organization"].

Definition keycloak_builder (o : KeycloakAuthOptions) : AuthMetadataBuilder.t :=
  set_some AuthMetadataBuilder.service_documentation (k_resource_documentation o)
    (set_some AuthMetadataBuilder.resource_name (k_resource_name o)
    (set_some AuthMetadataBuilder.reqquired_scopes (k_required_scopes o)
    (AuthMetadataBuilder.scopes_supported (from_option id KEYCLOAK_SCOPES (k_required_scopes o))
    (AuthMetadataBuilder.jwks_uri (s! "/protocol/openid-connect/certs")
    (AuthMetadataBuilder.revocation_endpoint (s! "/protocol/openid-connect/revoke")
    (AuthMetadataBuilder.token_endpoint (s! "/protocol/openid-connect/token")
    (AuthMetadataBuilder.registration_endpoint (s! "/clients-registrations/openid-connect")
    (AuthMetadataBuilder.introspection_endpoint (s! "/protocol/openid-connect/token/introspect")
    (AuthMetadataBuilder.authorization_endpoint (s! "/protocol/openid-connect/auth")
    (AuthMetadataBuilder.authorization_servers [k_base_url o]
    (AuthMetadataBuilder.issuer (k_base_url o)
    (AuthMetadataBuilder.new (k_mcp_server_url o))))))))))))).

(** The verification strategies after the keys. *)
Definition keycloak_remote (o : KeycloakAuthOptions) (a : AuthorizationServerMetadata Url)
  : result (list Verifier.Strategy) McpSdkError :=
  match k_client_id o, k_client_secret o, introspection_endpoint a with
  | Some client_id, Some client_secret, Some uri =>
      Ok [Verifier.Introspection (as_str uri) client_id client_secret true
            (Some [(s! "token_type_hint", s! "access_token")])]
  | _, _, _ =>
      if bool_decide (s! "openid" ∈ from_option id [] (k_required_scopes o))
      then let? uri := userinfo_at a (s! "/protocol/openid-connect/userinfo") in Ok [Verifier.UserInfo uri]
      else Ok []
  end.

Definition keycloak_new (o : KeycloakAuthOptions) : result Provider McpSdkError :=
  let? (endpoints, url) := internal (create_discovery_endpoints (k_mcp_server_url o)) in
  let? (a, p) := internal (AuthMetadataBuilder.build (keycloak_builder o)) in
  let? jwks := jwks_of a in
  let? remote := keycloak_remote o a in
  let validate_audience :=
    resolve_audience (k_disable_audience_validation o) (k_validate_audience o) (k_mcp_server_url o) in
  let? verifier := make_verifier (k_token_verifier o) (Verifier.JWKs jwks :: remote) validate_audience (k_base_url o) in
  Ok (mkProvider a p endpoints url verifier).

(** *** WorkOS *)

(** [struct WorkOSAuthOptions] *)
Record WorkOSAuthOptions := mkWorkOS {
  w_authkit_domain : str;
  w_mcp_server_url : str;
  w_required_scopes : option (list str);
  w_token_verifier : option V;
  w_resource_name : option str;
  w_resource_documentation : option str;
  w_validate_audience : option Audience;
  w_disable_audience_validation : bool;
}.
Definition WORKOS_SCOPES : list str := [s! "email"; s! "offline_access"; s! "openid"; s! "profile"].

Definition workos_builder (o : WorkOSAuthOptions) : AuthMetadataBuilder.t :=
  set_some AuthMetadataBuilder.service_documentation (w_resource_documentation o)
    (set_some AuthMetadataBuilder.resource_name (w_resource_name o)
    (set_some AuthMetadataBuilder.reqquired_scopes (w_required_scopes o)
    (AuthMetadataBuilder.scopes_supported (from_option id WORKOS_SCOPES (w_required_scopes o))
    (AuthMetadataBuilder.jwks_uri (s! "/oauth2/jwks")
    (AuthMetadataBuilder.token_endpoint (s! "/oauth2/token")
    (AuthMetadataBuilder.registration_endpoint (s! "/oauth2/register")
    (AuthMetadataBuilder.introspection_endpoint (s! "/oauth2/introspection")
    (AuthMetadataBuilder.authorization_endpoint (s! "/oauth2/authorize")
    (AuthMetadataBuilder.authorization_servers [w_authkit_domain o]
    (AuthMetadataBuilder.issuer (w_authkit_domain o)
    (AuthMetadataBuilder.new (w_mcp_server_url o)))))))))))).

Definition workos_new (o : WorkOSAuthOptions) : result Provider McpSdkError :=
  let? (endpoints, url) := internal (create_discovery_endpoints (w_mcp_server_url o)) in
  let? (a, p) := internal (AuthMetadataBuilder.build (workos_builder o)) in
  let? jwks := jwks_of a in
  let? userinfo := userinfo_at a (s! "oauth2/userinfo") in
  let validate_audience :=
    resolve_audience (w_disable_audience_validation o) (w_validate_audience o) (w_mcp_server_url o) in
  let? verifier := make_verifier (w_token_verifier o) [Verifier.JWKs jwks; Verifier.UserInfo userinfo]
                     validate_audience (w_authkit_domain o) in
  Ok (mkProvider a p endpoints url verifier).

(** *** Scalekit *)

(** [struct ScalekitAuthOptions] *)
Record ScalekitAuthOptions := mkScalekit {
  s_environment_url : str;
  s_resource_id : str;
  s_mcp_server_url : str;
  s_required_scopes : option (list str);
  s_resource_name : option str;
  s_resource_documentation : option str;
  s_token_verifier : option V;
  s_validate_audience : option Audience;
  s_disable_audience_validation : bool;
}.

Definition environment_url (o : ScalekitAuthOptions) : str :=
  if starts_with (s! "http://") (s_environment_url o) || starts_with (s! "https://") (s_environment_url o)
  then s_environment_url o
  else s! "https://" ++ s_environment_url o.

Definition invalid_url {A} (r : result A str) : result A McpSdkError :=
  match r with Ok a => Ok a | Err e => Err (EInternal ((s! "invalid userinfo url :") ++ e)) end.

(** [None] is the panic of [unwrap] on a failed discovery. *)
Definition scalekit_new (status_error : N -> str) (fetch : str -> AuthMetadataBuilder.reply) (o : ScalekitAuthOptions)
  : option (result Provider McpSdkError) :=
  let required := from_option id [] (s_required_scopes o) in
  match (let? iss := invalid_url (url_parse (environment_url o)) in
         let? discovery := invalid_url (join_url iss ((s! "/.well-known/oauth-authorization-server/resources/") ++ s_resource_id o)) in
         let? (endpoints, url) := internal (create_discovery_endpoints (s_mcp_server_url o)) in
         Ok (iss, discovery, endpoints, url)) with
  | Err e => Some (Err e)
  | Ok (iss, discovery, endpoints, url) =>
      match AuthMetadataBuilder.from_discovery_url status_error fetch (as_str discovery) (s_mcp_server_url o) required with
      | Err _ => None
      | Ok b =>
          Some (
          let b := set_some AuthMetadataBuilder.service_documentation (s_resource_documentation o)
                     (set_some AuthMetadataBuilder.resource_name (s_resource_name o) b) in
          let? server := invalid_url (join_url iss ((s! "/resources/") ++ s_resource_id o)) in
          let b := AuthMetadataBuilder.authorization_servers [as_str server] b in
          let b := if bool_decide (required = []) then b else AuthMetadataBuilder.reqquired_scopes required b in
          let b := set_some AuthMetadataBuilder.service_documentation (s_resource_documentation o)
                     (set_some AuthMetadataBuilder.resource_name (s_resource_name o) b) in
          let? (a, p) := internal (AuthMetadataBuilder.build b) in
          let? jwks := jwks_of a in
          let validate_audience :=
            resolve_audience (s_disable_audience_validation o) (s_validate_audience o) (s_mcp_server_url o) in
          let? verifier := make_verifier (s_token_verifier o) [Verifier.JWKs jwks] validate_audience
                             (trim_end_matches "/"%char (as_str iss)) in
          Ok (mkProvider a p endpoints url verifier))
      end
  end.

(** *** The provider at work *)

Section Serving.
Context {H' : Type} `{HeaderMap H'} {Extra St : Type}.
Context (verify : TokenVerifier -> str -> St -> option (result (AuthInfo Extra) AuthenticationError * St)).

Definition handle_request parse_method json_text (p : Provider) (path : str) : Handler H' Extra St :=
  serve_metadata parse_method json_text (endpoint_map p) (auth_server_meta p) (protected_resource_meta p) path.

(** [verify_token] delegates; [required_scopes] is the trait's default. *)
Definition as_provider (p : Provider) : AuthProvider (Extra := Extra) St :=
  Http.mkProvider St (verify (token_verifier p)) None (Some (metadata_url p)).

(** Each type answers with a copy of the same two functions. *)
Definition keycloak_metadata (response_str : str) : result (Response H') McpHttpError := handle_metadata response_str.
Definition workos_metadata (response_str : str) : result (Response H') McpHttpError := handle_metadata response_str.
Definition scalekit_metadata (response_str : str) : result (Response H') McpHttpError := handle_metadata response_str.
Definition workos_handle_request parse_method json_text (p : Provider) (path : str) : Handler H' Extra St :=
  serve_metadata parse_method json_text (endpoint_map p) (auth_server_meta p) (protected_resource_meta p) path.
Definition scalekit_handle_request parse_method json_text (p : Provider) (path : str) : Handler H' Extra St :=
  serve_metadata parse_method json_text (endpoint_map p) (auth_server_meta p) (protected_resource_meta p) path.
Definition workos_as_provider (p : Provider) : AuthProvider (Extra := Extra) St :=
  Http.mkProvider St (verify (token_verifier p)) None (Some (metadata_url p)).
Definition scalekit_as_provider (p : Provider) : AuthProvider (Extra := Extra) St :=
  Http.mkProvider St (verify (token_verifier p)) None (Some (metadata_url p)).
End Serving.
End Providers.
Arguments TokenVerifier : clear implicits.
Arguments Provider : clear implicits.
Arguments KeycloakAuthOptions : clear implicits.
Arguments WorkOSAuthOptions : clear implicits.
Arguments ScalekitAuthOptions : clear implicits.

(** ** Facts *)

Module ProviderFacts.
Import AuthFacts.
Section Config.
Context {Alg Jwk Url V : Type} `{UrlLib Url} (default_algs : list Alg).
Abbreviation Provider := (Provider Alg Jwk Url V).

Lemma unpack_keeps_keys ss (r r' : @Verifier.StrategiesOptions Url) hj ho c :
  Verifier.unpack_all url_parse (r, hj, ho) ss = Ok (r', c) ->
  is_some (Verifier.jwks_uri r) = true -> is_some (Verifier.jwks_uri r') = true.
Proof.
  revert r hj ho. induction ss as [|s ss IH]; simpl; intros r hj ho Hu Hr; [by simplify_eq|].
  destruct (match s with Verifier.Introspection _ _ _ _ _ => _ | _ => _ end) as [[[r1 hj1] ho1]|] eqn:E; [|done].
  apply IH in Hu; [done|].
  destruct s; destruct (url_parse _); by simplify_eq/=.
Qed.

(** The generic verifier checks against the keys, the given audience and the
    issuer without its final slashes. *)
Lemma generic_verifier jwks remote aud iss (tv : TokenVerifier Alg Jwk Url V) :
  make_verifier default_algs None (Verifier.JWKs jwks :: remote) aud iss = Ok tv ->
  exists v, tv = Generic v /\ is_some (Verifier.jwks_uri (Verifier.options v)) = true /\
    Verifier.validate_audience v = aud /\ Verifier.validate_issuer v = Some (trim_end_matches "/"%char iss) /\
    Verifier.allowed_algorithms v = default_algs /\ Verifier.json_web_key_set v = None.
Proof.
  unfold make_verifier, Verifier.new, Verifier.unpack.
  destruct (Verifier.unpack_all url_parse _ _) as [[r c]|] eqn:E; simpl; [|done]. intros [= <-].
  eexists. split; [done|]. split_and!; try done. simpl in E.
  destruct (url_parse jwks) as [u|]; [|done]. by eapply unpack_keeps_keys.
Qed.
End Config.

Section Verified.
Context {Alg Jwk Url Extra : Type} `{EqDecision Alg} (show_alg : Alg -> str).
Context (decode_header : str -> result (Alg * option str) str) (key_id : Jwk -> option str)
  (decoding_key_ok : Jwk -> result unit str)
  (decode : str -> Jwk -> @Verifier.Validation Alg -> result AuthClaims Verifier.decode_error).
Abbreviation verifier := (@Verifier.t Alg Jwk Url).
Abbreviation verify_token introspect user_info fetch_jwks := (Verifier.verify_token (Extra := Extra) show_alg decode_header key_id
  decoding_key_ok decode introspect user_info fetch_jwks).

(** A verifier at work: calls with any tokens and clocks, the remote endpoints
    answering each as they like; [fetched] are the key sets they answered with. *)
Inductive worked (v0 : verifier) : list (list Jwk) -> verifier -> Prop :=
| worked_new : worked v0 [] v0
| worked_call fetched v introspect user_info fetch_jwks now inst token r v' :
    worked v0 fetched v -> verify_token introspect user_info fetch_jwks now inst v token = (r, v') ->
    worked v0 (match fetch_jwks with Ok keys => keys :: fetched | Err _ => fetched end) v'.

(** A call keeps the configuration; the keys it keeps are those there were or those it fetched. *)
Definition same_config (v v' : verifier) : Prop :=
  Verifier.options v' = Verifier.options v /\ Verifier.validate_audience v' = Verifier.validate_audience v /\
  Verifier.validate_issuer v' = Verifier.validate_issuer v /\ Verifier.allowed_algorithms v' = Verifier.allowed_algorithms v.
Definition keys_from (fetch_jwks : result (list Jwk) str) (v v' : verifier) : Prop :=
  Verifier.json_web_key_set v' = Verifier.json_web_key_set v \/
  exists last keys, fetch_jwks = Ok keys /\ Verifier.json_web_key_set v' = Some (last, keys).
Lemma verify_jwks_keeps now fetch_jwks v token (r : option (result (AuthInfo Extra) _)) v' :
  Verifier.verify_jwks show_alg decode_header key_id decoding_key_ok decode fetch_jwks now v token = (r, v') ->
  same_config v v' /\ keys_from fetch_jwks v v'.
Proof.
  unfold Verifier.verify_jwks, same_config, keys_from. destruct (match Verifier.json_web_key_set v with Some _ => _ | None => None end).
  - intros [= _ <-]. auto.
  - destruct fetch_jwks as [keys|]; intros [= _ <-]; split_and!; auto. right. by exists now, keys.
Qed.
Lemma verify_token_keeps introspect user_info fetch_jwks now inst v token r v' :
  verify_token introspect user_info fetch_jwks now inst v token = (r, v') -> same_config v v' /\ keys_from fetch_jwks v v'.
Proof.
  assert (K : same_config v v /\ keys_from fetch_jwks v v) by (split; [done|by left]).
  unfold Verifier.verify_token. destruct (is_some _); [|repeat (case_match || intros [= _ <-]); done].
  destruct (Verifier.verify_jwks _ _ _ _ _ _ _ _ _) as [r1 v1] eqn:E. apply verify_jwks_keeps in E.
  intros Hv. repeat (case_match; simplify_eq; try done).
Qed.
Lemma worked_inv v0 fetched v : Verifier.json_web_key_set v0 = None -> worked v0 fetched v ->
  same_config v0 v /\ forall last keys, Verifier.json_web_key_set v = Some (last, keys) -> keys ∈ fetched.
Proof.
  intros Hn. induction 1 as [|fetched v introspect user_info fetch now inst token r v' _ [(E1 & E2 & E3 & E4) IH] Hv].
  - split; [done|]. congruence.
  - apply verify_token_keeps in Hv as [(F1 & F2 & F3 & F4) Hk]. split; [split_and!; congruence|].
    intros last keys Hs. destruct Hk as [Hk|(l & ks & -> & Hk)].
    + rewrite Hk in Hs. apply IH in Hs. destruct fetch; [by right|done].
    + rewrite Hk in Hs. simplify_eq. left.
Qed.

(** With keys configured, an accepted token has passed the local check. *)
Lemma accepted_locally introspect user_info fetch_jwks now inst (v v' : verifier) token (a : AuthInfo Extra) :
  is_some (Verifier.jwks_uri (Verifier.options v)) = true ->
  verify_token introspect user_info fetch_jwks now inst v token = (Some (Ok a), v') ->
  exists c, locally_verified decode_header key_id decode fetch_jwks v token c.
Proof.
  intros Hk Hv. unfold Verifier.verify_token in Hv. rewrite Hk in Hv.
  destruct (Verifier.verify_jwks _ _ _ _ _ _ _ _ _) as [[[a0|]|] v1] eqn:E; try done.
  destruct (verify_jwks_sound _ _ _ _ _ _ _ _ _ _ _ E) as ((c & Hc & _) & _). by exists c.
Qed.
End Verified.
End ProviderFacts.
Import ProviderFacts.
#[local] Arguments make_verifier : simpl never.

(** ** Claims *)

(** C33. A token for another resource is refused: unless audience validation is
    disabled, a provider that uses the generic verifier accepts a token, now
    and after any number of other verifications, only when a key of its key
    id, from a key set fetched for this call or an earlier one, decodes it
    with one of the default algorithms, for the given audience (by default
    the server's own URL) and for the identity provider as its issuer, both
    claims being required. What decoding checks is the JWT library's. *)
Theorem providers_check_audience {Alg Jwk Url V Extra : Type} `{UrlLib Url} `{EqDecision Alg} (default_algs : list Alg)
  (show_alg : Alg -> str) (decode_header : str -> result (Alg * option str) str) (key_id : Jwk -> option str)
  (decoding_key_ok : Jwk -> result unit str)
  (decode : str -> Jwk -> @Verifier.Validation Alg -> result AuthClaims Verifier.decode_error)
  (p : Provider Alg Jwk Url V) :
  let checks (aud : list str) (iss : str) :=
    exists v0, token_verifier p = Generic v0 /\
    forall fetched v introspect user_info fetch_jwks now inst token (a : AuthInfo Extra) v',
      worked (Extra := Extra) show_alg decode_header key_id decoding_key_ok decode v0 fetched v ->
      Verifier.verify_token show_alg decode_header key_id decoding_key_ok decode introspect user_info fetch_jwks
        now inst v token = (Some (Ok a), v') ->
      exists alg kid keys jwk c,
        decode_header token = Ok (alg, Some kid) /\ alg ∈ default_algs /\
        (fetch_jwks = Ok keys \/ keys ∈ fetched) /\ jwk ∈ keys /\ key_id jwk = Some kid /\
        decode token jwk (Verifier.mkValidation alg (Some aud) (Some iss) (Some [s! "aud"; s! "iss"])) = Ok c in
  let audience mcp (o : option Audience) :=
    match o with None => [mcp] | Some (Auth.Single x) => [x] | Some (Auth.Multiple l) => l end in
  (forall o : KeycloakAuthOptions V, k_token_verifier o = None -> k_disable_audience_validation o = false ->
     keycloak_new default_algs o = Ok p ->
     checks (audience (k_mcp_server_url o) (k_validate_audience o)) (trim_end_matches "/"%char (k_base_url o))) /\
  (forall o : WorkOSAuthOptions V, w_token_verifier o = None -> w_disable_audience_validation o = false ->
     workos_new default_algs o = Ok p ->
     checks (audience (w_mcp_server_url o) (w_validate_audience o)) (trim_end_matches "/"%char (w_authkit_domain o))) /\
  (forall (o : ScalekitAuthOptions V) status_error fetch, s_token_verifier o = None ->
     s_disable_audience_validation o = false -> scalekit_new default_algs status_error fetch o = Some (Ok p) ->
     exists iss, url_parse (environment_url o) = Ok iss /\
       checks (audience (s_mcp_server_url o) (s_validate_audience o))
              (trim_end_matches "/"%char (trim_end_matches "/"%char (as_str iss)))).
Proof.
  intros checks audience.
  assert (K : forall aud mcp iss jwks remote,
    make_verifier default_algs None (Verifier.JWKs jwks :: remote) (resolve_audience false aud mcp) iss = Ok (token_verifier p) ->
    checks (audience mcp aud) (trim_end_matches "/"%char iss)).
  { intros aud mcp iss jwks remote (v0 & Ev & Hk & Ha & Hi & Hl & Hn)%generic_verifier. exists v0. split; [done|].
    intros fetched v introspect user_info fetch now inst token a v' [(E1 & E2 & E3 & E4) Hkeys]%worked_inv Hv; [|done].
    apply accepted_locally in Hv as (c & keys & alg & kid & jwk & Hh & Halg & Hin & Hkid & Hd & Hsrc); [|by rewrite E1].
    exists alg, kid, keys, jwk, c. rewrite E4, Hl in Halg. rewrite E2, E3, Ha, Hi in Hd. split_and!; try done.
    - destruct Hsrc as [|[last Hs]]; [by left|right; by apply Hkeys in Hs].
    - by destruct aud as [[]|]. }
  split_and!.
  - intros o Ho Hd. unfold keycloak_new. rewrite Ho, Hd.
    destruct (internal _) as [[endpoints url]|]; [|done]. destruct (internal _) as [[a r]|]; [|done].
    destruct (jwks_of a); [|done]. destruct (keycloak_remote o a); [|done].
    destruct (make_verifier _ _ _ _ _) eqn:E; [|done]. intros [= <-]. by eapply K.
  - intros o Ho Hd. unfold workos_new. rewrite Ho, Hd.
    destruct (internal _) as [[endpoints url]|]; [|done]. destruct (internal _) as [[a r]|]; [|done].
    destruct (jwks_of a); [|done]. destruct (userinfo_at a _); [|done].
    destruct (make_verifier _ _ _ _ _) eqn:E; [|done]. intros [= <-]. by eapply K.
  - intros o se fetch Ho Hd. unfold scalekit_new. rewrite Ho, Hd.
    destruct (url_parse (environment_url o)) as [iss|]; [|done]. cbn [invalid_url].
    destruct (invalid_url _) as [discovery|]; [|done]. destruct (internal _) as [[endpoints url]|]; [|done].
    destruct (AuthMetadataBuilder.from_discovery_url _ _ _ _ _) as [b|]; [|done]. intros [= Hb]. exists iss. split; [done|].
    revert Hb. destruct (invalid_url _); [|done]. destruct (internal _) as [[ad rd]|]; [|done].
    destruct (jwks_of ad); [|done]. destruct (make_verifier _ _ _ _ _) eqn:E; [|done]. intros [= <-]. by eapply K.
Qed.

(** The providers' required scopes are published but not enforced: whatever
    scopes were required, the middleware accepts a verified token that has
    none of them. *)
Theorem required_scopes_not_enforced {H Alg Jwk Url V Extra St : Type} `{HeaderMapLaws H} `{UrlLib Url}
  (verify : TokenVerifier Alg Jwk Url V -> str -> St -> option (result (AuthInfo Extra) AuthenticationError * St))
  (p : Provider Alg Jwk Url V) (now : N) (h : H) (st st' : St) (v rest : str) (info : AuthInfo Extra) (e : N) :
  hm_get h AUTHORIZATION = Some v -> splitn2 (trim (from_option id [] (to_str h v))) = [s! "Bearer"; rest] ->
  verify (token_verifier p) (trim rest) st = Some (Ok info, st') -> expires_at info = Some e -> (now < e)%N ->
  validate (as_provider verify p) now h st = Some (Ok info, st').
Proof.
  intros Hv Hs Ht He Hn. unfold validate. rewrite Hv, Hs. simpl. rewrite Ht. simpl.
  by rewrite He, (proj2 (N.leb_gt _ _)).
Qed.

Module ProvidersDemo.
Definition options : KeycloakAuthOptions unit :=
  mkKeycloak (s! "https://kc.example/realms/r/") (s! "https://mcp.example/mcp") (Some [s! "openid"; s! "mcp"])
    None None None None None None false.
Lemma keycloak_built : exists p : Provider unit unit SimpleUrl.t unit, keycloak_new [tt] options = Ok p /\
  token_endpoint (auth_server_meta p) = s! "https://kc.example/realms/r/protocol/openid-connect/token" /\
  metadata_url p = s! "https://mcp.example/.well-known/oauth-protected-resource/mcp".
Proof.
  assert (E : match keycloak_new (Jwk := unit) (Url := SimpleUrl.t) [tt] options with
              | Ok p => bool_decide (token_endpoint (auth_server_meta p)
                          = s! "https://kc.example/realms/r/protocol/openid-connect/token" /\
                        metadata_url p = s! "https://mcp.example/.well-known/oauth-protected-resource/mcp")
              | Err _ => false end = true) by (vm_compute; reflexivity).
  destruct (keycloak_new [tt] options) as [p|]; [|done]. exists p. apply bool_decide_eq_true in E. by split.
Qed.
End ProvidersDemo.

(** A provider whose library knows one token, signed with key 7 for the server. *)
Module ProvidersWitness.
Definition plain : KeycloakAuthOptions unit :=
  mkKeycloak (s! "https://kc.example/realms/r/") (s! "https://mcp.example/mcp") None None None None None None None false.
Definition claims : AuthClaims := mkClaims None None None (Some 9%Z) (Some (s! "id")) None None None None.
Definition decode (token : str) (jwk : nat) (val : @Verifier.Validation unit) : result AuthClaims Verifier.decode_error :=
  if bool_decide (token = s! "tok" /\ jwk = 7 /\ Verifier.v_audience val = Some [s! "https://mcp.example/mcp"] /\
                  Verifier.v_issuer val = Some (s! "https://kc.example/realms/r"))
  then Ok claims else Err Verifier.DInvalidToken.
Definition header (token : str) : result (unit * option str) str := Ok (tt, Some (s! "k")).
Definition key_id (jwk : nat) : option str := if bool_decide (jwk = 7) then Some (s! "k") else None.
Abbreviation verify keys v token := (Verifier.verify_token (Url := SimpleUrl.t) (Extra := unit) (fun _ => []) header key_id (fun _ => Ok tt) decode
  (fun _ => Verifier.SendFailed []) (fun _ => Verifier.SendFailed []) keys 1 1 v token).
Abbreviation keycloak := (keycloak_new (Jwk := nat) (Url := SimpleUrl.t) (V := unit) [tt] plain).
(** A first token is refused after its keys were fetched; the second is accepted with the cached keys. *)
Definition run : bool :=
  match keycloak with
  | Ok p => match token_verifier p with
            | Generic v0 => match verify (Err []) (verify (Ok [3; 7]) v0 (s! "other")).2 (s! "tok") with (Some (Ok _), _) => true | _ => false end
            | Custom _ => false
            end
  | Err _ => false
  end.
Lemma ran : exists p v0 r v a v', keycloak = Ok p /\ token_verifier p = Generic v0 /\
  verify (Ok [3; 7]) v0 (s! "other") = (r, v) /\ verify (Err []) v (s! "tok") = (Some (Ok a), v').
Proof.
  assert (H : run = true) by (vm_compute; reflexivity). unfold run in H.
  destruct keycloak as [p|]; [|done]. destruct (token_verifier p) as [|v0] eqn:Ep; [done|].
  destruct (verify (Ok [3; 7]) v0 (s! "other")) as [r v] eqn:E1. cbn [snd] in H.
  destruct (verify (Err []) v (s! "tok")) as [[[a|]|] v'] eqn:E2; try done. by exists p, v0, r, v, a, v'.
Qed.
End ProvidersWitness.

Lemma providers_check_audience_witness :
  exists p v0 r v a v' jwk, ProvidersWitness.keycloak = Ok p /\ token_verifier p = Generic v0 /\
    ProvidersWitness.verify (Ok [3; 7]) v0 (s! "other") = (r, v) /\
    ProvidersWitness.verify (Err []) v (s! "tok") = (Some (Ok a), v') /\
    jwk ∈ [3; 7] /\ ProvidersWitness.key_id jwk = Some (s! "k").
Proof.
  destruct ProvidersWitness.ran as (p & v0 & r & v & a & v' & Ep & Ev & E1 & E2).
  destruct (proj1 (providers_check_audience (V := unit) (Extra := unit) [tt] (fun _ => []) ProvidersWitness.header ProvidersWitness.key_id
    (fun _ => Ok tt) ProvidersWitness.decode p) ProvidersWitness.plain eq_refl eq_refl Ep) as (w & Hw & Hc).
  rewrite Ev in Hw. injection Hw as <-.
  destruct (Hc [[3; 7]] v _ _ _ _ _ _ a v' (worked_call _ _ _ _ _ _ [] _ _ _ (Ok [3; 7]) _ _ _ _ _ (worked_new _ _ _ _ _ _) E1) E2)
    as (alg & kid & keys & jwk & c & Hh & _ & Hk & Hin & Hkid & _).
  destruct Hk as [Hk|Hk]; [discriminate|]. apply list_elem_of_singleton in Hk as ->. injection Hh as _ <-.
  exists p, v0, r, v, a, v', jwk. repeat (split; [assumption|]). exact Hkid.
Defined.
