(* ===== verification/OAuthDiscovery.v ===== *)
(** * Discovery of the authorization server

    Models crates/rust-mcp-sdk/src/auth/client_auth/discovery.rs over a network
    that answers each request as it likes, given every request sent before.
    [Client] is the monad of the client's calls: its state and the requests it
    has sent. *)
From S2P Require Import Prelude RustStr Json Metadata.

(** ** Requests and answers *)

Inductive Content := NoContent | Form (pairs : list (str * str)) | JsonContent (v : Value).
Record HttpRequest := mkHttp {
  verb : str;
  target : str;
  header_list : list (str * str);
  content : Content;
}.

(** An answer: the [WWW-Authenticate] header when present and readable, and
    what reading the body gives. *)
Record HttpReply := mkReply {
  reply_status : N;
  challenge : option str;
  reply_text : result str str;
}.
Definition is_success (r : HttpReply) : bool := ((200 <=? reply_status r) && (reply_status r <? 300))%N.

Definition get (url : str) : HttpRequest := mkHttp (s! "GET") url [] NoContent.

(** The answer to a request after the earlier ones; [Err] is an error of sending. *)
Definition Network : Type := list HttpRequest -> HttpRequest -> result HttpReply str.

(** ** The URLs that are tried *)

Section Candidates.
Context {Url : Type} `{UrlLib Url}.

Definition origin_of (u : Url) : str := url_scheme u ++ s! "://" ++ url_authority u.
Definition trimmed_path (u : Url) : str := trim_end_matches "/"%char (url_path u).
(** [!path.is_empty() && path != "/"] *)
Definition has_path (path : str) : bool := negb (bool_decide (path = [])) && negb (bool_decide (path = s! "/")).

Definition prm_url_candidates (mcp_server_url : str) (explicit_prm_url : option str) : list str :=
  (match explicit_prm_url with
   | Some url => let trimmed := trim url in if bool_decide (trimmed = []) then [] else [trimmed]
   | None => []
   end) ++
  (match url_parse mcp_server_url with
   | Ok parsed =>
       let path := trimmed_path parsed in
       (if has_path path then [origin_of parsed ++ s! "/.well-known/oauth-protected-resource" ++ path] else []) ++
       [origin_of parsed ++ s! "/.well-known/oauth-protected-resource"]
   | Err _ => []
   end).

Definition metadata_url_fallbacks (server_url : str) : list str :=
  match url_parse server_url with
  | Err _ => [trim_end_matches "/"%char server_url ++ s! "/.well-known/oauth-authorization-server"]
  | Ok parsed =>
      let origin := origin_of parsed in
      let path := trimmed_path parsed in
      if has_path path then
        [origin ++ s! "/.well-known/oauth-authorization-server" ++ path;
         origin ++ s! "/.well-known/openid-configuration" ++ path;
         origin ++ path ++ s! "/.well-known/openid-configuration"]
      else
        [origin ++ s! "/.well-known/oauth-authorization-server";
         origin ++ s! "/.well-known/openid-configuration"]
  end.

(** The fallbacks of a server named by the resource, without final slashes. *)
Definition server_fallbacks (auth_server : Url) : list str :=
  metadata_url_fallbacks (trim_end_matches "/"%char (as_str auth_server)).
End Candidates.

(** ** Fetching *)

(** The calls run in any state that records the requests sent. *)
Class Sender (S : Type) := {
  sent : S -> list HttpRequest;
  record_request : HttpRequest -> S -> S;
  sent_record r s : sent (record_request r s) = sent s ++ [r];
}.

Section Fetching.
Context {Url : Type} `{UrlLib Url}.
Context (network : Network) (json_parse : str -> option Value).

Context {S E : Type} `{!Sender S}.
Abbreviation M := (Act S E).

Definition send (r : HttpRequest) : M (result HttpReply str) :=
  fun s => (Ok (network (sent s) r), record_request r s).

(** [response.json::<T>().ok()] of a success. *)
Definition json_of {A} (de : Value -> option A) (r : result HttpReply str) : option A :=
  match r with
  | Ok resp => if is_success resp then
                 match reply_text resp with Ok t => json_parse t ≫= de | Err _ => None end
               else None
  | Err _ => None
  end.

Definition fetch {A} (de : Value -> option A) (url : str) : M (option A) :=
  do r <- send (get url); act_ret (json_of de r).
Definition try_fetch_metadata : str -> M (option (AuthorizationServerMetadata Url)) := fetch de_server.
Definition fetch_protected_resource_metadata : str -> M (option (OauthProtectedResourceMetadata Url)) := fetch de_resource.

(** The loop over candidates that returns at the first success. *)
Fixpoint first_some {A B} (f : A -> M (option B)) (l : list A) : M (option B) :=
  match l with
  | [] => act_ret None
  | x :: r => do o <- f x; match o with Some b => act_ret (Some b) | None => first_some f r end
  end.

Definition discover_protected_resource_metadata (mcp_server_url : str) (explicit_prm_url : option str)
  : M (option (OauthProtectedResourceMetadata Url)) :=
  first_some fetch_protected_resource_metadata (prm_url_candidates mcp_server_url explicit_prm_url).

(** The loop over the servers a resource names. *)
Definition try_servers (servers : list Url) : M (option (Url * AuthorizationServerMetadata Url)) :=
  first_some (fun server =>
    do o <- first_some try_fetch_metadata (server_fallbacks server);
    act_ret ((fun m => (server, m)) <$> o)) servers.

(** [struct OauthServerInfo] *)
Record OauthServerInfo := mkInfo {
  authorization_server_url : str;
  authorization_server_metadata : AuthorizationServerMetadata Url;
  info_resource_metadata : option (OauthProtectedResourceMetadata Url);
}.

Definition discover_oauth_server_info (mcp_server_url : str) (explicit_prm_url : option str) : M (option OauthServerInfo) :=
  do resource_metadata <- discover_protected_resource_metadata mcp_server_url explicit_prm_url;
  do found <- (match resource_metadata with
               | Some prm => try_servers (authorization_servers prm)
               | None => act_ret None
               end);
  match found with
  | Some (server, meta) =>
      act_ret (Some (mkInfo (trim_end_matches "/"%char (as_str server)) meta resource_metadata))
  | None =>
      do meta <- first_some try_fetch_metadata (metadata_url_fallbacks mcp_server_url);
      act_ret ((fun m => mkInfo (trim_end_matches "/"%char mcp_server_url) m resource_metadata) <$> meta)
  end.
End Fetching.
Arguments OauthServerInfo : clear implicits.

(** The requests alone are a state. *)
#[export] Program Instance log_sender : Sender (list HttpRequest) :=
  {| sent l := l; record_request r l := l ++ [r] |}.
Next Obligation. done. Qed.

(** ** Facts *)

Module FetchFacts.
Section Facts.
Context (network : Network) (json_parse : str -> option Value).
Context {S E : Type} `{!Sender S}.

(** A state after more requests. *)
Definition record_all (l : list HttpRequest) (s : S) : S := foldl (fun s r => record_request r s) s l.

Lemma sent_record_all l s : sent (record_all l s) = sent s ++ l.
Proof.
  unfold record_all. revert s. induction l as [|r l IH]; intros s; simpl; [by rewrite app_nil_r|].
  by rewrite IH, sent_record, <-app_assoc.
Qed.
Lemma record_all_app l l' s : record_all l' (record_all l s) = record_all (l ++ l') s.
Proof. unfold record_all. by rewrite foldl_app. Qed.

#[local] Arguments record_all : simpl never.

(** What a URL answers after earlier requests. *)
Definition answer {A} (de : Value -> option A) (hist : list HttpRequest) (url : str) : option A :=
  json_of json_parse de (network hist (get url)).

(** The reference of a search through [urls]: the first that answers, and the
    requests that were sent. *)
Fixpoint first_answer {A} (de : Value -> option A) (hist : list HttpRequest) (urls : list str)
  : option A * list HttpRequest :=
  match urls with
  | [] => (None, [])
  | url :: r =>
      match answer de hist url with
      | Some a => (Some a, [get url])
      | None => let '(o, l) := first_answer de (hist ++ [get url]) r in (o, get url :: l)
      end
  end.

Lemma first_some_fetch {A} (de : Value -> option A) urls s :
  first_some (E := E) (fetch network json_parse de) urls s =
  (Ok (first_answer de (sent s) urls).1, record_all (first_answer de (sent s) urls).2 s).
Proof.
  revert s. induction urls as [|url r IH]; intros s; [done|]. cbn [first_some first_answer].
  unfold act_bind at 1. unfold fetch at 1, act_bind at 1. cbn. fold (answer de (sent s) url).
  destruct (answer de (sent s) url) as [a|]; [done|].
  rewrite IH, sent_record. by destruct (first_answer de (sent s ++ [get url]) r).
Qed.

(** What the reference finds: the earlier URLs do not answer, each asked once. *)
Lemma first_answer_Some {A} (de : Value -> option A) hist urls a l :
  first_answer de hist urls = (Some a, l) ->
  exists before url after, urls = before ++ url :: after /\ l = get <$> (before ++ [url]) /\
    answer de (hist ++ (get <$> before)) url = Some a /\
    (forall b u b', before = b ++ u :: b' -> answer de (hist ++ (get <$> b)) u = None).
Proof.
  revert hist l. induction urls as [|url r IH]; intros hist l; [done|]. cbn [first_answer].
  destruct (answer de hist url) as [x|] eqn:Ex.
  - intros [= -> <-]. exists [], url, r. rewrite app_nil_r. split_and!; try done. by intros [|? ?] ? ?.
  - destruct (first_answer de _ r) as [o l'] eqn:E1. intros [= -> <-].
    apply IH in E1 as (before & u & after & -> & -> & Ha & Hn). exists (url :: before), u, after.
    split_and!; [done..| |].
    + by rewrite fmap_cons, cons_middle, app_assoc.
    + intros [|v b] w b'; [intros [= <- <-]; by rewrite app_nil_r|].
      rewrite <-app_comm_cons. intros [= <- Hb]. rewrite fmap_cons, cons_middle, app_assoc. by eapply Hn.
Qed.
Lemma first_answer_None {A} (de : Value -> option A) hist urls l :
  first_answer de hist urls = (None, l) ->
  l = get <$> urls /\ forall b u b', urls = b ++ u :: b' -> answer de (hist ++ (get <$> b)) u = None.
Proof.
  revert hist l. induction urls as [|url r IH]; intros hist l; [by intros [= <-]; split; [|intros [|? ?] ? ?]|].
  cbn [first_answer]. destruct (answer de hist url) as [x|] eqn:Ex; [done|].
  destruct (first_answer de _ r) as [o l'] eqn:E1. intros [= -> <-].
  apply IH in E1 as [-> Hn]. split; [done|]. intros [|v b] w b'; [intros [= <- <-]; by rewrite app_nil_r|].
  rewrite <-app_comm_cons. intros [= <- Hb]. rewrite fmap_cons, cons_middle, app_assoc. by eapply Hn.
Qed.
Lemma first_answer_found {A} (de : Value -> option A) hist before url after a :
  (forall b u b', before = b ++ u :: b' -> answer de (hist ++ (get <$> b)) u = None) ->
  answer de (hist ++ (get <$> before)) url = Some a ->
  first_answer de hist (before ++ url :: after) = (Some a, get <$> (before ++ [url])).
Proof.
  revert hist. induction before as [|v before IH]; intros hist Hn Ha; cbn [first_answer app].
  - rewrite app_nil_r in Ha. by rewrite Ha.
  - pose proof (Hn [] v before eq_refl) as Hv. rewrite app_nil_r in Hv. rewrite Hv, IH; [done| |].
    + intros b u b' ->. rewrite <-app_assoc. apply (Hn (v :: b) u b' eq_refl).
    + rewrite <-app_assoc. exact Ha.
Qed.
Lemma first_answer_none {A} (de : Value -> option A) hist urls :
  (forall b u b', urls = b ++ u :: b' -> answer de (hist ++ (get <$> b)) u = None) ->
  first_answer de hist urls = (None, get <$> urls).
Proof.
  revert hist. induction urls as [|v urls IH]; intros hist Hn; [done|]. cbn [first_answer].
  pose proof (Hn [] v urls eq_refl) as Hv. rewrite app_nil_r in Hv. rewrite Hv, IH; [done|].
  intros b u b' ->. rewrite <-app_assoc. apply (Hn (v :: b) u b' eq_refl).
Qed.
Lemma first_answer_gets {A} (de : Value -> option A) hist urls :
  Forall (fun r => exists url, r = get url) (first_answer de hist urls).2.
Proof.
  revert hist. induction urls as [|url r IH]; intros hist; [constructor|]. cbn [first_answer].
  destruct (answer de hist url); [by repeat econstructor|].
  specialize (IH (hist ++ [get url])). destruct (first_answer de _ r). constructor; [by eexists|done].
Qed.

(** The search through the servers a resource names. *)
Section Servers.
Context {Url : Type} `{UrlLib Url}.

Fixpoint first_server (hist : list HttpRequest) (servers : list Url)
  : option (Url * AuthorizationServerMetadata Url) * list HttpRequest :=
  match servers with
  | [] => (None, [])
  | server :: r =>
      let '(o, l) := first_answer de_server hist (server_fallbacks server) in
      match o with
      | Some m => (Some (server, m), l)
      | None => let '(o', l') := first_server (hist ++ l) r in (o', l ++ l')
      end
  end.

Lemma try_servers_spec servers s :
  try_servers (E := E) network json_parse servers s =
  (Ok (first_server (sent s) servers).1, record_all (first_server (sent s) servers).2 s).
Proof.
  unfold try_servers. revert s. induction servers as [|server r IH]; intros s; [done|].
  cbn [first_some first_server]. unfold act_bind at 1 2. unfold try_fetch_metadata. rewrite first_some_fetch.
  destruct (first_answer _ _ _) as [[m|] l]; cbn; [done|].
  rewrite IH, sent_record_all. destruct (first_server _ r) as [o' l']. cbn. by rewrite record_all_app.
Qed.

Lemma first_server_gets hist servers : Forall (fun r => exists url, r = get url) (first_server hist servers).2.
Proof.
  revert hist. induction servers as [|server r IH]; intros hist; [constructor|]. cbn [first_server].
  pose proof (first_answer_gets de_server hist (server_fallbacks server)) as Hg.
  destruct (first_answer _ _ _) as [[m|] l]; [done|]. specialize (IH (hist ++ l)).
  destruct (first_server _ r). apply Forall_app. by split.
Qed.
End Servers.
End Facts.
End FetchFacts.
