(* ===== verification/OAuthClient.v ===== *)
(** * The client's OAuth flow

    Models crates/rust-mcp-sdk/src/auth/client_auth/: client.rs
    ([McpAuthConfigBuilder], [McpAuthClient]), pkce.rs, registration.rs,
    error.rs and the trait of store.rs; scopes, tokens, the in-memory store and
    the challenge's parameters are those of Auth.v.

    The client is used by one task at a time.  The authorization server is a
    [Network]; the hash, the base64 encodings and the JSON text are parameters;
    an error of the HTTP library is its text. *)
From S2P Require Import Prelude RustStr Json Dispatcher Auth Http Metadata OAuthDiscovery.
Import InMemoryTokenStore.

(** ** Data *)

(** [enum ClientError] *)
Inductive ClientError :=
| DiscoveryFailed (e : str)
| RegistrationFailed (e : str)
| TokenExchangeFailed (e : str)
| TokenRefreshFailed (e : str)
| NoRegistrationEndpoint
| NoTokenEndpoint
| MissingCredentials
| InvalidResponse (e : str)
| EHttp (e : str)
| EUrl (e : str)
| EJson (e : str)
| EOther (e : str).

(** [struct RegistrationResponse] and its JSON *)
Record RegistrationResponse := mkRegistration {
  reg_client_id : str;
  reg_client_secret : option str;
  client_id_issued_at : option N;
  client_secret_expires_at : option N;
}.
Definition de_registration (v : Value) : option RegistrationResponse :=
  fs ← object_fields v;
  id ← take (s! "client_id") fs;
  secret ← take_opt (s! "client_secret") fs;
  issued ← take_opt (s! "client_id_issued_at") fs;
  expires ← take_opt (s! "client_secret_expires_at") fs;
  Some (mkRegistration id secret issued expires).

(** [TokenResponse] of JSON *)
Definition de_token (v : Value) : option TokenResponse :=
  fs ← object_fields v;
  access ← take (s! "access_token") fs;
  type ← take (s! "token_type") fs;
  expires ← take_opt (s! "expires_in") fs;
  refresh ← take_opt (s! "refresh_token") fs;
  scope ← take_opt (s! "scope") fs;
  Some (mkToken access type expires refresh scope).

(** [trait TokenStore]; the methods may change the store (a clock, I/O). *)
Class TokenStore (TS : Type) := {
  store_access_token : TS -> option str * TS;
  store_refresh_token : TS -> option str * TS;
  store_tokens : TokenResponse -> TS -> result unit str * TS;
  store_clear : TS -> result unit str * TS;
}.

(** [InMemoryTokenStore] with the readings its clock is going to give, the
    last one for good. *)
Record Clocked := mkClocked { readings : list N; cached : InMemoryTokenStore.t }.
Definition tick (s : Clocked) : N * list N :=
  match readings s with
  | [] => (0%N, [])
  | [n] => (n, [n])
  | n :: r => (n, r)
  end.
#[export] Instance in_memory_store : TokenStore Clocked := {
  store_access_token s :=
    match cached s with
    | Some ct =>
        match c_expires_at_secs ct with
        | Some _ => let '(now, r) := tick s in (get_access_token now (cached s), mkClocked r (cached s))
        | None => (Some (c_access_token ct), s)
        end
    | None => (None, s)
    end;
  store_refresh_token s := (get_refresh_token (cached s), s);
  store_tokens t s :=
    match expires_in t with
    | Some _ => let '(now, r) := tick s in (Ok tt, mkClocked r (set_tokens now t (cached s)))
    | None => (Ok tt, mkClocked (readings s) (set_tokens 0 t (cached s)))
    end;
  store_clear s := (Ok tt, mkClocked (readings s) (InMemoryTokenStore.clear (cached s)));
}.

(** ** PKCE *)

Record PkceParams := mkPkce { code_verifier : str; code_challenge : str }.

(** The 16 bytes of a [u128], the lowest first. *)
Fixpoint le_bytes (n : nat) (v : N) : bytes :=
  match n with O => [] | S n => ascii_of_N (v mod 256) :: le_bytes n (v / 256) end.

Section Pkce.
Context (sha256 base64_url_no_pad : bytes -> bytes).

Definition generate_code_verifier (uuid : bytes) (nanos : N) : str :=
  base64_url_no_pad (sha256 (uuid ++ le_bytes 16 nanos)).
Definition compute_code_challenge (verifier : str) : str := base64_url_no_pad (sha256 verifier).
Definition generate_pkce_params (uuid : bytes) (nanos : N) : PkceParams :=
  let code_verifier := generate_code_verifier uuid nanos in
  mkPkce code_verifier (compute_code_challenge code_verifier).
End Pkce.

(** ** The client *)

Section Client.
Context {Url TS : Type} `{UrlLib Url} `{!TokenStore TS}.

(** [struct McpAuthConfig] *)
Record McpAuthConfig := mkConfig {
  server_url : str;
  client_id : option str;
  client_secret : option str;
  scope : option str;
  redirect_uri : option str;
  metadata : option (AuthorizationServerMetadata Url);
  resource_indicator : option str;
  client_metadata_url : option str;
}.

(** [struct McpAuthClient] without its configuration, and the requests it has
    sent. *)
Record McpAuthClient := mkClient {
  token_store : TS;
  discovered_metadata : option (AuthorizationServerMetadata Url);
  discovered_resource_metadata : option (OauthProtectedResourceMetadata Url);
  discovered_www_auth_scope : option str;
  registration : option RegistrationResponse;
  requests : list HttpRequest;
}.
Definition set_metadata (m : AuthorizationServerMetadata Url) (c : McpAuthClient) : McpAuthClient :=
  mkClient (token_store c) (Some m) (discovered_resource_metadata c) (discovered_www_auth_scope c) (registration c) (requests c).
Definition set_resource_metadata (m : OauthProtectedResourceMetadata Url) (c : McpAuthClient) : McpAuthClient :=
  mkClient (token_store c) (discovered_metadata c) (Some m) (discovered_www_auth_scope c) (registration c) (requests c).
Definition set_www_scope (x : str) (c : McpAuthClient) : McpAuthClient :=
  mkClient (token_store c) (discovered_metadata c) (discovered_resource_metadata c) (Some x) (registration c) (requests c).
Definition set_registration (r : RegistrationResponse) (c : McpAuthClient) : McpAuthClient :=
  mkClient (token_store c) (discovered_metadata c) (discovered_resource_metadata c) (discovered_www_auth_scope c) (Some r) (requests c).
Definition set_store (x : TS) (c : McpAuthClient) : McpAuthClient :=
  mkClient x (discovered_metadata c) (discovered_resource_metadata c) (discovered_www_auth_scope c) (registration c) (requests c).
Definition add_request (r : HttpRequest) (c : McpAuthClient) : McpAuthClient :=
  mkClient (token_store c) (discovered_metadata c) (discovered_resource_metadata c) (discovered_www_auth_scope c)
    (registration c) (requests c ++ [r]).

#[export] Program Instance client_sender : Sender McpAuthClient :=
  {| sent := requests; record_request := add_request |}.
Next Obligation. done. Qed.

(** [struct McpAuthConfigBuilder] *)
Record McpAuthConfigBuilder := mkBuilder {
  b_server_url : option str;
  b_client_id : option str;
  b_client_secret : option str;
  b_scope : option str;
  b_redirect_uri : option str;
  b_metadata : option (AuthorizationServerMetadata Url);
  b_token_store : option TS;
  b_resource : option str;
  b_client_metadata_url : option str;
}.
Definition builder : McpAuthConfigBuilder := mkBuilder None None None None None None None None None.
Definition with_server_url (x : str) (b : McpAuthConfigBuilder) : McpAuthConfigBuilder :=
  mkBuilder (Some x) (b_client_id b) (b_client_secret b) (b_scope b) (b_redirect_uri b) (b_metadata b) (b_token_store b)
    (b_resource b) (b_client_metadata_url b).
Definition with_client_id (x : str) (b : McpAuthConfigBuilder) : McpAuthConfigBuilder :=
  mkBuilder (b_server_url b) (Some x) (b_client_secret b) (b_scope b) (b_redirect_uri b) (b_metadata b) (b_token_store b)
    (b_resource b) (b_client_metadata_url b).
Definition with_client_secret (x : str) (b : McpAuthConfigBuilder) : McpAuthConfigBuilder :=
  mkBuilder (b_server_url b) (b_client_id b) (Some x) (b_scope b) (b_redirect_uri b) (b_metadata b) (b_token_store b)
    (b_resource b) (b_client_metadata_url b).
Definition with_scope (x : str) (b : McpAuthConfigBuilder) : McpAuthConfigBuilder :=
  mkBuilder (b_server_url b) (b_client_id b) (b_client_secret b) (Some x) (b_redirect_uri b) (b_metadata b) (b_token_store b)
    (b_resource b) (b_client_metadata_url b).
Definition with_redirect_uri (x : str) (b : McpAuthConfigBuilder) : McpAuthConfigBuilder :=
  mkBuilder (b_server_url b) (b_client_id b) (b_client_secret b) (b_scope b) (Some x) (b_metadata b) (b_token_store b)
    (b_resource b) (b_client_metadata_url b).
Definition with_metadata (x : AuthorizationServerMetadata Url) (b : McpAuthConfigBuilder) : McpAuthConfigBuilder :=
  mkBuilder (b_server_url b) (b_client_id b) (b_client_secret b) (b_scope b) (b_redirect_uri b) (Some x) (b_token_store b)
    (b_resource b) (b_client_metadata_url b).
Definition with_resource (x : str) (b : McpAuthConfigBuilder) : McpAuthConfigBuilder :=
  mkBuilder (b_server_url b) (b_client_id b) (b_client_secret b) (b_scope b) (b_redirect_uri b) (b_metadata b) (b_token_store b)
    (Some x) (b_client_metadata_url b).
Definition with_client_metadata_url (x : str) (b : McpAuthConfigBuilder) : McpAuthConfigBuilder :=
  mkBuilder (b_server_url b) (b_client_id b) (b_client_secret b) (b_scope b) (b_redirect_uri b) (b_metadata b) (b_token_store b)
    (b_resource b) (Some x).
Definition with_token_store (x : TS) (b : McpAuthConfigBuilder) : McpAuthConfigBuilder :=
  mkBuilder (b_server_url b) (b_client_id b) (b_client_secret b) (b_scope b) (b_redirect_uri b) (b_metadata b) (Some x)
    (b_resource b) (b_client_metadata_url b).

(** [build]; [default_store] is the in-memory store. *)
Definition build (default_store : TS) (b : McpAuthConfigBuilder) : result (McpAuthConfig * McpAuthClient) ClientError :=
  let? url := ok_or (b_server_url b) (EOther (s! "server_url is required")) in
  Ok (mkConfig url (b_client_id b) (b_client_secret b) (b_scope b) (b_redirect_uri b) (b_metadata b) (b_resource b)
        (b_client_metadata_url b),
      mkClient (from_option id default_store (b_token_store b)) None None None None []).
End Client.
Arguments McpAuthConfig : clear implicits.
Arguments McpAuthClient : clear implicits.
Arguments McpAuthConfigBuilder : clear implicits.

(** ** Its operations *)

Module McpAuthClient.
Section Operations.
Context {Url TS : Type} `{UrlLib Url} `{!TokenStore TS}.
Context (network : Network) (json_parse : str -> option Value) (decode_error : str -> str) (base64_encode : str -> str).
Context (config : McpAuthConfig Url).
Abbreviation state := (McpAuthClient Url TS).
Abbreviation M := (Act state ClientError).

(** A call of the token store. *)
Definition on_store {A} (f : TS -> A * TS) : M A :=
  fun c => let '(a, x) := f (token_store c) in (Ok a, set_store x c).

Definition post_json (url : str) (headers : list (str * str)) (v : Value) : HttpRequest :=
  mkHttp (s! "POST") url headers (JsonContent v).
Definition post_form (url : str) (headers : list (str * str)) (form : list (str * str)) : HttpRequest :=
  mkHttp (s! "POST") url headers (Form form).

(** *** Discovery *)

(** serde_json's map keeps its keys sorted. *)
Definition probe_body : Value :=
  VObject [(s! "id", VNumber 0); (s! "jsonrpc", VString (s! "2.0")); (s! "method", VString (s! "initialize"));
           (s! "params", VObject [(s! "capabilities", VObject []);
              (s! "clientInfo", VObject [(s! "name", VString (s! "mcp-auth-client")); (s! "version", VString (s! "1.0.0"))]);
              (s! "protocolVersion", VString (s! "2025-11-25"))])].
Definition probe : HttpRequest :=
  post_json (server_url config)
    [(s! "Content-Type", s! "application/json"); (s! "Accept", s! "application/json, text/event-stream")] probe_body.

Definition probe_for_resource_metadata : M (option str) :=
  do r <- send network probe;
  match r with
  | Err _ => act_ret None
  | Ok resp =>
      let www_auth := from_option id [] (challenge resp) in
      do _ <- (match WwwAuthenticate.parse_www_authenticate_param www_auth (s! "scope") with
               | Some scope => act_modify (set_www_scope scope)
               | None => act_ret tt
               end);
      act_ret (WwwAuthenticate.parse_www_authenticate_param www_auth (s! "resource_metadata"))
  end.

Definition found (m : AuthorizationServerMetadata Url) : M (AuthorizationServerMetadata Url) :=
  do _ <- act_modify (set_metadata m); act_ret m.

Definition discover_metadata : M (AuthorizationServerMetadata Url) :=
  match metadata config with
  | Some m => found m
  | None =>
  do cached <- act_get discovered_metadata;
  match cached with
  | Some m => act_ret m
  | None =>
  do direct <- first_some (try_fetch_metadata network json_parse) (metadata_url_fallbacks (Url := Url) (server_url config));
  match direct with
  | Some m => found m
  | None =>
  do explicit_prm <- probe_for_resource_metadata;
  do prm <- discover_protected_resource_metadata network json_parse (server_url config) explicit_prm;
  do o <- (match prm with
           | None => act_ret None
           | Some prm =>
               do _ <- act_modify (set_resource_metadata prm);
               try_servers network json_parse (authorization_servers prm)
           end);
  match o with
  | Some (_, m) => found m
  | None => act_fail (DiscoveryFailed (s! "metadata not found at any tried URL"))
  end end end end.

Definition ensure_metadata : M (AuthorizationServerMetadata Url) := discover_metadata.

Definition scope_of (c : state) : option str :=
  Scope.select_scope (discovered_www_auth_scope c) (discovered_resource_metadata c ≫= r_scopes_supported) (scope config).
Definition resolved_scope : M (option str) := act_get scope_of.
Definition resource_metadata : M (option (OauthProtectedResourceMetadata Url)) := act_get discovered_resource_metadata.

(** *** Registration *)

Definition registered (r : RegistrationResponse) : M RegistrationResponse :=
  do _ <- act_modify (set_registration r); act_ret r.

Definition show_http (status : N) (body : result str str) : str :=
  (s! "HTTP ") ++ show_N status ++ (s! ": ") ++ match body with Ok t => t | Err _ => [] end.

(** [response.json().await?] *)
Definition read_json {A} (de : Value -> option A) (body : result str str) : result A ClientError :=
  match body with
  | Err e => Err (EHttp e)
  | Ok t => match json_parse t ≫= de with Some a => Ok a | None => Err (EHttp (decode_error t)) end
  end.

(** Sending, the check of the status and reading the answer. *)
Definition call {A} (r : HttpRequest) (fail : str -> ClientError) (de : Value -> option A) : M A :=
  do resp <- send network r;
  match resp with
  | Err e => act_fail (EHttp e)
  | Ok resp =>
      if is_success resp then act_lift (read_json de (reply_text resp))
      else act_fail (fail (show_http (reply_status resp) (reply_text resp)))
  end.

Definition registration_body (scope : option str) : Value :=
  VObject ([(s! "client_name", VString (s! "rust-mcp-client"));
            (s! "grant_types", VArray [VString (s! "client_credentials")])] ++
           match scope with Some x => [(s! "scope", VString x)] | None => [] end).

(** Whether the configured metadata document serves as the client's id. *)
Definition uses_metadata_url (m : AuthorizationServerMetadata Url) : option str :=
  match client_metadata_url config with
  | Some url => if bool_decide (client_id_metadata_document_supported m = Some true) then Some url else None
  | None => None
  end.

Definition register : M RegistrationResponse :=
  match client_id config with
  | Some id => registered (mkRegistration id (client_secret config) None None)
  | None =>
  do m <- ensure_metadata;
  match uses_metadata_url m with
  | Some url => registered (mkRegistration url None None None)
  | None =>
  match registration_endpoint m with
  | None => act_fail NoRegistrationEndpoint
  | Some endpoint =>
      do scope <- resolved_scope;
      do reg <- call (post_json (as_str endpoint) [] (registration_body scope)) RegistrationFailed de_registration;
      registered reg
  end end end.

Definition ensure_registration : M (str * option str) :=
  do reg <- register; act_ret (reg_client_id reg, reg_client_secret reg).

(** *** Tokens *)

Definition grant_params (g : GrantType) : list (str * str) :=
  match g with
  | ClientCredentials => []
  | AuthorizationCode code redirect_uri => [(s! "code", code); (s! "redirect_uri", redirect_uri)]
  | AuthorizationCodePkce code redirect_uri code_verifier =>
      [(s! "code", code); (s! "redirect_uri", redirect_uri); (s! "code_verifier", code_verifier)]
  | RefreshToken refresh_token => [(s! "refresh_token", refresh_token)]
  end.
Definition optional_param (k : str) (o : option str) : list (str * str) :=
  match o with Some v => [(k, v)] | None => [] end.

Definition token_form (g : GrantType) (client_id : str) (scope : option str) : list (str * str) :=
  [(s! "grant_type", grant_as_str g); (s! "client_id", client_id)] ++ grant_params g ++
  optional_param (s! "scope") scope ++ optional_param (s! "resource") (resource_indicator config).

Definition uses_post (m : AuthorizationServerMetadata Url) : bool :=
  match token_endpoint_auth_methods_supported m with
  | Some methods => bool_decide (s! "client_secret_post" ∈ methods)
  | None => false
  end.

Definition token_request (m : AuthorizationServerMetadata Url) (g : GrantType) (client_id : str) (client_secret : option str)
  (scope : option str) : HttpRequest :=
  let form := token_form g client_id scope in
  let url := as_str (token_endpoint m) in
  match client_secret with
  | None => post_form url [] form
  | Some secret =>
      if uses_post m then post_form url [] (form ++ [(s! "client_secret", secret)])
      else post_form url [(s! "Authorization", (s! "Basic ") ++ base64_encode (client_id ++ s! ":" ++ secret))] form
  end.

Definition exchange_token (g : GrantType) : M TokenResponse :=
  do m <- ensure_metadata;
  do reg <- ensure_registration;
  do scope <- resolved_scope;
  do token <- call (token_request m g reg.1 reg.2 scope) TokenExchangeFailed de_token;
  do _ <- on_store (store_tokens token);
  act_ret token.

Definition authenticate : M TokenResponse := exchange_token ClientCredentials.
Definition refresh (refresh_token : str) : M TokenResponse := exchange_token (RefreshToken refresh_token).

Definition redirect_required : ClientError := EOther (s! "redirect_uri is required for the authorization_code flow").

Definition complete_authorization_code_flow (code code_verifier : str) : M TokenResponse :=
  match redirect_uri config with
  | None => act_fail redirect_required
  | Some redirect_uri => exchange_token (AuthorizationCodePkce code redirect_uri code_verifier)
  end.

Definition authorization_params (client_id redirect_uri : str) (pkce : PkceParams) (scope state : option str)
  : list (str * str) :=
  [(s! "response_type", s! "code"); (s! "client_id", client_id); (s! "redirect_uri", redirect_uri);
   (s! "code_challenge", code_challenge pkce); (s! "code_challenge_method", s! "S256")] ++
  optional_param (s! "resource") (resource_indicator config) ++
  match scope with Some x => if bool_decide (x = []) then [] else [(s! "scope", x)] | None => [] end ++
  optional_param (s! "state") state.

Definition build_authorization_url (pkce : PkceParams) (scope state : option str) : M str :=
  do m <- ensure_metadata;
  do reg <- register;
  match redirect_uri config with
  | None => act_fail redirect_required
  | Some redirect_uri =>
      act_ret (as_str (append_pairs (authorization_endpoint m)
        (authorization_params (reg_client_id reg) redirect_uri pkce scope state)))
  end.

(** [match self.refresh(..)]: the error is only logged. *)
Definition attempt {A} (m : M A) : M (result A ClientError) :=
  fun c => let '(r, c) := m c in (Ok r, c).

Definition reauthenticate : M str :=
  do _ <- on_store store_clear;
  do token <- authenticate;
  act_ret (access_token token).

Definition get_token : M str :=
  do o <- on_store store_access_token;
  match o with
  | Some token => act_ret token
  | None =>
  do o <- on_store store_refresh_token;
  match o with
  | None => reauthenticate
  | Some refresh_token =>
      do r <- attempt (refresh refresh_token);
      match r with
      | Ok new_token => do _ <- on_store (store_tokens new_token); act_ret (access_token new_token)
      | Err _ => reauthenticate
      end
  end end.

Definition get_auth_headers : M (gmap str str) :=
  do token <- get_token;
  act_ret (<[s! "Authorization" := (s! "Bearer ") ++ token]> ∅).
End Operations.
End McpAuthClient.

(** ** Facts *)

Module ClientFacts.
Import McpAuthClient FetchFacts.
Section Facts.
Context {Url TS : Type} `{UrlLib Url} `{!TokenStore TS}.
Context (network : Network) (json_parse : str -> option Value) (decode_error : str -> str) (base64_encode : str -> str).
Context (config : McpAuthConfig Url).
Abbreviation state := (McpAuthClient Url TS).
Implicit Types c : state.

(** The client after more requests. *)
Definition add_requests (l : list HttpRequest) c : state :=
  mkClient (token_store c) (discovered_metadata c) (discovered_resource_metadata c) (discovered_www_auth_scope c)
    (registration c) (requests c ++ l).
Lemma record_all_client l c : record_all l c = add_requests l c.
Proof.
  unfold add_requests. revert c. induction l as [|r l IH]; intros [ts dm dr ds rg rq].
  - unfold record_all. simpl. by rewrite app_nil_r.
  - change (record_all l (add_request r (mkClient ts dm dr ds rg rq)) = mkClient ts dm dr ds rg (rq ++ r :: l)).
    rewrite IH. simpl. by rewrite <-app_assoc.
Qed.

Lemma first_some_client {A} (de : Value -> option A) urls c :
  first_some (E := ClientError) (fetch network json_parse de) urls c =
  (Ok (first_answer network json_parse de (requests c) urls).1,
   add_requests (first_answer network json_parse de (requests c) urls).2 c).
Proof. by rewrite first_some_fetch, record_all_client. Qed.
Lemma try_servers_client servers c :
  try_servers (E := ClientError) network json_parse servers c =
  (Ok (first_server network json_parse (requests c) servers).1,
   add_requests (first_server network json_parse (requests c) servers).2 c).
Proof. by rewrite try_servers_spec, record_all_client. Qed.

(** The challenge's scope is kept when there is one. *)
Definition set_scope_opt (o : option str) c : state := match o with Some x => set_www_scope x c | None => c end.
Definition probe_challenge (hist : list HttpRequest) : option str :=
  match network hist (probe config) with
  | Ok resp => Some (from_option id [] (challenge resp))
  | Err _ => None
  end.
Definition challenge_param (hist : list HttpRequest) (name : str) : option str :=
  probe_challenge hist ≫= fun w => WwwAuthenticate.parse_www_authenticate_param w name.

Lemma add_add l l' c : add_requests l' (add_requests l c) = add_requests (l ++ l') c.
Proof. unfold add_requests. simpl. by rewrite app_assoc. Qed.
Lemma add_scope l o c : add_requests l (set_scope_opt o c) = set_scope_opt o (add_requests l c).
Proof. by destruct o. Qed.
Lemma add_prm l p c : add_requests l (set_resource_metadata p c) = set_resource_metadata p (add_requests l c).
Proof. done. Qed.
Lemma requests_scope o c : requests (set_scope_opt o c) = requests c.
Proof. by destruct o. Qed.

Lemma probe_eq c :
  probe_for_resource_metadata network config c =
  (Ok (challenge_param (requests c) (s! "resource_metadata")),
   set_scope_opt (challenge_param (requests c) (s! "scope")) (add_requests [probe config] c)).
Proof.
  unfold probe_for_resource_metadata, challenge_param, probe_challenge.
  unfold act_bind at 1. unfold send. cbn [sent record_request client_sender].
  destruct (network (requests c) (probe config)) as [resp|e]; [|done]. cbn [mbind option_bind].
  unfold act_bind. by destruct (WwwAuthenticate.parse_www_authenticate_param _ (s! "scope")).
Qed.

(** The second phase of discovery: the resource's metadata, then its servers. *)
Definition direct (hist : list HttpRequest) : option (AuthorizationServerMetadata Url) * list HttpRequest :=
  first_answer network json_parse de_server hist (metadata_url_fallbacks (Url := Url) (server_url config)).
Definition phase2 (hist : list HttpRequest)
  : option (OauthProtectedResourceMetadata Url) * option (AuthorizationServerMetadata Url) * list HttpRequest :=
  let hist1 := hist ++ [probe config] in
  let '(prm, l) := first_answer network json_parse de_resource hist1
    (prm_url_candidates (Url := Url) (server_url config) (challenge_param hist (s! "resource_metadata"))) in
  match prm with
  | None => (None, None, probe config :: l)
  | Some p => let '(o, l') := first_server network json_parse (hist1 ++ l) (authorization_servers p) in
              (Some p, snd <$> o, probe config :: l ++ l')
  end.
Definition set_prm_opt (o : option (OauthProtectedResourceMetadata Url)) c : state :=
  match o with Some p => set_resource_metadata p c | None => c end.

Lemma discover_eq c :
  metadata config = None -> discovered_metadata c = None ->
  discover_metadata network json_parse config c =
  match direct (requests c) with
  | (Some m, l) => (Ok m, set_metadata m (add_requests l c))
  | (None, l) =>
      let hist := requests c ++ l in
      let '(prm, o, l') := phase2 hist in
      let c' := set_prm_opt prm (set_scope_opt (challenge_param hist (s! "scope")) (add_requests (l ++ l') c)) in
      match o with
      | Some m => (Ok m, set_metadata m c')
      | None => (Err (DiscoveryFailed (s! "metadata not found at any tried URL")), c')
      end
  end.
Proof.
  intros Hm Hc. unfold discover_metadata. rewrite Hm. unfold act_get, act_bind at 1. rewrite Hc.
  unfold act_bind at 1, try_fetch_metadata. rewrite first_some_client. unfold direct.
  destruct (first_answer _ _ de_server _ _) as [[m|] l]; [done|]. cbn zeta.
  cbn [fst snd]. unfold act_bind at 1. rewrite probe_eq. cbn [snd].
  change (requests (add_requests l c)) with (requests c ++ l). set (hist := requests c ++ l).
  unfold discover_protected_resource_metadata, fetch_protected_resource_metadata, act_bind at 1.
  rewrite first_some_client.
  rewrite requests_scope. cbn [requests add_requests]. unfold phase2. fold hist.
  destruct (first_answer _ _ de_resource _ _) as [[p|] l2]; cbn [fst snd].
  - unfold act_bind at 1 2, act_modify. rewrite try_servers_client.
    change (requests (set_resource_metadata p ?x)) with (requests x).
    rewrite !add_prm, !add_scope, !add_add, requests_scope. cbn [requests add_requests].
    rewrite <-!app_assoc. fold hist.
    replace (requests c ++ l ++ [probe config] ++ l2) with (hist ++ [probe config] ++ l2)
      by (unfold hist; rewrite <-!app_assoc; reflexivity).
    destruct (first_server _ _ _ _) as [[[srv m]|] l']; cbn; by rewrite <-?app_assoc.
  - cbn. by rewrite add_scope, !add_add, <-?app_assoc.
Qed.

(** What discovery sends: plain GETs and the probe, nothing of the client's. *)
Definition discovery_request (r : HttpRequest) : Prop := r = probe config \/ exists url, r = get url.

Lemma gets_discovery l : Forall (fun r => exists url, r = get url) l -> Forall discovery_request l.
Proof. intros Hl. eapply Forall_impl; [exact Hl|]. by right. Qed.
Lemma direct_requests hist : Forall discovery_request (direct hist).2.
Proof. apply gets_discovery, first_answer_gets. Qed.
Lemma phase2_requests hist : Forall discovery_request (phase2 hist).2.
Proof.
  unfold phase2. pose proof (first_answer_gets network json_parse de_resource (hist ++ [probe config])
    (prm_url_candidates (Url := Url) (server_url config) (challenge_param hist (s! "resource_metadata")))) as Hg.
  destruct (first_answer _ _ de_resource _ _) as [[p|] l].
  - pose proof (first_server_gets network json_parse ((hist ++ [probe config]) ++ l) (authorization_servers p)) as Hs.
    destruct (first_server _ _ _ _). constructor; [by left|]. apply Forall_app. split; by apply gets_discovery.
  - constructor; [by left|]. by apply gets_discovery.
Qed.

(** Discovery in one picture: what it may touch, and what it leaves behind. *)
Definition discovered r c c' : Prop :=
  token_store c' = token_store c /\ registration c' = registration c /\
  (exists l, requests c' = requests c ++ l /\ Forall discovery_request l) /\
  match r with
  | Ok m => discovered_metadata c' = Some m
  | Err e => e = DiscoveryFailed (s! "metadata not found at any tried URL") /\ discovered_metadata c' = None
  end.

Lemma discover_spec c r c' : discover_metadata network json_parse config c = (r, c') -> discovered r c c'.
Proof.
  unfold discovered. destruct (metadata config) as [m|] eqn:Em.
  { unfold discover_metadata. rewrite Em. intros [= <- <-]. split_and!; try done. exists []. by rewrite app_nil_r. }
  destruct (discovered_metadata c) as [m|] eqn:Ec.
  { unfold discover_metadata. rewrite Em. unfold act_get, act_bind at 1. rewrite Ec. intros [= <- <-].
    split_and!; try done. exists []. by rewrite app_nil_r. }
  rewrite discover_eq by done. pose proof (direct_requests (requests c)) as Hd.
  destruct (direct (requests c)) as [[m|] l]; [intros [= <- <-]; split_and!; try done; by exists l|].
  cbv zeta. pose proof (phase2_requests (requests c ++ l)) as Hp. destruct (phase2 _) as [[prm o] l'].
  assert (Hs : forall x, token_store (set_prm_opt prm (set_scope_opt x (add_requests (l ++ l') c))) = token_store c)
    by (by destruct prm; intros [?|]).
  assert (Hr : forall x, registration (set_prm_opt prm (set_scope_opt x (add_requests (l ++ l') c))) = registration c)
    by (by destruct prm; intros [?|]).
  assert (Hq : forall x, requests (set_prm_opt prm (set_scope_opt x (add_requests (l ++ l') c))) = requests c ++ l ++ l')
    by (by destruct prm; intros [?|]).
  assert (Hm : forall x, discovered_metadata (set_prm_opt prm (set_scope_opt x (add_requests (l ++ l') c))) = discovered_metadata c)
    by (by destruct prm; intros [?|]).
  destruct o as [m|]; intros [= <- <-]; simpl; rewrite ?Hs, ?Hr, ?Hq, ?Hm; split_and!; try done;
    exists (l ++ l'); split; try done; by apply Forall_app.
Qed.

(** Once found, the metadata costs nothing. *)
Lemma discover_again c m c' :
  discover_metadata network json_parse config c = (Ok m, c') ->
  discover_metadata network json_parse config c' = (Ok m, c').
Proof.
  intros Hd. pose proof (discover_spec _ _ _ Hd) as (_ & _ & _ & Hm). revert Hd.
  unfold discover_metadata at 1 2. destruct (metadata config) as [m0|] eqn:Em; [by intros [= <- <-]|].
  intros _. unfold act_get, act_bind at 1. by rewrite Hm.
Qed.

(** *** Registration *)

Lemma call_eq {A} q fail (de : Value -> option A) c :
  call network json_parse decode_error q fail de c =
  (match network (requests c) q with
   | Err e => Err (EHttp e)
   | Ok resp => if is_success resp then read_json json_parse decode_error de (reply_text resp)
                else Err (fail (show_http (reply_status resp) (reply_text resp)))
   end, add_requests [q] c).
Proof.
  unfold call, act_bind, send. cbn [sent client_sender record_request].
  destruct (network _ _) as [resp|e]; [|done]. by destruct (is_success resp).
Qed.

(** What registration leaves alone, with the metadata at hand. *)
Lemma register_spec c m r c' :
  discover_metadata network json_parse config c = (Ok m, c) ->
  register network json_parse decode_error config c = (r, c') ->
  token_store c' = token_store c /\ discovered_metadata c' = discovered_metadata c /\
  scope_of config c' = scope_of config c /\
  (client_id config <> None \/ uses_metadata_url config m <> None -> requests c' = requests c) /\
  (exists l, requests c' = requests c ++ l /\ (length l <= 1)%nat) /\
  match r with
  | Ok reg => registration c' = Some reg /\ forall id, client_id config = Some id -> reg_client_id reg = id
  | Err _ => True
  end.
Proof.
  intros Hd. unfold register. destruct (client_id config) as [id|].
  { intros [= <- <-]. split_and!; try done; [|by intros id' [= <-]]. exists []. by rewrite app_nil_r; split; [|simpl; lia]. }
  unfold act_bind at 1, ensure_metadata. rewrite Hd. destruct (uses_metadata_url config m) as [url|] eqn:Eu.
  { intros [= <- <-]. split_and!; try done. exists []. by rewrite app_nil_r; split; [|simpl; lia]. }
  destruct (registration_endpoint m) as [e|].
  2:{ intros [= <- <-]. split_and!; try done. exists []. by rewrite app_nil_r; split; [|simpl; lia]. }
  unfold resolved_scope, act_get, act_bind at 1 2. rewrite call_eq.
  destruct (match network _ _ with Ok _ => _ | Err _ => _ end) as [reg|err]; intros [= <- <-]; split_and!; try done;
    try (by intros [?|?]); eexists [_]; split; [done|simpl; lia|done|simpl; lia].
Qed.

Lemma uses_post_spec (m : AuthorizationServerMetadata Url) :
  uses_post m = true <-> s! "client_secret_post" ∈ from_option id [] (token_endpoint_auth_methods_supported m).
Proof. unfold uses_post. destruct (token_endpoint_auth_methods_supported m); simpl; [apply bool_decide_eq_true|set_solver]. Qed.

(** The exchange of a grant for a token: the request is the last one. *)
Lemma exchange_spec g c r c' :
  exchange_token network json_parse decode_error base64_encode config g c = (r, c') ->
  match r with
  | Err _ => token_store c' = token_store c /\ exists l, requests c' = requests c ++ l
  | Ok t =>
      exists m reg before resp,
        let q := token_request base64_encode config m g (reg_client_id reg) (reg_client_secret reg) (scope_of config c') in
        discovered_metadata c' = Some m /\ registration c' = Some reg /\
        requests c' = (requests c ++ before) ++ [q] /\
        network (requests c ++ before) q = Ok resp /\ is_success resp = true /\
        read_json json_parse decode_error de_token (reply_text resp) = Ok t /\
        token_store c' = (store_tokens t (token_store c)).2 /\
        (forall id, client_id config = Some id -> reg_client_id reg = id)
  end.
Proof.
  unfold exchange_token, ensure_metadata. unfold act_bind at 1.
  destruct (discover_metadata network json_parse config c) as [[m|e] c1] eqn:Ed.
  2:{ intros [= <- <-]. apply discover_spec in Ed as (? & _ & (l & ? & _) & _). eauto. }
  pose proof (discover_spec _ _ _ Ed) as (Hs1 & _ & (l1 & Hl1 & _) & Hm1). apply discover_again in Ed.
  unfold ensure_registration, act_bind at 1 2.
  destruct (register network json_parse decode_error config c1) as [rr c2] eqn:Er.
  destruct (register_spec _ _ _ _ Ed Er) as (Hs2 & Hm2 & Hsc2 & _ & (l2 & Hl2 & _) & Hr2).
  destruct rr as [reg|e]; [destruct Hr2 as [Hr2 Hid2]|].
  2:{ intros [= <- <-]. split; [congruence|]. exists (l1 ++ l2). by rewrite Hl2, Hl1, <-app_assoc. }
  cbn [act_ret]. unfold act_ret at 1. unfold resolved_scope, act_get, act_bind at 1 2. cbn [fst snd].
  rewrite call_eq. cbn [fst snd].
  destruct (network (requests c2) _) as [resp|e] eqn:En.
  2:{ intros [= <- <-]. split; [simpl; congruence|]. eexists. simpl. by rewrite Hl2, Hl1, <-!app_assoc. }
  destruct (is_success resp) eqn:Es.
  2:{ intros [= <- <-]. split; [simpl; congruence|]. eexists. simpl. by rewrite Hl2, Hl1, <-!app_assoc. }
  destruct (read_json _ _ _ _) as [t|e] eqn:Ej.
  2:{ intros [= <- <-]. split; [simpl; congruence|]. eexists. simpl. by rewrite Hl2, Hl1, <-!app_assoc. }
  unfold on_store, act_bind. simpl. destruct (store_tokens t (token_store c2)) as [a x] eqn:Et. intros [= <- <-].
  exists m, reg, (l1 ++ l2), resp. change (scope_of config (set_store x (add_requests ?l c2))) with (scope_of config c2).
  simpl. rewrite app_assoc, <-Hl1, <-Hl2. split_and!; try done; [congruence|].
  by rewrite <-Hs1, <-Hs2, Et.
Qed.
End Facts.
End ClientFacts.
Import McpAuthClient FetchFacts ClientFacts.

(** ** Claims *)

Section Claims.
Context {Url TS : Type} `{UrlLib Url} `{!TokenStore TS}.
Context (network : Network) (json_parse : str -> option Value) (decode_error : str -> str) (base64_encode : str -> str).
Context (config : McpAuthConfig Url).

(** Discovery: it sends only GETs and the probe, never a credential, and
    touches neither tokens nor registration; configured metadata is used
    without a request; otherwise the first well-known URL that answers decides,
    the earlier ones being asked once each and the later ones not at all;
    only when none answers, the probe and the resource's metadata are tried.
    What was found is kept: asking again sends nothing. *)
Theorem metadata_discovery (c c' : McpAuthClient Url TS) (r : result (AuthorizationServerMetadata Url) ClientError) :
  discover_metadata network json_parse config c = (r, c') ->
  discovered config r c c' /\
  (forall m, r = Ok m -> discover_metadata network json_parse config c' = (Ok m, c')) /\
  (forall m, metadata config = Some m -> r = Ok m /\ requests c' = requests c) /\
  (metadata config = None -> discovered_metadata c = None ->
   let urls := metadata_url_fallbacks (Url := Url) (server_url config) in
   let answers before url := answer network json_parse (de_server (Url := Url)) (requests c ++ (get <$> before)) url in
   (forall before url after m, urls = before ++ url :: after ->
      (forall b u b', before = b ++ u :: b' -> answers b u = None) -> answers before url = Some m ->
      r = Ok m /\ requests c' = requests c ++ (get <$> (before ++ [url]))) /\
   ((forall b u b', urls = b ++ u :: b' -> answers b u = None) ->
      exists l, requests c' = (requests c ++ (get <$> urls)) ++ probe config :: l /\
        Forall (fun q => exists url, q = get url) l)).
Proof.
  intros Hd. split; [by eapply discover_spec|]. split; [intros m ->; by eapply discover_again|].
  split; [|intros Hm Hc urls answers; split].
  - intros m Hm. unfold discover_metadata in Hd. rewrite Hm in Hd. by injection Hd as <- <-.
  - intros before url after m Eu Hn Ha. rewrite discover_eq in Hd by done. unfold direct in Hd. fold urls in Hd.
    rewrite Eu in Hd. rewrite (first_answer_found network json_parse _ _ _ _ _ m Hn Ha) in Hd. by injection Hd as <- <-.
  - intros Hn. rewrite discover_eq in Hd by done. unfold direct in Hd. fold urls in Hd.
    rewrite (first_answer_none network json_parse _ _ _ Hn) in Hd. cbv zeta in Hd. unfold phase2 in Hd.
    match type of Hd with context [first_answer _ _ de_resource ?h ?u] =>
      pose proof (first_answer_gets network json_parse (de_resource (Url := Url)) h u) as Hg end.
    destruct (first_answer _ _ de_resource _ _) as [[p|] l].
    + match type of Hd with context [first_server _ _ ?h ?u] =>
        pose proof (first_server_gets network json_parse (Url := Url) h u) as Hs end.
      destruct (first_server _ _ _ _) as [[[srv m]|] l']; injection Hd as <- <-; exists (l ++ l');
        (split; [|by apply Forall_app]);
        cbn [requests set_metadata set_prm_opt set_resource_metadata]; rewrite requests_scope; simpl; by rewrite <-app_assoc.
    + injection Hd as <- <-. exists l. split; [|done]. cbn [set_prm_opt]. rewrite requests_scope. simpl. by rewrite <-app_assoc.
Qed.

(** C34. A token exchange: success means the last request sent was the POST of
    the grant to the token endpoint of the metadata that was found, for the
    registration that was made and the scope that was selected, that it was
    answered with a success, and that the token was stored; after a failure the
    stored tokens are as before.  The form holds the grant's parameters, and
    a client secret is sent either in it or as basic credentials in the
    Authorization header, never in both and never left out; for a secret that
    was not configured but issued at registration it is in the form exactly
    when the server's metadata lists that method.  (Where a configured secret
    goes is left open: its documentation says the header, the code asks the
    metadata for it too.) *)
Theorem token_exchange (g : GrantType) (c c' : McpAuthClient Url TS) (r : result TokenResponse ClientError) :
  exchange_token network json_parse decode_error base64_encode config g c = (r, c') ->
  match r with
  | Err _ => token_store c' = token_store c
  | Ok t =>
      exists m reg before resp form headers,
        let q := mkHttp (s! "POST") (as_str (token_endpoint m)) headers (Form form) in
        discovered_metadata c' = Some m /\ registration c' = Some reg /\
        requests c' = (requests c ++ before) ++ [q] /\
        network (requests c ++ before) q = Ok resp /\ is_success resp = true /\
        read_json json_parse decode_error de_token (reply_text resp) = Ok t /\
        token_store c' = (store_tokens t (token_store c)).2 /\
        (s! "grant_type", grant_as_str g) ∈ form /\ (s! "client_id", reg_client_id reg) ∈ form /\ grant_params g ⊆ form /\
        (forall s, scope_of config c' = Some s -> (s! "scope", s) ∈ form) /\
        (forall s, resource_indicator config = Some s -> (s! "resource", s) ∈ form) /\
        match reg_client_secret reg with
        | None => headers = [] /\ (s! "client_secret") ∉ form.*1
        | Some secret =>
            let in_form := headers = [] /\ (s! "client_secret", secret) ∈ form in
            let in_header := (s! "client_secret") ∉ form.*1 /\
              headers = [(s! "Authorization", (s! "Basic ") ++ base64_encode (reg_client_id reg ++ s! ":" ++ secret))] in
            (in_form \/ in_header) /\
            (client_secret config = None ->
             if decide (s! "client_secret_post" ∈ from_option id [] (token_endpoint_auth_methods_supported m)) then in_form else in_header)
        end
  end.
Proof.
  intros Hx%exchange_spec. destruct r as [t|]; [|by destruct Hx].
  destruct Hx as (m & reg & before & resp & Hm & Hr & Hq & Hn & Hs & Hj & Ht & _).
  set (form := token_form config g (reg_client_id reg) (scope_of config c')) in *.
  assert (Hf : (s! "grant_type", grant_as_str g) ∈ form /\ (s! "client_id", reg_client_id reg) ∈ form /\ grant_params g ⊆ form /\
    (forall s, scope_of config c' = Some s -> (s! "scope", s) ∈ form) /\
    (forall s, resource_indicator config = Some s -> (s! "resource", s) ∈ form)).
  { unfold form, token_form. split_and!; [by constructor|by do 2 constructor|..].
    - intros x Hx. do 2 (apply list_elem_of_further). rewrite !elem_of_app. by left.
    - intros s ->. rewrite !elem_of_app. right; right; left. by constructor.
    - intros s ->. rewrite !elem_of_app. do 3 right. by constructor. }
  assert (Hk : (s! "client_secret") ∉ form.*1).
  { unfold form, token_form. rewrite !fmap_app, !not_elem_of_app. split_and!; [decided|destruct g; decided| |];
      unfold optional_param; case_match; decided. }
  revert Hq Hn. unfold token_request. fold form.
  destruct (reg_client_secret reg) as [secret|] eqn:Es; [destruct (uses_post m) eqn:Eu|]; intros Hq Hn.
  - exists m, reg, before, resp, (form ++ [(s! "client_secret", secret)]), []. rewrite Es.
    destruct Hf as (F1 & F2 & F3 & F4 & F5). apply uses_post_spec in Eu.
    assert (In : (s! "client_secret", secret) ∈ form ++ [(s! "client_secret", secret)]) by (rewrite elem_of_app, list_elem_of_singleton; by right).
    split_and!; try done; try (intros; rewrite elem_of_app; by auto).
    + intros x Hx. rewrite elem_of_app. left. by apply F3.
    + by left.
    + intros _. by rewrite decide_True.
  - eexists m, reg, before, resp, form, _. rewrite Es. destruct Hf as (F1 & F2 & F3 & F4 & F5).
    split_and!; try done; [by right|]. intros _. rewrite decide_False; [done|]. by rewrite <-uses_post_spec, Eu.
  - eexists m, reg, before, resp, form, _. rewrite Es. destruct Hf as (F1 & F2 & F3 & F4 & F5). by split_and!.
Qed.

(** Registration, whatever was registered before: without a configured id or a
    metadata document that the server accepts, every call registers anew. *)
Theorem registers_every_time (c : McpAuthClient Url TS) m endpoint :
  discover_metadata network json_parse config c = (Ok m, c) ->
  client_id config = None -> uses_metadata_url config m = None -> registration_endpoint m = Some endpoint ->
  requests (register network json_parse decode_error config c).2 =
    requests c ++ [post_json (as_str endpoint) [] (registration_body (scope_of config c))].
Proof.
  intros Hd Hi Hu He. unfold register. rewrite Hi. unfold act_bind at 1, ensure_metadata. rewrite Hd, Hu, He.
  unfold resolved_scope, act_get, act_bind at 1 2. rewrite call_eq. by destruct (match network _ _ with Ok _ => _ | Err _ => _ end).
Qed.

(** C35. The authorization code flow with PKCE: the URL the user is sent to and
    the later exchange of the code agree: the URL asks for the code with the
    S256 challenge of the verifier that the token request carries, and both
    name the same redirect URI and resource, and the same client when its id
    is configured. *)
Theorem authorization_code_flow (sha256 base64_url_no_pad : bytes -> bytes) (uuid : bytes) (nanos : N)
  (scope_arg state_arg : option str) (code url : str) (c c1 c2 c3 : McpAuthClient Url TS) (t : TokenResponse) :
  let pkce := generate_pkce_params sha256 base64_url_no_pad uuid nanos in
  build_authorization_url network json_parse decode_error config pkce scope_arg state_arg c = (Ok url, c1) ->
  complete_authorization_code_flow network json_parse decode_error base64_encode config code (code_verifier pkce) c2
    = (Ok t, c3) ->
  exists redirect id1 id2 m params q form,
    redirect_uri config = Some redirect /\ url = as_str (append_pairs (authorization_endpoint m) params) /\ last (requests c3) = Some q /\ content q = Form form /\
    (s! "code_challenge", base64_url_no_pad (sha256 (code_verifier pkce))) ∈ params /\
    (s! "code_challenge_method", s! "S256") ∈ params /\ (s! "code_verifier", code_verifier pkce) ∈ form /\
    (s! "code", code) ∈ form /\
    (s! "redirect_uri", redirect) ∈ params /\ (s! "redirect_uri", redirect) ∈ form /\
    (s! "client_id", id1) ∈ params /\ (s! "client_id", id2) ∈ form /\
    (forall id, client_id config = Some id -> id1 = id /\ id2 = id) /\
    (forall r, resource_indicator config = Some r -> (s! "resource", r) ∈ params /\ (s! "resource", r) ∈ form).
Proof.
  intros pkce Hb Hx. unfold build_authorization_url in Hb. unfold act_bind at 1, ensure_metadata in Hb.
  destruct (discover_metadata network json_parse config c) as [[m|] c0]; [|done]. unfold act_bind at 1 in Hb.
  destruct (register network json_parse decode_error config c0) as [[reg|] c0'] eqn:Er; [|done].
  unfold complete_authorization_code_flow in Hx. destruct (redirect_uri config) as [redirect|]; [|done].
  injection Hb as <- <-.
  pose proof (exchange_spec _ _ _ _ _ _ _ _ _ Hx) as (m' & reg' & before & resp & Hm & Hr & Hreq & _ & _ & _ & _ & Hid2).
  set (form0 := token_form config (AuthorizationCodePkce code redirect (code_verifier pkce)) (reg_client_id reg') (scope_of config c3)) in *.
  assert (Hform : exists headers form, token_request base64_encode config m' (AuthorizationCodePkce code redirect (code_verifier pkce))
            (reg_client_id reg') (reg_client_secret reg') (scope_of config c3)
            = mkHttp (s! "POST") (as_str (token_endpoint m')) headers (Form form) /\ form0 ⊆ form).
  { unfold token_request. fold form0. destruct (reg_client_secret reg') as [secret|]; [destruct (uses_post m')|];
      do 2 eexists; (split; [reflexivity|]); intros x; [rewrite elem_of_app; by left|done|done]. }
  destruct Hform as (headers & form & Eq & Hsub). rewrite Eq in Hreq.
  eexists redirect, (reg_client_id reg), (reg_client_id reg'), m, _, _, form.
  split_and!; [done|done|rewrite Hreq; apply last_snoc|done|..].
  1,2,5,7: unfold authorization_params; rewrite elem_of_app; left; in_entries.
  1-4: apply Hsub; unfold form0, token_form; cbn [grant_params app]; in_entries.
  - intros id Hid. split; [|by apply Hid2]. unfold register in Er. rewrite Hid in Er. by injection Er as <- <-.
  - intros r Hres. split.
    + unfold authorization_params. rewrite Hres, !elem_of_app. right; left. by constructor.
    + apply Hsub. unfold form0, token_form. rewrite Hres, !elem_of_app. do 3 right. by constructor.
Qed.
End Claims.

(** *** The in-memory store at work *)

Module StoreFacts.
Section Facts.
Context {Url : Type} `{UrlLib Url}.
Context (network : Network) (json_parse : str -> option Value) (decode_error : str -> str) (base64_encode : str -> str).
Context (config : McpAuthConfig Url).
Implicit Types c : McpAuthClient Url Clocked.

(** A token that is 30 seconds from its expiry, or has none. *)
Definition valid_at (now : N) (ct : CachedToken) : Prop :=
  forall e, c_expires_at_secs ct = Some e -> (u64_sat_add now 30 < e)%N.

Lemma access_token_spec (x x' : Clocked) o :
  store_access_token x = (o, x') ->
  cached x' = cached x /\
  match o with
  | Some tok => exists ct, cached x = Some ct /\ c_access_token ct = tok /\ valid_at (tick x).1 ct
  | None => True
  end.
Proof.
  simpl. destruct (cached x) as [ct|] eqn:Ec; [|by intros [= <- <-]].
  destruct (c_expires_at_secs ct) as [e|] eqn:Ee.
  2:{ intros [= <- <-]. split; [done|]. exists ct. split_and!; try done. by intros ? [=]%(eq_trans (eq_sym Ee)). }
  destruct (tick x) as [now l] eqn:Et. intros [= <- <-]. split; [done|]. simpl. unfold cached_is_expired. rewrite Ee. simpl.
  destruct (N.leb_spec e (u64_sat_add now 30)); simpl; [done|]. exists ct. split_and!; try done.
  intros e' He'. by simplify_eq.
Qed.
Lemma tokens_stored t (x : Clocked) :
  exists e, cached (store_tokens t x).2 = Some (mkCached (access_token t) (refresh_token t) e).
Proof. simpl. destruct (expires_in t); [destruct (tick x)|]; by eexists. Qed.

(** A token that was just given out by the token endpoint and stored. *)
Definition granted (c c' : McpAuthClient Url Clocked) (g : GrantType) (t : TokenResponse) : Prop :=
  exists m reg before resp e,
    let q := token_request base64_encode config m g (reg_client_id reg) (reg_client_secret reg) (scope_of config c') in
    requests c' = (requests c ++ before) ++ [q] /\ network (requests c ++ before) q = Ok resp /\
    is_success resp = true /\ read_json json_parse decode_error de_token (reply_text resp) = Ok t /\
    cached (token_store c') = Some (mkCached (access_token t) (refresh_token t) e).

Lemma exchange_granted g c r c' :
  exchange_token network json_parse decode_error base64_encode config g c = (r, c') ->
  match r with
  | Ok t => granted c c' g t
  | Err _ => token_store c' = token_store c /\ exists l, requests c' = requests c ++ l
  end.
Proof.
  intros Hx%exchange_spec. destruct r as [t|]; [|done].
  destruct Hx as (m & reg & before & resp & _ & _ & Hq & Hn & Hs & Hj & Ht & _).
  destruct (tokens_stored t (token_store c)) as [e He]. exists m, reg, before, resp, e. rewrite Ht. by split_and!.
Qed.

Lemma reauthenticate_spec c r c' :
  reauthenticate network json_parse decode_error base64_encode config c = (r, c') ->
  match r with
  | Ok tok => exists t, granted c c' ClientCredentials t /\ access_token t = tok
  | Err _ => cached (token_store c') = None
  end.
Proof.
  unfold reauthenticate, authenticate. unfold act_bind at 1. cbn [on_store store_clear in_memory_store fst snd].
  unfold on_store. cbn [store_clear in_memory_store]. unfold act_bind at 1.
  destruct (exchange_token _ _ _ _ _ _ _) as [[t|e] c1] eqn:Ex; intros [= <- <-].
  - apply exchange_granted in Ex. by exists t.
  - apply exchange_granted in Ex as [-> _]. done.
Qed.

Lemma granted_later c c1 c' g t l : requests c1 = requests c ++ l -> granted c1 c' g t -> granted c c' g t.
Proof.
  intros Hl (m & reg & before & resp & e & Hq & Hn & Hrest). exists m, reg, (l ++ before), resp, e.
  rewrite Hl, <-(app_assoc _ l before) in Hq. rewrite Hl, <-(app_assoc _ l before) in Hn. done.
Qed.
End Facts.
End StoreFacts.
Import StoreFacts.

(** With the in-memory store, [get_token] only returns a token that is
    stored and still more than 30 seconds from its expiry, sending nothing, or
    one that the token endpoint has just given for the stored refresh token or
    for the client's credentials, and which is then stored with its new refresh
    token; after a failure no token is stored. *)
Theorem get_token_fresh {Url : Type} `{UrlLib Url} (network : Network) (json_parse : str -> option Value)
  (decode_error base64_encode : str -> str) (config : McpAuthConfig Url) (c c' : McpAuthClient Url Clocked)
  (r : result str ClientError) :
  get_token network json_parse decode_error base64_encode config c = (r, c') ->
  match r with
  | Ok tok =>
      (exists ct, cached (token_store c) = Some ct /\ c_access_token ct = tok /\
         valid_at (tick (token_store c)).1 ct /\ requests c' = requests c /\ cached (token_store c') = Some ct)
      \/ (exists g t, granted network json_parse decode_error base64_encode config c c' g t /\ access_token t = tok /\
            (g = ClientCredentials \/
             exists ct rt, cached (token_store c) = Some ct /\ c_refresh_token ct = Some rt /\ g = RefreshToken rt))
  | Err _ => cached (token_store c') = None
  end.
Proof.
  unfold get_token. unfold act_bind at 1, on_store at 1.
  destruct (store_access_token (token_store c)) as [o x] eqn:Ea. apply access_token_spec in Ea as [Hx Ho].
  destruct o as [tok|].
  { intros [= <- <-]. left. destruct Ho as (ct & Hct & Htok & Hv). exists ct. split_and!; try done. simpl. by rewrite Hx. }
  unfold act_bind at 1, on_store at 1. cbn [store_refresh_token in_memory_store]. cbn [token_store set_store].
  unfold get_refresh_token. rewrite Hx.
  destruct (cached (token_store c)) as [ct|] eqn:Ect; cbn [mbind option_bind].
  2:{ intros Hr%reauthenticate_spec. destruct r; [|done]. right. destruct Hr as (t & Hg & Ht). exists ClientCredentials, t. auto. }
  destruct (c_refresh_token ct) as [rt|] eqn:Ert.
  2:{ intros Hr%reauthenticate_spec. destruct r; [|done]. right. destruct Hr as (t & Hg & Ht). exists ClientCredentials, t. auto. }
  unfold act_bind at 1, attempt, refresh.
  destruct (exchange_token _ _ _ _ _ _ _) as [[t|e] c1] eqn:Ex; apply exchange_granted in Ex.
  - unfold act_bind, on_store. destruct (tokens_stored t (token_store c1)) as [e' He'].
    destruct (store_tokens t (token_store c1)) as [a y] eqn:Es. intros [= <- <-]. right.
    exists (RefreshToken rt), t. split; [|split; [done|]; right; by exists ct, rt].
    destruct Ex as (m & reg & before & resp & e & Hrest). exists m, reg, before, resp, e'. destruct Hrest as (? & ? & ? & ? & ?). split_and!; try done.
  - destruct Ex as (_ & l & Hl). intros Hr%reauthenticate_spec. destruct r; [|done].
    right. destruct Hr as (t & Hg & Ht). exists ClientCredentials, t. split; [|by auto]. eapply granted_later, Hg. exact Hl.
Qed.

(** ** Witnesses *)

Module OAuthDemo.
Definition config (m : option (AuthorizationServerMetadata SimpleUrl.t)) : McpAuthConfig SimpleUrl.t :=
  mkConfig (s! "https://mcp.example/mcp") (Some (s! "cid")) (Some (s! "sec")) (Some (s! "mcp")) (Some (s! "https://app/cb"))
    m (Some (s! "https://mcp.example/mcp")) None.
Definition client (x : Clocked) : McpAuthClient SimpleUrl.t Clocked := mkClient x None None None None [].
(** The JSON texts the server sends: the metadata, and a token that lasts an
    hour and comes without a refresh token. *)
Definition json_parse (t : str) : option Value :=
  if bool_decide (t = s! "M") then Some (ser_server MetadataDemo.server)
  else if bool_decide (t = s! "T") then
    Some (VObject [(s! "access_token", VString (s! "at")); (s! "token_type", VString (s! "Bearer")); (s! "expires_in", VNumber 3600)])
  else None.
Definition network : Network := fun _ q =>
  if bool_decide (target q = s! "https://mcp.example/.well-known/openid-configuration/mcp")
  then Ok (mkReply 200 None (Ok (s! "M")))
  else if bool_decide (target q = s! "https://auth.example/token") then Ok (mkReply 200 None (Ok (s! "T")))
  else Ok (mkReply 404 None (Ok [])).
Definition discover := discover_metadata (TS := Clocked) network json_parse (config None).
Definition exchange := exchange_token (TS := Clocked) network json_parse (fun _ => []) (fun x => x) (config None).
Definition token := get_token (TS := Clocked) network json_parse (fun _ => []) (fun x => x) (config (Some MetadataDemo.server)).
(** A store whose token, with a refresh token, expires at 1000. *)
Definition stored : Clocked := mkClocked [980; 981; 982]%N (Some (mkCached (s! "old") (Some (s! "rt")) (Some 1000%N))).

Definition pkce : PkceParams := generate_pkce_params (fun x => x) (fun x => x) (s! "u") 7.
Definition auth_url := build_authorization_url (TS := Clocked) network json_parse (fun _ => [])
  (config (Some MetadataDemo.server)) pkce None None (client stored).
Definition visited : McpAuthClient SimpleUrl.t Clocked := auth_url.2.
Definition completed := complete_authorization_code_flow network json_parse (fun _ => []) (fun x => x)
  (config (Some MetadataDemo.server)) (s! "code") (code_verifier pkce) visited.

(** A configured secret, documented for basic authentication, is posted in the
    form when the metadata lists that method. *)
Example configured_secret_posted :
  client_secret (config None) = Some (s! "sec") /\
  last (requests (exchange ClientCredentials (client stored)).2) =
    Some (mkHttp (s! "POST") (s! "https://auth.example/token") []
      (Form [(s! "grant_type", s! "client_credentials"); (s! "client_id", s! "cid"); (s! "scope", s! "mcp");
             (s! "resource", s! "https://mcp.example/mcp"); (s! "client_secret", s! "sec")])).
Proof. vm_compute. split; reflexivity. Qed.

(** The refresh grant is answered without a refresh token: the old one is gone. *)
Example refresh_token_lost :
  let '(r, c) := token (client stored) in
  r = Ok (s! "at") /\ (content <$> last (requests c)) = Some (Form
    [(s! "grant_type", s! "refresh_token"); (s! "client_id", s! "cid"); (s! "refresh_token", s! "rt"); (s! "scope", s! "mcp");
     (s! "resource", s! "https://mcp.example/mcp"); (s! "client_secret", s! "sec")]) /\
  get_refresh_token (cached (token_store c)) = None.
Proof. vm_compute. split_and!; reflexivity. Qed.
End OAuthDemo.
Import OAuthDemo.

Lemma metadata_discovery_witness :
  requests (discover (client stored)).2 =
    [get (s! "https://mcp.example/.well-known/oauth-authorization-server/mcp");
     get (s! "https://mcp.example/.well-known/openid-configuration/mcp")].
Proof.
  destruct (metadata_discovery network json_parse (config None) (client stored) (discover (client stored)).2
    (discover (client stored)).1 (surjective_pairing _)) as (_ & _ & _ & Hd).
  destruct (Hd eq_refl eq_refl) as [Hf _].
  refine (proj2 (Hf [s! "https://mcp.example/.well-known/oauth-authorization-server/mcp"]
    (s! "https://mcp.example/.well-known/openid-configuration/mcp") [s! "https://mcp.example/mcp/.well-known/openid-configuration"]
    MetadataDemo.server _ _ _)).
  - vm_compute. reflexivity.
  - intros [|b [|]] u b' E; [|discriminate|discriminate]. injection E as <- <-. vm_compute. reflexivity.
  - vm_compute. reflexivity.
Defined.

Lemma token_exchange_witness :
  exists t c', exchange ClientCredentials (client stored) = (Ok t, c') /\
    exists form headers, last (requests c') = Some (mkHttp (s! "POST") (s! "https://auth.example/token") headers (Form form)) /\
      ((headers = [] /\ (s! "client_secret", s! "sec") ∈ form) \/
       ((s! "client_secret") ∉ form.*1 /\ headers = [(s! "Authorization", s! "Basic cid:sec")])).
Proof.
  destruct (exchange ClientCredentials (client stored)) as [[t|e] c'] eqn:E; [|vm_compute in E; discriminate].
  exists t, c'. split; [reflexivity|].
  destruct (token_exchange _ _ _ _ _ _ _ _ _ E) as (m & reg & before & resp & form & headers & Hm & Hr & Hq & _ & _ & _ & _ & _ & _ & _ & _ & _ & Hs).
  vm_compute in E. injection E as _ <-. vm_compute in Hm, Hr. injection Hm as <-. injection Hr as <-.
  exists form, headers. split; [rewrite Hq; apply last_snoc|exact (proj1 Hs)].
Defined.

Lemma get_token_fresh_witness :
  exists c', token (client (mkClocked [5]%N (Some (mkCached (s! "old") None (Some 1000%N))))) = (Ok (s! "old"), c') /\
    requests c' = [].
Proof.
  destruct (token (client (mkClocked [5]%N (Some (mkCached (s! "old") None (Some 1000%N)))))) as [r c'] eqn:E.
  pose proof (get_token_fresh _ _ _ _ _ _ _ _ E) as H. vm_compute in E. injection E as <- <-.
  destruct H as [(ct & _ & _ & _ & Hr & _)|(g & t & (m & reg & before & resp & e & Hq & _) & _)].
  - eexists. split; [reflexivity|exact Hr].
  - destruct before; vm_compute in Hq; discriminate.
Defined.

Lemma authorization_code_flow_witness :
  exists url params q form,
    auth_url.1 = Ok url /\ (s! "code_challenge", code_challenge pkce) ∈ (params : list (str * str)) /\
    last (requests completed.2) = Some q /\ content q = Form form /\ (s! "code_verifier", code_verifier pkce) ∈ form.
Proof.
  destruct auth_url as [[url|e] c1] eqn:E1; [|vm_compute in E1; discriminate].
  destruct completed as [[t|e] c3] eqn:E3; [|vm_compute in E3; discriminate].
  destruct (authorization_code_flow network json_parse (fun _ => []) (fun x => x) (config (Some MetadataDemo.server))
    (fun x => x) (fun x => x) (s! "u") 7 None None (s! "code") url (client stored) c1 visited c3 t E1 E3)
    as (redirect & id1 & id2 & m & params & q & form & _ & _ & Hl & Hf & Hc & _ & Hv & _).
  exists url, params, q, form. split_and!; [reflexivity|exact Hc|exact Hl|exact Hf|exact Hv].
Defined.
