(* ===== verification/OAuthFlow.v ===== *)
(** * Authorization, from the server's challenge to the client's metadata

    Composes the server's side of metadata discovery (the authentication
    middleware of Http.v and the [RemoteAuthProvider] of Metadata.v) with the
    client's (OAuthDiscovery.v, OAuthClient.v): the [WWW-Authenticate] header
    the one writes is read by the other, and discovery against a server that is
    protected by the provider ends at the provider's authorization server. *)
From S2P Require Import Prelude RustStr Json Dispatcher Auth Http Metadata OAuthDiscovery OAuthClient.
Import WwwAuthenticate McpAuthClient FetchFacts ClientFacts.

Module FlowFacts.
(** *** The challenge as the client reads it *)

Lemma trim_start_matches_id c s : Forall (fun x => x <> c) s -> trim_start_matches c s = s.
Proof. intros Hs. destruct Hs as [|x s Hx _]; [done|]. simpl. by rewrite decide_False. Qed.
Lemma trim_end_matches_id c s : Forall (fun x => x <> c) s -> trim_end_matches c s = s.
Proof.
  intros Hs. unfold trim_end_matches. rewrite trim_start_matches_id by (by apply Forall_rev). apply rev_involutive.
Qed.

Lemma unquote u : Forall (fun x => x <> QUOTE) u -> trim_matches QUOTE (quoted u) = u.
Proof.
  intros Hu. unfold trim_matches, quoted. change [ascii_of_nat 34] with [QUOTE].
  assert (E : forall s, trim_start_matches QUOTE ([QUOTE] ++ s) = trim_start_matches QUOTE s) by (intros s; reflexivity).
  rewrite E. destruct u as [|x u]; [done|].
  assert (E2 : trim_start_matches QUOTE ((x :: u) ++ [QUOTE]) = (x :: u) ++ [QUOTE]).
  { apply Forall_cons in Hu as [Hx _]. simpl. by rewrite decide_False. }
  rewrite E2. unfold trim_end_matches. rewrite rev_app_distr. change (rev [QUOTE]) with [QUOTE]. rewrite E.
  apply (trim_end_matches_id QUOTE _ Hu).
Qed.

(** A text that can stand in a quoted parameter. *)
Definition param_char (x : ascii) : Prop := graphic x = true /\ x <> ","%char /\ x <> QUOTE.

Definition unauthorized_challenge (url : str) : str :=
  (s! "Bearer error=") ++ quoted (s! "invalid_token") ++ (s! ", error_description=") ++
  quoted (s! "Missing access token in Authorization header") ++ (s! ", resource_metadata=") ++ quoted url.

Lemma challenge_read url :
  Forall param_char url -> url <> [] ->
  parse_www_authenticate_param (unauthorized_challenge url) (s! "resource_metadata") = Some url /\
  parse_www_authenticate_param (unauthorized_challenge url) (s! "scope") = None.
Proof.
  intros Hu Hne.
  set (p1 := (s! " error=") ++ quoted (s! "invalid_token")).
  set (p2 := (s! " error_description=") ++ quoted (s! "Missing access token in Authorization header")).
  set (p3 := (s! "resource_metadata=") ++ quoted url).
  assert (Hq : Forall (fun x => x <> QUOTE) url) by (eapply Forall_impl; [exact Hu|]; by intros x (_ & _ & ?)).
  assert (Hg : Forall (fun x => graphic x = true) (quoted url)).
  { unfold quoted. rewrite !Forall_app. split_and!; [by repeat constructor| |by repeat constructor].
    eapply Forall_impl; [exact Hu|]. by intros x (? & _ & _). }
  assert (Hc : ","%char ∉ s! " " ++ p3).
  { unfold p3, quoted. rewrite !not_elem_of_app. split_and!; try decided.
    intros Hin. rewrite Forall_forall in Hu. by destruct (Hu _ Hin) as (_ & ? & _). }
  assert (Hb : split_char ","%char (strip_scheme (trim_start (unauthorized_challenge url))) = [p1; p2; s! " " ++ p3]).
  { change (strip_scheme (trim_start (unauthorized_challenge url))) with (p1 ++ ","%char :: p2 ++ ","%char :: s! " " ++ p3).
    rewrite split_char_app by decided. rewrite split_char_app by decided. by rewrite split_char_nosep. }
  assert (Ht : trim (s! " " ++ p3) = p3).
  { change (trim (s! " " ++ p3)) with (trim p3). apply trim_trimmed, trimmed_graphic. unfold p3.
    rewrite Forall_app. split; [by repeat constructor|done]. }
  unfold parse_www_authenticate_param. rewrite Hb. split.
  - cbn [find_param]. rewrite Ht.
    change (strip_prefix (s! "resource_metadata" ++ s! "=") (trim p1)) with (@None str).
    change (strip_prefix (s! "resource_metadata" ++ s! "=") (trim p2)) with (@None str). cbv iota beta.
    unfold p3. change (s! "resource_metadata=") with (s! "resource_metadata" ++ s! "="). rewrite strip_prefix_app.
    rewrite (trim_trimmed (quoted url)) by (by apply trimmed_graphic). rewrite unquote by done.
    by rewrite bool_decide_eq_false_2.
  - cbn [find_param]. rewrite Ht.
    change (strip_prefix (s! "scope" ++ s! "=") (trim p1)) with (@None str).
    change (strip_prefix (s! "scope" ++ s! "=") (trim p2)) with (@None str). cbv iota beta.
    change (strip_prefix (s! "scope" ++ s! "=") p3) with (@None str). done.
Qed.

(** *** URLs under one origin *)

Section Origin.
Context {Url : Type} `{UrlLib Url}.

(** No port, no user, and a path without a final slash (or none). *)
Record plain (u : Url) : Prop := {
  plain_authority : url_authority u = from_option id [] (url_host u);
  plain_base : trim_end_matches "/"%char (url_base u) = url_base u;
  plain_path : url_path u = s! "/" \/ (has_path (url_path u) = true /\ trimmed_path u = url_path u /\
                                       exists rest, url_path u = s! "/" ++ rest);
}.

Lemma plain_origin (u : Url) : plain u -> origin_of u = url_base u.
Proof. intros [Ha _ _]. unfold origin_of, url_base. by rewrite Ha. Qed.
Lemma root_no_path (u : Url) : url_path u = s! "/" -> has_path (trimmed_path u) = false.
Proof. intros Hp. unfold trimmed_path. rewrite Hp. by vm_compute. Qed.
End Origin.

(** The three well-known URLs of a path are none of the provider's endpoints. *)
Lemma not_endpoint path rest :
  path = s! "/" ++ rest ->
  let endpoints := [WELL_KNOWN_OAUTH_AUTHORIZATION_SERVER; OAUTH_PROTECTED_RESOURCE_BASE ++ path] in
  s! "/.well-known/oauth-authorization-server" ++ path ∉ endpoints /\
  s! "/.well-known/openid-configuration" ++ path ∉ endpoints /\
  path ++ s! "/.well-known/openid-configuration" ∉ endpoints.
Proof.
  intros Hp endpoints. subst endpoints. unfold WELL_KNOWN_OAUTH_AUTHORIZATION_SERVER, OAUTH_PROTECTED_RESOURCE_BASE.
  rewrite !not_elem_of_cons. split_and!; try apply not_elem_of_nil; intros E; pose proof (f_equal length E) as El;
    rewrite ?length_app in El; try (subst path; simpl in El; lia); try (subst path; discriminate).
  apply (f_equal (@rev ascii)) in E. rewrite rev_app_distr in E. discriminate.
Qed.
End FlowFacts.
Import FlowFacts.

Module Flow.
Section Flow.
Context {H Extra St Url TS : Type} `{HeaderMapLaws H} `{UrlLib Url} `{!TokenStore TS}.
Context (parse_method : str -> option str) (json_text : Value -> str) (json_parse : str -> option Value).
Context (error_code error_text : AuthenticationError -> str) (body_text : Body -> str).
Context (network : Network) (config : McpAuthConfig Url).
Context (p : RemoteAuthProvider.t Extra St Url).

(** A server's answer as the client's HTTP library gives it. *)
Definition reply_of (r : Response H) : HttpReply :=
  mkReply (status r) (get_str (resp_headers r) WWW_AUTHENTICATE) (Ok (body_text (resp_body r))).

Definition metadata_get : Request H Extra := mkRequest (s! "GET") None hm_new [] None.

Definition missing_token : AuthenticationError := InvalidToken (s! "Missing access token in Authorization header").

(** The network as far as the protected server goes: the paths of its origin
    reach the provider, and a request without a token meets the middleware. *)
Record deployed (now : N) (next : Handler H Extra St) (st : St) (probe_request : Request H Extra) : Prop := {
  served hist path : exists r,
    RemoteAuthProvider.handle_request parse_method json_text p (s! "/" ++ path) metadata_get st = Some (Ok r, st) /\
    network hist (get (url_base (resource (RemoteAuthProvider.protected_resource_meta p)) ++ s! "/" ++ path)) = Ok (reply_of r);
  guarded hist : exists r,
    auth_handle error_code error_text (RemoteAuthProvider.as_provider p) now next probe_request st = Some (Ok r, st) /\
    network hist (probe config) = Ok (reply_of r);
  without_token : hm_get (headers probe_request) AUTHORIZATION = None;
}.
End Flow.
End Flow.
Import Flow.

Module DeployedFacts.
Section Facts.
Import ServingFacts MetadataFacts.
Context {H Extra St Url TS : Type} `{HeaderMapLaws H} `{UrlLib Url} `{!TokenStore TS}.
Context (parse_method : str -> option str) (json_text : Value -> str) (json_parse : str -> option Value).
Context (error_code error_text : AuthenticationError -> str) (body_text : Body -> str).
Context (network : Network) (config : McpAuthConfig Url).
Context (server : AuthorizationServerMetadata Url) (res : OauthProtectedResourceMetadata Url).
Context (verify : str -> St -> option (result (AuthInfo Extra) AuthenticationError * St)) (scopes : option (list str)).
Abbreviation p := (RemoteAuthProvider.new server res verify scopes).
Abbreviation base := (url_base (resource res)).
Context (now : N) (next : Handler H Extra St) (st : St) (probe_request : Request H Extra).
Context (D : deployed parse_method json_text error_code error_text body_text network config p now next st probe_request).
Context (Hbody : forall t, body_text (BText t) = t).

(** A path that is no endpoint answers nothing. *)
Lemma other_path {A} (de : Value -> option A) hist path :
  s! "/" ++ path ∉ [WELL_KNOWN_OAUTH_AUTHORIZATION_SERVER; create_protected_resource_metadata_url (url_path (resource res))] ->
  answer network json_parse de hist (base ++ s! "/" ++ path) = None.
Proof.
  intros Hp. destruct (served _ _ _ _ _ _ _ _ _ _ _ _ D hist path) as (r & Hr & Hn).
  unfold answer. change (resource (RemoteAuthProvider.protected_resource_meta p)) with (resource res) in Hn. rewrite Hn.
  unfold RemoteAuthProvider.handle_request, serve_metadata in Hr.
  rewrite !not_elem_of_cons in Hp. simpl in Hr. rewrite !lookup_insert_ne, lookup_empty in Hr by naive_solver.
  by injection Hr as <-.
Qed.

(** An endpoint answers its document. *)
Lemma endpoint_path {A} (de : Value -> option A) hist path e doc a :
  RemoteAuthProvider.endpoint_map p !! (s! "/" ++ path) = Some e ->
  (e = AuthorizationServerMetadataEndpoint /\ doc = ser_server server \/
   e = ProtectedResourceMetadataEndpoint /\ doc = ser_resource res) ->
  json_parse (json_text doc) = Some doc -> de doc = Some a ->
  answer network json_parse de hist (base ++ s! "/" ++ path) = Some a.
Proof.
  intros He Hd Hj Ha. destruct (served _ _ _ _ _ _ _ _ _ _ _ _ D hist path) as (r & Hr & Hn).
  unfold answer. change (resource (RemoteAuthProvider.protected_resource_meta p)) with (resource res) in Hn. rewrite Hn.
  unfold RemoteAuthProvider.handle_request, serve_metadata in Hr. rewrite He in Hr. cbn [method metadata_get] in Hr.
  assert (Hg : cors_handle parse_method default_cors (fun _ st => Some (handle_metadata (json_text doc), st))
                 (metadata_get (Extra := Extra)) st = Some (Ok r, st)).
  { destruct Hd as [[-> ->]|[-> ->]]; by rewrite get_is_allowed in Hr. }
  destruct (document_answer parse_method (json_text doc) (metadata_get (Extra := Extra)) st eq_refl) as (r' & Hr' & Hs & Hb & _).
  rewrite Hg in Hr'. injection Hr' as <-. unfold reply_of, json_of, is_success. simpl. rewrite Hs, Hb, Hbody. simpl.
  by rewrite Hj.
Qed.

Lemma server_answer hist :
  json_parse (json_text (ser_server server)) = Some (ser_server server) -> Forall reparses (server_urls server) ->
  answer network json_parse de_server hist (base ++ WELL_KNOWN_OAUTH_AUTHORIZATION_SERVER) = Some server.
Proof.
  intros Hj Hs. refine (endpoint_path de_server hist (s! ".well-known/oauth-authorization-server")
    AuthorizationServerMetadataEndpoint (ser_server server) server _ _ Hj _); [|by left|by apply server_roundtrip].
  simpl. rewrite lookup_insert_ne; [by rewrite lookup_insert_eq|discriminate].
Qed.
Lemma resource_answer hist :
  json_parse (json_text (ser_resource res)) = Some (ser_resource res) -> Forall reparses (resource_urls res) ->
  answer network json_parse de_resource hist (base ++ create_protected_resource_metadata_url (url_path (resource res))) = Some res.
Proof.
  intros Hj Hs. refine (endpoint_path de_resource hist
    (s! ".well-known/oauth-protected-resource" ++ (if bool_decide (url_path (resource res) = s! "/") then [] else url_path (resource res)))
    ProtectedResourceMetadataEndpoint (ser_resource res) res _ _ Hj _); [|by right|by apply resource_roundtrip].
  simpl. by rewrite lookup_insert_eq.
Qed.

(** The probe gets the provider's challenge. *)
Lemma probe_challenged hist :
  error_code missing_token = s! "invalid_token" ->
  error_text missing_token = s! "Missing access token in Authorization header" ->
  Forall param_char (RemoteAuthProvider.metadata_url p) ->
  probe_challenge network config hist = Some (unauthorized_challenge (RemoteAuthProvider.metadata_url p)).
Proof.
  intros Hc Ht Hu. destruct (guarded _ _ _ _ _ _ _ _ _ _ _ _ D hist) as (r & Hr & Hn).
  unfold probe_challenge. rewrite Hn. f_equal. unfold auth_handle, validate in Hr.
  rewrite (without_token _ _ _ _ _ _ _ _ _ _ _ _ D) in Hr. cbn [mbind option_bind] in Hr. injection Hr as <-.
  assert (Hv : create_www_auth_value error_code error_text (RemoteAuthProvider.as_provider p) missing_token
               = unauthorized_challenge (RemoteAuthProvider.metadata_url p)).
  { unfold create_www_auth_value, unauthorized_challenge. by rewrite Hc, Ht. }
  assert (Hvis : Forall (fun c => visible c = true) (unauthorized_challenge (RemoteAuthProvider.metadata_url p))).
  { unfold unauthorized_challenge, quoted. rewrite !Forall_app. split_and!; try (by repeat constructor).
    eapply Forall_impl; [exact Hu|]. intros x (Hx & _ & _). unfold visible. unfold graphic in Hx. bool_prop.
    apply orb_true_iff. left. apply andb_true_iff. rewrite N.leb_le, N.ltb_lt. lia. }
  cbn [reply_of challenge]. unfold auth_error_response. cbn [auth_error_status missing_token].
  change (InvalidToken _) with missing_token. rewrite Hv, from_str_spec by done.
  unfold get_str. simpl. rewrite get_append, decide_True by done. rewrite get_append, decide_False, get_new by done.
  simpl. by rewrite to_str_visible.
Qed.
End Facts.
End DeployedFacts.
Import DeployedFacts.

(** ** The claim *)


(** ** A deployment *)

Module FlowDemo.
Definition body_text (b : Body) : str := match b with BText t => t | _ => [] end.
Definition error_code (_ : AuthenticationError) : str := s! "invalid_token".
Definition error_text (_ : AuthenticationError) : str := s! "Missing access token in Authorization header".
Definition verify (_ : str) (st : unit) : option (result (AuthInfo unit) AuthenticationError * unit) := Some (Err InactiveToken, st).
Definition provider := RemoteAuthProvider.new MetadataDemo.server MetadataDemo.res verify None.
Definition config : McpAuthConfig SimpleUrl.t := mkConfig (s! "https://mcp.example/mcp") None None None None None None None.
Definition client : McpAuthClient SimpleUrl.t Clocked := mkClient (mkClocked [] None) None None None None [].
Definition ok (_ : Request ListHeaders.t unit) (st : unit) : option (result (Response ListHeaders.t) McpHttpError * unit) :=
  Some (Ok (build_response 200 []), st).
Definition post : Request ListHeaders.t unit := mkRequest (s! "POST") None [] [] None.
Definition reply (o : option (result (Response ListHeaders.t) McpHttpError * unit)) : result HttpReply str :=
  match o with Some (Ok r, _) => Ok (reply_of body_text r) | _ => Err [] end.
Definition base : str := s! "https://mcp.example".
(** The origin's paths reach the provider, the probe the middleware, and the
    authorization server answers with its metadata. *)
Definition network : Network := fun _ q =>
  if bool_decide (verb q = s! "POST") then reply (auth_handle error_code error_text (RemoteAuthProvider.as_provider provider) 0 ok post tt)
  else match strip_prefix base (target q) with
       | Some path => reply (RemoteAuthProvider.handle_request Some MetadataDemo.json_text provider path metadata_get tt)
       | None => Ok (mkReply 200 None (Ok (MetadataDemo.json_text (ser_server MetadataDemo.server))))
       end.

Lemma is_deployed :
  deployed Some MetadataDemo.json_text error_code error_text body_text network config provider 0 ok tt post.
Proof.
  split; [|intros hist; eexists; split; [reflexivity|]; vm_compute; reflexivity|reflexivity].
  intros hist path.
  assert (E : exists r, RemoteAuthProvider.handle_request (H := ListHeaders.t) Some MetadataDemo.json_text provider (s! "/" ++ path) metadata_get tt
              = Some (Ok r, tt)).
  { unfold RemoteAuthProvider.handle_request, serve_metadata. destruct (_ !! _) as [[]|]; by eexists. }
  destruct E as [r E]. exists r. split; [exact E|].
  change (url_base (resource (RemoteAuthProvider.protected_resource_meta provider))) with base.
  unfold network. cbn [verb target get]. rewrite bool_decide_eq_false_2 by done.
  rewrite strip_prefix_app, E. done.
Qed.
End FlowDemo.

