(* ===== verification/JsonSchema.v ===== *)
(** * JSON Schema

    What it means for a document to satisfy a schema, for the keywords the
    library's derived schemas use, with the meaning that drafts 7 and 2020-12 of
    JSON Schema give them; [items] also has draft 7's array form.  The keywords
    of an object are independent assertions, and one that is not listed here
    (description, title, default, format) asserts nothing.  [map_insert] is the
    insertion of [serde_json::Map], which keeps its keys sorted. *)
From Stdlib Require Import Sorted.
From S2P Require Import Prelude RustStr Json.

Abbreviation Map := (list (str * Value)).

(** ** [serde_json::Map] *)

Fixpoint map_insert (k : str) (v : Value) (m : Map) : Map :=
  match m with
  | [] => [(k, v)]
  | (k', v') :: r =>
      match str_cmp k k' with Lt => (k, v) :: m | Eq => (k, v) :: r | Gt => (k', v') :: map_insert k v r end
  end.
Fixpoint map_get (k : str) (m : Map) : option Value :=
  match m with [] => None | (k', v) :: r => if bool_decide (k' = k) then Some v else map_get k r end.
Definition map_of (l : list (str * Value)) : Map := foldl (fun m e => map_insert e.1 e.2 m) [] l.
(** The statements [map.insert(..)] of the values that are there. *)
Definition insert_some (l : list (str * option Value)) (m : Map) : Map :=
  foldl (fun m e => match e.2 with Some v => map_insert e.1 v m | None => m end) m l.

Definition sorted (m : Map) : Prop := StronglySorted (fun a b => str_cmp a.1 b.1 = Lt) m.

(** ** Documents *)

Fixpoint value_eqb (a b : Value) : bool :=
  match a, b with
  | VNull, VNull => true
  | VBool x, VBool y => Bool.eqb x y
  | VNumber x, VNumber y => Z.eqb x y
  | VFloat x n, VFloat y m => Z.eqb x y && Nat.eqb n m
  | VString x, VString y => bool_decide (x = y)
  | VArray xs, VArray ys =>
      (fix all xs ys := match xs, ys with
                        | [], [] => true
                        | x :: xs, y :: ys => value_eqb x y && all xs ys
                        | _, _ => false
                        end) xs ys
  | VObject xs, VObject ys =>
      (fix all (xs ys : list (str * Value)) :=
         match xs, ys with
         | [], [] => true
         | (k, x) :: xs, (l, y) :: ys => bool_decide (k = l) && value_eqb x y && all xs ys
         | _, _ => false
         end) xs ys
  | _, _ => false
  end.

(** The number of characters of a text. *)
Definition char_count (s : str) : N := N.of_nat (length (List.filter (fun c => negb (utf8_cont c)) s)).

Definition is_number (v : Value) : bool := match v with VNumber _ | VFloat _ _ => true | _ => false end.
Definition is_integer (v : Value) : bool :=
  match v with VNumber _ => true | VFloat z n => (z mod 10 ^ Z.of_nat n =? 0)%Z | _ => false end.
Definition at_least (z : Z) (v : Value) : bool :=
  match v with VNumber n => (z <=? n)%Z | VFloat d n => (z * 10 ^ Z.of_nat n <=? d)%Z | _ => true end.
Definition at_most (z : Z) (v : Value) : bool :=
  match v with VNumber n => (n <=? z)%Z | VFloat d n => (d <=? z * 10 ^ Z.of_nat n)%Z | _ => true end.

Definition type_is (t : str) (v : Value) : bool :=
  match v with
  | VNull => bool_decide (t = s! "null")
  | VBool _ => bool_decide (t = s! "boolean")
  | VNumber _ | VFloat _ _ => bool_decide (t = s! "number") || bool_decide (t = s! "integer") && is_integer v
  | VString _ => bool_decide (t = s! "string")
  | VArray _ => bool_decide (t = s! "array")
  | VObject _ => bool_decide (t = s! "object")
  end.

(** ** Validation *)

Definition on_strings (p : N -> bool) (v : Value) : bool := match v with VString s => p (char_count s) | _ => true end.
Definition on_arrays (p : list Value -> bool) (v : Value) : bool := match v with VArray l => p l | _ => true end.
Definition bound (f : Z -> bool) (s : Value) : bool := match s with VNumber z => f z | _ => true end.
Definition size_of (l : list Value) : Z := Z.of_nat (length l).

Section Keyword.
Context (validates : Value -> Value -> bool).
(** The schemas of a tuple, one per place. *)
Fixpoint places (ss vs : list Value) : bool :=
  match ss, vs with s :: ss, v :: vs => validates s v && places ss vs | _, _ => true end.
Definition keyword (k : str) (s v : Value) : bool :=
  if bool_decide (k = s! "type") then
    match s with
    | VString t => type_is t v
    | VArray ts => existsb (fun t => match t with VString t => type_is t v | _ => false end) ts
    | _ => true
    end
  else if bool_decide (k = s! "properties") then
    match s with
    | VObject ps => forallb (fun p => match json_get p.1 v with Some x => validates p.2 x | None => true end) ps
    | _ => true
    end
  else if bool_decide (k = s! "required") then
    match s, v with
    | VArray ns, VObject _ => forallb (fun n => match n with VString n => is_some (json_get n v) | _ => true end) ns
    | _, _ => true
    end
  else if bool_decide (k = s! "items") then
    match s with
    | VArray ss => on_arrays (places ss) v
    | _ => on_arrays (forallb (validates s)) v
    end
  else if bool_decide (k = s! "enum") then match s with VArray l => existsb (value_eqb v) l | _ => true end
  else if bool_decide (k = s! "oneOf") then
    match s with VArray ss => Nat.eqb (length (List.filter (fun s => validates s v) ss)) 1 | _ => true end
  else if bool_decide (k = s! "anyOf") then
    match s with VArray ss => existsb (fun s => validates s v) ss | _ => true end
  else if bool_decide (k = s! "minLength") then bound (fun z => on_strings (fun n => (z <=? Z.of_N n)%Z) v) s
  else if bool_decide (k = s! "maxLength") then bound (fun z => on_strings (fun n => (Z.of_N n <=? z)%Z) v) s
  else if bool_decide (k = s! "minItems") then bound (fun z => on_arrays (fun l => (z <=? size_of l)%Z) v) s
  else if bool_decide (k = s! "maxItems") then bound (fun z => on_arrays (fun l => (size_of l <=? z)%Z) v) s
  else if bool_decide (k = s! "minimum") then bound (fun z => at_least z v) s
  else if bool_decide (k = s! "maximum") then bound (fun z => at_most z v) s
  else true.
End Keyword.

(** [additionalItems: false] closes the tuple of a sibling [items]. *)
Definition additional_items (m : Map) (v : Value) : bool :=
  match map_get (s! "additionalItems") m, map_get (s! "items") m with
  | Some (VBool false), Some (VArray ss) => on_arrays (fun l => (size_of l <=? size_of ss)%Z) v
  | _, _ => true
  end.

Fixpoint validates (schema v : Value) : bool :=
  match schema with
  | VBool b => b
  | VObject m => forallb (fun e => keyword validates e.1 e.2 v) m && additional_items m v
  | _ => false
  end.

(** ** Facts *)

Module MapFacts.
Implicit Types (m : Map) (k : str) (f : str * Value -> bool).

Definition map_delete k m : Map := List.filter (fun e => negb (bool_decide (e.1 = k))) m.

Lemma get_lower k m : Forall (fun e => str_cmp k e.1 = Lt) m -> map_get k m = None.
Proof.
  induction 1 as [|[k' v] m Hk _ IH]; [done|]. simpl in *. rewrite bool_decide_eq_false_2; [done|].
  intros ->. by rewrite str_cmp_refl in Hk.
Qed.

Lemma insert_lower j k v m : str_cmp j k = Lt -> Forall (fun e => str_cmp j e.1 = Lt) m ->
  Forall (fun e => str_cmp j e.1 = Lt) (map_insert k v m).
Proof.
  intros Hk. induction 1 as [|[k' v'] m Hk' Hm IH]; simpl; [by repeat constructor|].
  destruct (str_cmp k k'); repeat constructor; done.
Qed.

Lemma insert_sorted k v m : sorted m -> sorted (map_insert k v m).
Proof.
  unfold sorted. induction 1 as [|[k' v'] m Hs IH Hk]; simpl; [by repeat constructor|].
  destruct (str_cmp k k') eqn:E.
  - apply str_cmp_eq in E as ->. by constructor.
  - repeat constructor; try done. simpl. eapply Forall_impl; [exact Hk|]. simpl. intros e. by apply str_cmp_trans.
  - constructor; [done|]. apply insert_lower; [|done]. by apply str_cmp_gt.
Qed.

Lemma get_insert k v m : map_get k (map_insert k v m) = Some v.
Proof.
  induction m as [|[k' v'] m IH]; simpl; [by rewrite bool_decide_eq_true_2|].
  destruct (str_cmp k k') eqn:E; simpl; try by rewrite bool_decide_eq_true_2.
  rewrite bool_decide_eq_false_2; [done|]. intros ->. by rewrite str_cmp_refl in E.
Qed.
Lemma map_get_insert_ne j k v m : j <> k -> map_get j (map_insert k v m) = map_get j m.
Proof.
  intros Hne. induction m as [|[k' v'] m IH]; simpl; [by rewrite bool_decide_eq_false_2|].
  destruct (str_cmp k k') eqn:E; simpl.
  - apply str_cmp_eq in E as ->. by rewrite !bool_decide_eq_false_2.
  - by rewrite bool_decide_eq_false_2.
  - by rewrite IH.
Qed.
Lemma get_insert_cases j k v m w : map_get j (map_insert k v m) = Some w -> j = k /\ w = v \/ map_get j m = Some w.
Proof.
  destruct (decide (j = k)) as [->|Hj]; [rewrite get_insert; intros [= ->]; by left|].
  rewrite map_get_insert_ne by done. by right.
Qed.

Lemma get_elem k v m : sorted m -> map_get k m = Some v <-> (k, v) ∈ m.
Proof.
  unfold sorted. induction 1 as [|[k' v'] m Hs IH Hk]; simpl; [split; [done|by intros ?%elem_of_nil]|].
  case_bool_decide as E.
  - subst k'. split; [intros [= ->]; by left|]. intros [[= ->]|Hin]%elem_of_cons; [done|].
    rewrite Forall_forall in Hk. specialize (Hk _ Hin). simpl in Hk. by rewrite str_cmp_refl in Hk.
  - rewrite IH. split; [by right|]. intros [[= -> ->]|Hin]%elem_of_cons; done.
Qed.

Lemma sorted_tail e m : sorted (e :: m) -> sorted m.
Proof. by inversion 1. Qed.

Lemma forallb_delete f k m : sorted m -> (forall j x, j <> k -> map_get j m = Some x -> f (j, x) = true) ->
  forallb f (map_delete k m) = true.
Proof.
  intros Hs Hf. apply forallb_forall. intros [j x] [Hin Hj]%filter_In. apply list_elem_of_In, get_elem in Hin; [|done].
  simpl in Hj. case_bool_decide; [done|]. by apply Hf.
Qed.
Lemma delete_absent k m : map_get k m = None -> map_delete k m = m.
Proof.
  induction m as [|[k' v] m IH]; [done|]. simpl. case_bool_decide; [done|]. intros E. simpl. by rewrite IH.
Qed.

(** A test of all entries sees an insertion as one more entry. *)
Lemma forallb_get f k v m : sorted m -> map_get k m = Some v -> forallb f m = f (k, v) && forallb f (map_delete k m).
Proof.
  unfold sorted. induction 1 as [|[k' v'] m Hs IH Hk]; [done|]. simpl. case_bool_decide as E; simpl.
  - intros [= ->]. subst k'. f_equal. rewrite delete_absent; [done|]. by apply get_lower.
  - intros Hg. rewrite IH by done. by destruct (f (k', v')), (f (k, v)).
Qed.
Lemma insert_delete k v m : map_delete k (map_insert k v m) = map_delete k m.
Proof.
  induction m as [|[k' v'] m IH]; simpl; [by rewrite bool_decide_eq_true_2|].
  destruct (str_cmp k k') eqn:E; simpl.
  - apply str_cmp_eq in E as ->. by rewrite bool_decide_eq_true_2.
  - rewrite (bool_decide_eq_true_2 (k = k)) by done. done.
  - by rewrite IH.
Qed.
Lemma forallb_insert_delete f k v m : sorted m ->
  forallb f (map_insert k v m) = f (k, v) && forallb f (map_delete k m).
Proof.
  intros Hs. rewrite (forallb_get f k v) by (first [by apply insert_sorted|apply get_insert]). by rewrite insert_delete.
Qed.
Lemma forallb_insert f k v m : sorted m -> (forall w, map_get k m = Some w -> w = v) ->
  forallb f (map_insert k v m) = f (k, v) && forallb f m.
Proof.
  intros Hs Hk. rewrite forallb_insert_delete by done. destruct (map_get k m) as [w|] eqn:E.
  - rewrite (forallb_get f k w m) by done. rewrite (Hk w eq_refl). by destruct (f (k, v)).
  - by rewrite delete_absent.
Qed.

(** Inserting entries with different keys one after the other. *)
Lemma map_of_spec (l : list (str * Value)) : NoDup l.*1 ->
  sorted (map_of l) /\ forall f, forallb f (map_of l) = forallb f l.
Proof.
  unfold map_of. assert (H : forall m, sorted m -> (forall k, k ∈ l.*1 -> map_get k m = None) -> NoDup l.*1 ->
    sorted (foldl (fun m e => map_insert e.1 e.2 m) m l) /\
    forall f, forallb f (foldl (fun m e => map_insert e.1 e.2 m) m l) = forallb f l && forallb f m).
  { induction l as [|[k v] l IH]; intros m Hs Hk Hn; [done|]. cbn [foldl fst snd forallb].
    rewrite fmap_cons in Hn, Hk. apply NoDup_cons in Hn as [Hkl Hn].
    destruct (IH (map_insert k v m)) as [I1 I2]; try done.
    - by apply insert_sorted.
    - intros j Hj. rewrite map_get_insert_ne by (intros ->; done). apply Hk. by right.
    - split; [done|]. intros f. rewrite I2, forallb_insert by (done || (rewrite Hk by (by left); done)).
      by destruct (f (k, v)), (forallb f l). }
  intros Hn. destruct (H [] ltac:(by constructor) ltac:(done) Hn) as [H1 H2]. split; [done|].
  intros f. by rewrite H2, andb_true_r.
Qed.

Lemma map_of_elem (l : list (str * Value)) k v : NoDup l.*1 -> (k, v) ∈ map_of l <-> (k, v) ∈ l.
Proof.
  unfold map_of. assert (H : forall m, sorted m -> (forall k, k ∈ l.*1 -> map_get k m = None) -> NoDup l.*1 ->
    (k, v) ∈ foldl (fun m e => map_insert e.1 e.2 m) m l <-> (k, v) ∈ l \/ (k, v) ∈ m).
  { induction l as [|[j w] l IH]; intros m Hs Hk Hn; [set_solver|]. cbn [foldl fst snd].
    rewrite fmap_cons in Hn, Hk. apply NoDup_cons in Hn as [Hkl Hn]. rewrite IH; [|by apply insert_sorted| |done].
    - rewrite elem_of_cons, <-(get_elem k v (map_insert j w m)), <-(get_elem k v m) by (done || by apply insert_sorted).
      destruct (decide (k = j)) as [->|Hne]; [rewrite get_insert, Hk by left|rewrite map_get_insert_ne by done]; naive_solver.
    - intros i Hi. rewrite map_get_insert_ne by (intros ->; done). apply Hk. by right. }
  intros Hn. rewrite H by (done || by constructor). set_solver.
Qed.

(** An entry that always holds can be overwritten. *)
Lemma forallb_overwrite f k v m : sorted m -> (forall w, f (k, w) = true) -> forallb f (map_insert k v m) = forallb f m.
Proof.
  intros Hs Hf. rewrite forallb_insert_delete, Hf by done. simpl. destruct (map_get k m) as [w|] eqn:E.
  - by rewrite (forallb_get f k w m), Hf.
  - by rewrite delete_absent.
Qed.
End MapFacts.

Module SchemaFacts.
Import MapFacts.
Implicit Types (m : Map) (v : Value).

(** No closed tuple. *)
Definition plain m : Prop := map_get (s! "additionalItems") m = None.
Definition asserts (e : str * Value) v : bool := keyword validates e.1 e.2 v.

Lemma validates_plain m v : plain m -> validates (VObject m) v = forallb (fun e => asserts e v) m.
Proof. unfold plain. intros E. simpl. unfold additional_items. rewrite E. apply andb_true_r. Qed.

(** The keywords. *)
Lemma asserts_type t v : asserts (s! "type", VString t) v = type_is t v.
Proof. reflexivity. Qed.
Lemma asserts_types ts v :
  asserts (s! "type", VArray ts) v = existsb (fun t => match t with VString t => type_is t v | _ => false end) ts.
Proof. reflexivity. Qed.
Lemma asserts_properties ps v : asserts (s! "properties", VObject ps) v =
  forallb (fun p => match json_get p.1 v with Some x => validates p.2 x | None => true end) ps.
Proof. reflexivity. Qed.
Lemma asserts_properties_null ps : asserts (s! "properties", VObject ps) VNull = true.
Proof. rewrite asserts_properties. by apply forallb_forall. Qed.
Lemma asserts_required ns v : asserts (s! "required", VArray (VString <$> ns)) v =
  match v with VObject _ => forallb (fun n => is_some (json_get n v)) ns | _ => true end.
Proof. change (asserts _ _) with (match v with VObject _ => forallb (fun n => match n with VString n => is_some (json_get n v) | _ => true end) (VString <$> ns) | _ => true end).
  destruct v; try done. induction ns as [|n ns IH]; [done|]. simpl. by f_equal.
Qed.
Lemma asserts_items m v : asserts (s! "items", VObject m) v = on_arrays (forallb (validates (VObject m))) v.
Proof. reflexivity. Qed.
Lemma asserts_places ss v : asserts (s! "items", VArray ss) v = on_arrays (places validates ss) v.
Proof. reflexivity. Qed.
Lemma asserts_enum l v : asserts (s! "enum", VArray l) v = existsb (value_eqb v) l.
Proof. reflexivity. Qed.
Lemma asserts_one_of ss v :
  asserts (s! "oneOf", VArray ss) v = Nat.eqb (length (List.filter (fun s => validates s v) ss)) 1.
Proof. reflexivity. Qed.
Lemma asserts_any_of ss v : asserts (s! "anyOf", VArray ss) v = existsb (fun s => validates s v) ss.
Proof. reflexivity. Qed.

Lemma insert_plain k w m : k <> s! "additionalItems" -> plain m -> plain (map_insert k w m).
Proof. unfold plain. intros Hk Hm. by rewrite map_get_insert_ne. Qed.

(** [title] and [description] assert nothing. *)
Lemma annotation_valid k w m v : k ∈ [s! "title"; s! "description"] -> sorted m ->
  sorted (map_insert k w m) /\ validates (VObject (map_insert k w m)) v = validates (VObject m) v.
Proof.
  intros Hk Hs. split; [by apply insert_sorted|]. cbn [validates]. unfold additional_items.
  assert (k <> s! "additionalItems" /\ k <> s! "items") as [H1 H2]
    by (apply elem_of_cons in Hk as [->|[->|[]%not_elem_of_nil]%elem_of_cons]; done).
  rewrite !map_get_insert_ne by done.
  f_equal. apply forallb_overwrite; [done|]. intros x.
  apply elem_of_cons in Hk as [->|[->|[]%not_elem_of_nil]%elem_of_cons]; reflexivity.
Qed.

(** Inserting keywords that are new, or there already. *)
Lemma insert_some_spec l m : sorted m -> plain m -> NoDup l.*1 -> s! "additionalItems" ∉ l.*1 ->
  (forall k w x, (k, Some w) ∈ l -> map_get k m = Some x -> x = w) ->
  sorted (insert_some l m) /\ plain (insert_some l m) /\
  (forall k, k ∉ l.*1 -> map_get k (insert_some l m) = map_get k m) /\
  (forall k w, map_get k (insert_some l m) = Some w -> (k, Some w) ∈ l \/ map_get k m = Some w) /\
  (forall v, validates (VObject (insert_some l m)) v =
             forallb (fun e => match e.2 with Some w => asserts (e.1, w) v | None => true end) l && validates (VObject m) v).
Proof.
  unfold insert_some. revert m; induction l as [|[k [w|]] l IH]; intros m Hs Hp Hn Ha Hk; cbn [foldl fst snd forallb];
    [split_and!; eauto| |]; rewrite fmap_cons in Hn, Ha; apply NoDup_cons in Hn as [Hkl Hn]; apply not_elem_of_cons in Ha as [Hka Ha].
  - cbn [fst] in *. assert (Hw : forall x, map_get k m = Some x -> x = w) by (intros x; apply (Hk k w); left).
    destruct (IH (map_insert k w m)) as (I1 & I2 & I3 & I4 & I5); try done.
    + by apply insert_sorted.
    + by apply insert_plain.
    + intros k' w' x Hin. rewrite map_get_insert_ne; [apply (Hk k' w'); by right|].
      intros ->. apply Hkl. by apply (list_elem_of_fmap_2 fst _ _ Hin).
    + split_and!; try done.
      * intros k' [Hne Hk']%not_elem_of_cons. rewrite I3 by done. by apply map_get_insert_ne.
      * intros k' w' [Hin|[[-> ->]|Hg]%get_insert_cases]%I4; [left; by right|left; left|by right].
      * intros v. rewrite I5, !validates_plain by (first [done|by apply insert_plain]).
        rewrite forallb_insert by done. rewrite !andb_assoc. f_equal. apply andb_comm.
  - destruct (IH m) as (I1 & I2 & I3 & I4 & I5); try done.
    + intros k' w' x Hin. apply (Hk k' w'). by right.
    + split_and!; try done.
      * intros k' [_ Hk']%not_elem_of_cons. by apply I3.
      * intros k' w' [Hin|Hg]%I4; [left; by right|by right].
Qed.
End SchemaFacts.
