(* ===== verification/Syn.v ===== *)
(** * The syntax the macros work on

    The parts of syn's syntax trees that crates/rust-mcp-macros/src/ reads: the
    struct or enum a macro is applied to, its attributes, and the arguments of
    the macro.  [None] stands for a path that is not one identifier, or for
    arguments that do not parse. *)
From S2P Require Import Prelude RustStr.

Inductive Lit := LStr (s : str) | LInt (z : Z) | LFloat (digits : Z) (scale : nat) | LBool (b : bool) | LOther.

(** [EFields] is an expression whose tokens are a parenthesized list of
    [key = expression]. *)
Inductive Expr :=
| ELit (l : Lit)
| EMacro (path : str) (args : option (list Expr))
| EArray (elems : list Expr)
| EPath (ident : option str)
| EFields (fields : list (str * Expr))
| EOther.

Inductive Meta :=
| NameValue (path : option str) (value : Expr)
| MetaList (path : option str) (args : option (list Meta))
| MetaPath (path : option str).

(** Of an attribute: the literal of [#[path = literal]]; the metas that
    [parse_nested_meta] hands to its closure, in order, each with the literal
    that is its value; the arguments as a list of metas. *)
Record Attribute := mkAttribute {
  path : str;
  name_value : option Lit;
  nested : list (str * option Lit);
  metas : option (list Meta);
}.

Inductive Ty := TPath (leading_colon : bool) (segments : list Segment) | TOther
with Segment := mkSegment (ident : str) (arguments : PathArguments)
with PathArguments := NoArguments | AngleBracketed (args : list GenericArgument) | Parenthesized
with GenericArgument := GType (t : Ty) | GOther.

(** [f_ident] is the identifier's text, with the [r#] of a raw one. *)
Record Field := mkField { f_ident : str; f_attrs : list Attribute; f_ty : Ty }.
Inductive Fields := Named (fields : list Field) | Unnamed (fields : list Field) | Unit.
Record Variant := mkVariant { v_ident : str; v_attrs : list Attribute; v_fields : Fields }.
Inductive Data := Struct (fields : Fields) | Enum (variants : list Variant) | Union.
Record DeriveInput := mkInput { i_attrs : list Attribute; name : str; data : Data }.
