(* ===== verification/RustTypes.v ===== *)
(** * Rust's types and their attributes as documented

    The other side of the macros of crates/rust-mcp-macros/src/: what the syntax
    of a program means by the documentation of Rust, of serde and of the
    attribute [json_schema], said without the macros' own functions.  It is what
    the schemas of DeriveSchema.v are measured against: [read_type] reads a
    type, [serde_key] the key of a field or variant, [limits] the limits of a
    field; [meant] says which documents a type is meant for, and [covered] which
    programs the macro's documentation covers: structs with named fields of
    those types and enums without data. *)
From S2P Require Import Prelude RustStr Json JsonSchema Syn.

(** ** Types *)

Inductive RustType :=
| RBool | RString | RInt (signed : bool) (bits : Z) | RFloat
| RNumber (* serde_json's *)
| ROption (t : RustType) | RVec (t : RustType) | RNamed (name : str).

(** The types known by their name; [Number] is imported from serde_json. *)
Definition known_types : list (str * RustType) :=
  [(s! "bool", RBool); (s! "String", RString);
   (s! "i8", RInt true 8); (s! "i16", RInt true 16); (s! "i32", RInt true 32); (s! "i64", RInt true 64); (s! "i128", RInt true 128);
   (s! "u8", RInt false 8); (s! "u16", RInt false 16); (s! "u32", RInt false 32); (s! "u64", RInt false 64); (s! "u128", RInt false 128);
   (s! "f32", RFloat); (s! "f64", RFloat); (s! "Number", RNumber)].
(** The names a program does not give to its own types. *)
Definition reserved : list str := known_types.*1 ++ [s! "Option"; s! "Vec"; s! "char"; s! "str"].

(** The type a piece of syntax stands for, [declared] being the names of the
    program's own types in scope; paths through a module are not read. *)
Fixpoint read_type (declared : list str) (ty : Ty) : option RustType :=
  match ty with
  | TPath false [mkSegment name (AngleBracketed [GType inner])] =>
      if decide (name = s! "Option") then ROption <$> read_type declared inner
      else if decide (name = s! "Vec") then RVec <$> read_type declared inner
      else None
  | TPath false [mkSegment name NoArguments] =>
      match List.find (fun e => bool_decide (e.1 = name)) known_types with
      | Some e => Some e.2
      | None => if decide (name ∈ declared) then Some (RNamed name) else None
      end
  | TPath false [mkSegment a NoArguments; mkSegment b NoArguments] =>
      if decide (a = s! "serde_json" /\ b = s! "Number") then Some RNumber else None
  | _ => None
  end.
Definition optional (t : RustType) : bool := match t with ROption _ => true | _ => false end.

(** ** serde's attributes *)

#[export] Instance lit_eq_dec : EqDecision Lit.
Proof. solve_decision. Defined.

Definition of_path (p : str) (attrs : list Attribute) : list Attribute := List.filter (fun a => bool_decide (path a = p)) attrs.
Definition serde_metas (attrs : list Attribute) : list Meta := concat ((fun a => from_option id [] (metas a)) <$> of_path (s! "serde") attrs).

(** [rename = "name"] and [rename(serialize = "name")]; serde refuses a second one. *)
Definition text_value (k : str) (m : Meta) : option str :=
  match m with NameValue (Some p) (ELit (LStr s)) => if decide (p = k) then Some s else None | _ => None end.
Definition rename_of (m : Meta) : option str :=
  match m with
  | MetaList (Some p) (Some args) => if decide (p = s! "rename") then head (omap (text_value (s! "serialize")) args) else None
  | m => text_value (s! "rename") m
  end.
Definition unraw (ident : str) : str := from_option id ident (strip_prefix (s! "r#") ident).
Definition renamed (attrs : list Attribute) : option str := last (omap rename_of (serde_metas attrs)).
(** The key serde writes: a raw identifier loses its prefix. *)
Definition serde_key (ident : str) (attrs : list Attribute) : str := from_option id (unraw ident) (renamed attrs).
Definition field_key (f : Field) : str := serde_key (f_ident f) (f_attrs f).
Definition variant_key (x : Variant) : str := serde_key (v_ident x) (v_attrs x).
(** Whether serde may leave the field out. *)
Definition omitted_if (attrs : list Attribute) : bool :=
  existsb (fun m => is_some (text_value (s! "skip_serializing_if") m)) (serde_metas attrs).

(** The attributes this reading knows: renaming to one name for both
    directions, attributes of reading only, and leaving out a [None]. *)
Definition known_meta (is_optional : bool) (m : Meta) : bool :=
  match m with
  | NameValue (Some p) (ELit (LStr _)) =>
      bool_decide (p ∈ [s! "rename"; s! "alias"; s! "default"]) || (is_optional && bool_decide (p = s! "skip_serializing_if"))
  | MetaPath (Some p) => bool_decide (p = s! "default")
  | _ => false
  end.

(** What [parse_nested_meta] hands to a closure that consumes no value but that
    of [rename]: a value that is left there is a syntax error, which ends it. *)
Fixpoint handed (ms : list Meta) : list (str * option Lit) :=
  match ms with
  | NameValue (Some p) (ELit l) :: r => (p, Some l) :: if decide (p = s! "rename") then handed r else []
  | NameValue (Some p) _ :: _ | MetaList (Some p) _ :: _ => [(p, None)]
  | MetaPath (Some p) :: r => (p, None) :: handed r
  | MetaPath None :: r => handed r
  | _ => []
  end.
(** No rename stands behind such a value. *)
Fixpoint rename_first (ms : list Meta) : bool :=
  match ms with
  | [] => true
  | m :: r =>
      match m with
      | MetaPath _ => rename_first r
      | m => if is_some (rename_of m) then rename_first r else forallb (fun m => negb (is_some (rename_of m))) r
      end
  end.
Definition serde_read (is_optional : bool) (a : Attribute) : bool :=
  match metas a with
  | Some ms => bool_decide (nested a = handed ms) && forallb (known_meta is_optional) ms && rename_first ms
  | None => false
  end.
Definition well_keyed (is_optional : bool) (ident : str) (attrs : list Attribute) : bool :=
  forallb (serde_read is_optional) (of_path (s! "serde") attrs) && (is_some (renamed attrs) || bool_decide (unraw ident = ident)).

(** ** The limits of [json_schema(..)] *)

Record Limits := mkLimits { shortest : option Z; longest : option Z; least : option Z; greatest : option Z }.
Definition no_limits : Limits := mkLimits None None None None.
Definition unlimited (l : Limits) : bool := match l with mkLimits None None None None => true | _ => false end.
Definition schema_metas (attrs : list Attribute) : list (str * option Lit) := concat (nested <$> of_path (s! "json_schema") attrs).
(** The last value given for a key. *)
Definition number_of (k : str) (e : str * option Lit) : option Z :=
  match e with (p, Some (LInt z)) => if decide (p = k) then Some z else None | _ => None end.
Definition limit (k : str) (attrs : list Attribute) : option Z := last (omap (number_of k) (schema_metas attrs)).
Definition limits (attrs : list Attribute) : Limits :=
  mkLimits (limit (s! "min_length") attrs) (limit (s! "max_length") attrs) (limit (s! "minimum") attrs) (limit (s! "maximum") attrs).

(** A key of the documentation with a literal of its kind. *)
Definition well_formed_meta (e : str * option Lit) : bool :=
  match e with
  | (k, Some l) =>
      let is_i64 z := ((- 2 ^ 63 <=? z) && (z <? 2 ^ 63))%Z in
      match l with
      | LStr _ => bool_decide (k ∈ [s! "title"; s! "description"; s! "format"; s! "default"])
      | LInt z => (bool_decide (k ∈ [s! "min_length"; s! "max_length"]) && ((0 <=? z) && (z <? 2 ^ 64))%Z) ||
                  (bool_decide (k ∈ [s! "minimum"; s! "maximum"; s! "default"]) && is_i64 z)
      | LFloat _ _ | LBool _ => bool_decide (k = s! "default")
      | LOther => false
      end
  | _ => false
  end.
(** Lengths limit texts and arrays, bounds numbers. *)
Fixpoint limits_fit (l : Limits) (t : RustType) : bool :=
  let no (o : option Z) := negb (is_some o) in
  match t with
  | RString | RVec _ => no (least l) && no (greatest l)
  | RInt _ _ | RFloat | RNumber => no (shortest l) && no (longest l)
  | ROption t => limits_fit l t
  | RBool | RNamed _ => no (shortest l) && no (longest l) && no (least l) && no (greatest l)
  end.

(** ** What a type's documents are *)

Definition between (lo hi : option Z) (z : Z) : bool :=
  match lo with Some l => (l <=? z)%Z | None => true end && match hi with Some h => (z <=? h)%Z | None => true end.
Definition bounded (l : Limits) (v : Value) : bool :=
  match least l with Some z => at_least z v | None => true end && match greatest l with Some z => at_most z v | None => true end.

Section Meant.
Context (declared : list str) (named : str -> Value -> bool).
(** A number is an integer as JSON Schema has it, of any size. *)
Fixpoint meant (l : Limits) (t : RustType) (v : Value) : bool :=
  match t with
  | RBool => match v with VBool _ => true | _ => false end
  | RString => match v with VString s => between (shortest l) (longest l) (Z.of_N (char_count s)) | _ => false end
  | RInt _ _ => is_integer v && bounded l v
  | RFloat | RNumber => is_number v && bounded l v
  | ROption t => match v with VNull => true | _ => meant l t v end
  | RVec t => match v with VArray vs => forallb (meant no_limits t) vs && between (shortest l) (longest l) (size_of vs) | _ => false end
  | RNamed t => named t v
  end.
Definition field_type (f : Field) : option RustType := read_type declared (f_ty f).
(** An object with every field that is not optional, and no field that is wrong. *)
Definition meant_object (fields : list Field) (v : Value) : bool :=
  match v with
  | VObject _ =>
      forallb (fun f => match field_type f, json_get (field_key f) v with
                        | Some t, Some x => meant (limits (f_attrs f)) t x
                        | Some t, None => optional t
                        | None, _ => false
                        end) fields
  | _ => false
  end.
Definition meant_item (input : DeriveInput) (v : Value) : bool :=
  match data input with
  | Struct (Named fields) => meant_object fields v
  | Enum variants => match v with VString s => bool_decide (s ∈ variant_key <$> variants) | _ => false end
  | _ => false
  end.

(** *** The programs this covers *)

Definition covered_field (f : Field) : bool :=
  match field_type f with
  | Some t => well_keyed (optional t) (f_ident f) (f_attrs f) &&
              forallb well_formed_meta (schema_metas (f_attrs f)) && limits_fit (limits (f_attrs f)) t
  | None => false
  end.
Definition covered_variant (x : Variant) : bool :=
  match v_fields x with Unit => well_keyed false (v_ident x) (v_attrs x) | _ => false end.
Definition covered_item (input : DeriveInput) : bool :=
  bool_decide (name input ∉ reserved) && bool_decide (of_path (s! "serde") (i_attrs input) = []) &&
  match data input with
  | Struct (Named fields) => bool_decide (NoDup (field_key <$> fields)) && forallb covered_field fields
  | Enum variants => bool_decide (NoDup (variant_key <$> variants)) && forallb covered_variant variants
  | _ => false
  end.
End Meant.

(** A program lists its types with those a type uses behind it. *)
Fixpoint meant_named (program : list DeriveInput) (t : str) (v : Value) : bool :=
  match program with
  | [] => false
  | input :: rest => if decide (name input = t) then meant_item (name <$> rest) (meant_named rest) input v else meant_named rest t v
  end.
Fixpoint covered (program : list DeriveInput) : bool :=
  match program with [] => true | input :: rest => covered_item (name <$> rest) input && covered rest end.

(** ** Facts *)

Module RustFacts.

Lemma last_omap_cons {A B} (f : A -> option B) x l :
  last (omap f (x :: l)) = match last (omap f l) with Some b => Some b | None => f x end.
Proof. cbn [omap list_omap]. unfold list_omap. destruct (f x); [by rewrite last_cons|]. change (omap f l) with (omap f l). by case_match. Qed.

Lemma known_declared declared s t : s ∈ declared -> read_type declared (TPath false [mkSegment s NoArguments]) = Some t ->
  s ∉ reserved -> t = RNamed s.
Proof.
  intros Hs Ht Hr. cbn [read_type] in Ht. destruct (List.find _ known_types) as [e|] eqn:E.
  - apply find_some in E as [Hin He]. apply bool_decide_eq_true in He as <-. destruct Hr. unfold reserved. rewrite elem_of_app. left.
    apply list_elem_of_fmap_2. by apply list_elem_of_In.
  - rewrite decide_True in Ht by done. by injection Ht.
Qed.
End RustFacts.
