(* ===== verification/DeriveSchema.v ===== *)
(** * The derive macro JsonSchema

    Models crates/rust-mcp-macros/src/: the helpers of utils.rs with
    [type_to_json_schema], and [derive_json_schema] of lib.rs.

    A macro's quoted code is modelled by what it evaluates to.  [path::json_schema()] calls what the
    macro generated for that type: [json_schema_of] resolves it in a program,
    the list of its deriving types with the types a type uses behind it; a name
    that is not found there does not compile. *)
From Stdlib Require Import Sorted.
From S2P Require Import Prelude RustStr Json JsonSchema Syn RustTypes.

(** ** utils.rs *)

Definition is_option (ty : Ty) : bool :=
  match ty with TPath _ [mkSegment ident (AngleBracketed _)] => bool_decide (ident = s! "Option") | _ => false end.
Definition is_vec (ty : Ty) : bool :=
  match ty with TPath _ [mkSegment ident (AngleBracketed _)] => bool_decide (ident = s! "Vec") | _ => false end.
Definition inner_type (ty : Ty) : option Ty :=
  match ty with TPath _ [mkSegment _ (AngleBracketed [GType inner])] => Some inner | _ => None end.

Definition docs (attrs : list Attribute) : list str :=
  omap (fun a => if bool_decide (path a = s! "doc")
                 then match name_value a with Some (LStr s) => Some (trim s) | _ => None end else None) attrs.
Definition doc_comment (attrs : list Attribute) : option str :=
  match docs attrs with [] => None | ds => Some (join [LF] ds) end.

Definition integer_types : list str :=
  [s! "i8"; s! "i16"; s! "i32"; s! "i64"; s! "i128"; s! "u8"; s! "u16"; s! "u32"; s! "u64"; s! "u128"].
Definition float_types : list str := [s! "f32"; s! "f64"].
Definition common_types : list str :=
  integer_types ++ float_types ++ [s! "bool"; s! "char"; s! "str"; s! "String"; s! "Vec"; s! "Option"].
Definition no_arguments (args : PathArguments) : bool := match args with NoArguments => true | _ => false end.
Definition might_be_struct (ty : Ty) : bool :=
  match ty with
  | TPath _ [mkSegment ident args] => negb (bool_decide (ident ∈ common_types)) && no_arguments args
  | _ => false
  end.

(** The closure of a [parse_nested_meta], which an error ends. *)
Fixpoint each_meta {A} (f : str -> option Lit -> A -> option A) (metas : list (str * option Lit)) (acc : A) : A :=
  match metas with
  | [] => acc
  | (k, v) :: r => match f k v acc with Some acc => each_meta f r acc | None => acc end
  end.
Definition each_attribute {A} (p : str) (f : str -> option Lit -> A -> option A) (attrs : list Attribute) (acc : A) : A :=
  foldl (fun acc a => if bool_decide (path a = p) then each_meta f (nested a) acc else acc) acc attrs.

Definition renamed_field (attrs : list Attribute) : option str :=
  each_attribute (s! "serde") (fun k v acc =>
    Some (if bool_decide (k = s! "rename") then match v with Some (LStr s) => Some s | _ => acc end else acc)) attrs None.

(** The custom attributes [json_schema(..)] of a field. *)
Record SchemaAttrs := mkSchemaAttrs {
  title : option str;
  format : option str;
  min_length : option Z;
  max_length : option Z;
  minimum : option Z;
  maximum : option Z;
  default : option Value;
  attr_description : option str;
}.
Definition no_schema_attrs : SchemaAttrs := mkSchemaAttrs None None None None None None None None.

(** [parse::<LitStr>()?.value()], [parse::<LitInt>()?.base10_parse()?] *)
Definition lit_str (v : option Lit) : option str := match v with Some (LStr s) => Some s | _ => None end.
Definition lit_int (lo hi : Z) (v : option Lit) : option Z :=
  match v with Some (LInt z) => if ((lo <=? z) && (z <? hi))%Z then Some z else None | _ => None end.
Definition lit_u64 := lit_int 0 (2 ^ 64).
Definition lit_i64 := lit_int (- 2 ^ 63) (2 ^ 63).
Definition lit_default (v : option Lit) : option Value :=
  match v with
  | Some (LStr s) => Some (VString s)
  | Some (LInt z) => VNumber <$> lit_i64 (Some (LInt z))
  | Some (LFloat d n) => Some (VFloat d n)
  | Some (LBool b) => Some (VBool b)
  | _ => None
  end.

Definition schema_meta (k : str) (v : option Lit) (a : SchemaAttrs) : option SchemaAttrs :=
  let '(mkSchemaAttrs t f l1 l2 n1 n2 d s) := a in
  if bool_decide (k = s! "title") then (fun x => mkSchemaAttrs (Some x) f l1 l2 n1 n2 d s) <$> lit_str v
  else if bool_decide (k = s! "description") then (fun x => mkSchemaAttrs t f l1 l2 n1 n2 d (Some x)) <$> lit_str v
  else if bool_decide (k = s! "format") then (fun x => mkSchemaAttrs t (Some x) l1 l2 n1 n2 d s) <$> lit_str v
  else if bool_decide (k = s! "min_length") then (fun x => mkSchemaAttrs t f (Some x) l2 n1 n2 d s) <$> lit_u64 v
  else if bool_decide (k = s! "max_length") then (fun x => mkSchemaAttrs t f l1 (Some x) n1 n2 d s) <$> lit_u64 v
  else if bool_decide (k = s! "minimum") then (fun x => mkSchemaAttrs t f l1 l2 (Some x) n2 d s) <$> lit_i64 v
  else if bool_decide (k = s! "maximum") then (fun x => mkSchemaAttrs t f l1 l2 n1 (Some x) d s) <$> lit_i64 v
  else if bool_decide (k = s! "default") then (fun x => mkSchemaAttrs t f l1 l2 n1 n2 (Some x) s) <$> lit_default v
  else Some a.
Definition schema_attrs (attrs : list Attribute) : SchemaAttrs :=
  each_attribute (s! "json_schema") schema_meta attrs no_schema_attrs.
Definition description (attrs : list Attribute) (a : SchemaAttrs) : option str :=
  match attr_description a with Some d => Some d | None => doc_comment attrs end.

(** The entries the quotes of a field insert. *)
Definition description_quote attrs a : str * option Value := (s! "description", VString <$> description attrs a).
Definition title_quote a : str * option Value := (s! "title", VString <$> title a).
Definition default_quote a : str * option Value := (s! "default", default a).
Definition format_quote a : str * option Value := (s! "format", VString <$> format a).
Definition min_quote a : str * option Value := (s! "minLength", VNumber <$> min_length a).
Definition max_quote a : str * option Value := (s! "maxLength", VNumber <$> max_length a).
Definition min_items_quote a : str * option Value := (s! "minItems", VNumber <$> min_length a).
Definition max_items_quote a : str * option Value := (s! "maxItems", VNumber <$> max_length a).
Definition min_num_quote a : str * option Value := (s! "minimum", VNumber <$> minimum a).
Definition max_num_quote a : str * option Value := (s! "maximum", VNumber <$> maximum a).

Definition typed (t : str) : Map := map_insert (s! "type") (VString t) [].

(** The schema of [Option<T>] from that of [T]. *)
Definition null_schema : Value := VObject (typed (s! "null")).
Definition nullable (map : Map) : Map :=
  let wrapper := map_insert (s! "anyOf") (VArray [VObject map; null_schema]) [] in
  match map_get (s! "type") map with
  | Some (VString t) =>
      if bool_decide (t <> s! "null") then map_insert (s! "type") (VArray [VString t; VString (s! "null")]) map else wrapper
  | Some (VArray arr) =>
      if existsb (fun v => value_eqb v (VString (s! "null"))) arr then map
      else map_insert (s! "type") (VArray (arr ++ [VString (s! "null")])) map
  | _ => wrapper
  end.

(** The schema of each kind of type, with the attributes it heeds. *)
Definition about attrs a : list (str * option Value) := [description_quote attrs a; title_quote a].
Definition unknown_schema attrs a : Map := insert_some (about attrs a ++ [default_quote a]) (typed (s! "unknown")).
Definition number_schema attrs a : Map :=
  insert_some (about attrs a ++ [min_num_quote a; max_num_quote a; default_quote a]) (typed (s! "number")).
Definition integer_schema attrs a : Map :=
  insert_some (about attrs a ++ [min_num_quote a; max_num_quote a; default_quote a]) (typed (s! "integer")).
Definition string_schema attrs a : Map :=
  insert_some (about attrs a ++ [format_quote a; min_quote a; max_quote a; default_quote a]) (typed (s! "string")).
Definition boolean_schema attrs a : Map := insert_some (about attrs a ++ [default_quote a]) (typed (s! "boolean")).
Definition option_schema attrs a (inner : Map) : Map :=
  insert_some (about attrs a ++ [format_quote a; min_quote a; max_quote a; min_num_quote a; max_num_quote a; default_quote a])
    (nullable inner).
Definition array_schema attrs a (inner : Map) : Map :=
  insert_some (about attrs a ++ [min_items_quote a; max_items_quote a; default_quote a])
    (map_insert (s! "items") (VObject inner) (typed (s! "array"))).
Definition struct_schema attrs a (inner : Map) : Map := insert_some (about attrs a ++ [default_quote a]) inner.

Section Types.
Context (json_schema : str -> Map).

Fixpoint type_to_json_schema (ty : Ty) (attrs : list Attribute) {struct ty} : Map :=
  let a := schema_attrs attrs in
  match ty with
  | TPath _ [mkSegment ident args] =>
      if bool_decide (ident = s! "Option") then
        match args with
        | AngleBracketed [GType inner] => option_schema attrs a (type_to_json_schema inner attrs)
        | _ => unknown_schema attrs a
        end
      else if bool_decide (ident = s! "Vec") then
        match args with
        | AngleBracketed [GType inner] => array_schema attrs a (type_to_json_schema inner [])
        | _ => unknown_schema attrs a
        end
      else if bool_decide (ident = s! "Number") then number_schema attrs a
      else if might_be_struct ty then struct_schema attrs a (json_schema ident)
      else if bool_decide (ident = s! "String") then string_schema attrs a
      else if bool_decide (ident ∈ integer_types) then integer_schema attrs a
      else if bool_decide (ident ∈ float_types) then number_schema attrs a
      else if bool_decide (ident = s! "bool") then boolean_schema attrs a
      else unknown_schema attrs a
  | TPath false [mkSegment i0 NoArguments; mkSegment i1 NoArguments] =>
      if bool_decide (i0 = s! "serde_json") && bool_decide (i1 = s! "Number") then number_schema attrs a else unknown_schema attrs a
  | _ => unknown_schema attrs a
  end.

(** ** The derive, lib.rs *)

Definition field_name (f : Field) : str := from_option id (f_ident f) (renamed_field (f_attrs f)).
Definition field_schema (f : Field) : Value := VObject (type_to_json_schema (f_ty f) (f_attrs f)).
Definition properties (fields : list Field) : Map := map_of ((fun f => (field_name f, field_schema f)) <$> fields).
Definition required (fields : list Field) : list str :=
  omap (fun f => if is_option (f_ty f) then None else Some (field_name f)) fields.
Definition object_schema (fields : list Field) : Map :=
  let schema := map_insert (s! "properties") (VObject (properties fields)) (typed (s! "object")) in
  match required fields with
  | [] => schema
  | req => map_insert (s! "required") (VArray (VString <$> req)) schema
  end.

(** The attributes of a variant: its title and its description. *)
Definition variant_meta (k : str) (v : option Lit) (a : option str * option str) : option (option str * option str) :=
  if bool_decide (k = s! "title") then (fun x => (Some x, a.2)) <$> lit_str v
  else if bool_decide (k = s! "description") then (fun x => (a.1, Some x)) <$> lit_str v
  else Some a.
Definition variant_quotes (attrs : list Attribute) : list (str * option Value) :=
  let '(title, description) := each_attribute (s! "json_schema") variant_meta attrs (None, None) in
  [(s! "title", VString <$> title); (s! "description", VString <$> description)].
Definition variant_name (v : Variant) : str := from_option id (v_ident v) (renamed_field (v_attrs v)).
Definition variant_schema (v : Variant) : Value :=
  VObject (insert_some (variant_quotes (v_attrs v))
    match v_fields v with
    | Unit => map_insert (s! "enum") (VArray [VString (variant_name v)]) []
    | Unnamed [f] => type_to_json_schema (f_ty f) (f_attrs f)
    | Unnamed fields =>
        map_insert (s! "additionalItems") (VBool false)
          (map_insert (s! "items") (VArray (field_schema <$> fields)) (typed (s! "array")))
    | Named fields => object_schema fields
    end).

(** [derive_json_schema]; [None] is a panic of the macro. *)
Definition derive_json_schema (input : DeriveInput) : option Map :=
  match data input with
  | Struct (Named fields) => Some (object_schema fields)
  | Struct _ => None
  | Enum variants => Some (map_insert (s! "oneOf") (VArray (variant_schema <$> variants)) [])
  | Union => None
  end.
End Types.

(** What [T::json_schema()] returns in a program. *)
Fixpoint json_schema_of (program : list DeriveInput) (t : str) : Map :=
  match program with
  | [] => []
  | input :: rest =>
      if bool_decide (name input = t) then from_option id [] (derive_json_schema (json_schema_of rest) input)
      else json_schema_of rest t
  end.

(** ** What a derived schema accepts

    The derived schemas case by case, without the keywords: the first step of
    the proofs. What a type's documents are meant to be, read off the
    documentation and not off the macro, is [meant_named] of RustTypes.v. *)

Definition within (lo hi : option Z) (z : Z) : bool :=
  from_option (fun l => (l <=? z)%Z) true lo && from_option (fun h => (z <=? h)%Z) true hi.
Definition text_ok (a : SchemaAttrs) (v : Value) : bool :=
  on_strings (fun n => within (min_length a) (max_length a) (Z.of_N n)) v.
Definition items_ok (a : SchemaAttrs) (v : Value) : bool :=
  on_arrays (fun l => within (min_length a) (max_length a) (size_of l)) v.
Definition number_ok (a : SchemaAttrs) (v : Value) : bool :=
  from_option (fun z => at_least z v) true (minimum a) && from_option (fun z => at_most z v) true (maximum a).
Definition is_null (v : Value) : bool := match v with VNull => true | _ => false end.

Section Accepts.
Context (named : str -> Value -> bool).

Fixpoint accepts (ty : Ty) (attrs : list Attribute) (v : Value) {struct ty} : bool :=
  let a := schema_attrs attrs in
  match ty with
  | TPath _ [mkSegment ident args] =>
      if bool_decide (ident = s! "Option") then
        match args with
        | AngleBracketed [GType inner] => (is_null v || accepts inner attrs v) && text_ok a v && number_ok a v
        | _ => false
        end
      else if bool_decide (ident = s! "Vec") then
        match args, v with
        | AngleBracketed [GType inner], VArray l => forallb (accepts inner []) l && items_ok a v
        | _, _ => false
        end
      else if bool_decide (ident = s! "Number") then is_number v && number_ok a v
      else if might_be_struct ty then named ident v
      else if bool_decide (ident = s! "String") then is_some (as_string v) && text_ok a v
      else if bool_decide (ident ∈ integer_types) then is_integer v && number_ok a v
      else if bool_decide (ident ∈ float_types) then is_number v && number_ok a v
      else if bool_decide (ident = s! "bool") then is_some (as_bool v)
      else false
  | TPath false [mkSegment i0 NoArguments; mkSegment i1 NoArguments] =>
      bool_decide (i0 = s! "serde_json") && bool_decide (i1 = s! "Number") && is_number v && number_ok a v
  | _ => false
  end.
Definition accepts_field (f : Field) (v : Value) : bool := accepts (f_ty f) (f_attrs f) v.

(** An object with every field that is not optional, and no field that is wrong. *)
Definition accepts_object (fields : list Field) (v : Value) : bool :=
  is_some (object_fields v) &&
  forallb (fun f => match json_get (field_name f) v with
                    | Some x => accepts_field f x
                    | None => is_option (f_ty f)
                    end) fields.
Fixpoint accepts_tuple (fields : list Field) (l : list Value) : bool :=
  match fields, l with
  | f :: fields, x :: l => accepts_field f x && accepts_tuple fields l
  | _, [] => true
  | [], _ => false
  end.
Definition accepts_variant (x : Variant) (v : Value) : bool :=
  match v_fields x with
  | Unit => value_eqb v (VString (variant_name x))
  | Unnamed [f] => accepts_field f v
  | Unnamed fields => match v with VArray l => accepts_tuple fields l | _ => false end
  | Named fields => accepts_object fields v
  end.
(** A document of an enum fits exactly one variant. *)
Definition accepts_item (input : DeriveInput) (v : Value) : bool :=
  match data input with
  | Struct (Named fields) => accepts_object fields v
  | Struct _ | Union => true
  | Enum variants => Nat.eqb (length (List.filter (fun x => accepts_variant x v) variants)) 1
  end.
End Accepts.

Fixpoint accepts_named (program : list DeriveInput) (t : str) (v : Value) : bool :=
  match program with
  | [] => true
  | input :: rest =>
      if bool_decide (name input = t) then accepts_item (accepts_named rest) input v else accepts_named rest t v
  end.

Example option_fields :
  let field s ty := mkField s [] ty in
  let ty s := TPath false [mkSegment s NoArguments] in
  let option ty := TPath false [mkSegment (s! "Option") (AngleBracketed [GType ty])] in
  let colour := mkInput [] (s! "Colour") (Enum [mkVariant (s! "Red") [] Unit; mkVariant (s! "Green") [] Unit]) in
  let shapes := mkInput [] (s! "Shapes") (Struct (Named [field (s! "text") (option (ty (s! "String")));
                  field (s! "colour") (option (ty (s! "Colour"))); field (s! "n") (ty (s! "i32"))])) in
  json_schema_of [shapes; colour] (s! "Shapes") =
  [(s! "properties", VObject
     [(s! "colour", VObject [(s! "anyOf", VArray [
         VObject [(s! "oneOf", VArray [VObject [(s! "enum", VArray [VString (s! "Red")])]; VObject [(s! "enum", VArray [VString (s! "Green")])]])];
         VObject [(s! "type", VString (s! "null"))]])]);
      (s! "n", VObject [(s! "type", VString (s! "integer"))]);
      (s! "text", VObject [(s! "type", VArray [VString (s! "string"); VString (s! "null")])])]);
   (s! "required", VArray [VString (s! "n")]); (s! "type", VString (s! "object"))].
Proof. by vm_compute. Qed.

Module DeriveFacts.
Import MapFacts SchemaFacts.
Implicit Types (m : Map) (v : Value) (a : SchemaAttrs) (attrs : list Attribute).

Definition structural : list str :=
  [s! "type"; s! "properties"; s! "required"; s! "items"; s! "oneOf"; s! "anyOf"; s! "enum"].
Definition quotes attrs : list (str * option Value) :=
  let a := schema_attrs attrs in
  [description_quote attrs a; title_quote a; default_quote a; format_quote a; min_quote a; max_quote a;
   min_items_quote a; max_items_quote a; min_num_quote a; max_num_quote a].

(** One inserted entry. *)
Definition asserts_some (e : str * option Value) v : bool := match e.2 with Some w => asserts (e.1, w) v | None => true end.

(** A schema [m] that accepts what [ok] says, whose keywords are structural or
    come from [q], and which can be made nullable. *)
Record well_shaped (q : list (str * option Value)) m (ok : Value -> bool) : Prop := {
  ws_sorted : sorted m;
  ws_plain : plain m;
  ws_keys k w : map_get k m = Some w -> k ∈ structural \/ (k, Some w) ∈ q;
  ws_valid v : validates (VObject m) v = ok v;
  ws_null : match map_get (s! "type") m with
            | Some (VString t) =>
                t <> s! "null" /\ forall k w, k <> s! "type" -> map_get k m = Some w -> asserts (k, w) VNull = true
            | Some (VArray ts) => existsb (fun v => value_eqb v (VString (s! "null"))) ts = true /\ ok VNull = true
            | Some _ => False
            | None => True
            end;
}.

Lemma well_shaped_ext q m ok ok' : (forall v, ok v = ok' v) -> well_shaped q m ok -> well_shaped q m ok'.
Proof.
  intros E [H1 H2 H3 H4 H5]. constructor; try done; [intros v; by rewrite H4|].
  destruct (map_get _ m) as [[| | | | |ts|]|]; try done. by rewrite <-E.
Qed.
Lemma well_shaped_more q m ok : well_shaped [] m ok -> well_shaped q m ok.
Proof. intros [H1 H2 H3 H4 H5]. constructor; try done. intros k w [Hk|Hk]%H3; [by left|by apply elem_of_nil in Hk]. Qed.

Lemma typed_shaped q t : t <> s! "null" -> well_shaped q (typed t) (type_is t).
Proof.
  intros Ht. constructor; try done.
  - by repeat constructor.
  - intros k w. unfold typed. simpl. case_bool_decide; [|done]. intros _. left. subst. decided.
  - intros v. change (validates _ v) with ((type_is t v && true) && true). by rewrite !andb_true_r.
  - split; [done|]. intros k w Hk. unfold typed. simpl. by rewrite bool_decide_eq_false_2.
Qed.

(** The entries of the quotes say nothing about [null]. *)
Lemma quotes_null attrs k w : (k, Some w) ∈ quotes attrs -> asserts (k, w) VNull = true.
Proof.
  unfold quotes, description_quote, title_quote, default_quote, format_quote, min_quote, max_quote, min_items_quote,
    max_items_quote, min_num_quote, max_num_quote. set (a := schema_attrs attrs).
  intros Hin. repeat (apply elem_of_cons in Hin as [[= -> E]|Hin]); try (by apply elem_of_nil in Hin); try done;
    match goal with E : Some _ = ?f <$> ?o |- _ => destruct o; simplify_eq/=; reflexivity end.
Qed.
Lemma quotes_keys attrs : NoDup (quotes attrs).*1.
Proof. change (NoDup [s! "description"; s! "title"; s! "default"; s! "format"; s! "minLength"; s! "maxLength"; s! "minItems"; s! "maxItems"; s! "minimum"; s! "maximum"]). decided. Qed.
Lemma quotes_not_structural attrs k w : (k, w) ∈ quotes attrs -> k ∉ s! "additionalItems" :: structural.
Proof.
  intros Hin%(list_elem_of_fmap_2 fst).
  assert (Hall : Forall (fun k => k ∉ s! "additionalItems" :: structural) (quotes attrs).*1).
  { change (quotes attrs).*1 with [s! "description"; s! "title"; s! "default"; s! "format"; s! "minLength"; s! "maxLength"; s! "minItems"; s! "maxItems"; s! "minimum"; s! "maximum"]. decided. }
  rewrite Forall_forall in Hall. by apply Hall.
Qed.
Lemma NoDup_fst_eq (l : list (str * option Value)) k x y : NoDup l.*1 -> (k, x) ∈ l -> (k, y) ∈ l -> x = y.
Proof.
  intros Hn Hx Hy. apply list_elem_of_lookup in Hx as [i Hi]. apply list_elem_of_lookup in Hy as [j Hj].
  assert (i = j) as <-; [|congruence].
  eapply NoDup_lookup; [exact Hn|by rewrite list_lookup_fmap, Hi|by rewrite list_lookup_fmap, Hj].
Qed.

Lemma insert_quotes attrs l m ok : l ⊆ quotes attrs -> NoDup l.*1 -> well_shaped (quotes attrs) m ok ->
  well_shaped (quotes attrs) (insert_some l m) (fun v => forallb (fun e => asserts_some e v) l && ok v).
Proof.
  intros Hq Hnl [Hs Hp Hk Hv Hnull].
  assert (Hst : forall k, k ∈ l.*1 -> k ∉ s! "additionalItems" :: structural).
  { intros k ([k' w] & -> & Hin)%list_elem_of_fmap. by apply (quotes_not_structural attrs k' w), Hq. }
  destruct (insert_some_spec l m) as (I1 & I2 & I3 & I4 & I5); try done.
  - intros Ha. apply (Hst _ Ha). by left.
  - intros k w x Hin [Hx|Hx]%Hk.
    + apply (list_elem_of_fmap_2 fst) in Hin as Hin'. destruct (Hst _ Hin'). by right.
    + assert (Some x = Some w) as [= ->]; [|done]. eapply NoDup_fst_eq; [apply (quotes_keys attrs)|exact Hx|by apply Hq].
  - constructor; try done.
    + intros k w [Hin|Hg]%I4; [right; by apply Hq|by apply Hk].
    + intros v. rewrite I5, Hv. done.
    + rewrite I3 by (intros Ht; destruct (Hst _ Ht); right; decided).
      destruct (map_get (s! "type") m) as [[| | | |t|ts|]|]; try done.
      * destruct Hnull as [Ht Hnull]. split; [done|]. intros k w Hne [Hin|Hg]%I4; [by apply (quotes_null attrs), Hq|by apply Hnull].
      * destruct Hnull as [Ht Hnull]. split; [done|]. rewrite Hnull, andb_true_r. apply forallb_forall. intros [k [w|]] Hin; [|done].
        apply (quotes_null attrs), Hq. by apply list_elem_of_In.
Qed.

Lemma nullable_shaped q m ok : well_shaped q m ok -> well_shaped q (nullable m) (fun v => is_null v || ok v).
Proof.
  intros [Hs Hp Hk Hv Hnull]. unfold nullable. destruct (map_get (s! "type") m) as [[| | | |t|ts|]|] eqn:Et; try done.
  - destruct Hnull as [Ht Hnull]. rewrite bool_decide_eq_true_2 by done.
    constructor.
    + by apply insert_sorted.
    + by apply insert_plain.
    + intros k w [[-> _]|Hg]%get_insert_cases; [left; decided|by apply Hk].
    + intros v. rewrite validates_plain by (by apply insert_plain). rewrite forallb_insert_delete by done.
      rewrite asserts_types. destruct (is_null v) eqn:En.
      * destruct v; try done. rewrite forallb_delete by done. rewrite andb_true_r. cbn [existsb].
        apply orb_true_intro. by right.
      * rewrite <-Hv, validates_plain, (forallb_get _ (s! "type") (VString t) m), asserts_type by done.
        simpl. f_equal. destruct v; try done; simpl; by rewrite ?orb_false_r.
    + rewrite get_insert. split; [simpl; by rewrite orb_true_r|done].
  - destruct Hnull as [Ht Hnull]. rewrite Ht. constructor; try done.
    + intros v. rewrite Hv. destruct (is_null v) eqn:En; [|done]. by destruct v.
    + rewrite Et. done.
  - constructor; try done.
    + by repeat constructor.
    + intros k w. simpl. case_bool_decide; [|done]. intros _. left. subst. decided.
    + intros v. change (validates _ v) with ((validates (VObject m) v || (validates null_schema v || false)) && true && true).
      rewrite Hv, !andb_true_r, orb_false_r, orb_comm. f_equal. by destruct v.
Qed.

Lemma array_shaped q q' m ok : well_shaped q' m ok ->
  well_shaped q (map_insert (s! "items") (VObject m) (typed (s! "array")))
    (fun v => match v with VArray l => forallb ok l | _ => false end).
Proof.
  intros Hm. destruct (typed_shaped q (s! "array")) as [Hs Hp Hk Hv [Ht Hnull]]; [done|]. constructor.
  - by apply insert_sorted.
  - by apply insert_plain.
  - intros k w [[-> _]|Hg]%get_insert_cases; [left; decided|by apply Hk].
  - intros v. rewrite validates_plain by (by apply insert_plain). rewrite forallb_insert by (done || by intros ? ?%Hk).
    rewrite <-validates_plain, Hv, asserts_items by done. destruct v; try done. cbn [on_arrays]. rewrite andb_true_r.
    clear -Hm. induction items as [|x l IH]; [done|]. cbn [forallb]. by rewrite (ws_valid _ _ _ Hm), IH.
  - rewrite map_get_insert_ne by done. split; [done|].
    intros k w Hne [[-> ->]|Hg]%get_insert_cases; [done|by apply Hnull].
Qed.

(** The quotes, as the limits they set. *)
Lemma description_quiet attrs a v : asserts_some (description_quote attrs a) v = true.
Proof. unfold description_quote, asserts_some. by destruct (description attrs a). Qed.
Lemma title_quiet a v : asserts_some (title_quote a) v = true.
Proof. unfold title_quote, asserts_some. by destruct (title a). Qed.
Lemma default_quiet a v : asserts_some (default_quote a) v = true.
Proof. unfold default_quote, asserts_some. by destruct (default a). Qed.
Lemma format_quiet a v : asserts_some (format_quote a) v = true.
Proof. unfold format_quote, asserts_some. by destruct (format a). Qed.
Lemma text_quotes a v : asserts_some (min_quote a) v && asserts_some (max_quote a) v = text_ok a v.
Proof.
  unfold min_quote, max_quote, asserts_some, text_ok, within.
  destruct (min_length a), (max_length a), v; try done; cbn; by rewrite ?andb_true_r.
Qed.
Lemma items_quotes a v : asserts_some (min_items_quote a) v && asserts_some (max_items_quote a) v = items_ok a v.
Proof.
  unfold min_items_quote, max_items_quote, asserts_some, items_ok, within.
  destruct (min_length a), (max_length a), v; try done; cbn; by rewrite ?andb_true_r.
Qed.
Lemma number_quotes a v : asserts_some (min_num_quote a) v && asserts_some (max_num_quote a) v = number_ok a v.
Proof.
  unfold min_num_quote, max_num_quote, asserts_some, number_ok. by destruct (minimum a), (maximum a).
Qed.
End DeriveFacts.

(** The schema of a type is a base with the quotes of its attributes. *)
Ltac literal_elem :=
  lazymatch goal with
  | H : _ ∈ [] |- _ => by apply not_elem_of_nil in H
  | H : _ ∈ _ :: _ |- _ => apply elem_of_cons in H; destruct H as [H|H]; [subst|literal_elem]
  end.
Ltac in_literal := first [apply list_elem_of_here | apply list_elem_of_further; in_literal].
Ltac quoted :=
  eapply DeriveFacts.well_shaped_ext;
  [|apply DeriveFacts.insert_quotes; [intros ? ?; literal_elem; in_literal|decided|]].

Section Types.
Import DeriveFacts.
Context (json_schema : str -> Map) (named : str -> Value -> bool).
Context (Henv : forall t, well_shaped [] (json_schema t) (named t)).

Lemma unknown_shaped attrs : let a := schema_attrs attrs in
  well_shaped (quotes attrs)
    (insert_some [description_quote attrs a; title_quote a; default_quote a] (typed (s! "unknown"))) (fun _ => false).
Proof.
  intros a. quoted; [|by apply typed_shaped]. intros v. cbn beta.
  by replace (type_is (s! "unknown") v) with false by (by destruct v); rewrite andb_false_r.
Qed.
Lemma number_shaped attrs t test : let a := schema_attrs attrs in t <> s! "null" -> (forall v, type_is t v = test v) ->
  well_shaped (quotes attrs)
    (insert_some [description_quote attrs a; title_quote a; min_num_quote a; max_num_quote a; default_quote a] (typed t))
    (fun v => test v && number_ok a v).
Proof.
  intros a Ht E. quoted; [|by apply typed_shaped]. intros v. cbn [forallb].
  by rewrite description_quiet, title_quiet, default_quiet, E, <-number_quotes, !andb_true_r, andb_comm, !andb_true_l.
Qed.

Lemma string_shaped attrs : let a := schema_attrs attrs in
  well_shaped (quotes attrs)
    (insert_some [description_quote attrs a; title_quote a; format_quote a; min_quote a; max_quote a; default_quote a]
       (typed (s! "string")))
    (fun v => is_some (as_string v) && text_ok a v).
Proof.
  intros a. quoted; [|by apply typed_shaped]. intros v. cbn [forallb].
  rewrite description_quiet, title_quiet, format_quiet, default_quiet, <-text_quotes, !andb_true_r, !andb_true_l, andb_comm.
  f_equal. by destruct v.
Qed.
Lemma bool_shaped attrs : let a := schema_attrs attrs in
  well_shaped (quotes attrs) (insert_some [description_quote attrs a; title_quote a; default_quote a] (typed (s! "boolean")))
    (fun v => is_some (as_bool v)).
Proof.
  intros a. quoted; [|by apply typed_shaped]. intros v. cbn [forallb].
  rewrite description_quiet, title_quiet, default_quiet, !andb_true_l. by destruct v.
Qed.
Lemma named_shaped attrs t : let a := schema_attrs attrs in
  well_shaped (quotes attrs) (insert_some [description_quote attrs a; title_quote a; default_quote a] (json_schema t)) (named t).
Proof.
  intros a. quoted; [|apply well_shaped_more, Henv]. intros v. cbn [forallb].
  by rewrite description_quiet, title_quiet, default_quiet.
Qed.
Lemma option_shaped attrs m ok : let a := schema_attrs attrs in well_shaped (quotes attrs) m ok ->
  well_shaped (quotes attrs)
    (insert_some [description_quote attrs a; title_quote a; format_quote a; min_quote a; max_quote a; min_num_quote a;
                  max_num_quote a; default_quote a] (nullable m))
    (fun v => (is_null v || ok v) && text_ok a v && number_ok a v).
Proof.
  intros a Hm. quoted; [|apply nullable_shaped, Hm]. intros v. cbn [forallb].
  rewrite description_quiet, title_quiet, format_quiet, default_quiet, <-text_quotes, <-number_quotes.
  by destruct (asserts_some (min_quote a) v), (asserts_some (max_quote a) v), (asserts_some (min_num_quote a) v),
    (asserts_some (max_num_quote a) v), (is_null v || ok v).
Qed.
Lemma vec_shaped attrs q m ok : let a := schema_attrs attrs in well_shaped q m ok ->
  well_shaped (quotes attrs)
    (insert_some [description_quote attrs a; title_quote a; min_items_quote a; max_items_quote a; default_quote a]
       (map_insert (s! "items") (VObject m) (typed (s! "array"))))
    (fun v => match v with VArray l => forallb ok l && items_ok a v | _ => false end).
Proof.
  intros a Hm. quoted; [|eapply array_shaped, Hm]. intros v. cbn [forallb].
  rewrite description_quiet, title_quiet, default_quiet, !andb_true_l, andb_true_r, items_quotes.
  destruct v; try (by rewrite andb_false_r). apply andb_comm.
Qed.

Lemma type_integer v : type_is (s! "integer") v = is_integer v.
Proof. by destruct v. Qed.
Lemma type_number v : type_is (s! "number") v = is_number v.
Proof. by destruct v. Qed.

(** The schema of a type accepts the type's documents. *)
Lemma type_shaped : forall ty attrs,
  well_shaped (quotes attrs) (type_to_json_schema json_schema ty attrs) (accepts named ty attrs).
Proof.
  pose proof unknown_shaped as Hu. pose proof number_shaped as Hn.
  fix IH 1. intros ty attrs. specialize (Hu attrs). pose proof (Hn attrs (s! "number") _ ltac:(done) type_number) as Hnum.
  pose proof (Hn attrs (s! "integer") _ ltac:(done) type_integer) as Hint. clear Hn.
  destruct ty as [lc [|[ident args] [|[i1 a1] [|s3 segs]]]|]; try exact Hu; try (destruct lc; exact Hu).
  - cbn [type_to_json_schema accepts]. cbv zeta. cbn [app]. destruct lc, args as [|[|[inner|] [|]]|].
    all: case_bool_decide as E1; [first [exact Hu|exact (option_shaped attrs _ _ (IH inner attrs))]|].
    all: case_bool_decide as E2; [first [exact Hu|exact (vec_shaped attrs _ _ _ (IH inner []))]|].
    all: case_bool_decide; [exact Hnum|]; destruct (might_be_struct _); [apply named_shaped|].
    all: case_bool_decide; [apply string_shaped|]; case_bool_decide; [exact Hint|]; case_bool_decide; [exact Hnum|].
    all: case_bool_decide; [apply bool_shaped|exact Hu].
  - cbn [type_to_json_schema accepts]. cbv zeta. cbn [app].
    destruct lc; [exact Hu|]. destruct args; try exact Hu. destruct a1; try exact Hu.
    case_bool_decide; [|exact Hu]. case_bool_decide; [exact Hnum|exact Hu].
  - destruct lc; [exact Hu|]. destruct args, a1; exact Hu.
Qed.
End Types.

Section Derive.
Import MapFacts SchemaFacts DeriveFacts.
Context (json_schema : str -> Map) (named : str -> Value -> bool).
Context (Henv : forall t, well_shaped [] (json_schema t) (named t)).
Implicit Types (fields : list Field) (v : Value).

Lemma field_valid f v : validates (field_schema json_schema f) v = accepts_field named f v.
Proof. apply (ws_valid _ _ _ (type_shaped json_schema named Henv (f_ty f) (f_attrs f))). Qed.

(** What [properties] and [required] say together. *)
Lemma object_fields_valid fields v : is_some (object_fields v) = true -> NoDup (field_name <$> fields) ->
  asserts (s! "properties", VObject (properties json_schema fields)) v &&
    asserts (s! "required", VArray (VString <$> required fields)) v = accepts_object named fields v.
Proof.
  intros Hv Hn. destruct v as [| | | | | |fs]; try done. rewrite asserts_properties, asserts_required. unfold properties.
  destruct (map_of_spec ((fun f => (field_name f, field_schema json_schema f)) <$> fields)) as [_ ->].
  { rewrite <-list_fmap_compose. exact Hn. }
  unfold accepts_object, required. cbn [object_fields is_some andb]. clear Hn.
  induction fields as [|f fields IH]; [done|]. rewrite fmap_cons. cbn [forallb fst snd omap list_omap]. unfold list_omap.
  rewrite <-IH. destruct (json_get (field_name f) (VObject fs)) as [x|] eqn:E.
  - rewrite field_valid, <-!andb_assoc. do 2 f_equal. destruct (is_option (f_ty f)); [done|]. cbn [forallb]. by rewrite E.
  - destruct (is_option (f_ty f)); [done|]. cbn [forallb]. rewrite E. by rewrite andb_false_r.
Qed.

Lemma object_shaped fields : NoDup (field_name <$> fields) ->
  well_shaped [] (object_schema json_schema fields) (accepts_object named fields).
Proof.
  intros Hn. unfold object_schema.
  set (m := map_insert (s! "properties") (VObject (properties json_schema fields)) (typed (s! "object"))).
  assert (Hm : sorted m /\ plain m /\ map_get (s! "type") m = Some (VString (s! "object")) /\
    (forall k w, map_get k m = Some w -> k ∈ structural) /\
    (forall v, validates (VObject m) v =
       is_some (object_fields v) && asserts (s! "properties", VObject (properties json_schema fields)) v)).
  { split_and!; try done.
    - apply insert_sorted. by repeat constructor.
    - intros k w [[-> _]|Hg]%get_insert_cases; [decided|]. simpl in Hg. case_bool_decide; [subst; decided|done].
    - intros v. rewrite validates_plain by done. unfold m. rewrite forallb_insert by (done || by repeat constructor).
      change (forallb _ (typed _)) with (type_is (s! "object") v && true). rewrite andb_true_r, andb_comm. f_equal. by destruct v. }
  destruct Hm as (Hs & Hp & Ht & Hk & Hv).
  assert (Hr : required fields = [] -> well_shaped [] m (accepts_object named fields)).
  { intros Er. constructor; try done.
    - intros k w Hg%Hk. by left.
    - intros v. rewrite Hv. destruct (is_some (object_fields v)) eqn:Eo; [|unfold accepts_object; by rewrite Eo].
      rewrite <-object_fields_valid, Er by done. cbn [andb]. destruct v; try done. rewrite asserts_required. cbn [forallb]. by rewrite andb_true_r.
    - rewrite Ht. split; [done|]. intros k w Hne [[-> ->]|Hg]%get_insert_cases; [apply asserts_properties_null|].
      simpl in Hg. by rewrite bool_decide_eq_false_2 in Hg. }
  destruct (required fields) as [|r rs] eqn:Er; [by apply Hr|]. rewrite <-Er. clear Hr.
  constructor.
  - by apply insert_sorted.
  - by apply insert_plain.
  - intros k w [[-> _]|Hg%Hk]%get_insert_cases; left; [decided|done].
  - intros v. rewrite validates_plain by (by apply insert_plain). rewrite forallb_insert by done.
    rewrite <-validates_plain, Hv by done. destruct (is_some (object_fields v)) eqn:Eo.
    + rewrite <-object_fields_valid by done. cbn [andb]. apply andb_comm.
    + unfold accepts_object. rewrite Eo. apply andb_false_r.
  - rewrite map_get_insert_ne, Ht by done. split; [done|].
    intros k w Hne [[-> ->]|[[-> ->]|Hg]%get_insert_cases]%get_insert_cases; [by rewrite asserts_required|apply asserts_properties_null|].
    simpl in Hg. by rewrite bool_decide_eq_false_2 in Hg.
Qed.

(** Every list of named fields has distinct names. *)
Definition fields_named (fs : Fields) : Prop := match fs with Named l => NoDup (field_name <$> l) | _ => True end.
Definition well_named (input : DeriveInput) : Prop :=
  match data input with
  | Struct fs => fields_named fs
  | Enum variants => Forall (fun x => fields_named (v_fields x)) variants
  | Union => True
  end.

Lemma tuple_valid fields (l : list Value) :
  places validates (field_schema json_schema <$> fields) l && (size_of l <=? size_of (field_schema json_schema <$> fields))%Z =
  accepts_tuple named fields l.
Proof.
  unfold size_of. revert l; induction fields as [|f fields IH]; intros [|x l]; try done. rewrite fmap_cons.
  cbn [places accepts_tuple length]. rewrite <-IH, field_valid, <-andb_assoc. do 2 f_equal.
  destruct (Z.leb_spec (Z.of_nat (length l)) (Z.of_nat (length (field_schema json_schema <$> fields))));
    [apply Z.leb_le|apply Z.leb_gt]; lia.
Qed.

(** The title and the description of a variant say nothing. *)
Lemma variant_quotes_valid attrs m v : sorted m ->
  validates (VObject (insert_some (variant_quotes attrs) m)) v = validates (VObject m) v.
Proof.
  intros Hs. unfold variant_quotes. destruct (each_attribute _ _ _ _) as [[t|] [d|]]; unfold insert_some; cbn [foldl snd fst fmap option_fmap option_map];
    repeat (rewrite (fun H => proj2 (annotation_valid (s! "description") _ _ v ltac:(decided) H)) by (by try apply insert_sorted));
    try done; by rewrite (fun H => proj2 (annotation_valid (s! "title") _ _ v ltac:(decided) H)).
Qed.

Lemma variant_valid x v : fields_named (v_fields x) -> validates (variant_schema json_schema x) v = accepts_variant named x v.
Proof.
  intros Hn. unfold variant_schema, accepts_variant. destruct (v_fields x) as [l|l|].
  - pose proof (object_shaped l Hn) as Hl. rewrite variant_quotes_valid by apply (ws_sorted _ _ _ Hl). apply (ws_valid _ _ _ Hl).
  - assert (Ht : validates (VObject (insert_some (variant_quotes (v_attrs x))
        (map_insert (s! "additionalItems") (VBool false)
          (map_insert (s! "items") (VArray (field_schema json_schema <$> l)) (typed (s! "array")))))) v =
        match v with VArray vs => accepts_tuple named l vs | _ => false end).
    { rewrite variant_quotes_valid by (do 2 apply insert_sorted; by repeat constructor).
      change (validates _ v) with ((on_arrays (places validates (field_schema json_schema <$> l)) v && (type_is (s! "array") v && true)) &&
        on_arrays (fun vs => (size_of vs <=? size_of (field_schema json_schema <$> l))%Z) v).
      destruct v; try done. cbn [on_arrays]. rewrite andb_true_r. apply tuple_valid. }
    destruct l as [|f [|g r]]; [exact Ht| |exact Ht]. clear Ht.
    pose proof (type_shaped json_schema named Henv (f_ty f) (f_attrs f)) as Hf.
    rewrite variant_quotes_valid by apply (ws_sorted _ _ _ Hf). apply (ws_valid _ _ _ Hf).
  - rewrite variant_quotes_valid by (by repeat constructor).
    change (validates _ v) with (((value_eqb v (VString (variant_name x)) || false) && true) && true).
    by rewrite orb_false_r, !andb_true_r.
Qed.

Lemma item_shaped input : well_named input ->
  well_shaped [] (from_option id [] (derive_json_schema json_schema input)) (accepts_item named input).
Proof.
  assert (Hempty : well_shaped [] [] (fun _ => true)) by (constructor; done || by constructor).
  unfold well_named, derive_json_schema, accepts_item. destruct (data input) as [[l|l|]|vs|]; try (intros _; exact Hempty);
    [apply object_shaped|]. intros Hv. simpl.
  constructor; try done.
  - by repeat constructor.
  - intros k w. simpl. case_bool_decide; [|done]. intros _. left. subst. decided.
  - intros v. change (validates _ v) with ((asserts (s! "oneOf", VArray (variant_schema json_schema <$> vs)) v && true) && true).
    rewrite !andb_true_r, asserts_one_of. f_equal.
    induction Hv as [|x vs Hx _ IH]; [done|]. rewrite fmap_cons. cbn [List.filter]. rewrite variant_valid by done.
    destruct (accepts_variant named x v); simpl; by rewrite IH.
Qed.
End Derive.

Lemma program_shaped program : Forall well_named program ->
  forall t, DeriveFacts.well_shaped [] (json_schema_of program t) (accepts_named program t).
Proof.
  induction 1 as [|input program Hi _ IH]; intros t; simpl; [constructor; done || by constructor|].
  case_bool_decide; [by apply item_shaped|apply IH].
Qed.

(** *** What is accepted is what is meant *)

Module CoveredFacts.
Import RustFacts.
Implicit Types (attrs : list Attribute).

(** The attribute's limits, as the macro reads them. *)
Definition schema_step (e : str * option Lit) (a : SchemaAttrs) : SchemaAttrs := from_option id a (schema_meta e.1 e.2 a).
Lemma meta_read k o a : well_formed_meta (k, o) = true -> exists a', schema_meta k o a = Some a' /\
  min_length a' = match number_of (s! "min_length") (k, o) with Some z => Some z | None => min_length a end /\
  max_length a' = match number_of (s! "max_length") (k, o) with Some z => Some z | None => max_length a end /\
  minimum a' = match number_of (s! "minimum") (k, o) with Some z => Some z | None => minimum a end /\
  maximum a' = match number_of (s! "maximum") (k, o) with Some z => Some z | None => maximum a end.
Proof.
  destruct o as [l|]; [|done]. destruct a as [t f l1 l2 n1 n2 d s]. destruct l as [s0|z|dg sc|b|]; cbn [well_formed_meta]; [| | | |done].
  - intros Hk%bool_decide_eq_true. repeat (apply elem_of_cons in Hk as [->|Hk]); [..|by apply elem_of_nil in Hk]; by eexists.
  - intros [[Hk%bool_decide_eq_true Hz]%andb_prop|[Hk%bool_decide_eq_true Hz]%andb_prop]%orb_prop;
      repeat (apply elem_of_cons in Hk as [->|Hk]); try (by apply elem_of_nil in Hk);
      cbn [schema_meta number_of]; cbn; rewrite ?Hz; by eexists.
  - intros ->%bool_decide_eq_true. by eexists.
  - intros ->%bool_decide_eq_true. by eexists.
Qed.
Lemma each_meta_folds l a : forallb well_formed_meta l = true ->
  each_meta schema_meta l a = foldl (fun a e => schema_step e a) a l.
Proof.
  revert a; induction l as [|[k v] l IH]; intros a; [done|]. cbn [forallb each_meta foldl]. intros [Hk Hl]%andb_prop.
  destruct (meta_read k v a Hk) as (a' & E & _). unfold schema_step at 2. cbn [fst snd]. rewrite E. by apply IH.
Qed.
Lemma attributes_fold attrs a : forallb well_formed_meta (schema_metas attrs) = true ->
  each_attribute (s! "json_schema") schema_meta attrs a = foldl (fun a e => schema_step e a) a (schema_metas attrs).
Proof.
  unfold each_attribute, schema_metas, of_path. revert a; induction attrs as [|x attrs IH]; intros a; [done|].
  cbn [foldl List.filter]. case_bool_decide; [|apply IH]. rewrite fmap_cons. cbn [concat].
  rewrite forallb_app, foldl_app. intros [Hx Hr]%andb_prop. rewrite (each_meta_folds _ a Hx). by apply IH.
Qed.
Lemma or_else_assoc {A} (o p q : option A) :
  match o with Some z => Some z | None => match p with Some z => Some z | None => q end end =
  match match o with Some z => Some z | None => p end with Some z => Some z | None => q end.
Proof. by destruct o. Qed.
Lemma fold_limits l a : forallb well_formed_meta l = true -> let a' := foldl (fun a e => schema_step e a) a l in
  min_length a' = match last (omap (number_of (s! "min_length")) l) with Some z => Some z | None => min_length a end /\
  max_length a' = match last (omap (number_of (s! "max_length")) l) with Some z => Some z | None => max_length a end /\
  minimum a' = match last (omap (number_of (s! "minimum")) l) with Some z => Some z | None => minimum a end /\
  maximum a' = match last (omap (number_of (s! "maximum")) l) with Some z => Some z | None => maximum a end.
Proof.
  revert a; induction l as [|[k v] l IH]; intros a; [done|]. cbn [forallb foldl]. intros [Hk Hl]%andb_prop.
  destruct (meta_read k v a Hk) as (a' & E & E1 & E2 & E3 & E4).
  assert (Es : schema_step (k, v) a = a') by (unfold schema_step; cbn [fst snd]; by rewrite E).
  destruct (IH a' Hl) as (I1 & I2 & I3 & I4). rewrite !last_omap_cons, Es. cbv zeta in *.
  rewrite I1, I2, I3, I4, E1, E2, E3, E4. split_and!; apply or_else_assoc.
Qed.
Lemma limits_read attrs : forallb well_formed_meta (schema_metas attrs) = true -> let a := schema_attrs attrs in
  mkLimits (min_length a) (max_length a) (minimum a) (maximum a) = limits attrs.
Proof.
  intros Hw a. subst a. unfold schema_attrs. rewrite attributes_fold by done.
  destruct (fold_limits (schema_metas attrs) no_schema_attrs Hw) as (-> & -> & -> & ->). unfold limits, limit.
  cbn [no_schema_attrs min_length max_length minimum maximum]. by repeat case_match.
Qed.

(** The name a field or variant gets. *)
Lemma handed_renames b ms acc : forallb (known_meta b) ms = true -> rename_first ms = true ->
  each_meta (fun k v acc => Some (if bool_decide (k = s! "rename") then match v with Some (LStr s) => Some s | _ => acc end else acc)) (handed ms) acc =
  match last (omap rename_of ms) with Some s => Some s | None => acc end.
Proof.
  revert acc; induction ms as [|m ms IH]; intros acc; [done|]. cbn [forallb]. intros [Hm Hms]%andb_prop Hr. rewrite last_omap_cons.
  destruct m as [[p|] e|[p|] args|[p|]]; try done.
  - destruct e as [[s0| | | |]| | | | |]; try done. cbn [handed rename_of text_value each_meta]. cbn [rename_first rename_of text_value] in Hr.
    destruct (decide (p = s! "rename")) as [->|Hne].
    + rewrite bool_decide_eq_true_2 by done. cbn [is_some] in Hr. rewrite IH by done. by case_match.
    + rewrite bool_decide_eq_false_2 by done. cbn [is_some] in Hr. cbn [each_meta].
      assert (E : omap rename_of ms = []).
      { clear -Hr. induction ms as [|m ms IH]; [done|]. cbn [forallb] in Hr. apply andb_prop in Hr as [Hm Hr].
        cbn [omap list_omap]. destruct (rename_of m); [done|]. by apply IH. }
      by rewrite E.
  - cbn [known_meta] in Hm. apply bool_decide_eq_true in Hm as ->. cbn [handed each_meta rename_of text_value]. 
    rewrite bool_decide_eq_false_2 by done. cbn [rename_first] in Hr. rewrite IH by done. by case_match.
Qed.
Lemma renamed_read b attrs : forallb (serde_read b) (of_path (s! "serde") attrs) = true -> renamed_field attrs = renamed attrs.
Proof.
  intros Ha. unfold renamed_field, each_attribute, renamed, serde_metas.
  assert (G : forall acc, foldl (fun acc a => if bool_decide (path a = s! "serde") then each_meta (fun k v acc =>
      Some (if bool_decide (k = s! "rename") then match v with Some (LStr s) => Some s | _ => acc end else acc)) (nested a) acc else acc) acc attrs =
    match last (omap rename_of (concat ((fun a => from_option id [] (metas a)) <$> of_path (s! "serde") attrs))) with Some s => Some s | None => acc end);
    [|rewrite G; by case_match].
  unfold of_path in *. induction attrs as [|x attrs IH]; intros acc; [done|]. cbn [foldl List.filter] in *.
  case_bool_decide; [|by apply IH]. cbn [forallb] in Ha. apply andb_prop in Ha as [Hx Ha]. rewrite fmap_cons. cbn [concat].
  unfold serde_read in Hx. destruct (metas x) as [ms|]; [|done]. apply andb_prop in Hx as [[Hn%bool_decide_eq_true Hk]%andb_prop Hr].
  rewrite Hn, (handed_renames b ms acc Hk Hr), IH by done. cbn [from_option id]. rewrite omap_app, last_app.
  repeat case_match; by simplify_eq.
Qed.
Lemma key_read b ident attrs : well_keyed b ident attrs = true -> from_option id ident (renamed_field attrs) = serde_key ident attrs.
Proof.
  intros [Ha Hi]%andb_prop. rewrite (renamed_read b) by done. unfold serde_key. destruct (renamed attrs); [done|].
  apply bool_decide_eq_true in Hi. by rewrite Hi.
Qed.

(** Types. *)
Abbreviation of_attrs a := (mkLimits (min_length a) (max_length a) (minimum a) (maximum a)).
Lemma text_between a x : text_ok a (VString x) = between (min_length a) (max_length a) (Z.of_N (char_count x)).
Proof. unfold text_ok, on_strings, within, between. by destruct (min_length a), (max_length a). Qed.
Lemma items_between a l : items_ok a (VArray l) = between (min_length a) (max_length a) (size_of l).
Proof. unfold items_ok, on_arrays, within, between. by destruct (min_length a), (max_length a). Qed.
Lemma number_bounded a (v : Value) : number_ok a v = bounded (of_attrs a) v.
Proof. unfold number_ok, bounded. by destruct (minimum a), (maximum a). Qed.

Section Types.
Context (declared : list str) (accepted meant_of : str -> Value -> bool).
Context (Hdecl : Forall (fun t => t ∉ reserved) declared) (Henv : forall t v, t ∈ declared -> accepted t v = meant_of t v).

Lemma known_meant : Forall (fun e => forall attrs v,
  accepts accepted (TPath false [mkSegment e.1 NoArguments]) attrs v = meant meant_of (of_attrs (schema_attrs attrs)) e.2 v) known_types.
Proof.
  assert (Hb : forall v, is_some (as_bool v) = match v with VBool _ => true | _ => false end) by (by intros []).
  assert (Hs : forall a v, is_some (as_string v) && text_ok a v =
    match v with VString s => between (min_length a) (max_length a) (Z.of_N (char_count s)) | _ => false end)
    by (intros a []; [done..|apply text_between|done|done]).
  assert (Hi : forall attrs v, is_integer v && number_ok (schema_attrs attrs) v = is_integer v && bounded (of_attrs (schema_attrs attrs)) v)
    by (intros; by rewrite number_bounded).
  assert (Hn : forall attrs v, is_number v && number_ok (schema_attrs attrs) v = is_number v && bounded (of_attrs (schema_attrs attrs)) v)
    by (intros; by rewrite number_bounded).
  unfold known_types. apply Forall_cons; split; [intros attrs v; exact (Hb v)|].
  apply Forall_cons; split; [intros attrs v; exact (Hs (schema_attrs attrs) v)|].
  repeat (apply Forall_cons; split; [first [exact Hi | exact Hn]|]). constructor.
Qed.

Lemma fit_ok l a t v : l = of_attrs a -> limits_fit l t = true -> meant meant_of l t v = true ->
  text_ok a v = true /\ number_ok a v = true.
Proof.
  intros ->. assert (Hno : min_length a = None -> max_length a = None -> text_ok a v = true)
    by (unfold text_ok, within; intros -> ->; by destruct v).
  assert (Hbo : minimum a = None -> maximum a = None -> number_ok a v = true) by (unfold number_ok; by intros -> ->).
  induction t as [| |sg n| | |t IH|t _|t]; cbn [limits_fit meant shortest longest least greatest]; intros Hf Hm;
    try (destruct (min_length a), (max_length a); try done; []; destruct (minimum a), (maximum a); try done; []; by auto).
  - destruct v as [| | | |x| |]; try done. split; [by rewrite text_between|]. unfold number_ok. by destruct (minimum a), (maximum a).
  - apply andb_prop in Hm as [Hv Hm]. rewrite number_bounded. split; [|done]. by destruct v.
  - apply andb_prop in Hm as [Hv Hm]. rewrite number_bounded. split; [|done]. by destruct v.
  - apply andb_prop in Hm as [Hv Hm]. rewrite number_bounded. split; [|done]. by destruct v.
  - destruct v; try (by apply IH). split; [done|]. unfold number_ok. by destruct (minimum a), (maximum a).
  - destruct v as [| | | | |x|]; try done. split; [done|]. unfold number_ok. by destruct (minimum a), (maximum a).
Qed.
Lemma no_limits_fit t : limits_fit no_limits t = true.
Proof. by induction t. Qed.

Lemma accepts_meant : forall ty attrs t v, read_type declared ty = Some t ->
  forallb well_formed_meta (schema_metas attrs) = true -> limits_fit (limits attrs) t = true ->
  accepts accepted ty attrs v = meant meant_of (limits attrs) t v.
Proof.
  fix IH 1. intros ty attrs t v Ht Hw Hf. pose proof (limits_read attrs Hw) as Hl. cbv zeta in Hl.
  destruct ty as [[] [|[name args] [|[i1 a1] [|s3 segs]]]|]; try done.
  3: { cbn [read_type] in Ht. by repeat case_match. }
  2: { destruct args as [|[|[] [|]]|], a1; try done. cbn [read_type] in Ht. case_decide as E; [|done]. destruct E as [-> ->]. injection Ht as <-.
       cbn [meant]. rewrite <-Hl, <-number_bounded. done. }
  destruct args as [|[|[inner|] [|]]|]; try done; cbn [read_type] in Ht.
  - destruct (List.find _ known_types) as [e|] eqn:E.
    + apply find_some in E as [Hin%list_elem_of_In He%bool_decide_eq_true]. subst name. injection Ht as <-.
      pose proof known_meant as Hk. rewrite Forall_forall in Hk. rewrite (Hk e Hin attrs v). by rewrite Hl.
    + case_decide as Hd; [|done]. injection Ht as <-. cbn [meant]. rewrite <-(Henv name v) by done.
      rewrite Forall_forall in Hdecl. pose proof (Hdecl name Hd) as Hr.
      assert (Hne : forall x, x ∈ reserved -> name <> x) by (intros x Hx ->; done).
      cbn [accepts]. rewrite !bool_decide_eq_false_2 by (apply Hne; decided).
      unfold might_be_struct. rewrite bool_decide_eq_false_2; [done|]. intros Hc.
      assert (Hall : Forall (fun x => x ∈ reserved) common_types) by decided. rewrite Forall_forall in Hall. by destruct Hr; apply Hall.
  - case_decide as E1; [|case_decide as E2; [|done]]; subst name; destruct (read_type declared inner) as [t'|] eqn:Ei; try done;
      injection Ht as <-; cbn [accepts].
    + rewrite bool_decide_eq_true_2 by done. cbn [limits_fit] in Hf. rewrite (IH inner attrs t' v Ei Hw Hf). cbn [meant].
      pose proof (fit_ok (limits attrs) (schema_attrs attrs) t' v (eq_sym Hl) Hf) as Hok.
      destruct v; try (cbn [is_null orb]; destruct (meant meant_of (limits attrs) t' _); [destruct (Hok eq_refl) as [-> ->]; done|done]).
      cbn [is_null orb]. unfold text_ok, on_strings, number_ok. by destruct (minimum _), (maximum _).
    + rewrite bool_decide_eq_false_2, bool_decide_eq_true_2 by done. cbn [meant].
      destruct v as [| | | | |l|]; try done. rewrite items_between, <-Hl. f_equal.
      clear -IH Ei. induction l as [|x l IHl]; [done|]. cbn [forallb]. rewrite IHl. f_equal.
      exact (IH inner [] t' x Ei eq_refl (no_limits_fit t')).
Qed.

(** Fields and types. *)
Lemma option_read ty t : read_type declared ty = Some t -> is_option ty = optional t.
Proof.
  destruct ty as [[] [|[name args] [|[i1 a1] [|s3 segs]]]|]; try done; cbn [read_type is_option].
  - destruct args as [|[|[inner|] [|]]|]; try done.
    + destruct (List.find _ _) as [e|] eqn:E; [|case_decide; by intros [= <-]].
      intros [= <-]. apply find_some in E as [Hin%list_elem_of_In _].
      assert (Hall : Forall (fun e => optional e.2 = false) known_types) by (by repeat constructor).
      rewrite Forall_forall in Hall. by rewrite (Hall e Hin).
    + case_decide as E; [|case_decide; [|done]]; subst; destruct (read_type declared inner); try done; intros [= <-]; done.
  - intros Ht. repeat case_match; by simplify_eq.
  - intros Ht. repeat case_match; by simplify_eq.
Qed.
Lemma covered_field_read f : covered_field declared f = true ->
  field_name f = field_key f /\ exists t, field_type declared f = Some t /\ is_option (f_ty f) = optional t /\
  forall v, accepts_field accepted f v = meant meant_of (limits (f_attrs f)) t v.
Proof.
  unfold covered_field, field_type. destruct (read_type declared (f_ty f)) as [t|] eqn:E; [|done].
  intros [[Hk Hw]%andb_prop Hf]%andb_prop. split; [by apply (key_read (optional t))|]. exists t.
  split; [done|]. split; [by apply option_read|]. intros v. by apply accepts_meant.
Qed.
Lemma covered_object fields v : forallb (covered_field declared) fields = true ->
  accepts_object accepted fields v = meant_object declared meant_of fields v.
Proof.
  intros Hf. unfold accepts_object, meant_object. destruct v; try done. cbn [object_fields is_some andb].
  induction fields as [|f fields IH]; [done|]. cbn [forallb] in *. apply andb_prop in Hf as [Hc Hf]. rewrite IH by done. f_equal.
  destruct (covered_field_read f Hc) as (-> & t & -> & -> & Hv). destruct (json_get _ _); [apply Hv|done].
Qed.
Lemma covered_variants variants v : NoDup (variant_key <$> variants) -> forallb covered_variant variants = true ->
  Nat.eqb (length (List.filter (fun x => accepts_variant accepted x v) variants)) 1 =
  match v with VString s => bool_decide (s ∈ variant_key <$> variants) | _ => false end.
Proof.
  intros Hn Hc. rewrite forallb_forall in Hc.
  assert (E : List.filter (fun x => accepts_variant accepted x v) variants =
              List.filter (fun x => value_eqb v (VString (variant_key x))) variants).
  { clear Hn. induction variants as [|x variants IH]; [done|]. cbn [List.filter].
    rewrite IH by (intros y Hy; apply Hc; by right). specialize (Hc x (or_introl eq_refl)). unfold covered_variant in Hc.
    unfold accepts_variant. destruct (v_fields x); try done. unfold variant_name. by rewrite (key_read false (v_ident x)). }
  rewrite E. clear E Hc. destruct v as [| | | |s| |]; try (by induction variants as [|x variants IH]; [|apply NoDup_cons in Hn as [_ Hn]; auto]).
  cbn [value_eqb]. induction variants as [|x variants IH]; [done|]. rewrite fmap_cons in *. apply NoDup_cons in Hn as [Hx Hn].
  specialize (IH Hn). cbn [List.filter]. destruct (bool_decide_reflect (s = variant_key x)) as [E|E].
  - cbn [length Nat.eqb]. rewrite (bool_decide_eq_true_2 (s ∈ _)) by (rewrite E; by left).
    assert (Hno : forall l : list Variant, s ∉ variant_key <$> l -> List.filter (fun x => bool_decide (s = variant_key x)) l = []).
    { induction l as [|y l IHl]; [done|]. rewrite fmap_cons. intros [Hy Hl]%not_elem_of_cons. cbn [List.filter].
      rewrite bool_decide_eq_false_2 by done. auto. }
    rewrite Hno by (by rewrite E). done.
  - rewrite IH. apply bool_decide_ext. rewrite elem_of_cons. naive_solver.
Qed.
Lemma covered_item_read input v : covered_item declared input = true ->
  accepts_item accepted input v = meant_item declared meant_of input v /\ well_named input.
Proof.
  unfold covered_item, accepts_item, meant_item, well_named. intros [_ Hd]%andb_prop.
  destruct (data input) as [[fields| |]|variants|]; try done; apply andb_prop in Hd as [Hn%bool_decide_eq_true Hc].
  - split; [by apply covered_object|]. cbn [fields_named].
    replace (field_name <$> fields) with (field_key <$> fields); [done|]. clear Hn.
    induction fields as [|f fields IH]; [done|]. cbn [forallb] in Hc. apply andb_prop in Hc as [Hf Hc]. rewrite !fmap_cons, IH by done.
    by destruct (covered_field_read f Hf) as [-> _].
  - split; [by apply covered_variants|]. apply Forall_forall. intros x Hx%list_elem_of_In. rewrite forallb_forall in Hc.
    specialize (Hc x Hx). unfold covered_variant in Hc. by destruct (v_fields x).
Qed.
End Types.

Lemma covered_accepts program : covered program = true -> Forall well_named program /\
  Forall (fun t => t ∉ reserved) (name <$> program) /\
  forall t v, t ∈ name <$> program -> accepts_named program t v = meant_named program t v.
Proof.
  induction program as [|input rest IH]; cbn [covered accepts_named meant_named]; [intros _; split_and!; [done|done|by intros t v ?%elem_of_nil]|].
  intros [Hi Hr]%andb_prop. destruct (IH Hr) as (IH1 & IH2 & IH3).
  pose proof (covered_item_read (name <$> rest) (accepts_named rest) (meant_named rest) IH2 IH3 input) as Hc. split_and!.
  - constructor; [|done]. by destruct (Hc VNull Hi).
  - rewrite fmap_cons. constructor; [|done]. unfold covered_item in Hi. apply andb_prop in Hi as [[Hn%bool_decide_eq_true _]%andb_prop _]. done.
  - intros t v Ht. rewrite fmap_cons in Ht. case_bool_decide as E; case_decide as E'; try done.
    + by destruct (Hc v Hi).
    + apply IH3. by apply elem_of_cons in Ht as [->|].
Qed.
(** The schema of a type of a covered program. *)
Lemma covered_schema program t v : covered program = true -> t ∈ name <$> program ->
  validates (VObject (json_schema_of program t)) v = meant_named program t v.
Proof.
  intros (Hw & _ & Hm)%covered_accepts Ht. rewrite <-Hm by done. apply DeriveFacts.ws_valid with (q := []). by apply program_shaped.
Qed.
End CoveredFacts.


