(* ===== verification/SerdeDocuments.v ===== *)
(** * Derived schemas and serde

    The documents serde writes for the values of a type with derived
    [Serialize], and that the schema which crates/rust-mcp-macros derives for the
    type accepts them.  [documents] is serde's documented data format, over the
    types and keys that RustTypes.v reads: a struct is an object, a field is left
    out only where an attribute says so, an enum is tagged by the name of its
    variant, and serde_json writes [null] for a float that is not finite. *)
From S2P Require Import Prelude RustStr Json JsonSchema Syn RustTypes DeriveSchema.

(** ** What serde writes *)

(** The values of an integer type. *)
Definition fits (signed : bool) (bits z : Z) : Prop :=
  if signed then (- 2 ^ (bits - 1) <= z < 2 ^ (bits - 1))%Z else (0 <= z < 2 ^ bits)%Z.

(** With [finite] the values have no infinite float and no NaN. *)
Section Documents.
Context (finite : bool) (declared : list str) (named : str -> Value -> Prop).

Fixpoint documents (t : RustType) (v : Value) : Prop :=
  match t with
  | RBool => exists b, v = VBool b
  | RString => exists s, v = VString s
  | RInt signed bits => exists z, v = VNumber z /\ fits signed bits z
  | RFloat => is_number v = true \/ (finite = false /\ v = VNull)
  | RNumber => is_number v = true
  | ROption t => v = VNull \/ documents t v
  | RVec t => match v with VArray l => Forall (documents t) l | _ => False end
  | RNamed t => named t v
  end.
Definition field_document (f : Field) (v : Value) : Prop := exists t, field_type declared f = Some t /\ documents t v.
Definition object_document (fields : list Field) (v : Value) : Prop :=
  exists l, v = VObject (entries l) /\
    Forall2 (fun f e => e.1 = field_key f /\
               match e.2 with Some x => field_document f x | None => omitted_if (f_attrs f) = true end) fields l.
Definition tagged (x : Variant) (v : Value) : Prop :=
  exists w, v = VObject [(variant_key x, w)] /\
    match v_fields x with
    | Unit => False
    | Unnamed [f] => field_document f w
    | Unnamed fields => exists l, w = VArray l /\ Forall2 field_document fields l
    | Named fields => object_document fields w
    end.
Definition item_document (input : DeriveInput) (v : Value) : Prop :=
  match data input with
  | Struct (Named fields) => object_document fields v
  | Enum variants =>
      exists x, x ∈ variants /\ (v_fields x = Unit /\ v = VString (variant_key x) \/ tagged x v)
  | _ => False
  end.
End Documents.

Fixpoint documents_named (finite : bool) (program : list DeriveInput) (t : str) (v : Value) : Prop :=
  match program with
  | [] => False
  | input :: rest =>
      if decide (name input = t) then item_document finite (name <$> rest) (documents_named finite rest) input v
      else documents_named finite rest t v
  end.

(** The programs whose schemas follow serde: those RustTypes.v covers, without
    limits, which serde does not enforce. *)
Definition unlimited_item (input : DeriveInput) : bool :=
  match data input with
  | Struct (Named fields) => forallb (fun f => unlimited (limits (f_attrs f))) fields
  | _ => true
  end.
Definition supported (program : list DeriveInput) : bool := covered program && forallb unlimited_item program.

Module SerdeFacts.
Implicit Types (v : Value) (fields : list Field).

Lemma omitted_optional b attrs : forallb (serde_read b) (of_path (s! "serde") attrs) = true -> omitted_if attrs = true -> b = true.
Proof.
  unfold omitted_if, serde_metas. generalize (of_path (s! "serde") attrs). intros l.
  induction l as [|a l IH]; [done|]. rewrite fmap_cons. cbn [concat forallb]. rewrite existsb_app.
  intros [Ha Hl]%andb_prop [H|H]%orb_prop; [|by apply IH].
  unfold serde_read in Ha. destruct (metas a) as [ms|]; [|done]. apply andb_prop in Ha as [[_ Hk]%andb_prop _].
  cbn [from_option id] in H. apply existsb_exists in H as (m & Hm & Hs). rewrite forallb_forall in Hk. specialize (Hk m Hm).
  destruct m as [[p|] [[x| | | |]| | | | |]| |]; try done. cbn [text_value] in Hs. case_decide as E; [|done]. subst p.
  cbn [known_meta] in Hk. by destruct b.
Qed.

Section Types.
Context (declared : list str) (named : str -> Value -> Prop) (meant_of : str -> Value -> bool).
Context (Henv : forall t v, named t v -> meant_of t v = true).

Lemma documents_meant t v : documents true named t v -> meant meant_of no_limits t v = true.
Proof.
  revert v; induction t as [| |sg n| | |t IH|t IH|t]; intros v; cbn [documents meant].
  - by intros [b ->].
  - by intros [x ->].
  - by intros (z & -> & _).
  - intros [Hv|[? _]]; [by rewrite Hv|done].
  - intros Hv. by rewrite Hv.
  - intros [->|Hv%IH]; [done|]. by destruct v.
  - destruct v as [| | | | |l|]; try done. intros Hl. rewrite andb_true_r. apply forallb_forall. intros x Hx.
    rewrite Forall_forall in Hl. by apply IH, Hl, list_elem_of_In.
  - apply Henv.
Qed.

Lemma object_meant fields v : NoDup (field_key <$> fields) -> forallb (covered_field declared) fields = true ->
  forallb (fun f => unlimited (limits (f_attrs f))) fields = true ->
  object_document true declared named fields v -> meant_object declared meant_of fields v = true.
Proof.
  intros Hn Hf Hu (l & -> & Hl). unfold meant_object.
  assert (El : l.*1 = field_key <$> fields).
  { clear Hn Hf Hu. induction Hl as [|f e fields l [He _] _ IH]; [done|]. by rewrite !fmap_cons, IH, He. }
  rewrite <-El in Hn. rewrite forallb_forall in Hf, Hu. apply forallb_forall. intros f Hin.
  specialize (Hf f Hin). specialize (Hu f Hin). apply list_elem_of_In, list_elem_of_lookup in Hin as [i Hi].
  destruct (Forall2_lookup_l _ _ _ _ _ Hl Hi) as ([k o] & Hi' & Hk & Ho). cbn [fst snd] in *.
  rewrite (json_get_entries l (field_key f) o Hn) by (apply list_elem_of_lookup; exists i; by rewrite Hi', Hk).
  unfold covered_field in Hf. destruct (field_type declared f) as [t|] eqn:Et; [|done]. apply andb_prop in Hf as [[Hf _]%andb_prop _].
  destruct o as [x|].
  - destruct Ho as (t' & Et' & Hx). simplify_eq. destruct (limits (f_attrs f)) as [[] [] [] []]; try done. by apply documents_meant.
  - apply andb_prop in Hf as [Hf _]. by apply (omitted_optional _ (f_attrs f)).
Qed.

Lemma item_meant input v : covered_item declared input = true -> unlimited_item input = true ->
  item_document true declared named input v -> meant_item declared meant_of input v = true.
Proof.
  unfold covered_item, unlimited_item, item_document, meant_item. intros [_ Hd]%andb_prop Hu.
  destruct (data input) as [[fields| |]|variants|]; try done; apply andb_prop in Hd as [Hn%bool_decide_eq_true Hc].
  - by apply object_meant.
  - intros (x & Hx & Hv). rewrite forallb_forall in Hc. specialize (Hc x ltac:(by apply list_elem_of_In)). unfold covered_variant in Hc.
    destruct Hv as [[_ ->]|(w & _ & Hw)]; [|by destruct (v_fields x)]. apply bool_decide_eq_true. by apply list_elem_of_fmap_2.
Qed.
End Types.

Lemma named_meant program : supported program = true ->
  forall t v, documents_named true program t v -> t ∈ name <$> program /\ meant_named program t v = true.
Proof.
  unfold supported. induction program as [|input rest IH]; [done|]. cbn [covered forallb documents_named meant_named].
  intros [[Hi Hc]%andb_prop [Hu Hf]%andb_prop]%andb_prop t v. rewrite fmap_cons.
  destruct (decide (name input = t)) as [<-|Hne].
  - intros Hd. split; [by left|]. eapply item_meant; [|done..|exact Hd]. intros t' v' Hv. apply IH; [|done]. by rewrite Hc, Hf.
  - intros [Hin Hv]%IH; [|by rewrite Hc, Hf]. split; [by right|done].
Qed.
Lemma schema_accepts program t v : supported program = true -> documents_named true program t v ->
  validates (VObject (json_schema_of program t)) v = true.
Proof.
  intros Hp Hv. destruct (named_meant program Hp t v Hv) as [Ht Hm]. rewrite CoveredFacts.covered_schema; [done| |done].
  by apply andb_prop in Hp as [? _].
Qed.
End SerdeFacts.

(** C38. Derived schemas and derived serialization agree on the supported
    programs: structs with named fields and enums without data, of the types
    and with the attributes that [covered] lists and without limits (so no raw
    identifiers, no serde attribute on the type, and of serde's field
    attributes only a rename for both directions, [alias], [default] and, on
    an [Option], [skip_serializing_if]). A document that serde writes for a
    value of such a type, all of whose floats are finite, is valid under the
    schema the macro derives for the type. *)
Theorem derived_schema_sound program t v : supported program = true -> documents_named true program t v ->
  validates (VObject (json_schema_of program t)) v = true.
Proof. exact (SerdeFacts.schema_accepts program t v). Qed.

Module DeriveDemo.
Definition serde_rename (s : str) : Attribute := mkAttribute (s! "serde") None [(s! "rename", Some (LStr s))] (Some [NameValue (Some (s! "rename")) (ELit (LStr s))]).
Definition skip_none : Attribute := mkAttribute (s! "serde") None [(s! "skip_serializing_if", Some (LStr (s! "Option::is_none")))]
  (Some [NameValue (Some (s! "skip_serializing_if")) (ELit (LStr (s! "Option::is_none")))]).
Definition doc (s : str) : Attribute := mkAttribute (s! "doc") (Some (LStr s)) [] None.
Definition json_schema (metas : list (str * option Lit)) : Attribute := mkAttribute (s! "json_schema") None metas None.
Definition ty (s : str) : Ty := TPath false [mkSegment s NoArguments].
Definition generic (s : str) (t : Ty) : Ty := TPath false [mkSegment s (AngleBracketed [GType t])].
Definition edit : DeriveInput := mkInput [] (s! "EditOperation") (Struct (Named
  [mkField (s! "old_text") [doc (s! " Text to search for"); serde_rename (s! "oldText")] (ty (s! "String"));
   mkField (s! "new_text") [serde_rename (s! "newText")] (ty (s! "String"))])).
Definition colors : DeriveInput := mkInput [] (s! "Colors") (Enum
  [mkVariant (s! "Green") [json_schema [(s! "title", Some (LStr (s! "Green Color")))]] Unit; mkVariant (s! "Red") [] Unit]).
Definition edit_file : DeriveInput := mkInput [] (s! "EditFileTool") (Struct (Named
  [mkField (s! "path") [] (ty (s! "String")); mkField (s! "edits") [] (generic (s! "Vec") (ty (s! "EditOperation")));
   mkField (s! "dry_run") [serde_rename (s! "dryRun"); skip_none] (generic (s! "Option") (ty (s! "bool")));
   mkField (s! "color") [] (generic (s! "Option") (ty (s! "Colors")))])).
Definition program : list DeriveInput := [edit_file; edit; colors].
Definition arguments : Value := VObject
  [(s! "path", VString (s! "a.txt"));
   (s! "edits", VArray [VObject [(s! "oldText", VString (s! "x")); (s! "newText", VString (s! "y"))]]);
   (s! "color", VNull)].

Lemma program_supported : supported program = true.
Proof. vm_compute. reflexivity. Qed.
Lemma arguments_document : documents_named true program (s! "EditFileTool") arguments.
Proof.
  exists [(s! "path", Some (VString (s! "a.txt")));
     (s! "edits", Some (VArray [VObject [(s! "oldText", VString (s! "x")); (s! "newText", VString (s! "y"))]]));
     (s! "dryRun", None); (s! "color", Some VNull)].
  split; [done|]. repeat (apply Forall2_cons; split); [by split; [|exists RString; split; [|eexists]]| |done| |done].
  - split; [done|]. exists (RVec (RNamed (s! "EditOperation"))). split; [done|]. apply Forall_cons. split; [|done].
    exists [(s! "oldText", Some (VString (s! "x"))); (s! "newText", Some (VString (s! "y")))].
    split; [done|]. repeat (apply Forall2_cons; split); [by split; [|exists RString; split; [|eexists]]..|done].
  - split; [done|]. exists (ROption (RNamed (s! "Colors"))). split; [done|]. by left.
Qed.

(** A variant with data is written with its tag, which its schema leaves out;
    two variants that take the same documents leave none for either. *)
Definition shape : DeriveInput := mkInput [] (s! "Shape") (Enum
  [mkVariant (s! "Circle") [] (Unnamed [mkField [] [] (ty (s! "f64"))]); mkVariant (s! "Label") [] (Unnamed [mkField [] [] (ty (s! "String"))])]).
Example tagged_variant_rejected :
  let v := VObject [(s! "Circle", VNumber 2)] in
  documents_named true [shape] (s! "Shape") v /\ validates (VObject (json_schema_of [shape] (s! "Shape"))) v = false.
Proof.
  split; [|by vm_compute]. exists (mkVariant (s! "Circle") [] (Unnamed [mkField [] [] (ty (s! "f64"))])).
  split; [left|]. right. exists (VNumber 2). split; [done|]. exists RFloat. split; [done|by left].
Qed.
Definition id : DeriveInput := mkInput [] (s! "Id") (Enum
  [mkVariant (s! "Long") [] (Unnamed [mkField [] [] (ty (s! "i64"))]); mkVariant (s! "Short") [] (Unnamed [mkField [] [] (ty (s! "i32"))])]).
Example overlapping_variants_accept_nothing n : validates (VObject (json_schema_of [id] (s! "Id"))) (VNumber n) = false.
Proof. reflexivity. Qed.
(** The schema names a raw identifier with its prefix. *)
Definition raw : DeriveInput := mkInput [] (s! "Raw") (Struct (Named [mkField (s! "r#type") [] (ty (s! "String"))])).
Example raw_identifier_rejected :
  let v := VObject [(s! "type", VString (s! "a"))] in
  documents_named true [raw] (s! "Raw") v /\ validates (VObject (json_schema_of [raw] (s! "Raw"))) v = false.
Proof.
  split; [|by vm_compute]. exists [(s! "type", Some (VString (s! "a")))]. split; [done|]. apply Forall2_cons. split; [|done].
  by split; [|exists RString; split; [|eexists]].
Qed.
(** A rename behind the value of another attribute is not found: serde writes
    the new name, the schema asks for the old one. *)
Definition behind : DeriveInput := mkInput [] (s! "Behind") (Struct (Named [mkField (s! "dry_run")
  [mkAttribute (s! "serde") None [(s! "alias", Some (LStr (s! "dry")))]
     (Some [NameValue (Some (s! "alias")) (ELit (LStr (s! "dry"))); NameValue (Some (s! "rename")) (ELit (LStr (s! "dryRun")))])] (ty (s! "bool"))])).
Example rename_behind_value_lost :
  let v := VObject [(s! "dryRun", VBool true)] in
  documents_named true [behind] (s! "Behind") v /\ validates (VObject (json_schema_of [behind] (s! "Behind"))) v = false.
Proof.
  split; [|by vm_compute]. exists [(s! "dryRun", Some (VBool true))]. split; [done|]. apply Forall2_cons. split; [|done].
  by split; [|exists RBool; split; [|eexists]].
Qed.
(** serde_json writes [null] for a float that is not finite, which the schema refuses. *)
Definition float : DeriveInput := mkInput [] (s! "Float") (Struct (Named [mkField (s! "x") [] (ty (s! "f64"))])).
Example nonfinite_rejected :
  let v := VObject [(s! "x", VNull)] in
  documents_named false [float] (s! "Float") v /\ validates (VObject (json_schema_of [float] (s! "Float"))) v = false.
Proof.
  split; [|by vm_compute]. exists [(s! "x", Some VNull)]. split; [done|]. apply Forall2_cons. split; [|done].
  split; [done|]. exists RFloat. split; [done|by right].
Qed.
(** A type that is named by a path of two segments gets no schema. *)
Example qualified_path_unknown js attrs : attrs = [] ->
  type_to_json_schema js (TPath false [mkSegment (s! "my_mod") NoArguments; mkSegment (s! "Inner") NoArguments]) attrs = typed (s! "unknown").
Proof. by intros ->. Qed.
End DeriveDemo.

Lemma derived_schema_sound_witness :
  validates (VObject (json_schema_of DeriveDemo.program (s! "EditFileTool"))) DeriveDemo.arguments = true.
Proof. exact (derived_schema_sound _ _ _ DeriveDemo.program_supported DeriveDemo.arguments_document). Defined.
