(* ===== verification/MacroAttributes.v ===== *)
(** * The attributes of the macros mcp_tool, mcp_resource and mcp_elicit

    Models crates/rust-mcp-macros/src/: common/global_parser.rs and
    common/icon_dsl.rs, the parsers of tool/, resource/ and elicit/ on top of
    them, and the generators that turn attributes into a [Tool], a [Resource] or
    a [ResourceTemplate].

    A refusal is the text of the compile error; a panic of the macro is [None].
    Generated code is modelled by what it evaluates to; [serde_json::from_str] is
    a parameter. *)
From S2P Require Import Prelude RustStr Json JsonSchema Syn DeriveSchema.

(** ** Refusals and panics *)

Definition parse_result (A : Type) : Type := option (result A str).
Definition parsed {A} (a : A) : parse_result A := Some (Ok a).
Definition refuse {A} (message : str) : parse_result A := Some (Err message).
Definition p_bind {A B} (x : parse_result A) (f : A -> parse_result B) : parse_result B :=
  match x with None => None | Some (Err e) => Some (Err e) | Some (Ok a) => f a end.
Notation "'let!' x ':=' m 'in' k" := (p_bind m (fun x => k)) (at level 10, x pattern, m at level 200, k at level 200) : rust_scope.

Fixpoint p_map {A B} (f : A -> parse_result B) (l : list A) : parse_result (list B) :=
  match l with [] => parsed [] | x :: r => let! y := f x in let! ys := p_map f r in parsed (y :: ys) end.
Fixpoint p_fold {A B} (f : B -> A -> parse_result B) (acc : B) (l : list A) : parse_result B :=
  match l with [] => parsed acc | x :: r => let! acc := f acc x in p_fold f acc r end.

(** A comma-separated list that does not parse is refused by syn. *)
Definition syn_list {A} (l : option (list A)) : parse_result (list A) :=
  match l with Some l => parsed l | None => refuse (s! "unexpected token") end.

Definition in_quotes (s : str) : str := ascii_of_nat 34 :: s ++ [ascii_of_nat 34].

(** ** common/icon_dsl.rs *)

Inductive IconTheme := Light | Dark.
Record IconDsl := mkIcon { src : str; i_mime_type : option str; sizes : option (list str); theme : option IconTheme }.
Record IconFields := mkIconFields { k_src : option str; k_mime : option str; k_sizes : option (list str); k_theme : option IconTheme }.

Definition size_element (e : Expr) : parse_result str :=
  match e with
  | ELit (LStr s) => parsed s
  | ELit _ => refuse (s! "sizes array must contain string literals")
  | _ => refuse (s! "sizes array must contain only string literals")
  end.
Definition icon_field (x : IconFields) (f : str * Expr) : parse_result IconFields :=
  let '(key, value) := f in
  if bool_decide (key = s! "src") then
    match value with
    | ELit (LStr s) => parsed (mkIconFields (Some s) (k_mime x) (k_sizes x) (k_theme x))
    | ELit _ => refuse (s! "expected string literal for src")
    | _ => parsed x
    end
  else if bool_decide (key = s! "mime_type") then
    match value with
    | ELit (LStr s) => parsed (mkIconFields (k_src x) (Some s) (k_sizes x) (k_theme x))
    | ELit _ => refuse (s! "expected string literal for mime_type")
    | _ => parsed x
    end
  else if bool_decide (key = s! "sizes") then
    match value with
    | EArray elems =>
        let! ss := p_map size_element elems in parsed (mkIconFields (k_src x) (k_mime x) (Some ss) (k_theme x))
    | _ => refuse (s! "expected array expression for sizes")
    end
  else if bool_decide (key = s! "theme") then
    match value with
    | ELit (LStr s) =>
        if bool_decide (s = s! "light") then parsed (mkIconFields (k_src x) (k_mime x) (k_sizes x) (Some Light))
        else if bool_decide (s = s! "dark") then parsed (mkIconFields (k_src x) (k_mime x) (k_sizes x) (Some Dark))
        else refuse (s! "theme must be " ++ in_quotes (s! "light") ++ s! " or " ++ in_quotes (s! "dark"))
    | _ => parsed x
    end
  else refuse (s! "unexpected field in icon").
Definition parse_icon (e : Expr) : parse_result IconDsl :=
  match e with
  | EFields fields =>
      let! x := p_fold icon_field (mkIconFields None None None None) fields in
      match k_src x with
      | Some s => parsed (mkIcon s (k_mime x) (k_sizes x) (k_theme x))
      | None => refuse (s! "icon must have `src`")
      end
  | _ => refuse (s! "unexpected token")
  end.

(** ** common/global_parser.rs *)

Inductive Execution := Forbidden | Optional | Required.
Definition VALID_ROLES : list str := [s! "assistant"; s! "user"].

Record Attributes := mkAttributes {
  a_name : option str;
  a_description : option str;
  a_meta : option str;
  a_title : option str;
  a_icons : option (list IconDsl);
  a_mime_type : option str;
  a_size : option Z;
  a_uri : option str;
  a_uri_template : option str;
  a_audience : option (list str);
  destructive_hint : option bool;
  idempotent_hint : option bool;
  open_world_hint : option bool;
  read_only_hint : option bool;
  execution : option Execution;
}.
Definition no_attributes : Attributes := mkAttributes None None None None None None None None None None None None None None None.

(** The assignments [instance.key = Some(value)]. *)
Definition set_text (k v : str) (a : Attributes) : Attributes :=
  let '(mkAttributes n d m t ic mt sz u ut au h1 h2 h3 h4 ex) := a in
  if bool_decide (k = s! "name") then mkAttributes (Some v) d m t ic mt sz u ut au h1 h2 h3 h4 ex
  else if bool_decide (k = s! "description") then mkAttributes n (Some v) m t ic mt sz u ut au h1 h2 h3 h4 ex
  else if bool_decide (k = s! "meta") then mkAttributes n d (Some v) t ic mt sz u ut au h1 h2 h3 h4 ex
  else if bool_decide (k = s! "title") then mkAttributes n d m (Some v) ic mt sz u ut au h1 h2 h3 h4 ex
  else if bool_decide (k = s! "mime_type") then mkAttributes n d m t ic (Some v) sz u ut au h1 h2 h3 h4 ex
  else if bool_decide (k = s! "uri") then mkAttributes n d m t ic mt sz (Some v) ut au h1 h2 h3 h4 ex
  else if bool_decide (k = s! "uri_template") then mkAttributes n d m t ic mt sz u (Some v) au h1 h2 h3 h4 ex
  else a.
Definition set_hint (k : str) (v : bool) (a : Attributes) : Attributes :=
  let '(mkAttributes n d m t ic mt sz u ut au h1 h2 h3 h4 ex) := a in
  if bool_decide (k = s! "destructive_hint") then mkAttributes n d m t ic mt sz u ut au (Some v) h2 h3 h4 ex
  else if bool_decide (k = s! "idempotent_hint") then mkAttributes n d m t ic mt sz u ut au h1 (Some v) h3 h4 ex
  else if bool_decide (k = s! "open_world_hint") then mkAttributes n d m t ic mt sz u ut au h1 h2 (Some v) h4 ex
  else if bool_decide (k = s! "read_only_hint") then mkAttributes n d m t ic mt sz u ut au h1 h2 h3 (Some v) ex
  else a.
Definition set_size (v : Z) '(mkAttributes n d m t ic mt sz u ut au h1 h2 h3 h4 ex) : Attributes :=
  mkAttributes n d m t ic mt (Some v) u ut au h1 h2 h3 h4 ex.
Definition set_icons (v : list IconDsl) '(mkAttributes n d m t ic mt sz u ut au h1 h2 h3 h4 ex) : Attributes :=
  mkAttributes n d m t (Some v) mt sz u ut au h1 h2 h3 h4 ex.
Definition set_audience (v : list str) '(mkAttributes n d m t ic mt sz u ut au h1 h2 h3 h4 ex) : Attributes :=
  mkAttributes n d m t ic mt sz u ut (Some v) h1 h2 h3 h4 ex.
Definition set_execution (v : option Execution) '(mkAttributes n d m t ic mt sz u ut au h1 h2 h3 h4 ex) : Attributes :=
  mkAttributes n d m t ic mt sz u ut au h1 h2 h3 h4 v.

Definition concat_argument (e : Expr) : parse_result str :=
  match e with ELit (LStr s) => parsed s | _ => refuse (s! "Only string literals are allowed inside concat!()") end.
(** A string literal or [concat!(..)]. *)
Definition text_value (e : Expr) : parse_result str :=
  match e with
  | ELit (LStr s) => parsed s
  | EMacro path args =>
      if bool_decide (path = s! "concat") then
        let! es := syn_list args in let! ss := p_map concat_argument es in parsed (concat ss)
      else refuse (s! "Expected a string literal or concat!(...)")
  | _ => refuse (s! "Expected a string literal or concat!(...)")
  end.
Definition literal_value (e : Expr) : parse_result str :=
  match e with ELit (LStr s) => parsed s | _ => refuse (s! "Expected a string literal") end.
Definition role (e : Expr) : parse_result str :=
  match e with
  | ELit (LStr s) =>
      if bool_decide (s ∈ VALID_ROLES) then parsed s
      else refuse (s! "valid audience values are : " ++ join (s! " , ") VALID_ROLES)
  | _ => refuse (s! "Expected a string literal in array")
  end.

Definition task_support (acc : option Execution) (m : Meta) : parse_result (option Execution) :=
  match m with
  | NameValue (Some p) (ELit (LStr s)) =>
      if bool_decide (p = s! "task_support") then
        if bool_decide (s = s! "forbidden") then parsed (Some Forbidden)
        else if bool_decide (s = s! "optional") then parsed (Some Optional)
        else if bool_decide (s = s! "required") then parsed (Some Required)
        else refuse (s! "task_support must be one of: forbidden, optional, required")
      else parsed acc
  | _ => parsed acc
  end.

Section Parsing.
Context (from_str : str -> result Value str).

Definition size_attribute (value : Expr) (a : Attributes) : parse_result Attributes :=
  match value with
  | ELit (LInt z) =>
      match lit_i64 (Some (LInt z)) with
      | Some z => parsed (set_size z a)
      | None => refuse (s! "number too large to fit in target type")
      end
  | _ => refuse (s! "Expected a integer literal")
  end.
Definition meta_attribute (k : str) (value : Expr) (a : Attributes) : parse_result Attributes :=
  match value with
  | ELit (LStr s) =>
      match from_str s with
      | Err e => refuse (s! "Expected a valid JSON object: " ++ e)
      | Ok (VObject _) => parsed (set_text k s a)
      | Ok _ => refuse (s! "Expected a JSON object")
      end
  | _ => refuse (s! "Expected a JSON object as a string literal")
  end.
Definition audience_attribute (value : Expr) (a : Attributes) : parse_result Attributes :=
  match value with
  | EArray elems => let! roles := p_map role elems in parsed (set_audience roles a)
  | _ => refuse (s! "Expected an array of string literals, e.g. [" ++ in_quotes (s! "system") ++ s! ", " ++ in_quotes (s! "user") ++ s! "]")
  end.
Definition icons_attribute (value : Expr) (a : Attributes) : parse_result Attributes :=
  match value with
  | EArray elems => let! icons := p_map parse_icon elems in parsed (set_icons icons a)
  | _ => refuse (s! "Expected an array for the 'icons' attribute")
  end.
Definition hint_attribute (k : str) (value : Expr) (a : Attributes) : parse_result Attributes :=
  match value with
  | ELit (LBool b) => parsed (set_hint k b a)
  | _ => refuse (s! "Expected a boolean literal")
  end.
Definition execution_attribute (args : option (list Meta)) (a : Attributes) : parse_result Attributes :=
  let! nested := syn_list args in
  let! support := p_fold task_support None nested in
  parsed (set_execution support a).

Definition attribute (a : Attributes) (m : Meta) : parse_result Attributes :=
  match m with
  | NameValue None _ | MetaList None _ => None (* get_ident().unwrap() *)
  | NameValue (Some k) value =>
      if bool_decide (k ∈ [s! "name"; s! "description"; s! "title"]) then
        let! v := text_value value in parsed (set_text k v a)
      else if bool_decide (k ∈ [s! "mime_type"; s! "uri"; s! "uri_template"]) then
        let! v := literal_value value in parsed (set_text k v a)
      else if bool_decide (k = s! "size") then size_attribute value a
      else if bool_decide (k = s! "meta") then meta_attribute k value a
      else if bool_decide (k = s! "audience") then audience_attribute value a
      else if bool_decide (k = s! "icons") then icons_attribute value a
      else if bool_decide (k ∈ [s! "destructive_hint"; s! "idempotent_hint"; s! "open_world_hint"; s! "read_only_hint"]) then
        hint_attribute k value a
      else parsed a
  | MetaList (Some k) args => if bool_decide (k = s! "execution") then execution_attribute args a else parsed a
  | MetaPath _ => parsed a
  end.
(** [GenericMcpMacroAttributes::parse] *)
Definition parse_attributes (metas : list Meta) : parse_result Attributes := p_fold attribute no_attributes metas.

(** [s.trim().is_empty()], or missing. *)
Definition blank (o : option str) : bool := match o with Some s => bool_decide (trim s = []) | None => true end.
Definition demand (missing : bool) (key : str) (a : Attributes) : parse_result Attributes :=
  if missing then refuse (s! "The '" ++ key ++ s! "' attribute is required and must not be empty.") else parsed a.
Definition too_many_roles (a : Attributes) : bool := Nat.ltb (length VALID_ROLES) (length (from_option id [] (a_audience a))).
Definition demand_roles (a : Attributes) : parse_result Attributes :=
  if too_many_roles a then
    refuse (s! "valid audience values are : " ++ join (s! " , ") VALID_ROLES ++ s! ". Is there any duplication in the audience values?")
  else parsed a.

(** [McpToolMacroAttributes::parse], [McpResourceMacroAttributes::parse] and
    [McpResourceTemplateMacroAttributes::parse]; the attributes they drop are
    never read. *)
Definition parse_tool (metas : list Meta) : parse_result Attributes :=
  let! a := parse_attributes metas in
  let! a := demand (blank (a_name a)) (s! "name") a in
  demand (blank (a_description a)) (s! "description") a.
Definition parse_resource (metas : list Meta) : parse_result Attributes :=
  let! a := parse_attributes metas in
  let! a := demand (blank (a_name a)) (s! "name") a in
  let! a := demand (blank (a_uri a)) (s! "uri") a in
  demand_roles a.
Definition parse_resource_template (metas : list Meta) : parse_result Attributes :=
  let! a := parse_attributes metas in
  let! a := demand (blank (a_name a)) (s! "name") a in
  let! a := demand (blank (a_uri_template a)) (s! "uri_template") a in
  demand_roles a.
End Parsing.

(** ** elicit/parser.rs *)

Inductive ElicitMode := Form | Url (url : str).
Record ElicitArgs := mkElicitArgs { message : str; mode : ElicitMode }.

(** The last [key = literal string]. *)
Definition last_text (key : str) (metas : list Meta) : option str :=
  foldl (fun acc m => match m with
                      | NameValue (Some k) (ELit (LStr s)) => if bool_decide (k = key) then Some s else acc
                      | _ => acc
                      end) None metas.
Definition elicit_mode (url : option str) (acc : ElicitMode) (m : Meta) : parse_result ElicitMode :=
  match m with
  | NameValue (Some k) value =>
      if bool_decide (k = s! "mode") then
        match value with
        | EPath (Some w) =>
            if bool_decide (w = s! "url") then
              match url with
              | Some u => parsed (Url u)
              | None => refuse (s! "when `mode = url`, you must also provide `url = " ++ in_quotes (s! "https://...") ++ s! "`")
              end
            else if bool_decide (w = s! "form") then parsed Form
            else refuse (s! "mode must be `form` or `url`")
        | EPath None => parsed acc
        | _ => refuse (s! "mode must be `form` or `url`")
        end
      else parsed acc
  | _ => parsed acc
  end.
Definition parse_elicit (metas : list Meta) : parse_result ElicitArgs :=
  let! mode := p_fold (elicit_mode (last_text (s! "url") metas)) Form metas in
  parsed (mkElicitArgs (from_option id [] (last_text (s! "message") metas)) mode).

(** ** What the generated code builds *)

Record Icon := mkIconValue { icon_src : str; icon_mime_type : option str; icon_sizes : list str; icon_theme : option IconTheme }.
Inductive Role := Assistant | User.
(** [Annotations] with the roles alone, as the generated code fills it. *)
Record ToolAnnotations := mkHints { h_destructive : option bool; h_idempotent : option bool; h_open_world : option bool; h_read_only : option bool }.
Record Tool (Schema : Type) := mkTool {
  t_name : str;
  t_description : option str;
  t_title : option str;
  t_meta : option Value;
  t_annotations : option ToolAnnotations;
  t_execution : option Execution;
  t_icons : list Icon;
  t_input_schema : Schema;
}.
Arguments mkTool {Schema}. Arguments t_name {Schema}. Arguments t_description {Schema}. Arguments t_title {Schema}.
Arguments t_meta {Schema}. Arguments t_annotations {Schema}. Arguments t_execution {Schema}. Arguments t_icons {Schema}.
Arguments t_input_schema {Schema}.
(** [Resource], and [ResourceTemplate], which has no size. *)
Record Resource := mkResource {
  r_annotations : option (list Role);
  r_description : option str;
  r_icons : list Icon;
  r_meta : option Value;
  r_mime_type : option str;
  r_name : str;
  r_size : option Z;
  r_title : option str;
  r_uri : str;
}.

Definition generate_icons (a : Attributes) : list Icon :=
  (fun i => mkIconValue (src i) (i_mime_type i) (from_option id [] (sizes i)) (theme i)) <$> from_option id [] (a_icons a).
(** tool/generator.rs has its own. *)
Definition tool_icon (i : IconDsl) : Icon :=
  mkIconValue (src i) (i_mime_type i) (match sizes i with Some arr => arr | None => [] end)
    (match theme i with Some Light => Some Light | Some Dark => Some Dark | None => None end).
Definition generate_tool_icons (a : Attributes) : list Icon :=
  match a_icons a with Some icons => tool_icon <$> icons | None => [] end.
(** [ToolExecution], whose only field is the task support. *)
Definition generate_executions (a : Attributes) : option Execution :=
  match execution a with
  | Some Forbidden => Some Forbidden
  | Some Optional => Some Optional
  | Some Required => Some Required
  | None => None
  end.
Definition generate_annotations (a : Attributes) : option ToolAnnotations :=
  if is_some (destructive_hint a) || is_some (idempotent_hint a) || is_some (open_world_hint a) || is_some (read_only_hint a)
  then Some (mkHints (destructive_hint a) (idempotent_hint a) (open_world_hint a) (read_only_hint a)) else None.
(** The macro panics at a role it does not know. *)
Definition mcp_role (r : str) : option Role :=
  if bool_decide (r = s! "assistant") then Some Assistant else if bool_decide (r = s! "user") then Some User else None.
Definition generate_resource_annotations (audience : option (list str)) : option (option (list Role)) :=
  match audience with
  | None | Some [] => Some None
  | Some roles => Some <$> mapM mcp_role roles
  end.

Section Generating.
Context (from_str : str -> result Value str).
(** [serde_json::from_str(meta).expect(..)] *)
Definition generate_meta (a : Attributes) : option (option Value) :=
  match a_meta a with
  | None => Some None
  | Some m => match from_str m with Ok v => Some (Some v) | Err _ => None end
  end.
(** [tool()] of a type whose schema is given; [None]: it panics. *)
Definition tool {Schema} (a : Attributes) (input_schema : Schema) : option (Tool Schema) :=
  meta ← generate_meta a;
  Some (mkTool (from_option id [] (a_name a)) (Some (from_option id [] (a_description a))) (a_title a) meta
          (generate_annotations a) (generate_executions a) (generate_tool_icons a) input_schema).
Definition resource_at (a : Attributes) (uri : option str) (size : option Z) : option Resource :=
  annotations ← generate_resource_annotations (a_audience a);
  name ← a_name a; uri ← uri; meta ← generate_meta a;
  Some (mkResource annotations (a_description a) (generate_icons a) meta (a_mime_type a) name size (a_title a) uri).
(** [resource()] and [resource_template()]. *)
Definition resource (a : Attributes) : option Resource := resource_at a (a_uri a) (a_size a).
Definition resource_template (a : Attributes) : option Resource := resource_at a (a_uri_template a) None.
End Generating.

Module AttributeFacts.
Lemma p_bind_parsed {A B} (x : parse_result A) (f : A -> parse_result B) y :
  p_bind x f = parsed y -> exists a, x = parsed a /\ f a = parsed y.
Proof. destruct x as [[a|e]|]; try done. simpl. eauto. Qed.
Lemma p_fold_snoc {A B} (f : B -> A -> parse_result B) l x acc :
  p_fold f acc (l ++ [x]) = p_bind (p_fold f acc l) (fun acc => f acc x).
Proof.
  revert acc; induction l as [|y l IH]; intros acc; simpl; [by destruct (f acc x) as [[]|]|].
  destruct (f acc y) as [[a|e]|]; [apply IH|done..].
Qed.
Lemma p_map_Forall {A B} (f : A -> parse_result B) (P : B -> Prop) l ys :
  (forall x y, f x = parsed y -> P y) -> p_map f l = parsed ys -> Forall P ys.
Proof.
  intros Hf. revert ys; induction l as [|x l IH]; intros ys; simpl; [by intros [= <-]|].
  intros (y & Hy & (zs & Hz & [= <-])%p_bind_parsed)%p_bind_parsed. constructor; [by eapply Hf|by apply IH].
Qed.

Lemma role_valid e r : role e = parsed r -> r ∈ VALID_ROLES.
Proof. unfold role. destruct e as [[]| | | | |]; try done. case_bool_decide; [|done]. by intros [= <-]. Qed.

Section Facts.
Context (from_str : str -> result Value str).

(** The value of the last attribute of a name. *)
Definition last_value (key : str) (metas : list Meta) : option Expr :=
  foldl (fun acc m => match m with NameValue (Some k) e => if bool_decide (k = key) then Some e else acc | _ => acc end) None metas.
Lemma last_value_snoc key metas m : last_value key (metas ++ [m]) =
  match m with NameValue (Some k) e => if bool_decide (k = key) then Some e else last_value key metas | _ => last_value key metas end.
Proof. unfold last_value. by rewrite foldl_app. Qed.

(** What one attribute can do. *)
Definition of_text (o : option Expr) (x : option str) : Prop :=
  match o with None => x = None | Some e => exists s, text_value e = parsed s /\ x = Some s end.
Record sound (metas : list Meta) (a : Attributes) : Prop := {
  sound_name : of_text (last_value (s! "name") metas) (a_name a);
  sound_description : of_text (last_value (s! "description") metas) (a_description a);
  sound_meta m : a_meta a = Some m -> exists fs, from_str m = Ok (VObject fs);
  sound_roles rs : a_audience a = Some rs -> Forall (fun r => r ∈ VALID_ROLES) rs;
}.

Ltac unchanged := constructor; assumption.
Lemma attribute_sound metas a m b : sound metas a -> attribute from_str a m = parsed b -> sound (metas ++ [m]) b.
Proof.
  intros [Hn Hd Hm Hr]. unfold attribute, size_attribute, meta_attribute, audience_attribute, icons_attribute, hint_attribute, execution_attribute.
  destruct a as [n d mt t ic mi sz u ut au h1 h2 h3 h4 ex].
  cbn [a_name a_description a_meta a_audience] in *.
  destruct m as [[k|] e|[k|] args|o]; try done.
  - case_bool_decide as K1.
    { intros (s & Hs & [= <-])%p_bind_parsed.
      repeat (apply elem_of_cons in K1 as [->|K1]); [..|by apply elem_of_nil in K1]; constructor; try assumption;
        rewrite last_value_snoc; first [exact Hn|exact Hd|exists s; by split]. }
    assert (N1 : k <> s! "name") by (intros ->; apply K1; decided).
    assert (N2 : k <> s! "description") by (intros ->; apply K1; decided).
    assert (L1 : last_value (s! "name") (metas ++ [NameValue (Some k) e]) = last_value (s! "name") metas)
      by (rewrite last_value_snoc; by rewrite bool_decide_eq_false_2).
    assert (L2 : last_value (s! "description") (metas ++ [NameValue (Some k) e]) = last_value (s! "description") metas)
      by (rewrite last_value_snoc; by rewrite bool_decide_eq_false_2).
    rewrite <-L1 in Hn. rewrite <-L2 in Hd. clear N1 N2 L1 L2 K1.
    case_bool_decide as K2.
    { intros (s & Hs & [= <-])%p_bind_parsed.
      repeat (apply elem_of_cons in K2 as [->|K2]); [unchanged..|by apply elem_of_nil in K2]. }
    case_bool_decide.
    { destruct e as [[]| | | | |]; try done. destruct (lit_i64 _); [|done]. intros [= <-]. unchanged. }
    case_bool_decide.
    { subst k. destruct e as [[s'|z|dg sc|b0|]| | | | |]; try done. destruct (from_str s') as [[]|] eqn:Es; try done. intros [= <-].
      constructor; [exact Hn|exact Hd|intros ? [= <-]; eauto|exact Hr]. }
    case_bool_decide.
    { destruct e; try done. intros (rs & Hrs & [= <-])%p_bind_parsed.
      constructor; [exact Hn|exact Hd|exact Hm|]. intros ? [= <-]. eapply p_map_Forall; [|exact Hrs]. apply role_valid. }
    case_bool_decide.
    { destruct e; try done. intros (rs & Hrs & [= <-])%p_bind_parsed. unchanged. }
    case_bool_decide as K3.
    { destruct e as [[]| | | | |]; try done. intros [= <-].
      repeat (apply elem_of_cons in K3 as [->|K3]); [unchanged..|by apply elem_of_nil in K3]. }
    intros [= <-]. unchanged.
  - rewrite <-(last_value_snoc _ _ (MetaList (Some k) args)) in Hn. rewrite <-(last_value_snoc _ _ (MetaList (Some k) args)) in Hd.
    case_bool_decide.
    + intros (l & _ & (x & _ & [= <-])%p_bind_parsed)%p_bind_parsed. unchanged.
    + intros [= <-]. unchanged.
  - rewrite <-(last_value_snoc _ _ (MetaPath o)) in Hn. rewrite <-(last_value_snoc _ _ (MetaPath o)) in Hd. intros [= <-]. unchanged.
Qed.
Lemma attributes_sound metas a : parse_attributes from_str metas = parsed a -> sound metas a.
Proof.
  unfold parse_attributes. revert a; induction metas as [|m metas IH] using rev_ind; intros a.
  - intros [= <-]. by constructor.
  - rewrite p_fold_snoc. intros (b & Hb%IH & Hm)%p_bind_parsed. by eapply attribute_sound.
Qed.

Lemma meta_generated metas a : sound metas a -> exists o, generate_meta from_str a = Some o /\
  match a_meta a with Some m => exists fs, o = Some (VObject fs) /\ from_str m = Ok (VObject fs) | None => o = None end.
Proof.
  intros [_ _ Hm _]. unfold generate_meta. destruct (a_meta a) as [m|]; [|by eexists].
  destruct (Hm m eq_refl) as [fs E]. rewrite E. eexists. split; [done|]. eauto.
Qed.
Lemma roles_generated metas a : sound metas a -> is_some (generate_resource_annotations (a_audience a)) = true.
Proof.
  intros [_ _ _ Hr]. unfold generate_resource_annotations. destruct (a_audience a) as [rs|]; [|done]. specialize (Hr rs eq_refl).
  assert (is_some (mapM mcp_role rs) = true) as H.
  { induction Hr as [|r rs Hr' _ IH]; [done|]. cbn [mapM].
    assert (exists x, mcp_role r = Some x) as [x ->].
    { apply elem_of_cons in Hr' as [->|[->|[]%elem_of_nil]%elem_of_cons]; by eexists. }
    simpl. by destruct (mapM mcp_role rs). }
  destruct rs; [done|]. by destruct (mapM mcp_role (_ :: _)).
Qed.
Lemma demand_parsed b key a a' : demand b key a = parsed a' -> b = false /\ a' = a.
Proof. unfold demand. destruct b; [done|]. by intros [= <-]. Qed.
Lemma not_blank o : blank o = false -> exists s, o = Some s /\ trim s <> [].
Proof. destruct o as [s|]; [|done]. simpl. intros E. exists s. split; [done|]. by case_bool_decide. Qed.
End Facts.
End AttributeFacts.

Section Claims.
Import AttributeFacts.
Context (from_str : str -> result Value str).

(** The value of the last attribute of a name, which is not blank. *)
Definition given (key : str) (metas : list Meta) (s : str) : Prop :=
  trim s <> [] /\ exists e, last_value key metas = Some e /\ text_value e = parsed s.
Lemma of_text_given key metas o : of_text (last_value key metas) o -> blank o = false -> exists s, o = Some s /\ given key metas s.
Proof.
  intros Ho (s & -> & Hs)%not_blank. exists s. split; [done|]. split; [done|]. unfold of_text in Ho.
  destruct (last_value key metas) as [e|]; [|done]. destruct Ho as (s' & E & [= ->]). eauto.
Qed.
Definition an_object (v : Value) : Prop := is_some (object_fields v) = true.

Lemma resource_generated metas a uri size : sound from_str metas a -> blank (a_name a) = false -> blank uri = false ->
  exists r, resource_at from_str a uri size = Some r /\ given (s! "name") metas (r_name r) /\ uri = Some (r_uri r) /\
    trim (r_uri r) <> [] /\ (forall m, r_meta r = Some m -> an_object m) /\ r_size r = size.
Proof.
  intros Ha (n & En & Hn)%(of_text_given _ _ _ (sound_name _ _ _ Ha)) (u & -> & Hu)%not_blank. unfold resource_at.
  destruct (meta_generated from_str metas a Ha) as (m & -> & Hm). pose proof (roles_generated from_str metas a Ha) as Hr.
  destruct (generate_resource_annotations (a_audience a)) as [r|]; [|done]. rewrite En. simpl. eexists. split; [done|].
  split_and!; try done. simpl. intros v ->. destruct (a_meta a); [|done]. by destruct Hm as (fs & [= ->] & _).
Qed.

(** Attributes that the macros accept expand to code that cannot panic:
    [tool()], [resource()] and [resource_template()] return values whose name,
    description and address are not blank and are those of the last attribute of
    the key, and whose [meta] is a JSON object. *)
Theorem accepted_attributes_expand metas a :
  (parse_tool from_str metas = parsed a -> forall Schema (s : Schema), exists t d, tool from_str a s = Some t /\
     given (s! "name") metas (t_name t) /\ t_description t = Some d /\ given (s! "description") metas d /\
     (forall m, t_meta t = Some m -> an_object m) /\ t_input_schema t = s) /\
  (parse_resource from_str metas = parsed a -> exists r, resource from_str a = Some r /\
     given (s! "name") metas (r_name r) /\ a_uri a = Some (r_uri r) /\ trim (r_uri r) <> [] /\
     (forall m, r_meta r = Some m -> an_object m) /\ r_size r = a_size a) /\
  (parse_resource_template from_str metas = parsed a -> exists r, resource_template from_str a = Some r /\
     given (s! "name") metas (r_name r) /\ a_uri_template a = Some (r_uri r) /\ trim (r_uri r) <> [] /\
     (forall m, r_meta r = Some m -> an_object m) /\ r_size r = None).
Proof.
  split_and!.
  - intros (b & Hb%attributes_sound & (c & [Hn ->]%demand_parsed & [Hd ->]%demand_parsed)%p_bind_parsed)%p_bind_parsed Schema s.
    destruct (of_text_given _ _ _ (sound_name _ _ _ Hb) Hn) as (n & En & Gn).
    destruct (of_text_given _ _ _ (sound_description _ _ _ Hb) Hd) as (d & Ed & Gd).
    unfold tool. destruct (meta_generated from_str metas b Hb) as (m & -> & Hm). rewrite En, Ed.
    eexists _, d. split; [done|]. split_and!; try done. simpl. intros v ->. destruct (a_meta b); [|done]. by destruct Hm as (fs & [= ->] & _).
  - intros (b & Hb%attributes_sound & (c & [Hn ->]%demand_parsed & (c' & [Hu ->]%demand_parsed & Hr)%p_bind_parsed)%p_bind_parsed)%p_bind_parsed.
    assert (a = b) as -> by (unfold demand_roles in Hr; destruct (too_many_roles b); [done|by injection Hr]).
    by apply resource_generated.
  - intros (b & Hb%attributes_sound & (c & [Hn ->]%demand_parsed & (c' & [Hu ->]%demand_parsed & Hr)%p_bind_parsed)%p_bind_parsed)%p_bind_parsed.
    assert (a = b) as -> by (unfold demand_roles in Hr; destruct (too_many_roles b); [done|by injection Hr]).
    by apply resource_generated.
Qed.
End Claims.

Module AttributesDemo.
Definition from_str (s : str) : result Value str := if bool_decide (s = s! "{}") then Ok (VObject []) else Err (s! "expected value").
Definition text (k v : str) : Meta := NameValue (Some k) (ELit (LStr v)).
Definition metas : list Meta :=
  [text (s! "name") (s! "logo"); text (s! "uri") (s! "x:y"); text (s! "name") (s! "company logo"); text (s! "meta") (s! "{}");
   NameValue (Some (s! "audience")) (EArray [ELit (LStr (s! "user")); ELit (LStr (s! "user"))])].
Definition attributes : Attributes :=
  mkAttributes (Some (s! "company logo")) None (Some (s! "{}")) None None None None (Some (s! "x:y")) None
    (Some [s! "user"; s! "user"]) None None None None None.
(** Roles can be repeated, against the message of [demand_roles]. *)
Example repeated_role : resource from_str (from_option id no_attributes (match parse_resource from_str metas with Some (Ok a) => Some a | _ => None end)) =
  Some (mkResource (Some [User; User]) None [] (Some (VObject [])) None (s! "company logo") None None (s! "x:y")).
Proof. by vm_compute. Qed.
(** The role the documentation gives as an example is refused. *)
Example system_role_refused :
  parse_resource from_str [text (s! "name") (s! "a"); text (s! "uri") (s! "b");
                           NameValue (Some (s! "audience")) (EArray [ELit (LStr (s! "user")); ELit (LStr (s! "system"))])] =
  refuse (s! "valid audience values are : assistant , user").
Proof. by vm_compute. Qed.
End AttributesDemo.

Lemma accepted_attributes_expand_witness : exists r,
  resource AttributesDemo.from_str AttributesDemo.attributes = Some r /\ given (s! "name") AttributesDemo.metas (r_name r).
Proof.
  destruct (accepted_attributes_expand AttributesDemo.from_str AttributesDemo.metas AttributesDemo.attributes) as (_ & H & _).
  destruct (H ltac:(reflexivity)) as (r & Hr & Hn & _). exists r. split; [exact Hr|exact Hn].
Defined.
