(* ===== verification/ToolBox.v ===== *)
(** * Tools and tool boxes

    Models the functions that [mcp_tool] generates (crates/rust-mcp-macros/src/
    lib.rs) and [tool_box!] (crates/rust-mcp-sdk/src/mcp_macros/tool_box.rs): the
    tools a server lists, and the conversion of a call into the type of the tool
    it names.  [serde_json::from_value] of a type is a parameter. *)
From S2P Require Import Prelude RustStr Json JsonSchema Syn RustTypes DeriveSchema SerdeDocuments MacroAttributes.

(** [ToolInputSchema]; the keys of the [BTreeMap] are in order. *)
Record ToolInputSchema := mkInputSchema { in_required : list str; in_properties : option (list (str * Map)) }.
(** The schema it stands for. *)
Definition input_keywords (s : ToolInputSchema) : Map :=
  let m := match in_properties s with
           | Some ps => map_insert (s! "properties") (VObject ((fun p => (p.1, VObject p.2)) <$> ps)) (typed (s! "object"))
           | None => typed (s! "object")
           end in
  match in_required s with [] => m | req => map_insert (s! "required") (VArray (VString <$> req)) m end.

(** The [required] and [properties] of [T::tool()]. *)
Definition required_of (json_schema : Map) : list str :=
  match map_get (s! "required") json_schema with Some (VArray arr) => omap as_string arr | _ => [] end.
Definition properties_of (json_schema : Map) : option (list (str * Map)) :=
  match map_get (s! "properties") json_schema with
  | Some (VObject ps) => Some (omap (fun p => match p.2 with VObject obj => Some (p.1, obj) | _ => None end) ps)
  | _ => None
  end.

(** [enum CallToolError], as far as the conversion builds it. *)
Inductive CallToolError := InvalidArguments (tool : str) (message : option str) | UnknownTool (tool : str) | OtherError (e : str).

(** A type with [mcp_tool]: its name and its attributes. *)
Record ToolType := mkToolType { rust_type : str; attributes : Attributes }.
Definition tool_name (t : ToolType) : str := from_option id [] (a_name (attributes t)).

Section Box.
Context (from_str : str -> result Value str) (program : list DeriveInput).
(** [from_value::<T>] yields the value's text when it fails. *)
Context {T : Type} (from_value : str -> Value -> result T str).

Definition tool_of (t : ToolType) : option (Tool ToolInputSchema) :=
  let json_schema := json_schema_of program (rust_type t) in
  tool from_str (attributes t) (mkInputSchema (required_of json_schema) (properties_of json_schema)).

(** The enum that [tool_box!] makes: a variant is a tool's type with its value. *)
Definition tools (box : list ToolType) : option (list (Tool ToolInputSchema)) := mapM tool_of box.
Definition missing_arguments : str := s! "Missing 'arguments' field in the request".
Definition try_from (box : list ToolType) (called : str) (arguments : option Map) : result (str * T) CallToolError :=
  match arguments with
  | None => Err (InvalidArguments called (Some missing_arguments))
  | Some args =>
      match find (fun t => bool_decide (called = tool_name t)) box with
      | Some t =>
          match from_value (rust_type t) (VObject args) with
          | Ok v => Ok (rust_type t, v)
          | Err e => Err (OtherError e)
          end
      | None => Err (UnknownTool called)
      end
  end.
End Box.

Module ToolFacts.
Import MapFacts.

(** The properties of a derived schema are schemas of their own. *)
Definition objects (ps : Map) : Prop := Forall (fun p => is_some (object_fields p.2) = true) ps.
Lemma insert_objects k m ps : objects ps -> objects (map_insert k (VObject m) ps).
Proof.
  unfold objects. induction 1 as [|[k' v] ps Hp Hps IH]; simpl; [by repeat constructor|].
  destruct (str_cmp k k'); by repeat constructor.
Qed.
Lemma properties_objects js fields : objects (properties js fields).
Proof.
  unfold properties, map_of. assert (H : objects []) by constructor. revert H. generalize (@nil (str * Value)).
  induction fields as [|f fields IH]; intros m Hm; [done|]. rewrite fmap_cons. cbn [foldl fst snd]. apply IH. by apply insert_objects.
Qed.
Lemma objects_kept ps : objects ps ->
  ((fun p => (p.1, VObject p.2)) <$> omap (fun p => match p.2 with VObject obj => Some (p.1, obj) | _ => None end) ps) = ps.
Proof.
  induction 1 as [|[k v] ps Hp _ IH]; [done|]. destruct v; try done. cbn [omap list_omap]. cbn. f_equal. exact IH.
Qed.
Lemma strings_kept (l : list str) : omap as_string (VString <$> l) = l.
Proof. induction l as [|x l IH]; [done|]. cbn. f_equal. exact IH. Qed.

(** [tool()] takes nothing away from a struct's schema. *)
Lemma input_keywords_exact js fields :
  input_keywords (mkInputSchema (required_of (object_schema js fields)) (properties_of (object_schema js fields))) = object_schema js fields.
Proof.
  unfold object_schema at 3. unfold input_keywords. cbn [in_required in_properties].
  assert (Er : required_of (object_schema js fields) = required fields).
  { unfold required_of, object_schema. destruct (required fields) as [|r rs] eqn:E; [by vm_compute|].
    rewrite get_insert, <-E. apply strings_kept. }
  assert (Ep : properties_of (object_schema js fields) =
    Some (omap (fun p => match p.2 with VObject obj => Some (p.1, obj) | _ => None end) (properties js fields))).
  { unfold properties_of, object_schema. destruct (required fields); rewrite ?map_get_insert_ne by done; by rewrite get_insert. }
  rewrite Er, Ep, objects_kept by apply properties_objects. by destruct (required fields).
Qed.

(** An object is a document of a struct. *)
Lemma object_of_struct program t fs : supported program = true -> documents_named true program t (VObject fs) ->
  exists js fields, json_schema_of program t = object_schema js fields.
Proof.
  unfold supported. induction program as [|input program IH]; [done|]. cbn [covered forallb documents_named json_schema_of].
  intros [[Hi Hc]%andb_prop [_ Hu]%andb_prop]%andb_prop. case_decide as E; [|rewrite bool_decide_eq_false_2 by done; apply IH; by rewrite Hc, Hu].
  rewrite bool_decide_eq_true_2 by done. unfold covered_item, item_document, derive_json_schema in *.
  apply andb_prop in Hi as [_ Hi]. destruct (data input) as [[fields| |]|vs|]; try done.
  - intros _. by eexists _, fields.
  - apply andb_prop in Hi as [_ Hv]. intros (x & Hx & [[_ [=]]|(w & _ & Hw)]). rewrite forallb_forall in Hv.
    specialize (Hv x ltac:(by apply list_elem_of_In)). unfold covered_variant in Hv. by destruct (v_fields x).
Qed.
End ToolFacts.

Section Claims.
Context (from_str : str -> result Value str) (program : list DeriveInput).
Context {T : Type} (from_value : str -> Value -> result T str).

(** The macro has accepted a tool's attributes. *)
Definition accepted_tool (t : ToolType) : Prop := exists metas, parse_tool from_str metas = parsed (attributes t).

Lemma find_named (box : list ToolType) t : NoDup (tool_name <$> box) -> t ∈ box ->
  find (fun x => bool_decide (tool_name t = tool_name x)) box = Some t.
Proof.
  induction box as [|x box IH]; intros Hn Ht; [by apply elem_of_nil in Ht|]. rewrite fmap_cons in Hn.
  apply NoDup_cons in Hn as [Hx Hn]. simpl. case_bool_decide as E.
  - apply elem_of_cons in Ht as [->|Ht]; [done|]. destruct Hx. rewrite <-E. by apply list_elem_of_fmap_2.
  - apply elem_of_cons in Ht as [->|Ht]; [done|]. by apply IH.
Qed.

Lemma tool_total t : accepted_tool t -> exists x, tool_of from_str program t = Some x /\ t_name x = tool_name t /\
  let js := json_schema_of program (rust_type t) in t_input_schema x = mkInputSchema (required_of js) (properties_of js).
Proof.
  intros (metas & (a & Ha%AttributeFacts.attributes_sound & (b & [_ ->]%AttributeFacts.demand_parsed & [_ E]%AttributeFacts.demand_parsed)%AttributeFacts.p_bind_parsed)%AttributeFacts.p_bind_parsed).
  destruct (AttributeFacts.meta_generated from_str metas a Ha) as (m & Hm & _).
  unfold tool_of, tool. rewrite E, Hm. eexists. split; [done|]. by rewrite <-E.
Qed.
Lemma listing_total box : Forall accepted_tool box -> exists listing, tools from_str program box = Some listing /\
  Forall2 (fun t x => tool_of from_str program t = Some x) box listing.
Proof.
  induction 1 as [|t box Ht _ (l & E & Hl)]; [by exists []|]. destruct (tool_total t Ht) as (x & Hx & _).
  exists (x :: l). unfold tools in *. simpl. rewrite Hx. simpl. rewrite E. split; [done|]. by constructor.
Qed.

(** C39. A tool box with tools of distinct names, in a supported program
    (as for C38: structs with named fields and enums without data, no raw
    identifiers, no limits), serves the tools it lists.  Its listing has one
    tool per type; the arguments that serde writes for a value of a listed
    tool's type, with finite floats, satisfy the input schema listed for it,
    and a call with them becomes a value of that type, provided serde reads
    back what it writes.  A call without arguments and a call of a tool that
    is not listed are refused. *)
Theorem tool_call_roundtrip box t fs :
  supported program = true -> (forall t v, documents_named true program t v -> is_ok (from_value t v) = true) ->
  Forall accepted_tool box -> NoDup (tool_name <$> box) ->
  t ∈ box -> documents_named true program (rust_type t) (VObject fs) ->
  (exists listing listed, tools from_str program box = Some listing /\ t_name <$> listing = tool_name <$> box /\
     listed ∈ listing /\ t_name listed = tool_name t /\
     validates (VObject (input_keywords (t_input_schema listed))) (VObject fs) = true) /\
  (exists x, from_value (rust_type t) (VObject fs) = Ok x /\
     try_from from_value box (tool_name t) (Some fs) = Ok (rust_type t, x)) /\
  (forall called, try_from from_value box called None = Err (InvalidArguments called (Some missing_arguments))) /\
  (forall called args, called ∉ tool_name <$> box -> try_from from_value box called (Some args) = Err (UnknownTool called)).
Proof.
  intros Hp Hfrom Hbox Hn Ht Hd. split_and!; [| |done|].
  - destruct (listing_total box Hbox) as (l & El & Hl). apply list_elem_of_lookup in Ht as [i Hi].
    destruct (Forall2_lookup_l _ _ _ _ _ Hl Hi) as (x & Hx & Ex). exists l, x. rewrite Forall_forall in Hbox.
    assert (Ha : forall t, t ∈ box -> forall x, tool_of from_str program t = Some x -> t_name x = tool_name t /\
      t_input_schema x = mkInputSchema (required_of (json_schema_of program (rust_type t))) (properties_of (json_schema_of program (rust_type t)))).
    { intros t' Ht' x' E. destruct (tool_total t' (Hbox t' Ht')) as (y & Ey & H). by simplify_eq. }
    destruct (Ha t (list_elem_of_lookup_2 _ _ _ Hi) x Ex) as [En Es]. split_and!; try done.
    + clear -Ha Hl. induction Hl as [|t x box l Hx _ IH]; [done|]. rewrite !fmap_cons. f_equal.
      * by destruct (Ha t ltac:(by left) x Hx).
      * apply IH. intros t' Ht'. apply Ha. by right.
    + by eapply list_elem_of_lookup_2.
    + rewrite Es. destruct (ToolFacts.object_of_struct program _ fs Hp Hd) as (js & fields & E).
      rewrite E, ToolFacts.input_keywords_exact, <-E. by apply SerdeFacts.schema_accepts.
  - specialize (Hfrom _ _ Hd). unfold try_from. rewrite find_named by done.
    destruct (from_value (rust_type t) (VObject fs)) as [x|]; [|done]. by exists x.
  - intros called args Hc. unfold try_from. destruct (find _ box) as [t'|] eqn:E; [|done].
    apply find_some in E as [Hin E]. case_bool_decide as Ec; [|done]. destruct Hc. rewrite Ec.
    apply list_elem_of_fmap_2. by apply list_elem_of_In.
Qed.
End Claims.

(** The listing and a call of the demo's file-editing tool. *)
Module ToolDemo.
Import AttributesDemo DeriveDemo.
Definition from_value (t : str) (v : Value) : result Value str := Ok v.
Definition edit_attributes : Attributes :=
  mkAttributes (Some (s! "edit_file")) (Some (s! "Edits a file")) None None None None None None None None None None None None None.
Definition edit_tool : ToolType := mkToolType (s! "EditFileTool") edit_attributes.
Lemma edit_accepted : accepted_tool from_str edit_tool.
Proof. exists [text (s! "name") (s! "edit_file"); text (s! "description") (s! "Edits a file")]. by vm_compute. Qed.
End ToolDemo.

Lemma tool_call_roundtrip_witness :
  try_from ToolDemo.from_value [ToolDemo.edit_tool] (s! "edit_file") (object_fields DeriveDemo.arguments) =
  Ok (s! "EditFileTool", DeriveDemo.arguments).
Proof.
  assert (Hb : Forall (accepted_tool AttributesDemo.from_str) [ToolDemo.edit_tool])
    by (constructor; [exact ToolDemo.edit_accepted|constructor]).
  assert (Hn : NoDup (tool_name <$> [ToolDemo.edit_tool])) by (constructor; [apply not_elem_of_nil|constructor]).
  destruct (tool_call_roundtrip AttributesDemo.from_str DeriveDemo.program ToolDemo.from_value [ToolDemo.edit_tool] ToolDemo.edit_tool
    (from_option (fun fs => fs) [] (object_fields DeriveDemo.arguments)) DeriveDemo.program_supported ltac:(reflexivity) Hb Hn
    ltac:(left) DeriveDemo.arguments_document) as (_ & (x & Hx & H) & _).
  injection Hx as <-. exact H.
Defined.
