(* ===== verification/Elicit.v ===== *)
(** * Elicitation: the macro mcp_elicit

    Models crates/rust-mcp-macros/src/elicit/generator.rs with
    [is_vec_string] of utils.rs: the function that reads a struct from the
    content of an elicitation's result, and the form that asks for it.

    A panic of the macro, at a field of a type it does not support, is [None].
    [PrimitiveSchemaDefinition::try_from] and the debug text of a value belong to
    the schema crate and are parameters. *)
From S2P Require Import Prelude RustStr Json JsonSchema Syn DeriveSchema.

(** ** The content of a result *)

Inductive Primitive := PString (s : str) | PInteger (z : Z) | PBoolean (b : bool).
Inductive ElicitResultContent := StringArray (l : list str) | CPrimitive (p : Primitive).

(** The types of fields the macro supports, and their values. *)
Inductive FieldType := TString | TBool | TI32 | TI64 | TStrings.
Inductive FieldValue := Text (s : str) | Bool (b : bool) | Int (z : Z) | Texts (l : list str).
(** A field of type [T], or [Option<T>]. *)
Inductive Slot := Plain (v : FieldValue) | Opt (v : option FieldValue).

(** ** elicit/generator.rs *)

Definition literal_text (e : Expr) : option str := match e with ELit (LStr s) => Some s | _ => None end.
(** The loops over the metas of one [serde] attribute, up to the first [return]. *)
Fixpoint rename_directions (inner : list Meta) : option str :=
  match inner with
  | [] => None
  | NameValue (Some k) e :: r =>
      if bool_decide (k = s! "serialize") || bool_decide (k = s! "deserialize") then
        match literal_text e with Some s => Some s | None => rename_directions r end
      else rename_directions r
  | _ :: r => rename_directions r
  end.
Fixpoint renames (items : list Meta) : option str :=
  match items with
  | [] => None
  | NameValue (Some k) e :: r =>
      if bool_decide (k = s! "rename") then match literal_text e with Some s => Some s | None => renames r end else renames r
  | MetaList (Some k) args :: r =>
      if bool_decide (k = s! "rename") then
        match args with
        | None => None
        | Some inner => match rename_directions inner with Some s => Some s | None => renames r end
        end
      else renames r
  | _ :: r => renames r
  end.
Fixpoint find_rename (attrs : list Attribute) : option str :=
  match attrs with
  | [] => None
  | a :: r =>
      if bool_decide (path a = s! "serde") then
        match metas a ≫= renames with Some s => Some s | None => find_rename r end
      else find_rename r
  end.
Definition json_field_name (f : Field) : str := from_option id (f_ident f) (find_rename (f_attrs f)).

(** [is_vec_string] of utils.rs, and [path.is_ident(..)]. *)
Definition is_ident (ty : Ty) (s : str) : bool :=
  match ty with TPath false [mkSegment i NoArguments] => bool_decide (i = s) | _ => false end.
Definition is_vec_string (ty : Ty) : bool :=
  match ty with
  | TPath _ segments =>
      match last segments with
      | Some (mkSegment i (AngleBracketed [GType arg])) => bool_decide (i = s! "Vec") && is_ident arg (s! "String")
      | _ => false
      end
  | TOther => false
  end.
Definition get_option_inner (ty : Ty) : option Ty :=
  match ty with
  | TPath _ segments =>
      match last segments with
      | Some (mkSegment i (AngleBracketed (GType inner :: _))) => if bool_decide (i = s! "Option") then Some inner else None
      | _ => None
      end
  | TOther => None
  end.
Definition match_type (ty : Ty) : option FieldType :=
  if is_vec_string ty then Some TStrings
  else if is_ident ty (s! "String") then Some TString
  else if is_ident ty (s! "bool") then Some TBool
  else if is_ident ty (s! "i32") then Some TI32
  else if is_ident ty (s! "i64") then Some TI64
  else None.
Definition expected (t : FieldType) : str :=
  match t with TString => s! "string" | TBool => s! "bool" | TI32 => s! "i32" | TI64 => s! "i64" | TStrings => s! "string array" end.

(** A field as the generated code reads it. *)
Record Reader := mkReader { optional : bool; key : str; type : FieldType }.
Definition reader (f : Field) : option Reader :=
  if is_option (f_ty f) then
    inner ← get_option_inner (f_ty f); t ← match_type inner; Some (mkReader true (json_field_name f) t)
  else t ← match_type (f_ty f); Some (mkReader false (json_field_name f) t).

Section Reading.
Context (debug : ElicitResultContent -> str).
Abbreviation Content := (gmap str ElicitResultContent).

(** The pattern and the conversion of a type: [None] when the pattern fails. *)
Definition convert (t : FieldType) (k : str) (c : ElicitResultContent) : option (result FieldValue str) :=
  match t, c with
  | TStrings, StringArray l => Some (Ok (Texts l))
  | TString, CPrimitive (PString s) => Some (Ok (Text s))
  | TBool, CPrimitive (PBoolean b) => Some (Ok (Bool b))
  | TI32, CPrimitive (PInteger z) =>
      Some (if ((- 2 ^ 31 <=? z) && (z <? 2 ^ 31))%Z then Ok (Int z) else Err (s! "i32 overflow in field '" ++ k ++ s! "'"))
  | TI64, CPrimitive (PInteger z) => Some (Ok (Int z))
  | _, _ => None
  end.
Definition mismatch (r : Reader) (c : ElicitResultContent) : str :=
  s! "Type mismatch for " ++ (if optional r then s! "optional" else s! "required") ++ s! " field '" ++ key r ++
  s! "': expected " ++ expected (type r) ++ s! ", got " ++ debug c.
Definition read_field (r : Reader) (map : Content) : result Slot str * Content :=
  let rest := delete (key r) map in
  match map !! key r with
  | Some c =>
      match convert (type r) (key r) c with
      | Some (Ok v) => (Ok (if optional r then Opt (Some v) else Plain v), rest)
      | Some (Err e) => (Err e, rest)
      | None => (Err (mismatch r c), rest)
      end
  | None => (if optional r then Ok (Opt None) else Err (s! "Missing required field '" ++ key r ++ s! "'"), map)
  end.
Fixpoint read_fields (rs : list Reader) (map : Content) : result (list Slot) str :=
  match rs with
  | [] => Ok []
  | r :: rs =>
      match read_field r map with
      | (Err e, _) => Err e
      | (Ok x, map) => match read_fields rs map with Ok xs => Ok (x :: xs) | Err e => Err e end
      end
  end.
(** [from_elicit_result_content]; the errors are texts of [RpcError::parse_error]. *)
Definition from_elicit_result_content (fields : list Field) (content : option Content) : option (result (list Slot) str) :=
  rs ← mapM reader fields; Some (read_fields rs (from_option id ∅ content)).
End Reading.

(** [generate_form_schema] *)
Definition is_null_name (v : Value) : bool := bool_decide (as_string v = Some (s! "null")).
Definition strip_null_from_type (obj : Map) : Map :=
  match map_get (s! "type") obj with
  | Some (VArray arr) =>
      let null_count := length (List.filter is_null_name arr) in
      let non_null := List.filter (fun s => negb (bool_decide (s = s! "null"))) (omap as_string arr) in
      match non_null with
      | [t] => if Nat.eqb (length arr) 2 && Nat.eqb null_count 1 then map_insert (s! "type") (VString t) obj else obj
      | _ => obj
      end
  | _ => obj
  end.
Record ElicitFormSchema (D : Type) := mkForm { form_properties : list (str * D); form_required : list str }.
Arguments mkForm {D}. Arguments form_properties {D}. Arguments form_required {D}.
Definition requested_schema {D} (try_from : Map -> option D) (json : Map) : ElicitFormSchema D :=
  mkForm
    match map_get (s! "properties") json with
    | Some (VObject ps) =>
        omap (fun p => match p.2 with VObject obj => pair p.1 <$> try_from (strip_null_from_type obj) | _ => None end) ps
    | _ => []
    end
    match map_get (s! "required") json with Some (VArray arr) => omap as_string arr | _ => [] end.

(** ** What the content says of a struct *)

Definition content_of (v : FieldValue) : ElicitResultContent :=
  match v with
  | Text s => CPrimitive (PString s)
  | Bool b => CPrimitive (PBoolean b)
  | Int z => CPrimitive (PInteger z)
  | Texts l => StringArray l
  end.
Definition of_type (t : FieldType) (v : FieldValue) : Prop :=
  match t, v with
  | TString, Text _ | TBool, Bool _ | TI64, Int _ | TStrings, Texts _ => True
  | TI32, Int z => (- 2 ^ 31 <= z < 2 ^ 31)%Z
  | _, _ => False
  end.
(** What the field's entry holds when the field has the value. *)
Definition answers (r : Reader) (o : option ElicitResultContent) (x : Slot) : Prop :=
  match x with
  | Plain v => optional r = false /\ of_type (type r) v /\ o = Some (content_of v)
  | Opt (Some v) => optional r = true /\ of_type (type r) v /\ o = Some (content_of v)
  | Opt None => optional r = true /\ o = None
  end.

Section ReadingFacts.
Context (debug : ElicitResultContent -> str).
Implicit Types (r : Reader) (map : gmap str ElicitResultContent).

(** The error of a field whose entry holds no value of its type. *)
Definition complaint r (o : option ElicitResultContent) : str :=
  match o with
  | None => s! "Missing required field '" ++ key r ++ s! "'"
  | Some c => match convert (type r) (key r) c with Some (Err e) => e | _ => mismatch debug r c end
  end.

Lemma convert_exact t k c v : convert t k c = Some (Ok v) <-> of_type t v /\ c = content_of v.
Proof.
  split.
  - destruct t, c as [l|[s|z|b]]; try done; cbn [convert]; try (by intros [= <-]).
    destruct (_ && _) eqn:E; [|done]. intros [= <-]. bool_prop. done.
  - intros [Ht ->]. destruct t, v; try done. cbn [convert content_of]. simpl in Ht.
    by rewrite (proj2 (Z.leb_le _ _)), (proj2 (Z.ltb_lt _ _)) by lia.
Qed.

Lemma read_field_map r map : (read_field debug r map).2 = delete (key r) map.
Proof.
  unfold read_field. destruct (map !! key r) as [c|] eqn:E; [|by rewrite delete_id].
  by destruct (convert _ _ c) as [[]|].
Qed.
Lemma read_field_spec r map x : (read_field debug r map).1 = Ok x <-> answers r (map !! key r) x.
Proof.
  unfold read_field, answers. destruct (map !! key r) as [c|].
  - destruct (convert (type r) (key r) c) as [[v|e]|] eqn:E.
    + apply convert_exact in E as Hv. destruct (optional r); simpl; split.
      * intros [= <-]. by destruct Hv as [? ->].
      * destruct x as [w|[w|]]; [by intros (? & _)| |by intros (_ & ?)]. intros (_ & Hw & [= Hc]).
        rewrite (proj2 (convert_exact _ (key r) c w)) in E by done. congruence.
      * intros [= <-]. by destruct Hv as [? ->].
      * destruct x as [w|[w|]]; [|by intros (? & _)|by intros (_ & ?)]. intros (_ & Hw & [= Hc]).
        rewrite (proj2 (convert_exact _ (key r) c w)) in E by done. congruence.
    + split; [done|]. intros H. assert (exists v, of_type (type r) v /\ c = content_of v) as (v & Hv)
        by (destruct x as [w|[w|]]; naive_solver). apply (convert_exact _ (key r)) in Hv. congruence.
    + split; [done|]. intros H. assert (exists v, of_type (type r) v /\ c = content_of v) as (v & Hv)
        by (destruct x as [w|[w|]]; naive_solver). apply (convert_exact _ (key r)) in Hv. congruence.
  - destruct (optional r); simpl; split; try done; [by intros [= <-]|..]; destruct x as [w|[w|]]; naive_solver.
Qed.
Lemma read_field_error r map e : (read_field debug r map).1 = Err e -> e = complaint r (map !! key r).
Proof.
  unfold read_field, complaint. destruct (map !! key r) as [c|]; [|destruct (optional r); [done|]; by intros [= <-]].
  by destruct (convert _ _ c) as [[]|]; intros [= <-].
Qed.

Lemma answers_deleted rs k map xs : k ∉ key <$> rs ->
  Forall2 (fun r x => answers r (delete k map !! key r) x) rs xs <-> Forall2 (fun r x => answers r (map !! key r) x) rs xs.
Proof.
  revert xs; induction rs as [|r rs IH]; intros xs Hk; [split; by inversion 1|]. rewrite fmap_cons in Hk.
  apply not_elem_of_cons in Hk as [Hne Hk]. split; (inversion 1; subst; constructor; [|by apply IH]);
    [rewrite <-(lookup_delete_ne map k (key r)) by done|rewrite lookup_delete_ne by done]; done.
Qed.
Lemma read_fields_spec rs map : NoDup (key <$> rs) ->
  match read_fields debug rs map with
  | Ok xs => Forall2 (fun r x => answers r (map !! key r) x) rs xs
  | Err e => exists pre r post xs, rs = pre ++ r :: post /\ Forall2 (fun r x => answers r (map !! key r) x) pre xs /\
               (forall x, ~ answers r (map !! key r) x) /\ e = complaint r (map !! key r)
  end.
Proof.
  revert map; induction rs as [|r rs IH]; intros map Hn; [constructor|]. rewrite fmap_cons in Hn. apply NoDup_cons in Hn as [Hk Hn].
  cbn [read_fields]. pose proof (read_field_spec r map) as Hs. pose proof (read_field_error r map) as He.
  pose proof (read_field_map r map) as Hm.
  destruct (read_field debug r map) as [[x|e] map']; cbn [fst snd] in *.
  - specialize (IH map' Hn). subst map'. destruct (read_fields debug rs _) as [xs|e].
    + constructor; [by apply Hs|]. by apply answers_deleted in IH.
    + destruct IH as (pre & r' & post & xs & -> & Hp & Hno & ->).
      rewrite fmap_app, fmap_cons in Hk. apply not_elem_of_app in Hk as [Hk1 [Hk2 _]%not_elem_of_cons].
      rewrite lookup_delete_ne in * by done. exists (r :: pre), r', post, (x :: xs). split_and!; try done.
      constructor; [by apply Hs|]. by apply answers_deleted in Hp.
  - exists [], r, rs, []. split_and!; try done; [|by apply He]. intros x Hx. by apply Hs in Hx.
Qed.

Lemma answers_unique r o x y : answers r o x -> answers r o y -> x = y.
Proof.
  assert (Hc : forall v w, content_of v = content_of w -> v = w) by (intros [] []; simpl; congruence).
  intros Hx Hy. destruct x as [v|[v|]], y as [w|[w|]]; simpl in *; destruct_and?; try congruence;
    do 2 f_equal; try (f_equal; apply Hc; congruence); apply Hc; congruence.
Qed.
End ReadingFacts.


(** ** The form *)

(** The type whose value a field asks for. *)
Definition plain_type (f : Field) : Ty := if is_option (f_ty f) then from_option id (f_ty f) (inner_type (f_ty f)) else f_ty f.
Definition unconstrained (f : Field) : Prop :=
  let a := schema_attrs (f_attrs f) in
  format a = None /\ min_length a = None /\ max_length a = None /\ minimum a = None /\ maximum a = None.

Module FormFacts.
Import MapFacts.
(** The shapes of the types the macro supports. *)
Lemma is_ident_inv ty s : is_ident ty s = true -> ty = TPath false [mkSegment s NoArguments].
Proof.
  unfold is_ident. destruct ty as [[] [|[i []] []]|]; try done. case_bool_decide; [by subst|done].
Qed.
Lemma is_vec_string_inv ty : is_vec_string ty = true ->
  exists lc pre, ty = TPath lc (pre ++ [mkSegment (s! "Vec") (AngleBracketed [GType (TPath false [mkSegment (s! "String") NoArguments])])]).
Proof.
  unfold is_vec_string. destruct ty as [lc segs|]; [|done]. destruct segs as [|x pre _] using rev_ind; [done|].
  rewrite last_snoc. destruct x as [i [|[|[arg|] []]|]]; try done. intros [Ei Ea]%andb_prop. case_bool_decide; [|done].
  apply is_ident_inv in Ea as ->. subst i. by exists lc, pre.
Qed.

Section Form.
Context (js : str -> Map).

(** The schema of a supported type, with the quotes that say nothing. *)
Definition base (t : FieldType) : Map :=
  match t with
  | TString => typed (s! "string")
  | TBool => typed (s! "boolean")
  | TI32 | TI64 => typed (s! "integer")
  | TStrings => map_insert (s! "items") (VObject (typed (s! "string"))) (typed (s! "array"))
  end.
Definition quoted attrs (m : Map) : Map :=
  let a := schema_attrs attrs in insert_some [description_quote attrs a; title_quote a; default_quote a] m.

Lemma supported_schema f ty t : unconstrained f -> match_type ty = Some t ->
  type_to_json_schema js ty (f_attrs f) = quoted (f_attrs f) (base t) \/
  type_to_json_schema js ty (f_attrs f) = quoted (f_attrs f) (typed (s! "unknown")).
Proof.
  intros (H1 & H2 & H3 & H4 & H5) Ht. unfold quoted, description_quote, title_quote, default_quote. unfold match_type in Ht.
  destruct (is_vec_string ty) eqn:Ev.
  - injection Ht as <-. apply is_vec_string_inv in Ev as (lc & pre & ->).
    destruct pre as [|p [|q [|z pre]]]; [left|right|right|right].
    + destruct lc; cbn [app type_to_json_schema]; cbv zeta; rewrite bool_decide_eq_false_2, bool_decide_eq_true_2 by done;
        unfold array_schema, min_items_quote, max_items_quote; rewrite H2, H3; reflexivity.
    + destruct lc, p as [? []]; reflexivity.
    + destruct lc, p as [? []], q as [? []]; reflexivity.
    + destruct lc, p as [? []], q as [? []]; reflexivity.
  - left.
    destruct (is_ident ty (s! "String")) eqn:E1; [|destruct (is_ident ty (s! "bool")) eqn:E2; [|destruct (is_ident ty (s! "i32")) eqn:E3;
      [|destruct (is_ident ty (s! "i64")) eqn:E4; [|done]]]]; injection Ht as <-;
    repeat match goal with H : is_ident ty _ = true |- _ => apply is_ident_inv in H as -> end;
    change (type_to_json_schema js _ _) with (string_schema (f_attrs f) (schema_attrs (f_attrs f))) ||
    change (type_to_json_schema js _ _) with (integer_schema (f_attrs f) (schema_attrs (f_attrs f))) ||
    change (type_to_json_schema js _ _) with (boolean_schema (f_attrs f) (schema_attrs (f_attrs f)));
    unfold string_schema, integer_schema, format_quote, min_quote, max_quote, min_num_quote, max_num_quote; rewrite ?H1, ?H2, ?H3, ?H4, ?H5; reflexivity.
Qed.

(** Stripping undoes what [Option] did to the schema. *)
Lemma strip_quoted f m : unconstrained f -> m ∈ (base <$> [TString; TBool; TI32; TI64; TStrings]) ++ [typed (s! "unknown")] ->
  let a := schema_attrs (f_attrs f) in
  strip_null_from_type (quoted (f_attrs f) m) = quoted (f_attrs f) m /\
  strip_null_from_type (insert_some [description_quote (f_attrs f) a; title_quote a; format_quote a; min_quote a; max_quote a;
      min_num_quote a; max_num_quote a; default_quote a] (nullable (quoted (f_attrs f) m))) = quoted (f_attrs f) m.
Proof.
  intros (H1 & H2 & H3 & H4 & H5) Hm a. subst a. unfold quoted, description_quote, title_quote, default_quote, format_quote, min_quote,
    max_quote, min_num_quote, max_num_quote. rewrite H1, H2, H3, H4, H5.
  destruct (description (f_attrs f) (schema_attrs (f_attrs f))), (title (schema_attrs (f_attrs f))), (default (schema_attrs (f_attrs f)));
    repeat (apply elem_of_cons in Hm as [->|Hm]); try (by apply elem_of_nil in Hm); by split; vm_compute.
Qed.

Lemma strip_field fields rs f : mapM reader fields = Some rs -> Forall unconstrained fields -> f ∈ fields ->
  strip_null_from_type (type_to_json_schema js (f_ty f) (f_attrs f)) = type_to_json_schema js (plain_type f) (f_attrs f).
Proof.
  intros Hr Hu Hf. rewrite Forall_forall in Hu. specialize (Hu f Hf).
  assert (exists r, reader f = Some r) as [r Er].
  { apply mapM_Some in Hr. apply list_elem_of_lookup in Hf as [i Hi]. destruct (Forall2_lookup_l _ _ _ _ _ Hr Hi) as (r & _ & E). eauto. }
  unfold reader in Er. unfold plain_type.
  assert (Hb : forall t, base t ∈ (base <$> [TString; TBool; TI32; TI64; TStrings]) ++ [typed (s! "unknown")])
    by (intros t; apply elem_of_app; left; apply list_elem_of_fmap_2; destruct t; set_solver).
  assert (Hk : typed (s! "unknown") ∈ (base <$> [TString; TBool; TI32; TI64; TStrings]) ++ [typed (s! "unknown")])
    by (apply elem_of_app; right; by left).
  destruct (is_option (f_ty f)) eqn:Eo.
  - destruct (f_ty f) as [lc segs|]; [|done]. destruct segs as [|[i [|args|]] [|]]; try done. cbn [is_option] in Eo. case_bool_decide; [|done]. subst i.
    cbn [get_option_inner last] in Er. destruct args as [|[inner|] args]; try done. rewrite bool_decide_eq_true_2 in Er by done. cbn [mbind option_bind] in Er.
    destruct (match_type inner) as [t|] eqn:Et; [|done].
    destruct args as [|arg args]; [change (from_option id _ (inner_type _)) with inner|].
    + assert (E : type_to_json_schema js (TPath lc [mkSegment (s! "Option") (AngleBracketed [GType inner])]) (f_attrs f) =
        let a := schema_attrs (f_attrs f) in
        insert_some [description_quote (f_attrs f) a; title_quote a; format_quote a; min_quote a; max_quote a; min_num_quote a;
          max_num_quote a; default_quote a] (nullable (type_to_json_schema js inner (f_attrs f)))) by (by destruct lc).
      rewrite E. destruct (supported_schema f inner t Hu Et) as [->| ->];
        [exact (proj2 (strip_quoted f _ Hu (Hb t)))|exact (proj2 (strip_quoted f _ Hu Hk))].
    + assert (E : type_to_json_schema js (TPath lc [mkSegment (s! "Option") (AngleBracketed (GType inner :: arg :: args))]) (f_attrs f) =
        quoted (f_attrs f) (typed (s! "unknown"))) by (by destruct lc).
      change (from_option id ?x (inner_type _)) with x. rewrite E. exact (proj1 (strip_quoted f _ Hu Hk)).
  - destruct (match_type (f_ty f)) as [t|] eqn:Et; [|done].
    destruct (supported_schema f (f_ty f) t Hu Et) as [->| ->];
      [exact (proj1 (strip_quoted f _ Hu (Hb t)))|exact (proj1 (strip_quoted f _ Hu Hk))].
Qed.
End Form.
End FormFacts.

(** The form asks for the struct.  It requires the fields that are not
    optional, and has a property for each field whose definition is made from the
    schema of the field's own type: what [Option] added to say null is taken out
    again, and the rest of the schema is unchanged. *)
Theorem elicit_form_exact {D} (try_from : Map -> option D) js (fields : list Field) (rs : list Reader) :
  mapM reader fields = Some rs -> NoDup (field_name <$> fields) -> Forall unconstrained fields ->
  let form := requested_schema try_from (object_schema js fields) in
  form_required form = required fields /\
  forall k d, (k, d) ∈ form_properties form <->
    exists f, f ∈ fields /\ k = field_name f /\ try_from (type_to_json_schema js (plain_type f) (f_attrs f)) = Some d.
Proof.
  intros Hr Hn Hu form. unfold form, requested_schema. cbn [form_required form_properties].
  assert (Ep : map_get (s! "properties") (object_schema js fields) = Some (VObject (properties js fields))).
  { unfold object_schema. destruct (required fields); rewrite ?MapFacts.map_get_insert_ne by done; apply MapFacts.get_insert. }
  rewrite Ep. split.
  - unfold object_schema. destruct (required fields) as [|r l] eqn:E; [by vm_compute|].
    rewrite MapFacts.get_insert, <-E. clear. induction (required fields) as [|x l' IH]; [done|]. cbn. f_equal. exact IH.
  - intros k d. rewrite list_elem_of_omap. split.
    + intros ([k' v] & Hin & E). unfold properties in Hin. rewrite MapFacts.map_of_elem in Hin by (by rewrite <-list_fmap_compose).
      apply list_elem_of_fmap in Hin as (f & [= -> ->] & Hf). cbn [snd field_schema fst] in E.
      destruct (try_from _) as [d'|] eqn:Et; [|done]. injection E as <- <-. exists f. split_and!; try done.
      rewrite <-Et. symmetry. f_equal. by eapply FormFacts.strip_field.
    + intros (f & Hf & -> & Et). exists (field_name f, field_schema js f). split.
      * apply MapFacts.map_of_elem; [by rewrite <-list_fmap_compose|]. by apply list_elem_of_fmap_2 with (f := fun f => (field_name f, field_schema js f)).
      * cbn [snd field_schema fst]. rewrite (FormFacts.strip_field js fields rs f), Et by done. done.
Qed.

Module ElicitDemo.
Definition ident (s : str) : Ty := TPath false [mkSegment s NoArguments].
Definition option (t : Ty) : Ty := TPath false [mkSegment (s! "Option") (AngleBracketed [GType t])].
Definition fields : list Field :=
  [mkField (s! "name") [] (ident (s! "String")); mkField (s! "age") [] (option (ident (s! "i32")))].
Definition readers : list Reader := [mkReader false (s! "name") TString; mkReader true (s! "age") TI32].
Definition debug (c : ElicitResultContent) : str := s! "_".
Definition content (z : Z) : gmap str ElicitResultContent :=
  {[ s! "name" := CPrimitive (PString (s! "Ada")); s! "age" := CPrimitive (PInteger z) ]}.
Example age_overflows : from_elicit_result_content debug fields (Some (content (2 ^ 31))) =
  Some (Err (s! "i32 overflow in field 'age'")).
Proof. by vm_compute. Qed.
(** With [rename(deserialize = ..)] the schema keeps the name of the field and
    the reader looks for the other. *)
Definition renamed : Field := mkField (s! "age")
  [mkAttribute (s! "serde") None [(s! "rename", None)]
     (Some [MetaList (Some (s! "rename")) (Some [NameValue (Some (s! "deserialize")) (ELit (LStr (s! "years")))])])] (ident (s! "i64")).
Example rename_directions_disagree : field_name renamed = s! "age" /\ json_field_name renamed = s! "years".
Proof. by vm_compute. Qed.
End ElicitDemo.

Lemma elicit_form_exact_witness :
  form_required (requested_schema Some (object_schema (fun _ => []) ElicitDemo.fields)) = [s! "name"].
Proof.
  assert (Hn : NoDup (field_name <$> ElicitDemo.fields)) by decided.
  assert (Hu : Forall unconstrained ElicitDemo.fields) by (repeat constructor).
  exact (proj1 (elicit_form_exact Some (fun _ => []) ElicitDemo.fields ElicitDemo.readers eq_refl Hn Hu)).
Defined.
