(* ===== verification/MacroItems.v ===== *)
(** * The macros applied to items

    Models the four attribute macros of crates/rust-mcp-macros/src/lib.rs:
    what they accept, in which order they refuse, and the functions they
    generate on a struct, on top of the attributes (MacroAttributes.v), the tool
    box (ToolBox.v) and the elicitation form (Elicit.v).

    As in [MacroAttributes.parse_result], [None] is a panic of the macro; an
    [Err] is a [compile_error!]. *)
From S2P Require Import Prelude RustStr Json JsonSchema Syn DeriveSchema MacroAttributes ToolBox Elicit.

(** ** mcp_tool *)

(** [syn::Item]: what the macro can be written on. *)
Inductive Item := ItemStruct (ident : str) | ItemType (ident : str) (ty : Ty) | ItemOther.

Definition ALIAS_GENERIC : str := s! "mcp_tool does not support type aliases with generic arguments".
Definition ALIAS_PATH : str := s! "mcp_tool only supports simple type aliases to a single identifier (e.g. `type Foo = Bar;`)".
Definition ALIAS_TYPE : str := s! "mcp_tool only supports type aliases to path types".
Definition NOT_AN_ITEM : str := s! "#[mcp_tool] can only be applied to structs or type aliases".
(** The struct whose [impl] the macro extends: an alias stands for the type it
    names. *)
Definition tool_item (item : Item) : parse_result str :=
  match item with
  | ItemStruct ident => parsed ident
  | ItemType _ (TPath false [mkSegment ident NoArguments]) => parsed ident
  | ItemType _ (TPath false [_]) => refuse ALIAS_GENERIC
  | ItemType _ (TPath _ _) => refuse ALIAS_PATH
  | ItemType _ TOther => refuse ALIAS_TYPE
  | ItemOther => refuse NOT_AN_ITEM
  end.
Section Tools.
Context (from_str : str -> result Value str).
Definition mcp_tool (attributes : list Meta) (input : Item) : parse_result ToolType :=
  let! ident := tool_item input in
  let! a := parse_tool from_str attributes in
  parsed (mkToolType ident a).
End Tools.
(** [request_params()]: the name of the tool it asks for. *)
Definition request_params (t : ToolType) : str := from_option id [] (a_name (attributes t)).

(** ** mcp_resource and mcp_resource_template *)

Section Resources.
Context (from_str : str -> result Value str).
Definition mcp_resource (attributes : list Meta) (input : DeriveInput) : parse_result (str * Attributes) :=
  let! a := parse_resource from_str attributes in parsed (name input, a).
Definition mcp_resource_template (attributes : list Meta) (input : DeriveInput) : parse_result (str * Attributes) :=
  let! a := parse_resource_template from_str attributes in parsed (name input, a).
End Resources.
Definition resource_uri (a : Attributes) : str := from_option id [] (a_uri a).
Definition resource_name (a : Attributes) : str := from_option id [] (a_name a).
Definition resource_template_uri (a : Attributes) : str := from_option id [] (a_uri_template a).
Definition resource_template_name (a : Attributes) : str := from_option id [] (a_name a).

(** ** mcp_elicit *)

(** The struct with its message, its mode and how its fields are read. *)
Record ElicitType := mkElicitType { el_struct : str; el_args : ElicitArgs; el_readers : list Reader }.
Definition named_fields (input : DeriveInput) : option (list Field) :=
  match data input with Struct (Named fields) => Some fields | _ => None end.
Definition mcp_elicit (args : list Meta) (input : DeriveInput) : parse_result ElicitType :=
  match named_fields input with
  | None => None (* panic!("mcp_elicit only supports structs ..") *)
  | Some fields =>
      let! elicit_args := parse_elicit args in
      match mapM reader fields with
      | None => None (* panic!("Unsupported type ..") *)
      | Some rs => parsed (mkElicitType (name input) elicit_args rs)
      end
  end.

(** The functions that say how to ask. *)
Section Asking.
Context {D : Type} (try_from : Map -> option D).
Inductive ElicitRequestParams :=
| FormParams (message : str) (requested_schema : ElicitFormSchema D)
| UrlParams (elicitation_id message url : str).
Definition elicit_message (e : ElicitType) : str := message (el_args e).
Definition mode_name (e : ElicitType) : str :=
  match mode (el_args e) with Form => s! "form" | Url _ => s! "url" end.
Definition elicit_form_params (json : Map) (e : ElicitType) : ElicitRequestParams :=
  FormParams (elicit_message e) (requested_schema try_from json).
Definition elicit_url_params (url elicitation_id : str) (e : ElicitType) : ElicitRequestParams :=
  UrlParams elicitation_id (elicit_message e) url.
(** [elicit_request_params], which takes the id in the mode [url] only. *)
Definition elicit_request_params (json : Map) (elicitation_id : str) (e : ElicitType) : ElicitRequestParams :=
  match mode (el_args e) with
  | Form => elicit_form_params json e
  | Url url => elicit_url_params url elicitation_id e
  end.
End Asking.
Definition from_content (debug : ElicitResultContent -> str) (e : ElicitType) (content : option (gmap str ElicitResultContent))
  : result (list Slot) str := read_fields debug (el_readers e) (from_option id ∅ content).

(** ** Facts *)

(** A tool the macro accepts is one a tool box can list and serve: its
    attributes are accepted, it is asked for by the name it is listed under, and
    the struct is the one written, or the one an alias names. *)
Theorem mcp_tool_accepted from_str program metas item t : mcp_tool from_str metas item = parsed t ->
  accepted_tool from_str t /\ request_params t = tool_name t /\
  (exists x, tool_of from_str program t = Some x /\ t_name x = request_params t) /\
  (item = ItemStruct (rust_type t) \/ exists alias, item = ItemType alias (TPath false [mkSegment (rust_type t) NoArguments])).
Proof.
  intros (ident & Hi & (a & Ha & [= <-])%AttributeFacts.p_bind_parsed)%AttributeFacts.p_bind_parsed.
  assert (Hacc : accepted_tool from_str (mkToolType ident a)) by (by exists metas).
  split_and!; [done|done| |].
  - destruct (tool_total from_str program _ Hacc) as (x & Hx & E & _). by exists x.
  - unfold tool_item in Hi. destruct item as [i|alias [lead segs|]|]; try done; [injection Hi as <-; by left|right].
    destruct lead, segs as [|[i args] [|]]; try done; destruct args; try done. injection Hi as <-. by exists alias.
Qed.

(** A box of accepted tools can always be listed. *)
Corollary mcp_tools_listed from_str program (items : list (list Meta * Item)) (box : list ToolType) :
  Forall2 (fun i t => mcp_tool from_str i.1 i.2 = parsed t) items box ->
  exists listing, tools from_str program box = Some listing /\ t_name <$> listing = request_params <$> box.
Proof.
  intros H. assert (Hacc : Forall (accepted_tool from_str) box).
  { induction H as [|i t items box Ht _ IH]; constructor; [|done]. by apply (mcp_tool_accepted from_str program) in Ht as [? _]. }
  destruct (listing_total from_str program box Hacc) as (l & E & Hl). exists l. split; [done|].
  clear E H. induction Hl as [|t x box l Hx _ IH]; [done|]. apply Forall_cons in Hacc as [Ht Hacc].
  rewrite !fmap_cons, IH by done. f_equal. destruct (tool_total from_str program t Ht) as (y & Ey & En & _).
  rewrite Hx in Ey. by injection Ey as <-.
Qed.

(** What [mcp_elicit] accepts: a struct with named fields of supported types.
    It asks with the message of the macro, for the form of the struct, or with
    the URL given; the content of an answer is read the same way in both modes. *)
Theorem mcp_elicit_accepted {D} (try_from : Map -> option D) debug args input e :
  mcp_elicit args input = parsed e ->
  (exists fields, data input = Struct (Named fields) /\ forall content,
     from_elicit_result_content debug fields content = Some (from_content debug e content)) /\
  elicit_message e = from_option id [] (last_text (s! "message") args) /\
  forall json elicitation_id,
    match mode (el_args e) with
    | Form => mode_name e = s! "form" /\
        elicit_request_params try_from json elicitation_id e = FormParams (elicit_message e) (requested_schema try_from json)
    | Url url => mode_name e = s! "url" /\ last_text (s! "url") args = Some url /\
        elicit_request_params try_from json elicitation_id e = UrlParams elicitation_id (elicit_message e) url
    end.
Proof.
  unfold mcp_elicit, named_fields. destruct (data input) as [[fields| |]| |] eqn:Ed; try done.
  intros (a & Ha & H)%AttributeFacts.p_bind_parsed. destruct (mapM reader fields) as [rs|] eqn:Er; [|done]. injection H as <-.
  apply AttributeFacts.p_bind_parsed in Ha as (m & Hm & [= <-]). split_and!.
  - exists fields. split; [done|]. intros content. unfold from_elicit_result_content. rewrite Er. done.
  - done.
  - intros json i. unfold mode_name, elicit_request_params. cbn [el_args mode message]. destruct m as [|url]; [done|].
    split_and!; try done. assert (Hf : forall acc metas, (forall u, acc = Url u -> last_text (s! "url") args = Some u) ->
      p_fold (elicit_mode (last_text (s! "url") args)) acc metas = parsed (Url url) -> last_text (s! "url") args = Some url).
    { clear. intros acc metas. revert acc. induction metas as [|x metas IH]; intros acc Hacc; simpl; [intros [= ->]; by apply Hacc|].
      destruct (elicit_mode _ acc x) as [[acc'|]|] eqn:E; try done. apply IH. intros u ->. clear IH. unfold elicit_mode in E.
      destruct x as [[k|] v| |]; try (injection E as ->; by apply Hacc). case_bool_decide; [|injection E as ->; by apply Hacc].
      destruct v as [| | |[w|]| |]; try done; [|injection E as ->; by apply Hacc].
      case_bool_decide; [|by case_bool_decide]. destruct (last_text _ args) as [u'|]; [|done]. by injection E as <-. }
    by eapply (Hf Form); [|exact Hm].
Qed.
