(* ===== verification/HttpAnswers.v ===== *)
(** * Well-formed answers

    What the HTTP handler of HttpHandler.v answers through the middlewares of
    Http.v: responses with one readable value per header, whose content type is
    that of an event stream exactly if their body is a stream.  A web framework
    reads a [HeaderMap] by iterating over it ([HeaderIter]). *)
From S2P Require Import Prelude RustStr EventStore SessionStore IdGen Dispatcher Auth ServerRuntime Http HttpHandler.

(** Iterating over a [HeaderMap]: its fields, grouped by name. *)
Class HeaderIter (H : Type) `{HeaderMap H} := { hm_iter : H -> list (str * bytes) }.
Fixpoint field (k : str) (l : list (str * bytes)) : option bytes :=
  match l with [] => None | (k', v) :: r => if decide (k' = k) then Some v else field k r end.
Class HeaderIterLaws (H : Type) `{HeaderIter H} : Prop := {
  iter_new : hm_iter hm_new = [];
  iter_get h k : hm_get h k = field k (hm_iter h);
  insert_unique h k v : NoDup (hm_iter h).*1 -> NoDup (hm_iter (hm_insert h k v)).*1;
  append_absent h k v : hm_get h k = None -> hm_append h k v = hm_insert h k v;
  from_str_visible h s v : from_str h s = Some v -> v = s /\ Forall (fun c => visible c = true) s;
}.

(** A list of fields, in the order they came. *)
Module FieldList.
Definition t : Type := list (str * bytes).
Definition insert (h : list (str * bytes)) (k : str) (v : bytes) : t := filter (fun kv => kv.1 <> k) h ++ [(k, v)].
#[global] Instance header_map : HeaderMap t := {
  hm_new := []; hm_get := fun h k => field k h; hm_insert := insert; hm_append := fun h k v => h ++ [(k, v)];
  to_str := fun _ => ListHeaders.check; from_str := fun _ => ListHeaders.check;
}.
#[global] Instance header_iter : HeaderIter t := { hm_iter := fun h => h }.
Lemma field_app k (l l' : list (str * bytes)) : field k (l ++ l') = match field k l with Some v => Some v | None => field k l' end.
Proof. induction l as [|[k' v] l IH]; simpl; [done|]. by destruct (decide (k' = k)). Qed.
Lemma field_filter k k' (l : list (str * bytes)) :
  field k' (filter (fun kv => kv.1 <> k) l) = if decide (k = k') then None else field k' l.
Proof.
  induction l as [|[k0 v] l IH]; [by destruct (decide _)|]. rewrite filter_cons. cbn [fst field].
  destruct (decide (k0 = k)) as [->|Hne].
  - rewrite decide_False, IH by tauto. by destruct (decide (k = k')).
  - rewrite decide_True by done. cbn [field]. rewrite IH. by destruct (decide (k = k')), (decide (k0 = k')); subst.
Qed.
Lemma filter_absent k (l : list (str * bytes)) : field k l = None -> filter (fun kv => kv.1 <> k) l = l.
Proof.
  induction l as [|[k0 v] l IH]; [done|]. rewrite filter_cons. cbn [fst field].
  destruct (decide (k0 = k)); [done|]. intros E. rewrite decide_True by done. by rewrite IH.
Qed.
Lemma check_visible s v : ListHeaders.check s = Some v -> v = s /\ Forall (fun c => visible c = true) s.
Proof. unfold ListHeaders.check. case_bool_decide; [|done]. by intros [= <-]. Qed.
#[global] Instance laws : HeaderMapLaws t.
Proof.
  split; simpl; try done.
  - intros h k v k'. unfold insert. rewrite field_app, field_filter. simpl.
    destruct (decide (k = k')); [done|]. by destruct (field k' h).
  - intros h k v k'. rewrite field_app. simpl. destruct (decide (k = k')) as [->|]; by destruct (field k' h).
  - intros _ v s E. apply check_visible in E as [-> ?]. done.
  - intros _ s Hs. unfold ListHeaders.check. by rewrite bool_decide_eq_true_2.
  - intros _ s Hs. unfold ListHeaders.check. by rewrite bool_decide_eq_true_2.
Qed.
#[global] Instance iter_laws : HeaderIterLaws t.
Proof.
  split; simpl; try done.
  - intros h k v Hnd. unfold insert. rewrite fmap_app. apply NoDup_app. split_and!; [| |apply NoDup_singleton].
    2:{ intros x (y & -> & [Hy _]%list_elem_of_filter)%list_elem_of_fmap Hx. apply list_elem_of_singleton in Hx. done. }
    induction h as [|[k0 v0] h IH]; [constructor|]. apply NoDup_cons in Hnd as [Hk Hnd].
    rewrite filter_cons. case_decide; [|by apply IH]. apply NoDup_cons. split; [|by apply IH]. intros Hin. apply Hk.
    apply list_elem_of_fmap in Hin as (x & -> & [_ Hx]%list_elem_of_filter). apply list_elem_of_fmap. eauto.
  - intros h k v E. unfold insert. by rewrite filter_absent.
  - intros _ s v E. by apply check_visible.
Qed.
End FieldList.

Module ResponseFacts.
Section Responses.
Context {H : Type} `{HeaderMapLaws H} `{!HeaderIter H} `{!HeaderIterLaws H}.

Lemma elem_field k l v : field k l = Some v -> (k, v) ∈ l.
Proof. induction l as [|[k' v'] l IH]; simpl; [done|]. destruct (decide (k' = k)) as [->|]; [intros [= ->]; left|right; auto]. Qed.
Lemma field_absent k l : k ∉ l.*1 -> field k l = None.
Proof. intros Hk. destruct (field k l) as [v|] eqn:E; [|done]. apply elem_field in E. destruct Hk. apply list_elem_of_fmap. by exists (k, v). Qed.

(** Inserting fields of different names gives a map of just these fields. *)
Lemma insert_fields (l : list (str * bytes)) (h : H) : NoDup l.*1 -> NoDup (hm_iter h).*1 ->
  let h' := foldl (fun h kv => hm_insert h kv.1 kv.2) h l in
  NoDup (hm_iter h').*1 /\ forall k, hm_get h' k = match field k l with Some v => Some v | None => hm_get h k end.
Proof.
  revert h. induction l as [|[k0 v0] l IH]; intros h Hl Hh; [done|]. simpl in *. apply NoDup_cons in Hl as [Hk Hl].
  destruct (IH (hm_insert h k0 v0) Hl (insert_unique _ _ _ Hh)) as [? G]. split; [done|]. intros k. rewrite G, get_insert.
  destruct (decide (k0 = k)) as [->|]; [|done]. by rewrite field_absent.
Qed.
Lemma new_unique : NoDup (hm_iter (hm_new (H := H))).*1.
Proof. rewrite iter_new. constructor. Qed.
Lemma with_headers_fields (l : list (str * bytes)) : NoDup l.*1 ->
  NoDup (hm_iter (McpHttpHandler.with_headers (H := H) l)).*1 /\
  forall k, hm_get (McpHttpHandler.with_headers (H := H) l) k = field k l.
Proof.
  intros Hl. unfold McpHttpHandler.with_headers.
  replace (foldl _ hm_new l) with (foldl (fun h kv => hm_insert h kv.1 kv.2) (hm_new (H := H)) l).
  { destruct (insert_fields l hm_new Hl new_unique) as [? G]. split; [done|]. intros k. rewrite G, get_new. by destruct (field k l). }
  assert (Hn : forall k, k ∈ l.*1 -> hm_get (hm_new (H := H)) k = None) by (intros; apply get_new).
  revert Hn. generalize (hm_new (H := H)). induction l as [|[k0 v0] l IH]; intros h Hh; [done|]. simpl in *.
  apply NoDup_cons in Hl as [Hk Hl]. rewrite append_absent by (apply Hh; left). apply IH; [done|].
  intros k Hk'. rewrite get_insert, decide_False by (by intros ->). apply Hh. by right.
Qed.

Definition streams (b : Body) : bool := match b with BStream _ | BSse _ _ => true | _ => false end.
Definition event_stream (ct : option bytes) : bool := from_option (starts_with (s! "text/event-stream")) false ct.

(** A response of the SDK: one readable value per header, and the content type
    of an event stream exactly if its body is one. *)
Definition wf_response (r : Response H) : Prop :=
  (100 <= status r < 1000)%N /\ NoDup (hm_iter (resp_headers r)).*1 /\
  (forall k v, hm_get (resp_headers r) k = Some v -> Forall (fun c => visible c = true) v) /\
  streams (resp_body r) = event_stream (hm_get (resp_headers r) CONTENT_TYPE).

Lemma built_wf st hs b : (100 <= st < 1000)%N -> NoDup hs.*1 -> Forall (fun kv => Forall (fun c => visible c = true) kv.2) hs ->
  streams b = event_stream (field CONTENT_TYPE hs) -> wf_response (mkResponse st (McpHttpHandler.with_headers hs) b).
Proof.
  intros Hst Hnd Hv Hb. destruct (with_headers_fields hs Hnd) as [Hu G]. split_and!; simpl; [lia..|done| |by rewrite G].
  intros k v. rewrite G. intros E%elem_field. by eapply (proj1 (Forall_forall _ _) Hv (k, v)).
Qed.
Lemma error_response_wf st e : (100 <= st < 1000)%N -> wf_response (error_response st e).
Proof.
  intros Hst. apply (built_wf st [(CONTENT_TYPE, s! "application/json")] (BSdkError e)); [done| |by repeat constructor|done].
  apply NoDup_singleton.
Qed.

End Responses.
End ResponseFacts.
Import ResponseFacts.


(** What the handlers answer is such a response. *)
Module AnswerFacts.
Section Answers.
Context {H : Type} `{HeaderMapLaws H} `{!HeaderIter H} `{!HeaderIterLaws H}.
Context {Extra Details Tr St G RequestId Req Notif Resp Out : Type}.
Context `{!SessionStore nat St} `{!IdGenerator G}.
Abbreviation CM := (ServerRuntime.ClientMessage RequestId Req Notif Resp).
Context `{!TransportDispatcher RequestId CM Out Tr}.
Abbreviation World := (McpAppState.t Extra Details Tr St G).
Context (now : N) (encode : bytes -> str) (parse_value : str -> option Value) (parse_messages : str -> option (Messages CM))
  (is_initialize_request : CM -> bool) (parse_version : str -> result unit str) (show_error : McpSdkError -> str)
  (tr_new : option (str * str) -> Tr) (env : World -> World) (read_line : nat -> World -> option (result str str) * World).

Definition answers_wf (f : Act World McpHttpError (Response H)) : Prop := forall w r w', f w = (Ok r, w') -> wf_response r.
Lemma ret_wf r : wf_response r -> answers_wf (act_ret r).
Proof. by intros Hr w r' w' [= <- _]. Qed.
Lemma fail_wf e : answers_wf (act_fail e).
Proof. by intros w r w'. Qed.
Lemma bind_wf {A} (m : Act World McpHttpError A) k : (forall a, answers_wf (k a)) -> answers_wf (act_bind m k).
Proof. intros Hk w r w'. unfold act_bind. destruct (m w) as [[a|e] w1]; [apply Hk|done]. Qed.
Lemma session_header_visible (h : H) id v : from_str h id = Some v -> Forall (fun c => visible c = true) v.
Proof. by intros [-> ?]%from_str_visible. Qed.

Lemma respond_wf st e : (100 <= st < 1000)%N -> answers_wf (McpHttpHandler.respond (error_response st e)).
Proof. intros ?. by apply ret_wf, error_response_wf. Qed.

Lemma json_wf st b : (100 <= st < 1000)%N -> streams b = false ->
  wf_response (mkResponse (H := H) st (McpHttpHandler.with_headers [(CONTENT_TYPE, s! "application/json")]) b).
Proof. intros Hst Hb. apply built_wf; [done|apply NoDup_singleton|by repeat constructor|by rewrite Hb]. Qed.

Lemma create_sse_stream_wf i id p standalone last :
  answers_wf (McpHttpHandler.create_sse_stream encode parse_value tr_new i id p standalone last).
Proof.
  intros w r w'. unfold McpHttpHandler.create_sse_stream.
  destruct (match p with Some p => contains_request parse_value p | None => Some false end) as [b|];
    [|intros [= <- _]; by apply error_response_wf].
  destruct (if standalone then _ else _) as [sid w1]. destruct (from_str _ id) as [v|] eqn:E; [|done]. intros [= <- _].
  apply built_wf; [by destruct b| | |done].
  - decided.
  - apply session_header_visible in E. by repeat constructor.
Qed.

Lemma bind_response_wf (m : Act World McpHttpError (Response H)) k : answers_wf m ->
  (forall r, wf_response r -> answers_wf (k r)) -> answers_wf (act_bind m k).
Proof.
  intros Hm Hk w r w'. unfold act_bind. destruct (m w) as [[a|e] w1] eqn:E; [|done]. apply Hk. by eapply Hm.
Qed.
Ltac answers := repeat match goal with
  | |- answers_wf (act_bind (McpHttpHandler.create_sse_stream _ _ _ _ _ _ _ _) _) =>
      apply bind_response_wf; [apply create_sse_stream_wf|intros ? ?]
  | |- answers_wf (act_bind _ _) => apply bind_wf; intros ?
  | |- answers_wf (McpHttpHandler.respond _) => apply respond_wf; lia
  | |- answers_wf (act_fail _) => apply fail_wf
  | |- answers_wf (McpHttpHandler.create_sse_stream _ _ _ _ _ _ _ _) => apply create_sse_stream_wf
  | |- answers_wf (match ?x with _ => _ end) => destruct x
  | |- answers_wf (if ?x then _ else _) => destruct x
  end.

Lemma start_new_session_wf payload auth : answers_wf (McpHttpHandler.start_new_session now encode parse_value tr_new payload auth).
Proof.
  intros w r w'. unfold McpHttpHandler.start_new_session. destruct (is_full now (McpAppState.session_store w)) as [[] st].
  - intros [= <- _]. by apply error_response_wf.
  - destruct (generate _) as [id g]. destruct (McpHttpHandler.create_sse_stream _ _ _ _ _ _ _ _ _) as [[r0|] w1] eqn:E; [|done].
    intros [= <- _]. by eapply create_sse_stream_wf.
Qed.
Lemma single_shot_stream_wf i id p standalone : answers_wf (McpHttpHandler.single_shot_stream tr_new read_line i id p standalone).
Proof.
  intros w r w'. unfold McpHttpHandler.single_shot_stream. destruct (if standalone then _ else _) as [sid w1].
  destruct (read_line _ _) as [line w2]. destruct (from_str _ id) as [v|] eqn:E; [|done]. apply session_header_visible in E.
  destruct line as [[l|l]|]; intros [= <- _]; [|by apply json_wf..].
  apply built_wf; [done|decided|by repeat constructor|done].
Qed.
Lemma process_incoming_message_wf id p auth :
  answers_wf (McpHttpHandler.process_incoming_message now encode parse_value show_error tr_new id p auth).
Proof.
  unfold McpHttpHandler.process_incoming_message. answers.
  intros w r w'. destruct (McpAppState.on_runtime _ _ w) as [[]]; intros [= <- _]; [by apply json_wf|by apply error_response_wf].
Qed.
Lemma process_incoming_message_return_wf id p auth :
  answers_wf (McpHttpHandler.process_incoming_message_return now tr_new read_line id p auth).
Proof. unfold McpHttpHandler.process_incoming_message_return. answers. apply single_shot_stream_wf. Qed.
Lemma create_standalone_stream_wf id last auth :
  answers_wf (McpHttpHandler.create_standalone_stream now encode parse_value show_error tr_new env id last auth).
Proof.
  unfold McpHttpHandler.create_standalone_stream. answers. intros w r' w'.
  destruct (McpAppState.on_runtime _ _ _) as [[]]; intros [= <- _].
  match goal with Hr : wf_response _ |- _ => destruct Hr as (_ & Hr) end. by split.
Qed.
Lemma delete_session_wf id : answers_wf (McpHttpHandler.delete_session now id).
Proof.
  unfold McpHttpHandler.delete_session. answers. intros w r w'. destruct (McpAppState.on_runtime _ _ w). intros [= <- _]. by apply json_wf.
Qed.
Lemma connect_sse_wf e auth : answers_wf (McpHttpHandler.connect_sse now tr_new e auth).
Proof.
  intros w r w'. unfold McpHttpHandler.connect_sse. destruct (is_full now (McpAppState.session_store w)) as [[] st].
  - intros [= <- _]. by apply error_response_wf.
  - destruct (generate _) as [id g]. intros [= <- _]. apply built_wf; [done|decided|by repeat constructor|done].
Qed.
Hint Resolve start_new_session_wf process_incoming_message_wf process_incoming_message_return_wf
  create_standalone_stream_wf delete_session_wf connect_sse_wf : answers.

Lemma streamable_wf (req : Request H Extra) :
  answers_wf (McpHttpHandler.internal_handle_streamable_http now encode parse_value parse_messages is_initialize_request
    parse_version show_error tr_new env read_line req).
Proof.
  unfold McpHttpHandler.internal_handle_streamable_http, McpHttpHandler.handle_http_get, McpHttpHandler.handle_http_post,
    McpHttpHandler.handle_http_delete. answers; auto with answers.
  intros w. destruct (McpAppState.enable_json_response w); [apply process_incoming_message_return_wf|apply process_incoming_message_wf].
Qed.
Lemma sse_message_wf (req : Request H Extra) : answers_wf (McpHttpHandler.internal_handle_sse_message now show_error req).
Proof.
  unfold McpHttpHandler.internal_handle_sse_message. answers. intros w r w'. destruct (McpAppState.on_runtime _ _ w) as [[]]; intros [= <- _].
  apply (built_wf 202 [] (BText [])); [done|apply NoDup_nil_2|by constructor|done].
Qed.

(** The middlewares of the SDK keep answers so. *)
Definition handler_wf {W} (h : Handler H Extra W) : Prop := forall req w r w', h req w = Some (Ok r, w') -> wf_response r.
Definition headers_wf (h : H) : Prop :=
  NoDup (hm_iter h).*1 /\ forall k v, hm_get h k = Some v -> Forall (fun c => visible c = true) v.
Lemma insert_wf h k v : headers_wf h -> Forall (fun c => visible c = true) v -> k <> CONTENT_TYPE ->
  headers_wf (hm_insert h k v) /\ hm_get (hm_insert h k v) CONTENT_TYPE = hm_get h CONTENT_TYPE.
Proof.
  intros [Hn Hv] Hk Hne. rewrite get_insert, decide_False by done. split; [|done]. split; [by apply insert_unique|].
  intros k' v'. rewrite get_insert. destruct (decide _); [intros [= <-]; done|apply Hv].
Qed.
Lemma insert_expect_wf h k v h' : insert_expect h k v = Some h' -> headers_wf h -> k <> CONTENT_TYPE ->
  headers_wf h' /\ hm_get h' CONTENT_TYPE = hm_get h CONTENT_TYPE.
Proof.
  unfold insert_expect. destruct (from_str h v) as [v'|] eqn:E; [|done]. apply from_str_visible in E as [-> Hv].
  simpl. intros [= <-] Hh Hk. by apply insert_wf.
Qed.
Lemma insert_origin_wf c o h h' : insert_origin c o h = Some h' -> headers_wf h ->
  headers_wf h' /\ hm_get h' CONTENT_TYPE = hm_get h CONTENT_TYPE.
Proof.
  unfold insert_origin. destruct (resolve_allowed_origin c o); [|by intros [= <-]].
  intros E Hh. by eapply insert_expect_wf.
Qed.
Lemma insert_credentials_wf c h : headers_wf h ->
  headers_wf (insert_credentials c h) /\ hm_get (insert_credentials c h) CONTENT_TYPE = hm_get h CONTENT_TYPE.
Proof. unfold insert_credentials. destruct (allow_credentials c); [|done]. intros Hh. by apply insert_wf; [|repeat constructor|]. Qed.
Lemma text_wf st p : (100 <= st < 1000)%N -> wf_response (build_response (H := H) st p).
Proof.
  intros Hst. by apply (built_wf st [(CONTENT_TYPE, s! "text/plain")] (BText p)); [|apply NoDup_singleton|repeat constructor|].
Qed.
Lemma preflight_response_wf c o r : preflight_response c o = Some r -> wf_response r.
Proof.
  unfold preflight_response. intros E.
  assert (H0' : headers_wf (hm_new (H := H))) by (split; [apply new_unique|intros ??; by rewrite get_new]).
  destruct (insert_origin c o hm_new) as [h|] eqn:E1; [|done]. apply insert_origin_wf in E1 as [W1 C1]; [|done]. simpl in E.
  destruct (insert_credentials_wf c h W1) as [W2 C2].
  destruct (match max_age c with Some _ => _ | None => _ end) as [h2|] eqn:E2; [|done]. simpl in E.
  assert (headers_wf h2 /\ hm_get h2 CONTENT_TYPE = hm_get (insert_credentials c h) CONTENT_TYPE) as [W3 C3].
  { destruct (max_age c); [|by injection E2 as <-]. by eapply insert_expect_wf. }
  destruct (insert_expect h2 _ _) as [h3|] eqn:E3; [|done]. apply insert_expect_wf in E3 as [W4 C4]; [|done..]. simpl in E.
  destruct (insert_expect h3 _ _) as [h4|] eqn:E4; [|done]. apply insert_expect_wf in E4 as [W5 C5]; [|done..].
  injection E as <-. destruct W5 as [? ?]. split_and!; simpl; [lia..|done|done|]. by rewrite C5, C4, C3, C2, C1, get_new.
Qed.
Lemma preflight_wf parse c h o r : preflight parse c h o = Some r -> wf_response r.
Proof.
  unfold preflight. repeat case_match; try (intros [= <-]; by apply text_wf); apply preflight_response_wf.
Qed.
Lemma add_cors_wf c r o r' : add_cors_to_response c r o = Some r' -> wf_response r -> wf_response r'.
Proof.
  unfold add_cors_to_response. intros E (Hst & Hn & Hv & Hb).
  destruct (insert_origin c o _) as [h|] eqn:E1; [|done]. apply insert_origin_wf in E1 as [W1 C1]; [|done]. simpl in E.
  destruct (insert_credentials_wf c h W1) as [W2 C2].
  destruct (match expose_headers c with [] => _ | _ => _ end) as [h2|] eqn:E2; [|done]. injection E as <-.
  assert (headers_wf h2 /\ hm_get h2 CONTENT_TYPE = hm_get (insert_credentials c h) CONTENT_TYPE) as [[? ?] C3].
  { destruct (expose_headers c); [by injection E2 as <-|]. by eapply insert_expect_wf. }
  split_and!; simpl; [lia..|done|done|]. by rewrite C3, C2, C1.
Qed.
Lemma auth_error_wf (error_code error_text : AuthenticationError -> str) {W} (p : AuthProvider W) e :
  wf_response (auth_error_response (Extra := Extra) error_code error_text p e).
Proof.
  unfold auth_error_response. assert (Hst : (100 <= (auth_error_status e).1 < 1000)%N).
  { destruct e; simpl; try lia. case_bool_decide; [simpl; lia|]. simpl. destruct status_code as [n|]; simpl; [|unfold id; lia].
    unfold status_from_u16. destruct (_ && _) eqn:E; simpl; [|unfold id; lia]. apply andb_true_iff in E as [?%N.leb_le ?%N.ltb_lt]. unfold id. lia. }
  destruct (auth_error_status e) as [st challenge]. simpl in Hst.
  assert (Hj : wf_response (into_json_response (H := H) (BAuthError e) st)) by (by apply json_wf).
  destruct challenge; [|done]. destruct (from_str _ _) as [v|] eqn:E; [|by apply text_wf].
  apply from_str_visible in E as [-> Hv].
  apply (built_wf st [(CONTENT_TYPE, s! "application/json"); (WWW_AUTHENTICATE, _)] (BAuthError e)); [done|decided| |done].
  apply Forall_cons_2; [by repeat constructor|]. apply Forall_cons_2; [done|constructor].
Qed.

(** The SDK's middlewares. *)
Inductive builtin {W} : Middleware H Extra W -> Prop :=
| builtin_dns p : builtin (dns_handle p)
| builtin_cors parse c : builtin (cors_handle parse c)
| builtin_auth error_code error_text p now : builtin (auth_handle error_code error_text p now).
Lemma builtin_wf {W} (mw : Middleware H Extra W) next : builtin mw -> handler_wf next -> handler_wf (mw next).
Proof.
  intros [p|parse c|ec et p n] Hn req w r w'.
  - unfold dns_handle. destruct (protect_dns_rebinding _ _); [apply Hn|]. intros [= <- _]. by apply error_response_wf.
  - unfold cors_handle. destruct (bool_decide _).
    { destruct (preflight _ _ _ _) as [r0|] eqn:E; [|done]. intros [= <- _]. by eapply preflight_wf. }
    destruct (next req w) as [[[r0|e] w1]|] eqn:E; simpl; [|by destruct (get_str (headers req) ORIGIN)|done]. apply Hn in E.
    destruct (get_str (headers req) ORIGIN) as [o|]; [|by intros [= <- _]]. destruct (is_some _); [|by intros [= <- _]].
    destruct (add_cors_to_response c r0 o) as [r1|] eqn:E1; [|done]. intros [= <- _]. by eapply add_cors_wf.
  - unfold auth_handle. destruct (validate _ _ _ _) as [[[i|e] w1]|]; simpl; [apply Hn| |done].
    intros [= <- _]. apply auth_error_wf.
Qed.
Lemma compose_wf {W} (mws : list (Middleware H Extra W)) f : Forall builtin mws -> handler_wf f -> handler_wf (compose mws f).
Proof. intros Hm Hf. induction Hm; [done|]. rewrite HttpFacts.compose_cons. by apply builtin_wf. Qed.
Lemma final_wf (f : Request H Extra -> Act World McpHttpError (Response H)) :
  (forall req, answers_wf (f req)) -> handler_wf (McpHttpHandler.final f).
Proof. intros Hf req w r w'. unfold McpHttpHandler.final. intros [= E]. by eapply Hf. Qed.
End Answers.
End AnswerFacts.
Import AnswerFacts.
