(* ===== verification/Adapters.v ===== *)
(** * The web framework adapters

    Models the routes of crates/rust-mcp-axum/src/ (routes.rs, routes/, error.rs,
    utils.rs) and of crates/rust-mcp-actix/src/ (mount.rs, routes/, bridge.rs),
    with mcp_http/mount.rs of crates/rust-mcp-sdk/src/.

    The frameworks' routers, body extractors and header maps are not code of the
    repository: a table of routes is what the adapters register, [serve] what a
    route's handler answers, and the classes [HeaderIter] and [Extractors] state
    what is relied on.  The HTTP handler of HttpHandler.v is the record
    [Service] of its entry points. *)
From S2P Require Import Prelude RustStr EventStore SessionStore IdGen Dispatcher Auth ServerRuntime Http HttpHandler HttpAnswers.
Import ResponseFacts AnswerFacts.

(** ** Mounting *)

Definition DEFAULT_STREAMABLE_HTTP_ENDPOINT : str := s! "/mcp".
Definition DEFAULT_SSE_ENDPOINT : str := s! "/sse".
Definition DEFAULT_MAX_REQUEST_BODY_SIZE : N := 4 * 1024 * 1024.

Record McpMountOptions := mkMount {
  streamable_http_endpoint : str;
  sse_endpoint : str;
  sse_messages_endpoint : str;
  mount_health_endpoint : option str;
  mount_body_size : N; (* max_request_body_size *)
}.
Definition default_mount_options : McpMountOptions :=
  mkMount DEFAULT_STREAMABLE_HTTP_ENDPOINT DEFAULT_SSE_ENDPOINT DEFAULT_MESSAGES_ENDPOINT None DEFAULT_MAX_REQUEST_BODY_SIZE.

(** A route as it is registered: its path, the method it is for (all methods,
    if none), and the function that serves it. *)
Inductive Endpoint := EStreamableGet | EStreamablePost | EStreamableDelete | ESse | EMessages | EAuth | EHealth.
Record Route := mkRoute { path : str; only_method : option str; endpoint : Endpoint }.
#[global] Instance endpoint_eq_dec : EqDecision Endpoint. Proof. solve_decision. Defined.
#[global] Instance route_eq_dec : EqDecision Route. Proof. solve_decision. Defined.

Definition GET : str := s! "GET".
Definition POST : str := s! "POST".
Definition DELETE : str := s! "DELETE".

(** ** What the frameworks hand over *)

(** A request: method, request target and its query, header fields in the order
    received (names in lower case), body. *)
Record HttpRequest := mkHttp {
  q_method : str;
  q_uri : str;
  q_query : option str;
  q_fields : list (str * bytes);
  q_body : bytes;
}.

(** The extractors of [Bytes] and [String] under a limit, and of the query as a
    map: what they give, or the framework's response that rejects the request. *)
Class Extractors (H : Type) `{HeaderMap H} := {
  extract_bytes : N -> bytes -> result bytes (Response H);
  extract_string : N -> bytes -> result str (Response H);
  reject_query : option str -> option (Response H);
}.
Class ExtractorsLaws (H : Type) `{Extractors H} : Prop := {
  bytes_over limit b : (limit < N.of_nat (length b))%N -> exists r, extract_bytes limit b = Err r /\ status r = 413%N;
  bytes_within limit b : (N.of_nat (length b) <= limit)%N -> extract_bytes limit b = Ok b;
  string_over limit b : (limit < N.of_nat (length b))%N -> exists r, extract_string limit b = Err r /\ status r = 413%N;
  string_within limit b : (N.of_nat (length b) <= limit)%N ->
    if utf8_valid b then extract_string limit b = Ok b
    else exists r, extract_string limit b = Err r /\ status r = 400%N;
}.

(** ** The HTTP handler *)

(** Its entry points. *)
Record Service (H Extra W : Type) := mkService {
  oauth_endpoints : option (list str);
  serve_streamable_http : Handler H Extra W;
  serve_sse_connection : option str -> Handler H Extra W;
  serve_sse_message : Handler H Extra W;
  serve_auth : Handler H Extra W;
  serve_health : Request H Extra -> Response H;
}.
Arguments oauth_endpoints {H Extra W} s.
Arguments serve_streamable_http {H Extra W} s.
Arguments serve_sse_connection {H Extra W} s.
Arguments serve_sse_message {H Extra W} s.
Arguments serve_auth {H Extra W} s.
Arguments serve_health {H Extra W} s.

Definition BAD_UTF8 : str := s! "Request body must be valid UTF-8".
Definition not_found_text (uri : str) : str :=
  (s! "The requested uri does not exist:") ++ [ascii_of_nat 13; LF] ++ (s! "uri: ") ++ uri.

(** ** axum *)

Module Axum.
Inductive TransportServerError :=
| SessionIdMissing
| SessionIdInvalid (s : str)
| StreamIoError (s : str)
| AddrParseError (e : str) (* its text *)
| HttpError (s : str)
| ServerStartError (s : str)
| InvalidServerOptions (s : str)
| SslCertError (s : str)
| TransportError (s : str)
| AuthenticationError (e : AuthenticationError).

Definition from_http_error (err : McpHttpError) : TransportServerError :=
  match err with
  | Http.SessionIdMissing => SessionIdMissing
  | Http.SessionIdInvalid s => SessionIdInvalid s
  | Http.StreamIoError s => StreamIoError s
  | Http.HttpError s => HttpError s
  | Http.TransportError s => TransportError s
  end.

Definition remove_query_and_hash (endpoint : str) : str :=
  let without_fragment := match split_once_char "#"%char endpoint with Some (p, _) => p | None => endpoint end in
  let without_query := match split_once_char "?"%char without_fragment with Some (p, _) => p | None => without_fragment end in
  if bool_decide (without_query = []) then s! "/" else without_query.

Section Errors.
Context (error_text : Auth.AuthenticationError -> str). (* its [Display] *)
Definition to_string (err : TransportServerError) : str :=
  match err with
  | SessionIdMissing => s! "'sessionId' query string is missing!"
  | SessionIdInvalid s => (s! "No session found for the given ID: ") ++ s ++ (s! ".")
  | StreamIoError s => (s! "Stream IO Error: ") ++ s ++ (s! ".")
  | AddrParseError s | HttpError s | SslCertError s | TransportError s => s
  | ServerStartError s => (s! "Server start error: ") ++ s
  | InvalidServerOptions s => (s! "Invalid options: ") ++ s
  | AuthenticationError e => error_text e
  end.
Definition to_http_error (err : TransportServerError) : McpHttpError :=
  match err with
  | SessionIdMissing => Http.SessionIdMissing
  | SessionIdInvalid s => Http.SessionIdInvalid s
  | StreamIoError s => Http.StreamIoError s
  | HttpError s | ServerStartError s | InvalidServerOptions s | SslCertError s => Http.HttpError s
  | TransportError s => Http.TransportError s
  | AuthenticationError e => Http.HttpError (error_text e)
  | AddrParseError s => Http.HttpError s
  end.
Definition to_sdk_error (err : TransportServerError) : McpSdkError := EInternal (to_string err).
End Errors.

Section Routes.
Context {H : Type} `{HeaderIter H} {Extra W : Type} `{!Extractors H}.
Abbreviation Answer := (option (Response H * W)).

(** [IntoResponse]: the error goes into the extensions. *)
Definition into_response (err : TransportServerError) : Response H := mkResponse 500 hm_new (BText []).
(** [?] on the handler's result, and [Response::from_parts] *)
Definition finish (r : option (result (Response H) McpHttpError * W)) : Answer :=
  '(r, w) ← r; Some (match r with Ok resp => resp | Err err => into_response (from_http_error err) end, w).

(** [HeaderMap::into_iter] names only the first of the values of a name. *)
Fixpoint into_iter (seen : list str) (l : list (str * bytes)) : list (option str * bytes) :=
  match l with
  | [] => []
  | (k, v) :: r => (if bool_decide (k ∈ seen) then None else Some k, v) :: into_iter (k :: seen) r
  end.
(** The map axum received the fields in, and the SDK's request. *)
Definition headers_of (q : HttpRequest) : H := foldl (fun h kv => hm_append h kv.1 kv.2) hm_new (q_fields q).
Definition request (method : str) (q : HttpRequest) (body : option str) : Request H Extra :=
  create_request method (q_query q) (into_iter [] (hm_iter (headers_of q))) body.

Context (s : Service H Extra W) (opts : McpMountOptions).
Abbreviation limit := (mount_body_size opts).

Definition handle_auth_request (q : HttpRequest) (w : W) : Answer :=
  match extract_string limit (q_body q) with
  | Err rejection => Some (rejection, w)
  | Ok payload => finish (serve_auth s (request (q_method q) q (Some payload)) w)
  end.
Definition handle_health_check (q : HttpRequest) (w : W) : Answer := Some (serve_health s (request GET q None), w).
Definition handle_messages (q : HttpRequest) (w : W) : Answer :=
  match extract_string limit (q_body q) with
  | Err rejection => Some (rejection, w)
  | Ok message => finish (serve_sse_message s (request POST q (Some message)) w)
  end.
Definition handle_sse (q : HttpRequest) (w : W) : Answer :=
  finish (serve_sse_connection s (Some (sse_messages_endpoint opts)) (request GET q None) w).
Definition handle_streamable_http_get (q : HttpRequest) (w : W) : Answer :=
  finish (serve_streamable_http s (request GET q None) w).
Definition handle_streamable_http_post (q : HttpRequest) (w : W) : Answer :=
  match reject_query (q_query q) with
  | Some rejection => Some (rejection, w)
  | None =>
      match extract_bytes limit (q_body q) with
      | Err rejection => Some (rejection, w)
      | Ok payload =>
          if utf8_valid payload then finish (serve_streamable_http s (request POST q (Some payload)) w)
          else Some (mkResponse 400 hm_new (BText BAD_UTF8), w)
      end
  end.
Definition handle_streamable_http_delete (q : HttpRequest) (w : W) : Answer :=
  finish (serve_streamable_http s (request DELETE q None) w).
Definition not_found (uri : str) : Response H :=
  mkResponse 404 (hm_append hm_new CONTENT_TYPE (s! "text/plain; charset=utf-8")) (BText (not_found_text uri)).

Definition serve (e : Endpoint) : HttpRequest -> W -> Answer :=
  match e with
  | EStreamableGet => handle_streamable_http_get
  | EStreamablePost => handle_streamable_http_post
  | EStreamableDelete => handle_streamable_http_delete
  | ESse => handle_sse
  | EMessages => handle_messages
  | EAuth => handle_auth_request
  | EHealth => handle_health_check
  end.

(** The [routes] functions and what [mcp_routes] merges. *)
Definition auth_routes : list Route :=
  (fun e => mkRoute e None EAuth) <$> from_option (fun l => l) [] (oauth_endpoints s).
Definition streamable_http_routes (streamable_http_endpoint : str) : list Route :=
  [mkRoute streamable_http_endpoint (Some GET) EStreamableGet; mkRoute streamable_http_endpoint (Some POST) EStreamablePost;
   mkRoute streamable_http_endpoint (Some DELETE) EStreamableDelete].
Definition health_check_routes (health_check_endpoint : str) : list Route :=
  [mkRoute (remove_query_and_hash health_check_endpoint) (Some GET) EHealth].
Definition sse_routes (sse_endpoint : str) : list Route := [mkRoute sse_endpoint (Some GET) ESse].
Definition messages_routes (sse_message_endpoint : str) : list Route :=
  [mkRoute (remove_query_and_hash sse_message_endpoint) (Some POST) EMessages].
Definition mcp_routes : list Route :=
  auth_routes ++ streamable_http_routes (streamable_http_endpoint opts)
  ++ from_option health_check_routes [] (mount_health_endpoint opts)
  ++ sse_routes (sse_endpoint opts) ++ messages_routes (sse_messages_endpoint opts).
End Routes.
End Axum.

(** ** actix-web *)

Module Actix.
Section Routes.
Context {H : Type} `{HeaderIter H} {Extra W : Type} `{!Extractors H}.
(** [HeaderName::from_bytes] and [HeaderValue::from_bytes], parsing the request
    target again, which leaves its query, and serde_json's text of
    [{"error": ..}]. *)
Context (valid_header : str -> bytes -> bool) (parse_uri : str -> option (option str)) (error_json : str -> str).

(** An [HttpResponse] streams its body or sends it as a whole. *)
Record HttpResponse := mkActix { a_response : Response H; streaming : bool }.
Abbreviation Answer := (option (HttpResponse * W)).

(** *** bridge.rs *)

Definition header_pairs (h : H) : list (str * str) := omap (fun kv => (fun v => (kv.1, v)) <$> to_str h kv.2) (hm_iter h).
Definition to_actix_response (res : Response H) : HttpResponse :=
  let status := from_option (fun n => n) 500%N (status_from_u16 (status res)) in
  let is_sse := from_option (starts_with (s! "text/event-stream")) false (get_str (resp_headers res) CONTENT_TYPE) in
  let h := foldl (fun h kv => hm_insert h kv.1 kv.2) hm_new (header_pairs (resp_headers res)) in
  mkActix (mkResponse status h (resp_body res)) is_sse.

Definition headers_of (q : HttpRequest) : H :=
  foldl (fun h kv => if valid_header kv.1 kv.2 then hm_insert h kv.1 kv.2 else h) hm_new (q_fields q).
Definition from_actix_request (q : HttpRequest) (body : option str) : Request H Extra :=
  create_request (q_method q) (from_option (fun u => u) None (parse_uri (q_uri q))) (Axum.into_iter [] (hm_iter (headers_of q))) body.

Definition error_status (err : McpHttpError) : N :=
  match err with
  | SessionIdMissing => 400
  | SessionIdInvalid _ => 404
  | StreamIoError _ => 500
  | HttpError _ => 500
  | TransportError _ => 502
  end.
Definition error_message (err : McpHttpError) : str :=
  match err with
  | SessionIdMissing => s! "'sessionId' query string is missing!"
  | SessionIdInvalid s => (s! "No session found for the given ID: ") ++ s ++ (s! ".")
  | StreamIoError s => (s! "Stream IO Error: ") ++ s ++ (s! ".")
  | HttpError s | TransportError s => s
  end.
Definition to_actix_error (err : McpHttpError) : HttpResponse :=
  mkActix (mkResponse (error_status err) (hm_insert hm_new CONTENT_TYPE (s! "application/json"))
             (BText (error_json (error_message err)))) false.

(** *** The handlers *)

Definition finish (r : option (result (Response H) McpHttpError * W)) : Answer :=
  '(r, w) ← r; Some (match r with Ok res => to_actix_response res | Err err => to_actix_error err end, w).
Definition plain (r : Response H) : HttpResponse := mkActix r false.

Context (s : Service H Extra W) (opts : McpMountOptions).
Abbreviation limit := (mount_body_size opts).

Definition handle_auth_request (q : HttpRequest) (w : W) : Answer :=
  match extract_string limit (q_body q) with
  | Err rejection => Some (plain rejection, w)
  | Ok payload => finish (serve_auth s (from_actix_request q (Some payload)) w)
  end.
Definition handle_health_check (q : HttpRequest) (w : W) : Answer :=
  Some (to_actix_response (serve_health s (from_actix_request q None)), w).
Definition handle_messages (q : HttpRequest) (w : W) : Answer :=
  match extract_string limit (q_body q) with
  | Err rejection => Some (plain rejection, w)
  | Ok payload => finish (serve_sse_message s (from_actix_request q (Some payload)) w)
  end.
Definition handle_sse (q : HttpRequest) (w : W) : Answer :=
  finish (serve_sse_connection s (Some (sse_messages_endpoint opts)) (from_actix_request q None) w).
Definition handle_streamable_http_get (q : HttpRequest) (w : W) : Answer :=
  finish (serve_streamable_http s (from_actix_request q None) w).
Definition handle_streamable_http_post (q : HttpRequest) (w : W) : Answer :=
  match extract_bytes limit (q_body q) with
  | Err rejection => Some (plain rejection, w)
  | Ok payload =>
      if utf8_valid payload then finish (serve_streamable_http s (from_actix_request q (Some payload)) w)
      else Some (plain (mkResponse 400 hm_new (BText BAD_UTF8)), w)
  end.
Definition handle_streamable_http_delete (q : HttpRequest) (w : W) : Answer :=
  finish (serve_streamable_http s (from_actix_request q None) w).
Definition not_found (q : HttpRequest) : HttpResponse := plain (mkResponse 404 hm_new (BText (not_found_text (q_uri q)))).

Definition serve (e : Endpoint) : HttpRequest -> W -> Answer :=
  match e with
  | EStreamableGet => handle_streamable_http_get
  | EStreamablePost => handle_streamable_http_post
  | EStreamableDelete => handle_streamable_http_delete
  | ESse => handle_sse
  | EMessages => handle_messages
  | EAuth => handle_auth_request
  | EHealth => handle_health_check
  end.

(** *** mount.rs *)

(** [auth_routes]: a scope, unless there is nothing to put in it. *)
Definition auth_routes : option (list Route) :=
  let endpoints := from_option (fun l => l) [] (oauth_endpoints s) in
  if bool_decide (endpoints = []) then None else Some ((fun e => mkRoute e None EAuth) <$> endpoints).
Definition mcp_scope : list Route :=
  let scope :=
    [mkRoute (streamable_http_endpoint opts) (Some GET) EStreamableGet;
     mkRoute (streamable_http_endpoint opts) (Some POST) EStreamablePost;
     mkRoute (streamable_http_endpoint opts) (Some DELETE) EStreamableDelete;
     mkRoute (sse_endpoint opts) (Some GET) ESse;
     mkRoute (sse_messages_endpoint opts) (Some POST) EMessages] in
  let scope := match auth_routes with Some auth_scope => scope ++ auth_scope | None => scope end in
  match mount_health_endpoint opts with
  | Some endpoint => scope ++ [mkRoute endpoint (Some GET) EHealth]
  | None => scope
  end.
End Routes.
Arguments HttpResponse : clear implicits.
End Actix.

(** ** Facts *)

Module AdapterFacts.
Section Facts.
Context {H : Type} `{HeaderMapLaws H} `{!HeaderIter H} `{!HeaderIterLaws H} {Extra W : Type}.
Context (valid_header : str -> bytes -> bool) (parse_uri : str -> option (option str)) (error_json : str -> str).

(** What axum's errors keep of the handler's. *)
Lemma http_error_roundtrip error_text err : Axum.to_http_error error_text (Axum.from_http_error err) = err.
Proof. by destruct err. Qed.

(** A request whose header names have one value each, which both crates'
    header types hold, and whose target is read back. *)
Definition conventional (q : HttpRequest) : Prop :=
  NoDup (q_fields q).*1 /\ Forall (fun kv => valid_header kv.1 kv.2 = true) (q_fields q) /\
  parse_uri (q_uri q) = Some (q_query q).

Lemma headers_agree q : conventional q -> Actix.headers_of (H := H) valid_header q = Axum.headers_of q.
Proof.
  intros (Hnd & Hv & _). unfold Actix.headers_of, Axum.headers_of.
  assert (Hnew : forall k, k ∈ (q_fields q).*1 -> hm_get (hm_new (H := H)) k = None) by (intros; apply get_new).
  revert Hnew. generalize (hm_new (H := H)).
  induction Hv as [|[k v] l Hkv Hv IH]; intros h Hh; [done|]. simpl in *.
  apply NoDup_cons in Hnd as [Hk Hnd]. rewrite Hkv, append_absent by (apply Hh; left).
  apply IH; [done|]. intros k' Hk'. rewrite get_insert, decide_False by (by intros ->). apply Hh. by right.
Qed.
Lemma requests_agree q body : conventional q ->
  Actix.from_actix_request (Extra := Extra) valid_header parse_uri q body = Axum.request (q_method q) q body.
Proof. intros Hq. unfold Actix.from_actix_request, Axum.request. rewrite headers_agree by done. by destruct Hq as (_ & _ & ->). Qed.

(** What the documentation of the bridge says of an error of the handler: its
    status, and the text that goes under "error" into the JSON body. *)
Definition documented (err : McpHttpError) : N * str :=
  match err with
  | SessionIdMissing => (400%N, s! "'sessionId' query string is missing!")
  | SessionIdInvalid s => (404%N, (s! "No session found for the given ID: ") ++ s ++ (s! "."))
  | StreamIoError s => (500%N, (s! "Stream IO Error: ") ++ s ++ (s! "."))
  | HttpError s => (500%N, s)
  | TransportError s => (502%N, s)
  end.
(** An actix response is the same to the client as the SDK's: status, body,
    the value of every header; and it is streamed when the body is a stream. *)
Definition conveys (r : Response H) (a : Actix.HttpResponse H) : Prop :=
  status (Actix.a_response a) = status r /\ resp_body (Actix.a_response a) = resp_body r /\
  (forall k, hm_get (resp_headers (Actix.a_response a)) k = hm_get (resp_headers r) k) /\
  Actix.streaming a = streams (resp_body r).

(** The bridge loses nothing of a well-formed response, and streams what
    streams. *)
Lemma bridge_wf r : wf_response r -> conveys r (Actix.to_actix_response r).
Proof.
  intros (Hst & Hnd & Hv & Hb). unfold Actix.to_actix_response. cbn [Actix.a_response Actix.streaming status resp_body resp_headers].
  assert (Hto : forall v k, hm_get (resp_headers r) k = Some v -> to_str (resp_headers r) v = Some v).
  { intros v k E. apply to_str_visible. by eapply Hv. }
  assert (Hp : Actix.header_pairs (resp_headers r) = hm_iter (resp_headers r)).
  { unfold Actix.header_pairs. assert (Hall : forall k v, (k, v) ∈ hm_iter (resp_headers r) -> to_str (resp_headers r) v = Some v).
    { intros k v Hkv. apply (Hto v k). rewrite iter_get. revert Hnd Hkv. generalize (hm_iter (resp_headers r)).
      induction l as [|[k0 v0] l IH]; [by intros _ ?%elem_of_nil|]. simpl. intros [Hk Hnd]%NoDup_cons [[= -> ->]|Hin]%elem_of_cons.
      - by rewrite decide_True. - rewrite decide_False; [auto|]. intros ->. apply Hk, list_elem_of_fmap. by exists (k, v). }
    revert Hall. generalize (hm_iter (resp_headers r)). generalize (resp_headers r).
    intros h l. induction l as [|[k0 v0] l IH]; intros Hall; [done|]. simpl. rewrite (Hall k0 v0) by left. simpl. f_equal.
    apply IH. intros k v Hkv. apply (Hall k v). by right. }
  rewrite Hp. destruct (insert_fields (hm_iter (resp_headers r)) (hm_new (H := H)) Hnd new_unique) as [_ G].
  split_and!; [|done| |].
  - unfold status_from_u16. rewrite (proj2 (N.leb_le _ _)), (proj2 (N.ltb_lt _ _)) by lia. done.
  - intros k. rewrite G, get_new, (iter_get (resp_headers r)). by destruct (field k _).
  - rewrite Hb. unfold get_str, event_stream. destruct (hm_get (resp_headers r) CONTENT_TYPE) as [ct|] eqn:E; [|done]. simpl.
    by rewrite (Hto ct CONTENT_TYPE E).
Qed.

(** A service whose responses are well formed. *)
Record service_wf (s : Service H Extra W) : Prop := {
  wf_streamable : handler_wf (Extra := Extra) (serve_streamable_http s);
  wf_connection e : handler_wf (Extra := Extra) (serve_sse_connection s e);
  wf_message : handler_wf (Extra := Extra) (serve_sse_message s);
  wf_auth : handler_wf (Extra := Extra) (serve_auth s);
  wf_health req : wf_response (serve_health s req);
}.

(** The answers of the two adapters to one request: the handler's response,
    which both convey; its error, which axum says nothing of and actix reports
    as documented; or a refusal of the body.  The state after them is the same. *)
Inductive same_answer : option (Response H * W) -> option (Actix.HttpResponse H * W) -> Prop :=
| same_panic : same_answer None None
| same_response r a w : conveys r a -> same_answer (Some (r, w)) (Some (a, w))
| same_error err r a w :
    status r = 500%N -> resp_body r = BText [] ->
    status (Actix.a_response a) = (documented err).1 -> resp_body (Actix.a_response a) = BText (error_json (documented err).2) ->
    hm_get (resp_headers (Actix.a_response a)) CONTENT_TYPE = Some (s! "application/json") -> Actix.streaming a = false ->
    same_answer (Some (r, w)) (Some (a, w))
| same_refusal r a w : status r = status (Actix.a_response a) -> status r = 413%N \/ status r = 400%N ->
    same_answer (Some (r, w)) (Some (a, w)).

Lemma finish_agree h req w : handler_wf (Extra := Extra) h -> same_answer (Axum.finish (h req w)) (Actix.finish error_json (h req w)).
Proof.
  intros Hh. destruct (h req w) as [[[r|e] w']|] eqn:E; cbn; [by apply same_response, bridge_wf; eapply Hh|..|constructor].
  apply (same_error e); try done; try by destruct e. cbn. by rewrite get_insert, decide_True.
Qed.

Context (Ea Eb : Extractors H) `{!ExtractorsLaws H (H1 := Ea)} `{!ExtractorsLaws H (H1 := Eb)}.

Lemma string_agree limit b :
  extract_string (Extractors := Ea) limit b = Ok b /\ extract_string (Extractors := Eb) limit b = Ok b \/
  exists r r', extract_string (Extractors := Ea) limit b = Err r /\ extract_string (Extractors := Eb) limit b = Err r' /\
    status r = status r' /\ (status r = 413%N \/ status r = 400%N).
Proof.
  destruct (N.leb_spec (N.of_nat (length b)) limit) as [Hle|Hgt].
  - pose proof (string_within (H1 := Ea) limit b Hle) as A. pose proof (string_within (H1 := Eb) limit b Hle) as B.
    destruct (utf8_valid b); [by left|right]. destruct A as (r & -> & Hr), B as (r' & -> & Hr'). exists r, r'. by rewrite Hr, Hr'; eauto.
  - right. destruct (string_over (H1 := Ea) limit b Hgt) as (r & -> & Hr), (string_over (H1 := Eb) limit b Hgt) as (r' & -> & Hr').
    exists r, r'. by rewrite Hr, Hr'; eauto.
Qed.
Lemma bytes_agree limit b :
  extract_bytes (Extractors := Ea) limit b = Ok b /\ extract_bytes (Extractors := Eb) limit b = Ok b \/
  exists r r', extract_bytes (Extractors := Ea) limit b = Err r /\ extract_bytes (Extractors := Eb) limit b = Err r' /\
    status r = status r' /\ (status r = 413%N \/ status r = 400%N).
Proof.
  destruct (N.leb_spec (N.of_nat (length b)) limit) as [Hle|Hgt].
  - left. by rewrite !bytes_within.
  - right. destruct (bytes_over (H1 := Ea) limit b Hgt) as (r & -> & Hr), (bytes_over (H1 := Eb) limit b Hgt) as (r' & -> & Hr').
    exists r, r'. by rewrite Hr, Hr'; eauto.
Qed.

Context (s : Service H Extra W) (opts : McpMountOptions) (Hs : service_wf s).

(** The method each function is registered for. *)
Definition method_of (e : Endpoint) : option str :=
  match e with
  | EStreamableGet | ESse | EHealth => Some GET
  | EStreamablePost | EMessages => Some POST
  | EStreamableDelete => Some DELETE
  | EAuth => None
  end.
Lemma route_method rt : rt ∈ Axum.mcp_routes s opts -> only_method rt = method_of (endpoint rt).
Proof.
  unfold Axum.mcp_routes, Axum.auth_routes. rewrite !elem_of_app. intros [(e & -> & _)%list_elem_of_fmap|Hrt]; [done|].
  destruct (mount_health_endpoint opts); set_solver.
Qed.

Lemma serve_agree e q w : conventional q -> reject_query (Extractors := Ea) (q_query q) = None ->
  (forall m, method_of e = Some m -> q_method q = m) ->
  same_answer (Axum.serve (Extractors0 := Ea) s opts e q w)
    (Actix.serve (Extractors0 := Eb) valid_header parse_uri error_json s opts e q w).
Proof.
  intros Hq Hr Hm.
  destruct e; simpl in Hm; try specialize (Hm _ eq_refl); simpl;
    unfold Axum.handle_streamable_http_get, Axum.handle_streamable_http_post, Axum.handle_streamable_http_delete, Axum.handle_sse,
      Axum.handle_messages, Axum.handle_auth_request, Axum.handle_health_check, Actix.handle_streamable_http_get,
      Actix.handle_streamable_http_post, Actix.handle_streamable_http_delete, Actix.handle_sse, Actix.handle_messages,
      Actix.handle_auth_request, Actix.handle_health_check;
    rewrite ?requests_agree, ?Hm, ?Hr by done; try (apply finish_agree; by apply Hs).
  - destruct (bytes_agree (mount_body_size opts) (q_body q)) as [[-> ->]|(r & r' & -> & -> & ? & ?)]; [|by apply same_refusal].
    rewrite requests_agree, Hm by done. destruct (utf8_valid _); [apply finish_agree; apply Hs|apply same_refusal; auto].
  - destruct (string_agree (mount_body_size opts) (q_body q)) as [[-> ->]|(r & r' & -> & -> & ? & ?)]; [|by apply same_refusal].
    rewrite requests_agree, Hm by done. apply finish_agree, Hs.
  - destruct (string_agree (mount_body_size opts) (q_body q)) as [[-> ->]|(r & r' & -> & -> & ? & ?)]; [|by apply same_refusal].
    rewrite requests_agree by done. apply finish_agree, Hs.
  - apply same_response, bridge_wf, Hs.
Qed.

(** An endpoint without query and fragment. *)
Definition plain_path (e : str) : Prop := Axum.remove_query_and_hash e = e.
Lemma routes_agree : plain_path (sse_messages_endpoint opts) ->
  (forall e, mount_health_endpoint opts = Some e -> plain_path e) ->
  Actix.mcp_scope s opts ≡ₚ Axum.mcp_routes s opts.
Proof.
  intros Hm Hh. unfold Actix.mcp_scope, Axum.mcp_routes, Actix.auth_routes, Axum.auth_routes, Axum.messages_routes. rewrite Hm.
  assert (Hhealth : from_option Axum.health_check_routes [] (mount_health_endpoint opts) =
    from_option (fun e => [mkRoute e (Some GET) EHealth]) [] (mount_health_endpoint opts)).
  { destruct (mount_health_endpoint opts) as [e|]; [|done]. simpl. unfold Axum.health_check_routes. by rewrite (Hh e eq_refl). }
  rewrite Hhealth. clear Hhealth Hh. unfold Axum.streamable_http_routes, Axum.sse_routes.
  set (eps := from_option _ [] (oauth_endpoints s)).
  set (scope := [_; _; _; _; _]).
  transitivity (scope ++ ((fun e => mkRoute e None EAuth) <$> eps) ++ from_option (fun e => [mkRoute e (Some GET) EHealth]) [] (mount_health_endpoint opts)).
  - case_bool_decide as E; [rewrite E; simpl|]; destruct (mount_health_endpoint opts); simpl; rewrite ?app_nil_r, ?app_assoc; done.
  - subst scope. rewrite (app_assoc [_; _; _]). change (?a :: ?b :: ?c :: ?d :: [?e]) with ([a; b; c] ++ [d; e]).
    rewrite (Permutation_app_comm _ (_ ++ from_option _ _ _)). rewrite <- !app_assoc.
    apply Permutation_app_head. rewrite (app_assoc (from_option _ _ _)). rewrite (Permutation_app_comm _ [_; _; _]).
    rewrite <- app_assoc. done.
Qed.

End Facts.
End AdapterFacts.
Import AdapterFacts.

(** ** The SDK's HTTP handler behind the adapters *)

(** [trait AuthProvider], as the handler and its middleware use it. *)
Record Provider (H Extra W : Type) := mkProvider {
  pr_verifier : AuthProvider (Extra := Extra) W;
  pr_endpoints : option (list str); (* the paths of [auth_endpoints] *)
  pr_handle_request : Handler H Extra W;
}.
Arguments pr_verifier {H Extra W} p.
Arguments pr_endpoints {H Extra W} p.
Arguments pr_handle_request {H Extra W} p.

Module HandlerService.
Section Handler.
Context {H : Type} `{HeaderMap H} {Extra Details Tr St G RequestId Req Notif Resp Out : Type}.
Context `{!SessionStore nat St} `{!IdGenerator G}.
Abbreviation CM := (ServerRuntime.ClientMessage RequestId Req Notif Resp).
Context `{!TransportDispatcher RequestId CM Out Tr}.
Abbreviation World := (McpAppState.t Extra Details Tr St G).
Context (now : N) (encode : bytes -> str) (parse_value : str -> option Value) (parse_messages : str -> option (Messages CM))
  (is_initialize_request : CM -> bool) (parse_version : str -> result unit str) (show_error : McpSdkError -> str)
  (tr_new : option (str * str) -> Tr) (env : World -> World) (read_line : nat -> World -> option (result str str) * World)
  (default_status : str).

(** [struct McpHttpHandler] *)
Record t := mk {
  auth : option (Provider H Extra World);
  middlewares : list (Middleware H Extra World);
  health_handler : option (Request H Extra -> Response H);
}.
Definition new := mk.
Definition add_middleware (m : Middleware H Extra World) (h : t) : t := mk (auth h) (middlewares h ++ [m]) (health_handler h).
Definition oauth_endppoints (h : t) : option (list str) := auth h ≫= pr_endpoints.

Definition service (h : t) : Service H Extra World := {|
  oauth_endpoints := oauth_endppoints h;
  serve_streamable_http := McpHttpHandler.handle_streamable_http now encode parse_value parse_messages is_initialize_request
    parse_version show_error tr_new (middlewares h) env read_line;
  serve_sse_connection := McpHttpHandler.handle_sse_connection now tr_new (middlewares h);
  serve_sse_message := McpHttpHandler.handle_sse_message now show_error (middlewares h);
  serve_auth := McpHttpHandler.handle_auth_requests (pr_handle_request <$> auth h);
  serve_health := McpHttpHandler.handle_health (health_handler h) default_status;
|}.
End Handler.
Arguments t : clear implicits.
End HandlerService.

Section Claims.
Context {H : Type} `{HeaderMapLaws H} `{!HeaderIter H} `{!HeaderIterLaws H} {Extra W : Type}.
Context (valid_header : str -> bytes -> bool) (parse_uri : str -> option (option str)) (error_json : str -> str).
Context (Ea Eb : Extractors H) `{!ExtractorsLaws H (H1 := Ea)} `{!ExtractorsLaws H (H1 := Eb)}.

End Claims.

(** ** Examples *)

Module AdapterDemo.
Definition refuse (st : N) : Response FieldList.t := mkResponse st [] (BText []).
#[global] Instance extractors : Extractors FieldList.t := {
  extract_bytes := fun limit b => if (limit <? N.of_nat (length b))%N then Err (refuse 413) else Ok b;
  extract_string := fun limit b =>
    if (limit <? N.of_nat (length b))%N then Err (refuse 413) else if utf8_valid b then Ok b else Err (refuse 400);
  reject_query := fun _ => None;
}.
#[global] Instance extractors_laws : ExtractorsLaws FieldList.t.
Proof.
  split; simpl; intros limit b Hb.
  - rewrite (proj2 (N.ltb_lt _ _)) by done. eauto.
  - by rewrite (proj2 (N.ltb_ge _ _)) by done.
  - rewrite (proj2 (N.ltb_lt _ _)) by done. eauto.
  - rewrite (proj2 (N.ltb_ge _ _)) by done. destruct (utf8_valid b); eauto.
Qed.
(** A handler that counts its calls and echoes the Host it is given. *)
Definition echo : Handler FieldList.t unit nat := fun req n =>
  Some (match hm_get (headers req) HOST with Some v => Ok (build_response 200 v) | None => Err SessionIdMissing end, S n).
Definition echo_service : Service FieldList.t unit nat :=
  mkService FieldList.t unit nat (Some [s! "/token"]) echo (fun _ => echo) echo echo (fun _ => build_response 200 []).
Definition opts : McpMountOptions := mkMount (s! "/mcp") (s! "/sse") (s! "/messages") (Some (s! "/health")) 10.
Lemma echo_wf : service_wf echo_service.
Proof.
  assert (K : handler_wf echo); [|split; try done; intros; by apply text_wf].
  intros req w r w'. unfold echo. destruct (hm_get (headers req) HOST); [|done]. intros [= <- <-]. by apply text_wf.
Qed.
Definition post (fields : list (str * bytes)) (body : bytes) : HttpRequest := mkHttp POST (s! "/mcp") None fields body.
Definition all_valid (_ : str) (_ : bytes) : bool := true.
Definition no_query (_ : str) : option (option str) := Some None.
Definition json (e : str) : str := e.

(** Of a header sent twice, axum hands over the first value and actix the
    last. *)
Lemma repeated_header_diverges :
  let q := post [(HOST, s! "a"); (HOST, s! "b")] [] in
  (exists r w, Axum.serve echo_service opts EStreamablePost q 0 = Some (r, w) /\ resp_body r = BText (s! "a")) /\
  (exists a w, Actix.serve all_valid no_query json echo_service opts EStreamablePost q 0 = Some (a, w) /\
     resp_body (Actix.a_response a) = BText (s! "b")).
Proof. split; eexists _, _; split; vm_compute; reflexivity. Qed.

(** The errors of the handler that a client can make are 500 with axum. *)
Lemma missing_session_status :
  let q := post [] [] in
  (exists r w, Axum.serve echo_service opts EMessages q 0 = Some (r, w) /\ status r = 500%N) /\
  (exists a w, Actix.serve all_valid no_query json echo_service opts EMessages q 0 = Some (a, w) /\ status (Actix.a_response a) = 400%N).
Proof. split; eexists _, _; split; vm_compute; reflexivity. Qed.

(** A messages endpoint with a query is registered as it is by actix, by axum
    without the query. *)
Lemma endpoint_with_query :
  let opts := mkMount (s! "/mcp") (s! "/sse") (s! "/messages?k=v") None 10 in
  mkRoute (s! "/messages") (Some POST) EMessages ∈ Axum.mcp_routes echo_service opts /\
  mkRoute (s! "/messages?k=v") (Some POST) EMessages ∈ Actix.mcp_scope echo_service opts.
Proof. split; decided. Qed.
End AdapterDemo.
Import AdapterDemo.


Section Bridge.
Context {H : Type} `{HeaderMapLaws H} `{!HeaderIter H} `{!HeaderIterLaws H}.
Context {Extra Details Tr St G RequestId Req Notif Resp Out : Type}.
Context `{!SessionStore nat St} `{!IdGenerator G}.
Abbreviation CM := (ServerRuntime.ClientMessage RequestId Req Notif Resp).
Context `{!TransportDispatcher RequestId CM Out Tr}.
Abbreviation World := (McpAppState.t Extra Details Tr St G).
Context (now : N) (encode : bytes -> str) (parse_value : str -> option Value) (parse_messages : str -> option (Messages CM))
  (is_initialize_request : CM -> bool) (parse_version : str -> result unit str) (show_error : McpSdkError -> str)
  (tr_new : option (str * str) -> Tr) (env : World -> World) (read_line : nat -> World -> option (result str str) * World)
  (default_status : str).
Abbreviation service := (HandlerService.service now encode parse_value parse_messages is_initialize_request parse_version
  show_error tr_new env read_line default_status).

(** The entry points of the protocol. *)
Definition mcp_entry (s : Service H Extra World) (opts : McpMountOptions) (e : Endpoint) : option (Handler H Extra World) :=
  match e with
  | EStreamableGet | EStreamablePost | EStreamableDelete => Some (serve_streamable_http s)
  | ESse => Some (serve_sse_connection s (Some (sse_messages_endpoint opts)))
  | EMessages => Some (serve_sse_message s)
  | EAuth | EHealth => None
  end.

(** The SDK's handler is such a service, with any of the SDK's middlewares; the
    provider's own endpoints and the health handler are the user's. *)
Lemma sdk_service_wf (h : HandlerService.t H Extra Details Tr St G) :
  Forall builtin (HandlerService.middlewares h) ->
  (forall p, HandlerService.auth h = Some p -> handler_wf (pr_handle_request p)) ->
  (forall f req, HandlerService.health_handler h = Some f -> wf_response (f req)) ->
  service_wf (service h).
Proof.
  intros Hb Ha Hh. split.
  - apply compose_wf; [done|apply final_wf; apply streamable_wf].
  - intros e req0. apply compose_wf; [done|]. apply final_wf. intros _. apply connect_sse_wf.
  - apply compose_wf; [done|apply final_wf; apply sse_message_wf].
  - intros req w r w'. cbn. unfold McpHttpHandler.handle_auth_requests.
    destruct (HandlerService.auth h) as [p|] eqn:E; cbn; [|done]. intros Hr. by eapply (Ha p eq_refl).
  - intros req. cbn. unfold McpHttpHandler.handle_health. destruct (HandlerService.health_handler h) as [f|] eqn:E; [by eapply Hh|].
    by apply json_wf.
Qed.

(** Nothing is lost on the bridge to actix: whatever the SDK's handler
    answers on one of the protocol's endpoints, through any of the SDK's
    middlewares, the actix response has the same status, body and header values,
    and its body is streamed exactly if it is the stream of a transport; any
    other body is complete when it is sent. *)
Theorem actix_bridge_lossless (h : HandlerService.t H Extra Details Tr St G) (opts : McpMountOptions) (e : Endpoint)
  (entry : Handler H Extra World) (req : Request H Extra) (w w' : World) (r : Response H) :
  Forall builtin (HandlerService.middlewares h) -> mcp_entry (service h) opts e = Some entry ->
  entry req w = Some (Ok r, w') ->
  let a := Actix.to_actix_response r in
  status (Actix.a_response a) = status r /\ resp_body (Actix.a_response a) = resp_body r /\
  (forall k, hm_get (resp_headers (Actix.a_response a)) k = hm_get (resp_headers r) k) /\
  (Actix.streaming a = true <-> exists n, resp_body r = BStream n \/ exists e, resp_body r = BSse e n).
Proof.
  intros Hb He E. set (h' := HandlerService.mk None (HandlerService.middlewares h) None).
  assert (Hw : service_wf (service h')) by (by apply sdk_service_wf).
  assert (Hr : wf_response r).
  { destruct e; try discriminate He; injection He as <-;
      first [exact (wf_streamable _ Hw _ _ _ _ E)|exact (wf_connection _ Hw _ _ _ _ _ E)|exact (wf_message _ Hw _ _ _ _ E)]. }
  destruct (bridge_wf r Hr) as (? & ? & ? & Hs). split_and!; [done..|]. rewrite Hs.
  destruct (resp_body r); simpl; split; try done; try (intros (n' & [?|(? & ?)]); done); eauto.
Qed.
End Bridge.

Import ServerRuntime.Demo HttpHandler.Demo.
Definition demo_handler : HandlerService.t FieldList.t unit unit transport (InMemorySessionStore.t nat) FastIdGenerator.t :=
  HandlerService.mk None [dns_handle (mkDns (Some [s! "localhost:80"]) None)] None.
Definition demo_service : Service FieldList.t unit world :=
  HandlerService.service 5 encode parse_value parse_messages (fun _ => true) (fun _ => Ok tt) (fun _ => []) new_transport
    (fun w => w) (fun _ w => (None, w)) [] demo_handler.

Lemma actix_bridge_lossless_witness :
  exists r w', serve_sse_connection demo_service (Some (s! "/messages")) (mkRequest GET None [(HOST, s! "localhost:80")] [] None) demo
      = Some (Ok r, w') /\ Actix.streaming (Actix.to_actix_response r) = true.
Proof.
  destruct (serve_sse_connection demo_service (Some (s! "/messages")) (mkRequest GET None [(HOST, s! "localhost:80")] [] None) demo)
    as [[[r|e] w']|] eqn:E; [|exfalso; vm_compute in E; discriminate..].
  exists r, w'. split; [reflexivity|].
  destruct (actix_bridge_lossless 5 encode parse_value parse_messages (fun _ => true) (fun _ => Ok tt) (fun _ => []) new_transport
    (fun w => w) (fun _ w => (None, w)) [] demo_handler opts ESse _ _ _ _ _ (Forall_cons_2 _ _ _ (builtin_dns _) (Forall_nil_2 _)) eq_refl E)
    as (_ & _ & _ & S). apply S. vm_compute in E. injection E as <- <-. exists 0. right. by eexists.
Defined.
