(* ===== verification/HttpServers.v ===== *)
(** * The servers of the web framework adapters

    Models, from crates/rust-mcp-axum/src/ and crates/rust-mcp-actix/src/, the
    options of the two servers (server.rs, options.rs), how a server is put
    together from them, and the runtimes that reach its sessions (runtime.rs).

    The two option structs have the same fields; those the HTTP handler's state
    does not show (transport options, ping interval, task stores, observer) are
    left out.  Name resolution, files and sockets are parameters. *)
From S2P Require Import Prelude RustStr EventStore SessionStore IdGen Dispatcher Auth ServerRuntime Requests Http HttpHandler HttpAnswers Adapters.
Import McpAppState AdapterFacts ResponseFacts.

(** ** Options *)

Section Options.
Context {H Extra W St G : Type}.

Record ServerOptions := mkOptions {
  host : str;
  port : N;
  session_id_generator : option G;
  custom_streamable_http_endpoint : option str;
  has_event_store : bool; (* event_store *)
  opt_json_response : option bool; (* enable_json_response *)
  opt_body_size : option N; (* max_request_body_size *)
  opt_session_store : option St; (* session_store *)
  enable_ssl : bool;
  ssl_cert_path : option str;
  ssl_key_path : option str;
  dns_rebinding : DnsRebindingOptions;
  sse_support : bool;
  custom_sse_endpoint : option str;
  custom_messages_endpoint : option str;
  opt_auth : option (Provider H Extra W); (* auth *)
  health_endpoint : option str;
  opt_health_handler : option (Request H Extra -> Response H); (* health_handler *)
}.
Definition default_options : ServerOptions :=
  mkOptions (s! "127.0.0.1") 8080 None None false None None None false None None (mkDnsOptions true None None) true
    None None None None None.

(** *** The options of axum's server *)

Context (is_file : str -> bool) {Addr : Type} (to_socket_addrs : str -> N -> result (list Addr) str)
  (parse_addr : str -> result Addr str) (show_addr : Addr -> str).

Definition SSL_PATHS : str := s! "Both 'ssl_cert_path' and 'ssl_key_path' must be provided when SSL is enabled.".
Definition validate_axum (o : ServerOptions) : result unit Axum.TransportServerError :=
  if enable_ssl o then
    match ssl_cert_path o, ssl_key_path o with
    | Some cert, Some key =>
        if negb (is_file cert)
        then Err (Axum.InvalidServerOptions (s! "'ssl_cert_path' does not point to a valid or existing file."))
        else if negb (is_file key)
        then Err (Axum.InvalidServerOptions (s! "'ssl_key_path' does not point to a valid or existing file."))
        else Ok tt
    | _, _ => Err (Axum.InvalidServerOptions SSL_PATHS)
    end
  else Ok tt.

Definition strip_scheme (host : str) : str :=
  match strip_prefix (s! "http://") host with
  | Some stripped => stripped
  | None => match strip_prefix (s! "https://") host with Some stripped => stripped | None => host end
  end.
Definition host_port (o : ServerOptions) : str := host o ++ (s! ":") ++ show_N (port o).
Definition resolve_server_address_axum (o : ServerOptions) : result Addr Axum.TransportServerError :=
  let? _ := validate_axum o in
  match to_socket_addrs (strip_scheme (host o)) (port o) with
  | Err err => Err (Axum.ServerStartError err)
  | Ok (addr :: _) => Ok addr
  | Ok [] => match parse_addr (host_port o) with Ok addr => Ok addr | Err err => Err (Axum.ServerStartError err) end
  end.

Definition base_url (o : ServerOptions) : str :=
  (if enable_ssl o then s! "https" else s! "http") ++ (s! "://") ++ host_port o.
Definition streamable_http_path (o : ServerOptions) : str :=
  from_option (fun e => e) DEFAULT_STREAMABLE_HTTP_ENDPOINT (custom_streamable_http_endpoint o).
Definition sse_path (o : ServerOptions) : str := from_option (fun e => e) DEFAULT_SSE_ENDPOINT (custom_sse_endpoint o).
Definition sse_messages_path (o : ServerOptions) : str :=
  from_option (fun e => e) DEFAULT_MESSAGES_ENDPOINT (custom_messages_endpoint o).
Definition streamable_http_url (o : ServerOptions) : str := base_url o ++ streamable_http_path o.
Definition sse_url (o : ServerOptions) : str := base_url o ++ sse_path o.
Definition sse_message_url (o : ServerOptions) : str := base_url o ++ sse_messages_path o.
Definition max_request_body_size (o : ServerOptions) : N := from_option (fun n => n) DEFAULT_MAX_REQUEST_BODY_SIZE (opt_body_size o).
Definition resolve_mount_options (o : ServerOptions) : McpMountOptions :=
  mkMount (streamable_http_path o) (sse_path o) (sse_messages_path o) (health_endpoint o) (max_request_body_size o).

(** What a server announces; the address is resolved even if one is given. *)
Definition server_info_axum (o : ServerOptions) (addr : option Addr) : result str Axum.TransportServerError :=
  let? resolved := resolve_server_address_axum o in
  let addr := show_addr (from_option (fun a => a) resolved addr) in
  let server_type := if enable_ssl o then s! "SSL server" else s! "Server" in
  let protocol := if enable_ssl o then s! "https" else s! "http" in
  let at_ := server_type ++ (s! " is available at ") ++ protocol ++ (s! "://") ++ addr in
  Ok ([LF] ++ (s! "• Streamable HTTP ") ++ at_ ++ streamable_http_path o ++
      (if sse_support o then [LF] ++ (s! "• SSE ") ++ at_ ++ sse_path o else [])).

(** *** The options of actix's server *)

Definition validate_actix (o : ServerOptions) : result unit str :=
  if bool_decide (host o = []) then Err (s! "host must not be empty")
  else if enable_ssl o && (negb (is_some (ssl_cert_path o)) || negb (is_some (ssl_key_path o))) then Err SSL_PATHS
  else Ok tt.
Definition resolve_server_address_actix (o : ServerOptions) : result Addr str :=
  let? _ := validate_actix o in
  match to_socket_addrs (strip_scheme (host o)) (port o) with
  | Err e => Err ((s! "Failed to resolve address: ") ++ e)
  | Ok (addr :: _) => Ok addr
  | Ok [] => Err ((s! "Could not resolve: ") ++ host_port o)
  end.
Definition server_info_actix (o : ServerOptions) (addr : option Addr) : result str str :=
  let? resolved := resolve_server_address_actix o in
  let addr := show_addr (from_option (fun a => a) resolved addr) in
  Ok ([LF] ++ (s! "  Streamable HTTP Server is available at http://") ++ addr ++ streamable_http_path o ++
      (if sse_support o then [LF] ++ (s! "  SSE Server is available at http://") ++ addr ++ sse_path o else [])).

(** *** Plain or encrypted *)

Inductive Socket := Plain (addr : Addr) | Tls (addr : Addr).
(** Reading the certificate and the key, and listening on a socket until the
    server is shut down, with the text of their error. *)
Context (load_tls : str -> str -> option str) (listen : Socket -> option str).
Definition tls_error (o : ServerOptions) : option str :=
  load_tls (from_option (fun p => p) [] (ssl_cert_path o)) (from_option (fun p => p) [] (ssl_key_path o)).

Definition serve_on (o : ServerOptions) (addr : Addr) (socket : Socket) : result Socket Axum.TransportServerError :=
  let? _ := server_info_axum o (Some addr) in
  match listen socket with Some err => Err (Axum.ServerStartError err) | None => Ok socket end.
Definition start_ssl (o : ServerOptions) (addr : Addr) : result Socket Axum.TransportServerError :=
  match tls_error o with Some err => Err (Axum.SslCertError err) | None => serve_on o addr (Tls addr) end.
Definition start_http (o : ServerOptions) (addr : Addr) : result Socket Axum.TransportServerError :=
  serve_on o addr (Plain addr).
(** How [create] opens the server, with or without the crate's feature [ssl]:
    axum's task, whose result [await_server] returns, or its panic [None]. *)
Definition open_axum (ssl_feature : bool) (o : ServerOptions)
  : result (option (result Socket Axum.TransportServerError)) Axum.TransportServerError :=
  let? addr := resolve_server_address_axum o in
  Ok (if ssl_feature then Some (if enable_ssl o then start_ssl o addr else start_http o addr)
      else if enable_ssl o then None else Some (start_http o addr)).
Definition bind (socket : Socket) : result Socket str :=
  match listen socket with Some err => Err err | None => Ok socket end.
Definition open_actix (ssl_feature : bool) (o : ServerOptions) : result Socket str :=
  let? addr := resolve_server_address_actix o in
  if ssl_feature then
    if enable_ssl o then match tls_error o with Some err => Err err | None => bind (Tls addr) end else bind (Plain addr)
  else bind (Plain addr).
End Options.
Arguments ServerOptions : clear implicits.

(** [ActixServerOptions] has its own copies of the methods. *)
Module ActixServerOptions.
Section Options.
Context {H Extra W St G : Type}.
Abbreviation Options := (ServerOptions H Extra W St G).
Definition default_options : Options :=
  mkOptions (s! "127.0.0.1") 8080 None None false None None None false None None (mkDnsOptions true None None) true
    None None None None None.
Definition base_url (o : Options) : str :=
  (if enable_ssl o then s! "https" else s! "http") ++ (s! "://") ++ host o ++ (s! ":") ++ show_N (port o).
Definition sse_endpoint (o : Options) : str :=
  match custom_sse_endpoint o with Some e => e | None => DEFAULT_SSE_ENDPOINT end.
Definition sse_messages_endpoint (o : Options) : str :=
  match custom_messages_endpoint o with Some e => e | None => DEFAULT_MESSAGES_ENDPOINT end.
Definition streamable_http_endpoint (o : Options) : str :=
  match custom_streamable_http_endpoint o with Some e => e | None => DEFAULT_STREAMABLE_HTTP_ENDPOINT end.
Definition streamable_http_url (o : Options) : str := base_url o ++ streamable_http_endpoint o.
Definition sse_url (o : Options) : str := base_url o ++ sse_endpoint o.
Definition sse_message_url (o : Options) : str := base_url o ++ sse_messages_endpoint o.
Definition max_request_body_size (o : Options) : N :=
  match opt_body_size o with Some n => n | None => DEFAULT_MAX_REQUEST_BODY_SIZE end.
Definition resolve_mount_options (o : Options) : McpMountOptions :=
  mkMount (streamable_http_endpoint o) (sse_endpoint o) (sse_messages_endpoint o) (health_endpoint o) (max_request_body_size o).
End Options.
End ActixServerOptions.

(** ** The certificate and key of actix's server *)

Section Tls.
(** The files ([File::open] and reading them), the certificates and the first
    private key in their text (rustls_pemfile), and rustls' check of the pair,
    each with the text of its error. *)
Context {Pem Cert Key Config : Type} (open_file : str -> result Pem str) (certs : Pem -> list (result Cert str))
  (private_key : Pem -> result (option Key) str) (with_single_cert : list Cert -> Key -> result Config str).

(** [collect::<Result<Vec<_>, _>>]: the first error, or everything. *)
Fixpoint collect (items : list (result Cert str)) : result (list Cert) str :=
  match items with
  | [] => Ok []
  | Err e :: _ => Err e
  | Ok c :: items => let? cs := collect items in Ok (c :: cs)
  end.
Definition load_rustls_config (cert_path key_path : str) : result Config str :=
  let? cert_reader := open_file cert_path in
  let? cs := collect (certs cert_reader) in
  let? key_reader := open_file key_path in
  let? found := private_key key_reader in
  match found with
  | None => Err (s! "no private key found")
  | Some key => with_single_cert cs key
  end.
(** Its error alone, as [open_actix] needs it. *)
Definition rustls_error (cert_path key_path : str) : option str :=
  match load_rustls_config cert_path key_path with Ok _ => None | Err e => Some e end.
End Tls.

(** ** Putting a server together *)

Section Servers.
Context {H : Type} `{HeaderIter H} {Extra Details Tr St G RequestId Req Notif Resp Out : Type}.
Context `{!SessionStore nat St} `{!IdGenerator G}.
Abbreviation CM := (ServerRuntime.ClientMessage RequestId Req Notif Resp).
Context `{!TransportDispatcher RequestId CM Out Tr}.
Abbreviation World := (McpAppState.t Extra Details Tr St G).
Abbreviation Options := (ServerOptions H Extra World St G).
Abbreviation HandlerT := (HandlerService.t H Extra Details Tr St G).
(** [InMemorySessionStore::default()] and [UuidGenerator], the clock of the
    authentication middleware and the texts of its errors. *)
Context (default_store : St) (uuid : G) (now : N) (error_code error_text : AuthenticationError -> str).

(** The state of a new server. *)
Definition new_state (o : Options) : World :=
  McpAppState.mk (from_option (fun st => st) default_store (opt_session_store o))
    (from_option (fun g => g) uuid (session_id_generator o)) (FastIdGenerator.new (Some (s! "s_")))
    (from_option (fun b => b) false (opt_json_response o)) (has_event_store o) [] [] [].
Definition dns_of (o : Options) : option DnsRebindProtector := resolve_dns_middleware (dns_rebinding o) (host o) (port o).
Definition middlewares_of (o : Options) : list (Middleware H Extra World) :=
  from_option (fun dns => [dns_handle dns]) [] (dns_of o) ++
  from_option (fun p => [auth_handle error_code error_text (pr_verifier p) now]) [] (opt_auth o).

(** [AxumServer] and [ActixServer]: the state, the handler, the options. *)
Record Server := mkServer { state : World; handler : HandlerT; options : Options }.
Definition new_axum (o : Options) : Server :=
  mkServer (new_state o) (HandlerService.new (opt_auth o) (middlewares_of o) (opt_health_handler o)) o.
Definition new_actix (o : Options) : Server :=
  mkServer (new_state o) (HandlerService.new None (middlewares_of o) (opt_health_handler o)) o.

(** [with_route]: axum's router takes the route, or panics. *)
Definition with_route {Router MethodRouter : Type} (add_route : Router -> str -> MethodRouter -> option Router)
  (path : str) (route : MethodRouter) (server : Router * Server) : option (Router * Server) :=
  app ← add_route server.1 path route; Some (app, server.2).

(** After a signal the sessions are dropped and the listener is closed. *)
Definition shutdown_signal (w : World) : World := set_store (SessionStore.clear (session_store w)) w.
End Servers.

(** ** The runtimes *)

Module HttpServerRuntime.
Section Runtime.
Context {Extra Details Tr St G : Type} `{!SessionStore nat St}.
Abbreviation World := (McpAppState.t Extra Details Tr St G).
Abbreviation session := (ServerRuntime.state Extra Details Tr).
Abbreviation SdkResult := (Act World McpSdkError).
Context (now : N).

(** [McpServer], the methods of a session's runtime (Requests.v). *)
Context {RequestId Params Value R M Meta Status Store : Type} `{!Results Value R} `{!Received RequestId R M}.
Context `{!TaskStoreOps (RequestId * FromServer.request * Params) R Meta Status Store}.
Context (send_request : FromServer.request -> Params -> option N -> Act session McpSdkError (option M)).
Context (send : FromServer.notification -> Params -> Act session McpSdkError unit).
Context (is_task_augmented : FromServer.request -> Params -> bool) (as_create_task : R -> option (CreatedTask Meta)).
Context (client_task_store : session -> option Store) (set_client_task_store : Store -> session -> session).
Context (session_id : session -> option str).
Context (task_id_params : str -> Params) (task_status : Value -> Status) (task_poll_interval : Value -> option Z).
Context (is_terminal : Value -> bool).
(** The error of an unknown session, which differs between the two crates. *)
Context (no_session : str -> McpSdkError).

Definition sessions (w : World) : list str := keys (session_store w).
Definition lookup (id : str) : SdkResult (option nat) :=
  fun w => let '(o, st) := get now (session_store w) id in (Ok o, set_store st w).
Definition runtime_by_session (id : str) : SdkResult nat :=
  do o <- lookup id; match o with Some runtime => act_ret runtime | None => act_fail (no_session id) end.
Definition on_session {A} (id : str) (f : Act session McpSdkError A) : SdkResult A :=
  do runtime <- runtime_by_session id; on_runtime runtime f.

Definition send_request_to (id : str) (k : FromServer.request) (p : Params) (timeout : option N) : SdkResult R :=
  on_session id (McpServer.request send_request is_task_augmented as_create_task client_task_store set_client_task_store session_id k p timeout).
Definition send_notification id (n : FromServer.notification) (p : Params) := on_session id (McpServer.send_notification send n p).
Definition client_info id : SdkResult (option Details) :=
  on_session id (fun s => (Ok (ServerRuntime.client_details (ServerRuntime.rt s)), s)).

(** Requests *)
Abbreviation asks m :=
  (fun id p => on_session id (m send_request is_task_augmented as_create_task client_task_store set_client_task_store session_id p)).
Definition request_elicitation : str -> Params -> SdkResult Value := asks McpServer.request_elicitation.
Definition request_elicitation_task : str -> Params -> SdkResult Value := asks McpServer.request_elicitation_task.
Definition request_root_list : str -> Params -> SdkResult Value := asks McpServer.request_root_list.
Definition ping (id : str) (p : Params) (timeout : option N) : SdkResult Value :=
  on_session id (McpServer.ping send_request is_task_augmented as_create_task client_task_store set_client_task_store session_id p timeout).
Definition request_message_creation : str -> Params -> SdkResult Value := asks McpServer.request_message_creation.
Definition request_get_task : str -> Params -> SdkResult Value := asks McpServer.request_get_task.
Definition request_get_task_payload : str -> Params -> SdkResult Value := asks McpServer.request_get_task_payload.
Definition request_task_cancellation : str -> Params -> SdkResult Value := asks McpServer.request_task_cancellation.
Definition request_custom : str -> Params -> SdkResult Value := asks McpServer.request_custom.

(** Notifications *)
Definition notify_log_message id p := on_session id (McpServer.notify_log_message send p).
Definition notify_prompt_list_changed id p := on_session id (McpServer.notify_prompt_list_changed send p).
Definition notify_resource_list_changed id p := on_session id (McpServer.notify_resource_list_changed send p).
Definition notify_resource_updated id p := on_session id (McpServer.notify_resource_updated send p).
Definition notify_tool_list_changed id p := on_session id (McpServer.notify_tool_list_changed send p).
Definition notify_cancellation id p := on_session id (McpServer.notify_cancellation send p).
Definition notify_progress id p := on_session id (McpServer.notify_progress send p).
Definition notify_task_status id p := on_session id (McpServer.notify_task_status send p).
Definition notify_elicitation_completed id p := on_session id (McpServer.notify_elicitation_completed send p).
Definition notify_custom id p := on_session id (McpServer.notify_custom send p).

(** *** What runs beside the listener *)

Definition invalid (what : str) : McpSdkError := ERpcError (mkRpcError invalid_request (Some what)).
Definition task_poller_callback (task_id : str) (session : option str) : SdkResult (Status * option Z) :=
  match session with
  | None => act_fail (invalid (s! "No session id provided!"))
  | Some id =>
      do o <- lookup id;
      match o with
      | None => act_fail (invalid (s! "Invalid or broken session!"))
      | Some runtime =>
          on_runtime runtime (McpServer.poll_task_status send_request is_task_augmented as_create_task client_task_store
            set_client_task_store session_id task_id_params task_status task_poll_interval is_terminal task_id (Some id))
      end
  end.

(** The task that forwards the status notifications of the task store. *)
Definition forward (w : World) (item : Params * option str) : World :=
  match item.2 with
  | None => w
  | Some id =>
      match lookup id w with
      | (Ok (Some transport), w) => (on_runtime transport (McpServer.notify_task_status send item.1) w).2
      | (_, w) => w
      end
  end.
Definition forward_notifications (stream : list (Params * option str)) (w : World) : World := foldl forward w stream.
End Runtime.

(** The two crates' errors *)
Definition no_session_axum error_text (id : str) : McpSdkError := Axum.to_sdk_error error_text (Axum.SessionIdInvalid id).
Definition no_session_actix (id : str) : McpSdkError := EInternal ((s! "Session not found: ") ++ id).
End HttpServerRuntime.

(** ** Facts *)

Lemma collect_spec {Cert} (items : list (result Cert str)) :
  match collect items with
  | Ok cs => items = Ok <$> cs
  | Err e => exists before after, items = (Ok <$> before) ++ Err e :: after
  end.
Proof.
  induction items as [|[c|e] items IH]; simpl; [done| |by exists [], items].
  destruct (collect items) as [cs|e]; simpl; [by rewrite IH|].
  destruct IH as (before & after & ->). by exists (c :: before), after.
Qed.

(** actix's encrypted server listens, on the address it resolved, only with a
    readable list of certificates, a private key, and their agreement. *)
Theorem actix_encrypted {H Extra W St G Addr Pem Cert Key Config : Type} (resolve : str -> N -> result (list Addr) str)
    (open_file : str -> result Pem str) (certs : Pem -> list (result Cert str)) (private_key : Pem -> result (option Key) str)
    (with_single_cert : list Cert -> Key -> result Config str) listen (o : ServerOptions H Extra W St G) socket :
  enable_ssl o = true ->
  open_actix resolve (rustls_error open_file certs private_key with_single_cert) listen true o = Ok socket ->
  exists cert_path key_path addr addrs cert_pem cs key_pem key config,
    ssl_cert_path o = Some cert_path /\ ssl_key_path o = Some key_path /\
    resolve (strip_scheme (host o)) (port o) = Ok (addr :: addrs) /\ socket = Tls addr /\ listen socket = None /\
    open_file cert_path = Ok cert_pem /\ certs cert_pem = Ok <$> cs /\
    open_file key_path = Ok key_pem /\ private_key key_pem = Ok (Some key) /\ with_single_cert cs key = Ok config.
Proof.
  intros Hssl. unfold open_actix, resolve_server_address_actix, validate_actix, tls_error. rewrite Hssl. case_bool_decide; [done|].
  destruct (ssl_cert_path o) as [cert_path|]; [|done]. destruct (ssl_key_path o) as [key_path|]; [|done]. simpl.
  destruct (resolve _ _) as [[|addr addrs]|e]; try done. simpl.
  unfold rustls_error, load_rustls_config.
  destruct (open_file cert_path) as [cert_pem|e] eqn:Hc; [|done]. simpl.
  pose proof (collect_spec (certs cert_pem)) as Hcs. destruct (collect (certs cert_pem)) as [cs|e]; [|done]. simpl.
  destruct (open_file key_path) as [key_pem|e] eqn:Hk; [|done]. simpl.
  destruct (private_key key_pem) as [[key|]|e] eqn:Hkey; try done. simpl.
  destruct (with_single_cert cs key) as [config|e] eqn:Hpair; [|done]. unfold bind.
  destruct (listen (Tls addr)) eqn:Hl; [done|]. intros [= <-]. naive_solver.
Qed.

(** The same defaults, the same URLs and the same endpoints as axum's. *)
Theorem options_agree {H Extra W St G} (o : ServerOptions H Extra W St G) :
  ActixServerOptions.default_options = default_options (H := H) (Extra := Extra) (W := W) (St := St) (G := G) /\ ActixServerOptions.resolve_mount_options o = resolve_mount_options o /\
  ActixServerOptions.streamable_http_url o = streamable_http_url o /\ ActixServerOptions.sse_url o = sse_url o /\
  ActixServerOptions.sse_message_url o = sse_message_url o.
Proof. by destruct o as [? ? ? [?|] ? ? [?|] ? ? ? ? ? ? [?|] [?|] ? ? ?]. Qed.

Module HeaderFacts.
Section Fields.
Context {H : Type} `{HeaderMapLaws H} `{!HeaderIter H} `{!HeaderIterLaws H} {Extra : Type}.

(** [into_iter] names the first value of every name. *)
Lemma into_iter_field seen l (h : H) k :
  hm_get (foldl (fun h kv => match kv.1 with Some k => hm_insert h k kv.2 | None => h end) h (Axum.into_iter seen l)) k =
  if decide (k ∈ seen) then hm_get h k else match field k l with Some v => Some v | None => hm_get h k end.
Proof.
  revert seen h. induction l as [|[k0 v0] l IH]; intros seen h; simpl; [by destruct (decide _)|].
  rewrite IH. destruct (decide (k = k0)) as [->|Hne].
  - rewrite (decide_True (P := k0 ∈ k0 :: seen)), (decide_True (P := k0 = k0)) by (done || left).
    case_bool_decide; simpl; [by rewrite decide_True|]. by rewrite get_insert, decide_True, decide_False.
  - rewrite (decide_False (P := k0 = k)) by congruence.
    rewrite (decide_ext (k ∈ k0 :: seen) (k ∈ seen)) by (rewrite elem_of_cons; tauto).
    case_bool_decide; simpl; [done|]. by rewrite get_insert, (decide_False (P := k0 = k)) by congruence.
Qed.
Lemma created_headers m query (h : H) body k :
  hm_get (headers (create_request (Extra := Extra) m query (Axum.into_iter [] (hm_iter h)) body)) k = hm_get h k.
Proof.
  unfold create_request. cbn [headers]. rewrite into_iter_field, decide_False by apply not_elem_of_nil.
  rewrite (iter_get h), get_new. by destruct (field k _).
Qed.

(** The header values the SDK looks at, as they were sent. *)
Lemma axum_header m q body k : hm_get (headers (Axum.request (H := H) (Extra := Extra) m q body)) k = field k (q_fields q).
Proof.
  unfold Axum.request. rewrite created_headers. unfold Axum.headers_of.
  enough (forall (h : H), hm_get (foldl (fun h kv => hm_append h kv.1 kv.2) h (q_fields q)) k =
    match hm_get h k with Some v => Some v | None => field k (q_fields q) end) as E by (rewrite E, get_new; done).
  induction (q_fields q) as [|[k0 v0] l IH]; intros h; simpl; [by destruct (hm_get h k)|].
  rewrite IH, get_append. destruct (decide (k0 = k)) as [->|]; [|done]. by destruct (hm_get h k).
Qed.
Lemma actix_header valid_header parse_uri q body k :
  hm_get (headers (Actix.from_actix_request (H := H) (Extra := Extra) valid_header parse_uri q body)) k =
  field k (reverse (filter (fun kv => valid_header kv.1 kv.2 = true) (q_fields q))).
Proof.
  unfold Actix.from_actix_request. rewrite created_headers. unfold Actix.headers_of.
  enough (forall (h : H), hm_get (foldl (fun h kv => if valid_header kv.1 kv.2 then hm_insert h kv.1 kv.2 else h) h (q_fields q)) k =
    match field k (reverse (filter (fun kv => valid_header kv.1 kv.2 = true) (q_fields q))) with Some v => Some v | None => hm_get h k end)
    as E by (rewrite E, get_new; by destruct (field k _)).
  induction (q_fields q) as [|[k0 v0] l IH]; intros h; [done|]. cbn [foldl fst snd]. rewrite IH, filter_cons. cbn [fst snd].
  destruct (valid_header k0 v0) eqn:E; [rewrite decide_True by done|by rewrite decide_False by congruence].
  rewrite reverse_cons, FieldList.field_app. destruct (field k (reverse _)); [done|]. simpl. rewrite get_insert. by destruct (decide _).
Qed.
End Fields.
End HeaderFacts.
Import HeaderFacts HttpFacts.

(** *** Guarded endpoints *)

Module GuardFacts.
Section Guards.
Context {H : Type} `{HeaderMapLaws H} `{!HeaderIter H} `{!HeaderIterLaws H}.
Context {Extra Details Tr St G RequestId Req Notif Resp Out : Type}.
Context `{!SessionStore nat St} `{!IdGenerator G}.
Abbreviation CM := (ServerRuntime.ClientMessage RequestId Req Notif Resp).
Context `{!TransportDispatcher RequestId CM Out Tr}.
Abbreviation World := (McpAppState.t Extra Details Tr St G).
Abbreviation Options := (ServerOptions H Extra World St G).
Context (now : N) (encode : bytes -> str) (parse_value : str -> option Value) (parse_messages : str -> option (Messages CM))
  (is_initialize_request : CM -> bool) (parse_version : str -> result unit str) (show_error : McpSdkError -> str)
  (tr_new : option (str * str) -> Tr) (env : World -> World) (read_line : nat -> World -> option (result str str) * World)
  (default_status : str) (error_code error_text : AuthenticationError -> str).
Abbreviation service := (HandlerService.service now encode parse_value parse_messages is_initialize_request parse_version
  show_error tr_new env read_line default_status).

(** What an endpoint does once the request is through. *)
Definition inner (opts : McpMountOptions) (e : Endpoint) (auth : option (AuthInfo Extra)) (req : Request H Extra)
  : Act World McpHttpError (Response H) :=
  match e with
  | ESse => McpHttpHandler.connect_sse now tr_new (Some (sse_messages_endpoint opts)) auth
  | EMessages => McpHttpHandler.internal_handle_sse_message now show_error req
  | _ => McpHttpHandler.internal_handle_streamable_http now encode parse_value parse_messages is_initialize_request parse_version
           show_error tr_new env read_line req
  end.

Definition dns_allowed (o : Options) (req : Request H Extra) : Prop :=
  forall p, dns_of o = Some p ->
    header_allowed (allowed_hosts p) (get_str (headers req) HOST) /\ header_allowed (allowed_origins p) (get_str (headers req) ORIGIN).

(** The five ways a request ends at an endpoint of a server with options [o]. *)
Inductive guarded (o : Options) (req : Request H Extra) (w : World) (f : Request H Extra -> Act World McpHttpError (Response H))
  : option (result (Response H) McpHttpError * World) -> Prop :=
| refused_host e : ~ dns_allowed o req -> guarded o req w f (Some (Ok (error_response 403 e), w))
| unverified p : dns_allowed o req -> opt_auth o = Some p -> validate (pr_verifier p) now (headers req) w = None ->
    guarded o req w f None
| refused_token p e w' : dns_allowed o req -> opt_auth o = Some p ->
    validate (pr_verifier p) now (headers req) w = Some (Err e, w') ->
    guarded o req w f (Some (Ok (auth_error_response error_code error_text (pr_verifier p) e), w'))
| served_authorized p info w' : dns_allowed o req -> opt_auth o = Some p ->
    validate (pr_verifier p) now (headers req) w = Some (Ok info, w') ->
    guarded o req w f (Some (f (set_auth req (Some info)) w'))
| served_open : dns_allowed o req -> opt_auth o = None -> guarded o req w f (Some (f req w)).

(** A body or query that the framework or the adapter refuses. *)
Definition body_refused `{!Extractors H} (limit : N) (q : HttpRequest) (r : Response H) : Prop :=
  reject_query (q_query q) = Some r \/ extract_bytes limit (q_body q) = Err r \/ extract_string limit (q_body q) = Err r \/
  exists b, extract_bytes limit (q_body q) = Ok b /\ utf8_valid b = false /\ r = mkResponse 400 hm_new (BText BAD_UTF8).

Lemma axum_serve_cases `{!Extractors H} (s : Service H Extra World) opts e entry q w : mcp_entry s opts e = Some entry ->
  (exists r, body_refused (mount_body_size opts) q r /\ Axum.serve s opts e q w = Some (r, w)) \/
  exists m body, Axum.serve s opts e q w = Axum.finish (entry (Axum.request m q body) w).
Proof.
  unfold body_refused. intros He. destruct e; try discriminate He; injection He as <-; cbn [Axum.serve]; try (right; by eexists _, _).
  - unfold Axum.handle_streamable_http_post. destruct (reject_query _) as [r|]; [left; eauto|].
    destruct (extract_bytes _ _) as [b|r] eqn:E; [|left; eauto]. destruct (utf8_valid b) eqn:Eu; [right; by eexists _, _|left].
    eexists. split; [|done]. right; right; right. by exists b.
  - unfold Axum.handle_messages. destruct (extract_string _ _) as [b|r] eqn:E; [right; by eexists _, _|left; eauto 6].
Qed.
Lemma actix_serve_cases `{!Extractors H} valid_header parse_uri error_json (s : Service H Extra World) opts e entry q w :
  mcp_entry s opts e = Some entry ->
  (exists r, body_refused (mount_body_size opts) q r /\
     Actix.serve valid_header parse_uri error_json s opts e q w = Some (Actix.plain r, w)) \/
  exists body, Actix.serve valid_header parse_uri error_json s opts e q w =
    Actix.finish error_json (entry (Actix.from_actix_request valid_header parse_uri q body) w).
Proof.
  unfold body_refused. intros He. destruct e; try discriminate He; injection He as <-; cbn [Actix.serve]; try (right; by eexists).
  - unfold Actix.handle_streamable_http_post.
    destruct (extract_bytes _ _) as [b|r] eqn:E; [|left; eauto]. destruct (utf8_valid b) eqn:Eu; [right; by eexists|left].
    eexists. split; [|done]. right; right; right. by exists b.
  - unfold Actix.handle_messages. destruct (extract_string _ _) as [b|r] eqn:E; [right; by eexists|left; eauto 6].
Qed.

Lemma compose_guarded o req w f :
  guarded o req w f (compose (middlewares_of now error_code error_text o) (McpHttpHandler.final f) req w).
Proof.
  assert (A : dns_allowed o req ->
    guarded o req w f (compose (from_option (fun p => [auth_handle error_code error_text (pr_verifier p) now]) [] (opt_auth o))
      (McpHttpHandler.final f) req w)).
  { intros Hd. destruct (opt_auth o) as [p|] eqn:Ep; [|by apply served_open]. unfold from_option. rewrite compose_cons.
    unfold auth_handle. destruct (validate _ _ _ _) as [[[info|e] w']|] eqn:Ev; simpl.
    - by eapply served_authorized. - by eapply refused_token. - by eapply unverified. }
  unfold middlewares_of. destruct (dns_of o) as [d|] eqn:Ed; simpl; [|apply A; intros p Hp; congruence].
  change (?x :: from_option ?g ?n ?y) with (x :: (from_option g n y)). rewrite compose_cons. unfold dns_handle.
  pose proof (protect_spec d (headers req)) as P. destruct (protect_dns_rebinding d (headers req)) as [u|e].
  - apply A. intros p Hp. rewrite Ed in Hp. by injection Hp as <-.
  - apply refused_host. intros Hall. by apply P, Hall.
Qed.

Lemma entry_guarded o auth opts e entry req w :
  mcp_entry (service (HandlerService.new auth (middlewares_of now error_code error_text o) (opt_health_handler o))) opts e = Some entry ->
  auth_info req = None ->
  guarded o req w (inner opts e None) (entry req w).
Proof.
  intros He Hreq. assert (Hset : set_auth req None = req) by (destruct req; simpl in *; by subst).
  destruct e; try discriminate He; injection He as <-; try apply compose_guarded.
  unfold HandlerService.service. cbn [serve_sse_connection]. unfold McpHttpHandler.handle_sse_connection.
  rewrite Hset, Hreq. apply compose_guarded.
Qed.
End Guards.
End GuardFacts.
Import GuardFacts.

Section Claims.
Context {H : Type} `{HeaderMapLaws H} `{!HeaderIter H} `{!HeaderIterLaws H} `{!Extractors H}.
Context {Extra Details Tr St G RequestId Req Notif Resp Out : Type}.
Context `{!SessionStore nat St} `{!IdGenerator G}.
Abbreviation CM := (ServerRuntime.ClientMessage RequestId Req Notif Resp).
Context `{!TransportDispatcher RequestId CM Out Tr}.
Abbreviation World := (McpAppState.t Extra Details Tr St G).
Abbreviation Options := (ServerOptions H Extra World St G).
Context (now : N) (encode : bytes -> str) (parse_value : str -> option Value) (parse_messages : str -> option (Messages CM))
  (is_initialize_request : CM -> bool) (parse_version : str -> result unit str) (show_error : McpSdkError -> str)
  (tr_new : option (str * str) -> Tr) (env : World -> World) (read_line : nat -> World -> option (result str str) * World)
  (default_status : str) (error_code error_text : AuthenticationError -> str) (default_store : St) (uuid : G)
  (valid_header : str -> bytes -> bool) (parse_uri : str -> option (option str)) (error_json : str -> str).
Abbreviation service := (HandlerService.service now encode parse_value parse_messages is_initialize_request parse_version
  show_error tr_new env read_line default_status).
Abbreviation inner := (inner now encode parse_value parse_messages is_initialize_request parse_version show_error tr_new env read_line).
Abbreviation guarded := (guarded now error_code error_text).

(** C9. No request gets around the checks a server is configured with: on each
    endpoint of the protocol, with axum and with actix, a request is refused for
    its body, or refused with 403 for its Host or Origin, or - when the server
    has an authentication provider - refused with the error of the token, or its
    handler runs exactly once.  On the streamable HTTP and the messages
    endpoints it runs with the token's [AuthInfo]; on the SSE endpoint the
    handler that opens the session runs without any, whatever the token said.
    A refusal changes nothing but what the provider's own check did.  What is
    checked are the header values as they were sent: with axum the first, with
    actix the last valid one of a name. *)
Theorem endpoints_guarded (o : Options) (e : Endpoint) (q : HttpRequest) (w : World) :
  e <> EAuth -> e <> EHealth ->
  let opts := resolve_mount_options o in
  (let serve := Axum.serve (service (handler (new_axum default_store uuid now error_code error_text o))) opts e q w in
   (exists r, body_refused (mount_body_size opts) q r /\ serve = Some (r, w)) \/
   exists req x, (forall k, hm_get (headers req) k = field k (q_fields q)) /\
     guarded o req w (inner opts e None) x /\ serve = Axum.finish x) /\
  (let serve := Actix.serve valid_header parse_uri error_json
                  (service (handler (new_actix default_store uuid now error_code error_text o))) opts e q w in
   (exists r, body_refused (mount_body_size opts) q r /\ serve = Some (Actix.plain r, w)) \/
   exists req x, (forall k, hm_get (headers req) k = field k (reverse (filter (fun kv => valid_header kv.1 kv.2 = true) (q_fields q)))) /\
     guarded o req w (inner opts e None) x /\ serve = Actix.finish error_json x).
Proof.
  intros Ha Hh opts.
  assert (He : forall h, is_Some (mcp_entry (service h) opts e)) by (intros h; destruct e; try done; by eexists).
  split; cbv zeta.
  - destruct (He (handler (new_axum default_store uuid now error_code error_text o))) as [entry E].
    destruct (axum_serve_cases _ _ _ _ q w E) as [?|(m & body & ->)]; [by left|right].
    eexists _, _. split; [intros k; apply (axum_header m q body)|]. split; [by eapply entry_guarded|done].
  - destruct (He (handler (new_actix default_store uuid now error_code error_text o))) as [entry E].
    destruct (actix_serve_cases valid_header parse_uri error_json _ _ _ _ q w E) as [?|(body & ->)]; [by left|right].
    eexists _, _. split; [intros k; apply (actix_header valid_header parse_uri q body)|]. split; [by eapply entry_guarded|done].
  Unshelve. all: first [exact None|exact default_status].
Qed.
End Claims.

(** *** Traffic to sessions *)

Module RuntimeFacts.
Section Facts.
Context {Extra Details Tr St G : Type} `{!SessionStore nat St} `{!SessionStoreLaws nat St}.
Abbreviation World := (McpAppState.t Extra Details Tr St G).
Abbreviation session := (ServerRuntime.state Extra Details Tr).
Context (now : N) (no_session : str -> McpSdkError).

Lemma lookup_spec id (w : World) : valid (session_store w) ->
  exists w', HttpServerRuntime.lookup now id w = (Ok (holds (session_store w) id), w') /\ HttpHandlerFacts.same_sessions w w'.
Proof.
  intros Hv. unfold HttpServerRuntime.lookup. destruct (get_law now (session_store w) id Hv) as (G1 & G2 & G3).
  destruct (get now (session_store w) id) as [o st]. simpl in *. subst o. eexists. split; [done|]. by exists st.
Qed.

(** Only runtime [i] may differ. *)
Definition only_runtime (i : option nat) (w w' : World) : Prop :=
  valid (session_store w') /\ (forall k, holds (session_store w') k = holds (session_store w) k) /\
  forall j, Some j <> i -> runtimes w' !! j = runtimes w !! j.
Lemma only_runtime_refl i w : valid (session_store w) -> only_runtime i w w.
Proof. by intros Hv. Qed.
Lemma only_same i w w' : HttpHandlerFacts.same_sessions w w' -> only_runtime i w w'.
Proof. intros (st & -> & Hv & Hh). by split_and!. Qed.
Lemma only_on_runtime {A} i (f : Act session McpSdkError A) (w w' : World) :
  only_runtime (Some i) w w' -> only_runtime (Some i) w (on_runtime i f w').2.
Proof.
  intros (Hv & Hh & Hr). unfold on_runtime. destruct (runtimes w' !! i) as [r|]; [|done]. destruct (f _) as [a s]. simpl.
  split_and!; [done..|]. intros j Hj. simpl. rewrite list_lookup_insert_ne by congruence. by apply Hr.
Qed.

Lemma on_session_spec {A} id (f : Act session McpSdkError A) (w : World) : valid (session_store w) ->
  match holds (session_store w) id with
  | None => exists w', HttpServerRuntime.on_session now no_session id f w = (Err (no_session id), w') /\ HttpHandlerFacts.same_sessions w w'
  | Some i => exists w1, HttpHandlerFacts.same_sessions w w1 /\ HttpServerRuntime.on_session now no_session id f w = on_runtime i f w1
  end.
Proof.
  intros Hv. unfold HttpServerRuntime.on_session, HttpServerRuntime.runtime_by_session, act_bind.
  destruct (lookup_spec id w Hv) as (w' & E & Hs). rewrite E. destruct (holds _ _); by exists w'.
Qed.
End Facts.
End RuntimeFacts.
Import RuntimeFacts.

Section Traffic.
Context {Extra Details Tr St G : Type} `{!SessionStore nat St} `{!SessionStoreLaws nat St}.
Abbreviation World := (McpAppState.t Extra Details Tr St G).
Abbreviation session := (ServerRuntime.state Extra Details Tr).
Context (now : N) (no_session : str -> McpSdkError).
Context {RequestId Params Value R M Meta Status Store : Type} `{!Results Value R} `{!Received RequestId R M}.
Context `{!TaskStoreOps (RequestId * FromServer.request * Params) R Meta Status Store}.
Context (send_request : FromServer.request -> Params -> option N -> Act session McpSdkError (option M)).
Context (send : FromServer.notification -> Params -> Act session McpSdkError unit).
Context (is_task_augmented : FromServer.request -> Params -> bool) (as_create_task : R -> option (CreatedTask Meta)).
Context (client_task_store : session -> option Store) (set_client_task_store : Store -> session -> session).
Context (session_id : session -> option str).
Context (task_id_params : str -> Params) (task_status : Value -> Status) (task_poll_interval : Value -> option Z).
Context (is_terminal : Value -> bool).
Abbreviation poll := (HttpServerRuntime.task_poller_callback now send_request is_task_augmented as_create_task client_task_store
  set_client_task_store session_id task_id_params task_status task_poll_interval is_terminal).

(** What a server sends of its own accord: a call through its runtime, the
    polling of a task, the notification of a task's status. *)
Inductive traffic :=
| Call {A : Type} (id : str) (f : Act session McpSdkError A)
| Poll (task_id : str) (se : option str)
| Notify (p : Params) (se : option str).
Definition named (t : traffic) : option str := match t with Call id _ => Some id | Poll _ se => se | Notify _ se => se end.
Definition sent (w : World) (t : traffic) : World :=
  match t with
  | Call id f => (HttpServerRuntime.on_session now no_session id f w).2
  | Poll task_id se => (poll task_id se w).2
  | Notify p se => HttpServerRuntime.forward now send w (p, se)
  end.

Lemma sent_only w t : valid (session_store w) -> only_runtime (named t ≫= holds (session_store w)) w (sent w t).
Proof.
  intros Hv. destruct t as [A id f|task_id [id|]|p [id|]]; cbn [named sent mbind option_bind]; try by apply only_runtime_refl.
  - pose proof (on_session_spec now no_session id f w Hv) as S. destruct (holds _ id) as [i|].
    + destruct S as (w1 & Hs & ->). by apply only_on_runtime, only_same.
    + destruct S as (w1 & -> & Hs). by apply only_same.
  - unfold HttpServerRuntime.task_poller_callback, act_bind. destruct (lookup_spec now id w Hv) as (w1 & E & Hs). rewrite E.
    destruct (holds _ id) as [i|]; [by apply only_on_runtime, only_same|by apply only_same].
  - unfold HttpServerRuntime.forward. cbn [fst snd]. destruct (lookup_spec now id w Hv) as (w1 & E & Hs). rewrite E.
    destruct (holds _ id) as [i|]; [by apply only_on_runtime, only_same|by apply only_same].
Qed.

(** C22. What a server sends to a session goes through that session's runtime
    and no other.  A call has the outcome of the method on the runtime the store
    holds; for a session that is not there it fails with the error that says so,
    and so does the polling of a task without a live session, which asks
    nobody.  However calls, task polls and forwarded status notifications
    follow each other, the sessions stay the same, and a runtime whose session
    none of them names is left as it was. *)
Theorem session_traffic_confined (w : World) (ts : list traffic) : valid (session_store w) ->
  (forall (A : Type) (id : str) (f : Act session McpSdkError A),
     match holds (session_store w) id with
     | Some i => exists w1, HttpHandlerFacts.same_sessions w w1 /\ HttpServerRuntime.on_session now no_session id f w = on_runtime i f w1
     | None => (HttpServerRuntime.on_session now no_session id f w).1 = Err (no_session id)
     end) /\
  (forall (task_id : str) (se : option str), se ≫= holds (session_store w) = None ->
     exists why w1, poll task_id se w = (Err (HttpServerRuntime.invalid why), w1) /\ runtimes w1 = runtimes w /\ transports w1 = transports w) /\
  let w' := foldl sent w ts in
  valid (session_store w') /\ (forall k, holds (session_store w') k = holds (session_store w) k) /\
  forall j, (forall t id, t ∈ ts -> named t = Some id -> holds (session_store w) id <> Some j) -> runtimes w' !! j = runtimes w !! j.
Proof.
  intros Hv. split_and!.
  - intros A id f. pose proof (on_session_spec now no_session id f w Hv) as S. destruct (holds _ id); [done|].
    by destruct S as (w1 & -> & _).
  - intros task_id [id|] Hse; [|by eexists _, w]. unfold HttpServerRuntime.task_poller_callback, act_bind.
    destruct (lookup_spec now id w Hv) as (w1 & E & st & -> & _). rewrite E. simpl in Hse. rewrite Hse. by eexists _, _.
  - revert w Hv. induction ts as [|t ts IH]; intros w Hv; [done|]. cbn [foldl]. cbv zeta in *.
    destruct (sent_only w t Hv) as (Hv' & Hh & Hr). destruct (IH (sent w t) Hv') as (? & Hh' & Hr').
    split_and!; [done|intros k; by rewrite Hh'|]. intros j Hj. rewrite Hr'.
    + apply Hr. destruct (named t) as [id|] eqn:En; [|done]. simpl. intros E. by apply (Hj t id); [left| |].
    + intros t' id Ht Hn. rewrite Hh. apply (Hj t' id); [by right|done].
Qed.
End Traffic.

(** ** Examples *)

Module ServerDemo.
Import ServerRuntime.Demo HttpHandler.Demo AdapterDemo.
Abbreviation options := (ServerOptions FieldList.t unit world (InMemorySessionStore.t nat) FastIdGenerator.t).
(** A provider that knows one token. *)
Definition provider : Provider FieldList.t unit world :=
  mkProvider FieldList.t unit world
    (Http.mkProvider world (fun token w => Some (if bool_decide (token = s! "t1")
       then Ok (mkAuthInfo token None None None (Some 100%N) None None) else Err InactiveToken, w)) None None)
    (Some [s! "/.well-known/oauth-protected-resource"]) (fun _ w => Some (Ok (build_response 200 []), w)).
Definition with_auth (a : option (Provider FieldList.t unit world)) (host : str) (sse ssl : bool) : options :=
  mkOptions host 8080 None None false None None None ssl (Some (s! "cert")) (Some (s! "key")) (mkDnsOptions true None None) sse None None a None None.
Definition server_of : options -> Server := new_axum (session_store demo) (id_generator demo) 5 (fun _ => []) (fun _ => []).
Definition actix_of : options -> Server := new_actix (session_store demo) (id_generator demo) 5 (fun _ => []) (fun _ => []).
Definition service_of (h : HandlerService.t FieldList.t unit unit transport (InMemorySessionStore.t nat) FastIdGenerator.t)
  : Service FieldList.t unit world :=
  HandlerService.service 5 encode parse_value parse_messages (fun _ => true) (fun _ => Ok tt) (fun _ => []) new_transport
    (fun w => w) (fun _ w => (None, w)) [] h.
Definition local : str := s! "localhost".
Definition get (fields : list (str * bytes)) : HttpRequest := mkHttp GET (s! "/sse") None fields [].
Definition ask (s : Server) (q : HttpRequest) : option (Response FieldList.t * world) :=
  Axum.serve (service_of (handler s)) (resolve_mount_options (HttpServers.options s)) ESse q (state s).

(** Without the crate's feature [ssl], actix serves a server configured for
    encryption in the clear; axum panics. *)
Lemma actix_silent_plaintext resolve parse show load addr : resolve local 8080%N = Ok [addr] ->
  open_actix (Addr := nat) resolve load (fun _ => None) false (with_auth None local true true) = Ok (Plain addr) /\
  open_axum (Addr := nat) (fun _ => true) resolve parse show load (fun _ => None) false (with_auth None local true true) = Ok None.
Proof.
  intros E. unfold open_actix, open_axum, resolve_server_address_actix, resolve_server_address_axum.
  change (strip_scheme (host (with_auth None local true true))) with local.
  change (port (with_auth None local true true)) with 8080%N. by rewrite E.
Qed.

(** A certificate and a key in one line each. *)
Definition open_pem (path : str) : result str str :=
  if bool_decide (path ∈ [s! "cert"; s! "key"]) then Ok path else Err (s! "No such file or directory (os error 2)").
Definition demo_tls : str -> str -> option str :=
  rustls_error open_pem (fun pem => [Ok pem]) (fun pem => Ok (if bool_decide (pem = s! "key") then Some pem else None))
    (fun cs key => Ok (cs, key)).
Lemma actix_encrypted_witness :
  let o := with_auth None local true true in
  (exists config, load_rustls_config open_pem (fun pem => [Ok pem])
     (fun pem => Ok (if bool_decide (pem = s! "key") then Some pem else None)) (fun cs key => Ok (cs, key)) (s! "cert") (s! "key") = Ok config) /\
  exists cert_path, ssl_cert_path o = Some cert_path /\ open_pem cert_path = Ok cert_path /\
  open_actix (fun _ _ => Ok [7]) demo_tls (fun _ => None) true o = Ok (Tls 7) /\
  demo_tls (s! "cert") (s! "cert") = Some (s! "no private key found").
Proof.
  cbn zeta. split; [by eexists|].
  destruct (actix_encrypted (fun _ _ => Ok [7]) open_pem (fun pem => [Ok pem])
    (fun pem => Ok (if bool_decide (pem = s! "key") then Some pem else None)) (fun cs key => Ok (cs, key))
    (fun _ => None) (with_auth None local true true) (Tls 7) eq_refl) as (cert_path & _ & _ & _ & pem & _ & _ & _ & _ & Hc & _).
  { by vm_compute. }
  exists cert_path. simplify_eq/=. split_and!; by vm_compute.
Defined.

(** The provider's endpoints, to which the challenges point, are mounted by
    axum's server but not by actix's. *)
Lemma actix_auth_endpoints_missing :
  let o := with_auth (Some provider) local true false in
  mkRoute (s! "/.well-known/oauth-protected-resource") None EAuth
    ∈ Axum.mcp_routes (service_of (handler (server_of o))) (resolve_mount_options o) /\
  Forall (fun rt => endpoint rt <> EAuth) (Actix.mcp_scope (service_of (handler (actix_of o))) (resolve_mount_options o)).
Proof. split; decided. Qed.

(** [sse_support] leaves the SSE endpoints mounted. *)
Lemma sse_mounted_without_support :
  let o := with_auth None local false false in
  mkRoute (s! "/sse") (Some GET) ESse ∈ Axum.mcp_routes (service_of (handler (server_of o))) (resolve_mount_options o) /\
  mkRoute (s! "/sse") (Some GET) ESse ∈ Actix.mcp_scope (service_of (handler (actix_of o))) (resolve_mount_options o).
Proof. split; decided. Qed.

(** A host with a scheme, which [resolve_server_address] strips, makes the
    default protection refuse the server's own address. *)
Lemma scheme_in_host_refuses :
  let answer host := ask (server_of (with_auth None host true false)) (get [(HOST, s! "localhost:8080")]) in
  (exists r w, answer local = Some (r, w) /\ status r = 200%N) /\
  (exists r w, answer (s! "http://localhost") = Some (r, w) /\ status r = 403%N) /\
  strip_scheme (s! "http://localhost") = local.
Proof. split_and!; [eexists _, _; split; vm_compute; reflexivity..|reflexivity]. Qed.
End ServerDemo.
Import ServerRuntime.Demo HttpHandler.Demo AdapterDemo ServerDemo.

Lemma endpoints_guarded_witness :
  let o := with_auth (Some provider) local true false in
  exists req x, hm_get (headers req) HOST = Some (s! "localhost:8080") /\
    GuardFacts.guarded 5 (fun _ => []) (fun _ => []) o req (state (server_of o))
      (GuardFacts.inner 5 encode parse_value parse_messages (fun _ => true) (fun _ => Ok tt) (fun _ => []) new_transport
         (fun w => w) (fun _ w => (None, w)) (resolve_mount_options o) ESse None) x /\
    status <$> (fst <$> Axum.finish x) = Some 401%N.
Proof.
  intros o.
  destruct (proj1 (endpoints_guarded 5 encode parse_value parse_messages (fun _ => true) (fun _ => Ok tt) (fun _ => []) new_transport
    (fun w => w) (fun _ w => (None, w)) [] (fun _ => []) (fun _ => []) (session_store demo) (id_generator demo) all_valid no_query json
    o ESse (get [(HOST, s! "localhost:8080")]) (state (server_of o)) ltac:(discriminate) ltac:(discriminate)))
    as [(r & [E|[E|[E|(b & Eb & E & _)]]] & _)|(req & x & Hreq & Hx & E)]; try (exfalso; vm_compute in E; discriminate).
  - exfalso. vm_compute in Eb. injection Eb as <-. vm_compute in E. discriminate.
  - exists req, x. split; [rewrite Hreq; reflexivity|]. split; [exact Hx|]. rewrite <- E. vm_compute. reflexivity.
Defined.

(** Two sessions; what is said to one leaves the other alone. *)
Definition two_sessions : world :=
  McpAppState.mk (InMemorySessionStore.set_session hash 5 (session_store demo) (s! "s2") 1) (id_generator demo) (stream_id_gen demo)
    false true [ServerRuntime.new_instance (s! "s1") None; ServerRuntime.new_instance (s! "s2") None] [] [].
Lemma two_sessions_valid : valid (session_store two_sessions).
Proof. reflexivity. Qed.
#[local] Instance no_tasks : TaskStoreOps (N * FromServer.request * str) RequestsDemo.R unit unit nat :=
  {| ts_create_task := fun _ _ _ _ _ n => ([], S n); ts_store_task_result := fun _ _ _ _ n => n |}.

#[local] Existing Instances RequestsDemo.results RequestsDemo.received.
Abbreviation demo_session := (ServerRuntime.state unit unit transport).
Definition no_request : FromServer.request -> str -> option N -> Act demo_session McpSdkError (option RequestsDemo.Out) := fun _ _ _ => act_ret None.
Definition mark : FromServer.notification -> str -> Act demo_session McpSdkError unit :=
  fun _ _ s => (Ok tt, ServerRuntime.with_rt (ServerRuntime.set_map (Some 7) true) s).
Definition quiet : list (traffic (Extra := unit) (Details := unit) (Tr := transport) (Params := str)) :=
  [Call (s! "s1") (fun s => (Ok tt, ServerRuntime.shutdown s)); Notify (s! "working") (Some (s! "s1")); Poll (s! "t1") None].
Abbreviation demo_sent := (sent 5 HttpServerRuntime.no_session_actix no_request mark (fun _ _ => false) (fun _ => None)
  (fun _ => None) (fun (_ : nat) s => s) (fun _ => None) (fun id => id) (fun _ => tt) (fun _ => None) (fun _ => true)).

Lemma session_traffic_confined_witness :
  (foldl demo_sent two_sessions quiet).(runtimes) !! 1 = Some (ServerRuntime.new_instance (s! "s2") None) /\
  ServerRuntime.transport_map <$> (foldl demo_sent two_sessions quiet).(runtimes) !! 0 = Some (Some 7).
Proof.
  split; [|vm_compute; reflexivity].
  destruct (session_traffic_confined 5 HttpServerRuntime.no_session_actix no_request mark (fun _ _ => false) (fun _ => None)
    (fun _ => None) (fun (_ : nat) s => s) (fun _ => None) (fun id => id) (fun _ => tt) (fun _ => None) (fun _ => true)
    two_sessions quiet two_sessions_valid) as (_ & _ & _ & _ & Hr).
  rewrite (Hr 1); [reflexivity|]. intros t id Ht Hn.
  repeat (apply elem_of_cons in Ht as [->|Ht]; [cbn in Hn; try discriminate Hn; injection Hn as <-; vm_compute; discriminate|]).
  by apply elem_of_nil in Ht.
Defined.
