(* ===== verification/HttpRuntimes.v ===== *)
(** * The runtimes of the two HTTP servers

    Models crates/rust-mcp-actix/src/runtime.rs, what
    crates/rust-mcp-axum/src/runtime.rs adds to [HttpServers.HttpServerRuntime]
    (creation, shutdown, the deprecated names), and the interface both
    implement, crates/rust-mcp-sdk/src/mcp_traits/mcp_http_server.rs.

    A runtime is a listener and the tasks it was created with; the sessions are
    in the shared state.  The polling of a task store is a parameter, and so is
    the joined result of the listener's task. *)
From S2P Require Import Prelude RustStr EventStore SessionStore IdGen Dispatcher Auth TaskStore ServerRuntime Requests Http HttpHandler HttpAnswers Adapters HttpServers.
Import McpAppState HttpServerRuntime.

(** ** Creation and shutdown *)

Section Create.
Context {H Extra W St G : Type}.
Abbreviation Options := (ServerOptions H Extra W St G).
Context (is_file : str -> bool) {Addr : Type} (to_socket_addrs : str -> N -> result (list Addr) str)
  (parse_addr : str -> result Addr str) (show_addr : Addr -> str) (load_tls : str -> str -> option str)
  (listen : Socket (Addr := Addr) -> option str) (error_text : AuthenticationError -> str) (ssl_feature : bool).
(** The store of the tasks the server asked for: [start_task_polling]. *)
Context {P : Type} (start_task_polling : P -> result unit McpSdkError * P).

(** What a server started: the listener, with how it ends, the task that
    forwards status notifications, the polling of the client's tasks. *)
Inductive Started :=
| Listener (ends : option (result (Socket (Addr := Addr)) Axum.TransportServerError))
| Forwarding
| Polling.
(** [task_store.subscribe()] of the server's task store, if there is one. *)
Definition forwarding (task_store : option bool) : list Started :=
  match task_store with Some true => [Forwarding] | _ => [] end.
(** The result, everything started, and the store of the client's tasks. *)
Abbreviation Created := (result unit McpSdkError * list Started * option P)%type.

Definition create_axum (o : Options) (task_store : option bool) (client_task_store : option P) : Created :=
  match open_axum is_file to_socket_addrs parse_addr show_addr load_tls listen ssl_feature o with
  | Err e => (Err (Axum.to_sdk_error error_text e), [], client_task_store)
  | Ok server_task =>
      let tasks := Listener server_task :: forwarding task_store in
      match client_task_store with
      | None => (Ok tt, tasks, None)
      | Some store =>
          match start_task_polling store with
          | (Ok _, store) => (Ok tt, tasks ++ [Polling], Some store)
          | (Err e, store) => (Err e, tasks, Some store)
          end
      end
  end.
Definition create_actix (o : Options) (task_store : option bool) (client_task_store : option P) : Created :=
  match open_actix to_socket_addrs load_tls listen ssl_feature o with
  | Err e => (Err (EInternal e), [], client_task_store)
  | Ok socket =>
      let tasks := Listener (Some (Ok socket)) :: forwarding task_store in
      match client_task_store with
      | None => (Ok tt, tasks, None)
      | Some store =>
          match start_task_polling store with
          | (Ok _, store) => (Ok tt, tasks ++ [Polling], Some store)
          | (Err _, store) => (Ok tt, tasks, Some store)
          end
      end
  end.

(** [await_server]: the joined task of the listener. *)
Definition await_axum (joined : result (result unit Axum.TransportServerError) str) : result unit McpSdkError :=
  match joined with
  | Err e => Err (EJoin e)
  | Ok (Err e) => Err (Axum.to_sdk_error error_text e)
  | Ok (Ok _) => Ok tt
  end.
Definition await_actix (joined : result (result unit str) str) : result unit McpSdkError :=
  match joined with
  | Err e => Err (EInternal e)
  | Ok (Err e) => Err (EInternal e)
  | Ok (Ok _) => Ok tt
  end.

(** [start]: create, then await.  axum's task ends as [open_axum] says, or
    panics; how actix's ends is a parameter. *)
Definition joined (join_error : str) (started : list Started) : result (result unit Axum.TransportServerError) str :=
  match started with
  | Listener (Some (Ok _)) :: _ => Ok (Ok tt)
  | Listener (Some (Err e)) :: _ => Ok (Err e)
  | _ => Err join_error
  end.
Definition start_axum (join_error : str) (o : Options) task_store client_task_store : result unit McpSdkError :=
  match create_axum o task_store client_task_store with
  | (Err e, _, _) => Err e
  | (Ok _, started, _) => await_axum (joined join_error started)
  end.
Definition start_actix (served : result (result unit str) str) (o : Options) task_store client_task_store : result unit McpSdkError :=
  match create_actix o task_store client_task_store with
  | (Err e, _, _) => Err e
  | (Ok _, _, _) => await_actix served
  end.
End Create.

(** The handle of a listener: the stops asked of it, each with the time it
    leaves to the requests in flight. *)
Definition Handle : Type := list (option N).
Definition graceful_shutdown_axum (timeout : option N) (h : Handle) : Handle := h ++ [timeout].
Definition graceful_shutdown_actix (_timeout : option N) (h : Handle) : Handle := h ++ [None].

(** ** The interface the two share *)

(** [trait McpHttpServer], on the state of the server. *)
Class McpHttpServer (World : Type) := {
  graceful_shutdown : Handle -> Handle;
  http_sessions : World -> list str;
  http_runtime_by_session : str -> Act World McpSdkError nat;
}.

(** ** Calls through a session *)


Module ActixRuntime.
Section Runtimes.
Context {Extra Details Tr St G : Type} `{!SessionStore nat St}.
Abbreviation World := (McpAppState.t Extra Details Tr St G).
Abbreviation session := (ServerRuntime.state Extra Details Tr).
Abbreviation SdkResult := (Act World McpSdkError).
Context (now : N).
Context {RequestId Params Value R M Meta Status Store : Type} `{!Results Value R} `{!Received RequestId R M}.
Context `{!TaskStoreOps (RequestId * FromServer.request * Params) R Meta Status Store}.
Context (send_request : FromServer.request -> Params -> option N -> Act session McpSdkError (option M)).
Context (send : FromServer.notification -> Params -> Act session McpSdkError unit).
Context (is_task_augmented : FromServer.request -> Params -> bool) (as_create_task : R -> option (CreatedTask Meta)).
Context (client_task_store : session -> option Store) (set_client_task_store : Store -> session -> session).
Context (session_id : session -> option str).
Context (task_id_params : str -> Params) (task_status : Value -> Status) (task_poll_interval : Value -> option Z).
Context (is_terminal : Value -> bool).
Abbreviation asked m := (m send_request is_task_augmented as_create_task client_task_store set_client_task_store session_id).

Abbreviation on_session := (HttpServerRuntime.on_session now no_session_actix).

Definition sessions (w : World) : list str := keys (session_store w).
Definition runtime_by_session (id : str) : SdkResult nat := HttpServerRuntime.runtime_by_session now no_session_actix id.
Definition send_request_to (id : str) (k : FromServer.request) (p : Params) (timeout : option N) : SdkResult R :=
  on_session id (asked McpServer.request k p timeout).
Definition send_notification (id : str) (n : FromServer.notification) (p : Params) : SdkResult unit :=
  on_session id (McpServer.send_notification send n p).
Definition client_info (id : str) : SdkResult (option Details) :=
  on_session id (fun s => (Ok (ServerRuntime.client_details (ServerRuntime.rt s)), s)).
Definition request_elicitation (id : str) (p : Params) : SdkResult Value := on_session id (asked McpServer.request_elicitation p).
Definition request_root_list (id : str) (p : Params) : SdkResult Value := on_session id (asked McpServer.request_root_list p).
Definition ping (id : str) (p : Params) (timeout : option N) : SdkResult Value := on_session id (asked McpServer.ping p timeout).
Definition request_message_creation (id : str) (p : Params) : SdkResult Value := on_session id (asked McpServer.request_message_creation p).
Definition request_get_task (id : str) (p : Params) : SdkResult Value := on_session id (asked McpServer.request_get_task p).
Definition request_custom (id : str) (p : Params) : SdkResult Value := on_session id (asked McpServer.request_custom p).
Definition notify_log_message (id : str) (p : Params) : SdkResult unit := on_session id (McpServer.notify_log_message send p).
Definition notify_tool_list_changed (id : str) (p : Params) : SdkResult unit := on_session id (McpServer.notify_tool_list_changed send p).
Definition notify_resource_updated (id : str) (p : Params) : SdkResult unit := on_session id (McpServer.notify_resource_updated send p).
Definition notify_resource_list_changed (id : str) (p : Params) : SdkResult unit := on_session id (McpServer.notify_resource_list_changed send p).
Definition notify_prompt_list_changed (id : str) (p : Params) : SdkResult unit := on_session id (McpServer.notify_prompt_list_changed send p).
Definition notify_task_status (id : str) (p : Params) : SdkResult unit := on_session id (McpServer.notify_task_status send p).
Definition notify_cancellation (id : str) (p : Params) : SdkResult unit := on_session id (McpServer.notify_cancellation send p).
Definition notify_progress (id : str) (p : Params) : SdkResult unit := on_session id (McpServer.notify_progress send p).
Definition notify_elicitation_completed (id : str) (p : Params) : SdkResult unit := on_session id (McpServer.notify_elicitation_completed send p).
Definition notify_custom (id : str) (p : Params) : SdkResult unit := on_session id (McpServer.notify_custom send p).
Definition request_elicitation_task (id : str) (p : Params) : SdkResult Value := on_session id (asked McpServer.request_elicitation_task p).
Definition request_get_task_payload (id : str) (p : Params) : SdkResult Value := on_session id (asked McpServer.request_get_task_payload p).
Definition request_task_cancellation (id : str) (p : Params) : SdkResult Value := on_session id (asked McpServer.request_task_cancellation p).

(** The deprecated names *)
Definition list_roots (id : str) (p : Params) : SdkResult Value := request_root_list id p.
Definition elicit_input (id : str) (p : Params) : SdkResult Value := request_elicitation id p.
Definition create_message (id : str) (p : Params) : SdkResult Value := request_message_creation id p.
Definition send_tool_list_changed (id : str) (p : Params) : SdkResult unit := notify_tool_list_changed id p.
Definition send_resource_updated (id : str) (p : Params) : SdkResult unit := notify_resource_updated id p.
Definition send_resource_list_changed (id : str) (p : Params) : SdkResult unit := notify_resource_list_changed id p.
Definition send_prompt_list_changed (id : str) (p : Params) : SdkResult unit := notify_prompt_list_changed id p.
Definition send_logging_message (id : str) (p : Params) : SdkResult unit := notify_log_message id p.

Definition task_poller_callback (task_id : str) (session : option str) : SdkResult (Status * option Z) :=
  match session with
  | None => act_fail (invalid (s! "No session id provided!"))
  | Some id =>
      do o <- lookup now id;
      match o with
      | None => act_fail (invalid (s! "Invalid or broken session!"))
      | Some runtime =>
          on_runtime runtime (asked McpServer.poll_task_status task_id_params task_status task_poll_interval is_terminal task_id (Some id))
      end
  end.
(** The task that forwards the status notifications of the task store. *)
Definition forward (w : World) (item : Params * option str) : World :=
  match item.2 with
  | None => w
  | Some id =>
      match lookup now id w with
      | (Ok (Some transport), w) => (on_runtime transport (McpServer.notify_task_status send item.1) w).2
      | (_, w) => w
      end
  end.
#[global] Instance http_server : McpHttpServer World :=
  { graceful_shutdown := graceful_shutdown_actix None; http_sessions := sessions; http_runtime_by_session := runtime_by_session }.
End Runtimes.
End ActixRuntime.

(** The methods that are not in [HttpServers.HttpServerRuntime]. *)
Module AxumRuntime.
Section Runtimes.
Context {Extra Details Tr St G : Type} `{!SessionStore nat St}.
Abbreviation World := (McpAppState.t Extra Details Tr St G).
Abbreviation session := (ServerRuntime.state Extra Details Tr).
Abbreviation SdkResult := (Act World McpSdkError).
Context (now : N) (error_text : AuthenticationError -> str).
Context {RequestId Params Value R M Meta Status Store : Type} `{!Results Value R} `{!Received RequestId R M}.
Context `{!TaskStoreOps (RequestId * FromServer.request * Params) R Meta Status Store}.
Context (send_request : FromServer.request -> Params -> option N -> Act session McpSdkError (option M)).
Context (send : FromServer.notification -> Params -> Act session McpSdkError unit).
Context (is_task_augmented : FromServer.request -> Params -> bool) (as_create_task : R -> option (CreatedTask Meta)).
Context (client_task_store : session -> option Store) (set_client_task_store : Store -> session -> session).
Context (session_id : session -> option str).
Abbreviation asked m := (m send_request is_task_augmented as_create_task client_task_store set_client_task_store session_id).
Abbreviation on_session := (HttpServerRuntime.on_session now (no_session_axum error_text)).
(** The deprecated names *)
Definition list_roots (id : str) (p : Params) : SdkResult Value := on_session id (asked McpServer.request_root_list p).
Definition elicit_input (id : str) (p : Params) : SdkResult Value := on_session id (asked McpServer.request_elicitation p).
Definition create_message (id : str) (p : Params) : SdkResult Value := on_session id (asked McpServer.request_message_creation p).
Definition send_tool_list_changed (id : str) (p : Params) : SdkResult unit := on_session id (McpServer.notify_tool_list_changed send p).
Definition send_resource_updated (id : str) (p : Params) : SdkResult unit := on_session id (McpServer.notify_resource_updated send p).
Definition send_resource_list_changed (id : str) (p : Params) : SdkResult unit := on_session id (McpServer.notify_resource_list_changed send p).
Definition send_prompt_list_changed (id : str) (p : Params) : SdkResult unit := on_session id (McpServer.notify_prompt_list_changed send p).
Definition send_logging_message (id : str) (p : Params) : SdkResult unit := on_session id (McpServer.notify_log_message send p).
Definition runtime_by_session (id : str) : SdkResult nat := HttpServerRuntime.runtime_by_session now (no_session_axum error_text) id.
#[global] Instance http_server : McpHttpServer World :=
  { graceful_shutdown := graceful_shutdown_axum None; http_sessions := HttpServerRuntime.sessions; http_runtime_by_session := runtime_by_session }.
End Runtimes.
End AxumRuntime.


(** ** Facts *)

Section Facts.
Context {Extra Details Tr St G : Type} `{!SessionStore nat St}.
Abbreviation World := (McpAppState.t Extra Details Tr St G).
Abbreviation session := (ServerRuntime.state Extra Details Tr).
Abbreviation SdkResult := (Act World McpSdkError).
Context `{!SessionStoreLaws nat St}.
Context (now : N) (error_text : AuthenticationError -> str).
Context {RequestId Params Value R M Meta Status Store : Type} `{!Results Value R} `{!Received RequestId R M}.
Context `{!TaskStoreOps (RequestId * FromServer.request * Params) R Meta Status Store}.
Context (send_request : FromServer.request -> Params -> option N -> Act session McpSdkError (option M)).
Context (send : FromServer.notification -> Params -> Act session McpSdkError unit).
Context (is_task_augmented : FromServer.request -> Params -> bool) (as_create_task : R -> option (CreatedTask Meta)).
Context (client_task_store : session -> option Store) (set_client_task_store : Store -> session -> session).
Context (session_id : session -> option str).
Context (task_id_params : str -> Params) (task_status : Value -> Status) (task_poll_interval : Value -> option Z).
Context (is_terminal : Value -> bool).
Abbreviation asked m := (m send_request is_task_augmented as_create_task client_task_store set_client_task_store session_id).

(** The same outcome, but for the text of the error of an unknown session. *)
Definition agree {A} (id : str) (axum actix : result A McpSdkError * World) : Prop :=
  axum = actix \/
  exists w', axum = (Err (no_session_axum error_text id), w') /\ actix = (Err (no_session_actix id), w').
Lemma on_session_agree {A} id (f : Act session McpSdkError A) (w : World) :
  agree id (on_session now (no_session_axum error_text) id f w) (on_session now no_session_actix id f w).
Proof.
  unfold agree, on_session, HttpServerRuntime.runtime_by_session, lookup, act_bind.
  destruct (get now (session_store w) id) as [[i|] st]; [by left|right; by eexists].
Qed.

Abbreviation axum m := (m _ _ _ _ _ _ now _ _ _ _ _ _ _ _ _ _ _ send_request is_task_augmented as_create_task client_task_store
  set_client_task_store session_id (no_session_axum error_text)).
Abbreviation actix m := (m _ _ _ _ _ _ now _ _ _ _ _ _ _ _ _ _ _ send_request is_task_augmented as_create_task client_task_store
  set_client_task_store session_id).
Abbreviation axum_old m := (m _ _ _ _ _ _ now error_text _ _ _ _ _ _ _ _ _ _ _ send_request is_task_augmented as_create_task
  client_task_store set_client_task_store session_id).

(** Every call of the two runtimes agrees, whatever the state. *)
Theorem http_requests_agree (id : str) (p : Params) (timeout : option N) (k : FromServer.request) (w : World) :
  agree id (HttpServerRuntime.send_request_to now send_request is_task_augmented as_create_task client_task_store set_client_task_store session_id
      (no_session_axum error_text) id k p timeout w)
    (ActixRuntime.send_request_to now send_request is_task_augmented as_create_task client_task_store set_client_task_store session_id id k p timeout w) /\
  agree id (axum (@HttpServerRuntime.ping) id p timeout w) (actix (@ActixRuntime.ping) id p timeout w) /\
  agree id (axum (@HttpServerRuntime.request_elicitation) id p w) (actix (@ActixRuntime.request_elicitation) id p w) /\
  agree id (axum (@HttpServerRuntime.request_elicitation_task) id p w) (actix (@ActixRuntime.request_elicitation_task) id p w) /\
  agree id (axum (@HttpServerRuntime.request_root_list) id p w) (actix (@ActixRuntime.request_root_list) id p w) /\
  agree id (axum (@HttpServerRuntime.request_message_creation) id p w) (actix (@ActixRuntime.request_message_creation) id p w) /\
  agree id (axum (@HttpServerRuntime.request_get_task) id p w) (actix (@ActixRuntime.request_get_task) id p w) /\
  agree id (axum (@HttpServerRuntime.request_get_task_payload) id p w) (actix (@ActixRuntime.request_get_task_payload) id p w) /\
  agree id (axum (@HttpServerRuntime.request_task_cancellation) id p w) (actix (@ActixRuntime.request_task_cancellation) id p w) /\
  agree id (axum (@HttpServerRuntime.request_custom) id p w) (actix (@ActixRuntime.request_custom) id p w).
Proof. split_and!; apply on_session_agree. Qed.
Theorem http_notifications_agree (id : str) (p : Params) (n : FromServer.notification) (w : World) :
  agree id (HttpServerRuntime.send_notification now send (no_session_axum error_text) id n p w)
    (ActixRuntime.send_notification now send id n p w) /\
  agree id (HttpServerRuntime.client_info now (no_session_axum error_text) id w) (ActixRuntime.client_info now id w) /\
  agree id (HttpServerRuntime.notify_log_message now send (no_session_axum error_text) id p w)
    (ActixRuntime.notify_log_message now send id p w) /\
  agree id (HttpServerRuntime.notify_prompt_list_changed now send (no_session_axum error_text) id p w)
    (ActixRuntime.notify_prompt_list_changed now send id p w) /\
  agree id (HttpServerRuntime.notify_resource_list_changed now send (no_session_axum error_text) id p w)
    (ActixRuntime.notify_resource_list_changed now send id p w) /\
  agree id (HttpServerRuntime.notify_resource_updated now send (no_session_axum error_text) id p w)
    (ActixRuntime.notify_resource_updated now send id p w) /\
  agree id (HttpServerRuntime.notify_tool_list_changed now send (no_session_axum error_text) id p w)
    (ActixRuntime.notify_tool_list_changed now send id p w) /\
  agree id (HttpServerRuntime.notify_cancellation now send (no_session_axum error_text) id p w)
    (ActixRuntime.notify_cancellation now send id p w) /\
  agree id (HttpServerRuntime.notify_progress now send (no_session_axum error_text) id p w)
    (ActixRuntime.notify_progress now send id p w) /\
  agree id (HttpServerRuntime.notify_task_status now send (no_session_axum error_text) id p w)
    (ActixRuntime.notify_task_status now send id p w) /\
  agree id (HttpServerRuntime.notify_elicitation_completed now send (no_session_axum error_text) id p w)
    (ActixRuntime.notify_elicitation_completed now send id p w) /\
  agree id (HttpServerRuntime.notify_custom now send (no_session_axum error_text) id p w)
    (ActixRuntime.notify_custom now send id p w).
Proof. split_and!; apply on_session_agree. Qed.

(** The deprecated names do what the names that replace them do. *)
Theorem deprecated_names (id : str) (p : Params) (w : World) :
  axum_old (@AxumRuntime.list_roots) id p w =
    axum (@HttpServerRuntime.request_root_list) id p w /\
  actix (@ActixRuntime.list_roots) id p w =
    actix (@ActixRuntime.request_root_list) id p w /\
  axum_old (@AxumRuntime.elicit_input) id p w =
    axum (@HttpServerRuntime.request_elicitation) id p w /\
  actix (@ActixRuntime.elicit_input) id p w =
    actix (@ActixRuntime.request_elicitation) id p w /\
  axum_old (@AxumRuntime.create_message) id p w =
    axum (@HttpServerRuntime.request_message_creation) id p w /\
  actix (@ActixRuntime.create_message) id p w =
    actix (@ActixRuntime.request_message_creation) id p w /\
  AxumRuntime.send_tool_list_changed now error_text send id p w = HttpServerRuntime.notify_tool_list_changed now send (no_session_axum error_text) id p w /\
  ActixRuntime.send_tool_list_changed now send id p w = ActixRuntime.notify_tool_list_changed now send id p w /\
  AxumRuntime.send_resource_updated now error_text send id p w = HttpServerRuntime.notify_resource_updated now send (no_session_axum error_text) id p w /\
  ActixRuntime.send_resource_updated now send id p w = ActixRuntime.notify_resource_updated now send id p w /\
  AxumRuntime.send_resource_list_changed now error_text send id p w = HttpServerRuntime.notify_resource_list_changed now send (no_session_axum error_text) id p w /\
  ActixRuntime.send_resource_list_changed now send id p w = ActixRuntime.notify_resource_list_changed now send id p w /\
  AxumRuntime.send_prompt_list_changed now error_text send id p w = HttpServerRuntime.notify_prompt_list_changed now send (no_session_axum error_text) id p w /\
  ActixRuntime.send_prompt_list_changed now send id p w = ActixRuntime.notify_prompt_list_changed now send id p w /\
  AxumRuntime.send_logging_message now error_text send id p w = HttpServerRuntime.notify_log_message now send (no_session_axum error_text) id p w /\
  ActixRuntime.send_logging_message now send id p w = ActixRuntime.notify_log_message now send id p w.
Proof. by split_and!. Qed.
End Facts.

Section Creation.
Context {H Extra W St G : Type}.
Abbreviation Options := (ServerOptions H Extra W St G).
Context (is_file : str -> bool) {Addr : Type} (to_socket_addrs : str -> N -> result (list Addr) str)
  (parse_addr : str -> result Addr str) (show_addr : Addr -> str) (load_tls : str -> str -> option str)
  (listen : Socket (Addr := Addr) -> option str) (error_text : AuthenticationError -> str) (ssl_feature : bool).
Context {P : Type} (start_task_polling : P -> result unit McpSdkError * P).
Abbreviation axum := (create_axum is_file to_socket_addrs parse_addr show_addr load_tls listen error_text ssl_feature start_task_polling).
Abbreviation actix := (create_actix to_socket_addrs load_tls listen ssl_feature start_task_polling).
Abbreviation opened := (open_axum is_file to_socket_addrs parse_addr show_addr load_tls listen ssl_feature).

(** What a store of the client's tasks adds. *)
Definition polls (cts : option P) : list (Started (Addr := Addr)) :=
  match cts with Some p => match (start_task_polling p).1 with Ok _ => [Polling] | Err _ => [] end | None => [] end.

(** A server whose options are refused, or whose address cannot be resolved,
    starts nothing; otherwise it starts the listener, the forwarding of status
    notifications when its task store can be subscribed to, and the polling of
    the client's tasks when it keeps them and they can be polled. *)
Theorem create_starts (o : Options) task_store cts :
  match opened o with
  | Err e => axum o task_store cts = (Err (Axum.to_sdk_error error_text e), [], cts)
  | Ok ends => (axum o task_store cts).1.2 = [Listener ends] ++ forwarding task_store ++ polls cts
  end /\
  match open_actix to_socket_addrs load_tls listen ssl_feature o with
  | Err e => actix o task_store cts = (Err (EInternal e), [], cts)
  | Ok socket => actix o task_store cts =
      (Ok tt, [Listener (Some (Ok socket))] ++ forwarding task_store ++ polls cts, (fun p => (start_task_polling p).2) <$> cts)
  end.
Proof.
  unfold create_axum, create_actix, polls. split.
  - destruct (open_axum _ _ _ _ _ _ _ _) as [ends|e]; [|done]. destruct cts as [p|]; simpl; [|by rewrite app_nil_r].
    destruct (start_task_polling p) as [[[]|e] p']; simpl; [done|by rewrite app_nil_r].
  - destruct (open_actix _ _ _ _ _) as [socket|e]; [|done]. destruct cts as [p|]; simpl; [|by rewrite app_nil_r].
    destruct (start_task_polling p) as [[[]|e] p']; simpl; [done|by rewrite app_nil_r].
Qed.

(** A store that is polled already: axum's [create] fails, with its listener
    started and nobody left to stop it; actix's succeeds without polling. *)
Theorem polling_refused (o : Options) task_store p e p' ends socket :
  start_task_polling p = (Err e, p') -> opened o = Ok ends -> open_actix to_socket_addrs load_tls listen ssl_feature o = Ok socket ->
  axum o task_store (Some p) = (Err e, Listener ends :: forwarding task_store, Some p') /\
  actix o task_store (Some p) = (Ok tt, Listener (Some (Ok socket)) :: forwarding task_store, Some p').
Proof. intros Hp E1 E2. unfold create_axum, create_actix. by rewrite E1, E2, Hp. Qed.
End Creation.

(** ** What the interface promises *)

Section Interface.
Context {Extra Details Tr St G : Type} `{!SessionStore nat St} `{!SessionStoreLaws nat St}.
Abbreviation World := (McpAppState.t Extra Details Tr St G).

(** A runtime is found for the sessions the store holds, and no others; looking
    leaves the sessions as they are; a stop is asked once, without a limit. *)
Class McpHttpServerLaws `{!McpHttpServer World} : Prop := {
  stop_law h : graceful_shutdown h = h ++ [None];
  sessions_law w : http_sessions w = keys (session_store w);
  runtime_law id (w : World) : valid (session_store w) ->
    exists w', HttpHandlerFacts.same_sessions w w' /\
      match holds (session_store w) id with
      | Some i => http_runtime_by_session id w = (Ok i, w')
      | None => exists description, http_runtime_by_session id w = (Err (EInternal description), w')
      end;
}.
Lemma runtime_laws now no_session id (w : World) : (forall id, exists d, no_session id = EInternal d) -> valid (session_store w) ->
  exists w', HttpHandlerFacts.same_sessions w w' /\
    match holds (session_store w) id with
    | Some i => HttpServerRuntime.runtime_by_session now no_session id w = (Ok i, w')
    | None => exists description, HttpServerRuntime.runtime_by_session now no_session id w = (Err (EInternal description), w')
    end.
Proof.
  intros He Hv. destruct (RuntimeFacts.lookup_spec now id w Hv) as (w' & E & Hs). exists w'. split; [done|].
  unfold HttpServerRuntime.runtime_by_session, act_bind. rewrite E. destruct (holds _ _); [done|].
  destruct (He id) as [d Hd]. exists d. by rewrite <-Hd.
Qed.
#[global] Instance axum_laws now error_text : McpHttpServerLaws (McpHttpServer0 := AxumRuntime.http_server now error_text).
Proof. split; [done..|]. intros id w. apply runtime_laws. intros k. eexists. reflexivity. Qed.
#[global] Instance actix_laws now : McpHttpServerLaws (McpHttpServer0 := ActixRuntime.http_server now).
Proof. split; [done..|]. intros id w. apply runtime_laws. intros k. eexists. reflexivity. Qed.

(** A program written against the interface finds the same runtimes however
    often it has looked sessions up before. *)
Theorem lookups_stable `{!McpHttpServer World} `{!McpHttpServerLaws} (ids : list str) (id : str) (w : World) (i : nat) :
  valid (session_store w) ->
  (http_runtime_by_session id w).1 = Ok i <->
  (http_runtime_by_session id (foldl (fun w id => (http_runtime_by_session id w).2) w ids)).1 = Ok i.
Proof.
  revert w. induction ids as [|k ids IH]; intros w Hv; [done|]. cbn [foldl].
  destruct (runtime_law k w Hv) as (w' & (st & -> & Hv' & Hh) & E).
  assert ((http_runtime_by_session k w).2 = set_store st w) as ->
    by (destruct (holds _ k); [by rewrite E|destruct E as [d E]; by rewrite E]).
  rewrite <-(IH (set_store st w)) by done.
  destruct (runtime_law id w Hv) as (w1 & _ & E1). destruct (runtime_law id (set_store st w) Hv') as (w2 & _ & E2).
  cbn [session_store set_store] in E2. rewrite Hh in E2.
  destruct (holds _ id); [by rewrite E1, E2|destruct E1 as [d1 E1], E2 as [d2 E2]; by rewrite E1, E2].
Qed.
End Interface.
