(* ===== verification/ClientTransports.v ===== *)
(** * The stdio transport and the client's SSE transport

    Models crates/rust-mcp-transport/src/: stdio.rs ([StdioTransport]) and the
    running part of client_sse.rs ([ClientSseTransport]), whose configuration and
    stream are in ClientStream.v.

    Both stop their tasks by a cancellation token; [Stopper] is the source they
    hold, with the tokens their tasks hold.  Starting a process, the pipes it
    has, and when it ends are the operating system's: arguments and steps. *)
From S2P Require Import Prelude RustStr EventStore ClientStream Dispatcher Transport.
Import CancellationToken.

(** ** Stopping *)

Module Stopper.
(** The fields [shutdown_source] and [is_shut_down]; every watch channel made,
    and the channel of each token a task holds. *)
Record t := mk {
  watches : list watch;
  shutdown_source : option nat;
  is_shut_down : bool;
  holders : list nat;
}.
Definition new : t := mk [] None false [].

(** [CancellationTokenSource::new], the source replacing the one there is: the
    number of the new channel, whose first token the caller holds. *)
Definition renew (x : t) : nat * t :=
  let i := length (watches x) in
  (i, mk (SseTransport.drop_watch_source (shutdown_source x) (watches x) ++ [CancellationToken.new]) (Some i) (is_shut_down x) (i :: holders x)).
Definition clone (i : nat) (x : t) : t := mk (alter token i (watches x)) (shutdown_source x) (is_shut_down x) (i :: holders x).
Fixpoint remove_one (i : nat) (l : list nat) : list nat :=
  match l with [] => [] | j :: r => if decide (j = i) then r else j :: remove_one i r end.
Definition release (i : nat) (x : t) : t :=
  if decide (i ∈ holders x) then mk (alter drop_token i (watches x)) (shutdown_source x) (is_shut_down x) (remove_one i (holders x)) else x.

(** The first half of [shut_down]: cancel, forget the source, set the flag; a
    failing [cancel] returns at once. *)
Definition cancel_all : Act t TransportError unit :=
  fun x =>
    match (match shutdown_source x with Some i => (fun w => (i, w)) <$> watches x !! i | None => None end) with
    | None => (Ok tt, mk (watches x) None true (holders x))
    | Some (i, w) =>
        match cancel w with
        | (Err e, _) => (Err e, x)
        | (Ok _, w) => (Ok tt, mk (<[i := drop_source w]> (watches x)) None true (holders x))
        end
    end.

(** Whether a task that holds a token of channel [i] is woken. *)
Definition woken_at (x : t) (i : nat) : bool := from_option woken true (watches x !! i).
End Stopper.

(** ** Standard streams *)

Module StdioTransport.
Import MessageDispatcher.
Section Transport.
Context {RequestId : Type} `{Countable RequestId} {In W T St : Type}.
Abbreviation Dispatcher := (MessageDispatcher.t RequestId In W T St).

(** A process that was launched: [Killed] when its handle was dropped. *)
Inductive process := Running | Killed | Exited.
(** [enum IoStream]; what is read from it is not shown. *)
Inductive IoStream := Readable | Writable (w : W).
Record Child := mkChild { stdin : option W; has_stdout : bool; has_stderr : bool }.

Record t := mk {
  command : option str;
  args : option (list str);
  env : option (list (str * str));
  timeout : N;
  stop : Stopper.t;
  message_sender : option Dispatcher; (* with the pending requests *)
  error_stream : option IoStream;
  processes : list process;
}.
Definition new (timeout : N) : t := mk None None None timeout Stopper.new None None [].
Definition create_with_server_launch (command : str) (args : list str) (env : option (list (str * str))) (timeout : N) : t :=
  mk (Some command) (Some args) env timeout Stopper.new None None [].

(** [launch_commands], on Windows and elsewhere. *)
Definition launch_commands (windows : bool) (x : t) : str * list str :=
  if windows then (s! "cmd.exe", [s! "/c"; from_option (fun c => c) [] (command x)] ++ from_option (fun a => a) [] (args x))
  else (from_option (fun c => c) [] (command x), from_option (fun a => a) [] (args x)).

Definition set_stop (st : Stopper.t) (x : t) : t :=
  mk (command x) (args x) (env x) (timeout x) st (message_sender x) (error_stream x) (processes x).
Definition set_sender (d : option Dispatcher) (x : t) : t :=
  mk (command x) (args x) (env x) (timeout x) (stop x) d (error_stream x) (processes x).
Definition set_processes (ps : list process) (x : t) : t :=
  mk (command x) (args x) (env x) (timeout x) (stop x) (message_sender x) (error_stream x) ps.

(** [MCPStream::create]: the reader holds a token; the dispatcher shares the
    transport's pending requests. *)
Definition connect (i : nat) (writable : W) (error_io : IoStream) (x : t) : t :=
  let sender := MessageDispatcher.new writable (timeout x) in
  let sender := match message_sender x with Some d => with_pending (pending_requests d) (channels d) sender | None => sender end in
  mk (command x) (args x) (env x) (timeout x) (Stopper.release i (Stopper.clone i (stop x))) (Some sender) (Some error_io) (processes x).

(** [spawned] is what launching the process gives; the standard streams. *)
Definition start (spawned : result Child IoError) (stdout stderr : W) : Act t TransportError unit :=
  fun x =>
    let '(i, st) := Stopper.renew (stop x) in
    let x := set_stop st x in
    let failed ps e := (Err e, set_stop (Stopper.release i (stop x)) (set_processes (processes x ++ ps) x)) in
    match command x with
    | Some _ =>
        match spawned with
        | Err e => failed [] (Io e)
        | Ok child =>
            match stdin child with
            | None => failed [Killed] (Internal (s! "Unable to retrieve stdin."))
            | Some stdin =>
                if negb (has_stdout child) then failed [Killed] (Internal (s! "Unable to retrieve stdout."))
                else if negb (has_stderr child) then failed [Killed] (Internal (s! "Unable to retrieve stderr."))
                else (Ok tt, connect i stdin Readable (set_processes (processes x ++ [Running]) x))
            end
        end
    | None => (Ok tt, connect i stdout (Writable stderr) x)
    end.

(** The task that waits for process [k], which clears the pending requests. *)
Definition process_exits (k : nat) (x : t) : t :=
  match processes x !! k with
  | Some Running => set_sender (clear_pending <$> message_sender x) (set_processes (<[k := Exited]> (processes x)) x)
  | _ => x
  end.
(** A reader task ends. *)
Definition reader_ends (i : nat) (x : t) : t := set_stop (Stopper.release i (stop x)) x.

Definition with_sender {A} (f : Act Dispatcher TransportError A) : Act t TransportError A :=
  fun x => match message_sender x with
           | None => (Err (Sdk (mkSdkError connection_closed None)), x)
           | Some d => let '(r, d) := f d in (r, set_sender (Some d) x)
           end.
Definition pending_request_tx (id : RequestId) (x : t) : option nat * t :=
  match message_sender x with
  | None => (None, x)
  | Some d => let '(c, d) := MessageDispatcher.pending_request_tx id d in (c, set_sender (Some d) x)
  end.
Definition is_shut_down (x : t) : bool := Stopper.is_shut_down (stop x).
Definition consume_string_payload (payload : str) : Act t TransportError unit :=
  act_fail (Internal (s! "Invalid invocation of consume_string_payload() function in StdioTransport")).
Definition keep_alive (interval : N) : Act t TransportError unit :=
  act_fail (Internal (s! "Invalid invocation of keep_alive() function for StdioTransport")).
Definition shut_down : Act t TransportError unit :=
  fun x => let '(r, st) := Stopper.cancel_all (stop x) in (r, set_stop st x).
End Transport.
Arguments t RequestId {_ _} In W T St.
Arguments Child W : clear implicits.
End StdioTransport.

(** ** The client's SSE transport, running *)

Module SseClient.
Import MessageDispatcher.
Section Transport.
Context {RequestId : Type} `{Countable RequestId} {In W T St HM : Type}.
Abbreviation Dispatcher := (MessageDispatcher.t RequestId In W T St).

(** A POST: where to, with which headers, what. *)
Record Post := mkPost { p_url : str; p_headers : option HM; p_body : str }.

Record t := mk {
  config : ClientSseTransport.t HM;
  request_timeout : N;
  stop : Stopper.t;
  sse_task : option nat; (* the channel of the task's token *)
  post_task : option nat;
  message_sender : option Dispatcher;
  starting : option nat; (* the token of a [start] that waits for the endpoint, and holds [shutdown_source] *)
}.
Definition new (c : ClientSseTransport.t HM) (timeout : N) : t := mk c timeout Stopper.new None None None None.
Definition set_stop (st : Stopper.t) (x : t) : t := mk (config x) (request_timeout x) st (sse_task x) (post_task x) (message_sender x) (starting x).
Definition set_sender (d : option Dispatcher) (x : t) : t := mk (config x) (request_timeout x) (stop x) (sse_task x) (post_task x) d (starting x).
Definition set_tasks (sse post : option nat) (x : t) : t := mk (config x) (request_timeout x) (stop x) sse post (message_sender x) (starting x).
Definition set_starting (i : option nat) (x : t) : t := mk (config x) (request_timeout x) (stop x) (sse_task x) (post_task x) (message_sender x) i.

Definition no_endpoint : TransportError := Io (mkIoError false (s! "Failed to receive 'messages' endpoint from the server.")).

(** The first part of [start], up to the wait for the endpoint: the stream's
    task is spawned.  The lock of [shutdown_source] is held until [start]
    returns. *)
Definition begin_start (x : t) : t :=
  let '(i, st) := Stopper.renew (stop x) in
  set_starting (Some i) (set_tasks (Some i) (post_task x) (set_stop (Stopper.clone i st) x)).
(** The rest of it.  [endpoint] is what arrives on the oneshot channel of the
    endpoint event, [None] if its sender is dropped; the result is the URL of the
    post task.  [writable] is the write half of the channel the post task reads. *)
Definition finish_start (i : nat) (endpoint : option (option str)) (writable : W) : Act t TransportError str :=
  fun x =>
    let x := set_starting None x in
    let failed e := (Err e, set_stop (Stopper.release i (stop x)) x) in
    match endpoint with
    | None | Some None => failed no_endpoint
    | Some (Some post_url) =>
        match ClientSseTransport.validate_message_endpoint (config x) post_url with
        | Err e => failed e
        | Ok post_url =>
            let sender := MessageDispatcher.new writable (request_timeout x) in
            let sender := match message_sender x with Some d => with_pending (pending_requests d) (channels d) sender | None => sender end in
            (Ok post_url,
             set_sender (Some sender)
               (set_tasks (sse_task x) (Some i)
                  (set_stop (Stopper.release i (Stopper.clone i (Stopper.clone i (stop x)))) x)))
        end
    end.

(** The loop of the post task: what its [select!] gives, and the requests it
    makes; a failing request is only logged. *)
Inductive post_event := PCancelled | Data (data : option bytes).
Fixpoint post_loop (post_url : str) (custom_headers : option HM) (events : list post_event) : list Post :=
  match events with
  | [] | PCancelled :: _ | Data None :: _ => []
  | Data (Some data) :: r => mkPost post_url custom_headers (trim (from_utf8_lossy data)) :: post_loop post_url custom_headers r
  end.

(** What one [write_str] puts into the channel of the post task.  [buffered] is
    what the [BufWriter] in between passes on of the message, the newline and
    the flush; before each of its polls the post task took some items. *)
Section Writing.
Context (buffered : str -> list bytes).
Fixpoint write_chunks (taken : nat) (chunks : list bytes) (c : WritableChannel.chan) : list bytes * WritableChannel.chan :=
  match chunks with
  | [] => ([], c)
  | chunk :: r =>
      let '(_, got, c) := WritableChannel.write_all chunk [taken] c in
      let '(got', c) := write_chunks 0 r c in (got ++ got', c)
  end.
Fixpoint write_messages (ms : list (nat * str)) (c : WritableChannel.chan) : list bytes * WritableChannel.chan :=
  match ms with
  | [] => ([], c)
  | (taken, m) :: r =>
      let '(got, c) := write_chunks taken (buffered m) c in
      let '(got', c) := write_messages r c in (got ++ got', c)
  end.
End Writing.

(** A task with a token of channel [i] ends. *)
Definition task_ends (i : nat) (x : t) : t := set_stop (Stopper.release i (stop x)) x.

Definition with_sender {A} (f : Act Dispatcher TransportError A) : Act t TransportError A :=
  fun x => match message_sender x with
           | None => (Err (Sdk (mkSdkError connection_closed None)), x)
           | Some d => let '(r, d) := f d in (r, set_sender (Some d) x)
           end.
Definition pending_request_tx (id : RequestId) (x : t) : option nat * t :=
  match message_sender x with
  | None => (None, x)
  | Some d => let '(c, d) := MessageDispatcher.pending_request_tx id d in (c, set_sender (Some d) x)
  end.
Definition is_shut_down (x : t) : bool := Stopper.is_shut_down (stop x).
Definition consume_string_payload (payload : str) : Act t TransportError unit :=
  act_fail (Internal (s! "Invalid invocation of consume_string_payload() function for ClientSseTransport")).
Definition keep_alive (interval : N) : Act t TransportError unit :=
  act_fail (Internal (s! "Invalid invocation of keep_alive() function for ClientSseTransport")).

(** [in_time]: the post task and the stream's task end within the timeout. *)
Definition shut_down (in_time : bool) : Act t TransportError unit :=
  fun x =>
    match Stopper.cancel_all (stop x) with
    | (Err e, st) => (Err e, set_stop st x)
    | (Ok _, st) =>
        let waits := is_some (sse_task x) || is_some (post_task x) in
        (if negb waits || in_time then Ok tt else Err ShutdownTimeout, set_tasks None None (set_stop st x))
    end.
End Transport.
Arguments t RequestId {_ _} In W T St HM.
Arguments Post HM : clear implicits.
End SseClient.

(** ** Facts *)

Module StopperFacts.
Import Stopper.
Abbreviation count i l := (count_occ Nat.eq_dec l i).

(** The receivers of a channel are the tokens of it that tasks hold; only the
    channel of the source is not woken. *)
Record Inv (x : Stopper.t) : Prop := {
  inv_tokens i w : watches x !! i = Some w -> receivers w = count i (holders x);
  inv_holders i : i ∈ holders x -> i < length (watches x);
  inv_source i : shutdown_source x = Some i -> i < length (watches x);
  inv_woken i w : watches x !! i = Some w -> shutdown_source x <> Some i -> woken w = true;
}.

Lemma new_inv : Inv new.
Proof. split; simpl; try done. by intros i ?%elem_of_nil. Qed.

Lemma count_remove i j l : j ∈ l -> count i (remove_one j l) = if decide (j = i) then pred (count i l) else count i l.
Proof.
  induction l as [|k l IH]; [by intros ?%elem_of_nil|]. intros Hj. cbn [remove_one count_occ].
  destruct (decide (k = j)) as [->|Hkj].
  - destruct (decide (j = i)), (Nat.eq_dec j i); simpl; congruence.
  - apply elem_of_cons in Hj as [->|Hj]; [done|]. simpl. rewrite IH by done.
    destruct (decide (j = i)) as [->|Hne], (Nat.eq_dec k i) as [->|]; try done.
Qed.
Lemma remove_one_elem i j l : i ∈ remove_one j l -> i ∈ l.
Proof.
  induction l as [|k l IH]; [done|]. simpl. destruct (decide (k = j)); [by right|].
  intros [->|Hi]%elem_of_cons; [left|right; auto].
Qed.

Lemma clone_inv i x : i ∈ holders x -> Inv x -> Inv (clone i x).
Proof.
  intros Hi HI. split; cbn [watches holders shutdown_source clone].
  - intros j w. cbn [count_occ]. destruct (decide (i = j)) as [->|Hne].
    + rewrite list_lookup_alter_eq. intros (w0 & Hw & ->)%fmap_Some. simpl. rewrite (inv_tokens x HI j w0 Hw).
      by destruct (Nat.eq_dec j j).
    + rewrite list_lookup_alter_ne by done. intros Hw. rewrite (inv_tokens x HI j w Hw). by destruct (Nat.eq_dec i j).
  - intros j. rewrite length_alter. intros [->|Hj]%elem_of_cons; by apply (inv_holders x HI).
  - intros j. rewrite length_alter. apply (inv_source x HI).
  - intros j w. destruct (decide (i = j)) as [->|Hne].
    + rewrite list_lookup_alter_eq. intros (w0 & Hw & ->)%fmap_Some Hs. change (woken w0 = true). by apply (inv_woken x HI j).
    + rewrite list_lookup_alter_ne by done. apply (inv_woken x HI j).
Qed.
Lemma release_inv i x : Inv x -> Inv (release i x).
Proof.
  intros HI. unfold release. destruct (decide (i ∈ holders x)) as [Hi|]; [|done].
  split; cbn [watches holders shutdown_source].
  - intros j w. rewrite count_remove by done. destruct (decide (i = j)) as [->|Hne].
    + rewrite list_lookup_alter_eq. intros (w0 & Hw & ->)%fmap_Some. simpl. by rewrite (inv_tokens x HI j w0 Hw).
    + rewrite list_lookup_alter_ne by done. apply (inv_tokens x HI).
  - intros j Hj%remove_one_elem. rewrite length_alter. by apply (inv_holders x HI).
  - intros j. rewrite length_alter. apply (inv_source x HI).
  - intros j w. destruct (decide (i = j)) as [->|Hne].
    + rewrite list_lookup_alter_eq. intros (w0 & Hw & ->)%fmap_Some Hs. change (woken w0 = true). by apply (inv_woken x HI j).
    + rewrite list_lookup_alter_ne by done. apply (inv_woken x HI j).
Qed.
Lemma renew_inv x : Inv x -> Inv (renew x).2 /\ (renew x).1 ∈ holders (renew x).2.
Proof.
  intros HI. unfold renew. cbn [fst snd]. set (n := length (watches x)). split; [|left].
  assert (Hlen : length (SseTransport.drop_watch_source (shutdown_source x) (watches x)) = n)
    by apply TransportFacts.drop_watch_source_length.
  assert (Hfresh : count n (holders x) = 0).
  { apply count_occ_not_In. rewrite <-list_elem_of_In. intros Hn%(inv_holders x HI). subst n. lia. }
  split; cbn [watches holders shutdown_source].
  - intros i w. cbn [count_occ]. rewrite lookup_app_Some, Hlen. intros [Hw|[Hi Hw]].
    + apply TransportFacts.drop_watch_source_lookup in Hw as (w0 & Hw0 & -> & _). rewrite (inv_tokens x HI i w0 Hw0).
      apply lookup_lt_Some in Hw0. destruct (Nat.eq_dec n i); [subst n; lia|done].
    + apply list_lookup_singleton_Some in Hw as [? <-]. assert (i = n) as -> by lia. simpl. rewrite Hfresh. by destruct (Nat.eq_dec n n).
  - intros i. rewrite length_app, Hlen. simpl. intros [->|Hi%(inv_holders x HI)]%elem_of_cons; subst n; lia.
  - intros i [= <-]. rewrite length_app, Hlen. simpl. subst n; lia.
  - intros i w. rewrite lookup_app_Some, Hlen. intros [Hw|[Hi Hw]] Hs.
    + apply TransportFacts.drop_watch_source_lookup in Hw as (w0 & Hw0 & _ & [[_ ?]|[Hs' ->]]); [done|]. by apply (inv_woken x HI i).
    + apply list_lookup_singleton_Some in Hw as [? _]. destruct Hs. f_equal. lia.
Qed.

(** Stopping wakes every task, or fails because none of the current tasks is
    left. *)
Lemma cancel_all_spec x : Inv x ->
  match cancel_all x with
  | (Ok _, x') => Inv x' /\ is_shut_down x' = true /\ shutdown_source x' = None /\ holders x' = holders x /\
                  (forall i, i ∈ holders x' -> woken_at x' i = true)
  | (Err e, x') => x' = x /\ e = Cancelled /\ exists i, shutdown_source x = Some i /\ i ∉ holders x
  end.
Proof.
  intros HI. unfold cancel_all. destruct (shutdown_source x) as [i|] eqn:Es.
  - destruct (watches x !! i) as [w|] eqn:Ew; [|apply lookup_ge_None in Ew; apply (inv_source x HI) in Es; lia]. simpl.
    unfold cancel. pose proof (inv_tokens x HI i w Ew) as Hr. destruct (Nat.eqb_spec (receivers w) 0) as [E|_]; simpl.
    + split_and!; [done|done|]. exists i. split; [done|]. rewrite list_elem_of_In. apply count_occ_not_In with (eq_dec := Nat.eq_dec). lia.
    + assert (HI' : Inv (mk (<[i := drop_source (mkWatch true (sender_alive w) (receivers w))]> (watches x)) None true (holders x))).
      { split; cbn [watches holders shutdown_source]; try done.
        - intros j v. rewrite list_lookup_insert_Some. intros [(<- & <- & _)|[_ Hv]]; [done|by apply (inv_tokens x HI)].
        - intros j. rewrite length_insert. apply (inv_holders x HI).
        - intros j v. rewrite list_lookup_insert_Some. intros [(<- & <- & _)|[Hne Hv]] _; [done|].
          apply (inv_woken x HI j); [done|]. rewrite Es. congruence. }
      split_and!; try done. intros j Hj. unfold woken_at. destruct (_ !! j) as [v|] eqn:Ev; [|done]. by apply (inv_woken _ HI' j).
  - assert (HI' : Inv (mk (watches x) None true (holders x))).
    { destruct HI as [? ? ? Hw]. split; try done. cbn. intros j v Hv _. apply (Hw j v Hv). by rewrite Es. }
    split_and!; try done. intros j Hj. unfold woken_at. destruct (_ !! j) as [v|] eqn:Ev; [|done]. by apply (inv_woken _ HI' j).
Qed.
Lemma cancel_all_inv x : Inv x -> Inv (cancel_all x).2.
Proof. intros HI. pose proof (cancel_all_spec x HI) as S. destruct (cancel_all x) as [[u|e] x']; [by destruct S|by destruct S as [-> _]]. Qed.
End StopperFacts.
#[export] Hint Resolve StopperFacts.new_inv StopperFacts.release_inv StopperFacts.cancel_all_inv : rust.

Module StdioFacts.
Import StdioTransport MessageDispatcher StopperFacts.
Section Facts.
Context {RequestId : Type} `{Countable RequestId} {In W T St : Type}.
Abbreviation transport := (StdioTransport.t RequestId In W T St).
Abbreviation Dispatcher := (MessageDispatcher.t RequestId In W T St).
Implicit Types (x : transport) (d : Dispatcher).

(** A caller that waits has its request among the pending ones. *)
Definition awaited d : Prop := forall c, channels d !! c = Some Waiting -> exists i, pending_requests d !! i = Some c.

Lemma awaited_new w n : awaited (MessageDispatcher.new w n).
Proof. intros c. cbn [MessageDispatcher.new channels]. by rewrite lookup_nil. Qed.
Lemma clear_awaited d : awaited d -> forall c, channels (clear_pending d) !! c <> Some Waiting.
Proof.
  intros Ha c. unfold clear_pending. cbn [channels with_pending]. rewrite DispatcherFacts.drop_senders_lookup.
  destruct (channels d !! c) as [ch|] eqn:E; [|by rewrite andb_false_r]. destruct ch; simpl; rewrite ?andb_false_r; try done.
  rewrite andb_true_r, bool_decide_eq_true_2; [done|]. destruct (Ha c E) as [i Hi].
  apply list_elem_of_fmap. exists (i, c). split; [done|]. by apply elem_of_map_to_list.
Qed.
Lemma apply_awaited d (o : op RequestId In W) : awaited d -> awaited (apply d o).
Proof.
  intros Ha. destruct o as [i|i m| |w]; simpl.
  - intros c. unfold store_pending_request. cbn [snd channels pending_requests with_pending].
    rewrite lookup_app_Some, DispatcherFacts.drop_sender_length, DispatcherFacts.drop_sender_lookup. intros [Hc|[Hl Hc]].
    + destruct (bool_decide (pending_requests d !! i = Some c)) eqn:Eb; simpl in Hc.
      * destruct (channels d !! c) as [[]|] eqn:Ec; simpl in Hc; try done.
      * destruct (Ha c Hc) as [j Hj]. exists j. rewrite lookup_insert_ne; [done|]. intros ->. bool_prop. done.
    + exists i. rewrite lookup_insert_eq. f_equal. apply list_lookup_singleton_Some in Hc as [? _]. lia.
  - unfold deliver, pending_request_tx, send_on. destruct (pending_requests d !! i) as [c0|] eqn:Ei.
    + assert (D : forall c, c <> c0 -> channels d !! c = Some Waiting -> exists j, delete i (pending_requests d) !! j = Some c).
      { intros c Hne Hc. destruct (Ha c Hc) as [j Hj]. exists j. rewrite lookup_delete_ne; [done|]. intros ->. congruence. }
      cbn [channels with_pending]. destruct (channels d !! c0) as [ch|] eqn:Ec.
      * destruct ch; intros c; cbn [channels pending_requests with_pending snd];
          try (intros Hc; apply D; [intros ->; congruence|done]).
        rewrite list_lookup_insert_Some. intros [(_ & ? & _)|[? Hc]]; [done|]. by apply D.
      * intros c; cbn [channels pending_requests with_pending snd]. intros Hc. apply D; [intros ->; congruence|done].
    + intros c; cbn [channels pending_requests with_pending snd]. intros Hc. destruct (Ha c Hc) as [j Hj]. exists j.
      rewrite lookup_delete_ne; [done|]. intros ->. congruence.
  - intros c Hc. by apply clear_awaited in Hc.
  - exact Ha.
Qed.
Lemma run_awaited os d : awaited d -> awaited (run os d).
Proof. revert d; induction os as [|o os IH]; intros d; [done|]. intros ?. by apply IH, apply_awaited. Qed.

(** What happens to a transport. *)
Inductive event :=
| EStart (spawned : result (Child W) IoError) (stdout stderr : W)
| EShutDown
| EReaderEnds (i : nat)
| EProcessExits (k : nat)
| EDispatch (os : list (op RequestId In W)).
Definition after (x : transport) (e : event) : transport :=
  match e with
  | EStart spawned stdout stderr => (start spawned stdout stderr x).2
  | EShutDown => (shut_down x).2
  | EReaderEnds i => reader_ends i x
  | EProcessExits k => process_exits k x
  | EDispatch os => set_sender (MessageDispatcher.run os <$> message_sender x) x
  end.

Definition Inv x : Prop := StopperFacts.Inv (stop x) /\ forall d, message_sender x = Some d -> awaited d.

Lemma connect_inv i w io x : i ∈ Stopper.holders (stop x) -> Inv x -> Inv (connect i w io x).
Proof.
  intros Hi [HI Ha]. split; cbn [connect stop message_sender]; [by apply release_inv, clone_inv|].
  intros d [= <-]. destruct (message_sender x) as [d|]; [exact (Ha d eq_refl)|apply awaited_new].
Qed.
Lemma start_inv spawned w w2 x : Inv x -> Inv (start spawned w w2 x).2.
Proof.
  intros [HI Ha]. unfold start. pose proof (renew_inv _ HI) as [HI' Hh]. destruct (Stopper.renew (stop x)) as [i st]. simpl in HI', Hh.
  destruct (command (set_stop st x)); [|by apply connect_inv].
  destruct spawned as [[[stdin|] [] []]|e]; cbn [StdioTransport.stdin has_stdout has_stderr negb snd]; try (by apply connect_inv);
    (split; [by apply release_inv|exact Ha]).
Qed.
Lemma after_inv e x : Inv x -> Inv (after x e).
Proof.
  intros HInv. destruct HInv as [HI Ha]. destruct e as [sp w w2| |i|k|os]; cbn [after].
  - by apply start_inv.
  - unfold shut_down. pose proof (cancel_all_inv (stop x) HI). destruct (Stopper.cancel_all (stop x)). by split.
  - split; [by apply release_inv|exact Ha].
  - unfold process_exits. destruct (processes x !! k) as [[]|]; try done. split; [done|]. cbn. intros d.
    destruct (message_sender x) as [d0|]; [|done]. intros [= <-]. apply (apply_awaited d0 ClearPending). by apply Ha.
  - split; [done|]. cbn. intros d. destruct (message_sender x) as [d0|]; [|done]. intros [= <-]. by apply run_awaited, Ha.
Qed.
Lemma reachable_inv es x : Inv x -> Inv (foldl after x es).
Proof. revert x; induction es as [|e es IH]; intros x; [done|]. intros ?. by apply IH, after_inv. Qed.

Lemma start_processes spawned w w2 x : exists ps, processes (start spawned w w2 x).2 = processes x ++ ps /\
  (Running ∈ ps -> (start spawned w w2 x).1 = Ok tt).
Proof.
  unfold start. destruct (Stopper.renew (stop x)) as [i st]. destruct (command (set_stop st x)).
  - destruct spawned as [[[stdin|] [] []]|e]; cbn;
      (eexists; split; [reflexivity || by rewrite app_nil_r|]); try done;
      intros Hr; by (apply list_elem_of_singleton in Hr || apply elem_of_nil in Hr).
  - exists []. split; [by rewrite app_nil_r|]. by intros ?%elem_of_nil.
Qed.
End Facts.
End StdioFacts.
Import StdioFacts.

Section StdioClaims.
Context {RequestId : Type} `{Countable RequestId} {In W T St : Type}.
Abbreviation transport := (StdioTransport.t RequestId In W T St).
Import StdioTransport.

(** C24. The tasks of the stdio transport, after any events, with or without a
    process: shutting it down marks it and wakes every task that still holds one
    of its tokens, or fails with nothing changed because the reader of the last
    start has ended.  When a process exits, no request is pending any more and
    every caller that waited is woken.  A start that fails leaves no process
    running.  (What becomes of a process that runs when the transport is shut
    down is not part of this: [process_survives_shutdown].) *)
Theorem stdio_transport_lifecycle (x0 : transport) (es : list (event (RequestId := RequestId) (In := In) (W := W))) :
  stop x0 = Stopper.new -> message_sender x0 = None ->
  let x := foldl after x0 es in
  match shut_down x with
  | (Ok _, x') => is_shut_down x' = true /\
                  forall i, i ∈ Stopper.holders (stop x') -> Stopper.woken_at (stop x') i = true
  | (Err e, x') => x' = x /\ e = Cancelled /\ exists i, Stopper.shutdown_source (stop x) = Some i /\ i ∉ Stopper.holders (stop x)
  end /\
  (forall k d, processes x !! k = Some Running -> message_sender (process_exits k x) = Some d ->
     MessageDispatcher.pending_requests d = ∅ /\ forall c, MessageDispatcher.channels d !! c <> Some MessageDispatcher.Waiting) /\
  (forall spawned stdout stderr e, (start spawned stdout stderr x).1 = Err e ->
     forall k, processes (start spawned stdout stderr x).2 !! k = Some Running -> processes x !! k = Some Running).
Proof.
  intros Hs Hm x. assert (HI : Inv x).
  { apply reachable_inv. split; [rewrite Hs; apply StopperFacts.new_inv|]. by rewrite Hm. }
  destruct HI as [HI Ha]. split_and!.
  - unfold shut_down, is_shut_down. pose proof (StopperFacts.cancel_all_spec (stop x) HI) as S.
    destruct (Stopper.cancel_all (stop x)) as [[u|e] st]; [destruct S as (_ & ? & _ & _ & ?); by split_and!|].
    destruct S as (-> & -> & ?). split_and!; [by destruct x|done|done].
  - intros k d Hk. unfold process_exits. rewrite Hk. cbn. destruct (message_sender x) as [d0|] eqn:E; [|done].
    intros [= <-]. split; [done|]. by apply clear_awaited, Ha.
  - intros spawned stdout stderr e He k. destruct (start_processes spawned stdout stderr x) as (ps & -> & Hps).
    rewrite lookup_app_Some. intros [?|[_ Hr]]; [done|]. apply list_elem_of_lookup_2 in Hr. apply Hps in Hr. congruence.
Qed.
End StdioClaims.

Module SseClientFacts.
Import SseClient StopperFacts.

Lemma split_once_char_parts c s a b : split_once_char c s = Some (a, b) -> s = a ++ c :: b.
Proof.
  unfold split_once_char. destruct (position _ s) as [n|] eqn:E; [|done]. simpl. intros [= <- <-].
  apply position_Some in E as (x & Hs & _ & Hc & _). bool_prop. by subst x.
Qed.
Lemma split_once_str_parts sep s a b : split_once_str sep s = Some (a, b) -> s = a ++ sep ++ b.
Proof.
  revert a. induction s as [|x s IH]; intros a; cbn [split_once_str].
  - destruct (strip_prefix sep []) as [r|] eqn:E; [|done]. intros [= <- <-]. by apply strip_prefix_Some in E.
  - destruct (strip_prefix sep (x :: s)) as [r|] eqn:E; [intros [= <- <-]; by apply strip_prefix_Some in E|].
    destruct (split_once_str sep s) as [[a' b']|]; [|done]. intros [= <- <-]. simpl. by rewrite (IH a').
Qed.

(** An address has its origin in front, ended by a slash, a fragment or the end
    of the address. *)
Definition within (origin url : str) : Prop :=
  exists rest, url = origin ++ rest /\ (rest = [] \/ exists c r, rest = c :: r /\ (c = "/"%char \/ c = "#"%char)).
Lemma extract_origin_within url o : extract_origin url = Some o -> within o url.
Proof.
  unfold extract_origin. destruct (split_once_char "#"%char url) as [[u f]|] eqn:Ef.
  - apply split_once_char_parts in Ef as ->. destruct (split_once_str _ u) as [[scheme rest]|] eqn:E; [|done].
    apply split_once_str_parts in E as ->. destruct (split_once_char _ rest) as [[h t]|] eqn:Et; intros [= <-].
    + apply split_once_char_parts in Et as ->. exists (("/"%char :: t) ++ "#"%char :: f). split; [|right; eauto].
      by rewrite <-!app_assoc.
    + exists ("#"%char :: f). split; [by rewrite <-!app_assoc|right; eauto].
  - destruct (split_once_str _ url) as [[scheme rest]|] eqn:E; [|done].
    apply split_once_str_parts in E as ->. destruct (split_once_char _ rest) as [[h t]|] eqn:Et; intros [= <-].
    + apply split_once_char_parts in Et as ->. exists ("/"%char :: t). split; [|right; eauto]. by rewrite <-!app_assoc.
    + exists []. split; [by rewrite app_nil_r|by left].
Qed.

Section Facts.
Context {HM : Type}.
(** Where an accepted endpoint leads that is relative or names an origin. *)
Lemma validated_endpoint (c : ClientSseTransport.t HM) e url : ClientSseTransport.validate_message_endpoint c e = Ok url ->
  starts_with (s! "/") e = true \/ is_Some (extract_origin e) -> within (ClientSseTransport.base_url c) url.
Proof.
  unfold ClientSseTransport.validate_message_endpoint. change (s! "/") with ["/"%char]. destruct (starts_with _ e) eqn:Es.
  - intros [= <-] _. apply starts_with_spec in Es as [r ->]. exists ("/"%char :: r). split; [done|right; eauto].
  - intros E [|[o Eo]]; [done|]. rewrite Eo in E. case_bool_decide as Ec; simpl in E; [|done]. injection E as <-. subst.
    by apply extract_origin_within.
Qed.

(** The post task makes one request of each item it takes. *)
Definition is_end (rest : list post_event) : Prop := rest = [] \/ exists e r, rest = e :: r /\ (e = PCancelled \/ e = Data None).
Lemma post_loop_items url (h : option HM) items rest : is_end rest ->
  post_loop url h (((fun b => Data (Some b)) <$> items) ++ rest) = (fun b => mkPost url h (trim (from_utf8_lossy b))) <$> items.
Proof.
  intros Hr. induction items as [|b items IH]; [by destruct Hr as [->|(e & r & -> & [-> | ->])]|].
  rewrite !fmap_cons, <-app_comm_cons. cbn [post_loop]. by rewrite IH.
Qed.

(** Messages that the writer passes on as one item each, into a channel that has
    room when they come. *)
Fixpoint room_for (ms : list (nat * str)) (c : WritableChannel.chan) : Prop :=
  match ms with
  | [] => True
  | (taken, m) :: r =>
      let c := (WritableChannel.recvs taken c).2 in
      length (WritableChannel.queue c) < WritableChannel.capacity c /\
      room_for r (WritableChannel.mkChan (WritableChannel.capacity c) false (WritableChannel.queue c ++ [m ++ [LF]]) [])
  end.
Lemma recvs_open n c : WritableChannel.closed c = false -> WritableChannel.parked c = [] ->
  WritableChannel.closed (WritableChannel.recvs n c).2 = false /\ WritableChannel.parked (WritableChannel.recvs n c).2 = [].
Proof.
  revert c. induction n as [|n IH]; intros c Hc Hp; [done|]. simpl. unfold WritableChannel.recv.
  destruct (WritableChannel.queue c) as [|b q]; [done|]. rewrite Hp.
  destruct (IH (WritableChannel.mkChan (WritableChannel.capacity c) (WritableChannel.closed c) q []) Hc eq_refl) as [A B].
  by destruct (WritableChannel.recvs n _).
Qed.
Lemma write_in_room taken b c : WritableChannel.closed c = false -> WritableChannel.parked c = [] ->
  let c' := (WritableChannel.recvs taken c).2 in
  length (WritableChannel.queue c') < WritableChannel.capacity c' ->
  WritableChannel.write_all b [taken] c =
    (Some (Ok tt), (WritableChannel.recvs taken c).1,
     WritableChannel.mkChan (WritableChannel.capacity c') false (WritableChannel.queue c' ++ [b]) []).
Proof.
  intros Hc Hp c' Hl. subst c'. destruct (recvs_open taken c Hc Hp) as [A B]. cbn [WritableChannel.write_all].
  destruct (WritableChannel.recvs taken c) as [got c']. cbn [fst snd] in *. unfold WritableChannel.poll_write.
  by rewrite A, (proj2 (Nat.ltb_lt _ _) Hl), B, bool_decide_eq_true_2.
Qed.
Lemma written_in_room buffered ms c : Forall (fun nm => buffered nm.2 = [nm.2 ++ [LF]]) ms ->
  WritableChannel.closed c = false -> WritableChannel.parked c = [] -> room_for ms c ->
  (write_messages buffered ms c).1 ++ WritableChannel.queue (write_messages buffered ms c).2 =
  WritableChannel.queue c ++ ((fun nm => nm.2 ++ [LF]) <$> ms).
Proof.
  revert c. induction ms as [|[taken m] ms IH]; intros c Hb Hc Hp Hr; [by rewrite app_nil_r|].
  apply Forall_cons in Hb as [Hb Hbs]. destruct Hr as [Hl Hr]. cbn [write_messages snd] in *. rewrite Hb. cbn [write_chunks].
  rewrite write_in_room by done. pose proof (TransportFacts.recvs_pipeline taken c) as [E _]. destruct (recvs_open taken c Hc Hp) as [_ Hp'].
  unfold TransportFacts.pipeline in E. rewrite Hp, Hp', !app_nil_r in E.
  match type of Hr with room_for _ ?c1 => specialize (IH c1 Hbs eq_refl eq_refl Hr) end. destruct (write_messages buffered ms _) as [got c2]. cbn [fst snd WritableChannel.queue] in *.
  rewrite app_nil_r, <-app_assoc, IH, fmap_cons, app_assoc, app_assoc, E, <-app_assoc. done.
Qed.
End Facts.

Lemma remove_one_other i j l : i <> j -> j ∈ l -> j ∈ Stopper.remove_one i l.
Proof.
  intros Hne Hj. induction l as [|k l IH]; [done|]. simpl. apply elem_of_cons in Hj as [->|Hj].
  - rewrite decide_False by done. by left.
  - case_decide; [done|]. right. by apply IH.
Qed.

Section Running.
Context {RequestId : Type} `{Countable RequestId} {In W T St HM : Type}.
Abbreviation transport := (SseClient.t RequestId In W T St HM).
Implicit Types (x : transport).

Inductive event :=
| EStart
| EEndpoint (endpoint : option (option str)) (writable : W)
| EShutDown (in_time : bool)
| ETaskEnds (i : nat)
| EDispatch (os : list (MessageDispatcher.op RequestId In W)).
(** While a [start] waits for the endpoint, other calls of [start] and of
    [shut_down] wait for its lock; and the token it holds is no task's. *)
Definition after (x : transport) (e : event) : transport :=
  match e with
  | EStart => match starting x with Some _ => x | None => begin_start x end
  | EEndpoint endpoint writable => match starting x with Some i => (finish_start i endpoint writable x).2 | None => x end
  | EShutDown in_time => match starting x with Some _ => x | None => (shut_down in_time x).2 end
  | ETaskEnds i =>
      if bool_decide (starting x = Some i) && negb (bool_decide (i ∈ Stopper.remove_one i (Stopper.holders (stop x)))) then x
      else task_ends i x
  | EDispatch os => set_sender (MessageDispatcher.run os <$> message_sender x) x
  end.

(** The tokens are accounted for, and a [start] under way holds its own. *)
Definition Inv (x : transport) : Prop :=
  StopperFacts.Inv (stop x) /\ forall i, starting x = Some i -> i ∈ Stopper.holders (stop x).
Lemma begin_inv x : Inv x -> Inv (begin_start x).
Proof.
  intros [HI _]. unfold begin_start. pose proof (renew_inv _ HI) as [HI' Hh]. destruct (Stopper.renew (stop x)) as [i st]. simpl in HI', Hh.
  split; [by apply clone_inv|]. intros j [= <-]. by left.
Qed.
Lemma finish_inv i endpoint w x : starting x = Some i -> Inv x -> Inv (finish_start i endpoint w x).2.
Proof.
  intros Hi [HI Hh]. specialize (Hh i Hi). unfold finish_start.
  destruct endpoint as [[e|]|]; simpl; [|by split; [apply release_inv|]..].
  destruct (ClientSseTransport.validate_message_endpoint _ e); simpl; split; try done; [|by apply release_inv].
  apply release_inv, clone_inv; [left|]. by apply clone_inv.
Qed.
Lemma sse_shut_down_inv b x : starting x = None -> Inv x -> Inv (shut_down b x).2.
Proof.
  intros Hs [HI _]. unfold shut_down. pose proof (cancel_all_inv (stop x) HI). destruct (Stopper.cancel_all (stop x)) as [[] ?];
    (split; [done|]); simpl; congruence.
Qed.
Lemma task_ends_inv i x :
  bool_decide (starting x = Some i) && negb (bool_decide (i ∈ Stopper.remove_one i (Stopper.holders (stop x)))) = false ->
  Inv x -> Inv (task_ends i x).
Proof.
  intros Hg [HI Hh]. split; [by apply release_inv|]. intros j Hj. specialize (Hh j Hj). cbn. unfold Stopper.release.
  destruct (decide (i ∈ Stopper.holders (stop x))); [|exact Hh]. cbn [Stopper.holders]. destruct (decide (i = j)) as [->|Hne]; [|by apply remove_one_other].
  apply andb_false_iff in Hg as [Hg|Hg]; [by apply bool_decide_eq_false in Hg|]. by apply negb_false_iff, bool_decide_eq_true in Hg.
Qed.
Lemma sse_after_inv e x : Inv x -> Inv (after x e).
Proof.
  intros HI. destruct e as [|endpoint w|b|i|os]; cbn [after].
  - destruct (starting x); [done|by apply begin_inv].
  - destruct (starting x) as [i|] eqn:E; [by apply finish_inv|done].
  - destruct (starting x) eqn:E; [done|by apply sse_shut_down_inv].
  - destruct (_ && _) eqn:E; [done|by apply task_ends_inv].
  - exact HI.
Qed.
Lemma sse_reachable_inv es x : Inv x -> Inv (foldl after x es).
Proof. revert x; induction es as [|e es IH]; intros x HI; [done|]. by apply IH, sse_after_inv. Qed.
Lemma reachable_config es x : config (foldl after x es) = config x.
Proof.
  revert x; induction es as [|e es IH]; intros x; [done|]. simpl. rewrite IH. destruct e as [|ep w|b|i|os]; simpl; try done.
  - destruct (starting x); [done|]. unfold begin_start. by destruct (Stopper.renew (stop x)).
  - destruct (starting x); [|done]. unfold finish_start. destruct ep as [[e|]|]; simpl; try done.
    by destruct (ClientSseTransport.validate_message_endpoint _ e).
  - destruct (starting x); [done|]. unfold shut_down. by destruct (Stopper.cancel_all (stop x)) as [[] ?].
  - by destruct (_ && _).
Qed.
End Running.
End SseClientFacts.
Import SseClientFacts.

Section SseClaims.
Context {RequestId : Type} `{Countable RequestId} {In W T St HM : Type}.
Abbreviation transport := (SseClient.t RequestId In W T St HM).
Import SseClient.

(** C25. The client's SSE transport, after any starts, stops, dispatches and ends
    of its tasks.  A start that is under way ends when the endpoint event comes
    or its sender is gone: without an endpoint, or with one of another origin, it
    fails, and no post task or dispatcher is set up.  Otherwise there is a new
    dispatcher and a post task, which makes one request of each item it takes
    from its channel, in order, with the configured headers, until it is
    cancelled or the channel is closed; the address is the same for all, and lies
    under the origin of the configured server if the endpoint is relative or
    names an origin at all ([endpoint_of_other_host_accepted] is one that does
    neither).  So the messages that are written reach the server once each and in
    order, if the channel has room when they come
    ([Transport.writable_channel_delivery]) and the buffer in front of it passes
    each on as one item with its newline ([long_message_posts_twice]).  When no
    start is under way, shutting down wakes every task, or fails with nothing
    changed because none of the last start is left. *)
Theorem sse_client_posts (c : ClientSseTransport.t HM) (timeout : N) (es : list (event (RequestId := RequestId) (In := In) (W := W)))
  (endpoint : option (option str)) (writable : W) (buffered : str -> list bytes) :
  let x := foldl after (SseClient.new (T := T) (St := St) c timeout) es in
  let post url m := mkPost url (ClientSseTransport.custom_headers c) m in
  (forall i, starting x = Some i ->
   match finish_start i endpoint writable x with
   | (Ok url, x') =>
      (exists e, endpoint = Some (Some e) /\
         (starts_with (s! "/") e = true \/ is_Some (extract_origin e) -> within (ClientSseTransport.base_url c) url)) /\
      (exists d, message_sender x' = Some d /\ MessageDispatcher.writable_std d = Some writable) /\ post_task x' = Some i /\
      (forall items rest, is_end rest ->
         post_loop url (ClientSseTransport.custom_headers c) (((fun b => Data (Some b)) <$> items) ++ rest) =
         (fun b => post url (trim (from_utf8_lossy b))) <$> items) /\
      forall ms ch rest, WritableChannel.closed ch = false -> WritableChannel.parked ch = [] -> WritableChannel.queue ch = [] ->
        room_for ms ch -> is_end rest ->
        Forall (fun nm => trimmed nm.2 /\ utf8_valid (nm.2 ++ [LF]) = true /\ buffered nm.2 = [nm.2 ++ [LF]]) ms ->
        let '(taken, ch') := write_messages buffered ms ch in
        post_loop url (ClientSseTransport.custom_headers c) (((fun b => Data (Some b)) <$> (taken ++ WritableChannel.queue ch')) ++ rest) =
        (fun nm => post url nm.2) <$> ms
   | (Err _, x') =>
      message_sender x' = message_sender x /\ post_task x' = post_task x /\
      forall e o, endpoint = Some (Some e) -> extract_origin e = Some o -> starts_with (s! "/") e = false ->
        o <> ClientSseTransport.base_url c
   end) /\
  (starting x = None -> forall in_time,
    match shut_down in_time x with
    | (r, x') =>
        is_shut_down x' = true /\ (forall i, i ∈ Stopper.holders (stop x') -> Stopper.woken_at (stop x') i = true) \/
        r = Err Cancelled /\ x' = x /\ exists i, Stopper.shutdown_source (stop x) = Some i /\ i ∉ Stopper.holders (stop x)
    end).
Proof.
  intros x post. assert (HI : Inv x) by (apply sse_reachable_inv; split; [apply StopperFacts.new_inv|done]). destruct HI as [HI _].
  assert (Hc : config x = c) by apply reachable_config. split.
  - intros i Hi. unfold finish_start. destruct endpoint as [[e|]|]; cbn; try (split_and!; [done|done|intros; done]).
    rewrite Hc. destruct (ClientSseTransport.validate_message_endpoint c e) as [url|err] eqn:E.
    + split_and!; [| |done|intros; by apply post_loop_items|].
      * exists e. split; [done|]. by apply validated_endpoint.
      * eexists. split; [done|]. by destruct (message_sender x).
      * intros ms ch rest Hcl Hp Hq Hr He Hms.
        pose proof (written_in_room buffered ms ch ltac:(eapply Forall_impl; [exact Hms|naive_solver]) Hcl Hp Hr) as HW.
        destruct (write_messages buffered ms ch) as [taken ch']. cbn [fst snd] in HW. rewrite HW, Hq, post_loop_items by done.
        cbn [app]. rewrite <-list_fmap_compose. apply Forall_fmap_ext_1. eapply Forall_impl; [exact Hms|]. intros [n m] (Ht & Hu & _).
        unfold compose, post. cbn [snd] in *. by rewrite from_utf8_lossy_valid, trim_snoc_LF.
    + split_and!; [done|done|]. intros e' o [= <-] Ho Hs. unfold ClientSseTransport.validate_message_endpoint in E.
      change (starts_with (s! "/") e) with (starts_with ["/"%char] e) in E. rewrite Hs, Ho in E. by case_bool_decide.
  - intros _ in_time. unfold shut_down, is_shut_down. pose proof (StopperFacts.cancel_all_spec (stop x) HI) as S.
    destruct (Stopper.cancel_all (stop x)) as [[u|e] st]; [left; by destruct S as (_ & ? & _ & _ & ?)|].
    destruct S as (-> & -> & ?). right. split_and!; [done|by destruct x|done].
Qed.
End SseClaims.

(** ** Examples *)

Module ClientTransportsDemo.
Abbreviation stdio := (StdioTransport.t nat bool bytes unit unit).
Definition launched : stdio := StdioTransport.create_with_server_launch (s! "server") [s! "--flag"] None 1000.
Definition child : StdioTransport.Child bytes := StdioTransport.mkChild (Some []) true true.
Definition running : stdio :=
  foldl StdioFacts.after launched [StdioFacts.EStart (Ok child) [] []; StdioFacts.EDispatch [MessageDispatcher.Register 7]].

(** [shut_down] is documented to kill the process; the process goes on. *)
Lemma process_survives_shutdown :
  (StdioTransport.shut_down running).1 = Ok tt /\
  StdioTransport.processes (StdioTransport.shut_down running).2 = [StdioTransport.Running].
Proof. split; reflexivity. Qed.

(** After the server closed its output, shutting down fails and the transport
    never counts as shut down. *)
Lemma shutdown_after_eof :
  let x := StdioTransport.reader_ends 0 running in
  (StdioTransport.shut_down x).1 = Err Cancelled /\ StdioTransport.is_shut_down (StdioTransport.shut_down x).2 = false.
Proof. split; reflexivity. Qed.

Definition config : ClientSseTransport.t unit := ClientSseTransport.mk (s! "https://good.example/sse") (s! "https://good.example") 5 1000 None.

(** An address with a scheme but without slashes has no origin for
    [extract_origin]; a URL parser reads it as the address of another host. *)
Lemma endpoint_of_other_host_accepted :
  ClientSseTransport.validate_message_endpoint config (s! "https:evil.example/messages") = Ok (s! "https:evil.example/messages").
Proof. reflexivity. Qed.

(** A message as long as the writer's buffer is passed on by itself, and its
    newline as a second item: the server gets the message and an empty body. *)
Definition buffered (size : nat) (m : str) : list bytes := if (length m <? size)%nat then [m ++ [LF]] else [m; [LF]].
Definition channel : WritableChannel.chan := WritableChannel.mkChan 64 false [] [].
Lemma long_message_posts_twice :
  let '(taken, ch) := SseClient.write_messages (buffered 4) [(0, s! "{12}")] channel in
  SseClient.post_loop (HM := unit) (s! "u") None ((fun b => SseClient.Data (Some b)) <$> (taken ++ WritableChannel.queue ch)) =
    [SseClient.mkPost (s! "u") None (s! "{12}"); SseClient.mkPost (s! "u") None []].
Proof. vm_compute. reflexivity. Qed.
End ClientTransportsDemo.
Import ClientTransportsDemo.

Lemma stdio_transport_lifecycle_witness :
  exists d, StdioTransport.message_sender (StdioTransport.process_exits 0 running) = Some d /\
    MessageDispatcher.pending_requests d = ∅ /\ MessageDispatcher.channels d !! 0 <> Some MessageDispatcher.Waiting.
Proof.
  destruct (stdio_transport_lifecycle launched [StdioFacts.EStart (Ok child) [] []; StdioFacts.EDispatch [MessageDispatcher.Register 7]] eq_refl eq_refl)
    as (_ & P & _).
  eexists. split; [reflexivity|]. destruct (P 0 _ eq_refl eq_refl) as [? Hc]. split; [done|apply Hc].
Defined.

Lemma sse_client_posts_witness :
  let x := SseClientFacts.after (RequestId := nat) (In := bool) (W := bytes) (T := unit) (St := unit) (SseClient.new config 1000) SseClientFacts.EStart in
  exists url x', SseClient.finish_start 0 (Some (Some (s! "/messages?sessionId=1"))) ([] : bytes) x = (Ok url, x') /\
    url = s! "https://good.example/messages?sessionId=1" /\
    let '(taken, ch) := SseClient.write_messages (buffered 8192) [(0, s! "{}"); (1, s! "[1]")] channel in
    SseClient.post_loop (HM := unit) url None (((fun b => SseClient.Data (Some b)) <$> (taken ++ WritableChannel.queue ch)) ++ []) =
      [SseClient.mkPost url None (s! "{}"); SseClient.mkPost url None (s! "[1]")].
Proof.
  intros x. eexists _, _. split; [reflexivity|]. split; [reflexivity|].
  destruct (proj1 (sse_client_posts (RequestId := nat) (In := bool) (T := unit) (St := unit) config 1000 [SseClientFacts.EStart]
    (Some (Some (s! "/messages?sessionId=1"))) ([] : bytes) (buffered 8192)) 0 eq_refl) as (_ & _ & _ & _ & P).
  apply (P [(0, s! "{}"); (1, s! "[1]")] channel []); try reflexivity.
  - split; [vm_compute; lia|]. split; [vm_compute; lia|done].
  - by left.
  - do 2 (apply Forall_cons_2; [split; [apply trimmed_graphic; by repeat constructor|split; reflexivity]|]). constructor.
Defined.
