(* ===== verification/StdioServer.v ===== *)
(** * The server over standard streams

    Models crates/rust-mcp-sdk/src/mcp_runtimes/server_runtime.rs: [new] with the
    tasks it spawns, [start] and [stderr_message], the parts of [ServerRuntime]
    that only a server over standard streams uses, and
    crates/rust-mcp-transport/src/stdio.rs as a [TransportDispatcher].

    As in ServerRuntime.v a task runs as one step, in any order; the channel by
    which tasks report is the list of results not yet taken. *)
From S2P Require Import Prelude RustStr EventStore IdGen Dispatcher Transport Auth TaskStore ServerRuntime Requests ClientTransports.
Import ServerRuntime.

(** ** The transport *)

Section StdioInstance.
Context {RequestId : Type} `{Countable RequestId} {In Out W T St : Type}.
Context `{!AsyncWrite W} `{!AckChannel T} `{!EventStore St} `{!Message RequestId In} `{!Message RequestId Out}.
Context (as_batch : Messages In -> result (list In) SdkError) (show_error : TransportError -> str).
Context (now : N) (env0 env : MessageDispatcher.t RequestId In W T St -> MessageDispatcher.t RequestId In W T St).
Context (spawned : result (StdioTransport.Child W) IoError) (stdout stderr : W).
Abbreviation transport := (StdioTransport.t RequestId In W T St).

(** [pending_request_tx] and sending on what it returns. *)
Definition stdio_deliver (id : RequestId) (m : In) (x : transport) : option bool * transport :=
  match StdioTransport.pending_request_tx id x with
  | (None, x) => (None, x)
  | (Some c, x) =>
      match StdioTransport.message_sender x with
      | None => (Some false, x)
      | Some d => let '(b, d) := MessageDispatcher.send_on c m d in (Some b, StdioTransport.set_sender (Some d) x)
      end
  end.
Definition stdio_dispatcher : TransportDispatcher RequestId In Out transport := {|
  tr_start := StdioTransport.start spawned stdout stderr;
  tr_shut_down := StdioTransport.shut_down;
  tr_is_shut_down := StdioTransport.is_shut_down;
  tr_keep_alive := StdioTransport.keep_alive 0;
  tr_consume_string_payload := StdioTransport.consume_string_payload;
  tr_send_message := fun m timeout => StdioTransport.with_sender (MessageDispatcher.server_send_message show_error now env0 env m timeout);
  tr_send_batch := fun ms timeout => StdioTransport.with_sender (MessageDispatcher.server_send_batch as_batch show_error now env0 env ms timeout);
  tr_deliver := stdio_deliver;
|}.
End StdioInstance.

(** ** The runtime *)

Module StdioServer.
Section Runtime.
Context {RequestId Req Notif Resp Out ResultFromServer Extra Details Tr : Type}.
Abbreviation CM := (ClientMessage RequestId Req Notif Resp).
Context `{!TransportDispatcher RequestId CM Out Tr}.
Abbreviation session := (state Extra Details Tr).
Context (answer_message : ResultFromServer + RpcError -> RequestId -> result Out RpcError).
Context (handle_request : RequestId -> Req -> session -> result ResultFromServer RpcError * session).
Context (handle_notification : Notif -> Act session McpSdkError unit) (handle_error : RpcError -> Act session McpSdkError unit).

(** [new]: the runtime and the only transport it will have. *)
Definition new (transport : Tr) : session := mkState [transport] (ServerRuntime.new 0).

(** *** [start] *)

(** What the loop sees: a message, a task that ends, the end of the stream. *)
Inductive event := Incoming (m : Messages CM) | TaskDone (k : nat) | StreamEnds.
Abbreviation loop := (ServerRuntime.loop RequestId Req Notif Resp).

(** [drop(tx)] and the results that remain. *)
Definition settle (l : loop) : loop :=
  match first_error (results l), pending l with
  | Some e, _ => mkLoop (Ended (Err e)) (pending l) []
  | None, _ :: _ => mkLoop (Draining false) (pending l) []
  | None, [] => mkLoop (Ended (Ok tt)) [] []
  end.
Definition loop_step (transport : nat) (ls : loop * session) (e : event) : loop * session :=
  let '(l, s) := ls in
  match e with
  | TaskDone k =>
      match pending l !! k with
      | None => (l, s)
      | Some m =>
          let '(r, s) := handle_messages answer_message handle_request handle_notification handle_error m transport s in
          let r := match r with Ok _ => Ok tt | Err e => Err e end in
          match lphase l with
          | Reading => (mkLoop Reading (delete k (pending l)) (results l ++ [r]), s)
          | Draining d => (settle (mkLoop (Draining d) (delete k (pending l)) [r]), s)
          | Ended res => (mkLoop (Ended res) (delete k (pending l)) [], s) (* nobody receives the result *)
          end
      end
  | Incoming m =>
      match lphase l with
      | Reading =>
          match first_error (results l) with
          | Some e => (mkLoop (Ended (Err e)) (pending l ++ [m]) [], s)
          | None => (mkLoop Reading (pending l ++ [m]) [], s)
          end
      | _ => (l, s)
      end
  | StreamEnds => match lphase l with Reading => (settle l, s) | _ => (l, s) end
  end.
Definition start (events : list event) (s : session) : loop * session :=
  match transport_map (rt s) with
  | None => (mkLoop (Ended (Err (no_transport TRANSPORT_CLOSED))) [] [], s)
  | Some i =>
      match on_transport i tr_start s with
      | (Err e, s) => (mkLoop (Ended (Err e)) [] [], s)
      | (Ok _, s) => foldl (loop_step i) (new_loop, s) events
      end
  end.
End Runtime.
Arguments event RequestId Req Notif Resp : clear implicits.
Arguments Incoming {RequestId Req Notif Resp} m.
Arguments TaskDone {RequestId Req Notif Resp} k.
Arguments StreamEnds {RequestId Req Notif Resp}.

(** *** What [new] spawns *)

Section Background.
Context {session RequestId Params Value R M Meta Status Store : Type} `{!Results Value R} `{!Received RequestId R M}.
Context `{!TaskStoreOps (RequestId * FromServer.request * Params) R Meta Status Store}.
Context (send_request : FromServer.request -> Params -> option N -> Act session McpSdkError (option M)).
Context (send : FromServer.notification -> Params -> Act session McpSdkError unit).
Context (is_task_augmented : FromServer.request -> Params -> bool) (as_create_task : R -> option (CreatedTask Meta)).
Context (client_task_store : session -> option Store) (set_client_task_store : Store -> session -> session).
Context (session_id : session -> option str).
Context (task_id_params : str -> Params) (task_status : Value -> Status) (task_poll_interval : Value -> option Z).
Context (is_terminal : Value -> bool).

(** Every status change of the task store is sent, whichever session it is of. *)
Definition forward_status (stream : list (Params * option str)) (s : session) : session :=
  foldl (fun s item => (McpServer.notify_task_status send item.1 s).2) s stream.
(** The callback of the task polling. *)
Definition poller (task_id : str) (se : option str) : Act session McpSdkError (Status * option Z) :=
  McpServer.poll_task_status send_request is_task_augmented as_create_task client_task_store set_client_task_store
    session_id task_id_params task_status task_poll_interval is_terminal task_id se.
End Background.

(** *** [stderr_message] *)

Section Stderr.
Context {RequestId : Type} `{Countable RequestId} {In W T St Extra Details : Type} `{!AsyncWrite W}.
Abbreviation transport := (StdioTransport.t RequestId In W T St).
Abbreviation session := (state Extra Details transport).

Definition set_error_stream (io : StdioTransport.IoStream (W := W)) (x : transport) : transport :=
  StdioTransport.mk (StdioTransport.command x) (StdioTransport.args x) (StdioTransport.env x) (StdioTransport.timeout x)
    (StdioTransport.stop x) (StdioTransport.message_sender x) (Some io) (StdioTransport.processes x).
Definition io {A} (f : W -> result A IoError * W) : Act W McpSdkError A :=
  fun w => let '(r, w) := f w in ((match r with Ok a => Ok a | Err e => Err (EIo e) end), w).
Definition write_message (message : str) : Act W McpSdkError unit :=
  do _ <- io (fun w => write_all w message); do _ <- io (fun w => write_all w [LF]); io flush.
Definition stderr_message (message : str) : Act session McpSdkError unit :=
  fun s =>
    match transport_map (rt s) with
    | None => (Err (no_transport TRANSPORT_CLOSED), s)
    | Some i =>
        match heap s !! i with
        | Some x =>
            match StdioTransport.error_stream x with
            | Some (StdioTransport.Writable w) =>
                let '(r, w) := write_message message w in
                (r, mkState (<[i := set_error_stream (StdioTransport.Writable w) x]> (heap s)) (rt s))
            | _ => (Ok tt, s)
            end
        | None => (Ok tt, s)
        end
    end.
End Stderr.
End StdioServer.
