(* ===== verification/StdioSession.v ===== *)
(** * A session over standard streams

    The client of crates/rust-mcp-sdk/src/mcp_runtimes/client_runtime.rs and the
    server of server_runtime.rs, connected by the pipes of
    crates/rust-mcp-transport/src/stdio.rs and read with mcp_stream.rs: a step
    relation over the two runtimes, in which callers, readers, the server's tasks
    and the client's main task take turns in any order. *)
From S2P Require Import Prelude RustStr LineReader EventStore IdGen Dispatcher Transport Auth TaskStore ServerRuntime Requests.
From S2P Require Import ClientRuntime StreamableClient ClientTransports StdioServer.

(** ** The transport of the client *)

Section ClientInstance.
Context {RequestId : Type} `{Countable RequestId} {In Out W T St : Type}.
Context `{!AsyncWrite W} `{!AckChannel T} `{!EventStore St} `{!Message RequestId In} `{!Message RequestId Out}.
Context (show_error : TransportError -> str) (spawned : result (StdioTransport.Child W) IoError) (stdout stderr : W).
Abbreviation transport := (StdioTransport.t RequestId In W T St).

(** The runtime makes no transport of its own over standard streams, and its
    main task is given the items of the stream. *)
Definition stdio_client : ClientTransport RequestId In Out unit transport := {|
  Receivers := receivers (RequestId := RequestId);
  ct_new := fun _ _ => act_fail (Sdk (mkSdkError connection_closed None));
  ct_start := StdioTransport.start spawned stdout stderr;
  ct_write := fun m => StdioTransport.with_sender (write_half m);
  ct_waits := waits;
  ct_await := fun timeout rx => StdioTransport.with_sender (await_half show_error timeout rx);
  ct_next := fun x => (Closed, x);
  ct_deliver := stdio_deliver;
  ct_session_id := fun _ => None;
  ct_shut_down := StdioTransport.shut_down;
|}.
End ClientInstance.

(** ** The system *)

Module StdioSession.
Section System.
Context {RequestId : Type} `{Countable RequestId}.
(** Messages of the client and of the server. *)
Context {Req Notif Resp SReq SNotif SResp : Type}.
Abbreviation CM := (ServerRuntime.ClientMessage RequestId Req Notif Resp).
Abbreviation SM := (ClientRuntime.ServerMessage RequestId SReq SNotif SResp).
Context `{!Message RequestId CM} `{!Message RequestId SM}.
Context {W T St : Type} `{!AsyncWrite W} `{!AsyncWriteLaws W} `{!AckChannel T} `{!EventStore St}.
Context {Extra Details ServerInfo U ResultFromServer ResultFromClient : Type}.
Abbreviation ClientTr := (StdioTransport.t RequestId SM W T St).
Abbreviation ServerTr := (StdioTransport.t RequestId CM W T St).
Abbreviation client_state := (ClientRuntime.state ServerInfo unit ClientTr U).
Abbreviation session := (ServerRuntime.state Extra Details ServerTr).
Abbreviation loop := (ServerRuntime.loop RequestId Req Notif Resp).

Context (show_error : TransportError -> str) (as_batch : Messages CM -> result (list CM) SdkError).
Context (now : N) (env0 env : MessageDispatcher.t RequestId CM W T St -> MessageDispatcher.t RequestId CM W T St).
(** The pipes and standard streams the transports are started with. *)
Context (spawned : result (StdioTransport.Child W) IoError) (stdout stderr client_stdout client_stderr : W).
#[local] Instance server_transport : TransportDispatcher RequestId CM SM ServerTr :=
  stdio_dispatcher as_batch show_error now env0 env (Err (mkIoError false [])) stdout stderr.
#[local] Instance client_transport : ClientTransport RequestId SM CM unit ClientTr :=
  stdio_client show_error spawned client_stdout client_stderr.

(** The server's handler and messages; the client's. *)
Context (answer_message : ResultFromServer + RpcError -> RequestId -> result SM RpcError).
Context (handle_request : RequestId -> Req -> session -> result ResultFromServer RpcError * session).
Context (handle_notification : Notif -> Act session McpSdkError unit) (handle_error : RpcError -> Act session McpSdkError unit).
Context (client_answer : ResultFromClient + RpcError -> RequestId -> result CM RpcError).
Context (client_handle_request : RequestId -> SReq -> Act client_state RpcError ResultFromClient).
Context (client_handle_notification : SNotif -> Act client_state McpSdkError unit).
Context (client_handle_error : RpcError -> Act client_state McpSdkError unit).
(** [serde_json::from_str] and [max_line_length]. *)
Context (decode_client : str -> option (Messages CM)) (decode_server : str -> option (Messages SM)) (max : nat).

Record sys := mkSys {
  client : client_state;
  to_server : nat; (* the bytes of the client's pipe the server has read *)
  server : loop * session;
  to_client : nat;
  calls : list (RequestId * Req * nat); (* with the channel each waits on *)
}.

(** What was written to a pipe so far. *)
Definition out_of {In} (x : option (StdioTransport.t RequestId In W T St)) : bytes :=
  match x with
  | Some x => match StdioTransport.message_sender x with
              | Some d => from_option written [] (MessageDispatcher.writable_std d)
              | None => []
              end
  | None => []
  end.
Definition client_out (s : client_state) : bytes := out_of (ClientRuntime.heap s !! 0).
Definition server_out (s : session) : bytes := out_of (ServerRuntime.heap s !! 0).

(** The reader at the end of a pipe takes the next line, when there is one,
    however the bytes arrive. *)
Definition reads (sent : bytes) (taken : nat) (line : LineRead) (taken' : nat) : Prop :=
  exists r rest : list (item unit), chunks_ok r /\ stream r = drop taken sent /\ LF ∈ stream r /\
    read_capped_line max [] r = (Ok line, rest) /\ taken' = length sent - length (stream rest).
Definition on_line {A B} (decode : str -> option A) (f : A -> B -> B) (line : LineRead) (b : B) : B :=
  match line with Line l => from_option (fun m => f m b) b (decode l) | _ => b end.

Abbreviation server_step := (StdioServer.loop_step answer_message handle_request handle_notification handle_error 0).
Definition handle_item (m : Messages SM) (s : client_state) : client_state :=
  (ClientRuntime.main_task client_answer client_handle_request client_handle_notification client_handle_error 0 [m] s).2.

(** A caller sends a request under a new id. *)
Inductive call : sys -> sys -> Prop :=
| do_call x id r c s :
    id ∉ (calls x).*1.*1 ->
    ClientRuntime.on_transport 0 (ct_write (Dispatcher.Single (ServerRuntime.Request id r : CM))) (client x) = (Ok (One c), s) ->
    call x (mkSys s (to_server x) (server x) (to_client x) (calls x ++ [(id, r, c)])).
(** The readers, the server's tasks and the client's main task. *)
Inductive deliver : sys -> sys -> Prop :=
| server_reads x line n : reads (client_out (client x)) (to_server x) line n ->
    deliver x (mkSys (client x) n (on_line decode_client (fun m ls => server_step ls (StdioServer.Incoming m)) line (server x))
                 (to_client x) (calls x))
| server_handles x k : k < length (ServerRuntime.pending (server x).1) ->
    deliver x (mkSys (client x) (to_server x) (server_step (server x) (StdioServer.TaskDone k)) (to_client x) (calls x))
| client_reads x line n : reads (server_out (server x).2) (to_client x) line n ->
    deliver x (mkSys (on_line decode_server handle_item line (client x)) (to_server x) (server x) n (calls x)).
Definition step (x y : sys) : Prop := call x y \/ deliver x y.

(** Both ends just started: nothing written, nothing read, no request pending. *)
Definition started (x : sys) : Prop :=
  (exists tr tr' rt n sl u, StdioTransport.message_sender tr = None /\
     StdioTransport.start spawned client_stdout client_stderr tr = (Ok tt, tr') /\
     client x = ClientRuntime.mkState [tr'] n rt sl u /\ client_out (client x) = []) /\
  (exists tr tr' rt, StdioTransport.message_sender tr = None /\ StdioTransport.command tr = None /\
     StdioTransport.start (Err (mkIoError false [])) stdout stderr tr = (Ok tt, tr') /\
     server x = (ServerRuntime.new_loop, ServerRuntime.mkState [tr'] rt) /\ is_some (ServerRuntime.client_details rt) = true /\
     server_out (server x).2 = []) /\
  to_server x = 0 /\ to_client x = 0 /\ calls x = [].
End System.
End StdioSession.

(** ** Facts *)

Module StdioSessionFacts.
Import StdioSession.

(** *** Lines in a pipe *)

Section Pipes.
Context {A : Type} (text : A -> str) (max : nat).
Definition lines (l : list A) : bytes := l ≫= (fun a => text a ++ [LF]).

Lemma lines_cons a l : lines (a :: l) = text a ++ LF :: lines l.
Proof. unfold lines. cbn. by rewrite <-app_assoc. Qed.
Lemma lines_app l l' : lines (l ++ l') = lines l ++ lines l'.
Proof. apply bind_app. Qed.

(** The next line of a pipe that holds lines. *)
Lemma reads_lines sent n l line n' : Forall (fun a => clean max (text a)) l -> n <= length sent -> drop n sent = lines l ->
  reads max sent n line n' ->
  exists a l', l = a :: l' /\ line = Line (text a) /\ drop n' sent = lines l' /\ n' <= length sent.
Proof.
  intros Hc Hn Hl (r & rest & Hr & Hs & Hlf & Hread & ->). destruct l as [|a l].
  { rewrite Hs, Hl in Hlf. by apply elem_of_nil in Hlf. }
  apply Forall_cons in Hc as [Ha _]. exists a, l. split; [done|].
  destruct (read_capped_spec max r [] Hr eq_refl (Nat.le_0_l _)) as (r' & E & _ & Hrest).
  assert (F : first_line max (stream r) = (Line (text a), lines l)) by (by rewrite Hs, Hl, lines_cons, first_line_clean).
  rewrite Hread in E. cbn [app] in E, Hrest. rewrite F in E, Hrest. injection E as -> ->. cbn [snd] in Hrest.
  split; [done|]. split; [|lia].
  rewrite Hrest. rewrite <-(take_drop n sent) at 2. rewrite Hl, lines_cons.
  replace (take n sent ++ text a ++ LF :: lines l) with ((take n sent ++ text a ++ [LF]) ++ lines l)
    by (rewrite <-!app_assoc; done).
  assert (E : length sent - length (lines l) = length (take n sent ++ text a ++ [LF])).
  { rewrite <-(take_drop n sent) at 1. rewrite Hl, lines_cons, !length_app. simpl. lia. }
  rewrite E. apply drop_app_length.
Qed.
(** What a pipe that holds lines will give next. *)
Lemma lines_read sent n a l : drop n sent = lines (a :: l) -> clean max (text a) -> exists line n', reads max sent n line n'.
Proof.
  intros Hl Ha. exists (Line (text a)).
  set (r := [Data (drop n sent)] : list (item unit)).
  assert (Hr : chunks_ok r).
  { repeat constructor. exists (drop n sent). split; [done|]. rewrite Hl, lines_cons. by destruct (text a). }
  destruct (read_capped_spec max r [] Hr eq_refl (Nat.le_0_l _)) as (rest & E & _ & _).
  assert (Hs : stream r = drop n sent) by (unfold stream, r; cbn; by rewrite app_nil_r).
  eexists _, r, rest. split_and!; [done|done| | |done].
  - rewrite Hs, Hl, lines_cons. apply elem_of_app. right. left.
  - rewrite E. cbn [app]. by rewrite Hs, Hl, lines_cons, first_line_clean.
Qed.
Lemma no_line_read sent n line n' : drop n sent = [] -> ~ reads max sent n line n'.
Proof. intros Hd (r & rest & _ & Hs & Hlf & _). rewrite Hs, Hd in Hlf. by apply elem_of_nil in Hlf. Qed.
End Pipes.

(** *** Writing *)

Section Writing.
Import MessageDispatcher DispatcherFacts.
Context {RequestId : Type} `{Countable RequestId} {In Out W T St : Type}.
Context `{!AsyncWrite W} `{!AsyncWriteLaws W} `{!AckChannel T} `{!EventStore St} `{!Message RequestId In} `{!Message RequestId Out}.
Implicit Types (d : MessageDispatcher.t RequestId In W T St).

Lemma write_request d d' (m : Out) id payload c w : is_request_of m id -> to_json (RequestId := RequestId) m = Some payload ->
  writable_std d = Some w -> write_half (Dispatcher.Single m) d = (Ok (One c), d') ->
  c = length (channels d) /\ pending_requests d' = pending_requests (apply d (Register id)) /\
  channels d' = channels (apply d (Register id)) /\
  exists w', writable_std d' = Some w' /\ written w' = written w ++ payload ++ [LF].
Proof.
  intros Hm Hj Hw. unfold write_half, act_bind. rewrite (register_message d m id Hm). unfold serialize, act_lift, ok_or. rewrite Hj.
  pose proof (framed_keeps (client_write_str payload true) (apply d (Register id)) (client_write_framed payload true)) as [Kp Kc].
  destruct (client_write_str payload true (apply d (Register id))) as [[[]|e] d1] eqn:E; [|done]. intros [= <- <-].
  destruct (write_line_spec None payload (apply d (Register id)) d1 w E Hw) as (w' & ? & _ & ?).
  split_and!; [done|done|done|by exists w'].
Qed.

(** Pipes that stay open. *)
Definition pipes_open : Prop :=
  (forall (w : W) b, exists w', write_all w b = (Ok tt, w')) /\ forall w : W, exists w', flush w = (Ok tt, w').
Lemma std_do_open (f : W -> result unit IoError * W) d w : (forall w, exists w', f w = (Ok tt, w')) -> writable_std d = Some w ->
  exists w', std_do f d = (Ok tt, with_std (Some w') d).
Proof. intros Hf Hw. unfold std_do. rewrite Hw. destruct (Hf w) as [w' ->]. by exists w'. Qed.
Lemma write_answer show_error now env0 env d (o : Out) payload w timeout :
  pipes_open -> is_request (RequestId := RequestId) o = false -> to_json (RequestId := RequestId) o = Some payload ->
  writable_std d = Some w -> session_id d = None ->
  exists w', server_send_message show_error now env0 env (Dispatcher.Single o) timeout d = (Ok None, with_std (Some w') d) /\
    written w' = written w ++ payload ++ [LF].
Proof.
  intros [Hwr Hfl] Hr Hj Hw Hs.
  assert (E : exists w', server_write_str now payload false d = (Ok tt, with_std (Some w') d)).
  { unfold server_write_str, store_for_resume, act_bind. rewrite Hs.
    assert (D : exists w', write_line None payload d = (Ok tt, with_std (Some w') d)).
    { unfold write_line, act_bind, act_ret. rewrite Hw. cbn [is_some].
      destruct (std_do_open (fun w => write_all w payload) d w) as [w1 ->]; [eauto|done|].
      destruct (std_do_open (fun w => write_all w [LF]) (with_std (Some w1) d) w1) as [w2 ->]; [eauto|done|].
      destruct (std_do_open flush (with_std (Some w2) (with_std (Some w1) d)) w2) as [w3 ->]; [eauto|done|]. by exists w3. }
    by destruct (_ && _). }
  destruct E as [w' E]. exists w'. split.
  - unfold server_send_message, act_get, act_bind, store_pending_request_for_message. rewrite Hr.
    unfold act_ret, serialize, act_lift, ok_or. by rewrite Hj, E.
  - destruct (server_write_spec d _ w now payload false Hw E) as (w1 & [= <-] & Hsp). rewrite Hs in Hsp.
    destruct (_ && _); apply Hsp.
Qed.
End Writing.

(** *** Where a call is *)

Section Session.
Import StdioSession MessageDispatcher DispatcherFacts.
Context {RequestId : Type} `{Countable RequestId}.
Context {Req Notif Resp SReq SNotif SResp : Type}.
Abbreviation CM := (ServerRuntime.ClientMessage RequestId Req Notif Resp).
Abbreviation SM := (ClientRuntime.ServerMessage RequestId SReq SNotif SResp).
Context `{!Message RequestId CM} `{!Message RequestId SM}.
Context {W T St : Type} `{!AsyncWrite W} `{!AsyncWriteLaws W} `{!AckChannel T} `{!EventStore St}.
Context {Extra Details ServerInfo U ResultFromServer ResultFromClient : Type}.
Abbreviation ClientTr := (StdioTransport.t RequestId SM W T St).
Abbreviation ServerTr := (StdioTransport.t RequestId CM W T St).
Abbreviation client_state := (ClientRuntime.state ServerInfo unit ClientTr U).
Abbreviation session := (ServerRuntime.state Extra Details ServerTr).
Abbreviation sys := (sys (RequestId := RequestId) (Req := Req) (Notif := Notif) (Resp := Resp) (SReq := SReq) (SNotif := SNotif)
  (SResp := SResp) (W := W) (T := T) (St := St) (Extra := Extra) (Details := Details) (ServerInfo := ServerInfo) (U := U)).
Context (show_error : TransportError -> str) (as_batch : Messages CM -> result (list CM) SdkError).
Context (now : N) (env0 env : MessageDispatcher.t RequestId CM W T St -> MessageDispatcher.t RequestId CM W T St).
Context (spawned : result (StdioTransport.Child W) IoError) (stdout stderr client_stdout client_stderr : W).
#[local] Instance served : TransportDispatcher RequestId CM SM ServerTr :=
  stdio_dispatcher as_batch show_error now env0 env (Err (mkIoError false [])) stdout stderr.
#[local] Instance connected : ClientTransport RequestId SM CM unit ClientTr :=
  stdio_client show_error spawned client_stdout client_stderr.
Context (answer_message : ResultFromServer + RpcError -> RequestId -> result SM RpcError).
Context (handle_request : RequestId -> Req -> session -> result ResultFromServer RpcError * session).
Context (handle_notification : Notif -> Act session McpSdkError unit) (handle_error : RpcError -> Act session McpSdkError unit).
Context (client_answer : ResultFromClient + RpcError -> RequestId -> result CM RpcError).
Context (client_handle_request : RequestId -> SReq -> Act client_state RpcError ResultFromClient).
Context (client_handle_notification : SNotif -> Act client_state McpSdkError unit).
Context (client_handle_error : RpcError -> Act client_state McpSdkError unit).
Context (decode_client : str -> option (Messages CM)) (decode_server : str -> option (Messages SM)) (max : nat).
Context (reply : RequestId -> Req -> result ResultFromServer RpcError) (answer : RequestId -> Req -> SM).
Context (request_json answer_json : RequestId -> Req -> str).

(** What is relied on: the server's handler replies to a request and sends
    nothing itself; messages are written as one line within the limit and read
    back; the client's error handler does not fail; the pipes stay open. *)
Record protocol : Prop := {
  replies id r (s : session) : exists rt', handle_request id r s = (reply id r, ServerRuntime.mkState (ServerRuntime.heap s) rt') /\
    (is_some (ServerRuntime.client_details (ServerRuntime.rt s)) = true -> is_some (ServerRuntime.client_details rt') = true);
  answers id r : answer_message (match reply id r with Ok v => inl v | Err e => inr e end) id = Ok (answer id r);
  answer_kind id r : (exists v, answer id r = ClientRuntime.Response id v) \/ (exists e, answer id r = ClientRuntime.ErrorMessage (Some id) e);
  answer_line id r : is_request (RequestId := RequestId) (answer id r) = false /\ to_json (RequestId := RequestId) (answer id r) = Some (answer_json id r) /\
    decode_server (answer_json id r) = Some (Dispatcher.Single (answer id r)) /\ clean max (answer_json id r);
  request_line id r : is_request_of (ServerRuntime.Request id r : CM) id /\
    to_json (RequestId := RequestId) (ServerRuntime.Request id r : CM) = Some (request_json id r) /\
    decode_client (request_json id r) = Some (Dispatcher.Single (ServerRuntime.Request id r)) /\ clean max (request_json id r);
  errors_handled e (s : client_state) : exists s', client_handle_error e s = (Ok tt, s') /\ ClientRuntime.heap s' = ClientRuntime.heap s;
  stay_open : pipes_open (W := W);
}.
Context (P : protocol).

Abbreviation server_step := (StdioServer.loop_step answer_message handle_request handle_notification handle_error 0).
Abbreviation handle_item := (StdioSession.handle_item show_error spawned client_stdout client_stderr client_answer client_handle_request
  client_handle_notification client_handle_error).
Abbreviation call := (call show_error spawned client_stdout client_stderr).
Abbreviation deliver := (StdioSession.deliver show_error as_batch now env0 env spawned stdout stderr client_stdout client_stderr answer_message handle_request
  handle_notification handle_error client_answer client_handle_request client_handle_notification client_handle_error decode_client decode_server max).

Definition request_text (p : RequestId * Req) : str := request_json p.1 p.2.
Definition answer_text (p : RequestId * Req) : str := answer_json p.1 p.2.
Definition task (p : RequestId * Req) : Messages CM := Dispatcher.Single (ServerRuntime.Request p.1 p.2).

(** The calls whose requests are in the pipe, whose tasks run, whose answers are
    in the pipe back, and which are answered. *)
Record places (x : sys) (L1 L2 L3 L4 : list (RequestId * Req)) : Prop := {
  once : (calls x).*1 ≡ₚ L1 ++ L2 ++ L3 ++ L4;
  distinct : NoDup (calls x).*1.*1;
  sent : to_server x <= length (client_out (client x)) /\ drop (to_server x) (client_out (client x)) = lines request_text L1;
  running : exists rs, (server x).1 = ServerRuntime.mkLoop ServerRuntime.Reading (task <$> L2) rs /\ ServerRuntime.first_error rs = None;
  returned : to_client x <= length (server_out (server x).2) /\ drop (to_client x) (server_out (server x).2) = lines answer_text L3;
  serving : ServerRuntime.is_initialized (server x).2 = true /\ exists xs ds w, ServerRuntime.heap (server x).2 !! 0 = Some xs /\
    StdioTransport.message_sender xs = Some ds /\ writable_std ds = Some w /\ session_id ds = None;
  waiting_calls : exists xc dc w, ClientRuntime.heap (client x) !! 0 = Some xc /\ StdioTransport.message_sender xc = Some dc /\
    writable_std dc = Some w /\ WF dc /\
    forall id r c, (id, r, c) ∈ calls x -> slot dc id c (if decide (id ∈ L4.*1) then Some (Sent (answer id r)) else None);
}.

Lemma client_out_at (s : client_state) xc dc w : ClientRuntime.heap s !! 0 = Some xc -> StdioTransport.message_sender xc = Some dc ->
  writable_std dc = Some w -> client_out s = written w.
Proof. intros Hx Hd Hw. unfold client_out, out_of. by rewrite Hx, Hd, Hw. Qed.
Lemma server_out_at (s : session) xs ds w : ServerRuntime.heap s !! 0 = Some xs -> StdioTransport.message_sender xs = Some ds ->
  writable_std ds = Some w -> server_out s = written w.
Proof. intros Hx Hd Hw. unfold server_out, out_of. by rewrite Hx, Hd, Hw. Qed.
Lemma answered_in x L1 L2 L3 L4 id : places x L1 L2 L3 L4 -> id ∈ L4.*1 -> id ∈ (calls x).*1.*1.
Proof. intros [Ho _ _ _ _ _ _]. rewrite Ho, !fmap_app, !elem_of_app. auto. Qed.

(** A caller sends. *)
Lemma call_places x y L1 L2 L3 L4 : places x L1 L2 L3 L4 -> call x y ->
  exists p, places y (L1 ++ [p]) L2 L3 L4.
Proof.
  intros HP Hc. revert HP. destruct Hc as [x id r c s Hid Hcall]. intros HP. exists (id, r).
  pose proof HP as [Ho Hd [Hn Hs] Hr Hb Hv (xc & dc & w & Hx & Hm & Hw & Hwf & Hslots)].
  destruct (request_line P id r) as (Hreq & Hj & _ & _).
  unfold ClientRuntime.on_transport in Hcall. rewrite Hx in Hcall. cbn [ct_write client_transport stdio_client] in Hcall.
  unfold StdioTransport.with_sender in Hcall. rewrite Hm in Hcall.
  destruct (write_half (Dispatcher.Single (ServerRuntime.Request id r : CM)) dc) as [[rx|e] d'] eqn:E; [|done].
  injection Hcall as -> <-.
  destruct (write_request dc d' _ id _ c w Hreq Hj Hw E) as (-> & Kp & Kc & w' & Hw' & Hwr).
  pose proof (lookup_lt_Some _ _ _ Hx) as Hl.
  assert (Hx' : (<[0:=StdioTransport.set_sender (Some d') xc]> (ClientRuntime.heap (client x))) !! 0 = Some (StdioTransport.set_sender (Some d') xc))
    by (by rewrite list_lookup_insert_eq).
  assert (Hn4 : id ∉ L4.*1) by (intros K; by apply Hid, (answered_in x L1 L2 L3 L4)).
  rewrite (client_out_at _ _ _ _ Hx Hm Hw) in Hn, Hs.
  constructor; cbn [client server to_server to_client calls]; try done.
  - rewrite fmap_app, Ho. cbn. solve_Permutation.
  - rewrite !fmap_app. apply NoDup_app. split_and!; [done| |apply NoDup_singleton]. intros i Hi Hi'. apply list_elem_of_singleton in Hi' as ->. done.
  - rewrite (client_out_at (ClientRuntime.mkState _ _ _ _ _) _ _ w' Hx' eq_refl Hw'), Hwr, length_app, drop_app_le, Hs, lines_app by lia.
    split; [lia|]. unfold lines at 2. cbn. by rewrite app_nil_r.
  - exists (StdioTransport.set_sender (Some d') xc), d', w'. split_and!; [done|done|done|by eapply wf_ext, apply_wf|].
    intros id' r' c' [Hin|Hin]%elem_of_app; apply (slot_ext (apply dc (Register id)) d' _ _ _ Kp Kc).
    + assert (Hne : id' <> id) by (intros ->; apply Hid; apply list_elem_of_fmap; exists (id, r'); split; [done|];
                                    apply list_elem_of_fmap; by exists (id, r', c')).
      pose proof (apply_slot dc id' c' _ (Register id) Hwf ltac:(simpl; by apply bool_decide_eq_false) (Hslots id' r' c' Hin)) as A.
      by destruct (decide (id' ∈ L4.*1)).
    + apply list_elem_of_singleton in Hin as [= -> -> ->]. rewrite decide_False by done. by apply register_slot.
Qed.

(** The server takes a request. *)
Lemma server_reads_places x L1 L2 L3 L4 line n : places x L1 L2 L3 L4 -> reads max (client_out (client x)) (to_server x) line n ->
  exists p L1', L1 = p :: L1' /\
    places (mkSys (client x) n (on_line decode_client (fun m ls => server_step ls (StdioServer.Incoming m)) line (server x)) (to_client x) (calls x))
      L1' (L2 ++ [p]) L3 L4.
Proof.
  intros HP Hread. pose proof HP as [Ho Hd [Hn Hs] (rs & Hl & Hrs) Hb Hv Hw].
  destruct (reads_lines request_text max _ _ L1 _ _ ltac:(apply Forall_forall; intros p _; apply (request_line P)) Hn Hs Hread)
    as (p & L1' & -> & -> & Hs' & Hn').
  exists p, L1'. split; [done|]. unfold on_line. destruct (request_line P p.1 p.2) as (_ & _ & Hdec & _).
  change (decode_client (request_text p)) with (decode_client (request_json p.1 p.2)). rewrite Hdec. cbn [from_option].
  destruct (server x) as [l s] eqn:Ex. cbn [fst] in Hl. subst l. cbn [fst snd] in *.
  unfold StdioServer.loop_step. cbn [ServerRuntime.lphase ServerRuntime.results ServerRuntime.pending]. rewrite Hrs.
  constructor; cbn [client server to_server to_client calls fst snd]; rewrite ?Ex; cbn [fst snd]; try done.
  - rewrite Ho. solve_Permutation.
  - exists []. by rewrite fmap_app.
Qed.

Lemma first_error_snoc {E} (rs : list (result unit E)) : ServerRuntime.first_error rs = None -> ServerRuntime.first_error (rs ++ [Ok tt]) = None.
Proof. induction rs as [|[]]; cbn; auto; done. Qed.

(** A task of the server handles its request and answers. *)
Lemma server_handles_places x L1 L2 L3 L4 k : places x L1 L2 L3 L4 -> k < length (ServerRuntime.pending (server x).1) ->
  exists p, L2 !! k = Some p /\
    places (mkSys (client x) (to_server x) (server_step (server x) (StdioServer.TaskDone k)) (to_client x) (calls x))
      L1 (base.delete k L2) (L3 ++ [p]) L4.
Proof.
  intros HP Hk. pose proof HP as [Ho Hd Hs (rs & Hl & Hrs) [Hbn Hb] [Hi (xs & ds & w & Hx & Hm & Hw & Hse)] Hwt].
  destruct (server x) as [l s] eqn:Ex. cbn [fst snd] in *. subst l. cbn [ServerRuntime.pending] in Hk. rewrite length_fmap in Hk.
  destruct (lookup_lt_is_Some_2 L2 k Hk) as [p Hp]. exists p. split; [done|].
  unfold StdioServer.loop_step. cbn [ServerRuntime.pending ServerRuntime.lphase ServerRuntime.results].
  rewrite list_lookup_fmap, Hp. cbn [fmap option_fmap option_map]. unfold task at 1. cbn [ServerRuntime.handle_messages].
  unfold ServerRuntime.handle_single, ServerRuntime.handle_message.
  destruct (replies P p.1 p.2 s) as (rt' & Hrep & Hinit). rewrite Hrep.
  pose proof (answers P p.1 p.2) as Ha. destruct (answer_line P p.1 p.2) as (Hr & Hj & _ & _).
  specialize (Hinit Hi).
  assert (Hi' : ServerRuntime.is_initialized (ServerRuntime.mkState (ServerRuntime.heap s) rt') = true) by exact Hinit.
  rewrite (server_out_at _ _ _ _ Hx Hm Hw) in Hbn, Hb.
  destruct (write_answer show_error now env0 env ds (answer p.1 p.2) _ w None (stay_open P) Hr Hj Hw Hse) as (w' & Hsend & Hwr).
  assert (E : exists s', (let '(res, s0) := (reply p.1 p.2, ServerRuntime.mkState (ServerRuntime.heap s) rt') in
      match res with
      | Ok success_value => (do m <- ServerRuntime.lift_rpc (answer_message (inl success_value) p.1); act_ret (Some m)) s0
      | Err error_value => if negb (ServerRuntime.is_initialized s0) then (Err (ERpcError error_value), s0)
                           else (do m <- ServerRuntime.lift_rpc (answer_message (inr error_value) p.1); act_ret (Some m)) s0
      end) = (Ok (Some (answer p.1 p.2)), s') /\ s' = ServerRuntime.mkState (ServerRuntime.heap s) rt').
  { eexists. split; [|reflexivity]. cbn. rewrite Hi'. cbn [negb].
    destruct (reply p.1 p.2); unfold ServerRuntime.lift_rpc, act_lift, act_bind; by rewrite Ha. }
  destruct E as (s' & -> & ->). unfold ServerRuntime.on_transport. cbn [ServerRuntime.heap]. rewrite Hx.
  cbn [tr_send_message served stdio_dispatcher]. unfold StdioTransport.with_sender. rewrite Hm, Hsend.
  pose proof (lookup_lt_Some _ _ _ Hx) as Hlt.
  set (xs' := StdioTransport.set_sender (Some (with_std (Some w') ds)) xs).
  assert (Hx' : (<[0:=xs']> (ServerRuntime.heap s)) !! 0 = Some xs') by (by rewrite list_lookup_insert_eq).
  constructor; cbn [client server to_server to_client calls fst snd]; rewrite ?Ex; cbn [fst snd]; try done.
  - rewrite Ho. rewrite (delete_Permutation L2 k p Hp) at 1. solve_Permutation.
  - exists (rs ++ [Ok tt]). split; [|by apply first_error_snoc]. by rewrite <-list_fmap_delete.
  - rewrite (server_out_at (ServerRuntime.mkState _ _) _ _ w' Hx' eq_refl eq_refl), Hwr, length_app, drop_app_le, Hb, lines_app by lia.
    split; [lia|]. unfold lines at 2. cbn. by rewrite app_nil_r.
  - split; [exact Hi'|]. by exists xs', (with_std (Some w') ds), w'.
Qed.

(** The client's main task hands an answer to the caller that waits for it. *)
Lemma stdio_deliver_at (id : RequestId) (m : SM) (x : ClientTr) d : StdioTransport.message_sender x = Some d ->
  exists o, stdio_deliver id m x = (o, StdioTransport.set_sender (Some (apply d (Deliver id m))) x).
Proof.
  intros Hd. unfold stdio_deliver, StdioTransport.pending_request_tx. rewrite Hd. cbn [apply]. unfold MessageDispatcher.deliver.
  destruct (MessageDispatcher.pending_request_tx id d) as [[c|] d1]; [|by eexists]. cbn [StdioTransport.message_sender StdioTransport.set_sender].
  destruct (send_on c m d1) as [b d2]. by eexists.
Qed.
Lemma answer_item (s : client_state) xc dc p : ClientRuntime.heap s !! 0 = Some xc -> StdioTransport.message_sender xc = Some dc ->
  ClientRuntime.heap (handle_item (Dispatcher.Single (answer p.1 p.2)) s) =
  <[0 := StdioTransport.set_sender (Some (apply dc (Deliver p.1 (answer p.1 p.2)))) xc]> (ClientRuntime.heap s).
Proof.
  intros Hx Hm. destruct (stdio_deliver_at p.1 (answer p.1 p.2) xc dc Hm) as [o Ho].
  assert (D : forall s' : client_state, ClientRuntime.heap s' = ClientRuntime.heap s ->
    exists r s2, ClientRuntime.deliver_response 0 p.1 (answer p.1 p.2) s' = (r, s2) /\
      ClientRuntime.heap s2 = <[0 := StdioTransport.set_sender (Some (apply dc (Deliver p.1 (answer p.1 p.2)))) xc]> (ClientRuntime.heap s)).
  { intros s' Hh. unfold ClientRuntime.deliver_response. rewrite Hh, Hx. cbn [ct_deliver client_transport connected stdio_client]. rewrite Ho. by eexists _, _. }
  unfold connected in D. unfold StdioSession.handle_item, ClientRuntime.main_task, ClientRuntime.handle_message, client_transport.
  destruct (answer_kind P p.1 p.2) as [[v Ev]|[e Ev]]; rewrite Ev in *; unfold act_bind.
  - destruct (D s eq_refl) as ([[]|err] & s2 & E & Hh); rewrite E; exact Hh.
  - destruct (errors_handled P e s) as (s' & -> & Hs'). destruct (D s' Hs') as ([[]|err] & s2 & E & Hh); rewrite E; exact Hh.
Qed.

Lemma call_of x L1 L2 L3 L4 p : places x L1 L2 L3 L4 -> p ∈ L1 ++ L2 ++ L3 ++ L4 -> exists c, (p, c) ∈ calls x.
Proof. intros [Ho _ _ _ _ _ _]. rewrite <-Ho. intros ([q c] & -> & ?)%list_elem_of_fmap. by exists c. Qed.
Lemma same_call (l : list (RequestId * Req * nat)) id r c r' c' : NoDup l.*1.*1 -> (id, r, c) ∈ l -> (id, r', c') ∈ l -> r = r' /\ c = c'.
Proof.
  intros Hd Hc Hc'. apply list_elem_of_lookup in Hc as [i Hi], Hc' as [j Hj].
  assert (i = j) as <-; [|by simplify_eq].
  apply (NoDup_lookup _ i j id Hd); by rewrite !list_lookup_fmap, ?Hi, ?Hj.
Qed.
Lemma not_answered x L1 L2 L3 L4 p : places x L1 L2 (p :: L3) L4 -> p.1 ∉ L4.*1.
Proof.
  intros [Ho Hd _ _ _ _ _] Hin. rewrite Ho in Hd. rewrite !fmap_app, fmap_cons in Hd.
  apply NoDup_app in Hd as (_ & _ & Hd). apply NoDup_app in Hd as (_ & _ & Hd). apply NoDup_app in Hd as (_ & Hd & _).
  by apply (Hd p.1); [left|].
Qed.

Lemma client_reads_places x L1 L2 L3 L4 line n : places x L1 L2 L3 L4 -> reads max (server_out (server x).2) (to_client x) line n ->
  exists p L3', L3 = p :: L3' /\
    places (mkSys (on_line decode_server handle_item line (client x)) (to_server x) (server x) n (calls x)) L1 L2 L3' (p :: L4).
Proof.
  intros HP Hread. pose proof HP as [Ho Hd Hs Hl [Hbn Hb] Hv (xc & dc & w & Hx & Hm & Hw & Hwf & Hslots)].
  destruct (reads_lines answer_text max _ _ L3 _ _ ltac:(apply Forall_forall; intros p _; apply (answer_line P)) Hbn Hb Hread)
    as (p & L3' & -> & -> & Hb' & Hbn').
  exists p, L3'. split; [done|]. pose proof (not_answered _ _ _ _ _ _ HP) as Hna.
  destruct (call_of _ _ _ _ _ p HP) as [c Hc]; [rewrite !elem_of_app; right; right; left; left|].
  unfold on_line. destruct (answer_line P p.1 p.2) as (_ & _ & Hdec & _).
  change (decode_server (answer_text p)) with (decode_server (answer_json p.1 p.2)). rewrite Hdec. cbn [from_option].
  pose proof (answer_item (client x) xc dc p Hx Hm) as Hh. pose proof (lookup_lt_Some _ _ _ Hx) as Hlt.
  set (dc' := apply dc (Deliver p.1 (answer p.1 p.2))) in *.
  assert (Hw' : writable_std dc' = Some w).
  { rewrite <-Hw. subst dc'. cbn [apply]. unfold MessageDispatcher.deliver, MessageDispatcher.pending_request_tx.
    destruct (pending_requests dc !! p.1); [|done]. unfold send_on. by destruct (channels _ !! _) as [[]|]. }
  assert (Hx' : ClientRuntime.heap (handle_item (Dispatcher.Single (answer p.1 p.2)) (client x)) !! 0 = Some (StdioTransport.set_sender (Some dc') xc))
    by (by rewrite Hh, list_lookup_insert_eq).
  constructor; cbn [client server to_server to_client calls]; try done.
  - rewrite Ho. solve_Permutation.
  - rewrite (client_out_at _ _ _ w Hx' eq_refl Hw'). by rewrite (client_out_at _ _ _ w Hx Hm Hw) in Hs.
  - exists (StdioTransport.set_sender (Some dc') xc), dc', w. split_and!; [done|done|done|by apply apply_wf|].
    intros id r c' Hin. pose proof (apply_slot dc id c' _ (Deliver p.1 (answer p.1 p.2)) Hwf eq_refl (Hslots id r c' Hin)) as A. fold dc' in A.
    rewrite fmap_cons. destruct (decide (id ∈ L4.*1)) as [H4|H4].
    + rewrite decide_True by (by right). exact A.
    + destruct (decide (id = p.1)) as [->|Hne].
      * rewrite decide_True by left. simpl in A. rewrite decide_True in A by done.
        destruct p as [i q]. by destruct (same_call (calls x) i r c' q c Hd Hin Hc) as [-> _].
      * rewrite decide_False by (intros [?|?]%elem_of_cons; done). simpl in A. by rewrite decide_False in A.
Qed.

Lemma deliver_places x y L1 L2 L3 L4 : places x L1 L2 L3 L4 -> deliver x y ->
  calls y = calls x /\ exists L1' L2' L3' L4', places y L1' L2' L3' L4' /\
    S (3 * length L1' + 2 * length L2' + length L3') = 3 * length L1 + 2 * length L2 + length L3.
Proof.
  intros HP Hd. revert HP. destruct Hd as [x line n Hr|x k Hk|x line n Hr]; intros HP; (split; [done|]).
  - destruct (server_reads_places _ _ _ _ _ _ _ HP Hr) as (p & L & -> & HP'). eexists _, _, _, _. split; [exact HP'|].
    rewrite length_app. simpl. lia.
  - destruct (server_handles_places _ _ _ _ _ _ HP Hk) as (p & Hp & HP'). eexists _, _, _, _. split; [exact HP'|].
    rewrite length_app. pose proof (Permutation_length (delete_Permutation L2 k p Hp)) as E. simpl in *. lia.
  - destruct (client_reads_places _ _ _ _ _ _ _ HP Hr) as (p & L & -> & HP'). eexists _, _, _, _. split; [exact HP'|]. simpl. lia.
Qed.

Lemma started_places x : started spawned stdout stderr client_stdout client_stderr x -> places x [] [] [] [].
Proof.
  intros ((tr & tr' & rt & nt & sl & u & Hm & Hst & Hc & Ho) & (tr2 & tr2' & rt2 & Hm2 & _ & Hst2 & Hs & Hi & Ho2) & Ht & Ht2 & Hca).
  assert (N : forall (In : Type) sp so se (tr tr' : StdioTransport.t RequestId In W T St), StdioTransport.message_sender tr = None ->
     StdioTransport.start sp so se tr = (Ok tt, tr') -> exists w n, StdioTransport.message_sender tr' = Some (MessageDispatcher.new w n)).
  { clear. intros In sp so se tr tr' Hm. unfold StdioTransport.start. destruct (Stopper.renew _) as [i st].
    destruct (StdioTransport.command _).
    - destruct sp as [[[stdin|] [] []]|e]; cbn; try done. intros [= <-]. cbn. rewrite Hm. by eexists _, _.
    - intros [= <-]. cbn. rewrite Hm. by eexists _, _. }
  destruct (N _ _ _ _ _ _ Hm Hst) as (w & n & Hd). destruct (N _ _ _ _ _ _ Hm2 Hst2) as (w2 & n2 & Hd2).
  constructor; rewrite ?Hca, ?Ht, ?Ht2, ?Hs; try done.
  - constructor.
  - split; [lia|]. by rewrite Ho.
  - by exists [].
  - rewrite Hs in Ho2. cbn [snd] in *. split; [lia|]. by rewrite Ho2.
  - split; [exact Hi|]. by exists tr2', (MessageDispatcher.new w2 n2), w2.
  - rewrite Hc. exists tr', (MessageDispatcher.new w n), w. split_and!; try done.
    intros id r c. by intros ?%elem_of_nil.
Qed.

Abbreviation awaits := (fun timeout c x => (ClientRuntime.on_transport 0 (ct_await timeout (One (RequestId := RequestId) c)) (client x)).1).
Lemma awaits_slot x L1 L2 L3 L4 id r c timeout : places x L1 L2 L3 L4 -> (id, r, c) ∈ calls x ->
  if decide (id ∈ L4.*1) then awaits timeout c x = Ok (Some (Dispatcher.Single (answer id r)))
  else exists ms, awaits timeout c x = Err (ETransport (Sdk (mkSdkError (request_timeout_ms ms) None))).
Proof.
  intros [_ _ _ _ _ _ (xc & dc & w & Hx & Hm & _ & _ & Hslots)] Hin. unfold ClientRuntime.on_transport. rewrite Hx.
  cbn [ct_await connected stdio_client]. unfold StdioTransport.with_sender. rewrite Hm. unfold await_half, act_get, act_bind.
  pose proof (receive_slot (from_option (fun n => n) (request_timeout dc) timeout) dc id c _ (Hslots id r c Hin)) as R.
  change (from_option Datatypes.id (request_timeout dc) timeout) with (from_option (fun n => n) (request_timeout dc) timeout).
  destruct (decide (id ∈ L4.*1)); destruct (receive _ c dc) as [res d']; cbn [fst] in R; subst res; [done|]. by eexists.
Qed.
Lemma progress x L1 L2 L3 L4 : places x L1 L2 L3 L4 -> L1 = [] /\ L2 = [] /\ L3 = [] \/ exists y, deliver x y.
Proof.
  intros [_ _ [_ Hs] (rs & Hl & _) [_ Hb] _ _]. destruct L1 as [|p L1]; [destruct L2 as [|p L2]; [destruct L3 as [|p L3]; [by left|]|]|]; right.
  - destruct (lines_read answer_text max _ _ p L3 Hb) as (line & n & Hr); [apply (answer_line P)|]. by eexists; apply (client_reads _ _ _ _ _ _ _ _ _ _ _ _ _ _ _ _ _ _ _ _ _ x line n Hr).
  - assert (Hk : 0 < length (ServerRuntime.pending (server x).1)) by (rewrite Hl; simpl; lia). by eexists; apply (server_handles _ _ _ _ _ _ _ _ _ _ _ _ _ _ _ _ _ _ _ _ _ x 0 Hk).
  - destruct (lines_read request_text max _ _ p L1 Hs) as (line & n & Hr); [apply (request_line P)|]. by eexists; apply (server_reads _ _ _ _ _ _ _ _ _ _ _ _ _ _ _ _ _ _ _ _ _ x line n Hr).
Qed.

(** The steps that remain until every call is answered. *)
Definition remaining (L1 L2 L3 : list (RequestId * Req)) : nat := 3 * length L1 + 2 * length L2 + length L3.
Lemma remaining_le x L1 L2 L3 L4 : places x L1 L2 L3 L4 -> remaining L1 L2 L3 <= 3 * length (calls x).
Proof.
  intros [Ho _ _ _ _ _ _]. apply Permutation_length in Ho. rewrite length_fmap, !length_app in Ho. unfold remaining. lia.
Qed.
Lemma finishes m : forall x L1 L2 L3 L4, places x L1 L2 L3 L4 -> remaining L1 L2 L3 = m -> exists y, nsteps deliver m x y /\ forall z, ~ deliver y z.
Proof.
  unfold remaining. induction m as [|m IH]; intros x L1 L2 L3 L4 HP Hm.
  - exists x. split; [constructor|]. intros z Hz. destruct (deliver_places _ _ _ _ _ _ HP Hz) as (_ & ? & ? & ? & ? & _ & E). lia.
  - destruct (progress _ _ _ _ _ HP) as [(-> & -> & ->)|[y Hy]]; [done|].
    destruct (deliver_places _ _ _ _ _ _ HP Hy) as (_ & L1' & L2' & L3' & L4' & HP' & E).
    destruct (IH y _ _ _ _ HP' ltac:(lia)) as (z & Hz & Hstuck). exists z. split; [by eapply nsteps_l|done].
Qed.
Lemma bounded n : forall x y L1 L2 L3 L4, places x L1 L2 L3 L4 -> nsteps deliver n x y ->
  exists L1' L2' L3' L4', places y L1' L2' L3' L4' /\ calls y = calls x /\ n + remaining L1' L2' L3' = remaining L1 L2 L3.
Proof.
  unfold remaining. induction n as [|n IH]; intros x y L1 L2 L3 L4 HP Hn.
  - inversion Hn; subst. by eexists _, _, _, _.
  - inversion Hn as [|? ? x1 ? Hd Hr]; subst. destruct (deliver_places _ _ _ _ _ _ HP Hd) as (Ec & M1 & M2 & M3 & M4 & HP' & E).
    destruct (IH _ _ _ _ _ _ HP' Hr) as (N1 & N2 & N3 & N4 & HP2 & Ec2 & E2). exists N1, N2, N3, N4. split; [done|]. split; [congruence|]. lia.
Qed.
Abbreviation step := (StdioSession.step show_error as_batch now env0 env spawned stdout stderr client_stdout client_stderr answer_message handle_request
  handle_notification handle_error client_answer client_handle_request client_handle_notification client_handle_error decode_client decode_server max).
Lemma reachable_places x0 x : started spawned stdout stderr client_stdout client_stderr x0 -> rtc step x0 x ->
  exists L1 L2 L3 L4, places x L1 L2 L3 L4.
Proof.
  intros Hs Hr. refine (rtc_invariant step (fun x => exists L1 L2 L3 L4, places x L1 L2 L3 L4) x0 x _ Hr _).
  - intros a b (L1 & L2 & L3 & L4 & HP) [Hc|Hd].
    + destruct (call_places _ _ _ _ _ _ HP Hc) as [p HP']. by eexists _, _, _, _.
    + destruct (deliver_places _ _ _ _ _ _ HP Hd) as (_ & M1 & M2 & M3 & M4 & HP' & _). by eexists _, _, _, _.
  - exists [], [], [], []. by apply started_places.
Qed.

(** C2. A client and a server connected by two pipes.  However the callers'
    requests, the readers of the pipes, the server's concurrent tasks and the
    client's main task take turns, and however the pipes cut the bytes: a caller
    gets the server's answer to its own request or a timeout, never another
    answer; whatever is on its way arrives after at most three steps per
    request; and when nothing is left to do every caller has its answer. *)
Theorem stdio_session (x0 x : sys) :
  started spawned stdout stderr client_stdout client_stderr x0 -> rtc step x0 x ->
  (forall id r c timeout, (id, r, c) ∈ calls x ->
     awaits timeout c x = Ok (Some (Dispatcher.Single (answer id r))) \/
     exists ms, awaits timeout c x = Err (ETransport (Sdk (mkSdkError (request_timeout_ms ms) None)))) /\
  (forall n y, nsteps deliver n x y -> n <= 3 * length (calls x)) /\
  (exists y, rtc deliver x y /\ forall z, ~ deliver y z) /\
  (forall y, rtc deliver x y -> (forall z, ~ deliver y z) ->
     calls y = calls x /\
     forall id r c timeout, (id, r, c) ∈ calls x -> awaits timeout c y = Ok (Some (Dispatcher.Single (answer id r)))).
Proof.
  intros Hs Hr. destruct (reachable_places x0 x Hs Hr) as (L1 & L2 & L3 & L4 & HP). split_and!.
  - intros id r c timeout Hin. pose proof (awaits_slot x L1 L2 L3 L4 id r c timeout HP Hin) as A. destruct (decide _); auto.
  - intros n y Hn. destruct (bounded n x y _ _ _ _ HP Hn) as (M1 & M2 & M3 & M4 & _ & _ & E). pose proof (remaining_le _ _ _ _ _ HP). lia.
  - destruct (finishes _ x _ _ _ _ HP eq_refl) as (y & Hn & Hstuck). exists y. split; [by eapply rtc_nsteps_2|done].
  - intros y Hy Hstuck. apply rtc_nsteps_1 in Hy as [n Hn]. destruct (bounded n x y _ _ _ _ HP Hn) as (M1 & M2 & M3 & M4 & HP' & Ec & _).
    split; [done|]. intros id r c timeout Hin. rewrite <-Ec in Hin.
    pose proof (awaits_slot y M1 M2 M3 M4 id r c timeout HP' Hin) as A.
    destruct (progress y M1 M2 M3 M4 HP') as [(-> & -> & ->)|[z Hz]]; [|by destruct (Hstuck z)].
    rewrite decide_True in A; [done|]. destruct HP' as [Ho _ _ _ _ _ _]. cbn in Ho. rewrite <-Ho.
    apply list_elem_of_fmap. exists (id, r). split; [done|]. apply list_elem_of_fmap. by exists (id, r, c).
Qed.
End Session.
End StdioSessionFacts.

(** ** A session on which the claim is tried *)

Module StdioDemo.
Import StdioSession StdioSessionFacts.
Abbreviation cm := (ServerRuntime.ClientMessage bool bool unit unit).
Abbreviation sm := (ClientRuntime.ServerMessage bool unit unit bool).
Definition bit (b : bool) : ascii := if b then "1"%char else "0"%char.
Definition unbit (c : ascii) : bool := bool_decide (c = "1"%char).
Definition failure : RpcError := mkRpcError internal_error None.
#[global] Instance cm_message : Message bool cm := {|
  is_request := fun m => match m with ServerRuntime.Request _ _ => true | _ => false end;
  request_id := fun m => match m with ServerRuntime.Request id _ => Some id | _ => None end;
  to_json := fun m => Some (match m with ServerRuntime.Request id r => ["q"%char; bit id; bit r] | _ => s! "n" end);
  batch_to_json := fun _ => None;
  error_message := fun e id => ServerRuntime.ErrorMessage id e;
|}.
#[global] Instance sm_message : Message bool sm := {|
  is_request := fun m => match m with ClientRuntime.Request _ _ => true | _ => false end;
  request_id := fun m => match m with ClientRuntime.Response id _ => Some id | _ => None end;
  to_json := fun m => Some (match m with
                            | ClientRuntime.Response id v => ["a"%char; bit id; bit v]
                            | ClientRuntime.ErrorMessage (Some id) _ => ["e"%char; bit id]
                            | _ => s! "n" end);
  batch_to_json := fun _ => None;
  error_message := fun e id => ClientRuntime.ErrorMessage id e;
|}.
Definition decode_client (line : str) : option (Messages cm) :=
  match line with [q; id; r] => Some (Dispatcher.Single (ServerRuntime.Request (unbit id) (unbit r))) | _ => None end.
Definition decode_server (line : str) : option (Messages sm) :=
  match line with
  | [a; id; v] => Some (Dispatcher.Single (ClientRuntime.Response (unbit id) (unbit v)))
  | [e; id] => Some (Dispatcher.Single (ClientRuntime.ErrorMessage (Some (unbit id)) failure))
  | _ => None
  end.
Abbreviation client_tr := (StdioTransport.t bool sm bytes unit InMemoryEventStore.t).
Abbreviation server_tr := (StdioTransport.t bool cm bytes unit InMemoryEventStore.t).
Abbreviation session := (ServerRuntime.state unit unit server_tr).
Abbreviation client_side := (ClientRuntime.state unit unit client_tr unit).
Definition child : StdioTransport.Child bytes := StdioTransport.mkChild (Some []) true true.

(** A server that answers [true] with the id of the request, else fails. *)
Definition reply (id r : bool) : result bool RpcError := if r then Ok id else Err failure.
Definition answer (id r : bool) : sm := if r then ClientRuntime.Response id id else ClientRuntime.ErrorMessage (Some id) failure.
Definition answer_message (a : bool + RpcError) (id : bool) : result sm RpcError :=
  Ok (match a with inl v => ClientRuntime.Response id v | inr e => ClientRuntime.ErrorMessage (Some id) e end).
Definition handle_request (id r : bool) (s : session) : result bool RpcError * session := (reply id r, s).
Definition request_json (id r : bool) : str := ["q"%char; bit id; bit r].
Definition answer_json (id r : bool) : str := if r then ["a"%char; bit id; bit id] else ["e"%char; bit id].
Definition client_answer (a : unit + RpcError) (id : bool) : result cm RpcError := Err failure.
Definition client_handle_request (id : bool) (r : unit) : Act client_side RpcError unit := act_ret tt.
Definition client_handle_notification (n : unit) : Act client_side McpSdkError unit := act_ret tt.
Definition client_handle_error (e : RpcError) : Act client_side McpSdkError unit := act_ret tt.

Lemma demo_protocol : protocol answer_message handle_request client_handle_error decode_client decode_server 16 reply answer request_json answer_json.
Proof.
  assert (C : forall j : str, bool_decide (LF ∈ j) = false -> bool_decide (last j = Some CR) = false -> utf8_valid j = true -> length j <= 16 -> clean 16 j).
  { intros j. rewrite !bool_decide_eq_false. by intros. }
  constructor.
  - intros id r s. exists (ServerRuntime.rt s). by destruct s.
  - by intros id [].
  - intros id []; [left|right]; by eexists.
  - intros [] []; (split_and!; [done..|apply C; [reflexivity..|simpl; lia]]).
  - intros [] []; (split_and!; [done..|apply C; [reflexivity..|simpl; lia]]).
  - intros e s. by exists s.
  - split; [intros w b; by eexists|intros w; by eexists].
Qed.

Definition client_end : client_tr :=
  (StdioTransport.start (Ok child) [] [] (StdioTransport.create_with_server_launch (s! "server") [] None 1000)).2.
Definition server_end : server_tr := (StdioTransport.start (Err (mkIoError false [])) [] [] (StdioTransport.new 1000)).2.
Abbreviation system := (StdioSession.sys (RequestId := bool) (Req := bool) (Notif := unit) (Resp := unit) (SReq := unit) (SNotif := unit)
  (SResp := bool) (W := bytes) (T := unit) (St := InMemoryEventStore.t) (Extra := unit) (Details := unit) (ServerInfo := unit) (U := unit)).
Definition demo_start : system := mkSys
  (ClientRuntime.mkState [client_end] tt (ClientRuntime.new 0) [] tt) 0
  (ServerRuntime.new_loop, ServerRuntime.mkState [server_end] (ServerRuntime.mk None (Some 0) false (RequestIdGenNumeric.new None) (Some tt) None))
  0 [].
#[global] Instance demo_client : ClientTransport bool sm cm unit client_tr := stdio_client (fun _ => []) (Ok child) [] [].
(** A call of [demo_start], and of what it leads to. *)
Definition calling (id r : bool) (x : system) : system :=
  let '(rx, s) := ClientRuntime.on_transport 0 (ct_write (Dispatcher.Single (ServerRuntime.Request id r : cm))) (client x) in
  mkSys s (to_server x) (server x) (to_client x) (calls x ++ [(id, r, match rx with Ok (One c) => c | _ => 0 end)]).
Definition both : system := calling false false (calling true true demo_start).
End StdioDemo.
Import StdioSession StdioSessionFacts StdioDemo.

Lemma demo_started : started (Ok child) [] [] [] [] demo_start.
Proof.
  split_and!; [|..|reflexivity|reflexivity|reflexivity].
  - exists (StdioTransport.create_with_server_launch (s! "server") [] None 1000), client_end. eexists _, _, _, _. split_and!; reflexivity.
  - exists (StdioTransport.new 1000), server_end. eexists. split_and!; reflexivity.
Qed.
Lemma calling_called (id r : bool) (x : system) c s : id ∉ (calls x).*1.*1 ->
  ClientRuntime.on_transport 0 (ct_write (Dispatcher.Single (ServerRuntime.Request id r : cm))) (client x) = (Ok (One c), s) ->
  StdioSession.call (fun _ => []) (Ok child) [] [] x (calling id r x).
Proof. intros Hid E. unfold calling. rewrite E. by apply do_call. Qed.

Lemma stdio_session_witness :
  exists y : system, length (calls y) = 2 /\
    (ClientRuntime.on_transport 0 (ct_await None (One (RequestId := bool) 0)) (client y)).1
      = Ok (Some (Dispatcher.Single (ClientRuntime.Response true true : sm))) /\
    (ClientRuntime.on_transport 0 (ct_await None (One (RequestId := bool) 1)) (client y)).1
      = Ok (Some (Dispatcher.Single (ClientRuntime.ErrorMessage (Some false) failure : sm))).
Proof.
  destruct (stdio_session (fun _ => []) (fun _ => Ok []) 5 (fun d => d) (fun d => d) (Ok child) [] [] [] [] answer_message handle_request
    (fun _ => act_ret tt) (fun _ => act_ret tt) client_answer client_handle_request client_handle_notification client_handle_error
    decode_client decode_server 16 reply answer request_json answer_json demo_protocol demo_start both demo_started) as (_ & _ & (y & Hy & Hstuck) & A).
  - apply (rtc_l _ _ (calling true true demo_start)); [|apply rtc_once]; left; eapply calling_called; try (vm_compute; reflexivity); decided.
  - destruct (A y Hy Hstuck) as [E R]. exists y. split; [rewrite E; vm_compute; reflexivity|].
    split; [exact (R true true 0 None ltac:(decided))|exact (R false false 1 None ltac:(decided))].
Defined.
