(* ===== verification/ConformanceServer.v ===== *)
(** * The conformance server

    Models crates/conformance-server/src/, the server that the conformance suite
    of the protocol is run against: its tools (tools.rs) as [mcp_tool] and
    [tool_box!] expand them, its resources (resources.rs), its prompts
    (prompts.rs), the handler (handler.rs) and the way it is put together
    (main.rs).  It is the library's parts at work: the macros of MacroItems.v and
    ToolBox.v, the calls of [McpServer] and the dispatch of Requests.v, the
    options and routes of HttpServers.v and Adapters.v.

    A value of a type of the schema crate is the call that builds it; the
    [Deserialize] of the tools' structs, JSON texts and the debug text of a value
    are parameters. *)
From S2P Require Import Prelude RustStr Json JsonSchema Syn DeriveSchema MacroAttributes ToolBox MacroItems Elicit Dispatcher Auth TaskStore ServerRuntime Requests.

(** ** The schema crate's values, as they are built *)

Inductive ContentBlock :=
| TextContent (text : str)
| ImageContent (data mime_type : str)
| AudioContent (data mime_type : str)
| EmbeddedTextResource (uri mime_type text : str).
(** The builders named after a kind of content, and the struct itself. *)
Inductive CallToolResult :=
| text_content (blocks : list ContentBlock)
| image_content (blocks : list ContentBlock)
| audio_content (blocks : list ContentBlock)
| CallToolResultOf (content : list ContentBlock) (is_error : option bool).

(** [new(contents, uri).with_mime_type(mime_type)] *)
Inductive ResourceContents :=
| TextResourceContents (text uri mime_type : str)
| BlobResourceContents (blob uri mime_type : str).
Record PromptArgument := mkArgument { pa_name : str; pa_description : option str; pa_required : option bool }.
Record Prompt := mkPrompt { p_name : str; p_description : option str; p_arguments : list PromptArgument }.
Record PromptMessage := mkMessage { pm_role : Role; pm_content : ContentBlock }.
Record GetPromptResult := mkPromptResult { messages : list PromptMessage; gp_description : option str }.

(** A float constant: its digits and how many of them follow the point. *)
Abbreviation Float := (Z * nat)%type.
Inductive NumberSchemaType := TInteger | TNumber.
(** The fields that are set; the enums with titles list the pairs of a constant
    and its title. *)
Inductive PrimitiveSchemaDefinition :=
| StringSchema (default description : option str)
| NumberSchema (default : option Float) (description : option str) (type : NumberSchemaType)
| BooleanSchema (default : option bool) (description : option str)
| UntitledSingleSelectEnumSchema (enum : list str) (default description : option str)
| TitledSingleSelectEnumSchema (one_of : list (str * str)) (default description : option str)
| LegacyTitledEnumSchema (enum enum_names : list str) (default description : option str)
| UntitledMultiSelectEnumSchema (default items : list str) (description : option str)
| TitledMultiSelectEnumSchema (default : list str) (any_of : list (str * str)) (description : option str).
Abbreviation ElicitRequest := (ElicitRequestParams (D := PrimitiveSchemaDefinition)).
Inductive ElicitResultAction := Accept | Decline | Cancel.
Record ElicitResult := mkElicitResult { action : ElicitResultAction; elicited : option (gmap str ElicitResultContent) }.
(** The text of a message's content, or the debug text of another kind. *)
Inductive CreateMessageContent := MessageText (text : str) | MessageOther (debug : str).
Inductive ProgressToken := TokenString (s : str) | TokenInteger (z : Z).

Definition IMAGE_BASE64 : str :=
  s! "iVBORw0KGgoAAAANSUhEUgAAAAEAAAABCAYAAAAfFcSJAAAADUlEQVR42mP8/5+hHgAHggJ/PchI7wAAAABJRU5ErkJggg==".
Definition AUDIO_BASE64 : str := s! "UklGRiQAAABXQVZFZm10IBAAAAABAAEARKwAAIhYAQACABAAZGF0YQAAAAA=".

(** ** tools.rs: the types *)

(** The structs as the macros see them: the metas of [mcp_tool], and the item. *)
Definition text (k v : str) : Meta := NameValue (Some k) (ELit (LStr v)).
Definition tool_metas (name description : str) : list Meta := [text (s! "name") name; text (s! "description") description].
Definition plain (ident : str) : Ty := TPath false [mkSegment ident NoArguments].
(** [#[serde(default, skip_serializing)] _dummy: Option<()>] *)
Definition dummy : Field :=
  mkField (s! "_dummy")
    [mkAttribute (s! "serde") None [(s! "default", None); (s! "skip_serializing", None)] (Some [MetaPath (Some (s! "default")); MetaPath (Some (s! "skip_serializing"))])]
    (TPath false [mkSegment (s! "Option") (AngleBracketed [GType TOther])]).
Definition string_field (ident : str) : Field := mkField ident [] (plain (s! "String")).
Definition tool_struct (ident : str) (f : Field) : DeriveInput := mkInput [] ident (Struct (Named [f])).

Definition TestSimpleText : list Meta * DeriveInput :=
  (tool_metas (s! "test_simple_text") (s! "Returns simple text content for conformance testing."),
   tool_struct (s! "TestSimpleText") dummy).
Definition TestImageContent : list Meta * DeriveInput :=
  (tool_metas (s! "test_image_content") (s! "Returns image content (base64 PNG) for conformance testing."),
   tool_struct (s! "TestImageContent") dummy).
Definition TestAudioContent : list Meta * DeriveInput :=
  (tool_metas (s! "test_audio_content") (s! "Returns audio content (base64 WAV) for conformance testing."),
   tool_struct (s! "TestAudioContent") dummy).
Definition TestEmbeddedResource : list Meta * DeriveInput :=
  (tool_metas (s! "test_embedded_resource") (s! "Returns embedded resource content for conformance testing."),
   tool_struct (s! "TestEmbeddedResource") dummy).
Definition TestMultipleContentTypes : list Meta * DeriveInput :=
  (tool_metas (s! "test_multiple_content_types") (s! "Returns multiple content types for conformance testing."),
   tool_struct (s! "TestMultipleContentTypes") dummy).
Definition TestErrorHandling : list Meta * DeriveInput :=
  (tool_metas (s! "test_error_handling") (s! "Returns an error response for conformance testing."),
   tool_struct (s! "TestErrorHandling") dummy).
Definition TestToolWithLogging : list Meta * DeriveInput :=
  (tool_metas (s! "test_tool_with_logging") (s! "Sends log messages during execution for conformance testing."),
   tool_struct (s! "TestToolWithLogging") dummy).
Definition TestToolWithProgress : list Meta * DeriveInput :=
  (tool_metas (s! "test_tool_with_progress") (s! "Reports progress notifications during execution for conformance testing."),
   tool_struct (s! "TestToolWithProgress") dummy).
Definition TestSampling : list Meta * DeriveInput :=
  (tool_metas (s! "test_sampling") (s! "Requests LLM sampling from the client for conformance testing."),
   tool_struct (s! "TestSampling") (string_field (s! "prompt"))).
Definition TestElicitation : list Meta * DeriveInput :=
  (tool_metas (s! "test_elicitation") (s! "Requests user input (elicitation) from the client for conformance testing."),
   tool_struct (s! "TestElicitation") (string_field (s! "message"))).
Definition TestElicitationDefaults : list Meta * DeriveInput :=
  (tool_metas (s! "test_elicitation_sep1034_defaults")
     (s! "Requests elicitation with default values for all primitive types (SEP-1034)."),
   tool_struct (s! "TestElicitationDefaults") dummy).
Definition TestElicitationEnums : list Meta * DeriveInput :=
  (tool_metas (s! "test_elicitation_sep1330_enums") (s! "Requests elicitation with all enum variants (SEP-1330)."),
   tool_struct (s! "TestElicitationEnums") dummy).

(** [tool_box!(ConformanceTools, [..])] *)
Definition tool_types : list (list Meta * DeriveInput) :=
  [TestSimpleText; TestImageContent; TestAudioContent; TestEmbeddedResource; TestMultipleContentTypes; TestErrorHandling;
   TestToolWithLogging; TestToolWithProgress; TestSampling; TestElicitation; TestElicitationDefaults; TestElicitationEnums].
Definition program : list DeriveInput := snd <$> tool_types.
(** What [mcp_tool] makes of a struct; the types it refuses do not compile. *)
Definition expand (from_str : str -> result Value str) (t : list Meta * DeriveInput) : option ToolType :=
  match mcp_tool from_str t.1 (ItemStruct (name t.2)) with Some (Ok x) => Some x | _ => None end.
Definition ConformanceTools (from_str : str -> result Value str) : list ToolType := omap (expand from_str) tool_types.
(** The enum [ConformanceTools]: a variant with what its methods read of the
    struct. *)
Module Call.
Inductive t :=
| TestSimpleText | TestImageContent | TestAudioContent | TestEmbeddedResource | TestMultipleContentTypes | TestErrorHandling
| TestToolWithLogging | TestToolWithProgress | TestSampling (prompt : str) | TestElicitation (message : str)
| TestElicitationDefaults | TestElicitationEnums.
End Call.

(** ** tools.rs: the calls *)

(** What the handler uses of [Arc<dyn McpServer>]; [sleep] is what other tasks
    do in so many milliseconds. *)
Class Runtime (St Created : Type) := {
  log_info : str -> Act St McpSdkError unit;
  report_progress : option ProgressToken -> Float -> option Float -> option str -> Act St McpSdkError unit;
  client_supports_sampling : St -> option bool;
  request_message_creation : Created -> Act St McpSdkError CreateMessageContent;
  request_elicitation : ElicitRequest -> Act St McpSdkError ElicitResult;
  sleep : N -> St -> St;
}.

Section Tools.
Context {St Created : Type} `{!Runtime St Created}.
(** [format!("{e}")]; [from_value] of the params of [sampling/createMessage];
    [to_string_pretty] and the debug text of an action. *)
Context (show_error : McpSdkError -> str) (created_from_value : Value -> result Created str).
Context (to_string_pretty : ElicitResult -> result str str) (show_action : ElicitResultAction -> str).
Abbreviation M := (Act St CallToolError).

Definition from_message (m : str) : CallToolError := OtherError m.
(** [.await.map_err(|e| CallToolError::from_message(..))?] *)
Definition or_message {A} (context : str) (m : Act St McpSdkError A) : M A :=
  fun s => let '(r, s) := m s in ((match r with Ok a => Ok a | Err e => Err (from_message (context ++ show_error e)) end), s).
Definition pause : M unit := act_modify (sleep 50).
Definition text_answer (t : str) : CallToolResult := text_content [TextContent t].

Definition simple_text : CallToolResult := text_answer (s! "This is a simple text response for testing.").
Definition image : CallToolResult := image_content [ImageContent IMAGE_BASE64 (s! "image/png")].
Definition audio : CallToolResult := audio_content [AudioContent AUDIO_BASE64 (s! "audio/wav")].
Definition embedded_resource : CallToolResult :=
  CallToolResultOf
    [EmbeddedTextResource (s! "test://embedded-resource") (s! "text/plain") (s! "This is an embedded resource content.")] None.
Definition quoted (t : str) : str := [WwwAuthenticate.QUOTE] ++ t ++ [WwwAuthenticate.QUOTE].
Definition multiple_content_types : CallToolResult :=
  CallToolResultOf
    [TextContent (s! "Multiple content types test:"); ImageContent IMAGE_BASE64 (s! "image/png");
     EmbeddedTextResource (s! "test://mixed-content-resource") (s! "application/json")
       ((s! "{") ++ quoted (s! "test") ++ (s! ":") ++ quoted (s! "data") ++ (s! ",") ++ quoted (s! "value") ++ (s! ":123}"))] None.
Definition error_handling : CallToolResult :=
  CallToolResultOf [TextContent (s! "This tool intentionally returns an error for testing")] (Some true).

Definition with_logging : M CallToolResult :=
  do _ <- or_message [] (log_info (s! "Tool execution started"));
  do _ <- pause;
  do _ <- or_message [] (log_info (s! "Tool processing data"));
  do _ <- pause;
  do _ <- or_message [] (log_info (s! "Tool execution completed"));
  act_ret (text_answer (s! "Tool execution completed successfully")).

Definition progress_of (progress_token : option ProgressToken) : option ProgressToken :=
  Some (from_option id (TokenString (s! "progress-test-1")) progress_token).
Definition whole (z : Z) : Float := ((z * 10)%Z, 1).
Definition with_progress (progress_token : option ProgressToken) : M CallToolResult :=
  let token := progress_of progress_token in
  do _ <- or_message [] (report_progress token (whole 0) (Some (whole 100)) None);
  do _ <- pause;
  do _ <- or_message [] (report_progress token (whole 50) (Some (whole 100)) None);
  do _ <- pause;
  do _ <- or_message [] (report_progress token (whole 100) (Some (whole 100)) None);
  act_ret (text_answer (s! "Progress test completed")).

Definition no_sampling : CallToolResult :=
  CallToolResultOf [TextContent (s! "Error: Client does not support sampling capability")] (Some true).
Definition sampling_params (prompt : str) : Value :=
  VObject [(s! "maxTokens", VNumber 100);
           (s! "messages", VArray [VObject [
              (s! "content", VObject [(s! "text", VString prompt); (s! "type", VString (s! "text"))]);
              (s! "role", VString (s! "user"))]])].
Definition sampling (prompt : str) : M CallToolResult :=
  do supported <- act_get client_supports_sampling;
  if negb (from_option id false supported) then act_ret no_sampling
  else
    do params <- act_lift (match created_from_value (sampling_params prompt) with
                           | Ok p => Ok p
                           | Err e => Err (from_message ((s! "Failed to build params: ") ++ e))
                           end);
    do response <- or_message (s! "Sampling failed: ") (request_message_creation params);
    act_ret (text_answer ((s! "LLM response: ") ++ match response with MessageText t => t | MessageOther debug => debug end)).

(** [BTreeMap::insert] of the properties, in the order of the keys. *)
Fixpoint property (k : str) (d : PrimitiveSchemaDefinition) (m : list (str * PrimitiveSchemaDefinition))
  : list (str * PrimitiveSchemaDefinition) :=
  match m with
  | [] => [(k, d)]
  | (k', d') :: r => match str_cmp k k' with Lt => (k, d) :: m | Eq => (k, d) :: r | Gt => (k', d') :: property k d r end
  end.
Definition elicited_properties (l : list (str * PrimitiveSchemaDefinition)) : list (str * PrimitiveSchemaDefinition) :=
  foldl (fun m kd => property kd.1 kd.2 m) [] l.
Definition pretty (response : ElicitResult) : str :=
  match to_string_pretty response with Ok t => t | Err _ => s! "Unable to serialize response" end.

Definition elicitation_params (message : str) : ElicitRequest :=
  FormParams message (mkForm
    (elicited_properties [(s! "username", StringSchema None (Some (s! "User's name")));
                    (s! "email", StringSchema None (Some (s! "User's email address")))])
    [s! "username"; s! "email"]).
Definition elicitation (message : str) : M CallToolResult :=
  do response <- or_message (s! "Elicitation failed: ") (request_elicitation (elicitation_params message));
  act_ret (text_answer ((s! "User response: action=") ++ show_action (action response) ++ (s! ", content=") ++ pretty response)).

Definition defaults_params : ElicitRequest :=
  FormParams (s! "Please provide your information") (mkForm
    (elicited_properties
       [(s! "name", StringSchema (Some (s! "John Doe")) (Some (s! "User's full name")));
        (s! "age", NumberSchema (Some (whole 30)) (Some (s! "User's age")) TInteger);
        (s! "score", NumberSchema (Some (955%Z, 1)) (Some (s! "User's score")) TNumber);
        (s! "status", UntitledSingleSelectEnumSchema [s! "active"; s! "inactive"; s! "pending"] (Some (s! "active"))
                        (Some (s! "Account status")));
        (s! "verified", BooleanSchema (Some true) (Some (s! "Verification status")))]) []).
Definition completed (response : ElicitResult) : CallToolResult :=
  text_answer ((s! "Elicitation completed: content=") ++ pretty response).
Definition elicitation_defaults : M CallToolResult :=
  do response <- or_message (s! "Elicitation failed: ") (request_elicitation defaults_params);
  act_ret (completed response).

Definition enums_params : ElicitRequest :=
  FormParams (s! "Select from enum options") (mkForm
    (elicited_properties
       [(s! "untitledSingle", UntitledSingleSelectEnumSchema [s! "option1"; s! "option2"; s! "option3"] None
                                (Some (s! "Untitled single-select")));
        (s! "titledSingle", TitledSingleSelectEnumSchema
           [(s! "value1", s! "First Option"); (s! "value2", s! "Second Option"); (s! "value3", s! "Third Option")] None
           (Some (s! "Titled single-select")));
        (s! "legacyEnum", LegacyTitledEnumSchema [s! "opt1"; s! "opt2"; s! "opt3"]
           [s! "Option One"; s! "Option Two"; s! "Option Three"] None (Some (s! "Legacy titled enum")));
        (s! "untitledMulti", UntitledMultiSelectEnumSchema [] [s! "option1"; s! "option2"; s! "option3"]
           (Some (s! "Untitled multi-select")));
        (s! "titledMulti", TitledMultiSelectEnumSchema []
           [(s! "value1", s! "First Choice"); (s! "value2", s! "Second Choice"); (s! "value3", s! "Third Choice")]
           (Some (s! "Titled multi-select")))]) []).
Definition elicitation_enums : M CallToolResult :=
  do response <- or_message (s! "Elicitation failed: ") (request_elicitation enums_params);
  act_ret (completed response).
End Tools.

(** ** resources.rs *)

Definition resource_metas (name description mime_type : str) (uri : Meta) : list Meta :=
  [text (s! "name") name; text (s! "description") description; text (s! "mime_type") mime_type; uri].
Definition unit_struct (ident : str) : DeriveInput := mkInput [] ident (Struct Unit).

Definition StaticTextResource : list Meta * DeriveInput :=
  (resource_metas (s! "Static Text Resource") (s! "A static text resource for conformance testing.") (s! "text/plain")
     (text (s! "uri") (s! "test://static-text")), unit_struct (s! "StaticTextResource")).
Definition StaticBinaryResource : list Meta * DeriveInput :=
  (resource_metas (s! "Static Binary Resource") (s! "A static binary (image) resource for conformance testing.") (s! "image/png")
     (text (s! "uri") (s! "test://static-binary")), unit_struct (s! "StaticBinaryResource")).
Definition TemplateDataResource : list Meta * DeriveInput :=
  (resource_metas (s! "Template Resource") (s! "A resource template with parameter substitution for conformance testing.")
     (s! "application/json") (text (s! "uri_template") (s! "test://template/{id}/data")), unit_struct (s! "TemplateDataResource")).
Definition EmbeddedTestResource : list Meta * DeriveInput :=
  (resource_metas (s! "Embedded Resource") (s! "A resource used for embedded content tests.") (s! "text/plain")
     (text (s! "uri") (s! "test://embedded-resource")), unit_struct (s! "EmbeddedTestResource")).
Definition WatchedResource : list Meta * DeriveInput :=
  (resource_metas (s! "Watched Resource") (s! "A subscribable resource that updates periodically for conformance testing.")
     (s! "application/json") (text (s! "uri") (s! "test://watched-resource")), unit_struct (s! "WatchedResource")).

Section Resources.
Context (from_str : str -> result Value str).
(** [Value::to_string], and the seconds since the epoch unless the clock is
    before it. *)
Context (to_string : Value -> str) (unix_time : option N).

(** The attributes as [mcp_resource] and [mcp_resource_template] read them. *)
Definition resource_attributes (r : list Meta * DeriveInput) : Attributes :=
  match mcp_resource from_str r.1 r.2 with Some (Ok (_, a)) => a | _ => no_attributes end.
Definition template_attributes (r : list Meta * DeriveInput) : Attributes :=
  match mcp_resource_template from_str r.1 r.2 with Some (Ok (_, a)) => a | _ => no_attributes end.
Definition uri_of (r : list Meta * DeriveInput) : str := resource_uri (resource_attributes r).

Definition static_text : list ResourceContents :=
  [TextResourceContents (s! "This is the content of the static text resource.") (uri_of StaticTextResource) (s! "text/plain")].
Definition static_binary : list ResourceContents :=
  [BlobResourceContents IMAGE_BASE64 (uri_of StaticBinaryResource) (s! "image/png")].
Definition matches_url (uri : str) : bool := starts_with (s! "test://template/") uri && ends_with (s! "/data") uri.
Definition template_id (uri : str) : str :=
  from_option id (s! "unknown") (strip_prefix (s! "test://template/") uri ≫= strip_suffix (s! "/data")).
Definition template_content (id : str) : Value :=
  VObject [(s! "data", VString ((s! "Data for ID: ") ++ id)); (s! "id", VString id); (s! "templateTest", VBool true)].
Definition template_data (uri : str) : list ResourceContents :=
  [TextResourceContents (to_string (template_content (template_id uri))) uri (s! "application/json")].
Definition embedded_test : list ResourceContents :=
  [TextResourceContents (s! "This is an embedded resource content.") (uri_of EmbeddedTestResource) (s! "text/plain")].
Definition watched_content : Value :=
  VObject [(s! "timestamp", VString (match unix_time with Some t => show_N t | None => s! "unknown" end));
           (s! "watched", VBool true)].
Definition watched : list ResourceContents :=
  [TextResourceContents (to_string watched_content) (uri_of WatchedResource) (s! "application/json")].
End Resources.

(** ** prompts.rs *)

Definition user_message (content : ContentBlock) : PromptMessage := mkMessage User content.

Module TestSimplePrompt.
Definition prompt : Prompt := mkPrompt (s! "test_simple_prompt") (Some (s! "A simple prompt for conformance testing.")) [].
Definition get_prompt : GetPromptResult :=
  mkPromptResult [user_message (TextContent (s! "This is a simple prompt for testing."))]
    (Some (s! "This is a simple prompt for testing.")).
End TestSimplePrompt.

Module TestPromptWithArguments.
Definition prompt : Prompt :=
  mkPrompt (s! "test_prompt_with_arguments") (Some (s! "A parameterized prompt for conformance testing."))
    [mkArgument (s! "arg1") (Some (s! "First test argument")) (Some true);
     mkArgument (s! "arg2") (Some (s! "Second test argument")) (Some true)].
Definition with_arguments (arg1 arg2 : str) : str :=
  (s! "Prompt with arguments: arg1='") ++ arg1 ++ (s! "', arg2='") ++ arg2 ++ (s! "'").
Definition get_prompt (arg1 arg2 : str) : GetPromptResult :=
  mkPromptResult [user_message (TextContent (with_arguments arg1 arg2))] (Some (with_arguments arg1 arg2)).
End TestPromptWithArguments.

Module TestPromptWithEmbeddedResource.
Definition prompt : Prompt :=
  mkPrompt (s! "test_prompt_with_embedded_resource") (Some (s! "A prompt with embedded resource for conformance testing."))
    [mkArgument (s! "resourceUri") (Some (s! "URI of the resource to embed")) (Some true)].
Definition get_prompt (resource_uri : str) : GetPromptResult :=
  mkPromptResult
    [user_message (EmbeddedTextResource resource_uri (s! "text/plain") (s! "Embedded resource content for testing."));
     user_message (TextContent (s! "Please process the embedded resource above."))]
    (Some (s! "A prompt with embedded resource for conformance testing.")).
End TestPromptWithEmbeddedResource.

Module TestPromptWithImage.
Definition prompt : Prompt :=
  mkPrompt (s! "test_prompt_with_image") (Some (s! "A prompt with image content for conformance testing.")) [].
Definition get_prompt : GetPromptResult :=
  mkPromptResult
    [user_message (ImageContent IMAGE_BASE64 (s! "image/png"));
     user_message (TextContent (s! "Please analyze the image above."))]
    (Some (s! "A prompt with image content for conformance testing.")).
End TestPromptWithImage.

Definition all_prompts : list Prompt :=
  [TestSimplePrompt.prompt; TestPromptWithArguments.prompt; TestPromptWithEmbeddedResource.prompt; TestPromptWithImage.prompt].

(** ** handler.rs *)

Record CallToolParams := mkCall { call_name : str; call_arguments : option Map; call_token : option ProgressToken }.
Record GetPromptParams := mkGetPrompt { prompt_name : str; prompt_arguments : option (gmap str str) }.
Inductive CompleteRequestRef := PromptReference (name : str) | ResourceReference (uri : str).
Record CompleteParams := mkComplete { complete_ref : CompleteRequestRef; complete_argument : str }.
Record Completion := mkCompletion { values : list str; has_more : option bool; total : option Z }.

(** The results, each as the value its type's conversion gets. *)
Inductive Answer :=
| ListToolsResult (tools : list (Tool ToolInputSchema))
| CallResult (r : CallToolResult)
| ListResourcesResult (resources : list Resource)
| ListResourceTemplatesResult (templates : list Resource)
| ReadResourceResult (contents : list ResourceContents)
| ListPromptsResult (prompts : list Prompt)
| PromptResult (r : GetPromptResult)
| CompleteResult (completion : Completion)
| EmptyResult.

Module ConformanceHandler.
Section Handler.
Context {St Created : Type} `{!Runtime St Created}.
Context (show_error : McpSdkError -> str) (created_from_value : Value -> result Created str).
Context (to_string_pretty : ElicitResult -> result str str) (show_action : ElicitResultAction -> str).
Context (from_str : str -> result Value str) (from_value : str -> Value -> result Call.t str).
Context (to_string : Value -> str) (unix_time : option N).
(** [CallToolError::new] of an error of the same type. *)
Context (boxed : CallToolError -> CallToolError).

Definition handle_list_tools_request : list (Tool ToolInputSchema) :=
  from_option id [] (tools from_str program (ConformanceTools from_str)).
(** [ConformanceTools::try_from(params)] *)
Definition tool_params (p : CallToolParams) : result Call.t CallToolError :=
  match ToolBox.try_from from_value (ConformanceTools from_str) (call_name p) (call_arguments p) with
  | Ok (_, t) => Ok t
  | Err e => Err (boxed e)
  end.
Definition handle_call_tool_request (p : CallToolParams) : Act St CallToolError CallToolResult :=
  do t <- act_lift (tool_params p);
  match t with
  | Call.TestSimpleText => act_ret simple_text
  | Call.TestImageContent => act_ret image
  | Call.TestAudioContent => act_ret audio
  | Call.TestEmbeddedResource => act_ret embedded_resource
  | Call.TestMultipleContentTypes => act_ret multiple_content_types
  | Call.TestErrorHandling => act_ret error_handling
  | Call.TestToolWithLogging => with_logging show_error
  | Call.TestToolWithProgress => with_progress show_error (call_token p)
  | Call.TestSampling prompt => sampling show_error created_from_value prompt
  | Call.TestElicitation message => elicitation show_error to_string_pretty show_action message
  | Call.TestElicitationDefaults => elicitation_defaults show_error to_string_pretty
  | Call.TestElicitationEnums => elicitation_enums show_error to_string_pretty
  end.

(** A resource the macro has accepted expands. *)
Definition listed (r : list Meta * DeriveInput) : list Resource := option_list (resource from_str (resource_attributes from_str r)).
Definition handle_list_resources_request : list Resource :=
  listed StaticTextResource ++ listed StaticBinaryResource ++ listed EmbeddedTestResource ++ listed WatchedResource.
Definition handle_list_resource_templates_request : list Resource :=
  option_list (resource_template from_str (template_attributes from_str TemplateDataResource)).
Definition no_resource (uri : str) : RpcError :=
  mkRpcError invalid_request (Some ((s! "No resource found for uri '") ++ uri ++ (s! "'."))).
Definition handle_read_resource_request (uri : str) : result (list ResourceContents) RpcError :=
  if bool_decide (uri = uri_of from_str StaticTextResource) then Ok (static_text from_str)
  else if bool_decide (uri = uri_of from_str StaticBinaryResource) then Ok (static_binary from_str)
  else if bool_decide (uri = uri_of from_str EmbeddedTestResource) then Ok (embedded_test from_str)
  else if bool_decide (uri = uri_of from_str WatchedResource) then Ok (watched from_str to_string unix_time)
  else if matches_url uri then Ok (template_data to_string uri)
  else Err (no_resource uri).

Definition arguments_required (name : str) : RpcError :=
  mkRpcError invalid_params (Some ((s! "Arguments required for ") ++ name)).
Definition handle_get_prompt_request (p : GetPromptParams) : result GetPromptResult RpcError :=
  let name := prompt_name p in
  if bool_decide (name = s! "test_simple_prompt") then Ok TestSimplePrompt.get_prompt
  else if bool_decide (name = s! "test_prompt_with_arguments") then
    let? args := ok_or (prompt_arguments p) (arguments_required name) in
    Ok (TestPromptWithArguments.get_prompt (from_option id (s! "default1") (args !! s! "arg1"))
          (from_option id (s! "default2") (args !! s! "arg2")))
  else if bool_decide (name = s! "test_prompt_with_embedded_resource") then
    let? args := ok_or (prompt_arguments p) (arguments_required name) in
    Ok (TestPromptWithEmbeddedResource.get_prompt (from_option id (s! "test://example-resource") (args !! s! "resourceUri")))
  else if bool_decide (name = s! "test_prompt_with_image") then Ok TestPromptWithImage.get_prompt
  else Err (mkRpcError invalid_params (Some ((s! "Unknown prompt: '") ++ name ++ (s! "'")))).

Definition handle_complete_request (p : CompleteParams) : result Completion RpcError :=
  if (match complete_ref p with PromptReference name => bool_decide (name = s! "test_prompt_with_arguments") | _ => false end)
     && bool_decide (complete_argument p = s! "arg1")
  then Ok (mkCompletion [s! "paris"; s! "park"; s! "party"] (Some false) (Some 3%Z))
  else Err (mkRpcError method_not_found (Some ((s! "No completion handler for '") ++ complete_argument p ++ (s! "'")))).

(** [impl ServerHandler]: the params of each kind of request, and the result
    type's value of an answer; the other methods are the trait's. *)
Context {RequestId Params Val : Type} (as_call : Params -> CallToolParams) (as_uri : Params -> str).
Context (as_get_prompt : Params -> GetPromptParams) (as_complete : Params -> CompleteParams) (value : Answer -> Val).
Context (trait : ServerHandler.t St RequestId Params Val CallToolError).
Definition answering (a : Answer) : Params -> Act St RpcError Val := fun _ => act_ret (value a).
Definition trying {A} (f : Params -> result A RpcError) (a : A -> Answer) : Params -> Act St RpcError Val :=
  fun p => do x <- act_lift (f p); act_ret (value (a x)).
Definition handler : ServerHandler.t St RequestId Params Val CallToolError := {|
  ServerHandler.on_initialized := ServerHandler.on_initialized trait;
  ServerHandler.handle_initialize_request := ServerHandler.handle_initialize_request trait;
  ServerHandler.handle_ping_request := ServerHandler.handle_ping_request trait;
  ServerHandler.handle_list_resources_request := answering (ListResourcesResult handle_list_resources_request);
  ServerHandler.handle_list_resource_templates_request :=
    answering (ListResourceTemplatesResult handle_list_resource_templates_request);
  ServerHandler.handle_read_resource_request := trying (fun p => handle_read_resource_request (as_uri p)) ReadResourceResult;
  ServerHandler.handle_subscribe_request := answering EmptyResult;
  ServerHandler.handle_unsubscribe_request := answering EmptyResult;
  ServerHandler.handle_list_prompts_request := answering (ListPromptsResult all_prompts);
  ServerHandler.handle_get_prompt_request := trying (fun p => handle_get_prompt_request (as_get_prompt p)) PromptResult;
  ServerHandler.handle_list_tools_request := answering (ListToolsResult handle_list_tools_request);
  ServerHandler.handle_task_augmented_tool_call := ServerHandler.handle_task_augmented_tool_call trait;
  ServerHandler.handle_call_tool_request := fun p =>
    do r <- handle_call_tool_request (as_call p); act_ret (value (CallResult r));
  ServerHandler.handle_set_level_request := answering EmptyResult;
  ServerHandler.handle_complete_request := trying (fun p => handle_complete_request (as_complete p)) CompleteResult;
  ServerHandler.handle_get_task_request := ServerHandler.handle_get_task_request trait;
  ServerHandler.handle_get_task_payload_request := ServerHandler.handle_get_task_payload_request trait;
  ServerHandler.handle_cancel_task_request := ServerHandler.handle_cancel_task_request trait;
  ServerHandler.handle_list_task_request := ServerHandler.handle_list_task_request trait;
  ServerHandler.handle_custom_request := ServerHandler.handle_custom_request trait;
  ServerHandler.handle_initialized_notification := ServerHandler.handle_initialized_notification trait;
  ServerHandler.handle_cancelled_notification := ServerHandler.handle_cancelled_notification trait;
  ServerHandler.handle_progress_notification := ServerHandler.handle_progress_notification trait;
  ServerHandler.handle_roots_list_changed_notification := ServerHandler.handle_roots_list_changed_notification trait;
  ServerHandler.handle_task_status_notification := ServerHandler.handle_task_status_notification trait;
  ServerHandler.handle_custom_notification := ServerHandler.handle_custom_notification trait;
  ServerHandler.handle_error := ServerHandler.handle_error trait;
|}.
End Handler.
End ConformanceHandler.

(** ** The runtime of a session *)

(** The calls of [McpServer] (Requests.v) are such a runtime. *)
Section McpRuntime.
Context {St RequestId Params Val R Msg Meta Status Store : Type} `{!Results Val R} `{!Received RequestId R Msg}.
Context `{!TaskStoreOps (RequestId * FromServer.request * Params) R Meta Status Store}.
Context (send_request : FromServer.request -> Params -> option N -> Act St McpSdkError (option Msg)).
Context (send : FromServer.notification -> Params -> Act St McpSdkError unit).
Context (is_task_augmented : FromServer.request -> Params -> bool) (as_create_task : R -> option (CreatedTask Meta)).
Context (client_task_store : St -> option Store) (set_client_task_store : Store -> St -> St) (session_id : St -> option str).
Context (progress_params : ProgressToken -> Float -> option Float -> option str -> Params).
Context (log_params : McpServer.LoggingLevel -> str -> Params) (elicit_params : ElicitRequest -> Params).
Context (as_message : Val -> CreateMessageContent) (as_elicited : Val -> ElicitResult).
Context (supports_sampling : St -> option bool) (others : N -> St -> St).
Definition mapped {A B} (f : A -> B) (m : Act St McpSdkError A) : Act St McpSdkError B := do a <- m; act_ret (f a).
Definition mcp_runtime : Runtime St Params := {|
  log_info := McpServer.log_info send log_params;
  report_progress := McpServer.report_progress send progress_params;
  client_supports_sampling := supports_sampling;
  request_message_creation := fun p => mapped as_message
    (McpServer.request_message_creation send_request is_task_augmented as_create_task client_task_store set_client_task_store session_id p);
  request_elicitation := fun p => mapped as_elicited
    (McpServer.request_elicitation send_request is_task_augmented as_create_task client_task_store set_client_task_store session_id
       (elicit_params p));
  sleep := others;
|}.
End McpRuntime.

(** ** Facts *)

(** What serde makes of the tools' structs. *)
Definition dummy_tools : list (str * Call.t) :=
  [(s! "TestSimpleText", Call.TestSimpleText); (s! "TestImageContent", Call.TestImageContent);
   (s! "TestAudioContent", Call.TestAudioContent); (s! "TestEmbeddedResource", Call.TestEmbeddedResource);
   (s! "TestMultipleContentTypes", Call.TestMultipleContentTypes); (s! "TestErrorHandling", Call.TestErrorHandling);
   (s! "TestToolWithLogging", Call.TestToolWithLogging); (s! "TestToolWithProgress", Call.TestToolWithProgress);
   (s! "TestElicitationDefaults", Call.TestElicitationDefaults); (s! "TestElicitationEnums", Call.TestElicitationEnums)].
Class ToolSerde (from_value : str -> Value -> result Call.t str) : Prop := {
  dummy_read t call args : (t, call) ∈ dummy_tools ->
    json_get (s! "_dummy") (VObject args) = None \/ json_get (s! "_dummy") (VObject args) = Some VNull ->
    from_value t (VObject args) = Ok call;
  prompt_read args p : json_get (s! "prompt") (VObject args) = Some (VString p) ->
    from_value (s! "TestSampling") (VObject args) = Ok (Call.TestSampling p);
  message_read args m : json_get (s! "message") (VObject args) = Some (VString m) ->
    from_value (s! "TestElicitation") (VObject args) = Ok (Call.TestElicitation m);
}.

Module ConformanceFacts.
Section Facts.
Context (from_str : str -> result Value str).

(** The tools are those the macros accept, and each has the schema of its
    field. *)
Definition box : list ToolType :=
  (fun t => mkToolType (name t.2)
     (match t.1 with
      | [NameValue _ (ELit (LStr n)); NameValue _ (ELit (LStr d))] =>
          mkAttributes (Some n) (Some d) None None None None None None None None None None None None None
      | _ => no_attributes
      end)) <$> tool_types.
Lemma box_expanded : ConformanceTools from_str = box.
Proof. vm_compute. reflexivity. Qed.
Definition dummy_schema : list (str * Map) :=
  [(s! "_dummy", [(s! "type", VArray [VString (s! "unknown"); VString (s! "null")])])].
Definition string_schema (k : str) : list (str * Map) := [(k, [(s! "type", VString (s! "string"))])].
Definition input_schema (t : ToolType) : ToolInputSchema :=
  if bool_decide (rust_type t = s! "TestSampling") then mkInputSchema [s! "prompt"] (Some (string_schema (s! "prompt")))
  else if bool_decide (rust_type t = s! "TestElicitation") then mkInputSchema [s! "message"] (Some (string_schema (s! "message")))
  else mkInputSchema [] (Some dummy_schema).
Definition listing : list (Tool ToolInputSchema) :=
  (fun t => mkTool (tool_name t) (a_description (attributes t)) None None None None [] (input_schema t)) <$> box.
Lemma tools_listed : ConformanceHandler.handle_list_tools_request from_str = listing.
Proof. unfold ConformanceHandler.handle_list_tools_request. rewrite box_expanded. vm_compute. reflexivity. Qed.

(** The tool a call belongs to. *)
Definition called (c : Call.t) : str :=
  match c with
  | Call.TestSimpleText => s! "test_simple_text"
  | Call.TestImageContent => s! "test_image_content"
  | Call.TestAudioContent => s! "test_audio_content"
  | Call.TestEmbeddedResource => s! "test_embedded_resource"
  | Call.TestMultipleContentTypes => s! "test_multiple_content_types"
  | Call.TestErrorHandling => s! "test_error_handling"
  | Call.TestToolWithLogging => s! "test_tool_with_logging"
  | Call.TestToolWithProgress => s! "test_tool_with_progress"
  | Call.TestSampling _ => s! "test_sampling"
  | Call.TestElicitation _ => s! "test_elicitation"
  | Call.TestElicitationDefaults => s! "test_elicitation_sep1034_defaults"
  | Call.TestElicitationEnums => s! "test_elicitation_sep1330_enums"
  end.

(** Every id makes an instance of the template. *)
Lemma template_matches id : matches_url ((s! "test://template/") ++ id ++ (s! "/data")) = true.
Proof.
  unfold matches_url. rewrite starts_with_app. unfold ends_with.
  by rewrite (proj2 (strip_suffix_Some (s! "/data") _ ((s! "test://template/") ++ id)) (app_assoc _ _ _)).
Qed.
Lemma template_id_of id : template_id ((s! "test://template/") ++ id ++ (s! "/data")) = id.
Proof.
  unfold template_id. rewrite strip_prefix_app. cbn [mbind option_bind]. by rewrite (proj2 (strip_suffix_Some _ _ _) eq_refl).
Qed.

(** What the two kinds of input schema accept. *)
Lemma one_property req k sch args :
  validates (VObject (input_keywords (mkInputSchema req (Some [(k, sch)])))) (VObject args) = true ->
  (forall x, json_get k (VObject args) = Some x -> validates (VObject sch) x = true) /\
  Forall (fun n => is_some (json_get n (VObject args)) = true) req.
Proof.
  assert (E : input_keywords (mkInputSchema req (Some [(k, sch)])) =
    (s! "properties", VObject [(k, VObject sch)]) ::
    match req with [] => [] | _ => [(s! "required", VArray (VString <$> req))] end ++ [(s! "type", VString (s! "object"))])
    by (destruct req; reflexivity).
  rewrite E, SchemaFacts.validates_plain by (by destruct req). cbn [forallb]. rewrite SchemaFacts.asserts_properties, forallb_app.
  cbn [forallb fst snd]. intros [[Hp _]%andb_true_iff [Hr _]%andb_true_iff]%andb_true_iff. split.
  - intros x Hx. by rewrite Hx in Hp.
  - destruct req as [|r req]; [constructor|]. cbn [forallb] in Hr. rewrite SchemaFacts.asserts_required, andb_true_r in Hr.
    apply Forall_forall. intros n Hn%list_elem_of_In. by apply (proj1 (forallb_forall _ _) Hr).
Qed.
Lemma dummy_accepted args : validates (VObject (input_keywords (mkInputSchema [] (Some dummy_schema)))) (VObject args) = true ->
  json_get (s! "_dummy") (VObject args) = None \/ json_get (s! "_dummy") (VObject args) = Some VNull.
Proof.
  intros [H _]%one_property. destruct (json_get _ _) as [v|]; [right|by left]. specialize (H v eq_refl). by destruct v.
Qed.
Lemma string_accepted k args :
  validates (VObject (input_keywords (mkInputSchema [k] (Some (string_schema k))))) (VObject args) = true ->
  exists x, json_get k (VObject args) = Some (VString x).
Proof.
  intros [H [Hr _]%Forall_cons]%one_property. destruct (json_get _ _) as [v|]; [|done]. specialize (H v eq_refl).
  destruct v; try done. by eexists.
Qed.

Context (from_value : str -> Value -> result Call.t str) `{!ToolSerde from_value} (boxed : CallToolError -> CallToolError).
Abbreviation tool_params := (ConformanceHandler.tool_params from_str from_value boxed).

Lemma served_call t args token : t ∈ box ->
  tool_params (mkCall (tool_name t) (Some args) token) =
  match from_value (rust_type t) (VObject args) with Ok c => Ok c | Err e => Err (boxed (OtherError e)) end.
Proof.
  intros Ht. unfold ConformanceHandler.tool_params, ToolBox.try_from. rewrite box_expanded. cbn [call_arguments call_name].
  assert (Hn : NoDup (tool_name <$> box)) by (apply (bool_decide_eq_true_1 (NoDup (tool_name <$> box))); by vm_compute).
  rewrite (find_named box t Hn Ht). by destruct (from_value _ _).
Qed.
Lemma dummy_found t d args : find (fun d => bool_decide (t = d.1)) dummy_tools = Some d ->
  json_get (s! "_dummy") (VObject args) = None \/ json_get (s! "_dummy") (VObject args) = Some VNull ->
  from_value t (VObject args) = Ok d.2.
Proof.
  intros [Hd Ht]%find_some. bool_prop. subst t. apply dummy_read. destruct d. by apply list_elem_of_In.
Qed.
Lemma callable tool args token : tool ∈ listing ->
  validates (VObject (input_keywords (t_input_schema tool))) (VObject args) = true ->
  exists c, tool_params (mkCall (t_name tool) (Some args) token) = Ok c /\ called c = t_name tool.
Proof.
  unfold listing. intros (t & -> & Ht)%list_elem_of_fmap. cbn [t_name t_input_schema]. intros Hv.
  rewrite (served_call t args token Ht). revert Hv. unfold box in Ht. apply list_elem_of_fmap in Ht as (x & -> & Hx).
  repeat (apply elem_of_cons in Hx as [->|Hx];
    [first [ intros Hv%dummy_accepted; erewrite dummy_found by (exact Hv || reflexivity); by eexists
           | intros [p Hp]%string_accepted; rewrite (prompt_read _ _ Hp) || rewrite (message_read _ _ Hp); by eexists]|]).
  by apply elem_of_nil in Hx.
Qed.
End Facts.
End ConformanceFacts.

Section Surface.
Import ConformanceFacts ConformanceHandler.
Context (from_str : str -> result Value str) (from_value : str -> Value -> result Call.t str) `{!ToolSerde from_value}.
Context (boxed : CallToolError -> CallToolError) (to_string : Value -> str) (unix_time : option N).
Abbreviation call p := (tool_params from_str from_value boxed p).
Abbreviation read uri := (handle_read_resource_request from_str to_string unix_time uri).

Definition contents_uri (c : ResourceContents) : str :=
  match c with TextResourceContents _ uri _ | BlobResourceContents _ uri _ => uri end.
Definition contents_mime (c : ResourceContents) : str :=
  match c with TextResourceContents _ _ m | BlobResourceContents _ _ m => m end.

(** What the server lists it serves, and nothing else.  A call of a listed tool
    whose arguments satisfy the input schema in the listing runs that tool, and a
    call without arguments or of another tool is refused; a listed resource is
    read under its URI as one content of its MIME type, and so is every instance
    of the template, with its id; other URIs are refused, unless they match the
    template by overlapping ends; a listed prompt needs arguments exactly when it
    declares some. *)
Theorem conformance_surface :
  NoDup (t_name <$> handle_list_tools_request from_str) /\
  (forall tool args token, tool ∈ handle_list_tools_request from_str ->
     validates (VObject (input_keywords (t_input_schema tool))) (VObject args) = true ->
     exists c, call (mkCall (t_name tool) (Some args) token) = Ok c /\ called c = t_name tool) /\
  (forall n token, call (mkCall n None token) = Err (boxed (InvalidArguments n (Some missing_arguments)))) /\
  (forall n args token, n ∉ t_name <$> handle_list_tools_request from_str ->
     call (mkCall n (Some args) token) = Err (boxed (UnknownTool n))) /\
  (forall r, r ∈ handle_list_resources_request from_str ->
     exists c, read (r_uri r) = Ok [c] /\ contents_uri c = r_uri r /\ r_mime_type r = Some (contents_mime c)) /\
  (forall id, let uri := (s! "test://template/") ++ id ++ (s! "/data") in
     read uri = Ok [TextResourceContents (to_string (template_content id)) uri (s! "application/json")]) /\
  (forall uri, uri ∉ r_uri <$> handle_list_resources_request from_str -> matches_url uri = false -> read uri = Err (no_resource uri)) /\
  (forall p args, p ∈ all_prompts ->
     is_ok (handle_get_prompt_request (mkGetPrompt (p_name p) args)) =
     match p_arguments p with [] => true | _ => is_some args end) /\
  (forall p, prompt_name p ∉ p_name <$> all_prompts -> exists m, handle_get_prompt_request p = Err (mkRpcError invalid_params (Some m))).
Proof.
  rewrite (tools_listed from_str).
  assert (Hn : NoDup (t_name <$> listing)) by (apply (bool_decide_eq_true_1 (NoDup (t_name <$> listing))); by vm_compute).
  split_and!.
  - exact Hn.
  - intros tool args token. by apply callable.
  - done.
  - intros n args token Hn'. unfold tool_params, ToolBox.try_from. cbn [call_arguments call_name]. rewrite box_expanded.
    destruct (find _ box) as [t|] eqn:E; [|done]. apply find_some in E as [Ht E]. bool_prop. destruct Hn'. rewrite E.
    unfold listing. rewrite <-list_fmap_compose. apply (list_elem_of_fmap_2 tool_name). by apply list_elem_of_In.
  - intros r Hr. vm_compute in Hr.
    repeat (apply elem_of_cons in Hr as [->|Hr]; [eexists; split; [vm_compute; reflexivity|done]|]). by apply elem_of_nil in Hr.
  - intros id uri. unfold handle_read_resource_request.
    rewrite !bool_decide_eq_false_2 by (unfold uri; intros [=]). unfold template_data. subst uri.
    by rewrite template_matches, template_id_of.
  - intros uri Hu Hm. vm_compute in Hu. unfold handle_read_resource_request. rewrite Hm.
    rewrite !bool_decide_eq_false_2; [done|..]; intros ->; apply Hu; vm_compute; by repeat constructor.
  - intros p args Hp. unfold all_prompts in Hp.
    repeat (apply elem_of_cons in Hp as [->|Hp]; [by destruct args|]). by apply elem_of_nil in Hp.
  - intros p Hp. unfold handle_get_prompt_request.
    rewrite !bool_decide_eq_false_2; [by eexists|..]; intros E; apply Hp; rewrite E; vm_compute; by repeat constructor.
Qed.
End Surface.

(** *** What the tools report while they run *)

Inductive Notice := LogInfo (m : str) | Progress (token : ProgressToken) (progress : Float) (total : option Float).
(** A runtime whose session sends in order: [notices] is what it has sent; other
    tasks may send as well. *)
Class RuntimeLaws (St Created : Type) `{!Runtime St Created} (notices : St -> list Notice) : Prop := {
  log_info_law m s :
    let '(r, s') := log_info m s in
    exists l, notices s' = notices s ++ l ++ match r with Ok _ => [LogInfo m] | Err _ => [] end;
  report_progress_law token v total s :
    let '(r, s') := report_progress (Some token) v total None s in
    exists l, notices s' = notices s ++ l ++ match r with Ok _ => [Progress token v total] | Err _ => [] end;
  sleep_law n s : exists l, notices (sleep n s) = notices s ++ l;
}.

Section Reports.
Context {St Created : Type} (notices : St -> list Notice) `{!Runtime St Created} `{!RuntimeLaws St Created notices}.
Context (show_error : McpSdkError -> str).

(** The plan was sent, in order, among what else the session sent. *)
Definition emitted (plan : list Notice) (s s' : St) : Prop :=
  exists sent, notices s' = notices s ++ sent /\ plan `sublist_of` sent.
Lemma emitted_trans p q s s1 s2 : emitted p s s1 -> emitted q s1 s2 -> emitted (p ++ q) s s2.
Proof.
  intros (l & E & Hp) (l' & E' & Hq). exists (l ++ l'). split; [by rewrite E', E, <-app_assoc|]. by apply sublist_app.
Qed.

(** A run reports a plan: all of it when it succeeds, else a proper part, with
    an error of the connection. *)
Definition reports {A} (plan : list Notice) (m : Act St CallToolError A) (a : A) : Prop :=
  forall s, match m s with
            | (Ok x, s') => x = a /\ emitted plan s s'
            | (Err e, s') => exists k (err : McpSdkError), k < length plan /\ emitted (firstn k plan) s s' /\ e = from_message (show_error err)
            end.
Lemma reports_nil (a : CallToolResult) : reports [] (act_ret a) a.
Proof. intros s. split; [done|]. exists []. by rewrite app_nil_r. Qed.
Lemma reports_pause {A} plan (m : Act St CallToolError A) a : reports plan m a -> reports plan (do _ <- pause; m) a.
Proof.
  intros Hm s. unfold act_bind, pause, act_modify. specialize (Hm (sleep 50 s)).
  assert (Hs : emitted [] s (sleep 50 s)) by (destruct (sleep_law 50 s) as [l Hl]; exists l; split; [done|apply sublist_nil_l]).
  destruct (m _) as [[x|e] s']; [destruct Hm as [-> Hm]; split; [done|]|destruct Hm as (k & err & Hk & Hm & He); exists k, err; split_and!; try done];
    exact (emitted_trans [] _ _ _ _ Hs Hm).
Qed.
Lemma reports_send {A} n plan (send : Act St McpSdkError unit) (m : Act St CallToolError A) a :
  (forall s, let '(r, s') := send s in exists l, notices s' = notices s ++ l ++ match r with Ok _ => [n] | Err _ => [] end) ->
  reports plan m a -> reports (n :: plan) (do _ <- or_message show_error [] send; m) a.
Proof.
  intros Hsend Hm s. unfold act_bind, or_message. specialize (Hsend s). destruct (send s) as [[[]|e] s1], Hsend as [l Hl].
  - assert (Hs : emitted [n] s s1) by (exists (l ++ [n]); split; [done|]; by apply sublist_inserts_l).
    specialize (Hm s1). destruct (m s1) as [[x|e] s']; [destruct Hm as [-> Hm]; split; [done|]; exact (emitted_trans [n] _ _ _ _ Hs Hm)|].
    destruct Hm as (k & err & Hk & Hm & He). exists (S k), err. split_and!; [simpl; lia|exact (emitted_trans [n] _ _ _ _ Hs Hm)|done].
  - exists 0, e. split_and!; [simpl; lia| |done]. exists l. rewrite app_nil_r in Hl. split; [done|apply sublist_nil_l].
Qed.

(** The tool that logs sends its three messages in order, the tool that reports
    progress 0, 50 and 100 of 100 under the caller's token - or its own, when the
    call has none - in order, and answers after the last of them; a connection
    that fails ends the call with its error, after the messages before it. *)
Theorem tools_report :
  reports [LogInfo (s! "Tool execution started"); LogInfo (s! "Tool processing data"); LogInfo (s! "Tool execution completed")]
    (with_logging show_error) (text_answer (s! "Tool execution completed successfully")) /\
  forall token, let t := from_option id (TokenString (s! "progress-test-1")) token in
    reports ((fun z => Progress t (whole z) (Some (whole 100))) <$> [0; 50; 100]%Z)
      (with_progress show_error token) (text_answer (s! "Progress test completed")).
Proof.
  split; [|intros token t]; unfold with_logging, with_progress;
    repeat first [apply reports_send; [intros; apply log_info_law|] | apply reports_send; [intros; apply report_progress_law|]
                 | apply reports_pause | apply reports_nil].
Qed.
End Reports.

(** ** A run *)

Module ConformanceDemo.
Import ConformanceHandler.
(** A reader of the structs that knows their one field. *)
Definition of_string (k : str) (make : str -> Call.t) (v : Value) : result Call.t str :=
  match json_get k v with Some (VString x) => Ok (make x) | _ => Err (s! "missing field") end.
Definition from_value (t : str) (v : Value) : result Call.t str :=
  if bool_decide (t = s! "TestSampling") then of_string (s! "prompt") Call.TestSampling v
  else if bool_decide (t = s! "TestElicitation") then of_string (s! "message") Call.TestElicitation v
  else
    match json_get (s! "_dummy") v with
    | None | Some VNull => from_option (fun d => Ok d.2) (Err (s! "unknown type")) (find (fun d => bool_decide (t = d.1)) dummy_tools)
    | _ => Err (s! "expected unit")
    end.
#[global] Instance serde : ToolSerde from_value.
Proof.
  split.
  - intros t call args Ht Hd. unfold from_value. revert Hd. generalize (json_get (s! "_dummy") (VObject args)). intros o Hd.
    unfold dummy_tools in Ht.
    repeat (apply elem_of_cons in Ht as [[= -> ->]|Ht]; [by destruct Hd as [->| ->]|]). by apply elem_of_nil in Ht.
  - intros args p Hp. unfold from_value, of_string. by rewrite Hp.
  - intros args m Hm. unfold from_value, of_string. by rewrite Hm.
Qed.

(** A session that sends every notification and has no other task. *)
Definition params_notice (n : FromServer.notification) (p : Notice) (s : list Notice) : result unit McpSdkError * list Notice :=
  (Ok tt, s ++ [p]).
#[global] Instance no_results : Results unit unit := {| into _ v := v; try_from _ r := Ok r |}.
#[global] Instance no_messages : Received unit unit unit :=
  {| Requests.is_error _ := false; as_error _ := Err (mkSdkError internal_error None); as_response m := Ok (tt, m) |}.
#[global] Instance no_tasks : TaskStoreOps (unit * FromServer.request * Notice) unit unit unit unit :=
  {| ts_create_task _ _ _ _ _ s := ([], s); ts_store_task_result _ _ _ _ s := s |}.
#[global] Instance runtime : Runtime (list Notice) Notice :=
  mcp_runtime (fun _ _ _ s => (Ok (Some tt), s)) params_notice (fun _ _ => false) (fun _ => None)
    (fun _ => None) (fun _ s => s) (fun _ => None) (fun t v total _ => Progress t v total) (fun _ m => LogInfo m)
    (fun _ => LogInfo []) (fun _ => MessageText []) (fun _ => mkElicitResult Cancel None) (fun _ => Some false) (fun _ s => s).
#[global] Instance runtime_laws : RuntimeLaws (list Notice) Notice id.
Proof. split; [intros; by exists []..|intros; exists []; by rewrite app_nil_r]. Qed.

(** The two ends of the template may overlap; nothing is left for the id then. *)
Example overlapping_ends :
  handle_read_resource_request (fun _ => Err []) (fun v => from_option id [] (json_get (s! "id") v ≫= as_string)) None
    (s! "test://template/data") =
  Ok [TextResourceContents (s! "unknown") (s! "test://template/data") (s! "application/json")].
Proof. by vm_compute. Qed.
(** A required argument that is missing gets a default. *)
Example required_argument_missing :
  handle_get_prompt_request (mkGetPrompt (s! "test_prompt_with_arguments") (Some ∅)) =
  Ok (TestPromptWithArguments.get_prompt (s! "default1") (s! "default2")).
Proof. by vm_compute. Qed.
End ConformanceDemo.

Lemma conformance_surface_witness :
  ConformanceHandler.tool_params (fun _ => Err []) ConformanceDemo.from_value id
    (mkCall (s! "test_sampling") (Some [(s! "prompt", VString (s! "hi"))]) None) = Ok (Call.TestSampling (s! "hi")).
Proof.
  destruct (conformance_surface (fun _ => Err []) ConformanceDemo.from_value id (fun _ => []) None) as (_ & H & _).
  destruct (H (mkTool (s! "test_sampling") (Some (s! "Requests LLM sampling from the client for conformance testing."))
    None None None None [] (mkInputSchema [s! "prompt"] (Some (ConformanceFacts.string_schema (s! "prompt")))))
    [(s! "prompt", VString (s! "hi"))] None) as (c & Hc & E).
  - rewrite ConformanceFacts.tools_listed. do 8 right. left.
  - by vm_compute.
  - cbn [t_name] in Hc. rewrite Hc. vm_compute in Hc. by injection Hc as <-.
Defined.

Lemma tools_report_witness :
  with_progress (fun _ => []) (Some (TokenInteger 7)) [] =
  (Ok (text_answer (s! "Progress test completed")),
   (fun z => Progress (TokenInteger 7) (whole z) (Some (whole 100))) <$> [0; 50; 100]%Z).
Proof.
  pose proof (proj2 (tools_report id (fun _ => [])) (Some (TokenInteger 7)) []) as H. revert H.
  destruct (with_progress _ _ _) as [r s'] eqn:E. vm_compute in E. injection E as <- <-. intros [-> _]. reflexivity.
Defined.
