(* ===== verification/ConformanceMain.v ===== *)
(** * How the conformance server is put together

    Models crates/conformance-server/src/main.rs: the state, the HTTP handler and
    the routes that it assembles itself instead of letting an [AxumServer] do it
    (HttpServers.v), and shows that they are those of a server with the same
    options. *)
From S2P Require Import Prelude RustStr EventStore SessionStore IdGen Dispatcher Auth ServerRuntime Requests Http HttpHandler HttpAnswers Adapters HttpServers Json JsonSchema.
Import McpAppState AdapterFacts GuardFacts.

(** What the server says of itself; the members of a capability as JSON. *)
Record Implementation := mkImplementation { im_name : str; im_version : str; im_title : option str; im_description : option str }.
Definition LIST_CHANGED : str * Value := (s! "listChanged", VBool true).
Definition server_details : McpClient.InitializeResult Map Implementation :=
  McpClient.mkInit (s! "2025-11-25")
    (McpClient.mkCaps (Some [LIST_CHANGED]) (Some [LIST_CHANGED])
       (Some [(s! "elicitation", VObject []); (s! "sampling", VObject [])])
       (Some [LIST_CHANGED; (s! "subscribe", VBool true)]) (Some []) (Some []))
    (mkImplementation (s! "conformance-server") (s! "0.1.0") (Some (s! "MCP Conformance Test Server"))
       (Some (s! "Implements all MCP conformance test scenarios for the 2025-11-25 spec."))) None.

Section Main.
Context {H : Type} `{HeaderIter H} {Extra Details Tr St G RequestId Req Notif Resp Out : Type}.
Context `{!SessionStore nat St} `{!IdGenerator G}.
Abbreviation CM := (ServerRuntime.ClientMessage RequestId Req Notif Resp).
Context `{!TransportDispatcher RequestId CM Out Tr}.
Abbreviation World := (McpAppState.t Extra Details Tr St G).
Context (default_store : St) (uuid : G).

Definition main_host : str := s! "0.0.0.0".
Definition main_port : N := 3000.
Definition state : World := McpAppState.mk default_store uuid (FastIdGenerator.new (Some (s! "s_"))) false true [] [] [].
Definition main_hosts : list str :=
  [(s! "localhost:") ++ show_N main_port; (s! "127.0.0.1:") ++ show_N main_port; (s! "[::1]:") ++ show_N main_port].
Definition main_dns : DnsRebindingOptions := mkDnsOptions true (Some main_hosts) None.
Definition main_middlewares : list (Middleware H Extra World) :=
  match resolve_dns_middleware main_dns main_host main_port with Some dns => [dns_handle dns] | None => [] end.
Definition http_handler : HandlerService.t H Extra Details Tr St G := HandlerService.new None main_middlewares None.
Definition mount_opts : McpMountOptions :=
  mkMount (s! "/mcp") (s! "/sse") (s! "/messages") (Some (s! "/health")) DEFAULT_MAX_REQUEST_BODY_SIZE.

(** The page at [/], and the routes merged with it. *)
Definition home : str := s! "conformance-server -- MCP Conformance Test Server".
Context (now : N) (encode : bytes -> str) (parse_value : str -> option HttpHandler.Value) (parse_messages : str -> option (Messages CM))
  (is_initialize_request : CM -> bool) (parse_version : str -> result unit str) (show_error : McpSdkError -> str)
  (tr_new : option (str * str) -> Tr) (env : World -> World) (read_line : nat -> World -> option (result str str) * World)
  (default_status : str) (error_code error_text : AuthenticationError -> str).
Abbreviation service := (HandlerService.service now encode parse_value parse_messages is_initialize_request parse_version
  show_error tr_new env read_line default_status).
Definition app : (str * str) * list Route := ((s! "/", home), Axum.mcp_routes (service http_handler) mount_opts).

(** ** Facts *)

(** The options of an [AxumServer] that is the same. *)
Definition options : ServerOptions H Extra World St G :=
  mkOptions main_host main_port None None true None None None false None None main_dns true None None None (Some (s! "/health")) None.
Abbreviation server := (new_axum default_store uuid now error_code error_text options).

(** The server assembled by hand is an [AxumServer] with these options: the same
    state, the same checks in front of the same endpoints; the page at [/] takes
    no route away from it. *)
Theorem conformance_server_is_axum :
  state = HttpServers.state server /\ http_handler = handler server /\ mount_opts = resolve_mount_options options /\
  app.2 = Axum.mcp_routes (service (handler server)) (resolve_mount_options options) /\ app.1.1 ∉ path <$> app.2.
Proof.
  split_and!; try done. apply (bool_decide_eq_true_1 (s! "/" ∉ _)). by vm_compute.
Qed.

(** Whatever the endpoint of the protocol, a request that is let in names the
    server by one of its three local names, with its port; any other is refused
    for its body or with 403, and changes nothing.  In particular the address the
    server is bound to is none of its names. *)
Theorem conformance_server_hosts `{!HeaderMapLaws H} `{!HeaderIterLaws H} `{!Extractors H}
  (e : Endpoint) (q : HttpRequest) (w : World) : e <> EAuth -> e <> EHealth ->
  let serve := Axum.serve (service http_handler) mount_opts e q w in
  (exists r, body_refused (mount_body_size mount_opts) q r /\ serve = Some (r, w)) \/
  (exists err, serve = Some (error_response 403 err, w)) \/
  exists (req : Request H Extra) v, (forall k, hm_get (headers req) k = HttpAnswers.field k (q_fields q)) /\
    get_str (headers req) HOST = Some v /\ to_ascii_lowercase v ∈ main_hosts.
Proof.
  intros Ha Hh serve.
  assert (He : is_Some (mcp_entry (service http_handler) mount_opts e)) by (destruct e; try done; by eexists).
  destruct He as [entry E]. destruct (axum_serve_cases _ _ _ _ q w E) as [?|(m & body & Es)]; [by left|right].
  pose proof (entry_guarded now encode parse_value parse_messages is_initialize_request parse_version show_error tr_new env
    read_line default_status error_code error_text options None mount_opts e entry (Axum.request m q body) w E eq_refl) as Hg.
  unfold serve. rewrite Es. destruct Hg as [err Hd|p Hd Hp|p err w' Hd Hp|p info w' Hd Hp|Hd Hp]; try discriminate Hp.
  - left. by exists err.
  - right. destruct (Hd _ eq_refl) as [(v & a & Hv & Hin & Hva) _]. exists (Axum.request m q body), v.
    split_and!; [apply HeaderFacts.axum_header|done|]. rewrite <-Hva. unfold main_hosts in *.
    repeat (apply elem_of_cons in Hin as [->|Hin]; [vm_compute; by repeat constructor|]). by apply elem_of_nil in Hin.
Qed.
End Main.
