(* ===== verification/ConformanceClient.v ===== *)
(** * The conformance client

    Models crates/conformance-client/src/bin/: the client that the conformance
    suite runs against its servers.  Its handler answers elicitations with the
    defaults of the form (client/handler.rs); client/transport.rs says how it
    connects; each scenario of client/scenarios/ is one short session; the
    scenarios of client/auth/ authorize themselves without a user, from discovery
    (discovery.rs) over the first token (token.rs) to a token with more scopes
    (scope_step_up.rs), with the library's OAuthDiscovery.v, OAuthClient.v and
    Auth.v; conformance-client.rs picks the scenario.

    What a session with a server answers is a class; the authorization server is
    a [Network], whose replies' Location header is a parameter.  A failed
    [expect] or [assert] is an error of the run. *)
From S2P Require Import Prelude RustStr MacroAttributes ToolBox Elicit MacroItems Dispatcher ServerRuntime Auth Json JsonSchema ConformanceServer Metadata OAuthDiscovery OAuthClient.

(** ** client/handler.rs *)

(** [d as i64]: towards zero, and saturating. *)
Definition f64_as_i64 (d : Float) : Z := Z.max (- 2 ^ 63) (Z.min (2 ^ 63 - 1) (Z.quot d.1 (10 ^ Z.of_nat d.2))).
Definition extract_default (schema : PrimitiveSchemaDefinition) : option ElicitResultContent :=
  match schema with
  | StringSchema default _ => (fun d => CPrimitive (PString d)) <$> default
  | NumberSchema default _ _ => (fun d => CPrimitive (PInteger (f64_as_i64 d))) <$> default
  | BooleanSchema default _ => (fun d => CPrimitive (PBoolean d)) <$> default
  | UntitledSingleSelectEnumSchema _ default _ => (fun d => CPrimitive (PString d)) <$> default
  | _ => None
  end.
Definition insert_default (content : gmap str ElicitResultContent) (p : str * PrimitiveSchemaDefinition) : gmap str ElicitResultContent :=
  match extract_default p.2 with Some default => <[p.1 := default]> content | None => content end.
Definition handle_elicit_request (params : ElicitRequest) : ElicitResult :=
  match params with
  | FormParams _ schema => mkElicitResult Accept (Some (foldl insert_default ∅ (form_properties schema)))
  | UrlParams _ _ _ => mkElicitResult Accept None
  end.
Definition ECHO : str := s! "Echo: sample received".
(** The model, the role and the content of its answer. *)
Definition handle_create_message_request : str * MacroAttributes.Role * CreateMessageContent :=
  (s! "echo", MacroAttributes.Assistant, MessageText ECHO).

(** ** client/transport.rs *)

(** [InitializeRequestParams]: the capabilities by their names, with what they
    hold, and the client's name, version and title. *)
Definition client_info : str * str * option str :=
  (s! "conformance-client", s! "0.1.0", Some (s! "MCP Conformance Test Client")).
(** A constant of the schema crate. *)
Class SchemaVersion := LATEST_PROTOCOL_VERSION : str.
Record InitParams := mkInitParams { capabilities : list (str * Map); init_client : str * str * option str; init_protocol : str }.
Definition make_init_params `{SchemaVersion} : InitParams :=
  mkInitParams
    [(s! "sampling", []); (s! "elicitation", [(s! "form", VObject [])]); (s! "roots", [(s! "listChanged", VBool true)])]
    client_info LATEST_PROTOCOL_VERSION.
(** [StreamableTransportOptions]: the URL and what differs from the default
    [RequestOptions]; delays in seconds. *)
Record TransportOptions := mkTransportOptions {
  mcp_url : str; custom_headers : option (gmap str str); retry_delay : option N; max_retries : option nat;
}.
Definition make_transport_options (mcp_url : str) (custom_headers : option (gmap str str)) : TransportOptions :=
  mkTransportOptions mcp_url custom_headers (Some 1%N) (Some 5).

(** A session of the client ([client_runtime::with_transport_options]), as the
    scenarios use it: [start], what the server said of itself, the names of the
    tools it lists, the [is_error] of a call, and [shut_down]; and what happens
    elsewhere in so many seconds. *)
Class Sessions (W C : Type) := {
  start : InitParams -> TransportOptions -> Act W str C;
  has_server_info : C -> W -> bool;
  request_tool_list : C -> Act W McpSdkError (list str);
  request_tool_call : C -> str -> option Map -> Act W McpSdkError (option bool);
  shut_down : C -> Act W McpSdkError unit;
  wait : N -> W -> W;
}.

Section Scenarios.
Context `{SchemaVersion} {W C : Type} `{!Sessions W C}.
(** A scenario ends, panics or exits with a code. *)
Inductive Stop := Panicked (m : str) | Exited (code : N).
Abbreviation Run := (Act W Stop).

Definition spawn_runtime (server_url : str) (auth_headers : option (gmap str str)) : Act W str C :=
  start make_init_params (make_transport_options server_url auth_headers).
Definition connect (server_url : str) : Act W str C := spawn_runtime server_url None.
Definition connect_with_auth (server_url : str) (auth_headers : gmap str str) : Act W str C := spawn_runtime server_url (Some auth_headers).

(** [.await.expect(m)], [.await.ok()] and [assert!]. *)
Definition expect {E A} (m : str) (x : Act W E A) : Run A :=
  fun w => let '(r, w) := x w in ((match r with Ok a => Ok a | Err _ => Err (Panicked m) end), w).
Definition ok_of {E F A} (x : Act W E A) : Act W F (option A) :=
  fun w => let '(r, w) := x w in (Ok (match r with Ok a => Some a | Err _ => None end), w).
Definition assert_that (b : bool) (m : str) : Run unit := if b then act_ret tt else act_fail (Panicked m).
Definition not_an_error (is_error : option bool) : bool := bool_decide (is_error <> Some true).

(** *** client/scenarios/ *)

Definition run_initialize (server_url : str) : Run unit :=
  do client <- expect (s! "Failed to connect") (connect server_url);
  do info <- act_get (has_server_info client);
  do _ <- assert_that info (s! "Server info should be set after init");
  do _ <- ok_of (shut_down client); act_ret tt.

Definition tool_for_call (tools : list str) : str :=
  match find (fun t => negb (contains (s! "error") t)) tools with Some t => t | None => from_option id [] (head tools) end.
Definition run_tools_call (server_url : str) : Run unit :=
  do client <- expect (s! "Failed to connect") (connect server_url);
  do tools <- expect (s! "Failed to list tools") (request_tool_list client);
  do _ <- assert_that (negb (bool_decide (tools = []))) (s! "Tool list should not be empty");
  do is_error <- expect (s! "Failed to call tool") (request_tool_call client (tool_for_call tools) (Some []));
  do _ <- assert_that (not_an_error is_error) (s! "Tool should return success");
  do _ <- ok_of (shut_down client); act_ret tt.

Definition run_elicitation (server_url : str) : Run unit :=
  do client <- expect (s! "Failed to connect") (connect server_url);
  do tools <- expect (s! "Failed to list tools") (request_tool_list client);
  do _ <- (match find (contains (s! "elicitation")) tools with
           | Some tool_name =>
               do is_error <- expect (s! "Failed to call elicitation tool") (request_tool_call client tool_name None);
               assert_that (not_an_error is_error) (s! "Elicitation tool should return success")
           | None => act_ret tt
           end);
  do _ <- ok_of (shut_down client); act_ret tt.

(** The first tool, called with no arguments; its result is not looked at. *)
Definition call_first_tool (client : C) (tools : option (list str)) : Run unit :=
  match tools ≫= head with
  | Some tool => do _ <- ok_of (request_tool_call client tool (Some [])); act_ret tt
  | None => act_ret tt
  end.
Definition run_sse_retry (server_url : str) : Run unit :=
  do client <- ok_of (connect server_url);
  match client with
  | None => act_ret tt
  | Some client =>
      do tools <- ok_of (request_tool_list client);
      do _ <- call_first_tool client tools;
      do _ <- act_modify (wait 3);
      do _ <- ok_of (shut_down client); act_ret tt
  end.
End Scenarios.

(** ** client/auth/ *)

Section Auth.
Context `{SchemaVersion} {Url TS W C : Type} `{UrlLib Url} `{!TokenStore TS} `{!Sessions W C} `{!Sender W}.
Context (network : Network) (json_parse : str -> option Value) (decode_error : str -> str) (base64_encode : str -> str).
Context (sha256 base64_url_no_pad : bytes -> bytes) (default_store : TS).
(** The readable Location header of the answer to a request, the random bytes
    and the clock that a PKCE verifier is made of. *)
Context (location : list HttpRequest -> HttpRequest -> option str) (entropy : W -> bytes * N).
(** [MCP_CONFORMANCE_CONTEXT], decoded. *)
Context (context : Value).
Definition context_text (key : str) : option str := json_get key context ≫= as_string.

(** *** discovery.rs *)

Record Discovery := mkDiscovery {
  discovered_server : OauthServerInfo Url; (* server_info *)
  selected_scope : option str;
  supports_auth_code : bool;
}.
Definition auth_server_url (d : Discovery) : str := authorization_server_url (discovered_server d).

Definition JSON_HEADERS : list (str * str) :=
  [(s! "Content-Type", s! "application/json"); (s! "Accept", s! "application/json, text/event-stream")].
Definition initialize_probe (server_url : str) : HttpRequest :=
  mkHttp (s! "POST") server_url JSON_HEADERS (JsonContent
    (VObject [(s! "id", VNumber 1); (s! "jsonrpc", VString (s! "2.0")); (s! "method", VString (s! "initialize"));
              (s! "params", VObject [(s! "capabilities", VObject []);
                 (s! "clientInfo", VObject [(s! "name", VString (s! "conformance-client")); (s! "version", VString (s! "0.1.0"))]);
                 (s! "protocolVersion", VString LATEST_PROTOCOL_VERSION)])])).
Definition probe_www_authenticate {E : Type} (server_url : str) : Act W E (option str * option str) :=
  do r <- send network (initialize_probe server_url);
  match r with
  | Ok r =>
      let www_auth := from_option id [] (challenge r) in
      act_ret (WwwAuthenticate.parse_www_authenticate_param www_auth (s! "resource_metadata"),
               WwwAuthenticate.parse_www_authenticate_param www_auth (s! "scope"))
  | Err _ => act_ret (None, None)
  end.
Definition advertises_code (m : AuthorizationServerMetadata Url) : bool :=
  match grant_types_supported m with Some g => bool_decide (s! "authorization_code" ∈ g) | None => false end.
Definition resolve {E : Type} (server_url : str) : Act W E (option Discovery) :=
  do found <- probe_www_authenticate server_url;
  let '(resource_metadata_url, www_auth_scope) := found in
  do server_info <- discover_oauth_server_info network json_parse server_url resource_metadata_url;
  match server_info with
  | None => act_ret None
  | Some server_info =>
      let prm_scopes_supported := info_resource_metadata server_info ≫= r_scopes_supported in
      act_ret (Some (mkDiscovery server_info
        (Scope.select_scope www_auth_scope prm_scopes_supported (context_text (s! "scope")))
        (advertises_code (authorization_server_metadata server_info))))
  end.

(** *** token.rs *)

Definition CIMD_URL : str := s! "https://conformance-test.local/client-metadata.json".
Definition REDIRECT_URI : str := s! "http://localhost/callback".
Definition with_some {A B} (f : A -> B -> B) (o : option A) (b : B) : B := match o with Some a => f a b | None => b end.
Definition build_auth_client (d : Discovery) (server_url : str) (override_scope : option str)
  : result (McpAuthConfig Url * McpAuthClient Url TS) ClientError :=
  let scope := match override_scope with Some s => Some s | None => selected_scope d end in
  build default_store
    (with_some with_scope scope
    (with_some with_client_secret (context_text (s! "client_secret"))
    (with_some with_client_id (context_text (s! "client_id"))
    (with_client_metadata_url CIMD_URL (with_redirect_uri REDIRECT_URI (with_resource server_url
      (with_server_url (auth_server_url d) builder))))))).

(** A call of an [McpAuthClient], whose requests are sent among the others. *)
Definition with_requests (l : list HttpRequest) (c : McpAuthClient Url TS) : McpAuthClient Url TS :=
  mkClient (token_store c) (discovered_metadata c) (discovered_resource_metadata c) (discovered_www_auth_scope c) (registration c) l.
Definition on_client {E A : Type} (m : Act (McpAuthClient Url TS) ClientError A) (c : McpAuthClient Url TS)
  : Act W E (result A ClientError * McpAuthClient Url TS) :=
  fun w => let '(r, c) := m (with_requests (sent w) c) in
           (Ok (r, c), foldl (fun w q => record_request q w) w (skipn (length (sent w)) (requests c))).

Definition bearer_headers (access_token : str) : gmap str str :=
  <[s! "Authorization" := (s! "Bearer ") ++ access_token]> ∅.
Definition TEST_CODE : str := s! "test-auth-code".
Definition code_of (loc : str) : option str :=
  match url_parse loc with
  | Ok u => snd <$> find (fun kv => bool_decide (kv.1 = s! "code")) (query_pairs (u : Url))
  | Err _ => None
  end.
Definition follow_authorize_redirect {E : Type} (auth_url : str) : Act W E str :=
  do hist <- act_get sent;
  do r <- send network (get auth_url);
  act_ret (from_option id TEST_CODE
    (match r with Ok _ => location hist (get auth_url) ≫= code_of | Err _ => None end)).

Definition authorization_code_flow {E : Type} (config : McpAuthConfig Url) (c : McpAuthClient Url TS) (scope : option str)
  : Act W E (option (gmap str str)) :=
  do random <- act_get entropy;
  let pkce := generate_pkce_params sha256 base64_url_no_pad random.1 random.2 in
  do r <- on_client (McpAuthClient.build_authorization_url network json_parse decode_error config pkce scope None) c;
  let '(auth_url, c) := r in
  match auth_url with
  | Err _ => act_ret None
  | Ok auth_url =>
      do code <- follow_authorize_redirect auth_url;
      do r <- on_client (McpAuthClient.complete_authorization_code_flow network json_parse decode_error base64_encode config
                           code (code_verifier pkce)) c;
      act_ret (match r.1 with Ok t => Some (bearer_headers (InMemoryTokenStore.access_token t)) | Err _ => None end)
  end.
Definition client_credentials_flow {E : Type} (config : McpAuthConfig Url) (c : McpAuthClient Url TS) : Act W E (option (gmap str str)) :=
  do r <- on_client (McpAuthClient.get_auth_headers network json_parse decode_error base64_encode config) c;
  act_ret (match r.1 with Ok h => Some h | Err _ => None end).
Definition acquire {E : Type} (server_url : str) (d : Discovery) : Act W E (option (gmap str str)) :=
  match build_auth_client d server_url None with
  | Err _ => act_ret None
  | Ok (config, c) =>
      if supports_auth_code d then authorization_code_flow config c (selected_scope d) else client_credentials_flow config c
  end.

(** *** scope_step_up.rs *)

Definition challenge_probe (server_url : str) (auth_headers : gmap str str) (tools : option (list str)) : HttpRequest :=
  let params := match tools with
                | Some tools => [(s! "arguments", VObject []); (s! "name", VString (from_option id [] (head tools)))]
                | None => []
                end in
  mkHttp (s! "POST") server_url
    (JSON_HEADERS ++ match auth_headers !! (s! "Authorization") with Some v => [(s! "Authorization", v)] | None => [] end)
    (JsonContent (VObject [(s! "id", VNumber 99); (s! "jsonrpc", VString (s! "2.0"));
       (s! "method", VString (if is_some tools then s! "tools/call" else s! "tools/list")); (s! "params", VObject params)])).
Definition probe_for_challenge {E : Type} (server_url : str) (auth_headers : gmap str str) (tools : option (list str))
  : Act W E (option str) :=
  do r <- send network (challenge_probe server_url auth_headers tools);
  act_ret (match r with
           | Ok r => challenge r ≫= fun s => WwwAuthenticate.parse_www_authenticate_param s (s! "scope")
           | Err _ => None
           end).
Definition escalated (prior challenged : option str) : str := from_option id (s! "mcp elevated") (Scope.union_scopes prior challenged).
Definition handle_step_up (server_url : str) (d : Discovery) (auth_headers : gmap str str) (tools : option (list str)) (client : C)
  : Act W Stop unit :=
  do challenge_scope <- probe_for_challenge server_url auth_headers tools;
  let escalated_scope := escalated (selected_scope d) challenge_scope in
  match build_auth_client d server_url (Some escalated_scope) with
  | Err _ => act_ret tt
  | Ok (config, c) =>
      do h2 <- (if supports_auth_code d then authorization_code_flow config c (Some escalated_scope)
                else client_credentials_flow config c);
      match h2 with
      | None => act_ret tt
      | Some h2 =>
          do _ <- ok_of (shut_down client);
          do c2 <- ok_of (connect_with_auth server_url h2);
          match c2 with
          | None => act_ret tt
          | Some c2 =>
              do list <- ok_of (request_tool_list c2);
              do _ <- call_first_tool c2 list;
              do _ <- ok_of (shut_down c2); act_ret tt
          end
      end
  end.

(** *** mod.rs *)

Definition first_call (client : C) (tools : option (list str)) : Act W Stop bool :=
  match tools with
  | None => act_ret false
  | Some [] => act_ret true
  | Some (tool :: _) => do r <- ok_of (request_tool_call client tool (Some [])); act_ret (is_some r)
  end.
Definition run_auth (server_url : str) : Act W Stop unit :=
  do discovery <- resolve server_url;
  match discovery with
  | None => act_ret tt
  | Some discovery =>
  do auth_headers <- acquire server_url discovery;
  match auth_headers with
  | None => act_ret tt
  | Some auth_headers =>
  do client <- ok_of (connect_with_auth server_url auth_headers);
  match client with
  | None => act_ret tt
  | Some client =>
      do tools_result <- ok_of (request_tool_list client);
      do called <- first_call client tools_result;
      if negb (is_some tools_result) || negb called then handle_step_up server_url discovery auth_headers tools_result client
      else do _ <- ok_of (shut_down client); act_ret tt
  end end end.

(** ** conformance-client.rs *)

(** The last argument, and [MCP_CONFORMANCE_SCENARIO], empty when unset. *)
Definition main (args : list str) (scenario : str) : Act W Stop unit :=
  match last args with
  | None => act_fail (Panicked (s! "Server URL required as last argument"))
  | Some server_url =>
      if bool_decide (scenario = s! "initialize") || bool_decide (scenario = []) then run_initialize server_url
      else if bool_decide (scenario = s! "tools_call") then run_tools_call server_url
      else if starts_with (s! "elicitation") scenario then run_elicitation server_url
      else if starts_with (s! "sse") scenario then run_sse_retry server_url
      else if starts_with (s! "auth/") scenario then run_auth server_url
      else act_fail (Exited 1)
  end.
End Auth.
Arguments Discovery : clear implicits.

(** ** Facts *)

(** *** Elicitation *)

Lemma defaults_found (l : list (str * PrimitiveSchemaDefinition)) content k :
  NoDup l.*1 -> (forall d, content !! k = Some d -> k ∉ l.*1) ->
  forall d, foldl insert_default content l !! k = Some d <->
    content !! k = Some d \/ exists schema, (k, schema) ∈ l /\ extract_default schema = Some d.
Proof.
  revert content. induction l as [|[k' schema'] l IH]; intros content Hn Hk d; simpl.
  { split; [by left|]. by intros [?|(? & ?%elem_of_nil & _)]. }
  apply NoDup_cons in Hn as [Hk' Hn]. rewrite IH; [|done|].
  2:{ intros d' Hd'. unfold insert_default in Hd'. simpl in Hd'. destruct (extract_default schema') eqn:E.
      - destruct (decide (k = k')) as [->|Hne]; [done|]. rewrite lookup_insert_ne in Hd' by congruence.
        specialize (Hk _ Hd'). simpl in Hk. by apply not_elem_of_cons in Hk as [_ ?].
      - specialize (Hk _ Hd'). simpl in Hk. by apply not_elem_of_cons in Hk as [_ ?]. }
  unfold insert_default. simpl. destruct (decide (k = k')) as [->|Hne].
  - assert (Hc : content !! k' = None).
    { destruct (content !! k') eqn:E; [|done]. destruct (Hk _ eq_refl). by left. }
    assert (Ho : forall schema, (k', schema) ∈ l -> False).
    { intros schema Hs. apply Hk'. by apply (list_elem_of_fmap_2 fst) in Hs. }
    destruct (extract_default schema') as [x|] eqn:E.
    + rewrite lookup_insert_eq, Hc. split.
      * intros [[= <-]|(schema & Hs & _)]; [right; exists schema'; split; [by left|done]|by destruct (Ho _ Hs)].
      * intros [?|(schema & [[= ->]|Hs]%elem_of_cons & Hd)]; [done|left; congruence|by destruct (Ho _ Hs)].
    + rewrite Hc. split.
      * intros [?|(schema & Hs & _)]; [done|by destruct (Ho _ Hs)].
      * intros [?|(schema & [[= ->]|Hs]%elem_of_cons & Hd)]; [done|congruence|by destruct (Ho _ Hs)].
  - assert (El : (match extract_default schema' with Some default => <[k':=default]> content | None => content end) !! k = content !! k)
      by (destruct (extract_default schema'); [by rewrite lookup_insert_ne by congruence|done]).
    rewrite El. split; (intros [?|(schema & Hs & Hd)]; [by left|right; exists schema; split; [|done]]); [by right|].
    by apply elem_of_cons in Hs as [[= -> ->]|Hs].
Qed.

(** A form is accepted with exactly the defaults of its fields. *)
Theorem elicitation_defaults_answered message (schema : ElicitFormSchema PrimitiveSchemaDefinition) :
  NoDup (form_properties schema).*1 ->
  exists content, handle_elicit_request (FormParams message schema) = mkElicitResult Accept (Some content) /\
    forall k d, content !! k = Some d <-> exists s, (k, s) ∈ form_properties schema /\ extract_default s = Some d.
Proof.
  intros Hn. eexists. split; [done|]. intros k d. rewrite defaults_found by (done || by intros ? ?%lookup_empty_Some).
  rewrite lookup_empty. split; [by intros [?|?]|by right].
Qed.

(** The form of the conformance server: the score of 95.5 comes back as 95. *)
Example score_truncated :
  exists content, handle_elicit_request defaults_params = mkElicitResult Accept (Some content) /\
    content !! (s! "name") = Some (CPrimitive (PString (s! "John Doe"))) /\
    content !! (s! "age") = Some (CPrimitive (PInteger 30)) /\ content !! (s! "score") = Some (CPrimitive (PInteger 95)) /\
    content !! (s! "status") = Some (CPrimitive (PString (s! "active"))) /\
    content !! (s! "verified") = Some (CPrimitive (PBoolean true)).
Proof. eexists. split; [reflexivity|]. vm_compute. split_and!; reflexivity. Qed.

(** *** Authorization *)

Module ConformanceAuth.
Import McpAuthClient FetchFacts ClientFacts.
Section Tokens.
Context {Url : Type} `{UrlLib Url}.
Context (network : Network) (json_parse : str -> option Value) (decode_error : str -> str) (base64_encode : str -> str).
Context (config : McpAuthConfig Url) (m : AuthorizationServerMetadata Url).
Implicit Types c : McpAuthClient Url Clocked.

(** The server's metadata stays where the client looks for it first. *)
Definition published (server_url : str) : Prop :=
  forall hist, exists l, first_answer network json_parse de_server hist (metadata_url_fallbacks (Url := Url) server_url) = (Some m, l).
(** The client knows nothing else. *)
Definition unaware c : Prop :=
  (discovered_metadata c = None \/ discovered_metadata c = Some m) /\
  discovered_www_auth_scope c = None /\ discovered_resource_metadata c = None.
Definition asked_scope : option str := Scope.select_scope None None (scope config).
Lemma unaware_scope c : unaware c -> scope_of config c = asked_scope.
Proof. intros (_ & E1 & E2). unfold scope_of. by rewrite E1, E2. Qed.

Context (Hm : metadata config = None) (Hp : published (server_url config)).

Lemma metadata_published c : unaware c ->
  exists l, discover_metadata network json_parse config c = (Ok m, set_metadata m (add_requests l c)) \/
            discover_metadata network json_parse config c = (Ok m, c) /\ discovered_metadata c = Some m.
Proof.
  intros ([Hc|Hc] & _ & _).
  - destruct (Hp (requests c)) as [l Hl]. exists l. left. rewrite discover_eq by done. unfold direct. by rewrite Hl.
  - exists []. right. split; [|done]. unfold discover_metadata. rewrite Hm. unfold act_get, act_bind at 1. by rewrite Hc.
Qed.
(** What a step leaves behind: more requests, and the metadata. *)
Record stepped c c' : Prop := {
  st_requests : exists l, requests c' = requests c ++ l;
  st_unaware : unaware c';
  st_store : token_store c' = token_store c;
}.
Lemma discovered_step c : unaware c -> exists c', discover_metadata network json_parse config c = (Ok m, c') /\
  stepped c c' /\ discovered_metadata c' = Some m.
Proof.
  intros Hu. destruct (metadata_published c Hu) as [l [E|[E Ec]]]; destruct Hu as (Hc & Hw & Hr).
  - eexists. split; [exact E|]. split; [|done]. split; [by eexists|split_and!; [by right|done|done]|done].
  - exists c. split; [done|]. split; [|done]. split; [exists []; by rewrite app_nil_r|by split_and!|done].
Qed.
Lemma stepped_trans c c1 c2 : stepped c c1 -> stepped c1 c2 -> stepped c c2.
Proof.
  intros [[l El] _ S1] [[l' El'] U2 S2]. split; [exists (l ++ l'); by rewrite El', El, <-app_assoc|done|congruence].
Qed.
Lemma register_step c r c' : unaware c -> discovered_metadata c = Some m ->
  register network json_parse decode_error config c = (r, c') -> stepped c c' /\ discovered_metadata c' = Some m.
Proof.
  intros Hu Hd. assert (E : discover_metadata network json_parse config c = (Ok m, c)).
  { unfold discover_metadata. rewrite Hm. unfold act_get, act_bind at 1. by rewrite Hd. }
  destruct Hu as (_ & Hw & Hr). unfold register. destruct (client_id config) as [id|].
  { intros [= <- <-]. repeat split; try done; [exists []; by rewrite app_nil_r|by right]. }
  unfold act_bind at 1, ensure_metadata. rewrite E. destruct (uses_metadata_url config m) as [url|].
  { intros [= <- <-]. repeat split; try done; [exists []; by rewrite app_nil_r|by right]. }
  destruct (registration_endpoint m) as [e|].
  2:{ intros [= <- <-]. repeat split; try done; [exists []; by rewrite app_nil_r|by right]. }
  unfold resolved_scope, act_get, act_bind at 1 2. rewrite call_eq.
  destruct (match network _ _ with Ok _ => _ | Err _ => _ end) as [reg|err]; intros [= <- <-];
    repeat split; try done; try (by eexists); by right.
Qed.

(** The token request goes to the published token endpoint, for the configured
    scope. *)
Lemma exchange_published g c r c' : unaware c ->
  exchange_token network json_parse decode_error base64_encode config g c = (r, c') ->
  (exists l, requests c' = requests c ++ l) /\
  match r with
  | Ok t => exists reg before resp,
      let q := token_request base64_encode config m g (reg_client_id reg) (reg_client_secret reg) asked_scope in
      requests c' = (requests c ++ before) ++ [q] /\ network (requests c ++ before) q = Ok resp /\ is_success resp = true /\
      read_json json_parse decode_error de_token (reply_text resp) = Ok t /\
      (forall id, client_id config = Some id -> reg_client_id reg = id)
  | Err _ => True
  end.
Proof.
  intros Hu Hx. pose proof (exchange_spec _ _ _ _ _ _ _ _ _ Hx) as Hs. destruct r as [t|e]; [|by destruct Hs].
  destruct Hs as (m' & reg & before & resp & Hm' & _ & Hq & Hn & Hok & Hj & _ & Hid).
  assert (Hc : discovered_metadata c' = Some m /\ scope_of config c' = asked_scope).
  { revert Hx. unfold exchange_token, ensure_metadata, ensure_registration.
    destruct (discovered_step c Hu) as (c1 & E1 & [_ U1 _] & D1). unfold act_bind at 1. rewrite E1.
    unfold act_bind at 1 2. destruct (register _ _ _ _ c1) as [[rg|] c2] eqn:E2; [|done].
    destruct (register_step c1 _ c2 U1 D1 E2) as [[_ U2 _] D2]. unfold act_ret at 1, resolved_scope, act_get, act_bind at 1 2.
    rewrite call_eq. destruct (match network _ _ with Ok _ => _ | Err _ => _ end) as [t'|]; [|done].
    unfold on_store, act_bind. destruct (store_tokens _ _) as [a x]. intros [= <- <-]. split; [done|]. by apply unaware_scope. }
  destruct Hc as [Hc Hsc]. assert (m' = m) as -> by congruence. rewrite Hsc in *.
  split; [exists (before ++ [token_request base64_encode config m g (reg_client_id reg) (reg_client_secret reg) asked_scope]); by rewrite app_assoc|].
  by exists reg, before, resp.
Qed.
Lemma url_published pkce sc c r c' : unaware c ->
  build_authorization_url network json_parse decode_error config pkce sc None c = (r, c') ->
  stepped c c' /\ match r with
  | Ok url => exists redirect id, redirect_uri config = Some redirect /\
      url = as_str (append_pairs (authorization_endpoint m) (authorization_params config id redirect pkce sc None))
  | Err _ => True
  end.
Proof.
  intros Hu. unfold build_authorization_url, ensure_metadata. destruct (discovered_step c Hu) as (c1 & E1 & S1 & D1).
  unfold act_bind at 1. rewrite E1. unfold act_bind at 1.
  destruct (register _ _ _ _ c1) as [[reg|e] c2] eqn:E2; destruct (register_step c1 _ c2 (st_unaware _ _ S1) D1 E2) as [S2 _].
  - destruct (redirect_uri config) as [redirect|]; intros [= <- <-]; (split; [by eapply stepped_trans|done || by eexists _, _]).
  - intros [= <- <-]. split; [by eapply stepped_trans|done].
Qed.
(** A client that holds no token asks for one with its credentials. *)
Lemma credentials_published rs c r c' : unaware c -> token_store c = mkClocked rs None ->
  get_auth_headers network json_parse decode_error base64_encode config c = (r, c') ->
  exists c1 x, unaware c1 /\ requests c1 = requests c /\
    exchange_token network json_parse decode_error base64_encode config InMemoryTokenStore.ClientCredentials c1 = (x, c') /\
    r = match x with Ok t => Ok (bearer_headers (InMemoryTokenStore.access_token t)) | Err e => Err e end.
Proof.
  intros Hu Hs. unfold get_auth_headers, get_token. unfold act_bind at 1 2. unfold on_store at 1. rewrite Hs.
  cbn [store_access_token in_memory_store cached]. unfold act_bind at 1. unfold on_store at 1.
  cbn [store_refresh_token in_memory_store token_store set_store cached InMemoryTokenStore.get_refresh_token mbind option_bind].
  unfold reauthenticate, authenticate. unfold act_bind at 1. unfold on_store at 1.
  cbn [store_clear in_memory_store token_store set_store cached readings]. unfold act_bind at 1.
  intros Hr. match type of Hr with context [exchange_token _ _ _ _ _ _ ?x] => exists x end.
  destruct (exchange_token _ _ _ _ _ _ _) as [[t|e] c2]; injection Hr as <- <-; eexists; by split_and!.
Qed.
End Tokens.

Section Flows.
Context `{SchemaVersion} {Url W : Type} `{UrlLib Url} `{!Sender W}.
Context (network : Network) (json_parse : str -> option Value) (decode_error : str -> str) (base64_encode : str -> str).
Context (sha256 base64_url_no_pad : bytes -> bytes) (rs : list N).
Context (location : list HttpRequest -> HttpRequest -> option str) (entropy : W -> bytes * N) (context : Value).
Implicit Types (c : McpAuthClient Url Clocked) (w : W).

(** A client's call among the other requests. *)
Lemma on_client_eq {E A} (act : Act (McpAuthClient Url Clocked) ClientError A) c w r c' l :
  act (with_requests (sent w) c) = (r, c') -> requests c' = sent w ++ l ->
  on_client (E := E) act c w = (Ok (r, c'), record_all l w).
Proof. intros Ha Hr. unfold on_client. rewrite Ha, Hr. by rewrite drop_app_length. Qed.

(** The headers carry a token that was issued, to the last request sent, by the
    token endpoint of [m]: for the resource, under the scope that was wanted, and
    for a code only with the verifier of the challenge that was sent along with
    that scope to the authorization endpoint. *)
Definition issued (m : AuthorizationServerMetadata Url) (server_url : str) (code : bool) (wanted : option str)
  (hist : list HttpRequest) (h : gmap str str) : Prop :=
  exists t before headers form resp,
    let q := mkHttp (s! "POST") (as_str (token_endpoint m)) headers (Form form) in
    hist = before ++ [q] /\ network before q = Ok resp /\ is_success resp = true /\
    read_json json_parse decode_error de_token (reply_text resp) = Ok t /\ h = bearer_headers (InMemoryTokenStore.access_token t) /\
    (s! "resource", server_url) ∈ form /\ (forall x, Scope.select_scope None None wanted = Some x -> (s! "scope", x) ∈ form) /\
    (forall id, context_text context (s! "client_id") = Some id -> (s! "client_id", id) ∈ form) /\
    (s! "grant_type", if code then s! "authorization_code" else s! "client_credentials") ∈ form /\
    (code = true -> exists (v cd : str) (params : list (str * str)), (s! "code", cd) ∈ form /\ (s! "code_verifier", v) ∈ form /\
       (s! "redirect_uri", REDIRECT_URI) ∈ form /\
       get (as_str (append_pairs (authorization_endpoint m) params)) ∈ before /\
       (s! "code_challenge", base64_url_no_pad (sha256 v)) ∈ params /\ (s! "code_challenge_method", s! "S256") ∈ params /\
       (s! "redirect_uri", REDIRECT_URI) ∈ params /\ (s! "resource", server_url) ∈ params /\
       forall x, wanted = Some x -> x <> [] -> (s! "scope", x) ∈ params).

(** What is configured for a discovery. *)
Record configured (d : Discovery Url) (server_url : str) (wanted : option str) (config : McpAuthConfig Url) : Prop := {
  cf_url : OAuthClient.server_url config = auth_server_url d;
  cf_metadata : metadata config = None;
  cf_scope : OAuthClient.scope config = wanted;
  cf_resource : resource_indicator config = Some server_url;
  cf_redirect : redirect_uri config = Some REDIRECT_URI;
  cf_id : client_id config = context_text context (s! "client_id");
  cf_secret : client_secret config = context_text context (s! "client_secret");
}.
Lemma client_built d server_url override : exists config c,
  build_auth_client (mkClocked rs None) context d server_url override = Ok (config, c) /\
  configured d server_url (match override with Some x => Some x | None => selected_scope d end) config /\
  token_store c = mkClocked rs None /\ forall m, unaware m c.
Proof.
  unfold build_auth_client. destruct (context_text context (s! "client_id")) as [id|] eqn:E1,
    (context_text context (s! "client_secret")) as [secret|] eqn:E2, override as [x|], (selected_scope d) as [y|];
    (eexists _, _; split; [reflexivity|]; split; [by split; simpl; rewrite ?E1, ?E2|split; [done|]]; intros m; repeat split; by left).
Qed.

(** The form of a token request. *)
Lemma token_request_form (config : McpAuthConfig Url) m g reg sc : exists headers (form : list (str * str)),
  token_request base64_encode config m g (reg_client_id reg) (reg_client_secret reg) sc =
    mkHttp (s! "POST") (as_str (token_endpoint (m : AuthorizationServerMetadata Url))) headers (Form form) /\
  token_form config g (reg_client_id reg) sc ⊆ form.
Proof.
  unfold token_request. destruct (reg_client_secret reg) as [secret|]; [destruct (uses_post m)|];
    do 2 eexists; (split; [reflexivity|]); try done. intros x Hx. rewrite elem_of_app. by left.
Qed.

Section Flow.
Context (m : AuthorizationServerMetadata Url) (d : Discovery Url) (server_url : str) (wanted : option str) (config : McpAuthConfig Url).
Context (Hc : configured d server_url wanted config) (Hp : published network json_parse m (auth_server_url d)).
Abbreviation issued := (issued m server_url).

Lemma published_config : published network json_parse m (OAuthClient.server_url config).
Proof. by rewrite (cf_url _ _ _ _ Hc). Qed.

(** An exchange hands out a token that was issued. *)
Lemma exchange_issued g c t c' (code : bool) :
  unaware m c -> exchange_token network json_parse decode_error base64_encode config g c = (Ok t, c') ->
  InMemoryTokenStore.grant_as_str g = (if code then s! "authorization_code" else s! "client_credentials") ->
  (code = true -> exists (v cd : str) (params : list (str * str)), grant_params g = [(s! "code", cd); (s! "redirect_uri", REDIRECT_URI); (s! "code_verifier", v)] /\
     get (as_str (append_pairs (authorization_endpoint m) params)) ∈ requests c /\
     (s! "code_challenge", base64_url_no_pad (sha256 v)) ∈ params /\ (s! "code_challenge_method", s! "S256") ∈ params /\
     (s! "redirect_uri", REDIRECT_URI) ∈ params /\ (s! "resource", server_url) ∈ params /\
     forall x, wanted = Some x -> x <> [] -> (s! "scope", x) ∈ params) ->
  issued code wanted (requests c') (bearer_headers (InMemoryTokenStore.access_token t)).
Proof.
  intros Hu Hx Hg Hcode.
  destruct (exchange_published network json_parse decode_error base64_encode config m (cf_metadata _ _ _ _ Hc) published_config
    g c _ c' Hu Hx) as [_ (reg & before & resp & Hq & Hn & Hs & Hj & Hid)].
  destruct (token_request_form config m g reg (asked_scope config)) as (headers & form & Eq & Hsub). rewrite Eq in Hq, Hn.
  exists t, (requests c ++ before), headers, form, resp. cbv zeta.
  assert (Hin : forall k v, (k, v) ∈ [(s! "grant_type", InMemoryTokenStore.grant_as_str g); (s! "client_id", reg_client_id reg)] ++ grant_params g ++
           optional_param (s! "scope") (asked_scope config) ++ optional_param (s! "resource") (resource_indicator config) -> (k, v) ∈ form)
    by (intros k v Hkv; by apply Hsub).
  split_and!; try done.
  - apply Hin. rewrite (cf_resource _ _ _ _ Hc), !elem_of_app. do 3 right. by constructor.
  - intros x Hsc. apply Hin. unfold asked_scope. rewrite (cf_scope _ _ _ _ Hc), Hsc, !elem_of_app. right; right; left. by constructor.
  - intros id E. rewrite <-(cf_id _ _ _ _ Hc) in E. rewrite <-(Hid id E). apply Hin. right. by left.
  - rewrite <-Hg. apply Hin. by left.
  - intros E. destruct (Hcode E) as (v & cd & params & Hgp & Hget & Hrest). exists v, cd, params.
    assert (Hi : forall k x, (k, x) ∈ grant_params g -> (k, x) ∈ form).
    { intros k x Hx'. apply Hin. rewrite !elem_of_app. right; by left. }
    rewrite Hgp in Hi. split_and!; try (apply Hi; by repeat constructor); [|apply Hrest..]. rewrite elem_of_app. by left.
Qed.

Lemma code_flow {E : Type} c w : unaware m c ->
  exists o l, authorization_code_flow (E := E) network json_parse decode_error base64_encode sha256 base64_url_no_pad location entropy
    config c wanted w = (Ok o, record_all l w) /\ forall h, o = Some h -> issued true wanted (sent w ++ l) h.
Proof.
  intros Hu. unfold authorization_code_flow, act_get. unfold act_bind at 1.
  set (pkce := generate_pkce_params _ _ _ _). unfold act_bind at 1.
  assert (Hu0 : unaware m (with_requests (sent w) c)) by done.
  destruct (build_authorization_url network json_parse decode_error config pkce wanted None (with_requests (sent w) c)) as [r1 c1] eqn:E1.
  pose proof (url_published network json_parse decode_error config m (cf_metadata _ _ _ _ Hc) published_config _ _ _ _ _ Hu0 E1) as [[[l1 Hl1] Hu1 _] Hurl].
  rewrite (on_client_eq _ _ _ _ _ _ E1 Hl1). destruct r1 as [url|e].
  2:{ exists None, l1. split; [done|]. intros h [=]. }
  destruct Hurl as (redirect & cid & Hred & ->). rewrite (cf_redirect _ _ _ _ Hc) in Hred. injection Hred as <-.
  set (params := authorization_params _ _ _ _ _ _) in *. set (url := as_str _).
  unfold act_bind at 1. unfold follow_authorize_redirect. unfold act_bind at 1 2, act_get, send. cbn [fst snd].
  set (code := from_option id TEST_CODE _). unfold act_ret at 1. set (w2 := record_request (get url) (record_all l1 w)).
  assert (Hw2 : sent w2 = (sent w ++ l1) ++ [get url]) by (unfold w2; by rewrite sent_record, sent_record_all).
  unfold act_bind at 1.
  destruct (complete_authorization_code_flow network json_parse decode_error base64_encode config code (code_verifier pkce)
    (with_requests (sent w2) c1)) as [r3 c3] eqn:E3.
  assert (Hu2 : unaware m (with_requests (sent w2) c1)) by done.
  assert (Ex : exchange_token network json_parse decode_error base64_encode config
    (InMemoryTokenStore.AuthorizationCodePkce code REDIRECT_URI (code_verifier pkce)) (with_requests (sent w2) c1) = (r3, c3)).
  { revert E3. unfold complete_authorization_code_flow. by rewrite (cf_redirect _ _ _ _ Hc). }
  pose proof (exchange_published network json_parse decode_error base64_encode config m (cf_metadata _ _ _ _ Hc) published_config
    _ _ _ _ Hu2 Ex) as [[l3 Hl3] _].
  rewrite (on_client_eq _ _ _ _ _ _ E3 Hl3). unfold act_ret. cbn [fst].
  eexists _, (l1 ++ [get url] ++ l3). split.
  { f_equal. unfold w2. change (record_request (get url) (record_all l1 w)) with (record_all [get url] (record_all l1 w)).
    by rewrite !record_all_app. }
  destruct r3 as [t|e]; [|done]. intros h [= <-].
  replace (sent w ++ l1 ++ [get url] ++ l3) with (requests c3)
    by (rewrite Hl3; cbn [requests with_requests]; rewrite Hw2, <-!app_assoc; reflexivity).
  eapply exchange_issued; [exact Hu2|exact Ex|done|]. intros _.
  exists (code_verifier pkce), code, params. split_and!; [done|..].
  - cbn [requests with_requests]. rewrite Hw2, elem_of_app. right. by left.
  - unfold params, authorization_params. rewrite elem_of_app. left. do 3 right. by left.
  - unfold params, authorization_params. rewrite elem_of_app. left. do 4 right. by left.
  - unfold params, authorization_params. rewrite elem_of_app. left. do 2 right. by left.
  - unfold params, authorization_params. rewrite (cf_resource _ _ _ _ Hc), !elem_of_app. right; left. by left.
  - intros x -> Hx. unfold params, authorization_params. rewrite !elem_of_app. right; right; left.
    rewrite bool_decide_eq_false_2 by done. by left.
Qed.

Lemma credentials_flow {E : Type} c w : unaware m c -> token_store c = mkClocked rs None ->
  exists o l, client_credentials_flow (E := E) network json_parse decode_error base64_encode config c w = (Ok o, record_all l w) /\
    forall h, o = Some h -> issued false wanted (sent w ++ l) h.
Proof.
  intros Hu Hs. unfold client_credentials_flow, act_bind.
  destruct (get_auth_headers network json_parse decode_error base64_encode config (with_requests (sent w) c)) as [r c'] eqn:E1.
  assert (Hu0 : unaware m (with_requests (sent w) c)) by done.
  destruct (credentials_published network json_parse decode_error base64_encode config m rs (with_requests (sent w) c) r c' Hu0 Hs E1)
    as (c1 & x & Hu1 & Hr1 & Ex & ->).
  pose proof (exchange_published network json_parse decode_error base64_encode config m (cf_metadata _ _ _ _ Hc) published_config
    _ _ _ _ Hu1 Ex) as [[l Hl] _]. rewrite Hr1 in Hl.
  rewrite (on_client_eq _ _ _ _ _ _ E1 Hl). eexists _, l. split; [done|].
  destruct x as [t|e]; [|done]. intros h [= <-]. cbn [requests with_requests] in Hl. rewrite <-Hl.
  by eapply exchange_issued.
Qed.
End Flow.

(** *** Discovery *)

(** What the probe was challenged with. *)
Definition probed (server_url key : str) (w : W) : option str :=
  match network (sent w) (initialize_probe server_url) with
  | Ok r => WwwAuthenticate.parse_www_authenticate_param (from_option id [] (challenge r)) key
  | Err _ => None
  end.
Lemma resolve_spec {E : Type} server_url w : exists o l,
  resolve (E := E) network json_parse context server_url w = (Ok o, record_all (initialize_probe server_url :: l) w) /\
  Forall (fun q => exists url, q = get url) l /\
  forall d, o = Some d ->
    selected_scope d = Scope.select_scope (probed server_url (s! "scope") w)
      (info_resource_metadata (discovered_server d) ≫= r_scopes_supported) (context_text context (s! "scope")) /\
    supports_auth_code d = advertises_code (authorization_server_metadata (discovered_server d)).
Proof.
  unfold resolve, probe_www_authenticate. unfold act_bind at 1 2. unfold send.
  set (w1 := record_request (initialize_probe server_url) w). set (url := probed server_url (s! "resource_metadata") w).
  assert (Ep : (match network (sent w) (initialize_probe server_url) with
    | Ok r => act_ret (WwwAuthenticate.parse_www_authenticate_param (from_option id [] (challenge r)) (s! "resource_metadata"),
                       WwwAuthenticate.parse_www_authenticate_param (from_option id [] (challenge r)) (s! "scope"))
    | Err _ => act_ret (None, None)
    end w1 : result _ E * W) = (Ok (url, probed server_url (s! "scope") w), w1))
    by (unfold url, probed; by destruct (network _ _)).
  cbv zeta. rewrite Ep.
  unfold discover_oauth_server_info, discover_protected_resource_metadata, fetch_protected_resource_metadata, try_fetch_metadata.
  unfold act_bind at 1 2. rewrite first_some_fetch.
  set (cands := prm_url_candidates server_url url).
  pose proof (first_answer_gets network json_parse (de_resource (Url := Url)) (sent w1) cands) as G1.
  destruct (first_answer network json_parse de_resource (sent w1) cands) as [prm l1]. cbn [fst snd] in *.
  set (w2 := record_all l1 w1).
  assert (Ew : forall l, record_all l w2 = record_all (initialize_probe server_url :: l1 ++ l) w)
    by (intros l; unfold w2, w1; rewrite record_all_app; reflexivity).
  assert (Es : exists found l2, Forall (fun q => exists url, q = get url) l2 /\
    (match prm with Some prm => try_servers network json_parse (authorization_servers prm) | None => act_ret None end w2 : result _ E * W) =
    (Ok found, record_all l2 w2)).
  { destruct prm as [p|]; [|by exists None, []]. rewrite try_servers_spec.
    pose proof (first_server_gets network json_parse (sent w2) (authorization_servers p)). by eexists _, _. }
  destruct Es as (found & l2 & G2 & Es). unfold act_bind at 1. rewrite Es. destruct found as [[server meta]|].
  - eexists _, (l1 ++ l2). split; [by rewrite Ew|]. split; [by apply Forall_app|]. by intros d [= <-].
  - unfold act_bind at 1. rewrite first_some_fetch.
    match goal with |- context [first_answer network json_parse de_server ?h ?u] =>
      pose proof (first_answer_gets network json_parse (de_server (Url := Url)) h u) as G3;
      destruct (first_answer network json_parse de_server h u) as [[meta|] l3] end;
      cbn [fst snd fmap option_fmap option_map] in *; rewrite record_all_app, Ew;
      (eexists _, (l1 ++ l2 ++ l3); split; [reflexivity|]; split; [by rewrite !Forall_app|]); by intros d [= <-].
Qed.
End Flows.

(** *** Sessions *)

(** [presented]: the custom headers of the sessions that were started, in order;
    a session may send requests of its own. *)
Class SessionLaws (W C : Type) `{!Sessions W C} `{!Sender W} (presented : W -> list (option (gmap str str))) : Prop := {
  start_law p o w : let w' := (start p o w).2 in
    presented w' = presented w ++ [ConformanceClient.custom_headers o] /\ exists l, sent w' = sent w ++ l;
  list_law c w : let w' := (request_tool_list c w).2 in presented w' = presented w /\ exists l, sent w' = sent w ++ l;
  call_law c tool args w : let w' := (request_tool_call c tool args w).2 in presented w' = presented w /\ exists l, sent w' = sent w ++ l;
  shut_down_law c w : let w' := (shut_down c w).2 in presented w' = presented w /\ exists l, sent w' = sent w ++ l;
  record_law q w : presented (record_request q w) = presented w;
}.

Section Runs.
Context `{SchemaVersion} {Url W C : Type} `{UrlLib Url} `{!Sessions W C} `{!Sender W}.
Context (presented : W -> list (option (gmap str str))) `{!SessionLaws W C presented}.
Context (network : Network) (json_parse : str -> option Value) (decode_error : str -> str) (base64_encode : str -> str).
Context (sha256 base64_url_no_pad : bytes -> bytes) (rs : list N).
Context (location : list HttpRequest -> HttpRequest -> option str) (entropy : W -> bytes * N) (context : Value).
Implicit Types w : W.

(** Nothing was presented, and the log of requests is only longer. *)
Definition quiet w w' : Prop := presented w' = presented w /\ exists l, sent w' = sent w ++ l.
Lemma quiet_refl w : quiet w w.
Proof. split; [done|]. exists []. by rewrite app_nil_r. Qed.
Lemma quiet_trans w w1 w2 : quiet w w1 -> quiet w1 w2 -> quiet w w2.
Proof. intros [P [l E]] [P' [l' E']]. split; [congruence|]. exists (l ++ l'). by rewrite E', E, <-app_assoc. Qed.
Lemma quiet_record l w : quiet w (record_all l w).
Proof.
  split; [|rewrite sent_record_all; by eexists]. unfold record_all. revert w. induction l as [|q l IH]; intros w; [done|].
  simpl. by rewrite IH, record_law.
Qed.
Lemma ok_of_eq {E F A} (x : Act W E A) w : exists o, ok_of (F := F) x w = (Ok o, (x w).2) /\ (o = None <-> exists e, (x w).1 = Err e).
Proof.
  unfold ok_of. destruct (x w) as [[a|e] w']; eexists; (split; [reflexivity|]); simpl; split; try done; [by intros [? [=]]|by eexists].
Qed.
(** What happens after a state is of this kind whenever its first step was. *)
Lemma quiet_call_first c tools w : exists w', call_first_tool c tools w = (Ok tt, w') /\ quiet w w'.
Proof.
  unfold call_first_tool. destruct (tools ≫= head) as [tool|]; [|by exists w; split; [|apply quiet_refl]].
  unfold act_bind. destruct (ok_of_eq (F := Stop) (request_tool_call c tool (Some [])) w) as (o & -> & _).
  eexists. split; [done|]. apply call_law.
Qed.
Lemma quiet_first_call c tools w : exists b w', first_call c tools w = (Ok b, w') /\ quiet w w'.
Proof.
  unfold first_call. destruct tools as [[|tool r]|]; [by eexists _, w; split; [|apply quiet_refl]| |by eexists _, w; split; [|apply quiet_refl]].
  unfold act_bind. destruct (ok_of_eq (F := Stop) (request_tool_call c tool (Some [])) w) as (o & -> & _).
  eexists _, _. split; [done|]. apply call_law.
Qed.

(** Which sessions a run has started since [w]: each with a token issued for
    this server by the published authorization server. *)
Definition token_of (m : AuthorizationServerMetadata Url) (d : Discovery Url) (server_url : str) (wanted : option str) (h : gmap str str) w : Prop :=
  exists hist l, sent w = hist ++ l /\
    issued network json_parse decode_error sha256 base64_url_no_pad context m server_url (supports_auth_code d) wanted hist h.
Lemma token_later m d server_url wanted h w w' :
  (exists l, sent w' = sent w ++ l) -> token_of m d server_url wanted h w -> token_of m d server_url wanted h w'.
Proof. intros [l E] (hist & l' & E' & Hi). exists hist, (l' ++ l). by rewrite E, E', <-app_assoc. Qed.

(** Either flow of a configured client. *)
Lemma token_flow {E : Type} m d server_url wanted config (c : McpAuthClient Url Clocked) w :
  configured context d server_url wanted config -> published network json_parse m (auth_server_url d) ->
  token_store c = mkClocked rs None -> unaware m c ->
  exists o l,
    (if supports_auth_code d
     then authorization_code_flow (E := E) network json_parse decode_error base64_encode sha256 base64_url_no_pad location entropy
            config c wanted
     else client_credentials_flow network json_parse decode_error base64_encode config c) w = (Ok o, record_all l w) /\
    forall h, o = Some h -> issued network json_parse decode_error sha256 base64_url_no_pad context m server_url
      (supports_auth_code d) wanted (sent w ++ l) h.
Proof. intros Hc Hp Hs Hu. destruct (supports_auth_code d); [by eapply code_flow|by eapply credentials_flow]. Qed.

Abbreviation acquire := (acquire network json_parse decode_error base64_encode sha256 base64_url_no_pad (mkClocked rs None) location entropy context).
Lemma acquire_spec {E : Type} m server_url d w : published network json_parse m (auth_server_url d) ->
  exists o w', (acquire server_url d w : result _ E * W) = (Ok o, w') /\ quiet w w' /\
    forall h, o = Some h -> token_of m d server_url (selected_scope d) h w'.
Proof.
  intros Hp. unfold ConformanceClient.acquire.
  destruct (client_built rs context d server_url None) as (config & c & -> & Hc & Hs & Hu).
  destruct (token_flow (E := E) m d server_url _ config c w Hc Hp Hs (Hu m)) as (o & l & Ef & Hi). rewrite Ef.
  exists o, (record_all l w). split; [done|]. split; [apply quiet_record|].
  intros h Hh. exists (sent w ++ l), []. rewrite sent_record_all, app_nil_r. split; [done|]. by apply Hi.
Qed.

Abbreviation step_up := (handle_step_up network json_parse decode_error base64_encode sha256 base64_url_no_pad (mkClocked rs None) location entropy context).
Lemma step_up_spec m server_url d headers tools client w : published network json_parse m (auth_server_url d) ->
  exists w', step_up server_url d headers tools client w = (Ok tt, w') /\ (exists l, sent w' = sent w ++ l) /\
    (presented w' = presented w \/
     exists h challenged, presented w' = presented w ++ [Some h] /\
       token_of m d server_url (Some (escalated (selected_scope d) challenged)) h w').
Proof.
  intros Hp. unfold handle_step_up. unfold act_bind at 1. unfold probe_for_challenge, act_bind at 1, send. cbn [fst snd].
  set (challenged := match network _ _ with Ok _ => _ | Err _ => _ end). unfold act_ret at 1.
  set (w1 := record_request _ w). assert (Q1 : quiet w w1) by (split; [apply record_law|]; unfold w1; rewrite sent_record; by eexists).
  destruct (client_built rs context d server_url (Some (escalated (selected_scope d) challenged))) as (config & c & -> & Hc & Hs & Hu).
  destruct (token_flow (E := Stop) m d server_url _ config c w1 Hc Hp Hs (Hu m)) as (o & l & E2 & Hi). unfold act_bind at 1. rewrite E2. set (w2 := record_all l w1).
  assert (Q2 : quiet w w2) by (eapply quiet_trans; [exact Q1|apply quiet_record]).
  destruct o as [h|].
  2:{ exists w2. split; [done|]. split; [apply Q2|left; apply Q2]. }
  assert (T2 : token_of m d server_url (Some (escalated (selected_scope d) challenged)) h w2).
  { exists (sent w1 ++ l), []. unfold w2. rewrite sent_record_all, app_nil_r. split; [done|]. by apply Hi. }
  unfold act_bind at 1. destruct (ok_of_eq (F := Stop) (shut_down client) w2) as (o3 & -> & _).
  set (w3 := (shut_down client w2).2). assert (Q3 : quiet w w3) by (eapply quiet_trans; [exact Q2|apply shut_down_law]).
  assert (T3 := token_later _ _ _ _ _ _ w3 (proj2 (shut_down_law client w2)) T2).
  unfold act_bind at 1. destruct (ok_of_eq (F := Stop) (connect_with_auth server_url h) w3) as (o4 & -> & _).
  set (w4 := (connect_with_auth server_url h w3).2).
  destruct (start_law make_init_params (make_transport_options server_url (Some h)) w3 : presented w4 = _ /\ exists l, sent w4 = sent w3 ++ l) as [P4 S4].
  assert (T4 := token_later _ _ _ _ _ _ w4 S4 T3).
  assert (Fin : forall w5, quiet w4 w5 -> (exists l, sent w5 = sent w ++ l) /\ (presented w5 = presented w \/
     exists h challenged, presented w5 = presented w ++ [Some h] /\ token_of m d server_url (Some (escalated (selected_scope d) challenged)) h w5)).
  { intros w5 [P5 S5]. split.
    - destruct Q3 as [_ [l3 E3]], S4 as [l4 E4], S5 as [l5 E5]. exists (l3 ++ l4 ++ l5). by rewrite E5, E4, E3, <-!app_assoc.
    - right. exists h, challenged. rewrite P5, P4. split; [f_equal; apply Q3|]. by eapply token_later. }
  destruct o4 as [c2|]; [|exists w4; split; [done|]; apply Fin, quiet_refl].
  unfold act_bind at 1. destruct (ok_of_eq (F := Stop) (request_tool_list c2) w4) as (o5 & -> & _).
  unfold act_bind at 1. destruct (quiet_call_first c2 o5 (request_tool_list c2 w4).2) as (w6 & -> & Q6).
  unfold act_bind. destruct (ok_of_eq (F := Stop) (shut_down c2) w6) as (o7 & -> & _).
  eexists. split; [done|]. apply Fin. eapply quiet_trans; [apply list_law|]. eapply quiet_trans; [exact Q6|apply shut_down_law].
Qed.

(** An [auth/] scenario.  Provided the metadata of the authorization server that
    discovery finds stays published, the run always ends without a panic, and
    every session it starts carries a token that this server's authorization
    server issued during the run, for this server as the resource and, with the
    code grant, against the PKCE challenge sent to its authorization endpoint
    before; at most two sessions are started, the first with a token asked for
    under the scope selected by the challenge, the resource's metadata or the
    context, in this order, the second only under the union of that scope with
    one the server challenged with.  Without discovery or a token there is no
    session at all. *)
Theorem authorized_sessions m server_url w r w' :
  (forall d w1, resolve (E := Stop) network json_parse context server_url w = (Ok (Some d), w1) ->
     published network json_parse m (auth_server_url d)) ->
  run_auth network json_parse decode_error base64_encode sha256 base64_url_no_pad (mkClocked rs None) location entropy context
    server_url w = (r, w') ->
  r = Ok tt /\
  (presented w' = presented w \/
   exists d h, let prm := info_resource_metadata (discovered_server d) ≫= r_scopes_supported in
     selected_scope d = Scope.select_scope (probed network server_url (s! "scope") w) prm (context_text context (s! "scope")) /\
     token_of m d server_url (selected_scope d) h w' /\
     (presented w' = presented w ++ [Some h] \/
      exists h2 challenged, presented w' = presented w ++ [Some h; Some h2] /\
        token_of m d server_url (Some (escalated (selected_scope d) challenged)) h2 w')).
Proof.
  intros Hpub. unfold run_auth. destruct (resolve_spec (E := Stop) network json_parse context server_url w) as (o & l & Er & _ & Hd).
  unfold act_bind at 1. rewrite Er. pose proof (quiet_record (initialize_probe server_url :: l) w) as Q1.
  set (w1 := record_all _ w) in *.
  destruct o as [d|]; [|intros [= <- <-]; split; [done|]; left; apply Q1].
  destruct (Hd d eq_refl) as [Hsel _]. specialize (Hpub d _ Er).
  destruct (acquire_spec (E := Stop) m server_url d w1 Hpub) as (o & w2 & E2 & Q2 & Ht). unfold act_bind at 1. rewrite E2.
  assert (Q12 := quiet_trans _ _ _ Q1 Q2).
  destruct o as [h|]; [|intros [= <- <-]; split; [done|]; left; apply Q12]. specialize (Ht h eq_refl).
  unfold act_bind at 1. destruct (ok_of_eq (F := Stop) (connect_with_auth server_url h) w2) as (o3 & -> & _).
  set (w3 := (connect_with_auth server_url h w2).2).
  destruct (start_law make_init_params (make_transport_options server_url (Some h)) w2 : presented w3 = _ /\ exists l, sent w3 = sent w2 ++ l) as [P3 S3].
  cbn [make_transport_options ConformanceClient.custom_headers] in P3. rewrite (proj1 Q12) in P3.
  assert (T3 := token_later _ _ _ _ _ _ w3 S3 Ht).
  destruct o3 as [client|].
  2:{ intros [= <- <-]. split; [done|]. right. exists d, h. split_and!; [done|done|by left]. }
  unfold act_bind at 1. destruct (ok_of_eq (F := Stop) (request_tool_list client) w3) as (o4 & -> & _).
  unfold act_bind at 1. destruct (quiet_first_call client o4 (request_tool_list client w3).2) as (b & w5 & -> & Q5).
  assert (Q35 : quiet w3 w5) by (eapply quiet_trans; [apply list_law|exact Q5]).
  destruct (negb (is_some o4) || negb b).
  - destruct (step_up_spec m server_url d h o4 client w5 Hpub) as (w6 & -> & S6 & H6). intros [= <- <-]. split; [done|].
    right. exists d, h. split_and!; [done|eapply token_later; [exact S6|]; eapply token_later; [apply Q35|done]|].
    destruct H6 as [P6|(h2 & challenged & P6 & T6)]; rewrite P6, (proj1 Q35), P3; [by left|right].
    exists h2, challenged. by rewrite <-app_assoc.
  - unfold act_bind. destruct (ok_of_eq (F := Stop) (shut_down client) w5) as (o7 & -> & _). intros [= <- <-]. split; [done|].
    right. exists d, h. assert (Q37 : quiet w3 (shut_down client w5).2) by (eapply quiet_trans; [exact Q35|apply shut_down_law]).
    split_and!; [done|by eapply token_later; [apply Q37|]|]. left. by rewrite (proj1 Q37).
Qed.
End Runs.

(** The scope of the second token: the words of both, and so none is lost. *)
Theorem escalated_words prior challenged :
  escalated prior challenged = s! "mcp elevated" /\ Scope.union_scopes prior challenged = None \/
  exists l, escalated prior challenged = join (s! " ") l /\
    forall w, w ∈ l <-> w ∈ from_option split_whitespace [] prior \/ w ∈ from_option split_whitespace [] challenged.
Proof.
  destruct (union_scopes_spec prior challenged) as (l & _ & Hl & E). unfold escalated. rewrite E.
  case_decide; [by left|]. right. by exists l.
Qed.
End ConformanceAuth.

(** ** The two programs together *)

(** The conformance server as the conformance client finds it: what the tools
    ask of the client its handler answers.  [is_error] reads the field of a
    result; an error of a call is answered with a result that says so. *)
Section Together.
Context `{SchemaVersion} {Created : Type} (show_error : McpSdkError -> str) (created_from_value : Value -> result Created str).
Context (to_string_pretty : ElicitResult -> result str str) (show_action : ElicitResultAction -> str).
Context (from_str : str -> result Value str) (from_value : str -> Value -> result Call.t str) `{!ToolSerde from_value}.
Context (boxed : CallToolError -> CallToolError) (is_error : CallToolResult -> option bool).
Definition together : Runtime unit Created := {|
  log_info _ := act_ret tt;
  report_progress _ _ _ _ := act_ret tt;
  client_supports_sampling _ := Some (bool_decide (s! "sampling" ∈ (capabilities make_init_params).*1));
  request_message_creation _ := act_ret (handle_create_message_request.2);
  request_elicitation p := act_ret (handle_elicit_request p);
  sleep _ w := w;
|}.
#[local] Existing Instance together.
Definition call_server (tool : str) (args : option Map) : Act unit McpSdkError (option bool) :=
  fun w => match ConformanceHandler.handle_call_tool_request show_error created_from_value to_string_pretty show_action from_str
                   from_value boxed (mkCall tool args None) w with
           | (Ok r, w) => (Ok (is_error r), w)
           | (Err _, w) => (Ok (Some true), w)
           end.
Definition with_server : Sessions unit unit := {|
  start _ _ := act_ret tt;
  has_server_info _ _ := true;
  request_tool_list _ := act_ret (t_name <$> ConformanceHandler.handle_list_tools_request from_str);
  request_tool_call _ := call_server;
  shut_down _ := act_ret tt;
  wait _ w := w;
|}.
#[local] Existing Instance with_server.

Lemma server_lists : t_name <$> ConformanceHandler.handle_list_tools_request from_str = t_name <$> ConformanceFacts.listing.
Proof. by rewrite ConformanceFacts.tools_listed. Qed.
(** A tool as the tool box has it. *)
Definition tool_type (t : list Syn.Meta * Syn.DeriveInput) : ToolType :=
  from_option id (mkToolType [] no_attributes) (expand (fun _ => Err []) t).
(** A call of one of the tools without a field of its own. *)
Lemma call_dummy t d : t ∈ ConformanceFacts.box -> find (fun d => bool_decide (rust_type t = d.1)) dummy_tools = Some d ->
  ConformanceHandler.tool_params from_str from_value boxed (mkCall (tool_name t) (Some []) None) = Ok d.2.
Proof.
  intros Ht Hd. rewrite ConformanceFacts.served_call by done.
  by rewrite (ConformanceFacts.dummy_found from_value (rust_type t) d []) by (done || by left).
Qed.

(** Against each other, the client's scenarios for initialization, calling a tool
    and resuming end well.  The scenario for elicitation panics: it calls the
    first tool for it without arguments, which a tool box refuses; with empty
    arguments the tool would have got the client's defaults. *)
Theorem scenarios_against_server url :
  (forall blocks, is_error (text_content blocks) = None) ->
  run_initialize url tt = (Ok tt, tt) /\ run_tools_call url tt = (Ok tt, tt) /\ run_sse_retry url tt = (Ok tt, tt) /\
  (exists tool, tool ∈ t_name <$> ConformanceFacts.listing /\ contains (s! "elicitation") tool = true /\
     call_server tool None tt = (Ok (Some true), tt)) /\
  run_elicitation url tt = (Err (Panicked (s! "Elicitation tool should return success")), tt) /\
  call_server (s! "test_elicitation_sep1034_defaults") (Some []) tt = (Ok None, tt).
Proof.
  intros He.
  assert (Hsimple : call_server (s! "test_simple_text") (Some []) tt = (Ok None, tt)).
  { unfold call_server, ConformanceHandler.handle_call_tool_request, act_bind, act_lift.
    change (mkCall (s! "test_simple_text") (Some []) None) with (mkCall (tool_name (tool_type TestSimpleText)) (Some []) None).
    rewrite (call_dummy (tool_type TestSimpleText) (s! "TestSimpleText", Call.TestSimpleText)) by (exact (list_elem_of_lookup_2 ConformanceFacts.box 0 _ eq_refl) || done).
    cbn [snd]. unfold act_ret, simple_text, text_answer. by rewrite He. }
  assert (Hdefaults : call_server (s! "test_elicitation_sep1034_defaults") (Some []) tt = (Ok None, tt)).
  { unfold call_server, ConformanceHandler.handle_call_tool_request. unfold act_bind at 1, act_lift.
    change (mkCall _ (Some []) None) with (mkCall (tool_name (tool_type TestElicitationDefaults)) (Some []) None).
    rewrite (call_dummy (tool_type TestElicitationDefaults) (s! "TestElicitationDefaults", Call.TestElicitationDefaults)) by (exact (list_elem_of_lookup_2 ConformanceFacts.box 10 _ eq_refl) || done).
    cbn [snd]. unfold elicitation_defaults, act_bind, or_message. cbn [request_elicitation together]. unfold act_ret, completed, text_answer.
    by rewrite He. }
  assert (Hrefused : forall tool, call_server tool None tt = (Ok (Some true), tt)) by done.
  assert (Hlist : forall c, request_tool_list c tt = (Ok (t_name <$> ConformanceFacts.listing), tt))
    by (intros c; cbn [request_tool_list with_server]; by rewrite server_lists).
  assert (Hnames : t_name <$> ConformanceFacts.listing = s! "test_simple_text" :: tail (t_name <$> ConformanceFacts.listing)) by done.
  split_and!; [done|..|exact Hdefaults].
  - unfold run_tools_call, act_bind at 1, expect at 1. cbn [connect spawn_runtime start with_server act_ret].
    unfold act_bind at 1, expect at 1. rewrite Hlist. unfold act_bind at 1, assert_that at 1. rewrite bool_decide_eq_false_2 by done.
    cbn [negb]. unfold act_ret at 1, act_bind at 1, expect at 1. cbn [request_tool_call with_server].
    replace (tool_for_call _) with (s! "test_simple_text") by (by vm_compute). by rewrite Hsimple.
  - unfold run_sse_retry, act_bind at 1, ok_of at 1. cbn [connect spawn_runtime start with_server act_ret].
    unfold act_bind at 1, ok_of at 1. rewrite Hlist. unfold act_bind at 1, call_first_tool. rewrite Hnames. cbn [mbind option_bind head].
    unfold act_bind at 1, ok_of at 1. cbn [request_tool_call with_server]. by rewrite Hsimple.
  - exists (s! "test_elicitation"). split_and!; [decided|by vm_compute|done].
  - unfold run_elicitation, act_bind at 1, expect at 1. cbn [connect spawn_runtime start with_server act_ret].
    unfold act_bind at 1, expect at 1. rewrite Hlist.
    replace (find _ _) with (Some (s! "test_elicitation")) by (by vm_compute). done.
Qed.
End Together.

(** ** A run *)

(** The server wants the scope [read] at first and [admin] for its tools. *)
Module ConformanceRun.
#[global] Instance version : SchemaVersion := s! "2025-11-25".
Record world := mkWorld { log : list HttpRequest; shown : list (option (gmap str str)) }.
#[global] Instance sender : Sender world.
Proof. by refine {| sent := log; record_request q w := mkWorld (log w ++ [q]) (shown w) |}. Defined.
Definition refused {A} (w : world) : result A McpSdkError * world := (Err (EInternal (s! "403")), w).
Definition bearer (token : str) : gmap str str := bearer_headers token.
(** Only a session with the second token may list the tools. *)
#[global] Instance sessions : Sessions world unit := {|
  start _ o w := (Ok tt, mkWorld (log w) (shown w ++ [ConformanceClient.custom_headers o]));
  has_server_info _ _ := true;
  request_tool_list _ w := if bool_decide (last (shown w) = Some (Some (bearer (s! "at2")))) then (Ok [s! "tool"], w) else refused w;
  request_tool_call _ _ _ w := (Ok None, w);
  shut_down _ w := (Ok tt, w);
  wait _ w := w;
|}.
#[global] Instance laws : ConformanceAuth.SessionLaws world unit shown.
Proof.
  split; [intros; split; [done|]; exists []; by rewrite app_nil_r| |intros; split; [done|]; exists []; by rewrite app_nil_r..|done].
  intros c w. unfold request_tool_list, sessions, refused. case_bool_decide; (split; [done|]; exists []; by rewrite app_nil_r).
Qed.

Definition mcp : str := s! "https://mcp.example/mcp".
Definition token_json (token : str) : Value :=
  VObject [(s! "access_token", VString token); (s! "token_type", VString (s! "Bearer"))].
Definition json_parse (t : str) : option Value :=
  if bool_decide (t = s! "M") then Some (ser_server MetadataDemo.server)
  else if bool_decide (t = s! "R") then Some (ser_resource MetadataDemo.res)
  else Some (token_json t).
Definition wants (scope : str) : option str := Some ((s! "Bearer scope=") ++ [WwwAuthenticate.QUOTE] ++ scope ++ [WwwAuthenticate.QUOTE]).
Definition network : Network := fun _ q =>
  if bool_decide (target q = s! "https://auth.example/token") then
    match content q with
    | Form form => Ok (mkReply 200 None (Ok (if bool_decide ((s! "scope", s! "admin read") ∈ form) then s! "at2" else s! "at")))
    | _ => Ok (mkReply 400 None (Ok []))
    end
  else if bool_decide (target q = s! "https://auth.example/.well-known/oauth-authorization-server") then Ok (mkReply 200 None (Ok (s! "M")))
  else if bool_decide (target q = s! "https://mcp.example/.well-known/oauth-protected-resource/mcp") then Ok (mkReply 200 None (Ok (s! "R")))
  else if bool_decide (verb q = s! "POST") then
    if bool_decide (length (header_list q) = 3) then Ok (mkReply 403 (wants (s! "admin")) (Ok [])) else Ok (mkReply 401 (wants (s! "read")) (Ok []))
  else Ok (mkReply 302 None (Ok [])).
Definition location (_ : list HttpRequest) (_ : HttpRequest) : option str := Some (s! "http://localhost/callback?code=abc&state=x").
Definition entropy (w : world) : bytes * N := (s! "u", N.of_nat (length (log w))).
Definition context : Value := VObject [(s! "client_id", VString (s! "cid"))].
Definition run : world -> result unit Stop * world :=
  run_auth (Url := SimpleUrl.t) network json_parse (fun _ => []) (fun x => x) (fun x => x) (fun x => x) (mkClocked [] None) location
    entropy context mcp.

Example stepped_up : shown (run (mkWorld [] [])).2 = [Some (bearer (s! "at")); Some (bearer (s! "at2"))].
Proof. apply (bool_decide_eq_true_1 (_ = _)). by vm_compute. Qed.
Lemma stays_published hist : exists l, FetchFacts.first_answer network json_parse (de_server (Url := SimpleUrl.t)) hist
  (metadata_url_fallbacks (Url := SimpleUrl.t) (s! "https://auth.example")) = (Some MetadataDemo.server, l).
Proof. eexists. vm_compute. reflexivity. Qed.
End ConformanceRun.

Lemma authorized_sessions_witness : exists w' d h h2 challenged,
  ConformanceRun.run (ConformanceRun.mkWorld [] []) = (Ok tt, w') /\ selected_scope d = Some (s! "read") /\
  ConformanceRun.shown w' = [Some h; Some h2] /\
  ConformanceAuth.token_of ConformanceRun.network ConformanceRun.json_parse (fun _ => []) (fun x => x) (fun x => x)
    ConformanceRun.context MetadataDemo.server d ConformanceRun.mcp
    (Some (escalated (selected_scope d) challenged)) h2 w'.
Proof.
  destruct (ConformanceRun.run (ConformanceRun.mkWorld [] [])) as [r w'] eqn:E.
  destruct (ConformanceAuth.authorized_sessions ConformanceRun.shown ConformanceRun.network ConformanceRun.json_parse
    (fun _ => []) (fun x => x) (fun x => x) (fun x => x) [] ConformanceRun.location ConformanceRun.entropy ConformanceRun.context MetadataDemo.server ConformanceRun.mcp
    (ConformanceRun.mkWorld [] []) r w') as [-> H]; [|exact E|].
  - intros d w1 Hd. unfold ConformanceAuth.published, auth_server_url. vm_compute in Hd. injection Hd as <- _.
    intros hist. apply ConformanceRun.stays_published.
  - assert (Es := ConformanceRun.stepped_up). rewrite E in Es. cbn [snd] in Es.
    destruct H as [H|(d & h & Hsel & _ & [H|(h2 & challenged & H & T)])]; rewrite Es in H; [discriminate H|discriminate H|].
    exists w', d, h, h2, challenged. split_and!; [reflexivity| |rewrite Es; exact H|exact T].
    rewrite Hsel. vm_compute. reflexivity.
Defined.
